(* ===== verification/_CoqProject ===== *)
-Q . S2P
Prelude.v
Machine.v
ProcQueue.v
StringC.v
Spinlock.v
Kalloc.v
Vm.v
VmInv.v
VmSpec.v
VmFrame.v
Proc.v
RunQueue.v
ProcRun.v
Sched.v
SchedSys.v
UserMem.v
Trap.v
ProcSpec.v
FsState.v
Pipe.v
Sleeplock.v
Disk.v
Bio.v
Log.v
Fs.v
Dinode.v
File.v
Exec.v
Sysfile.v
Ide.v
Console.v
Kbd.v
Cmos.v
Kernel.v
FsLogic.v
BufList.v
Cache.v
LogSpec.v
LogCrash.v
LogWrite.v
PathSpec.v
BallocSpec.v
InodeSpec.v
DirSpec.v
BmapSpec.v
WriteSpec.v
FileRef.v
ConsoleSpec.v
Umalloc.v
UmallocSpec.v
User.v
Grep.v
Utils.v
Sh.v
ShSpec.v
ShPrint.v
ShRun.v
Posix.v
MergeFiles.v
MergeSpec.v
ExecLines.v
ExecSpec.v
MergeTee.v
MergeTeeSpec.v
Mkfs.v
MkfsSpec.v
MkfsImage.v
ImageBoot.v
Programs.v
Boot.v
Apic.v
Mp.v
Start.v
StartSpec.v
Witness.v
FsWitness.v
UserWitness.v
BootWitness.v
ImageWitness.v
