(* ===== verification/Prelude.v ===== *)
(** * A verification of the xv6 system of this repository

    src/xv6 is the x86 teaching system xv6 with the extensions of a course: exit
    states of processes, dup2 and date, lazy allocation of memory, and a scheduler
    with two priorities and linked run queues.  src/syscalls has three POSIX
    programs.  This library models the C code, component by component: the boot
    loader, the kernel, mkfs, the user programs and the POSIX programs, and proves
    what makes them correct.

    ** The program and the files

    The kernel:
    - Machine: constants and structs (param.h, mmu.h, memlayout.h, proc.h, x86.h,
      spinlock.h) and byte memory with 32-bit loads and stores.
    - StringC (string.c): memmove, memset and the string routines on byte memory.
    - Spinlock (spinlock.c, mycpu and cpuid of proc.c): CPUs, interrupt flags,
      locks.  State [hw]; all CPUs, the locks and which CPU executes.
    - Kalloc (kalloc.c): the free list inside the free pages.  State [vmst].
    - Vm (vm.c): page tables in byte memory.  VmInv, VmSpec and VmFrame: ownership
      of pages, what allocuvm and deallocuvm promise, what vm code leaves alone.
    - ProcQueue, Proc (proc.c): the queues, and every operation on the process
      table.  State [kst].  RunQueue and ProcRun: critical sections under
      ptable.lock; Sched and SchedSys: all interleavings of the CPUs; ProcSpec:
      wakeup, setprio, kill.
    - UserMem (the page fault of trap.c) and Trap (trap.c, syscall.c, sysproc.c,
      the exit state macros of user/user.h).
    - FsState, Pipe (pipe.c), Sleeplock (sleeplock.c): state [fstate] of files,
      pipes and sleep locks; the kernel with its files is [world].
    - Disk, Bio (bio.c, memide.c), Ide (ide.c), Log (log.c), Fs (fs.c), File
      (file.c), Exec (exec.c, loaduvm), Sysfile (sysfile.c).  State [low]: buffers,
      log, inodes, super block, disk, and the history of the accesses to devices, which the code does not read
      and from which the laws of the devices tell what they hold.  Dinode: the bytes of an inode on the disk.
    - Console (console.c), Kbd (kbd.c, uart.c), Cmos (the clock in lapic.c).
    - Kernel: the file system as the interfaces that proc.c, trap.c and syscall.c
      use, and the kernel on IDE disk, console and clock.
    - FsLogic: rules for calls that meet no contention.  On them, from the bottom
      up: BufList and Cache (the buffer cache), LogSpec, LogCrash and LogWrite (the
      log), BallocSpec (the bitmap), InodeSpec (ilock, readi, iget, iput), DirSpec
      (directories and namei), BmapSpec and WriteSpec (files that grow, writei);
      PathSpec, FileRef and ConsoleSpec: paths, file table and console.

    Start and tools:
    - Boot (bootmain.c), Apic (lapic.c, ioapic.c, picirq.c), Mp (mp.c), Start
      (main.c, tvinit and idtinit) and StartSpec.  State [sys]: the kernel with its
      controllers.
    - Posix: the system calls of programs on the host.  Mkfs (mkfs.c), MkfsSpec and
      MkfsImage: the image as an array of blocks, and the files in it; ImageBoot:
      a kernel that starts on that image.

    User programs (src/xv6/user):
    - User (ulib.c, printf.c), Umalloc and UmallocSpec (umalloc.c), Grep (grep.c),
      Utils (wc.c, cat.c, echo.c), Programs (ls.c, init.c and the programs of a few
      calls), Sh (sh.c) with ShSpec and ShPrint (the parser) and ShRun (execution).

    The programs of src/syscalls: MergeFiles and MergeSpec, ExecLines and ExecSpec,
    MergeTee and MergeTeeSpec.

    Witness, FsWitness, UserWitness, BootWitness and ImageWitness apply the theorems
    to concrete machines, disks and inputs.

    Components meet at classes: [FileLayer] (what processes ask of files),
    [SysFile] and [Devices] (what trap and syscall ask of file calls and devices),
    [BlockDev] (what the cache asks of a disk driver; [DiskOk] is the law the cache
    theorems need, and memide.c satisfies it), [DevSw] (device files; the
    console is its instance), [Ports] (the ports of the devices, with the law
    [PortsOk]: every access is answered, is recorded and changes nothing else of the kernel, and the CRT
    controller has an index and a data register), [Symbols] (addresses from the
    linker), [BootPorts] with [BootDisk] (the disk the boot loader reads), [Mmio] with
    [IoapicOk] and [ApicOk] (the registers of the interrupt controllers; accesses to the local APIC are
    answered and recorded), [Calls]
    (the system calls of small user programs), [HasPx] (a program's state that
    contains the POSIX calls), [ErrText] (the messages of perror).

    ** How code is modelled

    A C function of the kernel is a definition in a state monad ([M] below) whose
    outcome is a result, a panic with its message (without the newline), a processor
    fault, a switch to another thread, or endless waiting ([Spin]).  Integers keep
    their width: [u32], [s32], [u8] are written where C wraps around.  Pointers into
    arrays of structs are indices, null is [None] or 0; structs are records, and an
    assignment is a setter.  Memory that the hardware or several views share
    (pages, page tables, the free list, user memory) is byte memory.

    A function that gives up the CPU ends in [Swtch]; what it does when it is
    resumed is the definition with suffix [_resume] (sleep, yield, wait, pipes,
    sleep locks, begin_op, iderw, consoleread).  The steps of Sched, Sleeplock, Spinlock, Kalloc,
    Pipe and FileRef interleave such pieces in any order.

    Code that copies to or from a buffer of its caller (pipes, readi, writei, the console) takes the access to
    the buffer as an argument; for system calls it is user memory.  An access of the kernel to user memory that faults is
    made again after the handler; two tries are enough, since an access that faults twice faults for ever (UserMem).

    While the boot CPU waits for another CPU, the other CPUs run (Start): which of them got INIT and STARTUP is read
    off the writes to the local APIC, and such a CPU executes entryother.S, which checks nothing but faults when its
    code, page directory, stack or entry is not what startothers should have put there.

    A user program runs in the monad [U] of User: it returns, exits with a code, does
    not end, or faults.  Its descriptors deliver their bytes in pieces of any size,
    and with Posix also accept them so.  A [char*] that is only read is the list of the
    characters from there on.  Processes that a program starts are a tree of
    system calls (Sh) or a trace with descriptor tables (ExecLines, MergeTee).
    getopt, access and the POSIX calls are parameters.

    Loops that are not over a list carry fuel: the number of pages or characters
    they can visit (Vm, StringC), NBUF + 1 for the list of buffers (BufList shows
    that it is enough), the length of the path plus one (PathSpec shows that more
    makes no difference), n / BSIZE + 3 for the blocks that readi and writei visit
    (InodeSpec and WriteSpec show that they return), one more than the characters of
    the line for the kill key, one more than the sectors of a segment (Boot), than the
    bytes to append (Mkfs), than the buffer for a line (ExecLines) and than the bytes a
    file still has (MergeFiles), the length of the text plus two for the loop over lines
    (ExecLines).  Loops that wait for a device,
    and the loop over the multiprocessor table, which need not end, take the number of
    tries as a parameter.  Running out is an outcome of its own, never a result, so
    a theorem that a call returns also says that the fuel is enough.

    ** What the theorems show

    - Scheduling: in every interleaving of the CPUs the queues hold exactly the
      runnable processes, a process runs on at most one CPU, the scheduler picks by
      priority; the linked queues are FIFO queues; wakeup, setprio and kill do what
      they promise.
    - Locks: spin locks and sleep locks exclude, interrupts nest.
    - Memory: pages are never handed out twice; growing, shrinking and faulting in
      memory change exactly the pages they should, and no page is lost when they fail.
    - Files: a pipe is a FIFO channel under all interleavings of its readers and writers; the buffer cache is coherent; transactions
      are atomic under crashes, also crashes of the recovery; blocks are allocated
      once; readi returns the bytes of a file, writei replaces the given bytes and
      nothing else and keeps the inode on the disk in step, namei reaches the inode
      of a path; the counts of the file table are right; paths are split as
      documented; the console is a line editor and its cursor stays on the screen.
    - Images: mkfs builds the files it is given, and a kernel that starts on the image
      reads each of them back through its path.
    - Start: the boot loader loads the ELF image; the table of processors is read
      as it is; every other CPU is started once, through the local APIC and on its own stack; the gates of the interrupt table.
    - User programs: malloc hands out disjoint memory and keeps its contents, for all sizes up to 2^31 - 16
      (larger ones go wrong in sbrk or in malloc itself, as is shown); the shell's
      parser ends with a well-formed command and reads back what is printed, and
      execution wires redirections and pipes as the command says; grep's matcher decides
      its patterns.
    - src/syscalls: the merge is a round robin over lines for all buffer sizes and
      pieces; exec_lines runs exactly the commands of its input, within the limit;
      merge_tee_exec connects the three programs and nothing else.
    - Errors of the code: sbrk to zero, kill of an unused entry, page faults of the
      kernel without memory, the reservation of log space, sizes that overflow in
      malloc, an unknown entry of the multiprocessor table and lines that grep loses are
      shown to go wrong as the code is written.

    The theorems of Cache, LogSpec, LogCrash, LogWrite, BallocSpec, InodeSpec, DirSpec,
    BmapSpec, WriteSpec and ImageBoot are about calls of one process that finds the
    locks it needs free; the disk writes one block at a time, each whole.

    ** Not modelled

    Output of cprintf and panic at their calls (cprintf itself is in Console); assembly
    (its effect is the outcome [Swtch], the argument of trap, the jump that ends
    bootmain, and for entryother.S the call of mpenter); microdelay, which has no body; getcallerpcs and procdump, which only serve
    debugging; the test programs (usertests.c, forktest.c, stressfs.c and the tests
    of the course), which are inputs to the system rather than parts of it. *)
From stdpp Require Export base numbers list gmap strings.
From Stdlib Require Export ZArith Lia FunctionalExtensionality.
Open Scope Z_scope.

(** ** Machine-width integers *)

(** [uint]: the value of an unsigned 32-bit expression. *)
Definition u32 (z : Z) : Z := z mod 2 ^ 32.

(** [int]: the two's-complement reading of a 32-bit value. *)
Definition s32 (z : Z) : Z := (z + 2 ^ 31) mod 2 ^ 32 - 2 ^ 31.

(** [uchar]: the low 8 bits. *)
Definition u8 (z : Z) : Z := z mod 2 ^ 8.

Lemma u32_range z : 0 <= u32 z < 2 ^ 32.
Proof. apply Z.mod_pos_bound. lia. Qed.

Lemma u32_small z : 0 <= z < 2 ^ 32 -> u32 z = z.
Proof. apply Z.mod_small. Qed.

Lemma u32_idemp z : u32 (u32 z) = u32 z.
Proof. apply u32_small, u32_range. Qed.

Lemma s32_range z : - 2 ^ 31 <= s32 z < 2 ^ 31.
Proof. unfold s32. pose proof (Z.mod_pos_bound (z + 2 ^ 31) (2 ^ 32)). lia. Qed.

Lemma s32_small z : - 2 ^ 31 <= z < 2 ^ 31 -> s32 z = z.
Proof. intros. unfold s32. rewrite Z.mod_small; lia. Qed.

Lemma s32_u32 z : s32 (u32 z) = s32 z.
Proof. unfold s32, u32. by rewrite Z.add_mod_idemp_l. Qed.

Lemma u32_s32 z : u32 (s32 z) = u32 z.
Proof.
  unfold s32, u32. rewrite Zminus_mod_idemp_l. f_equal. lia.
Qed.

Lemma u8_range z : 0 <= u8 z < 256.
Proof. apply Z.mod_pos_bound. lia. Qed.

Lemma u8_small z : 0 <= z < 256 -> u8 z = z.
Proof. apply Z.mod_small. Qed.

(** ** Arrays

    A C array is a function from its index; [upd] is the assignment
    [a[i] = x].  The index ranges the code uses are stated where they matter. *)
Definition upd {K A} `{EqDecision K} (f : K -> A) (i : K) (x : A) : K -> A :=
  fun j => if decide (i = j) then x else f j.

Section upd_lemmas.
Context {K A : Type} `{EqDecision K}.
Implicit Types (f g : K -> A) (i j : K) (x y : A).

Lemma upd_eq f i x : upd f i x i = x.
Proof. unfold upd. by rewrite decide_True. Qed.

Lemma upd_ne f i j x : i <> j -> upd f i x j = f j.
Proof. intros. unfold upd. by rewrite decide_False. Qed.

Lemma upd_case f i j x : upd f i x j = if decide (i = j) then x else f j.
Proof. done. Qed.

Lemma upd_id f i x : f i = x -> upd f i x = f.
Proof. intros <-. extensionality j. unfold upd. case_decide; by subst. Qed.

Lemma upd_upd f i x y : upd (upd f i x) i y = upd f i y.
Proof. extensionality j. unfold upd. by case_decide. Qed.

Lemma upd_comm f i j x y : i <> j -> upd (upd f i x) j y = upd (upd f j y) i x.
Proof. intros. extensionality k. unfold upd. repeat case_decide; congruence. Qed.
End upd_lemmas.

(** ** The effects of kernel code

    A call on state [S] ends in one of five ways.  [Ret] returns a value;
    [Panic] is the kernel's [panic(msg)], which never returns; [Swtch] means
    that control left the calling thread through [swtch] (the thread is off the
    CPU with the given state); [Spin] is a busy-wait loop that cannot end while
    only this CPU runs; [Fault] is an access through a null pointer. *)
Inductive outcome (S A : Type) : Type :=
| Ret (a : A) (s : S)
| Panic (msg : string)
| Swtch (s : S)
| Spin
| Fault.
Arguments Ret {S A} a s.
Arguments Panic {S A} msg.
Arguments Swtch {S A} s.
Arguments Spin {S A}.
Arguments Fault {S A}.

Definition M (S A : Type) : Type := S -> outcome S A.

Definition ret {S A} (a : A) : M S A := fun s => Ret a s.

Definition bind {S A B} (m : M S A) (k : A -> M S B) : M S B := fun s =>
  match m s with
  | Ret a s' => k a s'
  | Panic msg => Panic msg
  | Swtch s' => Swtch s'
  | Spin => Spin
  | Fault => Fault
  end.

Definition panic {S A} (msg : string) : M S A := fun _ => Panic msg.
Definition fault {S A} : M S A := fun _ => Fault.
Definition get {S} : M S S := fun s => Ret s s.
Definition gets {S A} (f : S -> A) : M S A := fun s => Ret (f s) s.
Definition put {S} (s : S) : M S unit := fun _ => Ret tt s.
Definition modify {S} (f : S -> S) : M S unit := fun s => Ret tt (f s).
(** A loop whose fuel is exhausted: it did not end. *)
Definition out_of_fuel {S A} : M S A := fun _ => Spin.

Declare Scope kernel_scope.
Delimit Scope kernel_scope with kernel.
Notation "'let*' x ':=' m 'in' k" := (bind m (fun x => k))
  (at level 10, x name, m at level 100, k at level 200,
   format "'let*'  x  ':='  m  'in' '//' k") : kernel_scope.
Notation "m ;;; k" := (bind m (fun _ => k))
  (at level 199, right associativity, format "m  ;;; '//' k") : kernel_scope.
Open Scope kernel_scope.

(** [if(c) m;] without an else branch. *)
Definition when {S} (c : bool) (m : M S unit) : M S unit := if c then m else ret tt.

(** Run a call on a part of a larger state. *)
Definition zoom {S T A} (pr : T -> S) (inj : T -> S -> T) (m : M S A) : M T A := fun t =>
  match m (pr t) with
  | Ret a s => Ret a (inj t s)
  | Panic msg => Panic msg
  | Swtch s => Swtch (inj t s)
  | Spin => Spin
  | Fault => Fault
  end.

(** [for(x in l) f(x);] *)
Fixpoint foreach {S A} (l : list A) (f : A -> M S unit) : M S unit :=
  match l with
  | [] => ret tt
  | x :: l' => f x ;;; foreach l' f
  end.

(** Scan of a table: the first element that satisfies the test. *)
Fixpoint find_first {A} (p : A -> bool) (l : list A) : option A :=
  match l with
  | [] => None
  | x :: l' => if p x then Some x else find_first p l'
  end.

Section monad_lemmas.
Context {S : Type}.

Lemma bind_ret_l {A B} (a : A) (k : A -> M S B) s : bind (ret a) k s = k a s.
Proof. done. Qed.

Lemma bind_Ret {A B} (m : M S A) (k : A -> M S B) s a s' :
  m s = Ret a s' -> bind m k s = k a s'.
Proof. unfold bind. by intros ->. Qed.

Lemma bind_inv {A B} (m : M S A) (k : A -> M S B) s b s' :
  bind m k s = Ret b s' -> exists a s1, m s = Ret a s1 /\ k a s1 = Ret b s'.
Proof. unfold bind. destruct (m s) eqn:E; naive_solver. Qed.

Lemma bind_assoc {A B C} (m : M S A) (f : A -> M S B) (g : B -> M S C) s :
  bind (bind m f) g s = bind m (fun x => bind (f x) g) s.
Proof. unfold bind. by destruct (m s). Qed.

Lemma foreach_app {A} (l1 l2 : list A) (f : A -> M S unit) s :
  foreach (l1 ++ l2) f s = bind (foreach l1 f) (fun _ => foreach l2 f) s.
Proof.
  revert s. induction l1 as [|x l1 IH]; intros s; [done|]. simpl.
  rewrite bind_assoc. unfold bind. by destruct (f x s).
Qed.

(** An invariant of the body of a loop is an invariant of the loop. *)
Lemma foreach_inv {A} (P : S -> Prop) (l : list A) (f : A -> M S unit) s :
  (forall x s, x ∈ l -> P s -> exists s', f x s = Ret tt s' /\ P s') ->
  P s -> exists s', foreach l f s = Ret tt s' /\ P s'.
Proof.
  revert s. induction l as [|x l IH]; intros s Hf Hs; simpl; [by exists s|].
  destruct (Hf x s) as (s1 & E & H1); [set_solver|done|].
  unfold bind. rewrite E. apply IH; [|done]. intros y t Hy. apply Hf. set_solver.
Qed.
End monad_lemmas.

Lemma zoom_Ret {S T A} (pr : T -> S) inj (m : M S A) t a s' :
  m (pr t) = Ret a s' -> zoom pr inj m t = Ret a (inj t s').
Proof. unfold zoom. by intros ->. Qed.

(** [keeps I m]: a run of [m] from a state with [I] that returns ends in a state
    with [I], and [m] does not leave the CPU. *)
Definition keeps {S A} (I : S -> Prop) (m : M S A) : Prop := forall s, I s ->
  match m s with Ret _ s' => I s' | Swtch _ => False | _ => True end.

(** [wp o Q R]: if the outcome [o] is a return then [Q] holds, if it leaves the CPU then [R]. *)
Definition wp {S A} (o : outcome S A) (Q : A -> S -> Prop) (R : S -> Prop) : Prop :=
  match o with Ret a s => Q a s | Swtch s => R s | _ => True end.

Lemma wp_bind {S A B} (m : M S A) (k : A -> M S B) s Q R :
  wp (m s) (fun a s1 => wp (k a s1) Q R) R -> wp (bind m k s) Q R.
Proof. unfold wp, bind. by destruct (m s). Qed.

Lemma wp_mono {S A} (o : outcome S A) (Q Q' : A -> S -> Prop) (R R' : S -> Prop) :
  wp o Q R -> (forall a s, Q a s -> Q' a s) -> (forall s, R s -> R' s) -> wp o Q' R'.
Proof. destruct o; simpl; auto. Qed.

Section keeps_lemmas.
Context {S : Type} (I : S -> Prop).

Lemma keeps_ret {A} (a : A) : keeps I (ret a).
Proof. by intros s. Qed.
Lemma keeps_gets {A} (f : S -> A) : keeps I (gets f).
Proof. by intros s. Qed.
Lemma keeps_get : keeps I get.
Proof. by intros s. Qed.
Lemma keeps_panic {A} msg : keeps I (panic (A := A) msg).
Proof. by intros s. Qed.
Lemma keeps_fault {A} : keeps I (fault (A := A)).
Proof. by intros s. Qed.
Lemma keeps_modify f : (forall s, I s -> I (f s)) -> keeps I (modify f).
Proof. intros Hf s Hs. by apply Hf. Qed.
Lemma keeps_bind {A B} (m : M S A) (k : A -> M S B) :
  keeps I m -> (forall a, keeps I (k a)) -> keeps I (bind m k).
Proof.
  intros Hm Hk s Hs. specialize (Hm s Hs). unfold bind. destruct (m s); try done. by apply Hk.
Qed.
Lemma keeps_if {A} (b : bool) (m1 m2 : M S A) :
  keeps I m1 -> keeps I m2 -> keeps I (if b then m1 else m2).
Proof. by destruct b. Qed.
Lemma keeps_when b m : keeps I m -> keeps I (when b m).
Proof. intros. apply keeps_if; [done|apply keeps_ret]. Qed.
Lemma keeps_foreach {A} (l : list A) f : (forall x, keeps I (f x)) -> keeps I (foreach l f).
Proof.
  intros Hf. induction l as [|x l IH]; simpl; [apply keeps_ret|]. by apply keeps_bind.
Qed.
Lemma keeps_Ret {A} (m : M S A) s a s' : keeps I m -> I s -> m s = Ret a s' -> I s'.
Proof. intros Hm Hs E. specialize (Hm s Hs). by rewrite E in Hm. Qed.
End keeps_lemmas.

Lemma find_first_Some {A} (p : A -> bool) (l : list A) x :
  find_first p l = Some x ->
  exists l1 l2, l = l1 ++ x :: l2 /\ p x = true /\ forall y, y ∈ l1 -> p y = false.
Proof.
  induction l as [|y l IH]; simpl; [done|]. destruct (p y) eqn:E.
  - intros [= ->]. exists [], l. split_and!; [done|done|]. intros ? []%not_elem_of_nil.
  - intros (l1 & l2 & -> & Hx & Hl)%IH. exists (y :: l1), l2. split_and!; [done|done|].
    intros z [->|Hz]%elem_of_cons; auto.
Qed.

Lemma find_first_None {A} (p : A -> bool) (l : list A) :
  find_first p l = None <-> forall x, x ∈ l -> p x = false.
Proof.
  induction l as [|y l IH]; simpl; [set_solver|]. destruct (p y) eqn:E.
  - split; [done|]. intros H. rewrite H in E; [done|left].
  - rewrite IH. split; intros H x; [rewrite elem_of_cons; naive_solver|].
    intros. apply H. by right.
Qed.

Lemma find_first_elem {A} (p : A -> bool) (l : list A) x :
  find_first p l = Some x -> x ∈ l /\ p x = true.
Proof. intros (l1 & l2 & -> & ? & _)%find_first_Some. set_solver. Qed.

Lemma find_first_ext {A} (p q : A -> bool) (l : list A) :
  (forall x, x ∈ l -> p x = q x) -> find_first p l = find_first q l.
Proof.
  induction l as [|x l IH]; intros Hl; simpl; [done|]. rewrite Hl by left.
  destruct (q x); [done|]. apply IH. intros y Hy. apply Hl. by right.
Qed.

Lemma filter_ext_elem {A} (P Q : A -> Prop) `{!forall x, Decision (P x)} `{!forall x, Decision (Q x)}
    (l : list A) :
  (forall x, x ∈ l -> P x <-> Q x) -> filter P l = filter Q l.
Proof.
  induction l as [|x l IH]; intros Hl; [done|].
  rewrite !filter_cons, IH by (intros; apply Hl; by right). specialize (Hl x ltac:(left)). repeat case_decide; naive_solver.
Qed.

(** ** Tactics *)

(** Turn boolean tests of the code into propositions. *)
Ltac bool_to_prop :=
  repeat match goal with
  | H : (_ && _)%bool = true |- _ => apply andb_true_iff in H; destruct H
  | H : (_ && _)%bool = false |- _ => apply andb_false_iff in H
  | H : (_ || _)%bool = true |- _ => apply orb_true_iff in H
  | H : (_ || _)%bool = false |- _ => apply orb_false_iff in H; destruct H
  | H : negb _ = true |- _ => apply negb_true_iff in H
  | H : negb _ = false |- _ => apply negb_false_iff in H
  | H : (_ <? _) = true |- _ => apply Z.ltb_lt in H
  | H : (_ <? _) = false |- _ => apply Z.ltb_ge in H
  | H : (_ <=? _) = true |- _ => apply Z.leb_le in H
  | H : (_ <=? _) = false |- _ => apply Z.leb_gt in H
  | H : (_ =? _) = true |- _ => apply Z.eqb_eq in H
  | H : (_ =? _) = false |- _ => apply Z.eqb_neq in H
  | H : bool_decide _ = true |- _ => apply bool_decide_eq_true in H
  | H : bool_decide _ = false |- _ => apply bool_decide_eq_false in H
  end.

(** Run the first call of a sequence, whose result is known. *)
Ltac step E := rewrite (bind_Ret _ _ _ _ _ E).

(** Case analysis on the next test or match of a computation. *)
Ltac case_step :=
  match goal with
  | |- context [match ?x with _ => _ end] => destruct x eqn:?
  | H : context [match ?x with _ => _ end] |- _ => destruct x eqn:?
  end.

Create HintDb kernel.
Create HintDb keeps.
#[export] Hint Resolve u32_range s32_range u8_range : kernel.
#[export] Hint Resolve keeps_ret keeps_gets keeps_get keeps_panic keeps_fault keeps_when
  keeps_foreach keeps_if keeps_bind : keeps.
