(* ===== verification/Machine.v ===== *)
(** * The machine and the kernel's data

    Constants of param.h, mmu.h, memlayout.h and traps.h, the structs of proc.h,
    spinlock.h and x86.h as records, and byte-addressed memory with its 32-bit
    little-endian loads and stores.  Setters [set_f v s] are the assignments
    [s.f = v]. *)
From S2P Require Import Prelude.

(** ** Constants *)
Definition NPROC : nat := 64.
Definition KSTACKSIZE : Z := 4096.
Definition NCPU : nat := 8.
Definition NOFILE : nat := 16.
Definition NFILE : nat := 100.
Definition HI_PRIO : Z := 0.
Definition NORM_PRIO : Z := 1.
Definition NPDENTRIES : nat := 1024.
Definition PGSIZE : Z := 4096.
Definition PTXSHIFT : Z := 12.
Definition PDXSHIFT : Z := 22.
Definition PTE_P : Z := 1.
Definition PTE_W : Z := 2.
Definition PTE_U : Z := 4.
Definition EXTMEM : Z := 0x100000.
Definition PHYSTOP : Z := 0xE000000.
Definition DEVSPACE : Z := 0xFE000000.
Definition KERNBASE : Z := 0x80000000.
Definition KERNLINK : Z := KERNBASE + EXTMEM.
Definition FL_IF : Z := 0x200.
Definition SEG_KCODE : Z := 1.
Definition SEG_KDATA : Z := 2.
Definition SEG_UCODE : Z := 3.
Definition SEG_UDATA : Z := 4.
Definition SEG_TSS : Z := 5.
Definition DPL_USER : Z := 3.
Definition STS_T32A : Z := 9.
Definition STA_X : Z := 8.
Definition STA_W : Z := 2.
Definition STA_R : Z := 2.

(** ** Process states, channels and locks *)

Inductive procstate := UNUSED | EMBRYO | SLEEPING | RUNNABLE | RUNNING | ZOMBIE.
#[export] Instance procstate_eq_dec : EqDecision procstate.
Proof. solve_decision. Defined.

(** The sleep locks: one per buffer of the cache and one per cached inode. *)
Inductive sleepid := SLbuf (b : nat) | SLinode (i : nat).
#[export] Instance sleepid_eq_dec : EqDecision sleepid.
Proof. solve_decision. Defined.

(** The spin locks of the kernel, one constructor per lock (or family). *)
Inductive lockid :=
| Lptable | Lkmem | Lticks | Lftable | Licache | Lbcache | Llog | Lcons | Lide
| Lpipe (p : Z) | Lsleep (l : sleepid).
#[export] Instance lockid_eq_dec : EqDecision lockid.
Proof. solve_decision. Defined.

(** The addresses processes sleep on. *)
Inductive chan :=
| ChProc (p : nat) | ChTicks | ChLog | ChInput | ChBuf (b : nat)
| ChPipeR (p : Z) | ChPipeW (p : Z) | ChSleep (l : sleepid).
#[export] Instance chan_eq_dec : EqDecision chan.
Proof. solve_decision. Defined.

(** ** Structs *)

(** struct spinlock (spinlock.h); name and pcs[] are debugging data. *)
Record spinlock := mkSpinlock {
  lk_locked : bool;  (* uint locked *)
  lk_cpu : option nat;  (* the cpu holding the lock *)
}.

(** struct segdesc (mmu.h) with the split base and limit fields joined. *)
Record segdesc := mkSegdesc {
  sd_type : Z;
  sd_base : Z;
  sd_lim : Z;  (* the 20-bit limit field *)
  sd_s : Z;
  sd_dpl : Z;
  sd_p : Z;
  sd_db : Z;
  sd_g : Z;
}.

(** struct cpu (proc.h) and the CPU registers the C code reads and writes. *)
Record cpu := mkCpu {
  c_apicid : Z;  (* Local APIC ID *)
  c_gdt : nat -> segdesc;  (* global descriptor table *)
  c_ts_esp0 : Z;  (* ts.esp0 *)
  c_ts_ss0 : Z;  (* ts.ss0 *)
  c_ts_iomb : Z;  (* ts.iomb *)
  c_started : bool;  (* has the CPU started? *)
  c_ncli : Z;  (* depth of pushcli nesting *)
  c_intena : bool;  (* were interrupts enabled before pushcli? *)
  c_proc : option nat;  (* process running on this cpu *)
  c_if : bool;  (* register: eflags & FL_IF *)
  c_cr3 : Z;  (* register: page directory base *)
  c_tr : Z;  (* register: task register *)
}.

(** CPUs and locks. *)
Record hw := mkHw {
  hw_cpus : nat -> cpu;  (* cpus[NCPU] *)
  hw_ncpu : nat;  (* ncpu *)
  hw_me : nat;  (* the CPU that executes *)
  hw_locks : lockid -> spinlock;  (* every spinlock of the kernel *)
}.

(** CPUs, physical memory and its allocator (kalloc.c, vm.c). *)
Record vmst := mkVm {
  v_hw : hw;
  v_mem : Z -> Z;  (* bytes at kernel virtual addresses *)
  v_use_lock : bool;  (* kmem.use_lock *)
  v_freelist : Z;  (* kmem.freelist *)
  v_kpgdir : Z;  (* kpgdir *)
}.

(** struct trapframe (x86.h), padding left out. *)
Record trapframe := mkTf {
  tf_edi : Z;
  tf_esi : Z;
  tf_ebp : Z;
  tf_oesp : Z;
  tf_ebx : Z;
  tf_edx : Z;
  tf_ecx : Z;
  tf_eax : Z;
  tf_gs : Z;
  tf_fs : Z;
  tf_es : Z;
  tf_ds : Z;
  tf_trapno : Z;
  tf_err : Z;
  tf_eip : Z;
  tf_cs : Z;
  tf_eflags : Z;
  tf_esp : Z;
  tf_ss : Z;
}.

(** struct context (proc.h). *)
Record context := mkCtx {
  cx_edi : Z;
  cx_esi : Z;
  cx_ebx : Z;
  cx_ebp : Z;
  cx_eip : Z;
}.

(** struct proc (proc.h); a struct proc* is the index of the entry of ptable.proc, None is NULL. *)
Record proc := mkProc {
  p_sz : Z;  (* size of process memory (bytes) *)
  p_pgdir : Z;  (* page table *)
  p_kstack : Z;  (* bottom of kernel stack *)
  p_state : procstate;  (* process state *)
  p_pid : Z;  (* process ID *)
  p_parent : option nat;  (* parent process *)
  p_tfp : Z;  (* the pointer tf *)
  p_tf : trapframe;  (* the trap frame it points to *)
  p_ctxp : Z;  (* the pointer context *)
  p_ctx : context;  (* the context it points to *)
  p_chan : option chan;  (* if non-null, sleeping on chan *)
  p_killed : bool;  (* if non-zero, have been killed *)
  p_ofile : nat -> option nat;  (* open files *)
  p_cwd : option nat;  (* current directory *)
  p_name : list Z;  (* name, up to its NUL *)
  p_status : Z;  (* exit status *)
  p_priority : Z;  (* enum proc_prio *)
  p_previous : option nat;  (* previous process of its queue *)
  p_next : option nat;  (* next process of its queue *)
}.

(** the unnamed struct ptable (proc.c). *)
Record ptable := mkPt {
  pt_proc : nat -> proc;  (* proc[NPROC] *)
  pt_queue : Z -> option nat;  (* queue[NUM_PRIO] *)
}.

(** the kernel state of proc.c, sysproc.c and trap.c. *)
Record kst := mkK {
  k_vm : vmst;
  k_pt : ptable;  (* ptable *)
  k_nextpid : Z;  (* nextpid *)
  k_initproc : option nat;  (* initproc *)
  k_ticks : Z;  (* ticks *)
  k_first : bool;  (* the static first of forkret *)
}.

(** ** Assignments to fields *)
Definition set_lk_locked (v : bool) (s : spinlock) : spinlock := mkSpinlock v (lk_cpu s).
Definition set_lk_cpu (v : option nat) (s : spinlock) : spinlock := mkSpinlock (lk_locked s) v.

Definition set_sd_type (v : Z) (s : segdesc) : segdesc := mkSegdesc v (sd_base s) (sd_lim s) (sd_s s) (sd_dpl s) (sd_p s) (sd_db s) (sd_g s).
Definition set_sd_base (v : Z) (s : segdesc) : segdesc := mkSegdesc (sd_type s) v (sd_lim s) (sd_s s) (sd_dpl s) (sd_p s) (sd_db s) (sd_g s).
Definition set_sd_lim (v : Z) (s : segdesc) : segdesc := mkSegdesc (sd_type s) (sd_base s) v (sd_s s) (sd_dpl s) (sd_p s) (sd_db s) (sd_g s).
Definition set_sd_s (v : Z) (s : segdesc) : segdesc := mkSegdesc (sd_type s) (sd_base s) (sd_lim s) v (sd_dpl s) (sd_p s) (sd_db s) (sd_g s).
Definition set_sd_dpl (v : Z) (s : segdesc) : segdesc := mkSegdesc (sd_type s) (sd_base s) (sd_lim s) (sd_s s) v (sd_p s) (sd_db s) (sd_g s).
Definition set_sd_p (v : Z) (s : segdesc) : segdesc := mkSegdesc (sd_type s) (sd_base s) (sd_lim s) (sd_s s) (sd_dpl s) v (sd_db s) (sd_g s).
Definition set_sd_db (v : Z) (s : segdesc) : segdesc := mkSegdesc (sd_type s) (sd_base s) (sd_lim s) (sd_s s) (sd_dpl s) (sd_p s) v (sd_g s).
Definition set_sd_g (v : Z) (s : segdesc) : segdesc := mkSegdesc (sd_type s) (sd_base s) (sd_lim s) (sd_s s) (sd_dpl s) (sd_p s) (sd_db s) v.

Definition set_c_apicid (v : Z) (s : cpu) : cpu := mkCpu v (c_gdt s) (c_ts_esp0 s) (c_ts_ss0 s) (c_ts_iomb s) (c_started s) (c_ncli s) (c_intena s) (c_proc s) (c_if s) (c_cr3 s) (c_tr s).
Definition set_c_gdt (v : nat -> segdesc) (s : cpu) : cpu := mkCpu (c_apicid s) v (c_ts_esp0 s) (c_ts_ss0 s) (c_ts_iomb s) (c_started s) (c_ncli s) (c_intena s) (c_proc s) (c_if s) (c_cr3 s) (c_tr s).
Definition set_c_ts_esp0 (v : Z) (s : cpu) : cpu := mkCpu (c_apicid s) (c_gdt s) v (c_ts_ss0 s) (c_ts_iomb s) (c_started s) (c_ncli s) (c_intena s) (c_proc s) (c_if s) (c_cr3 s) (c_tr s).
Definition set_c_ts_ss0 (v : Z) (s : cpu) : cpu := mkCpu (c_apicid s) (c_gdt s) (c_ts_esp0 s) v (c_ts_iomb s) (c_started s) (c_ncli s) (c_intena s) (c_proc s) (c_if s) (c_cr3 s) (c_tr s).
Definition set_c_ts_iomb (v : Z) (s : cpu) : cpu := mkCpu (c_apicid s) (c_gdt s) (c_ts_esp0 s) (c_ts_ss0 s) v (c_started s) (c_ncli s) (c_intena s) (c_proc s) (c_if s) (c_cr3 s) (c_tr s).
Definition set_c_started (v : bool) (s : cpu) : cpu := mkCpu (c_apicid s) (c_gdt s) (c_ts_esp0 s) (c_ts_ss0 s) (c_ts_iomb s) v (c_ncli s) (c_intena s) (c_proc s) (c_if s) (c_cr3 s) (c_tr s).
Definition set_c_ncli (v : Z) (s : cpu) : cpu := mkCpu (c_apicid s) (c_gdt s) (c_ts_esp0 s) (c_ts_ss0 s) (c_ts_iomb s) (c_started s) v (c_intena s) (c_proc s) (c_if s) (c_cr3 s) (c_tr s).
Definition set_c_intena (v : bool) (s : cpu) : cpu := mkCpu (c_apicid s) (c_gdt s) (c_ts_esp0 s) (c_ts_ss0 s) (c_ts_iomb s) (c_started s) (c_ncli s) v (c_proc s) (c_if s) (c_cr3 s) (c_tr s).
Definition set_c_proc (v : option nat) (s : cpu) : cpu := mkCpu (c_apicid s) (c_gdt s) (c_ts_esp0 s) (c_ts_ss0 s) (c_ts_iomb s) (c_started s) (c_ncli s) (c_intena s) v (c_if s) (c_cr3 s) (c_tr s).
Definition set_c_if (v : bool) (s : cpu) : cpu := mkCpu (c_apicid s) (c_gdt s) (c_ts_esp0 s) (c_ts_ss0 s) (c_ts_iomb s) (c_started s) (c_ncli s) (c_intena s) (c_proc s) v (c_cr3 s) (c_tr s).
Definition set_c_cr3 (v : Z) (s : cpu) : cpu := mkCpu (c_apicid s) (c_gdt s) (c_ts_esp0 s) (c_ts_ss0 s) (c_ts_iomb s) (c_started s) (c_ncli s) (c_intena s) (c_proc s) (c_if s) v (c_tr s).
Definition set_c_tr (v : Z) (s : cpu) : cpu := mkCpu (c_apicid s) (c_gdt s) (c_ts_esp0 s) (c_ts_ss0 s) (c_ts_iomb s) (c_started s) (c_ncli s) (c_intena s) (c_proc s) (c_if s) (c_cr3 s) v.

Definition set_hw_cpus (v : nat -> cpu) (s : hw) : hw := mkHw v (hw_ncpu s) (hw_me s) (hw_locks s).
Definition set_hw_ncpu (v : nat) (s : hw) : hw := mkHw (hw_cpus s) v (hw_me s) (hw_locks s).
Definition set_hw_me (v : nat) (s : hw) : hw := mkHw (hw_cpus s) (hw_ncpu s) v (hw_locks s).
Definition set_hw_locks (v : lockid -> spinlock) (s : hw) : hw := mkHw (hw_cpus s) (hw_ncpu s) (hw_me s) v.

Definition set_v_hw (v : hw) (s : vmst) : vmst := mkVm v (v_mem s) (v_use_lock s) (v_freelist s) (v_kpgdir s).
Definition set_v_mem (v : Z -> Z) (s : vmst) : vmst := mkVm (v_hw s) v (v_use_lock s) (v_freelist s) (v_kpgdir s).
Definition set_v_use_lock (v : bool) (s : vmst) : vmst := mkVm (v_hw s) (v_mem s) v (v_freelist s) (v_kpgdir s).
Definition set_v_freelist (v : Z) (s : vmst) : vmst := mkVm (v_hw s) (v_mem s) (v_use_lock s) v (v_kpgdir s).
Definition set_v_kpgdir (v : Z) (s : vmst) : vmst := mkVm (v_hw s) (v_mem s) (v_use_lock s) (v_freelist s) v.

Definition set_tf_edi (v : Z) (s : trapframe) : trapframe := mkTf v (tf_esi s) (tf_ebp s) (tf_oesp s) (tf_ebx s) (tf_edx s) (tf_ecx s) (tf_eax s) (tf_gs s) (tf_fs s) (tf_es s) (tf_ds s) (tf_trapno s) (tf_err s) (tf_eip s) (tf_cs s) (tf_eflags s) (tf_esp s) (tf_ss s).
Definition set_tf_esi (v : Z) (s : trapframe) : trapframe := mkTf (tf_edi s) v (tf_ebp s) (tf_oesp s) (tf_ebx s) (tf_edx s) (tf_ecx s) (tf_eax s) (tf_gs s) (tf_fs s) (tf_es s) (tf_ds s) (tf_trapno s) (tf_err s) (tf_eip s) (tf_cs s) (tf_eflags s) (tf_esp s) (tf_ss s).
Definition set_tf_ebp (v : Z) (s : trapframe) : trapframe := mkTf (tf_edi s) (tf_esi s) v (tf_oesp s) (tf_ebx s) (tf_edx s) (tf_ecx s) (tf_eax s) (tf_gs s) (tf_fs s) (tf_es s) (tf_ds s) (tf_trapno s) (tf_err s) (tf_eip s) (tf_cs s) (tf_eflags s) (tf_esp s) (tf_ss s).
Definition set_tf_oesp (v : Z) (s : trapframe) : trapframe := mkTf (tf_edi s) (tf_esi s) (tf_ebp s) v (tf_ebx s) (tf_edx s) (tf_ecx s) (tf_eax s) (tf_gs s) (tf_fs s) (tf_es s) (tf_ds s) (tf_trapno s) (tf_err s) (tf_eip s) (tf_cs s) (tf_eflags s) (tf_esp s) (tf_ss s).
Definition set_tf_ebx (v : Z) (s : trapframe) : trapframe := mkTf (tf_edi s) (tf_esi s) (tf_ebp s) (tf_oesp s) v (tf_edx s) (tf_ecx s) (tf_eax s) (tf_gs s) (tf_fs s) (tf_es s) (tf_ds s) (tf_trapno s) (tf_err s) (tf_eip s) (tf_cs s) (tf_eflags s) (tf_esp s) (tf_ss s).
Definition set_tf_edx (v : Z) (s : trapframe) : trapframe := mkTf (tf_edi s) (tf_esi s) (tf_ebp s) (tf_oesp s) (tf_ebx s) v (tf_ecx s) (tf_eax s) (tf_gs s) (tf_fs s) (tf_es s) (tf_ds s) (tf_trapno s) (tf_err s) (tf_eip s) (tf_cs s) (tf_eflags s) (tf_esp s) (tf_ss s).
Definition set_tf_ecx (v : Z) (s : trapframe) : trapframe := mkTf (tf_edi s) (tf_esi s) (tf_ebp s) (tf_oesp s) (tf_ebx s) (tf_edx s) v (tf_eax s) (tf_gs s) (tf_fs s) (tf_es s) (tf_ds s) (tf_trapno s) (tf_err s) (tf_eip s) (tf_cs s) (tf_eflags s) (tf_esp s) (tf_ss s).
Definition set_tf_eax (v : Z) (s : trapframe) : trapframe := mkTf (tf_edi s) (tf_esi s) (tf_ebp s) (tf_oesp s) (tf_ebx s) (tf_edx s) (tf_ecx s) v (tf_gs s) (tf_fs s) (tf_es s) (tf_ds s) (tf_trapno s) (tf_err s) (tf_eip s) (tf_cs s) (tf_eflags s) (tf_esp s) (tf_ss s).
Definition set_tf_gs (v : Z) (s : trapframe) : trapframe := mkTf (tf_edi s) (tf_esi s) (tf_ebp s) (tf_oesp s) (tf_ebx s) (tf_edx s) (tf_ecx s) (tf_eax s) v (tf_fs s) (tf_es s) (tf_ds s) (tf_trapno s) (tf_err s) (tf_eip s) (tf_cs s) (tf_eflags s) (tf_esp s) (tf_ss s).
Definition set_tf_fs (v : Z) (s : trapframe) : trapframe := mkTf (tf_edi s) (tf_esi s) (tf_ebp s) (tf_oesp s) (tf_ebx s) (tf_edx s) (tf_ecx s) (tf_eax s) (tf_gs s) v (tf_es s) (tf_ds s) (tf_trapno s) (tf_err s) (tf_eip s) (tf_cs s) (tf_eflags s) (tf_esp s) (tf_ss s).
Definition set_tf_es (v : Z) (s : trapframe) : trapframe := mkTf (tf_edi s) (tf_esi s) (tf_ebp s) (tf_oesp s) (tf_ebx s) (tf_edx s) (tf_ecx s) (tf_eax s) (tf_gs s) (tf_fs s) v (tf_ds s) (tf_trapno s) (tf_err s) (tf_eip s) (tf_cs s) (tf_eflags s) (tf_esp s) (tf_ss s).
Definition set_tf_ds (v : Z) (s : trapframe) : trapframe := mkTf (tf_edi s) (tf_esi s) (tf_ebp s) (tf_oesp s) (tf_ebx s) (tf_edx s) (tf_ecx s) (tf_eax s) (tf_gs s) (tf_fs s) (tf_es s) v (tf_trapno s) (tf_err s) (tf_eip s) (tf_cs s) (tf_eflags s) (tf_esp s) (tf_ss s).
Definition set_tf_trapno (v : Z) (s : trapframe) : trapframe := mkTf (tf_edi s) (tf_esi s) (tf_ebp s) (tf_oesp s) (tf_ebx s) (tf_edx s) (tf_ecx s) (tf_eax s) (tf_gs s) (tf_fs s) (tf_es s) (tf_ds s) v (tf_err s) (tf_eip s) (tf_cs s) (tf_eflags s) (tf_esp s) (tf_ss s).
Definition set_tf_err (v : Z) (s : trapframe) : trapframe := mkTf (tf_edi s) (tf_esi s) (tf_ebp s) (tf_oesp s) (tf_ebx s) (tf_edx s) (tf_ecx s) (tf_eax s) (tf_gs s) (tf_fs s) (tf_es s) (tf_ds s) (tf_trapno s) v (tf_eip s) (tf_cs s) (tf_eflags s) (tf_esp s) (tf_ss s).
Definition set_tf_eip (v : Z) (s : trapframe) : trapframe := mkTf (tf_edi s) (tf_esi s) (tf_ebp s) (tf_oesp s) (tf_ebx s) (tf_edx s) (tf_ecx s) (tf_eax s) (tf_gs s) (tf_fs s) (tf_es s) (tf_ds s) (tf_trapno s) (tf_err s) v (tf_cs s) (tf_eflags s) (tf_esp s) (tf_ss s).
Definition set_tf_cs (v : Z) (s : trapframe) : trapframe := mkTf (tf_edi s) (tf_esi s) (tf_ebp s) (tf_oesp s) (tf_ebx s) (tf_edx s) (tf_ecx s) (tf_eax s) (tf_gs s) (tf_fs s) (tf_es s) (tf_ds s) (tf_trapno s) (tf_err s) (tf_eip s) v (tf_eflags s) (tf_esp s) (tf_ss s).
Definition set_tf_eflags (v : Z) (s : trapframe) : trapframe := mkTf (tf_edi s) (tf_esi s) (tf_ebp s) (tf_oesp s) (tf_ebx s) (tf_edx s) (tf_ecx s) (tf_eax s) (tf_gs s) (tf_fs s) (tf_es s) (tf_ds s) (tf_trapno s) (tf_err s) (tf_eip s) (tf_cs s) v (tf_esp s) (tf_ss s).
Definition set_tf_esp (v : Z) (s : trapframe) : trapframe := mkTf (tf_edi s) (tf_esi s) (tf_ebp s) (tf_oesp s) (tf_ebx s) (tf_edx s) (tf_ecx s) (tf_eax s) (tf_gs s) (tf_fs s) (tf_es s) (tf_ds s) (tf_trapno s) (tf_err s) (tf_eip s) (tf_cs s) (tf_eflags s) v (tf_ss s).
Definition set_tf_ss (v : Z) (s : trapframe) : trapframe := mkTf (tf_edi s) (tf_esi s) (tf_ebp s) (tf_oesp s) (tf_ebx s) (tf_edx s) (tf_ecx s) (tf_eax s) (tf_gs s) (tf_fs s) (tf_es s) (tf_ds s) (tf_trapno s) (tf_err s) (tf_eip s) (tf_cs s) (tf_eflags s) (tf_esp s) v.

Definition set_cx_edi (v : Z) (s : context) : context := mkCtx v (cx_esi s) (cx_ebx s) (cx_ebp s) (cx_eip s).
Definition set_cx_esi (v : Z) (s : context) : context := mkCtx (cx_edi s) v (cx_ebx s) (cx_ebp s) (cx_eip s).
Definition set_cx_ebx (v : Z) (s : context) : context := mkCtx (cx_edi s) (cx_esi s) v (cx_ebp s) (cx_eip s).
Definition set_cx_ebp (v : Z) (s : context) : context := mkCtx (cx_edi s) (cx_esi s) (cx_ebx s) v (cx_eip s).
Definition set_cx_eip (v : Z) (s : context) : context := mkCtx (cx_edi s) (cx_esi s) (cx_ebx s) (cx_ebp s) v.

Definition set_p_sz (v : Z) (s : proc) : proc := mkProc v (p_pgdir s) (p_kstack s) (p_state s) (p_pid s) (p_parent s) (p_tfp s) (p_tf s) (p_ctxp s) (p_ctx s) (p_chan s) (p_killed s) (p_ofile s) (p_cwd s) (p_name s) (p_status s) (p_priority s) (p_previous s) (p_next s).
Definition set_p_pgdir (v : Z) (s : proc) : proc := mkProc (p_sz s) v (p_kstack s) (p_state s) (p_pid s) (p_parent s) (p_tfp s) (p_tf s) (p_ctxp s) (p_ctx s) (p_chan s) (p_killed s) (p_ofile s) (p_cwd s) (p_name s) (p_status s) (p_priority s) (p_previous s) (p_next s).
Definition set_p_kstack (v : Z) (s : proc) : proc := mkProc (p_sz s) (p_pgdir s) v (p_state s) (p_pid s) (p_parent s) (p_tfp s) (p_tf s) (p_ctxp s) (p_ctx s) (p_chan s) (p_killed s) (p_ofile s) (p_cwd s) (p_name s) (p_status s) (p_priority s) (p_previous s) (p_next s).
Definition set_p_state (v : procstate) (s : proc) : proc := mkProc (p_sz s) (p_pgdir s) (p_kstack s) v (p_pid s) (p_parent s) (p_tfp s) (p_tf s) (p_ctxp s) (p_ctx s) (p_chan s) (p_killed s) (p_ofile s) (p_cwd s) (p_name s) (p_status s) (p_priority s) (p_previous s) (p_next s).
Definition set_p_pid (v : Z) (s : proc) : proc := mkProc (p_sz s) (p_pgdir s) (p_kstack s) (p_state s) v (p_parent s) (p_tfp s) (p_tf s) (p_ctxp s) (p_ctx s) (p_chan s) (p_killed s) (p_ofile s) (p_cwd s) (p_name s) (p_status s) (p_priority s) (p_previous s) (p_next s).
Definition set_p_parent (v : option nat) (s : proc) : proc := mkProc (p_sz s) (p_pgdir s) (p_kstack s) (p_state s) (p_pid s) v (p_tfp s) (p_tf s) (p_ctxp s) (p_ctx s) (p_chan s) (p_killed s) (p_ofile s) (p_cwd s) (p_name s) (p_status s) (p_priority s) (p_previous s) (p_next s).
Definition set_p_tfp (v : Z) (s : proc) : proc := mkProc (p_sz s) (p_pgdir s) (p_kstack s) (p_state s) (p_pid s) (p_parent s) v (p_tf s) (p_ctxp s) (p_ctx s) (p_chan s) (p_killed s) (p_ofile s) (p_cwd s) (p_name s) (p_status s) (p_priority s) (p_previous s) (p_next s).
Definition set_p_tf (v : trapframe) (s : proc) : proc := mkProc (p_sz s) (p_pgdir s) (p_kstack s) (p_state s) (p_pid s) (p_parent s) (p_tfp s) v (p_ctxp s) (p_ctx s) (p_chan s) (p_killed s) (p_ofile s) (p_cwd s) (p_name s) (p_status s) (p_priority s) (p_previous s) (p_next s).
Definition set_p_ctxp (v : Z) (s : proc) : proc := mkProc (p_sz s) (p_pgdir s) (p_kstack s) (p_state s) (p_pid s) (p_parent s) (p_tfp s) (p_tf s) v (p_ctx s) (p_chan s) (p_killed s) (p_ofile s) (p_cwd s) (p_name s) (p_status s) (p_priority s) (p_previous s) (p_next s).
Definition set_p_ctx (v : context) (s : proc) : proc := mkProc (p_sz s) (p_pgdir s) (p_kstack s) (p_state s) (p_pid s) (p_parent s) (p_tfp s) (p_tf s) (p_ctxp s) v (p_chan s) (p_killed s) (p_ofile s) (p_cwd s) (p_name s) (p_status s) (p_priority s) (p_previous s) (p_next s).
Definition set_p_chan (v : option chan) (s : proc) : proc := mkProc (p_sz s) (p_pgdir s) (p_kstack s) (p_state s) (p_pid s) (p_parent s) (p_tfp s) (p_tf s) (p_ctxp s) (p_ctx s) v (p_killed s) (p_ofile s) (p_cwd s) (p_name s) (p_status s) (p_priority s) (p_previous s) (p_next s).
Definition set_p_killed (v : bool) (s : proc) : proc := mkProc (p_sz s) (p_pgdir s) (p_kstack s) (p_state s) (p_pid s) (p_parent s) (p_tfp s) (p_tf s) (p_ctxp s) (p_ctx s) (p_chan s) v (p_ofile s) (p_cwd s) (p_name s) (p_status s) (p_priority s) (p_previous s) (p_next s).
Definition set_p_ofile (v : nat -> option nat) (s : proc) : proc := mkProc (p_sz s) (p_pgdir s) (p_kstack s) (p_state s) (p_pid s) (p_parent s) (p_tfp s) (p_tf s) (p_ctxp s) (p_ctx s) (p_chan s) (p_killed s) v (p_cwd s) (p_name s) (p_status s) (p_priority s) (p_previous s) (p_next s).
Definition set_p_cwd (v : option nat) (s : proc) : proc := mkProc (p_sz s) (p_pgdir s) (p_kstack s) (p_state s) (p_pid s) (p_parent s) (p_tfp s) (p_tf s) (p_ctxp s) (p_ctx s) (p_chan s) (p_killed s) (p_ofile s) v (p_name s) (p_status s) (p_priority s) (p_previous s) (p_next s).
Definition set_p_name (v : list Z) (s : proc) : proc := mkProc (p_sz s) (p_pgdir s) (p_kstack s) (p_state s) (p_pid s) (p_parent s) (p_tfp s) (p_tf s) (p_ctxp s) (p_ctx s) (p_chan s) (p_killed s) (p_ofile s) (p_cwd s) v (p_status s) (p_priority s) (p_previous s) (p_next s).
Definition set_p_status (v : Z) (s : proc) : proc := mkProc (p_sz s) (p_pgdir s) (p_kstack s) (p_state s) (p_pid s) (p_parent s) (p_tfp s) (p_tf s) (p_ctxp s) (p_ctx s) (p_chan s) (p_killed s) (p_ofile s) (p_cwd s) (p_name s) v (p_priority s) (p_previous s) (p_next s).
Definition set_p_priority (v : Z) (s : proc) : proc := mkProc (p_sz s) (p_pgdir s) (p_kstack s) (p_state s) (p_pid s) (p_parent s) (p_tfp s) (p_tf s) (p_ctxp s) (p_ctx s) (p_chan s) (p_killed s) (p_ofile s) (p_cwd s) (p_name s) (p_status s) v (p_previous s) (p_next s).
Definition set_p_previous (v : option nat) (s : proc) : proc := mkProc (p_sz s) (p_pgdir s) (p_kstack s) (p_state s) (p_pid s) (p_parent s) (p_tfp s) (p_tf s) (p_ctxp s) (p_ctx s) (p_chan s) (p_killed s) (p_ofile s) (p_cwd s) (p_name s) (p_status s) (p_priority s) v (p_next s).
Definition set_p_next (v : option nat) (s : proc) : proc := mkProc (p_sz s) (p_pgdir s) (p_kstack s) (p_state s) (p_pid s) (p_parent s) (p_tfp s) (p_tf s) (p_ctxp s) (p_ctx s) (p_chan s) (p_killed s) (p_ofile s) (p_cwd s) (p_name s) (p_status s) (p_priority s) (p_previous s) v.

Definition set_pt_proc (v : nat -> proc) (s : ptable) : ptable := mkPt v (pt_queue s).
Definition set_pt_queue (v : Z -> option nat) (s : ptable) : ptable := mkPt (pt_proc s) v.

Definition set_k_vm (v : vmst) (s : kst) : kst := mkK v (k_pt s) (k_nextpid s) (k_initproc s) (k_ticks s) (k_first s).
Definition set_k_pt (v : ptable) (s : kst) : kst := mkK (k_vm s) v (k_nextpid s) (k_initproc s) (k_ticks s) (k_first s).
Definition set_k_nextpid (v : Z) (s : kst) : kst := mkK (k_vm s) (k_pt s) v (k_initproc s) (k_ticks s) (k_first s).
Definition set_k_initproc (v : option nat) (s : kst) : kst := mkK (k_vm s) (k_pt s) (k_nextpid s) v (k_ticks s) (k_first s).
Definition set_k_ticks (v : Z) (s : kst) : kst := mkK (k_vm s) (k_pt s) (k_nextpid s) (k_initproc s) v (k_first s).
Definition set_k_first (v : bool) (s : kst) : kst := mkK (k_vm s) (k_pt s) (k_nextpid s) (k_initproc s) (k_ticks s) v.

(** ** Zeroed memory: the initial value of static data *)
Definition lock0 : spinlock := mkSpinlock false None.
Definition seg0 : segdesc := mkSegdesc 0 0 0 0 0 0 0 0.
Definition cpu0 : cpu := mkCpu 0 (fun _ => seg0) 0 0 0 false 0 false None false 0 0.
Definition tf0 : trapframe := mkTf 0 0 0 0 0 0 0 0 0 0 0 0 0 0 0 0 0 0 0.
Definition ctx0 : context := mkCtx 0 0 0 0 0.
Definition proc0 : proc :=
  mkProc 0 0 0 UNUSED 0 None 0 tf0 0 ctx0 None false (fun _ => None) None [] 0 0 None None.
Definition ptable0 : ptable := mkPt (fun _ => proc0) (fun _ => None).

(** ** Address arithmetic (mmu.h, memlayout.h) *)
Definition PGROUNDUP (sz : Z) : Z := Z.land (u32 (sz + PGSIZE - 1)) (Z.lnot (PGSIZE - 1)).
Definition PGROUNDDOWN (a : Z) : Z := Z.land a (Z.lnot (PGSIZE - 1)).
Definition PDX (va : Z) : Z := Z.land (Z.shiftr (u32 va) PDXSHIFT) 0x3FF.
Definition PTX (va : Z) : Z := Z.land (Z.shiftr (u32 va) PTXSHIFT) 0x3FF.
Definition PGADDR (d t o : Z) : Z :=
  u32 (Z.lor (Z.lor (Z.shiftl d PDXSHIFT) (Z.shiftl t PTXSHIFT)) o).
Definition PTE_ADDR (pte : Z) : Z := Z.land (u32 pte) (Z.lnot 0xFFF).
Definition PTE_FLAGS (pte : Z) : Z := Z.land (u32 pte) 0xFFF.
Definition V2P (a : Z) : Z := u32 (u32 a - KERNBASE).
Definition P2V (a : Z) : Z := u32 (a + KERNBASE).

(** ** Memory *)

(** A little-endian 32-bit load. *)
Definition load32 (m : Z -> Z) (a : Z) : Z :=
  u8 (m a) + 256 * u8 (m (a + 1)) + 65536 * u8 (m (a + 2)) + 16777216 * u8 (m (a + 3)).

(** A little-endian 32-bit store. *)
Definition store32 (m : Z -> Z) (a v : Z) : Z -> Z := fun b =>
  if decide (a <= b < a + 4) then u8 (Z.shiftr v (8 * (b - a))) else m b.

(** ** Lemmas on addresses *)

Lemma land_lnot_ones a n : 0 <= n -> Z.land a (Z.lnot (2 ^ n - 1)) = a - a mod 2 ^ n.
Proof.
  intros Hn. replace (2 ^ n - 1) with (Z.ones n) by (rewrite Z.ones_equiv; lia).
  rewrite <- Z.ldiff_land, Z.ldiff_ones_r, Z.shiftl_mul_pow2, Z.shiftr_div_pow2 by done.
  pose proof (Z.div_mod a (2 ^ n)). lia.
Qed.

Lemma PGROUNDDOWN_eq a : PGROUNDDOWN a = a - a mod PGSIZE.
Proof. apply (land_lnot_ones a 12). lia. Qed.

Lemma PGROUNDUP_eq sz :
  PGROUNDUP sz = u32 (sz + PGSIZE - 1) - u32 (sz + PGSIZE - 1) mod PGSIZE.
Proof. apply (land_lnot_ones _ 12). lia. Qed.

Lemma PTE_ADDR_eq pte : PTE_ADDR pte = u32 pte - u32 pte mod PGSIZE.
Proof. apply (land_lnot_ones _ 12). lia. Qed.

Lemma PTE_FLAGS_eq pte : PTE_FLAGS pte = u32 pte mod PGSIZE.
Proof. apply (Z.land_ones _ 12). lia. Qed.

Lemma PDX_eq va : PDX va = u32 va / 2 ^ 22.
Proof.
  unfold PDX, PDXSHIFT. rewrite Z.shiftr_div_pow2 by lia.
  change 0x3FF with (Z.ones 10). rewrite Z.land_ones by lia.
  apply Z.mod_small. pose proof (u32_range va).
  split; [apply Z.div_pos; lia|apply Z.div_lt_upper_bound; lia].
Qed.

Lemma PTX_eq va : PTX va = u32 va / 2 ^ 12 mod 2 ^ 10.
Proof.
  unfold PTX, PTXSHIFT. rewrite Z.shiftr_div_pow2 by lia.
  change 0x3FF with (Z.ones 10). by rewrite Z.land_ones by lia.
Qed.

(** Disjoint bits: or is addition. *)
Lemma lor_add_low a b n :
  0 <= n -> a mod 2 ^ n = 0 -> 0 <= b < 2 ^ n -> Z.lor a b = a + b.
Proof.
  intros Hn Ha Hb. assert (Z.land a b = 0) as H0.
  { apply Z.bits_inj'. intros i Hi. rewrite Z.land_spec, Z.bits_0.
    destruct (decide (i < n)).
    - replace a with (a / 2 ^ n * 2 ^ n) by (pose proof (Z.div_mod a (2 ^ n)); lia).
      by rewrite Z.mul_pow2_bits_low by lia.
    - rewrite <- (Z.mod_small b (2 ^ n)), Z.mod_pow2_bits_high by lia. apply andb_false_r. }
  by rewrite Z.add_nocarry_lxor, Z.lxor_lor.
Qed.

Lemma PGADDR_eq d t o :
  0 <= d < 1024 -> 0 <= t < 1024 -> 0 <= o < 4096 ->
  PGADDR d t o = d * 2 ^ 22 + t * 2 ^ 12 + o.
Proof.
  intros Hd Ht Ho. unfold PGADDR, PDXSHIFT, PTXSHIFT. rewrite !Z.shiftl_mul_pow2 by lia.
  rewrite (lor_add_low _ (t * 2 ^ 12) 22) by (try rewrite Z_mod_mult; lia).
  rewrite (lor_add_low _ o 12); [apply u32_small; lia|lia| |lia].
  replace (d * 2 ^ 22 + t * 2 ^ 12) with ((d * 2 ^ 10 + t) * 2 ^ 12) by lia. apply Z_mod_mult.
Qed.

(** ** Lemmas on memory *)

Lemma load32_range m a : 0 <= load32 m a < 2 ^ 32.
Proof.
  unfold load32. pose proof (u8_range (m a)). pose proof (u8_range (m (a + 1))).
  pose proof (u8_range (m (a + 2))). pose proof (u8_range (m (a + 3))). lia.
Qed.

Lemma load32_ext m m' a : (forall b, a <= b < a + 4 -> m b = m' b) -> load32 m a = load32 m' a.
Proof. intros H. unfold load32. rewrite !H by lia. done. Qed.

Lemma load32_store32_eq m a v : load32 (store32 m a v) a = u32 v.
Proof.
  unfold load32, store32. rewrite !decide_True by lia.
  unfold u8, u32. rewrite !Z.shiftr_div_pow2, !Z.mod_mod by lia.
  replace (8 * (a - a)) with 0 by lia. replace (8 * (a + 1 - a)) with 8 by lia.
  replace (8 * (a + 2 - a)) with 16 by lia. replace (8 * (a + 3 - a)) with 24 by lia.
  rewrite Z.div_1_r. change (2 ^ 32) with (256 * (256 * (256 * 256))).
  rewrite !Z.rem_mul_r by lia. rewrite !Z.div_div by lia.
  change (256 * 256) with (2 ^ 16). change (2 ^ 16 * 256) with (2 ^ 24).
  change 256 with (2 ^ 8). lia.
Qed.

Lemma load32_store32_ne m a b v : a + 4 <= b \/ b + 4 <= a -> load32 (store32 m a v) b = load32 m b.
Proof.
  intros H. apply load32_ext. intros c Hc. unfold store32. rewrite decide_False by lia. done.
Qed.

Lemma store32_ne m a v b : b < a \/ a + 4 <= b -> store32 m a v b = m b.
Proof. intros H. unfold store32. by rewrite decide_False by lia. Qed.
