(* ===== verification/ProcQueue.v ===== *)
(** * The priority queues of the process table (proc.c: enqueue, dequeue)

    Each priority has a circular doubly linked list threaded through the
    [previous] and [next] fields of the process table; [ptable.queue[prio]]
    points to its first process.  The file models the two operations and proves
    that they implement a FIFO queue: [enqueue] appends, [dequeue] removes. *)
From S2P Require Import Prelude Machine.

Definition is_null {A} (o : option A) : bool := match o with None => true | Some _ => false end.

(** [p->f] and [p->f = ...] for a process pointer. *)
Definition pt_get (p : nat) : M ptable proc := gets (fun t => pt_proc t p).
Definition pt_upd (p : nat) (f : proc -> proc) : M ptable unit :=
  modify (fun t => set_pt_proc (upd (pt_proc t) p (f (pt_proc t p))) t).
(** [p->f] where [p] may be NULL. *)
Definition deref {A} (o : option nat) (k : nat -> M ptable A) : M ptable A :=
  match o with None => fault | Some p => k p end.
Definition set_queue (prio : Z) (q : option nat) : M ptable unit :=
  modify (fun t => set_pt_queue (upd (pt_queue t) prio q) t).

Definition enqueue (p : nat) : M ptable unit :=
  let* pp := pt_get p in
  if negb (is_null (p_previous pp)) && negb (is_null (p_next pp)) then
    panic "enqueue: can't push process that is already in a queue"
  else if (is_null (p_previous pp) && negb (is_null (p_next pp)))
       || (negb (is_null (p_previous pp)) && is_null (p_next pp)) then
    panic "enqueue: corrupted process priority queue data"
  else
  let* q := gets (fun t => pt_queue t (p_priority pp)) in
  match q with
  | None =>
    set_queue (p_priority pp) (Some p) ;;;
    pt_upd p (set_p_previous (Some p)) ;;;
    pt_upd p (set_p_next (Some p))
  | Some h =>
    let* hp := pt_get h in
    deref (p_previous hp) (fun l => pt_upd l (set_p_next (Some p))) ;;;
    let* hp := pt_get h in
    pt_upd p (set_p_previous (p_previous hp)) ;;;
    pt_upd h (set_p_previous (Some p)) ;;;
    pt_upd p (set_p_next (Some h))
  end.

Definition dequeue (p : nat) : M ptable unit :=
  let* pp := pt_get p in
  let* q := gets (fun t => pt_queue t (p_priority pp)) in
  if is_null q then panic "dequeue: can't pop from a queue that was empty"
  else if is_null (p_previous pp) && is_null (p_next pp) then
    panic "dequeue: can't pop process that is not in a queue"
  else if (is_null (p_previous pp) && negb (is_null (p_next pp)))
       || (negb (is_null (p_previous pp)) && is_null (p_next pp))
       || (bool_decide (p_previous pp = Some p) && negb (bool_decide (p_next pp = Some p)))
       || (negb (bool_decide (p_previous pp = Some p)) && bool_decide (p_next pp = Some p)) then
    panic "dequeue: corrupted process priority queue data"
  else if bool_decide (p_previous pp = Some p) && bool_decide (p_next pp = Some p) then
    pt_upd p (set_p_previous None) ;;;
    pt_upd p (set_p_next None) ;;;
    set_queue (p_priority pp) None
  else
    deref (p_next pp) (fun n => pt_upd n (set_p_previous (p_previous pp))) ;;;
    let* pp := pt_get p in
    deref (p_previous pp) (fun v => pt_upd v (set_p_next (p_next pp))) ;;;
    let* pp := pt_get p in
    let* q := gets (fun t => pt_queue t (p_priority pp)) in
    when (bool_decide (q = Some p)) (set_queue (p_priority pp) (p_next pp)) ;;;
    pt_upd p (set_p_previous None) ;;;
    pt_upd p (set_p_next None).

(** ** The list a queue represents *)

(** [links f x l y]: from [x], following [next], one meets the processes [l]
    and then [y]; each [previous] pointer goes the other way. *)
Fixpoint links (f : nat -> proc) (x : nat) (l : list nat) (y : nat) : Prop :=
  match l with
  | [] => p_next (f x) = Some y /\ p_previous (f y) = Some x
  | z :: l' => p_next (f x) = Some z /\ p_previous (f z) = Some x /\ links f z l' y
  end.

(** The queue with first process [q] holds exactly [l], in this order. *)
Definition ring (f : nat -> proc) (q : option nat) (l : list nat) : Prop :=
  match l with
  | [] => q = None
  | h :: r => q = Some h /\ NoDup (h :: r) /\ links f h r h
  end.

(** All of a process but its place in a queue. *)
Definition unlinked (p : proc) : proc := set_p_previous None (set_p_next None p).

(** A change of the table that only relinks processes of [l]. *)
Definition relinks (l : list nat) (f g : nat -> proc) : Prop :=
  (forall i, unlinked (g i) = unlinked (f i)) /\ (forall i, i ∉ l -> g i = f i).

(** ** Lemmas on links *)

Lemma links_app f x l1 z l2 y :
  links f x (l1 ++ z :: l2) y <-> links f x l1 z /\ links f z l2 y.
Proof.
  revert x. induction l1 as [|w l1 IH]; intros x; simpl; [tauto|]. rewrite IH. tauto.
Qed.

(** [links] reads [next] of all but the last process, [previous] of all but the first. *)
Lemma links_ext f g x l y :
  (forall i, i ∈ x :: l -> p_next (g i) = p_next (f i)) ->
  (forall i, i ∈ l ++ [y] -> p_previous (g i) = p_previous (f i)) ->
  links f x l y -> links g x l y.
Proof.
  revert x. induction l as [|z l IH]; intros x Hn Hp; simpl.
  - rewrite Hn, Hp by (simpl; set_solver). done.
  - rewrite Hn, (Hp z) by (simpl; set_solver). intros (? & ? & ?). split_and!; [done..|].
    apply IH; [| |done]; intros i Hi; [apply Hn|apply Hp]; simpl; set_solver.
Qed.

Lemma links_next_Some f x l y i : links f x l y -> i ∈ x :: l -> is_Some (p_next (f i)).
Proof.
  revert x. induction l as [|z l IH]; intros x; simpl.
  - intros [H _] ->%list_elem_of_singleton. by rewrite H.
  - intros (H & _ & Hl) [->|Hi]%elem_of_cons; [by rewrite H|]. by apply (IH z).
Qed.

Lemma links_prev_Some f x l y i : links f x l y -> i ∈ l ++ [y] -> is_Some (p_previous (f i)).
Proof.
  revert x. induction l as [|z l IH]; intros x; simpl.
  - intros [_ H] ->%list_elem_of_singleton. by rewrite H.
  - intros (_ & H & Hl) [->|Hi]%elem_of_cons; [by rewrite H|]. by apply (IH z).
Qed.

(** Linking [p] after the last process of a queue. *)
Lemma ring_snoc f g h r p :
  ring f (Some h) (h :: r) -> p ∉ h :: r ->
  (forall i, p_next (g i) = if decide (i = p) then Some h
     else if decide (p_previous (f h) = Some i) then Some p else p_next (f i)) ->
  (forall i, p_previous (g i) = if decide (i = h) then Some p
     else if decide (i = p) then p_previous (f h) else p_previous (f i)) ->
  ring g (Some h) ((h :: r) ++ [p]).
Proof.
  intros (_ & Hnd & Hl) Hp Hn Hv. simpl. split_and!; [done| |].
  { apply NoDup_app with (l := h :: r) (k := [p]). split_and!; [done| |apply NoDup_singleton].
    set_solver. }
  assert (h <> p) as Hhp by set_solver.
  destruct r as [|z r' _] using rev_ind; simpl in *.
  - destruct Hl as [Hnx Hpv]. rewrite !Hn, !Hv, Hpv. repeat case_decide; naive_solver.
  - rewrite <- app_assoc. simpl. apply links_app in Hl as [Hl [Hnx Hpv]].
    apply links_app. simpl. rewrite !Hn, !Hv, Hpv in *.
    apply NoDup_cons in Hnd as [Hh [_ [Hz _]]%NoDup_app].
    assert (z <> p /\ z <> h /\ z ∉ r') as (? & ? & ?) by set_solver.
    split.
    + revert Hl. apply links_ext; intros i Hi; rewrite ?Hn, ?Hv;
        repeat case_decide; simplify_eq; set_solver.
    + repeat case_decide; naive_solver.
Qed.

(** Unlinking [p] from a cycle. *)
Lemma links_remove f g x a p b :
  links f x a p -> links f p b x -> NoDup (x :: a ++ p :: b) ->
  (forall i, i <> p -> p_next (g i) = if decide (p_previous (f p) = Some i)
     then p_next (f p) else p_next (f i)) ->
  (forall i, i <> p -> p_previous (g i) = if decide (p_next (f p) = Some i)
     then p_previous (f p) else p_previous (f i)) ->
  links g x (a ++ b) x.
Proof.
  intros Ha Hb Hnd Hn Hv.
  apply NoDup_cons in Hnd as [Hx (Hnda & Hab & [Hpb Hndb]%NoDup_cons)%NoDup_app].
  assert (x <> p /\ x ∉ a /\ x ∉ b /\ p ∉ a) as (? & ? & ? & ?) by set_solver.
  destruct a as [|v a' _] using rev_ind; destruct b as [|n b']; simpl in *.
  - destruct Ha as [? Ha], Hb as [Hb ?].
    rewrite Hn, Hv, Ha, Hb by done. repeat case_decide; naive_solver.
  - destruct Ha as [? Ha], Hb as (Hb & ? & Hl).
    rewrite Hn, (Hv n), Ha, Hb by set_solver. rewrite !decide_True by done.
    split_and!; [done..|]. revert Hl. apply NoDup_cons in Hndb as [??].
    apply links_ext; intros i Hi; rewrite ?Hn, ?Hv, ?Ha, ?Hb by set_solver;
      case_decide; simplify_eq; set_solver.
  - rewrite app_nil_r. apply links_app in Ha as [Ha [? Hpv]]. destruct Hb as [Hb ?].
    apply links_app. simpl. rewrite Hn, (Hv x), Hpv, Hb by set_solver.
    rewrite !decide_True by done. split_and!; [|done..]. revert Ha.
    apply NoDup_app in Hnda as (? & ? & ?).
    apply links_ext; intros i Hi; rewrite ?Hn, ?Hv, ?Hpv, ?Hb by set_solver;
      case_decide; simplify_eq; set_solver.
  - apply links_app in Ha as [Ha [? Hpv]]. destruct Hb as (Hb & ? & Hl).
    rewrite <- app_assoc. simpl. apply links_app. simpl.
    apply NoDup_app in Hnda as (? & ? & ?). apply NoDup_cons in Hndb as [??].
    rewrite Hn, (Hv n), Hpv, Hb by set_solver.
    rewrite !decide_True by done. split_and!; [revert Ha|done..|revert Hl];
    apply links_ext; intros i Hi; rewrite ?Hn, ?Hv, ?Hpv, ?Hb by set_solver;
      case_decide; simplify_eq; set_solver.
Qed.

(** ** The operations *)

Lemma ring_null_links f q l p : ring f q l -> p ∈ l ->
  is_Some (p_next (f p)) /\ is_Some (p_previous (f p)).
Proof.
  destruct l as [|h r]; simpl; [set_solver|]. intros (_ & _ & Hl) Hp.
  split; [by eapply links_next_Some|].
  eapply links_prev_Some; [done|]. set_solver.
Qed.

Lemma relinks_refl l f : relinks l f f.
Proof. done. Qed.

(** Unfold a table operation into the table it computes. *)
Ltac table_eval :=
  unfold bind, pt_get, pt_upd, set_queue, deref, gets, modify, when, ret, panic, fault;
  simpl.

Lemma enqueue_run t p l :
  ring (pt_proc t) (pt_queue t (p_priority (pt_proc t p))) l -> p ∉ l ->
  p_previous (pt_proc t p) = None -> p_next (pt_proc t p) = None ->
  exists t', enqueue p t = Ret tt t' /\
    ring (pt_proc t') (pt_queue t' (p_priority (pt_proc t p))) (l ++ [p]) /\
    relinks (p :: l) (pt_proc t) (pt_proc t') /\
    (forall pr, pr <> p_priority (pt_proc t p) -> pt_queue t' pr = pt_queue t pr).
Proof.
  intros Hr Hp Hv Hn. unfold enqueue. table_eval. rewrite Hv, Hn. simpl.
  destruct l as [|h r]; simpl in Hr.
  - rewrite Hr. eexists. split; [done|]. simpl. rewrite !upd_eq. simpl.
    split; [|split; [split|]].
    + split_and!; try done. apply NoDup_singleton.
    + intros i. unfold upd. case_decide; subst; destruct (pt_proc t i); done.
    + intros i Hi. by rewrite !upd_ne by set_solver.
    + intros pr Hpr. by rewrite upd_ne.
  - pose proof Hr as (Hq & Hnd & Hl). rewrite Hq. simpl.
    destruct (links_prev_Some _ _ _ _ h Hl) as [v Hvh]; [set_solver|].
    assert (v ∈ h :: r) as Hvr.
    { destruct r as [|z r' _] using rev_ind; simpl in *.
      - destruct Hl as [_ Hl]. rewrite Hl in Hvh. simplify_eq. set_solver.
      - apply links_app in Hl as [_ [_ Hl]]. rewrite Hl in Hvh. simplify_eq. set_solver. }
    assert (v <> p /\ h <> p) as [??] by set_solver.
    rewrite Hvh. eexists. split; [done|]. simpl. rewrite Hq. split; [|split].
    + apply (ring_snoc (pt_proc t)); [done|done| |]; intros i.
      * rewrite Hvh. unfold upd. repeat case_decide; simplify_eq; simpl; done.
      * rewrite Hvh. unfold upd. repeat case_decide; simplify_eq; simpl; done.
    + split.
      * intros i. unfold upd. destruct (pt_proc t i) eqn:E.
        repeat case_decide; simplify_eq; rewrite ?E; done.
      * intros i Hi. unfold upd. rewrite !decide_False by set_solver. done.
    + done.
Qed.

Lemma links_last f x a p : links f x a p -> exists v, p_previous (f p) = Some v /\ v ∈ x :: a.
Proof.
  destruct a as [|z a _] using rev_ind; simpl.
  - intros [_ ->]. eexists. split; [done|]. set_solver.
  - intros [_ [_ ->]]%links_app. eexists. split; [done|]. set_solver.
Qed.

Lemma links_first f p b x : links f p b x -> exists n, p_next (f p) = Some n /\ n ∈ b ++ [x].
Proof.
  destruct b as [|z b]; simpl.
  - intros [-> _]. eexists. split; [done|]. set_solver.
  - intros (-> & _). eexists. split; [done|]. set_solver.
Qed.

(** A queue of two or more processes seen as a cycle through [p]. *)
Lemma ring_cycle f q l1 p l2 : ring f q (l1 ++ p :: l2) -> l1 ++ l2 <> [] ->
  exists x a b, links f x a p /\ links f p b x /\ NoDup (x :: a ++ p :: b) /\
    l1 ++ l2 = x :: a ++ b /\ (l1 = [] -> q = Some p /\ p_next (f p) = Some x) /\
    (l1 <> [] -> q = Some x).
Proof.
  destruct l1 as [|h a]; simpl; intros (Hq & Hnd & Hl) Hne.
  - destruct l2 as [|n l2]; [done|]. simpl in Hl. destruct Hl as (Hn & Hv & Hl).
    exists n, l2, []. rewrite app_nil_r. split_and!; try done.
    change (NoDup ((n :: l2) ++ [p])). by rewrite (Permutation_app_comm (n :: l2) [p]).
  - apply links_app in Hl as [Ha Hb]. exists h, a, l2. naive_solver.
Qed.

(** The table once [p], between [v] and [n], is unlinked. *)
Definition cut (f : nat -> proc) (p v n : nat) : nat -> proc :=
  let f1 := upd f n (set_p_previous (Some v) (f n)) in
  let f2 := upd f1 v (set_p_next (Some n) (f1 v)) in
  let f3 := upd f2 p (set_p_previous None (f2 p)) in
  upd f3 p (set_p_next None (f3 p)).

Lemma cut_links f p v n x a b :
  links f x a p -> links f p b x -> NoDup (x :: a ++ p :: b) ->
  p_previous (f p) = Some v -> p_next (f p) = Some n -> v <> p -> n <> p ->
  links (cut f p v n) x (a ++ b) x.
Proof.
  intros Ha Hb Hnd Hv Hn Hvp Hnp. apply (links_remove f _ x a p b); try done;
    intros i Hi; rewrite Hv, Hn; unfold cut, upd; repeat case_decide; simplify_eq; done.
Qed.

Lemma cut_relinks f p v n l : v ∈ l -> n ∈ l -> p ∈ l -> relinks l f (cut f p v n).
Proof.
  intros ???. split.
  - intros i. unfold cut, upd. destruct (f i) eqn:E.
    repeat case_decide; simplify_eq; rewrite ?E; done.
  - intros i Hi. unfold cut, upd. rewrite !decide_False by set_solver. done.
Qed.

Lemma cut_at f p v n : v <> p -> n <> p -> cut f p v n p = unlinked (f p).
Proof. intros. unfold cut, upd. rewrite !decide_True, !decide_False by done. by destruct (f p). Qed.

Lemma dequeue_run t p l1 l2 :
  ring (pt_proc t) (pt_queue t (p_priority (pt_proc t p))) (l1 ++ p :: l2) ->
  exists t', dequeue p t = Ret tt t' /\
    ring (pt_proc t') (pt_queue t' (p_priority (pt_proc t p))) (l1 ++ l2) /\
    relinks (l1 ++ p :: l2) (pt_proc t) (pt_proc t') /\
    pt_proc t' p = unlinked (pt_proc t p) /\
    (forall pr, pr <> p_priority (pt_proc t p) -> pt_queue t' pr = pt_queue t pr).
Proof.
  intros Hr. destruct (decide (l1 ++ l2 = [])) as [[-> ->]%app_nil|Hne].
  - simpl in Hr. destruct Hr as (Hq & _ & Hn & Hv). unfold dequeue. table_eval.
    rewrite Hq, Hv, Hn. simpl. rewrite !bool_decide_eq_true_2 by done. simpl.
    eexists. split; [done|]. simpl. rewrite !upd_eq. split; [done|]. split; [split|split].
    + intros i. unfold upd. case_decide; subst; destruct (pt_proc t i); done.
    + intros i Hi. by rewrite !upd_ne by set_solver.
    + destruct (pt_proc t p); done.
    + intros pr Hpr. by rewrite upd_ne.
  - destruct (ring_cycle _ _ _ _ _ Hr Hne) as (x & a & b & Ha & Hb & Hnd & Hl & Hh & Hx).
    destruct (links_last _ _ _ _ Ha) as (v & Hv & Hvin).
    destruct (links_first _ _ _ _ Hb) as (n & Hn & Hnin).
    assert (v <> p /\ n <> p) as [Hvp Hnp].
    { apply NoDup_cons in Hnd as [? (? & ? & [? ?]%NoDup_cons)%NoDup_app]. set_solver. }
    assert (is_null (pt_queue t (p_priority (pt_proc t p))) = false) as Hq.
    { destruct l1; [destruct Hh as [-> _]|rewrite Hx]; done. }
    assert (forall i, i ∈ x :: a ++ b -> i <> p) as Hip.
    { apply NoDup_cons in Hnd as [? (? & ? & [? ?]%NoDup_cons)%NoDup_app]. set_solver. }
    unfold dequeue. table_eval. rewrite Hq, Hv, Hn. simpl.
    rewrite !(bool_decide_eq_false_2 (Some _ = Some p)) by naive_solver. simpl.
    rewrite !(upd_ne _ n p) by done. rewrite Hv, Hn. simpl.
    rewrite !(upd_ne _ v p), !(upd_ne _ n p) by done. rewrite Hn.
    assert (v ∈ l1 ++ p :: l2 /\ n ∈ l1 ++ p :: l2) as [Hv' Hn'].
    { assert (forall i, i ∈ l1 ++ l2 -> i ∈ l1 ++ p :: l2) as Hi by set_solver.
      split; apply Hi; rewrite Hl; set_solver. }
    pose proof (cut_links _ _ _ _ _ _ _ Ha Hb Hnd Hv Hn Hvp Hnp) as Hc.
    pose proof (cut_relinks (pt_proc t) p v n (l1 ++ p :: l2) Hv' Hn') as Hcr.
    assert (NoDup (x :: a ++ b)) as Hnd'.
    { apply NoDup_cons in Hnd as [? Hnd]. apply NoDup_cons. split; [set_solver|].
      apply NoDup_app in Hnd as (? & ? & [? ?]%NoDup_cons).
      apply NoDup_app. set_solver. }
    destruct l1 as [|h l1].
    + destruct Hh as [Hqp Hx']; [done|]. assert (n = x) as -> by congruence. rewrite Hqp.
      rewrite bool_decide_eq_true_2 by done. simpl.
      eexists. split; [done|]. simpl. rewrite (upd_eq (pt_queue t)).
      split; [simpl in Hl; rewrite Hl; by split|].
      split; [apply Hcr; set_solver|]. split; [by apply cut_at|].
      intros pr Hpr. by rewrite upd_ne.
    + rewrite Hx by done. assert (x <> p) by (apply Hip; set_solver).
      rewrite bool_decide_eq_false_2 by naive_solver. simpl.
      eexists. split; [done|]. simpl. rewrite Hx by done.
      split; [injection Hl as -> ->; by split|]. split; [apply Hcr; set_solver|]. split; [by apply cut_at|]. done.
Qed.

(** ** The queues of all priorities *)

Lemma ring_frame f g q l : (forall i, i ∈ l -> g i = f i) -> ring f q l -> ring g q l.
Proof.
  intros Hg. destruct l as [|h r]; simpl; [done|]. intros (? & ? & Hl). split_and!; [done..|].
  revert Hl. apply links_ext; intros i Hi; rewrite Hg by set_solver; done.
Qed.

Lemma ring_NoDup f q l : ring f q l -> NoDup l.
Proof. destruct l; simpl; [constructor|tauto]. Qed.

Lemma unlinked_priority p q : unlinked p = unlinked q -> p_priority p = p_priority q.
Proof. intros H. apply (f_equal p_priority) in H. done. Qed.

(** [queued t qs]: the queue of each priority [pr] holds the list [qs pr]; a
    process is only in the queue of its own priority, and the links of a process
    that is in no queue are null. *)
Record queued (t : ptable) (qs : Z -> list nat) : Prop := {
  queued_ring pr : ring (pt_proc t) (pt_queue t pr) (qs pr);
  queued_prio pr i : i ∈ qs pr -> p_priority (pt_proc t i) = pr;
  queued_null i : i ∉ qs (p_priority (pt_proc t i)) ->
    p_previous (pt_proc t i) = None /\ p_next (pt_proc t i) = None;
}.

(** Two tables that agree on everything but links. *)
Definition same_but_links (t t' : ptable) : Prop :=
  forall i, unlinked (pt_proc t' i) = unlinked (pt_proc t i).

Lemma queued_enqueue t qs p :
  queued t qs -> p ∉ qs (p_priority (pt_proc t p)) ->
  exists t', enqueue p t = Ret tt t' /\ same_but_links t t' /\
    queued t' (upd qs (p_priority (pt_proc t p)) (qs (p_priority (pt_proc t p)) ++ [p])).
Proof.
  intros Hq Hp. set (pr := p_priority (pt_proc t p)) in *.
  destruct (queued_null _ _ Hq p Hp) as [Hv Hn].
  destruct (enqueue_run t p (qs pr)) as (t' & E & Hr & [Hs Ho] & Hqs);
    [apply Hq|done..|]. fold pr in Hr, Hqs.
  assert (forall i, p_priority (pt_proc t' i) = p_priority (pt_proc t i)) as Hpr
    by (intros i; apply unlinked_priority, Hs).
  exists t'. split_and!; [done|done|]. split.
  - intros pr'. destruct (decide (pr = pr')) as [<-|Hne]; [by rewrite upd_eq|].
    rewrite upd_ne, Hqs by done. apply (ring_frame (pt_proc t)); [|apply Hq].
    intros i Hi. apply (queued_prio _ _ Hq) in Hi as Hi'. apply Ho.
    intros [->|Hi2]%elem_of_cons; [done|]. apply (queued_prio _ _ Hq) in Hi2. congruence.
  - intros pr' i. rewrite Hpr, upd_case. case_decide; [|apply Hq].
    intros [Hi%(queued_prio _ _ Hq)| ->%list_elem_of_singleton]%elem_of_app; subst pr'; done.
  - intros i. rewrite Hpr, upd_case. case_decide as Hd.
    + intros Hi. rewrite Ho by (rewrite Hd in *; set_solver).
      apply (queued_null _ _ Hq). rewrite <- Hd. set_solver.
    + intros Hi. rewrite Ho; [by apply Hq|]. intros [->|Hi2]%elem_of_cons; [done|].
      apply (queued_prio _ _ Hq) in Hi2. congruence.
Qed.

Lemma queued_dequeue t qs p l1 l2 :
  queued t qs -> qs (p_priority (pt_proc t p)) = l1 ++ p :: l2 ->
  exists t', dequeue p t = Ret tt t' /\ same_but_links t t' /\
    queued t' (upd qs (p_priority (pt_proc t p)) (l1 ++ l2)).
Proof.
  intros Hq Hp. set (pr := p_priority (pt_proc t p)) in *.
  pose proof (queued_ring _ _ Hq pr) as Hring. rewrite Hp in Hring.
  destruct (dequeue_run t p l1 l2) as (t' & E & Hr & [Hs Ho] & Hpp & Hqs); [done|].
  fold pr in Hr, Hqs.
  assert (forall i, p_priority (pt_proc t' i) = p_priority (pt_proc t i)) as Hpr
    by (intros i; apply unlinked_priority, Hs).
  assert (forall i, i ∈ l1 ++ p :: l2 -> p_priority (pt_proc t i) = pr) as Hmem
    by (intros i; rewrite <- Hp; apply Hq).
  exists t'. split_and!; [done|done|]. split.
  - intros pr'. destruct (decide (pr = pr')) as [<-|Hne]; [by rewrite upd_eq|].
    rewrite upd_ne, Hqs by done. apply (ring_frame (pt_proc t)); [|apply Hq].
    intros i Hi%(queued_prio _ _ Hq). apply Ho. intros Hi2%Hmem. congruence.
  - intros pr' i. rewrite Hpr, upd_case. case_decide; [|apply Hq].
    intros Hi. subst pr'. apply Hmem. set_solver.
  - intros i. rewrite Hpr, upd_case. destruct (decide (i = p)) as [->|Hip].
    { rewrite Hpp. done. }
    case_decide as Hd; intros Hi.
    + rewrite Ho by set_solver. apply (queued_null _ _ Hq). rewrite <- Hd, Hp. set_solver.
    + rewrite Ho; [by apply Hq|]. intros Hi2%Hmem. congruence.
Qed.

(** ** Refinement: sequences of queue operations *)

Inductive qop := Enq (p : nat) | Deq (p : nat).

Definition run_op (op : qop) : M ptable unit :=
  match op with Enq p => enqueue p | Deq p => dequeue p end.

(** The abstract FIFO queues: a list per priority; [prio] gives the priority of
    each process.  [None]: the operation is not allowed. *)
Definition fifo_op (prio : nat -> Z) (op : qop) (qs : Z -> list nat) : option (Z -> list nat) :=
  match op with
  | Enq p => if decide (p ∈ qs (prio p)) then None
             else Some (upd qs (prio p) (qs (prio p) ++ [p]))
  | Deq p => if decide (p ∈ qs (prio p))
             then Some (upd qs (prio p) (filter (fun i => i <> p) (qs (prio p)))) else None
  end.

Fixpoint fifo_run (prio : nat -> Z) (ops : list qop) (qs : Z -> list nat) :
    option (Z -> list nat) :=
  match ops with
  | [] => Some qs
  | op :: ops' => match fifo_op prio op qs with
                  | Some qs' => fifo_run prio ops' qs'
                  | None => None
                  end
  end.

Lemma filter_out (p : nat) (l : list nat) : p ∉ l -> filter (fun i => i <> p) l = l.
Proof.
  induction l as [|x l IH]; [done|]. intros Hp. rewrite filter_cons, decide_True, IH; set_solver.
Qed.

Lemma fifo_run_ext pr1 pr2 ops qs :
  (forall i, pr1 i = pr2 i) -> fifo_run pr1 ops qs = fifo_run pr2 ops qs.
Proof.
  intros H. revert qs. induction ops as [|op ops IH]; intros qs; simpl; [done|].
  assert (fifo_op pr1 op qs = fifo_op pr2 op qs) as -> by (destruct op; simpl; by rewrite H).
  by destruct (fifo_op _ _ _).
Qed.

Lemma filter_split (p : nat) l1 l2 :
  NoDup (l1 ++ p :: l2) -> filter (fun i => i <> p) (l1 ++ p :: l2) = l1 ++ l2.
Proof.
  intros (_ & H1 & [H2 _]%NoDup_cons)%NoDup_app. rewrite filter_app, filter_cons.
  rewrite decide_False by tauto. f_equal; apply filter_out; set_solver.
Qed.

Lemma same_but_links_prio t t' : same_but_links t t' ->
  forall i, p_priority (pt_proc t' i) = p_priority (pt_proc t i).
Proof. intros H i. apply unlinked_priority, H. Qed.

Lemma run_op_fifo t qs qs' op :
  queued t qs -> fifo_op (fun i => p_priority (pt_proc t i)) op qs = Some qs' ->
  exists t', run_op op t = Ret tt t' /\ same_but_links t t' /\ queued t' qs'.
Proof.
  intros Hq. destruct op as [p|p]; simpl; case_decide as Hd; intros [= <-].
  - by apply queued_enqueue.
  - apply list_elem_of_split in Hd as (l1 & l2 & Hl).
    destruct (queued_dequeue t qs p l1 l2 Hq Hl) as (t' & E & Hs & Hq').
    exists t'. split_and!; [done|done|]. rewrite Hl, filter_split; [done|].
    rewrite <- Hl. eapply ring_NoDup, Hq.
Qed.

(** C9. The circular doubly linked queues of the process table implement FIFO
    queues, one per priority: every sequence of [enqueue] and [dequeue] calls that
    is allowed on the abstract lists (append at the end, removal from any
    position) returns without panic, leaves the table representing exactly the
    abstract result, and changes nothing of a process but its links. *)
Theorem queue_refines_fifo t qs ops qs' :
  queued t qs ->
  fifo_run (fun i => p_priority (pt_proc t i)) ops qs = Some qs' ->
  exists t', foreach ops run_op t = Ret tt t' /\ queued t' qs' /\ same_but_links t t'.
Proof.
  revert t qs. induction ops as [|op ops IH]; intros t qs Hq Hrun; simpl in *.
  - simplify_eq. by exists t.
  - destruct (fifo_op _ op qs) as [qs1|] eqn:E1; [|done].
    destruct (run_op_fifo t qs qs1 op Hq E1) as (t1 & E & Hs & Hq1).
    destruct (IH t1 qs1 Hq1) as (t' & E' & Hq' & Hs').
    { rewrite <- Hrun. apply fifo_run_ext, same_but_links_prio, Hs. }
    exists t'. split_and!; [by rewrite (bind_Ret _ _ _ _ _ E)|done|].
    intros i. by rewrite Hs', Hs.
Qed.

(** Misuse of the queues is detected: on well-formed queues [enqueue] of a
    process that is already queued panics, and so does [dequeue] of a process that
    is in no queue. *)
Theorem queue_misuse_panics t qs p :
  queued t qs ->
  (p ∈ qs (p_priority (pt_proc t p)) -> exists msg, enqueue p t = Panic msg) /\
  (p ∉ qs (p_priority (pt_proc t p)) -> exists msg, dequeue p t = Panic msg).
Proof.
  intros Hq. split; intros Hp.
  - destruct (ring_null_links _ _ _ p (queued_ring _ _ Hq _) Hp) as [[n Hn] [v Hv]].
    unfold enqueue. table_eval. rewrite Hn, Hv. by eexists.
  - destruct (queued_null _ _ Hq p Hp) as [Hv Hn].
    unfold dequeue. table_eval. rewrite Hv, Hn. simpl.
    destruct (is_null _); by eexists.
Qed.
