(* ===== verification/StringC.v ===== *)
(** * String and memory routines of the kernel (string.c)

    The routines work on byte memory [Z -> Z]; a pointer is an address and a
    routine that writes returns the memory after it.  The string instructions of
    x86.h ([rep stosb], [rep stosl]) fill a range; the C loops are kept as loops. *)
From S2P Require Import Prelude Machine.

Definition mem := Z -> Z.

(** [*p] for an unsigned char pointer. *)
Definition rd (m : mem) (p : Z) : Z := u8 (m p).

(** ** x86.h *)
Definition stosb (addr data cnt : Z) (m : mem) : mem := fun b =>
  if decide (addr <= b < addr + cnt) then u8 data else m b.
Definition stosl (addr data cnt : Z) (m : mem) : mem := fun b =>
  if decide (addr <= b < addr + 4 * cnt) then u8 (Z.shiftr data (8 * ((b - addr) mod 4))) else m b.

(** ** string.c *)

Definition memset (dst c n : Z) (m : mem) : mem :=
  if (Z.rem (s32 dst) 4 =? 0) && (n mod 4 =? 0) then
    let c := Z.land c 0xFF in
    stosl dst (Z.lor (Z.lor (Z.lor (Z.shiftl c 24) (Z.shiftl c 16)) (Z.shiftl c 8)) c) (n / 4) m
  else stosb dst c n m.

Fixpoint memcmp_loop (m : mem) (s1 s2 : Z) (n : nat) : Z :=
  match n with
  | O => 0
  | S n' => if negb (rd m s1 =? rd m s2) then rd m s1 - rd m s2
            else memcmp_loop m (s1 + 1) (s2 + 1) n'
  end.
Definition memcmp (m : mem) (v1 v2 n : Z) : Z := memcmp_loop m v1 v2 (Z.to_nat n).

Fixpoint move_down (d s : Z) (n : nat) (m : mem) : mem :=
  match n with
  | O => m
  | S n' => move_down (d - 1) (s - 1) n' (upd m (d - 1) (m (s - 1)))
  end.
Fixpoint move_up (d s : Z) (n : nat) (m : mem) : mem :=
  match n with
  | O => m
  | S n' => move_up (d + 1) (s + 1) n' (upd m d (m s))
  end.
Definition memmove (dst src n : Z) (m : mem) : mem :=
  if (src <? dst) && (src + n >? dst) then
    move_down (dst + n) (src + n) (Z.to_nat n) m
  else move_up dst src (Z.to_nat n) m.

Fixpoint strncmp_loop (m : mem) (p q : Z) (n : nat) : Z :=
  match n with
  | O => 0
  | S n' => if negb (rd m p =? 0) && (rd m p =? rd m q) then strncmp_loop m (p + 1) (q + 1) n'
            else rd m p - rd m q
  end.
Definition strncmp (m : mem) (p q n : Z) : Z := strncmp_loop m p q (Z.to_nat n).

(** The second loop of strncpy. *)
Fixpoint zero_fill (s : Z) (n : nat) (m : mem) : mem :=
  match n with O => m | S n' => zero_fill (s + 1) n' (upd m s 0) end.
(** The first loop copies up to and including the NUL. *)
Fixpoint strncpy_loop (s t : Z) (n : nat) (m : mem) : mem :=
  match n with
  | O => m
  | S n' => let m' := upd m s (m t) in
            if rd m t =? 0 then zero_fill (s + 1) n' m' else strncpy_loop (s + 1) (t + 1) n' m'
  end.
Definition strncpy (s t n : Z) (m : mem) : mem := strncpy_loop s t (Z.to_nat n) m.

(** [n] here is the value after the test [--n > 0]. *)
Fixpoint safestrcpy_loop (s t : Z) (n : nat) (m : mem) : mem :=
  match n with
  | O => upd m s 0
  | S n' => let m' := upd m s (m t) in
            if rd m t =? 0 then upd m' (s + 1) 0 else safestrcpy_loop (s + 1) (t + 1) n' m'
  end.
Definition safestrcpy (s t n : Z) (m : mem) : mem :=
  if n <=? 0 then m else safestrcpy_loop s t (Z.to_nat (n - 1)) m.

(** [strlen] with [fuel] iterations of its loop. *)
Fixpoint strlen_loop (m : mem) (s n : Z) (fuel : nat) : option Z :=
  match fuel with
  | O => None
  | S f => if rd m (s + n) =? 0 then Some n else strlen_loop m s (n + 1) f
  end.
Definition strlen (fuel : nat) (m : mem) (s : Z) : option Z := strlen_loop m s 0 fuel.

(** ** Copies *)

Lemma move_up_spec d s n m b : d <= s \/ s + Z.of_nat n <= d ->
  move_up d s n m b = if decide (d <= b < d + Z.of_nat n) then m (s + (b - d)) else m b.
Proof.
  revert d s m. induction n as [|n IH]; intros d s m H; simpl.
  - by rewrite decide_False by lia.
  - rewrite IH by lia. repeat case_decide; try lia.
    + rewrite upd_ne by lia. f_equal. lia.
    + assert (b = d) as -> by lia. rewrite upd_eq. f_equal. lia.
    + by rewrite upd_ne by lia.
Qed.

Lemma move_down_spec d s n m b : s < d ->
  move_down d s n m b = if decide (d - Z.of_nat n <= b < d) then m (s - (d - b)) else m b.
Proof.
  revert d s m. induction n as [|n IH]; intros d s m H; simpl.
  - by rewrite decide_False by lia.
  - rewrite IH by lia. repeat case_decide; try lia.
    + rewrite upd_ne by lia. f_equal. lia.
    + assert (b = d - 1) as -> by lia. rewrite upd_eq. f_equal. lia.
    + by rewrite upd_ne by lia.
Qed.

Lemma memmove_at dst src n m b : 0 <= n ->
  memmove dst src n m b = if decide (dst <= b < dst + n) then m (src + (b - dst)) else m b.
Proof.
  intros Hn. unfold memmove. rewrite Z.gtb_ltb.
  destruct (_ && _) eqn:E; bool_to_prop.
  - rewrite move_down_spec by lia. rewrite Z2Nat.id by lia.
    repeat case_decide; try lia; f_equal; lia.
  - rewrite move_up_spec by lia. rewrite Z2Nat.id by lia. done.
Qed.

(** [memmove] copies correctly whatever the overlap of source and destination:
    afterwards every destination byte is the source byte of the memory before the
    call, and no byte outside the destination changes. *)
Theorem memmove_correct dst src n m :
  0 <= n ->
  (forall k, 0 <= k < n -> memmove dst src n m (dst + k) = m (src + k)) /\
  (forall b, ~ (dst <= b < dst + n) -> memmove dst src n m b = m b).
Proof.
  intros Hn. split; intros k Hk; rewrite memmove_at by done.
  - rewrite decide_True by lia. f_equal. lia.
  - by rewrite decide_False.
Qed.

(** ** Fills *)

Lemma spread_bytes c k : 0 <= c < 256 -> 0 <= k < 4 ->
  u8 (Z.shiftr (Z.lor (Z.lor (Z.lor (Z.shiftl c 24) (Z.shiftl c 16)) (Z.shiftl c 8)) c) (8 * k)) = c.
Proof.
  intros Hc Hk. rewrite !Z.shiftl_mul_pow2, Z.shiftr_div_pow2 by lia.
  rewrite (lor_add_low _ (c * 2 ^ 16) 24) by (rewrite ?Z_mod_mult; lia).
  rewrite (lor_add_low _ (c * 2 ^ 8) 16);
    [|lia|replace (c * 2 ^ 24 + c * 2 ^ 16) with ((c * 2 ^ 8 + c) * 2 ^ 16) by lia; apply Z_mod_mult|lia].
  rewrite (lor_add_low _ c 8);
    [|lia|replace (c * 2 ^ 24 + c * 2 ^ 16 + c * 2 ^ 8) with ((c * 2 ^ 16 + c * 2 ^ 8 + c) * 2 ^ 8)
      by lia; apply Z_mod_mult|lia].
  unfold u8. assert (k = 0 \/ k = 1 \/ k = 2 \/ k = 3) as [-> | [-> | [-> | ->]]] by lia; simpl Z.mul;
    change (2 ^ 0) with 1; Z.div_mod_to_equations; lia.
Qed.

Lemma memset_at dst c n m b : 0 <= n ->
  memset dst c n m b = if decide (dst <= b < dst + n) then u8 c else m b.
Proof.
  intros Hn. unfold memset. destruct (_ && _) eqn:E; [|done]. bool_to_prop.
  unfold stosl. replace (4 * (n / 4)) with n by (pose proof (Z.div_mod n 4); lia).
  case_decide; [|done]. change 0xFF with (Z.ones 8). rewrite Z.land_ones by lia.
  apply spread_bytes; [apply u8_range|apply Z.mod_pos_bound; lia].
Qed.

(** [memset] writes the low byte of [c] to each of the [n] bytes, whether it
    takes the word-at-a-time path (aligned address and length) or the byte path,
    and touches nothing else. *)
Theorem memset_correct dst c n m b :
  0 <= n -> memset dst c n m b = stosb dst c n m b.
Proof. apply memset_at. Qed.

(** ** NUL-terminated strings *)

(** The bytes [l], none of them NUL, followed by a NUL, are at address [a]. *)
Fixpoint cstr (m : mem) (a : Z) (l : list Z) : Prop :=
  match l with
  | [] => rd m a = 0
  | c :: l' => rd m a = c /\ c <> 0 /\ cstr m (a + 1) l'
  end.

Lemma cstr_ext m m' a l :
  (forall b, a <= b <= a + Z.of_nat (length l) -> m' b = m b) -> cstr m a l -> cstr m' a l.
Proof.
  revert a. induction l as [|c l IH]; intros a H; simpl in *.
  - unfold rd. by rewrite H by lia.
  - unfold rd. rewrite H by lia. intros (? & ? & ?). split_and!; [done..|].
    apply IH; [|done]. intros b Hb. apply H. lia.
Qed.

(** [strncmp] returns 0 exactly when the two strings agree on their first [n]
    characters (or entirely, when shorter). *)
Theorem strncmp_zero_iff m p q n l1 l2 :
  cstr m p l1 -> cstr m q l2 -> 0 <= n ->
  strncmp m p q n = 0 <-> take (Z.to_nat n) l1 = take (Z.to_nat n) l2.
Proof.
  unfold strncmp. intros H1 H2 _. revert p q l1 l2 H1 H2.
  induction (Z.to_nat n) as [|k IH]; intros p q l1 l2 H1 H2; [done|].
  destruct l1 as [|c l1], l2 as [|d l2]; simpl in *.
  - rewrite H1, H2. done.
  - destruct H2 as (H2 & Hd & _). rewrite H1, H2. simpl. split; [intros; exfalso; lia|done].
  - destruct H1 as (H1 & Hc & _). rewrite H1, H2. rewrite (proj2 (Z.eqb_neq c 0)) by done. simpl.
    split; [intros; exfalso; lia|done].
  - destruct H1 as (-> & Hc & H1), H2 as (-> & Hd & H2).
    rewrite (proj2 (Z.eqb_neq c 0)) by done. simpl. destruct (c =? d) eqn:E; bool_to_prop.
    + subst d. rewrite (IH _ _ l1 l2) by done. split; [by intros ->|by intros [= ?]].
    + split; [intros; exfalso; lia|by intros [= ?]].
Qed.

Lemma strlen_loop_spec m s l fuel k : cstr m (s + k) l -> (length l < fuel)%nat ->
  strlen_loop m s k fuel = Some (k + Z.of_nat (length l)).
Proof.
  revert k fuel. induction l as [|c l IH]; intros k fuel Hs Hf; (destruct fuel as [|f]; [lia|]); simpl in *.
  - rewrite Hs. simpl. f_equal. lia.
  - destruct Hs as (-> & Hc & Hs). rewrite (proj2 (Z.eqb_neq c 0)) by done.
    rewrite IH by (lia || by rewrite Z.add_assoc). f_equal. lia.
Qed.

(** [strlen] terminates on every NUL-terminated string and returns the number
    of characters before the NUL. *)
Theorem strlen_correct m s l :
  cstr m s l -> strlen (S (length l)) m s = Some (Z.of_nat (length l)).
Proof.
  intros H. unfold strlen. rewrite (strlen_loop_spec m s l); [f_equal; lia|by rewrite Z.add_0_r|lia].
Qed.

Lemma safestrcpy_loop_spec s t n m l :
  cstr m t l -> s + Z.of_nat n < t \/ t + Z.of_nat (length l) < s ->
  cstr (safestrcpy_loop s t n m) s (take n l) /\
  forall b, b < s \/ s + Z.of_nat n < b -> safestrcpy_loop s t n m b = m b.
Proof.
  revert s t m l. induction n as [|n IH]; intros s t m l Hs Hd; simpl.
  - split; [unfold rd; by rewrite upd_eq|]. intros b Hb. rewrite upd_ne by lia. done.
  - destruct l as [|c l]; simpl in *.
    + rewrite Hs. simpl. split.
      * unfold rd. rewrite upd_ne, upd_eq by lia. done.
      * intros b Hb. by rewrite !upd_ne by lia.
    + destruct Hs as (Hc & Hnz & Hs). rewrite Hc, (proj2 (Z.eqb_neq c 0)) by done.
      destruct (IH (s + 1) (t + 1) (upd m s (m t)) l) as [H1 H2].
      * revert Hs. apply cstr_ext. intros b Hb. by rewrite upd_ne by lia.
      * lia.
      * split_and!; [|done|done|].
        -- unfold rd. rewrite H2, upd_eq by lia. done.
        -- intros b Hb. by rewrite H2, upd_ne by lia.
Qed.

(** [safestrcpy] always produces a NUL-terminated string: the source cut to
    [n - 1] characters; it writes only the [n] bytes of the destination. *)
Theorem safestrcpy_correct s t n m l :
  0 < n -> cstr m t l -> s + n <= t \/ t + Z.of_nat (length l) < s ->
  cstr (safestrcpy s t n m) s (take (Z.to_nat (n - 1)) l) /\
  forall b, ~ (s <= b < s + n) -> safestrcpy s t n m b = m b.
Proof.
  intros Hn Hs Hd. unfold safestrcpy. rewrite (proj2 (Z.leb_gt n 0)) by lia.
  destruct (safestrcpy_loop_spec s t (Z.to_nat (n - 1)) m l) as [H1 H2]; [done|lia|].
  split; [done|]. intros b Hb. apply H2. lia.
Qed.
