(* ===== verification/Spinlock.v ===== *)
(** * Spin locks and interrupt nesting (spinlock.c, proc.c: cpuid, mycpu)

    [hw] is the state of all CPUs and locks; the CPU that executes is
    [hw_me].  [acquire] on a lock that another CPU holds busy-waits: its outcome
    is [Spin].  The debugging fields of a lock (name, pcs) are not kept. *)
From S2P Require Import Prelude Machine.

(** ** x86.h *)
Definition my (h : hw) : cpu := hw_cpus h (hw_me h).
Definition upd_cpu (i : nat) (f : cpu -> cpu) : M hw unit :=
  modify (fun h => set_hw_cpus (upd (hw_cpus h) i (f (hw_cpus h i))) h).
Definition readeflags_IF : M hw bool := gets (fun h => c_if (my h)).
Definition cli : M hw unit := fun h => upd_cpu (hw_me h) (set_c_if false) h.
Definition sti : M hw unit := fun h => upd_cpu (hw_me h) (set_c_if true) h.
Definition lapicid : M hw Z := gets (fun h => c_apicid (my h)).

(** ** proc.c *)

(** The index of the entry of cpus[] whose apicid is that of this CPU. *)
Definition mycpu : M hw nat :=
  let* i := readeflags_IF in
  if i then panic "mycpu called with interrupts enabled" else
  let* apicid := lapicid in
  let* h := get in
  match find_first (fun i => c_apicid (hw_cpus h i) =? apicid) (seq 0 (hw_ncpu h)) with
  | Some i => ret i
  | None => panic "unknown apicid"
  end.

Definition cpuid : M hw nat := mycpu.

(** ** spinlock.c *)

Definition initlock (lk : lockid) : M hw unit :=
  modify (fun h => set_hw_locks (upd (hw_locks h) lk (mkSpinlock false None)) h).

Definition pushcli : M hw unit :=
  let* eflags := readeflags_IF in
  cli ;;;
  let* c := mycpu in
  let* h := get in
  when (c_ncli (hw_cpus h c) =? 0) (upd_cpu c (set_c_intena eflags)) ;;;
  let* c := mycpu in
  upd_cpu c (fun k => set_c_ncli (c_ncli k + 1) k).

Definition popcli : M hw unit :=
  let* eflags := readeflags_IF in
  if eflags then panic "popcli - interruptible" else
  let* c := mycpu in
  upd_cpu c (fun k => set_c_ncli (c_ncli k - 1) k) ;;;
  let* h := get in
  if c_ncli (hw_cpus h c) <? 0 then panic "popcli" else
  let* c := mycpu in
  let* h := get in
  when ((c_ncli (hw_cpus h c) =? 0) && c_intena (hw_cpus h c)) sti.

Definition holding (lk : lockid) : M hw bool :=
  pushcli ;;;
  let* c := mycpu in
  let* r := gets (fun h => lk_locked (hw_locks h lk) && bool_decide (lk_cpu (hw_locks h lk) = Some c)) in
  popcli ;;;
  ret r.

(** [while(xchg(&lk->locked, 1) != 0) ;] on one CPU: the exchange succeeds at
    once on a free lock and the loop cannot end on a held one. *)
Definition xchg_loop (lk : lockid) : M hw unit := fun h =>
  if lk_locked (hw_locks h lk) then Spin
  else Ret tt (set_hw_locks (upd (hw_locks h) lk (set_lk_locked true (hw_locks h lk))) h).

Definition acquire (lk : lockid) : M hw unit :=
  pushcli ;;;
  let* b := holding lk in
  if b then panic "acquire" else
  xchg_loop lk ;;;
  let* c := mycpu in
  modify (fun h => set_hw_locks (upd (hw_locks h) lk (set_lk_cpu (Some c) (hw_locks h lk))) h).

Definition release (lk : lockid) : M hw unit :=
  let* b := holding lk in
  if negb b then panic "release" else
  modify (fun h => set_hw_locks (upd (hw_locks h) lk (set_lk_cpu None (hw_locks h lk))) h) ;;;
  modify (fun h => set_hw_locks (upd (hw_locks h) lk (set_lk_locked false (hw_locks h lk))) h) ;;;
  popcli.

(** ** Well-formed CPU state *)

(** APIC ids tell CPUs apart; a CPU inside pushcli has interrupts off. *)
Record hw_wf (h : hw) : Prop := {
  wf_me : (hw_me h < hw_ncpu h)%nat;
  wf_apic i j : (i < hw_ncpu h)%nat -> (j < hw_ncpu h)%nat ->
    c_apicid (hw_cpus h i) = c_apicid (hw_cpus h j) -> i = j;
  wf_ncli i : (i < hw_ncpu h)%nat -> 0 <= c_ncli (hw_cpus h i);
  wf_if i : (i < hw_ncpu h)%nat -> 0 < c_ncli (hw_cpus h i) -> c_if (hw_cpus h i) = false;
}.

Definition set_my (c : cpu) (h : hw) : hw := set_hw_cpus (upd (hw_cpus h) (hw_me h) c) h.
Definition set_lock (lk : lockid) (l : spinlock) (h : hw) : hw :=
  set_hw_locks (upd (hw_locks h) lk l) h.

(** The CPU after pushcli, after popcli, and after a matched pair. *)
Definition pushed (c : cpu) : cpu :=
  set_c_ncli (c_ncli c + 1)
    (if c_ncli c =? 0 then set_c_intena (c_if c) (set_c_if false c) else set_c_if false c).
Definition popped (c : cpu) : cpu :=
  let c' := set_c_ncli (c_ncli c - 1) c in
  if (c_ncli c - 1 =? 0) && c_intena c then set_c_if true c' else c'.
Definition settled (c : cpu) : cpu := if c_ncli c =? 0 then set_c_intena (c_if c) c else c.

Lemma my_set_my c h : my (set_my c h) = c.
Proof. unfold my, set_my. simpl. apply upd_eq. Qed.
Lemma set_my_set_my c d h : set_my c (set_my d h) = set_my c h.
Proof. unfold set_my. simpl. by rewrite upd_upd. Qed.
Lemma my_set_lock lk l h : my (set_lock lk l h) = my h.
Proof. done. Qed.
Lemma set_my_my h : set_my (my h) h = h.
Proof. unfold set_my, my. rewrite upd_id by done. by destruct h. Qed.

Lemma hw_wf_set_my h c : hw_wf h -> c_apicid c = c_apicid (my h) -> 0 <= c_ncli c ->
  (0 < c_ncli c -> c_if c = false) -> hw_wf (set_my c h).
Proof.
  intros [Hme Ha Hn Hi] Hap H0 H1. split; simpl.
  - done.
  - intros i j Hi' Hj'. unfold my in Hap.
    rewrite !upd_case. repeat case_decide; subst; intros E; try done;
      apply Ha; try done; congruence.
  - intros i Hi'. rewrite upd_case. case_decide; auto.
  - intros i Hi'. rewrite upd_case. case_decide; auto.
Qed.

Lemma hw_wf_set_lock h lk l : hw_wf h -> hw_wf (set_lock lk l h).
Proof. intros []. by split. Qed.

Lemma mycpu_run h : hw_wf h -> c_if (my h) = false -> mycpu h = Ret (hw_me h) h.
Proof.
  intros Hwf Hif. unfold mycpu, readeflags_IF, lapicid, bind, gets, get. rewrite Hif.
  destruct (find_first _ _) as [i|] eqn:E.
  - apply find_first_elem in E as [[_ Hi]%elem_of_seq E]. bool_to_prop.
    unfold ret. f_equal. apply Hwf; [done|apply Hwf|done].
  - exfalso. rewrite find_first_None in E. specialize (E (hw_me h)).
    specialize (E ltac:(apply elem_of_seq; split; [lia|apply Hwf])).
    by rewrite Z.eqb_refl in E.
Qed.

Lemma pushcli_run h : hw_wf h -> pushcli h = Ret tt (set_my (pushed (my h)) h).
Proof.
  intros Hwf. unfold pushcli, readeflags_IF, cli, upd_cpu. unfold bind at 1. simpl.
  unfold bind at 1. simpl.
  change (set_hw_cpus _ h) with (set_my (set_c_if false (my h)) h).
  set (h1 := set_my (set_c_if false (my h)) h).
  assert (hw_wf h1) as Hwf1.
  { apply hw_wf_set_my; try done; simpl. apply (wf_ncli _ Hwf), Hwf. }
  assert (c_if (my h1) = false) as Hif by (unfold h1; by rewrite my_set_my).
  rewrite (bind_Ret _ _ _ _ _ (mycpu_run h1 Hwf1 Hif)). unfold bind at 1. simpl.
  change (upd (hw_cpus h) (hw_me h) (set_c_if false (my h)) (hw_me h)) with (my h1).
  assert (my h1 = set_c_if false (my h)) as Hmy by (unfold h1; apply my_set_my).
  rewrite Hmy. simpl. unfold pushed. destruct (c_ncli (my h) =? 0) eqn:E0; simpl.
  - unfold bind at 1. simpl.
    change (set_hw_cpus _ h1) with (set_my (set_c_intena (c_if (my h)) (my h1)) h1).
    rewrite Hmy. unfold h1. rewrite set_my_set_my.
    rewrite (bind_Ret _ _ _ (hw_me h) (set_my (set_c_intena (c_if (my h)) (set_c_if false (my h))) h)).
    + unfold modify. f_equal. unfold set_my. simpl. by rewrite upd_upd, upd_eq.
    + rewrite mycpu_run; [done| |by rewrite my_set_my].
      apply hw_wf_set_my; try done; simpl. apply (wf_ncli _ Hwf), Hwf.
  - unfold bind at 1. simpl. rewrite (bind_Ret _ _ _ _ _ (mycpu_run h1 Hwf1 Hif)).
    unfold modify. f_equal. unfold h1, set_my. simpl. by rewrite upd_upd, upd_eq.
Qed.

Lemma popcli_run h : hw_wf h -> 0 < c_ncli (my h) -> popcli h = Ret tt (set_my (popped (my h)) h).
Proof.
  intros Hwf Hn. assert (c_if (my h) = false) as Hif by (apply (wf_if _ Hwf); [apply Hwf|done]).
  unfold popcli, readeflags_IF, bind at 1, gets. rewrite Hif.
  rewrite (bind_Ret _ _ _ _ _ (mycpu_run h Hwf Hif)).
  set (c1 := set_c_ncli (c_ncli (my h) - 1) (my h)).
  rewrite (bind_Ret _ _ _ tt (set_my c1 h)) by done.
  assert (hw_wf (set_my c1 h)) as Hwf1 by (apply hw_wf_set_my; simpl; try done; lia).
  unfold bind at 1, get. change (hw_cpus (set_my c1 h) (hw_me h)) with (my (set_my c1 h)).
  rewrite my_set_my. simpl. rewrite (proj2 (Z.ltb_ge _ _)) by lia.
  rewrite (bind_Ret _ _ _ (hw_me h) (set_my c1 h)).
  2: { rewrite mycpu_run; [done|done|by rewrite my_set_my]. }
  unfold bind at 1. change (hw_cpus (set_my c1 h) (hw_me h)) with (my (set_my c1 h)).
  rewrite my_set_my. simpl. unfold popped, when. fold c1.
  destruct (_ && _); [|done].
  unfold sti, upd_cpu, modify. f_equal.
  change (set_hw_cpus _ _) with (set_my (set_c_if true (my (set_my c1 h))) (set_my c1 h)).
  by rewrite my_set_my, set_my_set_my.
Qed.

Lemma popped_pushed c : 0 <= c_ncli c -> (0 < c_ncli c -> c_if c = false) ->
  popped (pushed c) = settled c.
Proof.
  intros H0 H1. unfold popped, pushed, settled.
  destruct (c_ncli c =? 0) eqn:E; bool_to_prop; simpl.
  - rewrite E. simpl. destruct c as [a g e s m st n ie p fl c3 tr]; simpl in *. subst.
    by destruct fl.
  - replace (c_ncli c + 1 - 1 =? 0) with false by (symmetry; apply Z.eqb_neq; lia). simpl.
    destruct c as [a g e s m st n ie p fl c3 tr]; simpl in *. rewrite H1 by lia.
    by replace (n + 1 - 1) with n by lia.
Qed.

Lemma wf_my h : hw_wf h ->
  0 <= c_ncli (my h) /\ (0 < c_ncli (my h) -> c_if (my h) = false).
Proof. intros Hwf. split; [apply (wf_ncli _ Hwf), Hwf|apply (wf_if _ Hwf), Hwf]. Qed.

Lemma pushed_wf h : hw_wf h -> hw_wf (set_my (pushed (my h)) h).
Proof.
  intros Hwf. destruct (wf_my h Hwf). apply hw_wf_set_my; [done|..]; unfold pushed;
    destruct (_ =? 0); simpl; try done; lia.
Qed.

Lemma pushed_if c : c_if (pushed c) = false.
Proof. unfold pushed. by destruct (_ =? 0). Qed.

Lemma pushed_ncli c : c_ncli (pushed c) = c_ncli c + 1.
Proof. done. Qed.

Lemma settled_wf h : hw_wf h -> hw_wf (set_my (settled (my h)) h).
Proof.
  intros Hwf. destruct (wf_my h Hwf). apply hw_wf_set_my; [done|..]; unfold settled;
    destruct (_ =? 0) eqn:E; bool_to_prop; simpl; try done; lia.
Qed.

Lemma settled_id c : 0 < c_ncli c -> settled c = c.
Proof. intros. unfold settled. by rewrite (proj2 (Z.eqb_neq _ _)) by lia. Qed.

#[global] Arguments set_my : simpl never.
#[global] Arguments my : simpl never.
#[global] Arguments set_lock : simpl never.
#[global] Arguments pushed : simpl never.
#[global] Arguments popped : simpl never.
#[global] Arguments settled : simpl never.

Lemma holding_run lk h : hw_wf h ->
  holding lk h = Ret (lk_locked (hw_locks h lk) &&
    bool_decide (lk_cpu (hw_locks h lk) = Some (hw_me h))) (set_my (settled (my h)) h).
Proof.
  intros Hwf. pose proof (pushed_wf h Hwf) as Hwf1. destruct (wf_my h Hwf) as [Hn Hi].
  unfold holding. rewrite (bind_Ret _ _ _ _ _ (pushcli_run h Hwf)).
  set (h1 := set_my (pushed (my h)) h) in *.
  assert (c_if (my h1) = false) as Hif by (unfold h1; rewrite my_set_my; apply pushed_if).
  rewrite (bind_Ret _ _ _ _ _ (mycpu_run h1 Hwf1 Hif)).
  unfold bind at 1, gets. rewrite (bind_Ret _ _ _ tt (set_my (settled (my h)) h)); [done|].
  rewrite popcli_run; [|done|unfold h1; rewrite my_set_my, pushed_ncli; lia].
  unfold h1. by rewrite my_set_my, set_my_set_my, popped_pushed.
Qed.

(** [acquire] of a free lock. *)
Lemma acquire_free lk h : hw_wf h -> lk_locked (hw_locks h lk) = false ->
  acquire lk h = Ret tt (set_lock lk (mkSpinlock true (Some (hw_me h))) (set_my (pushed (my h)) h)).
Proof.
  intros Hwf Hl. pose proof (pushed_wf h Hwf) as Hwf1. destruct (wf_my h Hwf) as [Hn Hi].
  unfold acquire. rewrite (bind_Ret _ _ _ _ _ (pushcli_run h Hwf)).
  rewrite (bind_Ret _ _ _ _ _ (holding_run lk _ Hwf1)).
  change (hw_locks (set_my (pushed (my h)) h) lk) with (hw_locks h lk). rewrite Hl. simpl.
  rewrite my_set_my, settled_id, set_my_set_my by (rewrite pushed_ncli; lia).
  set (h1 := set_my (pushed (my h)) h) in *.
  unfold bind at 1, xchg_loop.
  change (hw_locks h1 lk) with (hw_locks h lk). rewrite Hl.
  set (h2 := set_hw_locks _ h1).
  rewrite (bind_Ret _ _ _ (hw_me h) h2).
  - unfold modify. f_equal. unfold h2, set_lock. simpl. by rewrite upd_upd, upd_eq.
  - assert (c_if (my h1) = false) by (unfold h1; rewrite my_set_my; apply pushed_if).
    change (mycpu h2) with (mycpu (set_lock lk (set_lk_locked true (hw_locks h lk)) h1)).
    rewrite mycpu_run; [done|by apply hw_wf_set_lock|done].
Qed.

Lemma acquire_run lk h : hw_wf h -> hw_locks h lk = lock0 ->
  acquire lk h = Ret tt (set_lock lk (mkSpinlock true (Some (hw_me h))) (set_my (pushed (my h)) h)).
Proof. intros Hwf Hl. apply acquire_free; [done|]. by rewrite Hl. Qed.

(** [release] of a lock this CPU holds. *)
Lemma release_run lk h : hw_wf h -> hw_locks h lk = mkSpinlock true (Some (hw_me h)) ->
  0 < c_ncli (my h) ->
  release lk h = Ret tt (set_lock lk lock0 (set_my (popped (my h)) h)).
Proof.
  intros Hwf Hl Hn. unfold release.
  rewrite (bind_Ret _ _ _ _ _ (holding_run lk _ Hwf)). rewrite Hl. simpl.
  rewrite bool_decide_eq_true_2 by done. simpl. rewrite settled_id, set_my_my by done.
  unfold bind at 1, modify at 1. unfold bind at 1, modify at 1.
  set (h2 := set_hw_locks _ _).
  assert (h2 = set_lock lk lock0 h) as ->.
  { unfold h2, set_lock. simpl. rewrite upd_upd, upd_eq. rewrite Hl. done. }
  rewrite popcli_run; [done|by apply hw_wf_set_lock|done].
Qed.

Lemma acquire_busy lk h : hw_wf h -> lk_locked (hw_locks h lk) = true ->
  acquire lk h = if bool_decide (lk_cpu (hw_locks h lk) = Some (hw_me h))
                 then Panic "acquire" else Spin.
Proof.
  intros Hwf Hl. pose proof (pushed_wf h Hwf) as Hwf1.
  unfold acquire. rewrite (bind_Ret _ _ _ _ _ (pushcli_run h Hwf)).
  rewrite (bind_Ret _ _ _ _ _ (holding_run lk _ Hwf1)).
  change (hw_locks (set_my (pushed (my h)) h) lk) with (hw_locks h lk). rewrite Hl. simpl.
  destruct (bool_decide _); [done|].
  unfold bind, xchg_loop. simpl. by rewrite Hl.
Qed.

(** ** Nesting *)

Fixpoint times {S} (n : nat) (m : M S unit) : M S unit :=
  match n with O => ret tt | S n' => m ;;; times n' m end.

Definition pushed_n (n : nat) (c : cpu) : cpu := Nat.iter n pushed c.

Lemma pushed_n_S n c : pushed_n (S n) c = pushed (pushed_n n c).
Proof. done. Qed.

Lemma pushed_n_facts n c : c_ncli (pushed_n n c) = c_ncli c + Z.of_nat n /\
  c_apicid (pushed_n n c) = c_apicid c.
Proof.
  induction n as [|n [IH1 IH2]]; [split; [simpl; lia|done]|].
  rewrite pushed_n_S, pushed_ncli, IH1, <- IH2. split; [lia|].
  unfold pushed. by destruct (_ =? 0).
Qed.

Lemma pushed_n_wf n h : hw_wf h -> hw_wf (set_my (pushed_n n (my h)) h).
Proof.
  intros Hwf. destruct (wf_my h Hwf) as [H0 Hi]. destruct (pushed_n_facts n (my h)) as [Hn Ha].
  apply hw_wf_set_my; [done|done|lia|]. destruct n; [done|]. intros _.
  rewrite pushed_n_S. apply pushed_if.
Qed.

Lemma times_pushcli n h : hw_wf h -> times n pushcli h = Ret tt (set_my (pushed_n n (my h)) h).
Proof.
  revert h. induction n as [|n IH]; intros h Hwf; simpl.
  - by rewrite set_my_my.
  - rewrite (bind_Ret _ _ _ _ _ (pushcli_run h Hwf)), IH by by apply pushed_wf.
    rewrite my_set_my, set_my_set_my. do 2 f_equal. clear.
    induction n; simpl; [done|by rewrite IHn].
Qed.

Lemma times_popcli n h : hw_wf h ->
  times (S n) popcli (set_my (pushed_n (S n) (my h)) h) = Ret tt (set_my (settled (my h)) h).
Proof.
  intros Hwf. destruct (wf_my h Hwf) as [H0 Hi].
  assert (forall m, popcli (set_my (pushed_n (S m) (my h)) h) =
    Ret tt (set_my (popped (pushed_n (S m) (my h))) h)) as Hpop.
  { intros m. rewrite popcli_run; [by rewrite my_set_my, set_my_set_my|by apply pushed_n_wf|].
    rewrite my_set_my. destruct (pushed_n_facts (S m) (my h)). lia. }
  induction n as [|n IH].
  - cbn [times]. rewrite (bind_Ret _ _ _ _ _ (Hpop O)). simpl. by rewrite popped_pushed.
  - change (times (S (S n)) popcli) with (popcli ;;; times (S n) popcli).
    rewrite (bind_Ret _ _ _ _ _ (Hpop (S n))). rewrite pushed_n_S.
    destruct (pushed_n_facts (S n) (my h)).
    rewrite popped_pushed, settled_id; [exact IH|lia|lia|].
    intros _. rewrite pushed_n_S. apply pushed_if.
Qed.

(** pushcli and popcli nest: after [n >= 1] calls of pushcli, interrupts are
    off, and [n] calls of popcli bring the CPU back to its nesting depth and its
    interrupt flag; everything but the recorded [intena] is as before. *)
Theorem pushcli_popcli_nest n h : hw_wf h ->
  exists h1, times (S n) pushcli h = Ret tt h1 /\ c_if (my h1) = false /\
    times (S n) popcli h1 = Ret tt (set_my (settled (my h)) h).
Proof.
  intros Hwf. exists (set_my (pushed_n (S n) (my h)) h).
  split_and!; [by apply times_pushcli| |by apply times_popcli].
  rewrite my_set_my, pushed_n_S. apply pushed_if.
Qed.

(** ** Several CPUs

    CPUs interleave at the granularity of lock operations; [mp_in i] is the list
    of locks CPU [i] has acquired and not released (ghost state: the code does
    not keep it). *)
Record mp := mkMp { mp_hw : hw; mp_in : nat -> list lockid }.

Definition on_cpu (i : nat) (h : hw) : hw := set_hw_me i h.

Inductive mp_step : mp -> mp -> Prop :=
| mp_acquire i l m h' : (i < hw_ncpu (mp_hw m))%nat ->
    acquire l (on_cpu i (mp_hw m)) = Ret tt h' ->
    mp_step m (mkMp h' (upd (mp_in m) i (l :: mp_in m i)))
| mp_release i l l1 l2 m h' : (i < hw_ncpu (mp_hw m))%nat ->
    mp_in m i = l1 ++ l :: l2 ->
    release l (on_cpu i (mp_hw m)) = Ret tt h' ->
    mp_step m (mkMp h' (upd (mp_in m) i (l1 ++ l2)))
| mp_sti i m h' : (i < hw_ncpu (mp_hw m))%nat ->
    c_ncli (hw_cpus (mp_hw m) i) = 0 ->
    sti (on_cpu i (mp_hw m)) = Ret tt h' -> mp_step m (mkMp h' (mp_in m))
| mp_cli i m h' : (i < hw_ncpu (mp_hw m))%nat ->
    cli (on_cpu i (mp_hw m)) = Ret tt h' -> mp_step m (mkMp h' (mp_in m)).

Record mp_inv (m : mp) : Prop := {
  inv_wf : hw_wf (mp_hw m);
  inv_held i l : (i < hw_ncpu (mp_hw m))%nat ->
    l ∈ mp_in m i <-> hw_locks (mp_hw m) l = mkSpinlock true (Some i);
  inv_lock l : hw_locks (mp_hw m) l = lock0 \/
    exists i, (i < hw_ncpu (mp_hw m))%nat /\ hw_locks (mp_hw m) l = mkSpinlock true (Some i);
  inv_ncli i : (i < hw_ncpu (mp_hw m))%nat ->
    c_ncli (hw_cpus (mp_hw m) i) = Z.of_nat (length (mp_in m i));
  inv_nodup i : NoDup (mp_in m i);
}.

Lemma on_cpu_wf i h : (i < hw_ncpu h)%nat -> hw_wf h -> hw_wf (on_cpu i h).
Proof. intros ? []. by split. Qed.

Lemma mp_inv_acquire i l m h' : mp_inv m -> (i < hw_ncpu (mp_hw m))%nat ->
  acquire l (on_cpu i (mp_hw m)) = Ret tt h' ->
  mp_inv (mkMp h' (upd (mp_in m) i (l :: mp_in m i))).
Proof.
  intros [Hwf Hheld Hlock Hncli Hnd] Hi E. pose proof (on_cpu_wf i _ Hi Hwf) as Hwfi.
  destruct (Hlock l) as [Hl|(j & Hj & Hl)].
  2: { rewrite acquire_busy in E by (done || (simpl; by rewrite Hl)).
       by destruct (bool_decide _). }
  rewrite acquire_run in E by done. injection E as <-.
  assert (l ∉ mp_in m i) as Hni by (rewrite (Hheld i l Hi), Hl; done).
  split; simpl.
  - apply hw_wf_set_lock, pushed_wf, Hwfi.
  - intros j k Hj. unfold set_lock, set_my. simpl. rewrite !upd_case.
    repeat case_decide; subst; rewrite ?elem_of_cons, ?Hheld by done; rewrite ?Hl; naive_solver.
  - intros k. unfold set_lock, set_my. simpl. rewrite upd_case. case_decide; [|apply Hlock].
    right. by exists i.
  - intros j Hj. unfold set_lock, set_my. simpl. rewrite !upd_case. case_decide; [|by apply Hncli].
    subst j. rewrite pushed_ncli. unfold my. simpl. rewrite Hncli by done. lia.
  - intros j. rewrite upd_case. case_decide; [|apply Hnd]. apply NoDup_cons. auto.
Qed.

Lemma mp_inv_release i l l1 l2 m h' : mp_inv m -> (i < hw_ncpu (mp_hw m))%nat ->
  mp_in m i = l1 ++ l :: l2 -> release l (on_cpu i (mp_hw m)) = Ret tt h' ->
  mp_inv (mkMp h' (upd (mp_in m) i (l1 ++ l2))).
Proof.
  intros [Hwf Hheld Hlock Hncli Hnd] Hi Hin E. pose proof (on_cpu_wf i _ Hi Hwf) as Hwfi.
  assert (hw_locks (mp_hw m) l = mkSpinlock true (Some i)) as Hl
    by (apply Hheld; [done|]; rewrite Hin; set_solver).
  pose proof (Hncli i Hi) as Hc. rewrite Hin, length_app in Hc. simpl in Hc.
  rewrite release_run in E; [|done|done|unfold my; simpl; lia]. injection E as <-.
  pose proof (Hnd i) as Hndi. rewrite Hin in Hndi.
  assert (NoDup (l1 ++ l2) /\ l ∉ l1 ++ l2) as [Hnd2 Hni].
  { apply NoDup_app in Hndi as (? & ? & [? ?]%NoDup_cons). split; [apply NoDup_app|]; set_solver. }
  split; simpl.
  - apply hw_wf_set_lock, hw_wf_set_my; [done|..]; unfold popped, my; simpl;
      destruct (_ && _) eqn:E0; bool_to_prop; simpl; try done; try lia.
    intros _. apply (wf_if _ Hwf); [done|lia].
  - intros j k Hj. unfold set_lock, set_my. simpl. rewrite !upd_case.
    destruct (decide (i = j)) as [<-|Hij], (decide (l = k)) as [<-|Hlk]; try done.
    + rewrite <- Hheld by done. rewrite Hin. set_solver.
    + rewrite Hheld, Hl by done. naive_solver.
    + by apply Hheld.
  - intros k. unfold set_lock, set_my. simpl. rewrite upd_case. case_decide; [by left|apply Hlock].
  - intros j Hj. unfold set_lock, set_my. simpl. rewrite !upd_case. case_decide; [|by apply Hncli].
    subst j. rewrite length_app. unfold popped, my. simpl. destruct (_ && _); simpl; lia.
  - intros j. rewrite upd_case. case_decide; [done|apply Hnd].
Qed.

Lemma mp_inv_flag i b m : mp_inv m -> (i < hw_ncpu (mp_hw m))%nat ->
  (b = true -> c_ncli (hw_cpus (mp_hw m) i) = 0) ->
  mp_inv (mkMp (set_my (set_c_if b (my (on_cpu i (mp_hw m)))) (on_cpu i (mp_hw m))) (mp_in m)).
Proof.
  intros [Hwf Hheld Hlock Hncli Hnd] Hi Hb. pose proof (on_cpu_wf i _ Hi Hwf) as Hwfi.
  split; simpl; try done.
  - apply hw_wf_set_my; try done; simpl.
    + apply (wf_ncli _ Hwfi); done.
    + destruct b; [|done]. unfold my. simpl. rewrite Hb by done. lia.
  - intros j Hj. unfold set_my. simpl. rewrite upd_case. case_decide; [|by apply Hncli].
    subst j. by apply Hncli.
Qed.

Lemma mp_inv_step m m' : mp_inv m -> mp_step m m' -> mp_inv m'.
Proof.
  intros Hinv. destruct 1 as [i l m h' Hi E|i l l1 l2 m h' Hi Hin E|i m h' Hi H0 E|i m h' Hi E].
  - by eapply mp_inv_acquire.
  - by eapply mp_inv_release.
  - injection E as <-. by apply (mp_inv_flag i true).
  - injection E as <-. by apply (mp_inv_flag i false).
Qed.

(** Boot: distinct APIC ids, no lock held, no pushcli. *)
Definition mp_init (m : mp) : Prop :=
  hw_wf (mp_hw m) /\ (forall i, mp_in m i = []) /\ (forall l, hw_locks (mp_hw m) l = lock0) /\
  (forall i, c_ncli (hw_cpus (mp_hw m) i) = 0).

(** C33. Mutual exclusion: whatever the interleaving of the lock operations of all
    CPUs, a lock is between acquire and release on at most one CPU, the lock
    records exactly that CPU, and a CPU holding any lock has interrupts off. *)
Theorem spinlock_mutual_exclusion m m' i j l :
  mp_init m -> rtc mp_step m m' ->
  (i < hw_ncpu (mp_hw m'))%nat -> (j < hw_ncpu (mp_hw m'))%nat ->
  l ∈ mp_in m' i ->
  (l ∈ mp_in m' j -> i = j) /\
  hw_locks (mp_hw m') l = mkSpinlock true (Some i) /\
  c_if (hw_cpus (mp_hw m') i) = false.
Proof.
  intros (Hwf & Hin & Hlk & Hn) Hsteps Hi Hj Hl.
  assert (mp_inv m) as H0.
  { split; try done; intros; rewrite ?Hin, ?Hlk, ?Hn; try done; [|by left|constructor].
    split; [set_solver|done]. }
  assert (mp_inv m') as [Hwf' Hheld Hlock Hncli Hnd].
  { clear -H0 Hsteps. induction Hsteps; [done|]. eauto using mp_inv_step. }
  pose proof Hl as Hl'. rewrite Hheld in Hl' by done. split_and!; [|done|].
  - rewrite Hheld by done. rewrite Hl'. naive_solver.
  - apply (wf_if _ Hwf'); [done|]. rewrite Hncli by done. destruct (mp_in m' i); [set_solver|].
    simpl. lia.
Qed.
