(* ===== verification/Kalloc.v ===== *)
(** * Physical page allocator (kalloc.c)

    Free pages form a linked list: the first word of a free page is the address
    of the next one.  State: [vmst] (CPUs and locks, memory, [kmem]). *)
From S2P Require Import Prelude Machine StringC Spinlock.

(** Symbols placed by the linker (kernel.ld). *)
Class Symbols := {
  sym_data : Z;       (* start of the kernel's data, page aligned *)
  sym_end : Z;        (* first address after the kernel *)
  sym_forkret : Z;
  sym_trapret : Z;
  sym_data_range : KERNLINK < sym_data <= sym_end;
  sym_data_align : sym_data mod PGSIZE = 0;
  sym_end_range : sym_end < KERNBASE + 4 * 1024 * 1024;
}.

Definition on_hw {A} (m : M hw A) : M vmst A := zoom v_hw (fun s h => set_v_hw h s) m.
Definition memop (f : mem -> mem) : M vmst unit := modify (fun s => set_v_mem (f (v_mem s)) s).

(** [if(kmem.use_lock) acquire(&kmem.lock)] and its counterpart. *)
Definition km_acquire : M vmst unit :=
  let* ul := gets v_use_lock in when ul (on_hw (acquire Lkmem)).
Definition km_release : M vmst unit :=
  let* ul := gets v_use_lock in when ul (on_hw (release Lkmem)).

Section kalloc.
Context `{Symbols}.

Definition kfree (v : Z) : M vmst unit :=
  if negb (u32 v mod PGSIZE =? 0) || (v <? sym_end) || (PHYSTOP <=? V2P v) then panic "kfree" else
  memop (memset v 1 PGSIZE) ;;;
  km_acquire ;;;
  let* fl := gets v_freelist in
  memop (fun m => store32 m v fl) ;;;
  modify (set_v_freelist v) ;;;
  km_release.

Definition kalloc : M vmst Z :=
  km_acquire ;;;
  let* r := gets v_freelist in
  when (negb (r =? 0)) (modify (fun s => set_v_freelist (load32 (v_mem s) r) s)) ;;;
  km_release ;;;
  ret r.

Fixpoint freerange_loop (fuel : nat) (p vend : Z) : M vmst unit :=
  match fuel with
  | O => out_of_fuel
  | S f => if p + PGSIZE <=? vend then kfree p ;;; freerange_loop f (p + PGSIZE) vend else ret tt
  end.
(** The fuel is the number of pages up to [vend], and one for the last test. *)
Definition freerange (vstart vend : Z) : M vmst unit :=
  let p := PGROUNDUP vstart in
  freerange_loop (S (Z.to_nat ((vend - p) / PGSIZE))) p vend.

Definition kinit1 (vstart vend : Z) : M vmst unit :=
  on_hw (initlock Lkmem) ;;;
  modify (set_v_use_lock false) ;;;
  freerange vstart vend.

Definition kinit2 (vstart vend : Z) : M vmst unit :=
  freerange vstart vend ;;;
  modify (set_v_use_lock true).

(** ** The free list *)

(** A page the allocator may hand out. *)
Definition good_page (v : Z) : Prop :=
  v mod PGSIZE = 0 /\ sym_end <= v /\ v < KERNBASE + PHYSTOP.

Fixpoint chain (m : mem) (a : Z) (l : list Z) : Prop :=
  match l with
  | [] => a = 0
  | v :: l' => a = v /\ good_page v /\ chain m (load32 m v) l'
  end.

(** The free list holds exactly the pages [l], in this order. *)
Record free_pages (s : vmst) (l : list Z) : Prop := {
  fp_chain : chain (v_mem s) (v_freelist s) l;
  fp_nodup : NoDup l;
}.

(** The allocator's lock can be taken. *)
Record km_ready (s : vmst) : Prop := {
  kr_wf : hw_wf (v_hw s);
  kr_lock : hw_locks (v_hw s) Lkmem = lock0;
}.

(** The CPUs after one call of the allocator. *)
Definition km_hw (s : vmst) : hw :=
  if v_use_lock s then set_my (settled (my (v_hw s))) (v_hw s) else v_hw s.

Lemma good_page_range v : good_page v -> KERNBASE + EXTMEM < v < 2 ^ 32 - PGSIZE.
Proof.
  intros (_ & H1 & H2). pose proof sym_data_range. unfold KERNLINK, KERNBASE, EXTMEM, PHYSTOP, PGSIZE in *.
  lia.
Qed.

Lemma good_page_aligned v : good_page v -> v mod 4096 = 0.
Proof. by intros (? & _). Qed.

Lemma V2P_range v : KERNBASE <= v < 2 ^ 32 -> V2P v = v - KERNBASE.
Proof.
  intros Hv. unfold V2P. rewrite (u32_small v) by (unfold KERNBASE in *; lia).
  apply u32_small. unfold KERNBASE in *. lia.
Qed.

Lemma good_page_V2P v : good_page v -> V2P v = v - KERNBASE.
Proof.
  intros Hv%good_page_range. apply V2P_range. unfold KERNBASE, EXTMEM, PGSIZE in *. lia.
Qed.

(** Distinct pages do not overlap. *)
Lemma pages_disjoint v w : v mod 4096 = 0 -> w mod 4096 = 0 -> v <> w ->
  v + 4096 <= w \/ w + 4096 <= v.
Proof. intros. Z.div_mod_to_equations. lia. Qed.

Lemma chain_good m a l v : chain m a l -> v ∈ l -> good_page v.
Proof.
  revert a. induction l as [|w l IH]; intros a; simpl; [set_solver|].
  intros (_ & Hw & Hl) [->|Hv]%elem_of_cons; eauto.
Qed.

Lemma chain_ext m m' a l :
  (forall v b, v ∈ l -> v <= b < v + 4 -> m' b = m b) -> chain m a l -> chain m' a l.
Proof.
  revert a. induction l as [|w l IH]; intros a Hm; simpl; [done|].
  intros (-> & Hw & Hl). split_and!; [done..|].
  rewrite (load32_ext m' m w) by (intros b Hb; apply (Hm w); [left|done]).
  apply IH; [|done]. intros v b Hv. apply Hm. by right.
Qed.

(** ** The critical section *)

Lemma on_hw_Ret {A} (m : M hw A) s a h : m (v_hw s) = Ret a h -> on_hw m s = Ret a (set_v_hw h s).
Proof. intros E. unfold on_hw, zoom. by rewrite E. Qed.

Lemma km_hw_ready s : km_ready s -> km_ready (set_v_hw (km_hw s) s).
Proof.
  intros [Hwf Hl]. unfold km_hw. destruct (v_use_lock s); split; try done.
  by apply settled_wf.
Qed.

(** Between taking and releasing the lock the CPUs are in state [h1]; releasing
    it from any state that keeps them gives [km_hw]. *)
Lemma km_section s : km_ready s ->
  exists h1, km_acquire s = Ret tt (set_v_hw h1 s) /\
    forall s', v_hw s' = h1 -> v_use_lock s' = v_use_lock s ->
      km_release s' = Ret tt (set_v_hw (km_hw s) s').
Proof.
  intros [Hwf Hl]. unfold km_acquire, km_release, km_hw, bind, gets, when.
  destruct (v_use_lock s).
  - eexists. split; [apply on_hw_Ret, acquire_run; done|].
    intros s' Hh ->. apply on_hw_Ret. rewrite Hh. destruct (wf_my _ Hwf) as [Hn Hi].
    rewrite release_run.
    + rewrite my_set_lock, my_set_my. unfold set_lock, set_my. simpl.
      rewrite !upd_upd, popped_pushed by done. do 2 f_equal.
      rewrite upd_id by done. done.
    + by apply hw_wf_set_lock, pushed_wf.
    + unfold set_lock. simpl. by rewrite upd_eq.
    + rewrite my_set_lock, my_set_my, pushed_ncli. lia.
  - exists (v_hw s). split; [by destruct s|]. intros s' Hh ->. rewrite <- Hh. by destruct s'.
Qed.

(** ** Runs of the allocator *)

Lemma kalloc_run s l : km_ready s -> free_pages s l ->
  kalloc s = match l with
             | [] => Ret 0 (set_v_hw (km_hw s) s)
             | v :: _ => Ret v (set_v_freelist (load32 (v_mem s) v) (set_v_hw (km_hw s) s))
             end.
Proof.
  intros Hr [Hc _]. destruct (km_section s Hr) as (h1 & Ha & Hrel).
  unfold kalloc. rewrite (bind_Ret _ _ _ _ _ Ha). unfold bind at 1, gets. simpl.
  destruct l as [|v l]; simpl in Hc.
  - rewrite Hc. simpl. unfold bind at 1, ret.
    rewrite (bind_Ret _ _ _ tt (set_v_hw (km_hw s) s)); [done|].
    rewrite Hrel by done. by destruct s.
  - destruct Hc as (Hv & Hg & _). rewrite Hv. pose proof (good_page_range v Hg).
    rewrite (proj2 (Z.eqb_neq v 0)) by (unfold KERNBASE, EXTMEM in *; lia). simpl.
    unfold bind at 1, modify.
    rewrite (bind_Ret _ _ _ tt (set_v_freelist (load32 (v_mem s) v) (set_v_hw (km_hw s) s))); [done|].
    rewrite Hrel by done. done.
Qed.

Lemma free_pages_kalloc s v l : free_pages s (v :: l) ->
  forall h, free_pages (set_v_freelist (load32 (v_mem s) v) (set_v_hw h s)) l.
Proof. intros [(_ & _ & Hc) [_ Hnd]%NoDup_cons] h. by split. Qed.

Lemma kfree_run s v : km_ready s -> good_page v ->
  kfree v s = Ret tt (set_v_freelist v
    (set_v_mem (store32 (memset v 1 PGSIZE (v_mem s)) v (v_freelist s)) (set_v_hw (km_hw s) s))).
Proof.
  intros Hr Hg. pose proof (good_page_range v Hg) as Hv. pose proof (good_page_V2P v Hg) as Hp.
  destruct Hg as (Ha & He & Hs). unfold kfree. rewrite Hp, u32_small by (unfold KERNBASE, EXTMEM, PGSIZE in *; lia).
  rewrite Ha, (proj2 (Z.ltb_ge v sym_end)), (proj2 (Z.leb_gt PHYSTOP _)) by lia. simpl.
  unfold memop, bind at 1, modify.
  set (s1 := set_v_mem _ s). assert (km_ready s1) as Hr1 by (destruct Hr; by split).
  destruct (km_section s1 Hr1) as (h1 & Hacq & Hrel).
  rewrite (bind_Ret _ _ _ _ _ Hacq). unfold bind, gets. rewrite Hrel by done. done.
Qed.

Lemma free_pages_kfree s v l : free_pages s l -> good_page v -> v ∉ l ->
  forall h, free_pages (set_v_freelist v
    (set_v_mem (store32 (memset v 1 PGSIZE (v_mem s)) v (v_freelist s)) (set_v_hw h s))) (v :: l).
Proof.
  intros [Hc Hnd] Hg Hv h. split; [|by apply NoDup_cons]. simpl. split_and!; [done..|].
  assert (0 <= v_freelist s < 2 ^ 32) as Hfl.
  { destruct l as [|w l]; simpl in Hc; [lia|]. destruct Hc as (-> & Hw%good_page_range & _).
    unfold KERNBASE, EXTMEM, PGSIZE in *. lia. }
  rewrite load32_store32_eq, u32_small by done. apply (chain_ext (v_mem s)); [|done].
  intros w b Hw Hb. destruct (pages_disjoint v w) as [Hd|Hd];
    [by apply good_page_aligned|by eapply good_page_aligned, chain_good; eauto|by intros <-|..];
    rewrite store32_ne, memset_at, decide_False by (unfold PGSIZE; lia); done.
Qed.

(** ** Initialisation *)

(** The [n] pages from [p] up. *)
Definition page_seq (p : Z) (n : nat) : list Z := (fun i => p + PGSIZE * Z.of_nat i) <$> seq 0 n.

Lemma page_seq_S p n : page_seq p (S n) = p :: page_seq (p + PGSIZE) n.
Proof.
  unfold page_seq. simpl. f_equal; [lia|]. rewrite <- seq_shift, <- list_fmap_compose.
  apply list_fmap_ext. intros i x _. simpl. lia.
Qed.

Lemma elem_of_page_seq p n v : v ∈ page_seq p n <->
  exists i, (i < n)%nat /\ v = p + PGSIZE * Z.of_nat i.
Proof.
  unfold page_seq. rewrite list_elem_of_fmap. setoid_rewrite elem_of_seq. naive_solver lia.
Qed.

Lemma freerange_loop_run n p vend s l :
  km_ready s -> free_pages s l ->
  (forall v, v ∈ page_seq p n -> good_page v /\ v ∉ l) ->
  p + PGSIZE * Z.of_nat n <= vend < p + PGSIZE * Z.of_nat n + PGSIZE ->
  exists s', freerange_loop (S n) p vend s = Ret tt s' /\ km_ready s' /\
    free_pages s' (reverse (page_seq p n) ++ l) /\ v_use_lock s' = v_use_lock s /\
    forall b, (forall v, v ∈ page_seq p n -> ~ (v <= b < v + PGSIZE)) -> v_mem s' b = v_mem s b.
Proof.
  revert p s l. induction n as [|n IH]; intros p s l Hr Hf Hp Hv; cbn [freerange_loop].
  - rewrite (proj2 (Z.leb_gt _ vend)) by (unfold PGSIZE in *; lia). by exists s.
  - rewrite (proj2 (Z.leb_le _ vend)) by (unfold PGSIZE in *; lia). rewrite page_seq_S in *.
    destruct (Hp p) as [Hg Hn]; [left|]. rewrite (bind_Ret _ _ _ _ _ (kfree_run s p Hr Hg)).
    set (s1 := set_v_freelist _ _).
    assert (free_pages s1 (p :: l)) as Hf1 by by apply free_pages_kfree.
    assert (km_ready s1) as Hr1 by (destruct (km_hw_ready s Hr); by split).
    destruct (IH (p + PGSIZE) s1 (p :: l)) as (s' & E & Hr' & Hf' & Hu & Hm); [done|done| |unfold PGSIZE in *; lia|].
    { intros v Hv'. destruct (Hp v) as [? ?]; [by right|]. split; [done|].
      intros [->|?]%elem_of_cons; [|done].
      apply elem_of_page_seq in Hv' as (i & _ & Hi). unfold PGSIZE in Hi. lia. }
    exists s'. split_and!; [done|done| |done|].
    + rewrite reverse_cons, <- app_assoc. done.
    + intros b Hb. rewrite Hm by (intros v Hv'; apply Hb; by right). simpl.
      specialize (Hb p ltac:(left)). unfold PGSIZE in *.
      by rewrite store32_ne, memset_at, decide_False by lia.
Qed.

(** [freerange] terminates and puts every whole page between [vstart] and [vend]
    on the free list, once each, leaving all other memory alone. *)
Theorem freerange_frees_all s l vstart vend :
  let p := PGROUNDUP vstart in
  let n := Z.to_nat ((vend - p) / PGSIZE) in
  km_ready s -> free_pages s l ->
  sym_end <= vstart -> vstart <= vend -> vend <= KERNBASE + PHYSTOP -> p <= vend ->
  (forall v, v ∈ l -> v < p \/ vend < v + PGSIZE) ->
  exists s', freerange vstart vend s = Ret tt s' /\
    free_pages s' (reverse (page_seq p n) ++ l) /\
    forall b, (b < p \/ vend <= b) -> v_mem s' b = v_mem s b.
Proof.
  intros p n Hr Hf Hvs Hvv Hve Hpv Hl. 
  assert (PGSIZE * Z.of_nat n <= vend - p < PGSIZE * Z.of_nat n + PGSIZE) as Hn.
  { unfold n, PGSIZE in *. rewrite Z2Nat.id by (apply Z.div_pos; lia).
    Z.div_mod_to_equations. lia. }
  assert (p mod PGSIZE = 0 /\ sym_end <= p) as [Ha Hp].
  { pose proof sym_data_range. unfold p, KERNLINK, KERNBASE, EXTMEM, PHYSTOP in *.
    rewrite PGROUNDUP_eq in *. unfold PGSIZE in *.
    rewrite u32_small in * by lia. Z.div_mod_to_equations. lia. }
  destruct (freerange_loop_run n p vend s l) as (s' & E & _ & Hf' & _ & Hm); [done|done| |lia|].
  { intros v (i & Hi & ->)%elem_of_page_seq. unfold good_page, PGSIZE in *. split; [split_and!|].
    - Z.div_mod_to_equations. lia.
    - lia.
    - lia.
    - intros [Hlt|Hge]%Hl; lia. }
  exists s'. split_and!; [done|done|]. intros b Hb. apply Hm.
  intros v (i & Hi & ->)%elem_of_page_seq. unfold PGSIZE in *. lia.
Qed.

(** ** Clients of the allocator

    [out] is the list of pages handed out and not yet freed.  Clients write to
    their own pages and to no free page. *)
Definition in_pages (l : list Z) (b : Z) : Prop := exists v, v ∈ l /\ v <= b < v + PGSIZE.

Inductive km_step : vmst * list Z -> vmst * list Z -> Prop :=
| km_alloc s s' out v : kalloc s = Ret v s' -> v <> 0 -> km_step (s, out) (s', v :: out)
| km_alloc_fail s s' out : kalloc s = Ret 0 s' -> km_step (s, out) (s', out)
| km_free s s' o1 v o2 : kfree v s = Ret tt s' -> km_step (s, o1 ++ v :: o2) (s', o1 ++ o2)
| km_write s out m' : (forall b, ~ in_pages out b -> m' b = v_mem s b) ->
    km_step (s, out) (set_v_mem m' s, out).

(** Every page of [all] is either free or handed out, never both. *)
Definition km_inv (all : list Z) (st : vmst * list Z) : Prop :=
  km_ready st.1 /\ exists l, free_pages st.1 l /\ l ++ st.2 ≡ₚ all /\
    NoDup all /\ Forall good_page all.

Lemma km_inv_step all st st' : km_inv all st -> km_step st st' -> km_inv all st'.
Proof.
  intros (Hr & l & Hf & Hp & Hnd & Hg) Hstep. unfold km_inv.
  destruct Hstep as [s s' out v E Hv|s s' out E|s s' o1 v o2 E|s out m' Hm]; simpl in *.
  - rewrite (kalloc_run s l Hr Hf) in E. destruct l as [|w l]; injection E as <- <-; [done|].
    split; [destruct (km_hw_ready s Hr); by split|].
    exists l. split_and!; [by eapply free_pages_kalloc| |done|done].
    rewrite <- Hp. simpl. symmetry. apply Permutation_middle.
  - rewrite (kalloc_run s l Hr Hf) in E. destruct l as [|w l].
    + injection E as <-. split; [by apply km_hw_ready|]. exists []. destruct Hf. by split_and!.
    + injection E as Hw _. exfalso. destruct Hf as [(_ & Hw'%good_page_range & _) _].
      unfold KERNBASE, EXTMEM in *. lia.
  - assert (good_page v /\ v ∉ l) as [Hgv Hvl].
    { rewrite Forall_forall in Hg. split; [apply Hg; rewrite <- Hp; set_solver|].
      rewrite <- Hp in Hnd. apply NoDup_app in Hnd as (_ & Hd & _). intros Hv. apply (Hd v Hv). set_solver. }
    rewrite (kfree_run s v Hr Hgv) in E. injection E as <-.
    split; [destruct (km_hw_ready s Hr); by split|].
    exists (v :: l). split_and!; [by apply free_pages_kfree| |done|done].
    rewrite <- Hp. simpl. rewrite (Permutation_middle l (o1 ++ o2) v).
    apply Permutation_app_head, Permutation_middle.
  - split; [destruct Hr; by split|]. exists l. destruct Hf as [Hc Hndl].
    split_and!; [|done|done|done]. split; [|done]. simpl. apply (chain_ext (v_mem s)); [|done].
    intros w b Hw Hb. apply Hm. intros (v & Hv & Hvb).
    assert (v <> w) as Hne.
    { intros ->. rewrite <- Hp in Hnd. apply NoDup_app in Hnd as (_ & Hd & _). by apply (Hd w). }
    rewrite Forall_forall in Hg. destruct (pages_disjoint v w) as [Hd|Hd]; unfold PGSIZE in *;
      [apply good_page_aligned, Hg; rewrite <- Hp; set_solver..|done|lia|lia].
Qed.

(** C25. Safety of the page allocator: starting with all pages free, in every
    interleaving of allocations, frees of allocated pages and writes of clients to
    their own pages, a page returned by [kalloc] is a valid page that nobody
    holds, and [kalloc] fails only when every page is handed out. *)
Theorem kalloc_no_double_allocation s0 all s out v s' :
  km_ready s0 -> free_pages s0 all -> Forall good_page all ->
  rtc km_step (s0, []) (s, out) -> kalloc s = Ret v s' ->
  (v <> 0 -> good_page v /\ v ∉ out /\ NoDup (v :: out)) /\ (v = 0 -> out ≡ₚ all).
Proof.
  intros Hr Hf Hg Hsteps E.
  assert (km_inv all (s0, [])) as H0.
  { split; [done|]. exists all. simpl. rewrite app_nil_r. destruct Hf. by split_and!. }
  assert (km_inv all (s, out)) as (Hrs & l & Hfs & Hp & Hnd & _).
  { clear -H0 Hsteps. induction Hsteps; [done|]. eauto using km_inv_step. }
  simpl in *. rewrite (kalloc_run s l Hrs Hfs) in E.
  destruct l as [|w l]; injection E as <- <-.
  - split; [done|]. intros _. by rewrite <- Hp.
  - rewrite <- Hp in Hnd. simpl in Hnd. destruct Hfs as [(_ & Hw & _) _].
    apply NoDup_cons in Hnd as [Hwo (_ & _ & Hnd)%NoDup_app].
    split; [|intros ->; apply good_page_range in Hw; unfold KERNBASE, EXTMEM in *; lia].
    intros _. split_and!; [done|set_solver|]. apply NoDup_cons. set_solver.
Qed.
End kalloc.
