(* ===== verification/Vm.v ===== *)
(** * Page tables and address spaces (vm.c)

    Page directories and page tables live in byte memory, as in the code; a page
    table entry is read and written with 32-bit loads and stores.  Console output
    (cprintf) is not modelled.  Loops carry fuel equal to the number of pages they
    can visit; running out of fuel is the outcome [Spin]. *)
From S2P Require Import Prelude Machine StringC Spinlock Kalloc.

Definition ld (a : Z) : M vmst Z := gets (fun s => load32 (v_mem s) a).
Definition st (a v : Z) : M vmst unit := memop (fun m => store32 m a v).
Definition flag (pte f : Z) : bool := negb (Z.land pte f =? 0).

Section vm.
Context `{Symbols}.

(** The address of the PTE for [va], or 0. *)
Definition walkpgdir (pgdir va : Z) (alloc : bool) : M vmst Z :=
  let pde := pgdir + 4 * PDX va in
  let* e := ld pde in
  if flag e PTE_P then ret (P2V (PTE_ADDR e) + 4 * PTX va)
  else if negb alloc then ret 0 else
  let* pgtab := kalloc in
  if pgtab =? 0 then ret 0 else
  memop (memset pgtab 0 PGSIZE) ;;;
  st pde (Z.lor (Z.lor (Z.lor (V2P pgtab) PTE_P) PTE_W) PTE_U) ;;;
  ret (pgtab + 4 * PTX va).

Fixpoint mappages_loop (fuel : nat) (pgdir a last pa perm : Z) : M vmst Z :=
  match fuel with
  | O => out_of_fuel
  | S f =>
    let* pte := walkpgdir pgdir a true in
    if pte =? 0 then ret (-1) else
    let* e := ld pte in
    if flag e PTE_P then panic "remap" else
    st pte (Z.lor (Z.lor pa perm) PTE_P) ;;;
    if a =? last then ret 0
    else mappages_loop f pgdir (u32 (a + PGSIZE)) last (u32 (pa + PGSIZE)) perm
  end.

Definition mappages (pgdir va size pa perm : Z) : M vmst Z :=
  let a := PGROUNDDOWN (u32 va) in
  let last := PGROUNDDOWN (u32 (u32 va + size - 1)) in
  mappages_loop (S (Z.to_nat (u32 (last - a) / PGSIZE))) pgdir a last pa perm.

(** struct kmap and its table. *)
Record kmap_entry := mkKmap { km_virt : Z; km_phys_start : Z; km_phys_end : Z; km_perm : Z }.
Definition kmap : list kmap_entry :=
  [ mkKmap KERNBASE 0 EXTMEM PTE_W;
    mkKmap KERNLINK (V2P KERNLINK) (V2P sym_data) 0;
    mkKmap sym_data (V2P sym_data) PHYSTOP PTE_W;
    mkKmap DEVSPACE DEVSPACE 0 PTE_W ].

Fixpoint deallocuvm_loop (fuel : nat) (pgdir a oldsz : Z) : M vmst unit :=
  match fuel with
  | O => out_of_fuel
  | S f =>
    if a <? oldsz then
      let* pte := walkpgdir pgdir a false in
      if pte =? 0 then
        deallocuvm_loop f pgdir (u32 (u32 (PGADDR (PDX a + 1) 0 0 - PGSIZE) + PGSIZE)) oldsz
      else
        let* e := ld pte in
        (if flag e PTE_P then
           let pa := PTE_ADDR e in
           if pa =? 0 then panic "kfree" else
           kfree (P2V pa) ;;;
           st pte 0
         else ret tt) ;;;
        deallocuvm_loop f pgdir (u32 (a + PGSIZE)) oldsz
    else ret tt
  end.

(** The loop visits each page below [oldsz] at most once. *)
Definition deallocuvm (pgdir oldsz newsz : Z) : M vmst Z :=
  if newsz >=? oldsz then ret oldsz else
  deallocuvm_loop (S (Z.to_nat (oldsz / PGSIZE + 1))) pgdir (PGROUNDUP newsz) oldsz ;;;
  ret newsz.

Definition freevm (pgdir : Z) (dodeallocuvm : bool) : M vmst unit :=
  if pgdir =? 0 then panic "freevm: no pgdir" else
  when dodeallocuvm (deallocuvm pgdir KERNBASE 0 ;;; ret tt) ;;;
  foreach (Z.of_nat <$> seq 0 NPDENTRIES) (fun i =>
    let* e := ld (pgdir + 4 * i) in
    when (flag e PTE_P) (kfree (P2V (PTE_ADDR e)))) ;;;
  kfree pgdir.

Fixpoint setupkvm_loop (pgdir : Z) (ks : list kmap_entry) : M vmst Z :=
  match ks with
  | [] => ret pgdir
  | k :: ks' =>
    let* r := mappages pgdir (km_virt k) (u32 (km_phys_end k - km_phys_start k))
                (km_phys_start k) (km_perm k) in
    if r <? 0 then freevm pgdir false ;;; ret 0 else setupkvm_loop pgdir ks'
  end.

Definition setupkvm : M vmst Z :=
  let* pgdir := kalloc in
  if pgdir =? 0 then ret 0 else
  memop (memset pgdir 0 PGSIZE) ;;;
  if P2V PHYSTOP >? DEVSPACE then panic "PHYSTOP too high" else
  setupkvm_loop pgdir kmap.

Definition lcr3 (val : Z) : M hw unit := fun h => upd_cpu (hw_me h) (set_c_cr3 val) h.
Definition ltr (sel : Z) : M hw unit := fun h => upd_cpu (hw_me h) (set_c_tr sel) h.

Definition switchkvm : M vmst unit :=
  let* k := gets v_kpgdir in on_hw (lcr3 (V2P k)).

Definition kvmalloc : M vmst unit :=
  let* k := setupkvm in
  modify (set_v_kpgdir k) ;;;
  switchkvm.

(** SEG: a 4 KiB-granular segment, its limit in pages. *)
Definition SEG (type base lim dpl : Z) : segdesc :=
  mkSegdesc type (u32 base) (Z.shiftr lim 12) 1 dpl 1 1 1.

Definition seginit : M hw unit :=
  let* c := cpuid in
  let setg i d := upd_cpu c (fun k => set_c_gdt (upd (c_gdt k) (Z.to_nat i) d) k) in
  setg SEG_KCODE (SEG (Z.lor STA_X STA_R) 0 0xffffffff 0) ;;;
  setg SEG_KDATA (SEG STA_W 0 0xffffffff 0) ;;;
  setg SEG_UCODE (SEG (Z.lor STA_X STA_R) 0 0xffffffff DPL_USER) ;;;
  setg SEG_UDATA (SEG STA_W 0 0xffffffff DPL_USER).

(** SEG16 with the base address of the task state segment of CPU [c]. *)
Definition SEG16 (type base lim dpl : Z) : segdesc := mkSegdesc type (u32 base) lim 1 dpl 1 1 0.

(** [&mycpu()->ts] is the linker's business: its address is a function of the CPU. *)
Definition switchuvm (ts_addr : nat -> Z) (p : option proc) : M vmst unit :=
  match p with
  | None => panic "switchuvm: no process"
  | Some p =>
    if p_kstack p =? 0 then panic "switchuvm: no kstack" else
    if p_pgdir p =? 0 then panic "switchuvm: no pgdir" else
    on_hw (
      pushcli ;;;
      let* c := mycpu in
      upd_cpu c (fun k => set_c_gdt (upd (c_gdt k) (Z.to_nat SEG_TSS) (SEG16 STS_T32A (ts_addr c) 103 0)) k) ;;;
      upd_cpu c (fun k => set_c_gdt (upd (c_gdt k) (Z.to_nat SEG_TSS)
        (set_sd_s 0 (c_gdt k (Z.to_nat SEG_TSS)))) k) ;;;
      upd_cpu c (set_c_ts_ss0 (Z.shiftl SEG_KDATA 3)) ;;;
      upd_cpu c (set_c_ts_esp0 (u32 (p_kstack p + KSTACKSIZE))) ;;;
      upd_cpu c (set_c_ts_iomb 0xFFFF) ;;;
      ltr (Z.shiftl SEG_TSS 3) ;;;
      lcr3 (V2P (p_pgdir p)) ;;;
      popcli)
  end.

(** [init] is the address of the initcode image. *)
Definition inituvm (pgdir init sz : Z) : M vmst unit :=
  if sz >=? PGSIZE then panic "inituvm: more than a page" else
  let* mem := kalloc in
  memop (memset mem 0 PGSIZE) ;;;
  mappages pgdir 0 PGSIZE (V2P mem) (Z.lor PTE_W PTE_U) ;;;
  memop (memmove mem init sz).

Fixpoint allocuvm_loop (fuel : nat) (pgdir a newsz oldsz : Z) : M vmst Z :=
  match fuel with
  | O => out_of_fuel
  | S f =>
    if a <? newsz then
      let* mem := kalloc in
      if mem =? 0 then deallocuvm pgdir newsz oldsz ;;; ret 0 else
      memop (memset mem 0 PGSIZE) ;;;
      let* r := mappages pgdir a PGSIZE (V2P mem) (Z.lor PTE_W PTE_U) in
      if r <? 0 then deallocuvm pgdir newsz oldsz ;;; kfree mem ;;; ret 0
      else allocuvm_loop f pgdir (u32 (a + PGSIZE)) newsz oldsz
    else ret newsz
  end.

Definition allocuvm (pgdir oldsz newsz : Z) : M vmst Z :=
  if newsz >=? KERNBASE then ret 0
  else if newsz <? oldsz then ret oldsz
  else allocuvm_loop (S (Z.to_nat (newsz / PGSIZE + 1))) pgdir (PGROUNDUP oldsz) newsz oldsz.

Definition clearpteu (pgdir uva : Z) : M vmst unit :=
  let* pte := walkpgdir pgdir uva false in
  if pte =? 0 then panic "clearpteu" else
  let* e := ld pte in
  st pte (Z.land e (Z.lnot PTE_U)).

Fixpoint copyuvm_loop (fuel : nat) (pgdir d i sz : Z) : M vmst Z :=
  match fuel with
  | O => out_of_fuel
  | S f =>
    if i <? sz then
      let* pte := walkpgdir pgdir i false in
      if pte =? 0 then copyuvm_loop f pgdir d (u32 (i + PGSIZE)) sz else
      let* e := ld pte in
      if flag e PTE_P then
        let pa := PTE_ADDR e in
        let flags := PTE_FLAGS e in
        let* mem := kalloc in
        if mem =? 0 then freevm d true ;;; ret 0 else
        memop (memmove mem (P2V pa) PGSIZE) ;;;
        let* r := mappages d i PGSIZE (V2P mem) flags in
        if r <? 0 then kfree mem ;;; freevm d true ;;; ret 0
        else copyuvm_loop f pgdir d (u32 (i + PGSIZE)) sz
      else copyuvm_loop f pgdir d (u32 (i + PGSIZE)) sz
    else ret d
  end.

Definition copyuvm (pgdir sz : Z) : M vmst Z :=
  let* d := setupkvm in
  if d =? 0 then ret 0
  else copyuvm_loop (S (Z.to_nat (sz / PGSIZE + 1))) pgdir d 0 sz.

(** The code dereferences the result of walkpgdir without a test. *)
Definition uva2ka (pgdir uva : Z) : M vmst Z :=
  let* pte := walkpgdir pgdir uva false in
  if pte =? 0 then fault else
  let* e := ld pte in
  if negb (flag e PTE_P) then ret 0
  else if negb (flag e PTE_U) then ret 0
  else ret (P2V (PTE_ADDR e)).

(** Page by page, through the kernel address of each user page. *)
Fixpoint copyout_loop (fuel : nat) (pgdir va : Z) (bs : list Z) : M vmst Z :=
  match fuel with
  | O => out_of_fuel
  | S f =>
    let len := Z.of_nat (length bs) in
    if len >? 0 then
      let va0 := PGROUNDDOWN va in
      let* pa0 := uva2ka pgdir va0 in
      if pa0 =? 0 then ret (-1) else
      let n := PGSIZE - (va - va0) in
      let n := if n >? len then len else n in
      memop (fun m a => if decide (pa0 + (va - va0) <= a < pa0 + (va - va0) + n)
                        then nth (Z.to_nat (a - (pa0 + (va - va0)))) bs 0 else m a) ;;;
      copyout_loop f pgdir (u32 (va0 + PGSIZE)) (drop (Z.to_nat n) bs)
    else ret 0
  end.
(** The bytes at the kernel pointer p are the argument [bs]. *)
Definition copyout (pgdir va : Z) (bs : list Z) : M vmst Z :=
  copyout_loop (S (S (Z.to_nat (Z.of_nat (length bs) / PGSIZE + 1)))) pgdir va bs.

End vm.
