(* ===== verification/VmInv.v ===== *)
(** * Address spaces: the page table as a map

    A page directory [d] represents a partial map [pm] from page numbers to
    page table entries.  [own] says what each physical page is used for; because
    it is a function, no page has two uses.  The lemmas show that the operations
    of vm.c update the map and keep this invariant. *)
From S2P Require Import Prelude Machine StringC Spinlock Kalloc Vm.

Section vminv.
Context `{Symbols}.

(** ** Page table entries *)

Lemma pte_split v fl : good_page v -> 0 <= fl < 4096 ->
  Z.lor (V2P v) fl = V2P v + fl /\ PTE_ADDR (V2P v + fl) = V2P v /\
  PTE_FLAGS (V2P v + fl) = fl /\ P2V (V2P v) = v /\ 0 <= V2P v + fl < 2 ^ 32.
Proof.
  intros Hg Hfl. pose proof (good_page_range v Hg) as Hr. pose proof (good_page_V2P v Hg) as Hp.
  pose proof (good_page_aligned v Hg) as Ha.
  assert ((v - KERNBASE) mod 4096 = 0) as Hal
    by (unfold KERNBASE; Z.div_mod_to_equations; lia).
  rewrite Hp. unfold KERNBASE, EXTMEM, PGSIZE in *.
  split_and!; [|rewrite PTE_ADDR_eq|rewrite PTE_FLAGS_eq|unfold P2V, KERNBASE|lia|lia].
  - apply (lor_add_low _ _ 12); [lia|done|lia].
  - rewrite u32_small by lia. unfold PGSIZE. Z.div_mod_to_equations. lia.
  - rewrite u32_small by lia. unfold PGSIZE. Z.div_mod_to_equations. lia.
  - rewrite u32_small; lia.
Qed.

Lemma flag_P_odd e : flag e PTE_P = Z.odd e.
Proof.
  unfold flag, PTE_P. change 1 with (Z.ones 1). rewrite Z.land_ones by lia.
  change (2 ^ 1) with 2. rewrite Zmod_odd. by destruct (Z.odd e).
Qed.

Lemma good_page_even v : good_page v -> Z.odd (V2P v) = false.
Proof.
  intros Hg. rewrite (good_page_V2P v Hg). pose proof (good_page_aligned v Hg).
  rewrite <- Z.negb_even. apply negb_false_iff, Z.even_spec. exists ((v - KERNBASE) / 2).
  unfold KERNBASE. Z.div_mod_to_equations. lia.
Qed.

(** ** The map a page directory represents *)

Definition tab (m : mem) (d i : Z) : Z := P2V (PTE_ADDR (load32 m (d + 4 * i))).
Definition present (m : mem) (d i : Z) : bool := flag (load32 m (d + 4 * i)) PTE_P.
Definition pde (m : mem) (d i : Z) : Z := load32 m (d + 4 * i).
(** [v] became a page table of [d]. *)
Definition new_table (m m' : mem) (d v : Z) : Prop :=
  exists i, 0 <= i < 1024 /\ present m d i = false /\ present m' d i = true /\ v = tab m' d i.
(** The page tables of [d] stay. *)
Definition tabs_kept (m m' : mem) (d : Z) : Prop :=
  forall i, 0 <= i < 1024 -> present m d i = true -> pde m' d i = pde m d i.
Definition tabs_same (m m' : mem) (d : Z) : Prop := forall i, 0 <= i < 1024 -> pde m' d i = pde m d i.
(** The address of the entry of page number [n]. *)
Definition slot (m : mem) (d n : Z) : Z := tab m d (n / 1024) + 4 * (n mod 1024).
(** The entry of page [n], if the page is mapped. *)
Definition pm (m : mem) (d n : Z) : option Z :=
  if present m d (n / 1024) then
    if flag (load32 m (slot m d n)) PTE_P then Some (load32 m (slot m d n)) else None
  else None.

Lemma pde_present m m' d i : pde m' d i = pde m d i -> present m' d i = present m d i /\ tab m' d i = tab m d i.
Proof. unfold pde, present, tab. by intros ->. Qed.
Lemma tabs_same_kept m m' d : tabs_same m m' d -> tabs_kept m m' d.
Proof. intros Hs i Hi _. by apply Hs. Qed.
Lemma tabs_same_trans m1 m2 m3 d : tabs_same m1 m2 d -> tabs_same m2 m3 d -> tabs_same m1 m3 d.
Proof. intros H1 H2 i Hi. by rewrite H2, H1. Qed.
Lemma tabs_kept_trans m1 m2 m3 d : tabs_kept m1 m2 d -> tabs_kept m2 m3 d -> tabs_kept m1 m3 d.
Proof. intros H1 H2 i Hi Hp. rewrite <- (H1 i Hi Hp). apply H2; [done|]. by rewrite (proj1 (pde_present _ _ _ _ (H1 i Hi Hp))). Qed.

Lemma no_new_table m m' d v : tabs_same m m' d -> ~ new_table m m' d v.
Proof. intros Hs (i & Hi & H0 & H1 & _). rewrite (proj1 (pde_present _ _ _ _ (Hs i Hi))) in H1. congruence. Qed.
Lemma new_table_trans m1 m2 m3 d v : tabs_kept m1 m2 d -> tabs_kept m2 m3 d ->
  new_table m1 m3 d v <-> new_table m1 m2 d v \/ new_table m2 m3 d v.
Proof.
  intros H12 H23. split.
  - intros (i & Hi & H0 & H1 & ->). destruct (present m2 d i) eqn:E.
    + left. exists i. by rewrite (proj2 (pde_present _ _ _ _ (H23 i Hi E))).
    + right. by exists i.
  - intros [(i & Hi & H0 & H1 & ->)|(i & Hi & H0 & H1 & ->)]; exists i.
    + destruct (pde_present _ _ _ _ (H23 i Hi H1)) as [-> ->]. done.
    + split; [done|]. split; [|done]. destruct (present m1 d i) eqn:E; [|done].
      rewrite (proj1 (pde_present _ _ _ _ (H12 i Hi E))) in H0. congruence.
Qed.
Lemma new_table_same m1 m2 m3 d v : tabs_kept m1 m2 d -> tabs_same m2 m3 d -> new_table m1 m3 d v <-> new_table m1 m2 d v.
Proof.
  intros H12 H23. rewrite (new_table_trans m1 m2 m3) by (done || by apply tabs_same_kept).
  pose proof (no_new_table _ _ _ v H23). tauto.
Qed.

(** Uses of a physical page. *)
Inductive role := RDir | RTab (i : Z) | RUser (n : Z) | ROther.
Definition owner := Z -> option (Z * role).

(** User page numbers. *)
Definition upages : Z := KERNBASE / PGSIZE.
Lemma upages_eq : upages = 2 ^ 19.
Proof. done. Qed.

Record space (m : mem) (own : owner) (d : Z) : Prop := {
  sp_dir : good_page d /\ own d = Some (d, RDir);
  sp_tab i : 0 <= i < 1024 -> present m d i = true ->
    good_page (tab m d i) /\ own (tab m d i) = Some (d, RTab i);
  sp_user n e : 0 <= n < upages -> pm m d n = Some e ->
    good_page (P2V (PTE_ADDR e)) /\ own (P2V (PTE_ADDR e)) = Some (d, RUser n);
}.

(** The invariant: allocator, free list [l], uses of pages, and the page
    directories [ds]. *)
Record vm_inv (s : vmst) (l : list Z) (own : owner) (ds : list Z) : Prop := {
  vi_ready : km_ready s;
  vi_free : free_pages s l;
  vi_unowned v : v ∈ l -> own v = None;
  vi_space d : d ∈ ds -> space (v_mem s) own d;
}.

(** [v] holds the page directory or a page table of [d]. *)
Definition pt_page (m : mem) (d v : Z) : Prop :=
  v = d \/ exists i, 0 <= i < 1024 /\ present m d i = true /\ v = tab m d i.
Definition pt_role (r : role) : bool := match r with RDir | RTab _ => true | _ => false end.

Lemma pt_page_own m own d v : space m own d -> pt_page m d v ->
  good_page v /\ exists r, own v = Some (d, r) /\ pt_role r = true.
Proof.
  intros Hsp [->|(i & Hi & Hp & ->)].
  - destruct (sp_dir _ _ _ Hsp). eauto.
  - destruct (sp_tab _ _ _ Hsp i Hi Hp). eauto.
Qed.

Lemma idx_range n : 0 <= n < 2 ^ 20 -> 0 <= n / 1024 < 1024 /\ 0 <= n mod 1024 < 1024.
Proof. intros. Z.div_mod_to_equations. lia. Qed.

Section frame.
Context (m m' : mem) (own own' : owner) (d : Z).
Hypothesis Hsp : space m own d.
Hypothesis Hm : forall v b, pt_page m d v -> v <= b < v + 4096 -> m' b = m b.

Lemma pde_frame i : 0 <= i < 1024 -> load32 m' (d + 4 * i) = load32 m (d + 4 * i).
Proof.
  intros Hi. apply load32_ext. intros b Hb. apply (Hm d); [by left|lia].
Qed.

Lemma present_frame i : 0 <= i < 1024 -> present m' d i = present m d i.
Proof. intros. unfold present. by rewrite pde_frame. Qed.

Lemma tab_frame i : 0 <= i < 1024 -> tab m' d i = tab m d i.
Proof. intros. unfold tab. by rewrite pde_frame. Qed.

Lemma pm_frame n : 0 <= n < 2 ^ 20 -> pm m' d n = pm m d n.
Proof.
  intros Hn. destruct (idx_range n Hn) as [Hi Hj]. unfold pm, slot.
  rewrite present_frame, tab_frame by done. destruct (present m d (n / 1024)) eqn:Ep; [|done].
  rewrite (load32_ext m' m); [done|]. intros b Hb.
  apply (Hm (tab m d (n / 1024))); [|lia].
  right. eauto.
Qed.

Lemma space_frame :
  (forall v r, own v = Some (d, r) -> own' v = Some (d, r)) -> space m' own' d.
Proof.
  intros Ho. split.
  - destruct (sp_dir _ _ _ Hsp). auto.
  - intros i Hi. rewrite present_frame, tab_frame by done. intros Hp.
    destruct (sp_tab _ _ _ Hsp i Hi Hp). auto.
  - intros n e Hn. rewrite pm_frame by (rewrite upages_eq in Hn; lia).
    intros He. destruct (sp_user _ _ _ Hsp n e Hn He). auto.
Qed.
End frame.

(** ** Walking *)

Lemma va_idx va : 0 <= va < 2 ^ 32 ->
  PDX va = va / 4096 / 1024 /\ PTX va = (va / 4096) mod 1024 /\ 0 <= va / 4096 < 2 ^ 20.
Proof.
  intros. rewrite PDX_eq, PTX_eq, u32_small, Z.div_div by lia.
  split_and!; [done|done|..]; Z.div_mod_to_equations; lia.
Qed.

Lemma walk_lookup s d va : 0 <= va < 2 ^ 32 ->
  walkpgdir d va false s =
    Ret (if present (v_mem s) d (va / 4096 / 1024) then slot (v_mem s) d (va / 4096) else 0) s.
Proof.
  intros Hva.
  unfold walkpgdir, ld, bind, gets, ret. destruct (va_idx va Hva) as (-> & -> & _).
  unfold present, slot, tab. by destruct (flag _ _).
Qed.

Lemma walk_present s d va alloc : 0 <= va < 2 ^ 32 ->
  present (v_mem s) d (va / 4096 / 1024) = true ->
  walkpgdir d va alloc s = Ret (slot (v_mem s) d (va / 4096)) s.
Proof.
  intros Hva Hp. unfold walkpgdir, ld, bind, gets, ret. destruct (va_idx va Hva) as (-> & -> & _).
  unfold present in Hp. rewrite Hp. done.
Qed.

(** ** Writing to a page *)

Definition outside (v : Z) (m m' : mem) : Prop := forall b, ~ (v <= b < v + 4096) -> m' b = m b.

Lemma load32_outside v w k m m' : outside v m m' -> v mod 4096 = 0 -> w mod 4096 = 0 -> v <> w ->
  0 <= k < 1024 -> load32 m' (w + 4 * k) = load32 m (w + 4 * k).
Proof.
  intros Hm Hv Hw Hne Hk. apply load32_ext. intros b Hb. apply Hm.
  destruct (pages_disjoint v w Hv Hw Hne); lia.
Qed.

Lemma free_write s l v m' : free_pages s l -> good_page v -> v ∉ l ->
  outside v (v_mem s) m' -> free_pages (set_v_mem m' s) l.
Proof.
  intros [Hc Hnd] Hg Hv Hm. split; [|done]. simpl. apply (chain_ext (v_mem s)); [|done].
  intros w b Hw Hb. apply Hm. destruct (pages_disjoint v w); [by apply good_page_aligned|..|lia|lia].
  - by eapply good_page_aligned, chain_good; eauto.
  - by intros ->.
Qed.

Lemma own_ne (own : owner) v w r : own v = None -> own w = Some r -> v <> w.
Proof. intros. congruence. Qed.

(** Installing a zeroed page table. *)
Section new_table.
Context (m : mem) (own : owner) (d v i : Z).
Hypothesis Hsp : space m own d.
Hypothesis Hv : good_page v.
Hypothesis Hov : own v = None.
Hypothesis Hi : 0 <= i < 1024.
Hypothesis Hpi : present m d i = false.
Let m' := store32 (memset v 0 PGSIZE m) (d + 4 * i) (V2P v + 7).

Lemma nt_pde j : 0 <= j < 1024 ->
  load32 m' (d + 4 * j) = if decide (i = j) then V2P v + 7 else load32 m (d + 4 * j).
Proof.
  intros Hj. destruct (sp_dir _ _ _ Hsp) as [Hd Hod]. unfold m'. case_decide as Hij.
  - subst j. rewrite load32_store32_eq. apply u32_small.
    by apply (pte_split v 7).
  - rewrite load32_store32_ne by lia. apply (load32_outside v); [|by apply good_page_aligned..| |done].
    + intros b Hb. rewrite memset_at, decide_False by (unfold PGSIZE in *; lia). done.
    + by apply (own_ne own v d (d, RDir)).
Qed.

Lemma nt_present j : 0 <= j < 1024 -> present m' d j = bool_decide (i = j) || present m d j.
Proof.
  intros Hj. unfold present. rewrite nt_pde by done. case_decide as Hij.
  - rewrite bool_decide_eq_true_2 by done. simpl. rewrite flag_P_odd, Z.odd_add, good_page_even; done.
  - by rewrite bool_decide_eq_false_2.
Qed.

Lemma nt_tab j : 0 <= j < 1024 -> tab m' d j = if decide (i = j) then v else tab m d j.
Proof.
  intros Hj. unfold tab. rewrite nt_pde by done. case_decide; [|done].
  destruct (pte_split v 7) as (_ & -> & _ & -> & _); done || lia.
Qed.

Lemma nt_entry w k : w mod 4096 = 0 -> w <> d -> 0 <= k < 1024 ->
  load32 m' (w + 4 * k) = if decide (v = w) then 0 else load32 m (w + 4 * k).
Proof.
  intros Hw Hwd Hk. destruct (sp_dir _ _ _ Hsp) as [Hd Hod].
  assert (load32 m' (w + 4 * k) = load32 (memset v 0 PGSIZE m) (w + 4 * k)) as ->.
  { apply load32_store32_ne. destruct (pages_disjoint d w (good_page_aligned d Hd) Hw ltac:(done)); lia. }
  case_decide.
  - subst w. unfold load32. rewrite !memset_at, !decide_True by (unfold PGSIZE; lia). done.
  - apply (load32_outside v); [|by apply good_page_aligned|done..].
    intros b Hb. rewrite memset_at, decide_False by (unfold PGSIZE in *; lia). done.
Qed.

Lemma nt_outside b : ~ (v <= b < v + 4096) -> ~ (d <= b < d + 4096) -> m' b = m b.
Proof.
  intros Hb Hb'. unfold m'. rewrite store32_ne by lia.
  by rewrite memset_at, decide_False by (unfold PGSIZE; lia).
Qed.

(** Pages with another use are not touched. *)
Lemma nt_other w r b : good_page w -> own w = Some r -> r <> (d, RDir) ->
  w <= b < w + 4096 -> m' b = m b.
Proof.
  intros Hw Ho Hr Hb. destruct (sp_dir _ _ _ Hsp) as [Hd Hod]. apply nt_outside.
  - destruct (pages_disjoint v w); [by apply good_page_aligned..|congruence|lia|lia].
  - destruct (pages_disjoint d w); [by apply good_page_aligned..|congruence|lia|lia].
Qed.

Lemma nt_pm n : 0 <= n < 2 ^ 20 -> pm m' d n = pm m d n.
Proof.
  intros Hn. destruct (idx_range n Hn) as [Hi' Hj']. unfold pm, slot.
  rewrite nt_present, nt_tab by done. case_decide as Hc.
  - rewrite bool_decide_eq_true_2 by done. simpl. rewrite <- Hc, Hpi.
    rewrite nt_entry, decide_True; [done|done|by apply good_page_aligned| |done].
    destruct (sp_dir _ _ _ Hsp). by apply (own_ne own v d (d, RDir)).
  - rewrite bool_decide_eq_false_2 by done. simpl.
    destruct (present m d (n / 1024)) eqn:Ep; [|done].
    destruct (sp_tab _ _ _ Hsp _ Hi' Ep) as [Hg Ho]. destruct (sp_dir _ _ _ Hsp) as [_ Hod].
    rewrite nt_entry, decide_False; [done| |by apply good_page_aligned| |done].
    + by eapply own_ne.
    + intros E. rewrite E in Ho. congruence.
Qed.

Lemma nt_space : space m' (upd own v (Some (d, RTab i))) d.
Proof.
  destruct (sp_dir _ _ _ Hsp) as [Hd Hod]. split.
  - split; [done|]. rewrite upd_ne; [done|]. by eapply own_ne.
  - intros j Hj. rewrite nt_present, nt_tab by done. case_decide as Hc.
    + intros _. subst j. by rewrite upd_eq.
    + rewrite bool_decide_eq_false_2 by done. simpl. intros Hp.
      destruct (sp_tab _ _ _ Hsp _ Hj Hp) as [Hg Ho]. split; [done|].
      rewrite upd_ne; [done|]. by eapply own_ne.
  - intros n e Hn. rewrite nt_pm by (rewrite upages_eq in Hn; lia). intros He.
    destruct (sp_user _ _ _ Hsp _ _ Hn He) as [Hg Ho]. split; [done|].
    rewrite upd_ne; [done|]. by eapply own_ne.
Qed.
End new_table.

(** Writing the entry of page [n]. *)
Section set_entry.
Context (m : mem) (own own' : owner) (d n e : Z).
Hypothesis Hsp : space m own d.
Hypothesis Hn : 0 <= n < 2 ^ 20.
Hypothesis Hp : present m d (n / 1024) = true.
Hypothesis He : 0 <= e < 2 ^ 32.
Let m' := store32 m (slot m d n) e.

Lemma se_outside : outside (tab m d (n / 1024)) m m'.
Proof.
  intros b Hb. destruct (idx_range n Hn). unfold m', slot. apply store32_ne. lia.
Qed.

Lemma se_tab_ne : tab m d (n / 1024) <> d.
Proof.
  destruct (idx_range n Hn). destruct (sp_tab _ _ _ Hsp (n / 1024)) as [_ Ho]; [done..|].
  destruct (sp_dir _ _ _ Hsp) as [_ Hd]. intros E. rewrite E in Ho. congruence.
Qed.

Lemma se_pde j : 0 <= j < 1024 -> load32 m' (d + 4 * j) = load32 m (d + 4 * j).
Proof.
  intros Hj. destruct (idx_range n Hn). apply (load32_outside (tab m d (n / 1024))); [apply se_outside|..|done].
  - by apply good_page_aligned, (sp_tab _ _ _ Hsp).
  - apply good_page_aligned, Hsp.
  - apply se_tab_ne.
Qed.

Lemma se_pm k : 0 <= k < 2 ^ 20 ->
  pm m' d k = if decide (n = k) then (if flag e PTE_P then Some e else None) else pm m d k.
Proof.
  intros Hk. destruct (idx_range n Hn) as [Hi Hj], (idx_range k Hk) as [Hi' Hj'].
  unfold pm, slot, present, tab. rewrite !se_pde by done. fold (present m d (k / 1024)).
  fold (tab m d (k / 1024)). case_decide as Hc.
  - subst k. rewrite Hp. unfold m'. fold (slot m d n). rewrite load32_store32_eq, u32_small; done.
  - destruct (present m d (k / 1024)) eqn:Ek; [|done].
    unfold m'. rewrite load32_store32_ne; [done|]. unfold slot.
    destruct (decide (n / 1024 = k / 1024)) as [Heq|Hne].
    + rewrite Heq. pose proof (Z.div_mod n 1024). pose proof (Z.div_mod k 1024). lia.
    + destruct (pages_disjoint (tab m d (n / 1024)) (tab m d (k / 1024))).
      * by apply good_page_aligned, (sp_tab _ _ _ Hsp).
      * by apply good_page_aligned, (sp_tab _ _ _ Hsp).
      * intros E. apply Hne. destruct (sp_tab _ _ _ Hsp (n / 1024)) as [_ O1]; [done..|].
        destruct (sp_tab _ _ _ Hsp (k / 1024)) as [_ O2]; [done..|]. rewrite E in O1. congruence.
      * lia.
      * lia.
Qed.

Lemma se_space :
  (forall v r, own v = Some (d, r) -> r <> RUser n -> own' v = Some (d, r)) ->
  (n < upages -> flag e PTE_P = true ->
    good_page (P2V (PTE_ADDR e)) /\ own' (P2V (PTE_ADDR e)) = Some (d, RUser n)) ->
  space m' own' d.
Proof.
  intros Ho Hu. split.
  - destruct (sp_dir _ _ _ Hsp). split; [done|]. by apply Ho.
  - intros i Hi. unfold present, tab. rewrite se_pde by done. intros Hpi.
    destruct (sp_tab _ _ _ Hsp i Hi Hpi) as [? Hot]. split; [done|]. by apply Ho.
  - intros k f Hk. rewrite se_pm by (rewrite upages_eq in Hk; lia). case_decide as Hc.
    + subst k. destruct (flag e PTE_P) eqn:Ef; [|done]. intros [= <-]. apply Hu; [apply Hk|done].
    + intros Hf. destruct (sp_user _ _ _ Hsp k f Hk Hf) as [? Hot]. split; [done|].
      apply Ho; [done|]. congruence.
Qed.
End set_entry.

(** ** Allocation keeps the invariant *)

Lemma vm_kalloc s l own ds : vm_inv s l own ds ->
  exists s', kalloc s = Ret (hd 0 l) s' /\ v_mem s' = v_mem s /\
    match l with
    | [] => vm_inv s' [] own ds
    | v :: l' => v <> 0 /\ good_page v /\ own v = None /\ v ∉ l' /\
                 forall r, vm_inv s' l' (upd own v (Some r)) ds
    end.
Proof.
  intros [Hr Hf Hu Hs]. rewrite (kalloc_run s l Hr Hf).
  destruct l as [|v l']; eexists; (split; [done|]); (split; [done|]).
  - split; [by apply km_hw_ready|by destruct Hf|done|done].
  - pose proof Hf as [(_ & Hg & _) [Hvl Hnd]%NoDup_cons]. pose proof (good_page_range v Hg).
    assert (own v = None) as Hov by (apply Hu; left).
    split_and!; [unfold KERNBASE, EXTMEM in *; lia|done|done|done|]. intros r. split.
    + destruct (km_hw_ready s Hr). by split.
    + by eapply free_pages_kalloc.
    + intros w Hw. rewrite upd_ne by set_solver. apply Hu. by right.
    + intros d Hd. apply (space_frame (v_mem s) (v_mem s) own); [by apply Hs|done|].
      intros w q Hw. rewrite upd_ne; [done|]. by eapply own_ne.
Qed.

(** A write to one page leaves alone the page tables that are elsewhere. *)
Lemma pt_unwritten m m' own d v : space m own d -> good_page v ->
  (forall r, own v = Some (d, r) -> pt_role r = false) -> outside v m m' ->
  forall w b, pt_page m d w -> w <= b < w + 4096 -> m' b = m b.
Proof.
  intros Hsp Hg Hv Hm w b Hw Hb. destruct (pt_page_own _ _ _ _ Hsp Hw) as (Hgw & r & Ho & Hr).
  apply Hm. destruct (pages_disjoint v w); [by apply good_page_aligned..| |lia|lia].
  intros ->. rewrite (Hv r) in Hr; done.
Qed.

Lemma vm_write s l own ds v r m' :
  vm_inv s l own ds -> good_page v -> own v = Some r -> pt_role r.2 = false ->
  outside v (v_mem s) m' ->
  vm_inv (set_v_mem m' s) l own ds /\
  forall d n, d ∈ ds -> 0 <= n < 2 ^ 20 -> pm m' d n = pm (v_mem s) d n.
Proof.
  intros [Hr Hf Hu Hs] Hg Hov Hnp Hm.
  assert (forall d, d ∈ ds -> forall w b, pt_page (v_mem s) d w -> w <= b < w + 4096 ->
    m' b = v_mem s b) as Hfr.
  { intros d Hd. apply (pt_unwritten _ _ own d v); [by apply Hs|done| |done].
    intros q Hq. rewrite Hq in Hov. by simplify_eq. }
  split.
  - split; [by destruct Hr| |done|].
    + apply (free_write _ _ v); [done..| |done]. intros Hv%Hu. congruence.
    + intros d Hd. apply (space_frame (v_mem s) m' own); [by apply Hs|by apply Hfr|done].
  - intros d n Hd Hn. apply pm_frame; [by apply Hfr|done].
Qed.

(** Uses of pages only grow. *)
Definition own_ext (own own' : owner) : Prop := forall v r, own v = Some r -> own' v = Some r.
(** Pages that hold data (not page tables) keep their content. *)
Definition data_same (own : owner) (m m' : mem) : Prop :=
  forall v r b, good_page v -> own v = Some r -> pt_role r.2 = false -> v <= b < v + 4096 -> m' b = m b.
(** All address spaces keep their map. *)
Definition maps_same (ds : list Z) (m m' : mem) : Prop :=
  forall d n, d ∈ ds -> 0 <= n < 2 ^ 20 -> pm m' d n = pm m d n.

Lemma own_ext_refl own : own_ext own own.
Proof. by intros v r. Qed.
Lemma maps_same_refl ds m : maps_same ds m m.
Proof. by intros d n. Qed.
Lemma data_same_refl own m : data_same own m m.
Proof. by intros v r b. Qed.
Lemma own_ext_trans o1 o2 o3 : own_ext o1 o2 -> own_ext o2 o3 -> own_ext o1 o3.
Proof. unfold own_ext. auto. Qed.
Lemma own_ext_upd own v r : own v = None -> own_ext own (upd own v (Some r)).
Proof. intros Hv w q Hw. rewrite upd_ne; [done|]. by eapply own_ne. Qed.

(** [walkpgdir] with [alloc]: either the entry of [va] exists afterwards and no
    mapping changed, or memory is exhausted. *)
Lemma walk_alloc s l own ds d va :
  vm_inv s l own ds -> d ∈ ds -> 0 <= va < 2 ^ 32 ->
  (exists s' l' own', walkpgdir d va true s = Ret (slot (v_mem s') d (va / 4096)) s' /\
     vm_inv s' l' own' ds /\ present (v_mem s') d (va / 4096 / 1024) = true /\
     maps_same ds (v_mem s) (v_mem s') /\ own_ext own own' /\ data_same own (v_mem s) (v_mem s') /\
     (forall v, v ∈ l <-> v ∈ l' \/ new_table (v_mem s) (v_mem s') d v) /\ tabs_kept (v_mem s) (v_mem s') d) \/
  (exists s', l = [] /\ walkpgdir d va true s = Ret 0 s' /\ vm_inv s' [] own ds /\
     v_mem s' = v_mem s).
Proof.
  intros Hinv Hd Hva. destruct (va_idx va Hva) as (Hpdx & Hptx & Hn).
  destruct (idx_range _ Hn) as [Hi Hj].
  destruct (present (v_mem s) d (va / 4096 / 1024)) eqn:Hp.
  { left. exists s, l, own. rewrite walk_present by done.
    split_and!; auto using own_ext_refl, maps_same_refl, data_same_refl; [|by intros i].
    intros v. pose proof (no_new_table (v_mem s) (v_mem s) d v ltac:(by intros i)). tauto. }
  destruct (vm_kalloc s l own ds Hinv) as (s1 & Ek & Hm1 & Hl).
  assert (walkpgdir d va true s = (if hd 0 l =? 0 then ret 0 else
    memop (memset (hd 0 l) 0 PGSIZE) ;;;
    st (d + 4 * PDX va) (Z.lor (Z.lor (Z.lor (V2P (hd 0 l)) PTE_P) PTE_W) PTE_U) ;;;
    ret (hd 0 l + 4 * PTX va)) s1) as ->.
  { unfold walkpgdir, ld, bind at 1, gets. rewrite Hpdx. unfold present in Hp. rewrite Hp. simpl.
    by rewrite (bind_Ret _ _ _ _ _ Ek). }
  destruct l as [|v l']; simpl.
  { right. exists s1. by split_and!. }
  destruct Hl as (Hv0 & Hg & Hov & Hvl & Hinv1). left.
  rewrite (proj2 (Z.eqb_neq v 0)) by done.
  destruct (pte_split v 7 Hg ltac:(lia)) as (Hlor & _).
  assert (Z.lor (Z.lor (Z.lor (V2P v) PTE_P) PTE_W) PTE_U = V2P v + 7) as ->.
  { rewrite <- Hlor, <- !Z.lor_assoc. done. }
  unfold memop, st, bind, modify, ret. simpl. rewrite Hpdx, Hptx, Hm1.
  pose proof (vi_space _ _ _ _ Hinv d Hd) as Hsp.
  set (m' := store32 _ _ _).
  exists (set_v_mem m' s1), l', (upd own v (Some (d, RTab (va / 4096 / 1024)))). simpl.
  assert (slot m' d (va / 4096) = v + 4 * ((va / 4096) mod 1024)) as ->.
  { unfold slot, m'. rewrite (nt_tab _ own), decide_True by done. done. }
  specialize (Hinv1 (d, RTab (va / 4096 / 1024))). destruct Hinv1 as [Hr1 Hf1 Hu1 Hs1].
  destruct (sp_dir _ _ _ Hsp) as [Hgd Hod].
  assert (forall d', d' ∈ ds -> d' <> d -> forall w b,
    pt_page (v_mem s) d' w -> w <= b < w + 4096 -> m' b = v_mem s b) as Hoth.
  { intros d' Hd' Hne w b Hw Hb.
    destruct (pt_page_own _ _ _ _ (vi_space _ _ _ _ Hinv d' Hd') Hw) as (Hgw & r & Ho & _).
    apply (nt_other _ own d v _ Hsp Hg Hov Hi w (d', r)); naive_solver. }
  split_and!.
  - done.
  - split; [by destruct Hr1| |done|].
    + apply (free_write (set_v_mem (memset v 0 PGSIZE (v_mem s)) s1) l' d).
      * apply (free_write s1 l' v); [done..|]. intros b Hb.
        by rewrite memset_at, decide_False, Hm1 by (unfold PGSIZE; lia).
      * done.
      * intros Hdl%Hu1. rewrite upd_ne in Hdl by congruence. congruence.
      * intros b Hb. apply store32_ne. lia.
    + intros d' Hd'. simpl. destruct (decide (d' = d)) as [->|Hne].
      * by apply nt_space.
      * apply (space_frame (v_mem s) m' own); [by eapply vi_space|by apply Hoth|].
        intros w q Hw. rewrite upd_ne; [done|]. by eapply own_ne.
  - unfold m'. rewrite (nt_present _ own) by done. by rewrite bool_decide_eq_true_2.
  - intros d' n Hd' Hn'. destruct (decide (d' = d)) as [->|Hne].
    + by apply (nt_pm _ own).
    + apply pm_frame; [|done]. by apply Hoth.
  - by apply own_ext_upd.
  - intros w r b Hw Ho Hr Hb. apply (nt_other _ own d v _ Hsp Hg Hov Hi w r); try done.
    intros ->. done.
  - intros w. rewrite elem_of_cons. split.
    + intros [->|?]; [right|by left]. exists (va / 4096 / 1024). split; [done|]. split; [done|].
      unfold m'. rewrite (nt_present _ own), (nt_tab _ own), decide_True, bool_decide_eq_true_2 by done. done.
    + intros [?|(j & Hj' & H0 & H1 & ->)]; [by right|left]. unfold m' in *. rewrite (nt_present _ own) in H1 by done.
      rewrite (nt_tab _ own) by done. rewrite H0, orb_false_r in H1. apply bool_decide_eq_true in H1. by rewrite decide_True.
  - intros j Hj' Hpj. unfold m', pde. rewrite (nt_pde _ own) by done. rewrite decide_False by congruence. done.
Qed.

(** ** Mapping one page *)

Lemma lor_flags_range a b : 0 <= a < 4096 -> 0 <= b < 4096 -> 0 <= Z.lor a b < 4096.
Proof.
  intros Ha Hb. split; [apply Z.lor_nonneg; lia|].
  apply Z.log2_lt_cancel. rewrite Z.log2_lor by lia. change (Z.log2 4096) with 12.
  apply Z.max_lub_lt; (destruct (decide (0 < a)), (decide (0 < b))); 
    try (apply Z.log2_lt_pow2; lia); 
    try (replace a with 0 by lia); try (replace b with 0 by lia); done.
Qed.

(** The entry [pa | perm | PTE_P]. *)
Lemma entry_facts pa perm : pa mod 4096 = 0 -> 0 <= pa < 2 ^ 32 -> 0 <= perm < 4096 ->
  let e := Z.lor (Z.lor pa perm) PTE_P in
  0 <= e < 2 ^ 32 /\ flag e PTE_P = true /\ PTE_ADDR e = pa /\ PTE_FLAGS e = Z.lor perm PTE_P.
Proof.
  intros Ha Hpa Hperm e. assert (0 <= Z.lor perm PTE_P < 4096) as Hf by (apply lor_flags_range; unfold PTE_P; lia).
  assert (e = pa + Z.lor perm PTE_P) as He.
  { unfold e. rewrite <- Z.lor_assoc. apply (lor_add_low _ _ 12); [lia|done|done]. }
  assert (0 <= e < 2 ^ 32) as Hr by (rewrite He; Z.div_mod_to_equations; lia).
  split_and!; [lia|lia| | |].
  - rewrite flag_P_odd. unfold e. rewrite <- Z.bit0_odd, Z.lor_spec. simpl. apply orb_true_r.
  - rewrite PTE_ADDR_eq, u32_small, He by done. unfold PGSIZE. Z.div_mod_to_equations. lia.
  - rewrite PTE_FLAGS_eq, u32_small, He by done. unfold PGSIZE. Z.div_mod_to_equations. lia.
Qed.

Lemma mappages_one s d va pa perm : va mod 4096 = 0 -> 0 <= va < 2 ^ 32 ->
  mappages d va PGSIZE pa perm s =
    (let* pte := walkpgdir d va true in
     if pte =? 0 then ret (-1) else
     let* e := ld pte in
     if flag e PTE_P then panic "remap" else
     st pte (Z.lor (Z.lor pa perm) PTE_P) ;;; ret 0) s.
Proof.
  intros Ha Hr. unfold mappages. rewrite (u32_small va) by lia.
  assert (PGROUNDDOWN va = va) as -> by (rewrite PGROUNDDOWN_eq; unfold PGSIZE; lia).
  assert (PGROUNDDOWN (u32 (va + PGSIZE - 1)) = va) as ->.
  { rewrite PGROUNDDOWN_eq. unfold PGSIZE. rewrite u32_small; Z.div_mod_to_equations; lia. }
  replace (va - va) with 0 by lia. simpl. by rewrite Z.eqb_refl.
Qed.

Lemma slot_nonzero s l own ds d n : vm_inv s l own ds -> d ∈ ds -> 0 <= n < 2 ^ 20 ->
  present (v_mem s) d (n / 1024) = true -> slot (v_mem s) d n <> 0.
Proof.
  intros Hinv Hd Hn Hp. destruct (idx_range n Hn). unfold slot.
  destruct (sp_tab _ _ _ (vi_space _ _ _ _ Hinv d Hd) (n / 1024)) as [Hg%good_page_range _]; [done..|].
  unfold KERNBASE, EXTMEM in *. lia.
Qed.

(** Updating the entry of a page of [d] is seen by [d] alone. *)
Lemma spaces_set_entry (m : mem) (own own' : owner) (ds : list Z) (d n e : Z) :
  (forall d', d' ∈ ds -> space m own d') -> d ∈ ds -> 0 <= n < 2 ^ 20 ->
  present m d (n / 1024) = true -> 0 <= e < 2 ^ 32 ->
  (forall v r, own v = Some r -> r <> (d, RUser n) -> own' v = Some r) ->
  (n < upages -> flag e PTE_P = true ->
    good_page (P2V (PTE_ADDR e)) /\ own' (P2V (PTE_ADDR e)) = Some (d, RUser n)) ->
  let m' := store32 m (slot m d n) e in
  (forall d', d' ∈ ds -> space m' own' d') /\ data_same own m m' /\
  forall d' k, d' ∈ ds -> 0 <= k < 2 ^ 20 -> pm m' d' k =
    if decide (d' = d /\ k = n) then (if flag e PTE_P then Some e else None) else pm m d' k.
Proof.
  intros Hs Hd Hn Hp He Hext Hu m'. pose proof (Hs d Hd) as Hsp.
  destruct (idx_range n Hn) as [Hi Hj]. destruct (sp_tab _ _ _ Hsp (n / 1024)) as [Hgt Hot]; [done..|].
  pose proof (se_outside m d n e Hn) as Hout. fold m' in Hout.
  assert (forall d', d' ∈ ds -> d' <> d -> forall w b,
    pt_page m d' w -> w <= b < w + 4096 -> m' b = m b) as Hoth.
  { intros d' Hd' Hne. apply (pt_unwritten _ _ own d' (tab m d (n / 1024)));
      [by apply Hs|done| |done]. intros r. rewrite Hot. naive_solver. }
  split_and!.
  - intros d' Hd'. destruct (decide (d' = d)) as [->|Hne].
    + apply (se_space _ own); try done. intros v r Hv Hrn. apply Hext; [done|congruence].
    + apply (space_frame m m' own); [by apply Hs|by apply Hoth|].
      intros v r Hv. apply Hext; [done|congruence].
  - intros w r b Hw Ho Hr' Hb. apply Hout.
    destruct (pages_disjoint (tab m d (n / 1024)) w); [by apply good_page_aligned..| |lia|lia].
    intros E. rewrite E, Ho in Hot. by simplify_eq.
  - intros d' k Hd' Hk. destruct (decide (d' = d)) as [->|Hne].
    + unfold m'. rewrite (se_pm _ own) by done. repeat case_decide; naive_solver.
    + rewrite decide_False by naive_solver. apply pm_frame; [by apply Hoth|done].
Qed.

(** [mappages] of one free page: the map of [d] gains exactly this page. *)
Lemma map_page s l own ds d va pa perm :
  let n := va / 4096 in
  vm_inv s l own ds -> d ∈ ds -> va mod 4096 = 0 -> 0 <= va < 2 ^ 32 ->
  pa mod 4096 = 0 -> 0 <= pa < 2 ^ 32 -> 0 <= perm < 4096 ->
  (n < upages -> good_page (P2V pa) /\ own (P2V pa) = Some (d, RUser n)) ->
  pm (v_mem s) d n = None ->
  (exists s' l' own', mappages d va PGSIZE pa perm s = Ret 0 s' /\ vm_inv s' l' own' ds /\
     (forall d' k, d' ∈ ds -> 0 <= k < 2 ^ 20 -> pm (v_mem s') d' k =
        if decide (d' = d /\ k = n) then Some (Z.lor (Z.lor pa perm) PTE_P) else pm (v_mem s) d' k) /\
     own_ext own own' /\ data_same own (v_mem s) (v_mem s') /\
     (forall v, v ∈ l <-> v ∈ l' \/ new_table (v_mem s) (v_mem s') d v) /\ tabs_kept (v_mem s) (v_mem s') d) \/
  (exists s', l = [] /\ mappages d va PGSIZE pa perm s = Ret (-1) s' /\ vm_inv s' [] own ds /\
     v_mem s' = v_mem s).
Proof.
  intros n Hinv Hd Hva Hva' Hpa Hpa' Hperm Hu Hfree. rewrite mappages_one by done.
  destruct (va_idx va Hva') as (_ & _ & Hn). fold n in Hn.
  destruct (entry_facts pa perm Hpa Hpa' Hperm) as (He & Hep & Hea & _).
  destruct (walk_alloc s l own ds d va Hinv Hd Hva')
    as [(s1 & l1 & own1 & E & Hinv1 & Hp & Hsame & Hext & Hdat & Hacc & Htk)|(s1 & -> & E & Hinv1 & Hm)].
  2: { right. exists s1. split_and!; [done| |done|done]. by rewrite (bind_Ret _ _ _ _ _ E). }
  left. fold n in E, Hp. pose proof (slot_nonzero _ _ _ _ _ _ Hinv1 Hd Hn Hp) as Hnz.
  pose proof (vi_space _ _ _ _ Hinv1) as Hs1.
  destruct (spaces_set_entry (v_mem s1) own1 own1 ds d n (Z.lor (Z.lor pa perm) PTE_P))
    as (Hs2 & Hdat2 & Hpm); try done.
  { intros Hlt _. rewrite Hea. destruct (Hu Hlt). auto. }
  set (m2 := store32 _ _ _) in *. exists (set_v_mem m2 s1), l1, own1.
  assert (tabs_same (v_mem s1) m2 d) as Hts by (intros i Hi; by apply (se_pde _ own1); [apply Hs1|..]).
  split_and!; [| | |done| | |].
  - rewrite (bind_Ret _ _ _ _ _ E). rewrite (proj2 (Z.eqb_neq _ 0)) by done.
    unfold bind, ld, gets. assert (pm (v_mem s1) d n = None) as Hn1 by (rewrite Hsame; done).
    unfold pm in Hn1. rewrite Hp in Hn1. by destruct (flag (load32 (v_mem s1) (slot (v_mem s1) d n)) PTE_P).
  - destruct Hinv1 as [Hr1 Hf1 Hu1 _]. destruct (idx_range n Hn).
    destruct (sp_tab _ _ _ (Hs1 d Hd) (n / 1024)) as [Hgt Hot]; [done..|].
    split; [by destruct Hr1| |done|done].
    apply (free_write _ _ (tab (v_mem s1) d (n / 1024))); [done|done| |by apply se_outside].
    intros Hl%Hu1. congruence.
  - intros d' k Hd' Hk. simpl. rewrite Hpm, Hep by done. case_decide; [done|by apply Hsame].
  - intros v r b Hgv Ho Hr Hb. simpl. rewrite (Hdat2 v r), (Hdat v r); auto.
  - intros v. simpl. rewrite (new_table_same _ _ m2 d v Htk Hts). apply Hacc.
  - simpl. eapply tabs_kept_trans; [exact Htk|by apply tabs_same_kept].
Qed.

(** [mappages] of a mapped page panics. *)
Lemma map_page_remap s l own ds d va pa perm e :
  vm_inv s l own ds -> d ∈ ds -> va mod 4096 = 0 -> 0 <= va < 2 ^ 32 ->
  pm (v_mem s) d (va / 4096) = Some e -> mappages d va PGSIZE pa perm s = Panic "remap".
Proof.
  intros Hinv Hd Hva Hva' He. destruct (va_idx va Hva') as (_ & _ & Hn).
  unfold pm in He. destruct (present _ _ _) eqn:Hp; [|done].
  rewrite mappages_one by done. rewrite (bind_Ret _ _ _ _ _ (walk_present s d va true Hva' Hp)).
  rewrite (proj2 (Z.eqb_neq _ 0)) by by eapply slot_nonzero.
  unfold bind, ld, gets. by destruct (flag _ PTE_P).
Qed.

(** ** Unmapping and freeing one page *)

Lemma present_of_pm m d n e : pm m d n = Some e ->
  present m d (n / 1024) = true /\ load32 m (slot m d n) = e /\ flag e PTE_P = true.
Proof. unfold pm. intros. repeat case_step; naive_solver. Qed.

Lemma unmap_page s l own ds d n e :
  let v := P2V (PTE_ADDR e) in
  vm_inv s l own ds -> d ∈ ds -> 0 <= n < upages -> pm (v_mem s) d n = Some e ->
  exists s', (kfree v ;;; st (slot (v_mem s) d n) 0) s = Ret tt s' /\
    vm_inv s' (v :: l) (upd own v None) ds /\
    (forall d' k, d' ∈ ds -> 0 <= k < 2 ^ 20 -> pm (v_mem s') d' k =
       if decide (d' = d /\ k = n) then None else pm (v_mem s) d' k) /\
    data_same (upd own v None) (v_mem s) (v_mem s') /\ tabs_same (v_mem s) (v_mem s') d.
Proof.
  intros v Hinv Hd Hn He. pose proof Hinv as [Hr Hf Hu Hs]. rewrite upages_eq in Hn.
  destruct (present_of_pm _ _ _ _ He) as (Hp & Hl & Hfl).
  destruct (sp_user _ _ _ (Hs d Hd) n e) as [Hg Ho]; [by rewrite upages_eq|done|]. fold v in Hg, Ho.
  assert (v ∉ l) as Hvl by (intros ?%Hu; congruence).
  set (m1 := store32 (memset v 1 PGSIZE (v_mem s)) v (v_freelist s)).
  assert (outside v (v_mem s) m1) as Hout.
  { intros b Hb. unfold m1. by rewrite store32_ne, memset_at, decide_False by (unfold PGSIZE; lia). }
  assert (forall d', d' ∈ ds -> forall w b, pt_page (v_mem s) d' w -> w <= b < w + 4096 ->
    m1 b = v_mem s b) as Hfr.
  { intros d' Hd'. apply (pt_unwritten _ _ own d' v); [by apply Hs|done| |done].
    intros r. rewrite Ho. naive_solver. }
  assert (forall d', d' ∈ ds -> space m1 own d') as Hs1.
  { intros d' Hd'. apply (space_frame (v_mem s) m1 own); auto. by apply Hfr. }
  destruct (idx_range n) as [Hi Hj]; [lia|].
  assert (slot m1 d n = slot (v_mem s) d n) as Hslot.
  { unfold slot. by rewrite (tab_frame (v_mem s) m1) by (done || by apply Hfr). }
  destruct (spaces_set_entry m1 own (upd own v None) ds d n 0) as (Hs2 & Hdat & Hpm);
    [done|done|lia|by rewrite (present_frame (v_mem s) m1) by (done || by apply Hfr)|lia| |done|].
  { intros w r Hw Hr'. rewrite upd_ne; [done|]. intros <-. congruence. }
  rewrite Hslot in *. set (m2 := store32 m1 _ 0) in *.
  exists (set_v_mem m2 (set_v_freelist v (set_v_mem m1 (set_v_hw (km_hw s) s)))).
  split_and!.
  - by rewrite (bind_Ret _ _ _ _ _ (kfree_run s v Hr Hg)).
  - pose proof (free_pages_kfree s v l Hf Hg Hvl (km_hw s)) as Hf1.
    destruct (sp_tab _ _ _ (Hs1 d Hd) (n / 1024)) as [Hgt Hot]; [done| |].
    { by rewrite (present_frame (v_mem s) m1) by (done || by apply Hfr). }
    split.
    + destruct (km_hw_ready s Hr). by split.
    + apply (free_write _ _ (tab m1 d (n / 1024)) m2 Hf1 Hgt).
      * intros [E|Hl']%elem_of_cons; [rewrite E in Hot; congruence|]. apply Hu in Hl'. congruence.
      * simpl. intros b Hb. unfold m2. rewrite <- Hslot. apply se_outside; [lia|done].
    + intros w [->|Hw]%elem_of_cons; [by rewrite upd_eq|]. rewrite upd_ne by congruence. by apply Hu.
    + done.
  - intros d' k Hd' Hk. simpl. rewrite Hpm by done. simpl. case_decide; [done|].
    by apply pm_frame; [apply Hfr|].
  - intros w r b Hw Hor Hr' Hb. simpl. rewrite upd_case in Hor. case_decide as Hvw; [done|].
    rewrite (Hdat w r) by done. apply Hout.
    destruct (pages_disjoint v w); [by apply good_page_aligned..|done|lia|lia].
  - intros i Hi'. simpl. unfold m2. rewrite <- Hslot. transitivity (pde m1 d i).
    + by apply (se_pde _ own); [apply Hs1|lia|rewrite (present_frame (v_mem s) m1) by (done || by apply Hfr)|..].
    + apply pde_frame; [by apply Hfr|done].
Qed.

(** ** deallocuvm *)

(** Page numbers: the first page at or above [z]. *)
Definition pceil (z : Z) : Z := (z + 4095) / 4096.

(** [v] holds a page of [d] with a number in [lo, hi). *)
Definition held (m : mem) (d lo hi v : Z) : Prop :=
  exists n e, lo <= n < hi /\ pm m d n = Some e /\ v = P2V (PTE_ADDR e).

(** The pages of [d] numbered [lo, hi) are unmapped and on the free list, and
    nothing else changed. *)
Record unmapped (s s' : vmst) (l l' : list Z) (own own' : owner) (ds : list Z) (d lo hi : Z) : Prop := {
  um_inv : vm_inv s' l' own' ds;
  um_pm d' k : d' ∈ ds -> 0 <= k < 2 ^ 20 -> pm (v_mem s') d' k =
    if decide (d' = d /\ lo <= k < hi) then None else pm (v_mem s) d' k;
  um_free v : v ∈ l' <-> held (v_mem s) d lo hi v \/ v ∈ l;
  um_own v : ~ held (v_mem s) d lo hi v -> own' v = own v;
  um_data : data_same own' (v_mem s) (v_mem s');
  um_tabs : tabs_same (v_mem s) (v_mem s') d;
}.

Lemma unmapped_none s l own ds d lo hi : vm_inv s l own ds ->
  (forall k, lo <= k < hi -> pm (v_mem s) d k = None) -> unmapped s s l l own own ds d lo hi.
Proof.
  intros Hinv Hno. split; [done| | |done|by apply data_same_refl|by intros i].
  - intros d' k _ _. case_decide as Hc; [|done]. destruct Hc as [-> Hk]. by apply Hno.
  - intros v. split; [by right|]. intros [(n & e & Hn & He & _)|]; [|done]. by rewrite Hno in He.
Qed.

Lemma unmapped_step s s1 l own ds d n e :
  let v := P2V (PTE_ADDR e) in
  pm (v_mem s) d n = Some e ->
  vm_inv s1 (v :: l) (upd own v None) ds ->
  (forall d' k, d' ∈ ds -> 0 <= k < 2 ^ 20 -> pm (v_mem s1) d' k =
     if decide (d' = d /\ k = n) then None else pm (v_mem s) d' k) ->
  data_same (upd own v None) (v_mem s) (v_mem s1) -> tabs_same (v_mem s) (v_mem s1) d ->
  unmapped s s1 l (v :: l) own (upd own v None) ds d n (n + 1).
Proof.
  intros v He Hinv Hpm Hdat Hts. split; [done| | | |done|done].
  - intros d' k Hd' Hk. rewrite Hpm by done. repeat case_decide; naive_solver lia.
  - intros w. rewrite elem_of_cons. split; [intros [->|Hw]|intros [(k & f & Hk & Hf & ->)|Hw]].
    + left. exists n, e. split_and!; [lia..|done|done].
    + by right.
    + left. assert (k = n) as -> by lia. rewrite He in Hf. by injection Hf as <-.
    + by right.
  - intros w Hw. rewrite upd_ne; [done|]. intros <-. apply Hw. exists n, e. split_and!; [lia..|done|done].
Qed.

Lemma unmapped_trans s s1 s2 l l1 l2 own own1 own2 ds d lo mid hi :
  unmapped s s1 l l1 own own1 ds d lo mid -> unmapped s1 s2 l1 l2 own1 own2 ds d mid hi ->
  d ∈ ds -> 0 <= lo <= mid -> mid <= hi <= 2 ^ 20 ->
  unmapped s s2 l l2 own own2 ds d lo hi.
Proof.
  intros U1 U2 Hd Hlo Hhi.
  assert (forall v, held (v_mem s1) d mid hi v <-> held (v_mem s) d mid hi v) as Hh.
  { intros v. unfold held. split; intros (n & e & Hn & He & ->); exists n, e; (split_and!; [lia..| |done]).
    - rewrite (um_pm _ _ _ _ _ _ _ _ _ _ U1), decide_False in He by (done || lia). done.
    - rewrite (um_pm _ _ _ _ _ _ _ _ _ _ U1), decide_False by (done || lia). done. }
  assert (forall v, held (v_mem s) d lo hi v <-> held (v_mem s) d lo mid v \/ held (v_mem s) d mid hi v) as Hs.
  { intros v. unfold held. split.
    - intros (n & e & Hn & He & ->). destruct (decide (n < mid)); [left|right]; exists n, e; split_and!; done || lia.
    - intros [(n & e & Hn & He & ->)|(n & e & Hn & He & ->)]; exists n, e; split_and!; done || lia. }
  split.
  - apply U2.
  - intros d' k Hd' Hk. rewrite (um_pm _ _ _ _ _ _ _ _ _ _ U2), (um_pm _ _ _ _ _ _ _ _ _ _ U1) by done.
    repeat case_decide; naive_solver lia.
  - intros v. rewrite (um_free _ _ _ _ _ _ _ _ _ _ U2), (um_free _ _ _ _ _ _ _ _ _ _ U1), Hh, Hs. naive_solver.
  - intros v Hv. rewrite Hs in Hv. rewrite (um_own _ _ _ _ _ _ _ _ _ _ U2), (um_own _ _ _ _ _ _ _ _ _ _ U1); [done|naive_solver|].
    rewrite Hh. naive_solver.
  - intros v r b Hg Ho Hr Hb.
    assert (own1 v = Some r) as Ho1.
    { rewrite <- Ho. symmetry. apply (um_own _ _ _ _ _ _ _ _ _ _ U2). intros Hh2.
      assert (v ∈ l2) as Hv2 by (apply (um_free _ _ _ _ _ _ _ _ _ _ U2); by left).
      apply (vi_unowned _ _ _ _ (um_inv _ _ _ _ _ _ _ _ _ _ U2)) in Hv2. congruence. }
    rewrite (um_data _ _ _ _ _ _ _ _ _ _ U2 v r) by done. by apply (um_data _ _ _ _ _ _ _ _ _ _ U1 v r).
  - eapply tabs_same_trans; [apply U1|apply U2].
Qed.

Lemma user_page_nonzero e : good_page (P2V (PTE_ADDR e)) -> PTE_ADDR e <> 0.
Proof.
  intros Hg%good_page_range E. rewrite E in Hg. vm_compute in Hg. naive_solver.
Qed.

(** The next address when no page table covers [a]. *)
Lemma next_table a : 0 <= a < KERNBASE -> a mod 4096 = 0 ->
  u32 (u32 (PGADDR (PDX a + 1) 0 0 - PGSIZE) + PGSIZE) = (a / 2 ^ 22 + 1) * 2 ^ 22.
Proof.
  intros Ha Hal. unfold KERNBASE in Ha. rewrite PDX_eq, (u32_small a) by lia.
  rewrite PGADDR_eq by (Z.div_mod_to_equations; lia). unfold PGSIZE.
  rewrite (u32_small (_ - _)) by (Z.div_mod_to_equations; lia).
  rewrite u32_small; Z.div_mod_to_equations; lia.
Qed.

(** One present table: the body of the loop frees the page of [a], if there is one. *)
Lemma dealloc_page s l own ds d a :
  vm_inv s l own ds -> d ∈ ds -> 0 <= a < KERNBASE -> present (v_mem s) d (a / 4096 / 1024) = true ->
  let e := load32 (v_mem s) (slot (v_mem s) d (a / 4096)) in
  exists s1 l1 own1,
    (if flag e PTE_P
     then if PTE_ADDR e =? 0 then panic "kfree" else
          kfree (P2V (PTE_ADDR e)) ;;; st (slot (v_mem s) d (a / 4096)) 0
     else ret tt) s = Ret tt s1 /\
    unmapped s s1 l l1 own own1 ds d (a / 4096) (a / 4096 + 1).
Proof.
  intros Hinv Hd Ha Hp e. destruct (flag e PTE_P) eqn:Hf.
  - assert (pm (v_mem s) d (a / 4096) = Some e) as He by (unfold pm; fold e; by rewrite Hp, Hf).
    assert (0 <= a / 4096 < upages) as Hu by (rewrite upages_eq; unfold KERNBASE in *; Z.div_mod_to_equations; lia).
    destruct (sp_user _ _ _ (vi_space _ _ _ _ Hinv d Hd) _ _ Hu He) as [Hg _].
    rewrite (proj2 (Z.eqb_neq _ 0)) by by apply user_page_nonzero.
    destruct (unmap_page _ _ _ _ _ _ _ Hinv Hd Hu He) as (s1 & E & Hi1 & Hpm & Hdat & Hts).
    exists s1, (P2V (PTE_ADDR e) :: l), (upd own (P2V (PTE_ADDR e)) None).
    split; [done|]. by apply unmapped_step.
  - exists s, l, own. split; [done|]. apply unmapped_none; [done|].
    intros k Hk. assert (k = a / 4096) as -> by lia. unfold pm. fold e. by rewrite Hp, Hf.
Qed.

Lemma dealloc_loop fuel : forall s l own ds d a oldsz,
  vm_inv s l own ds -> d ∈ ds -> 0 <= a -> a mod 4096 = 0 -> oldsz <= KERNBASE ->
  pceil oldsz - a / 4096 < Z.of_nat fuel -> (0 < fuel)%nat ->
  exists s' l' own', deallocuvm_loop fuel d a oldsz s = Ret tt s' /\
    unmapped s s' l l' own own' ds d (a / 4096) (Z.max (a / 4096) (pceil oldsz)).
Proof.
  unfold pceil. induction fuel as [|fuel IH]; [lia|].
  intros s l own ds d a oldsz Hinv Hd Ha Hal Hold Hfuel _. cbn [deallocuvm_loop].
  destruct (a <? oldsz) eqn:Hlt; bool_to_prop.
  2: { exists s, l, own. split; [done|]. apply unmapped_none; [done|].
       intros k Hk. exfalso. Z.div_mod_to_equations. lia. }
  assert (0 <= a < 2 ^ 32) as Har by (unfold KERNBASE in *; lia).
  rewrite (bind_Ret _ _ _ _ _ (walk_lookup s d a Har)).
  destruct (va_idx a Har) as (_ & _ & Hn).
  destruct (present (v_mem s) d (a / 4096 / 1024)) eqn:Hp.
  - rewrite (proj2 (Z.eqb_neq _ 0)) by by eapply slot_nonzero.
    unfold bind at 1, ld, gets.
    assert (u32 (a + PGSIZE) = a + 4096) as -> by (unfold PGSIZE; rewrite u32_small; unfold KERNBASE in *; lia).
    assert ((a + 4096) / 4096 = a / 4096 + 1) as Hnext by (Z.div_mod_to_equations; lia).
    destruct (dealloc_page s l own ds d a Hinv Hd ltac:(lia) Hp) as (s1 & l1 & own1 & E1 & U1).
    rewrite (bind_Ret _ _ _ _ _ E1).
    destruct (IH s1 l1 own1 ds d (a + 4096) oldsz) as (s2 & l2 & own2 & E2 & U2);
      [apply U1|done|lia|Z.div_mod_to_equations; lia|done|lia|Z.div_mod_to_equations; lia|].
    exists s2, l2, own2. split; [done|]. rewrite Hnext in U2.
    replace (Z.max (a / 4096 + 1) _) with (Z.max (a / 4096) ((oldsz + 4095) / 4096)) in U2
      by (Z.div_mod_to_equations; lia).
    eapply unmapped_trans; eauto; unfold KERNBASE in *; Z.div_mod_to_equations; lia.
  - simpl. rewrite next_table by (done || lia).
    set (a' := (a / 2 ^ 22 + 1) * 2 ^ 22).
    assert (a' / 4096 = (a / 4096 / 1024 + 1) * 1024) as Hdiv by (unfold a'; Z.div_mod_to_equations; lia).
    assert (forall k, a / 4096 <= k < a' / 4096 -> pm (v_mem s) d k = None) as Hno.
    { intros k Hk. unfold pm. replace (k / 1024) with (a / 4096 / 1024); [by rewrite Hp|].
      rewrite Hdiv in Hk. Z.div_mod_to_equations. lia. }
    destruct (decide (oldsz <= a')).
    { exists s, l, own. split.
      - destruct fuel; [exfalso; Z.div_mod_to_equations; lia|]. simpl.
        by rewrite (proj2 (Z.ltb_ge a' oldsz)).
      - apply unmapped_none; [done|]. intros k Hk. apply Hno. Z.div_mod_to_equations. lia. }
    destruct (IH s l own ds d a' oldsz) as (s2 & l2 & own2 & E2 & U2);
      [done|done|unfold a'; Z.div_mod_to_equations; lia|unfold a'; Z.div_mod_to_equations; lia|done|
       rewrite Hdiv; Z.div_mod_to_equations; lia|Z.div_mod_to_equations; lia|].
    exists s2, l2, own2. split; [done|].
    replace (Z.max (a' / 4096) _) with (Z.max (a / 4096) ((oldsz + 4095) / 4096)) in U2
      by (Z.div_mod_to_equations; lia).
    eapply unmapped_trans; [by apply unmapped_none|done|done|..]; unfold KERNBASE in *; Z.div_mod_to_equations; lia.
Qed.

Lemma dealloc_run s l own ds d oldsz newsz :
  vm_inv s l own ds -> d ∈ ds -> 0 <= newsz -> oldsz <= KERNBASE -> newsz < oldsz ->
  exists s' l' own', deallocuvm d oldsz newsz s = Ret newsz s' /\
    unmapped s s' l l' own own' ds d (pceil newsz) (pceil oldsz).
Proof.
  intros Hinv Hd Hn Ho Hlt. unfold deallocuvm. rewrite Z.geb_leb, (proj2 (Z.leb_gt oldsz newsz)) by done.
  assert (PGROUNDUP newsz = pceil newsz * 4096) as ->.
  { rewrite PGROUNDUP_eq. unfold PGSIZE, KERNBASE, pceil in *. rewrite u32_small by lia.
    Z.div_mod_to_equations. lia. }
  destruct (dealloc_loop (S (Z.to_nat (oldsz / PGSIZE + 1))) s l own ds d (pceil newsz * 4096) oldsz)
    as (s' & l' & own' & E & U); try done.
  - unfold pceil. Z.div_mod_to_equations. lia.
  - unfold pceil. Z.div_mod_to_equations. lia.
  - rewrite Z.div_mul by lia. unfold pceil, PGSIZE. Z.div_mod_to_equations. lia.
  - lia.
  - exists s', l', own'. rewrite (bind_Ret _ _ _ _ _ E). split; [done|].
    rewrite Z.div_mul in U by lia. rewrite Z.max_r in U; [done|]. unfold pceil. Z.div_mod_to_equations. lia.
Qed.

(** ** allocuvm *)

Lemma vm_kfree s l own ds v d n :
  vm_inv s l own ds -> good_page v -> own v = Some (d, RUser n) ->
  (d ∈ ds -> pm (v_mem s) d n = None) ->
  exists s', kfree v s = Ret tt s' /\ vm_inv s' (v :: l) (upd own v None) ds /\
    maps_same ds (v_mem s) (v_mem s') /\ data_same (upd own v None) (v_mem s) (v_mem s') /\
    forall d', d' ∈ ds -> tabs_same (v_mem s) (v_mem s') d'.
Proof.
  intros Hinv Hg Ho Hno. pose proof Hinv as [Hr Hf Hu Hs].
  assert (v ∉ l) as Hvl by (intros ?%Hu; congruence).
  rewrite (kfree_run s v Hr Hg). set (m1 := store32 _ _ _). eexists. split; [done|].
  assert (outside v (v_mem s) m1) as Hout.
  { intros b Hb. unfold m1. by rewrite store32_ne, memset_at, decide_False by (unfold PGSIZE; lia). }
  destruct (vm_write s l own ds v (d, RUser n) m1 Hinv Hg Ho eq_refl Hout) as [[_ _ _ Hs1] Hsame].
  split_and!; [split|exact Hsame| |].
  - destruct (km_hw_ready s Hr). by split.
  - by apply (free_pages_kfree s v l Hf Hg Hvl).
  - intros w [->|Hw]%elem_of_cons; [by rewrite upd_eq|]. rewrite upd_ne by congruence. by apply Hu.
  - intros d' Hd'. destruct (Hs1 d' Hd') as [Hdir Htab Husr]. simpl in *. split.
    + destruct Hdir. split; [done|]. rewrite upd_ne by congruence. done.
    + intros i Hi Hp. destruct (Htab i Hi Hp). split; [done|]. rewrite upd_ne by congruence. done.
    + intros k e Hk He. destruct (Husr k e Hk He) as [Hge Hoe]. split; [done|].
      rewrite upd_ne; [done|]. intros E. rewrite <- E, Ho in Hoe. injection Hoe as <- <-.
      rewrite Hsame in He by (done || (rewrite upages_eq in Hk; lia)). by rewrite Hno in He.
  - intros w r b Hw Hor Hr' Hb. simpl. rewrite upd_case in Hor. case_decide as Hvw; [done|].
    apply Hout. destruct (pages_disjoint v w); [by apply good_page_aligned..|done|lia|lia].
  - intros d' Hd' i Hi. apply pde_frame; [|done]. apply (pt_unwritten _ _ own d' v); [by apply Hs|done| |done].
    intros r. rewrite Ho. naive_solver.
Qed.

(** The pages of [d] numbered [lo, hi) are mapped to fresh zeroed pages the user
    may write; nothing else is remapped.  The free pages that are gone are these pages and
    new page tables of [d]. *)
Record grown (s s' : vmst) (l l' : list Z) (own own' : owner) (ds : list Z) (d lo hi : Z) : Prop := {
  gr_inv : vm_inv s' l' own' ds;
  gr_new n : lo <= n < hi -> exists e, pm (v_mem s') d n = Some e /\
    PTE_FLAGS e = Z.lor (Z.lor PTE_W PTE_U) PTE_P /\ own (P2V (PTE_ADDR e)) = None /\
    forall b, P2V (PTE_ADDR e) <= b < P2V (PTE_ADDR e) + 4096 -> v_mem s' b = 0;
  gr_pm d' k : d' ∈ ds -> 0 <= k < 2 ^ 20 -> ~ (d' = d /\ lo <= k < hi) ->
    pm (v_mem s') d' k = pm (v_mem s) d' k;
  gr_own : own_ext own own';
  gr_data : data_same own (v_mem s) (v_mem s');
  gr_free v : v ∈ l <-> v ∈ l' \/ held (v_mem s') d lo hi v \/ new_table (v_mem s) (v_mem s') d v;
  gr_tabs : tabs_kept (v_mem s) (v_mem s') d;
}.

Lemma vm_inv_hw s l own ds hh : vm_inv s l own ds -> hw_wf hh -> hw_locks hh Lkmem = lock0 ->
  vm_inv (set_v_hw hh s) l own ds.
Proof. intros [Hr [Hf Hnd] Hu Hs] Hwf Hl. split; [by split|by split|done|done]. Qed.

(** One turn of the loop; the CPUs may change between the calls. *)
Lemma grow_page s l own ds d a :
  let n := a / 4096 in
  vm_inv s l own ds -> d ∈ ds -> a mod 4096 = 0 -> 0 <= a < KERNBASE -> pm (v_mem s) d n = None ->
  (exists s1, kalloc s = Ret 0 s1 /\ vm_inv s1 [] own ds /\ l = [] /\ v_mem s1 = v_mem s) \/
  (exists v s1, kalloc s = Ret v s1 /\ v <> 0 /\ own v = None /\ good_page v /\ km_ready s1 /\ v ∈ l /\
    forall hh, hw_wf hh -> hw_locks hh Lkmem = lock0 ->
    let s2 := set_v_mem (memset v 0 PGSIZE (v_mem s1)) (set_v_hw hh s1) in
    (exists s3, mappages d a PGSIZE (V2P v) (Z.lor PTE_W PTE_U) s2 = Ret (-1) s3 /\
       vm_inv s3 [] (upd own v (Some (d, RUser n))) ds /\ l = [v] /\
       maps_same ds (v_mem s) (v_mem s3) /\ data_same own (v_mem s) (v_mem s3) /\ tabs_same (v_mem s) (v_mem s3) d) \/
    (exists s3 l3 own3, mappages d a PGSIZE (V2P v) (Z.lor PTE_W PTE_U) s2 = Ret 0 s3 /\
       grown s s3 l l3 own own3 ds d n (n + 1))).
Proof.
  intros n Hinv Hd Hal Ha Hno. destruct (vm_kalloc s l own ds Hinv) as (s1 & Ek & Hm1 & Hl).
  destruct l as [|v l']; [left; by exists s1|right].
  destruct Hl as (Hv0 & Hg & Hov & Hvl & Hinv1). exists v, s1. specialize (Hinv1 (d, RUser n)).
  split_and!; [done..|apply Hinv1|left|]. intros hh Hwh Hlh. apply (vm_inv_hw _ _ _ _ hh) in Hinv1; [|done..].
  set (own1 := upd own v _) in *.
  assert (own1 v = Some (d, RUser n)) as Ho1 by apply upd_eq.
  assert (outside v (v_mem s1) (memset v 0 PGSIZE (v_mem s1))) as Hout.
  { intros b Hb. by rewrite memset_at, decide_False by (unfold PGSIZE; lia). }
  destruct (vm_write _ _ _ _ v (d, RUser n) _ Hinv1 Hg Ho1 eq_refl Hout) as [Hinv2 Hsame].
  assert (data_same own (v_mem s) (memset v 0 PGSIZE (v_mem s1))) as Hdat.
  { intros w r b Hw Ho Hr Hb. rewrite <- Hm1. apply Hout.
    destruct (pages_disjoint v w); [by apply good_page_aligned..| |lia|lia]. congruence. }
  change (v_mem (set_v_hw hh s1)) with (v_mem s1) in *. intros s2. fold s2 in Hinv2.
  assert (tabs_same (v_mem s) (v_mem s2) d) as Hts2.
  { intros i Hi. simpl. rewrite <- Hm1. apply pde_frame; [|done].
    apply (pt_unwritten _ _ own1 d v); [by apply (vi_space _ _ _ _ Hinv1)|done| |done]. intros r. rewrite Ho1. naive_solver. }
  assert (0 <= a < 2 ^ 32) as Ha' by (unfold KERNBASE in *; lia).
  destruct (pte_split v 7 Hg ltac:(lia)) as (_ & Hpa & _ & Hpv & Hrg).
  pose proof (good_page_V2P v Hg) as Hvp. pose proof (good_page_range v Hg) as Hgr.
  pose proof (good_page_aligned v Hg) as Hga.
  assert (V2P v mod 4096 = 0 /\ 0 <= V2P v < 2 ^ 32) as [HpA HpR].
  { rewrite Hvp. unfold KERNBASE, EXTMEM, PGSIZE in *. Z.div_mod_to_equations. lia. }
  destruct (entry_facts (V2P v) (Z.lor PTE_W PTE_U) HpA HpR) as (_ & Hfl & Hea & Hef); [done|].
  destruct (map_page s2 l' own1 ds d a (V2P v) (Z.lor PTE_W PTE_U))
    as [(s3 & l3 & own3 & E & Hinv3 & Hpm & Hext & Hdat3 & Hacc & Htk)|(s3 & -> & E & Hinv3 & Hm3)]; try done.
  { intros _. by rewrite Hpv. }
  { rewrite <- Hno. simpl. rewrite Hsame by (done || by apply va_idx). by rewrite Hm1. }
  - right. exists s3, l3, own3. split; [done|]. split; [done| | | | | |].
    + intros k Hk. assert (k = n) as -> by (unfold n in *; lia). eexists. split.
      { rewrite Hpm, decide_True; [done|done|done|by apply va_idx]. }
      rewrite Hea, Hpv. split_and!; [done|done|]. intros b Hb.
      rewrite (Hdat3 v (d, RUser n)) by done. simpl. by rewrite memset_at, decide_True.
    + intros d' k Hd' Hk Hne. rewrite Hpm, decide_False; [|intros [-> ->]; apply Hne; split; [done|unfold n; lia]|done|done].
      simpl. rewrite Hsame by done. by rewrite Hm1.
    + intros w r Hw. apply Hext. unfold own1. rewrite upd_ne; [done|]. congruence.
    + intros w r b Hw Ho Hr Hb. rewrite (Hdat3 w r); [by apply (Hdat w r)|done| |done|done].
      unfold own1. rewrite upd_ne; [done|]. congruence.
    + intros w. rewrite elem_of_cons, (Hacc w), (new_table_trans (v_mem s) (v_mem s2)) by (done || by apply tabs_same_kept).
      pose proof (no_new_table _ _ _ w Hts2). assert (held (v_mem s3) d n (n + 1) w <-> w = v) as ->; [|tauto].
      assert (pm (v_mem s3) d n = Some (Z.lor (Z.lor (V2P v) (Z.lor PTE_W PTE_U)) PTE_P)) as Epm.
      { rewrite Hpm, decide_True; [done|done|done|by apply va_idx]. }
      split; [intros (k & e & Hk & He & ->)|intros ->; eexists n, _; split_and!; [lia|lia|exact Epm|by rewrite Hea, Hpv]].
      assert (k = n) as -> by lia. rewrite Epm in He. injection He as <-. by rewrite Hea, Hpv.
    + eapply tabs_kept_trans; [by apply tabs_same_kept|exact Htk].
  - left. exists s3. rewrite Hm3. split_and!; try done.
    intros d' k Hd' Hk. simpl. rewrite Hsame by done. by rewrite Hm1.
Qed.

Lemma data_same_trans (o1 o2 : owner) m1 m2 m3 :
  own_ext o1 o2 -> data_same o1 m1 m2 -> data_same o2 m2 m3 -> data_same o1 m1 m3.
Proof. intros He H1 H2 v r b Hg Ho Hr Hb. rewrite (H2 v r) by auto. by apply (H1 v r). Qed.

Lemma own_ext_none (o1 o2 : owner) v : own_ext o1 o2 -> o2 v = None -> o1 v = None.
Proof. intros He Hv. destruct (o1 v) as [r|] eqn:E; [|done]. apply He in E. congruence. Qed.

Lemma grown_refl s l own ds d n : vm_inv s l own ds -> grown s s l l own own ds d n n.
Proof.
  intros. split; [done|lia|done|apply own_ext_refl|apply data_same_refl| |by intros i]. intros v.
  pose proof (no_new_table (v_mem s) (v_mem s) d v ltac:(by intros i)).
  assert (~ held (v_mem s) d n n v) by (intros (k & e & ? & _); lia). tauto.
Qed.

Lemma grown_trans s s1 s2 l l1 l2 own own1 own2 ds d lo mid hi :
  grown s s1 l l1 own own1 ds d lo mid -> grown s1 s2 l1 l2 own1 own2 ds d mid hi ->
  d ∈ ds -> 0 <= lo <= mid -> mid <= hi <= upages ->
  grown s s2 l l2 own own2 ds d lo hi.
Proof.
  intros [I1 N1 P1 O1 D1 F1 T1] [I2 N2 P2 O2 D2 F2 T2] Hd Hlo Hhi. rewrite upages_eq in Hhi. split; [done| | | | | |].
  - intros n Hn. destruct (decide (n < mid)).
    + destruct (N1 n) as (e & He & Hf & Ho & Hz); [lia|]. exists e.
      rewrite P2 by (done || lia). split_and!; [done..|]. intros b Hb.
      destruct (sp_user _ _ _ (vi_space _ _ _ _ I1 d Hd) n e) as [Hg Hon]; [rewrite upages_eq; lia|done|].
      rewrite (D2 (P2V (PTE_ADDR e)) (d, RUser n)); auto.
    + destruct (N2 n) as (e & He & Hf & Ho & Hz); [lia|]. exists e.
      split_and!; [done..| |done]. by eapply own_ext_none.
  - intros d' k Hd' Hk Hne. rewrite P2, P1; [done|done|done|naive_solver lia..].
  - by eapply own_ext_trans.
  - by eapply data_same_trans.
  - intros v. rewrite F1, F2, (new_table_trans _ _ _ d v T1 T2).
    assert (held (v_mem s2) d lo hi v <-> held (v_mem s1) d lo mid v \/ held (v_mem s2) d mid hi v) as ->; [|tauto].
    unfold held. split.
    + intros (n & e & Hn & He & ->). destruct (decide (n < mid)); [left|right]; exists n, e; (split_and!; [lia|lia| |done]); [|done].
      by rewrite P2 in He by (done || lia).
    + intros [(n & e & Hn & He & ->)|(n & e & Hn & He & ->)]; exists n, e; (split_and!; [lia|lia| |done]); [|done].
      by rewrite P2 by (done || lia).
  - by eapply tabs_kept_trans.
Qed.

(** The maps of all address spaces and all data are as in [s], and the free pages [l] are free again,
    but for page tables of [d]. *)
Record restored (s s' : vmst) (l : list Z) (own : owner) (ds : list Z) (d : Z) : Prop := {
  rs_inv : exists l' own', vm_inv s' l' own' ds /\ own_ext own own' /\
    forall v, v ∈ l <-> v ∈ l' \/ new_table (v_mem s) (v_mem s') d v;
  rs_maps : maps_same ds (v_mem s) (v_mem s');
  rs_data : data_same own (v_mem s) (v_mem s');
}.

(** Undoing a partial growth. *)
Lemma grown_undo s s1 l l1 own own1 ds d oldsz mid newsz :
  grown s s1 l l1 own own1 ds d (pceil oldsz) mid -> d ∈ ds -> 0 <= oldsz < newsz -> newsz <= KERNBASE ->
  pceil oldsz <= mid <= pceil newsz ->
  (forall n, pceil oldsz <= n < pceil newsz -> pm (v_mem s) d n = None) ->
  exists s2 l2 own2, deallocuvm d newsz oldsz s1 = Ret oldsz s2 /\ vm_inv s2 l2 own2 ds /\
    own_ext own own2 /\ maps_same ds (v_mem s) (v_mem s2) /\ data_same own (v_mem s) (v_mem s2) /\
    (forall v, ~ held (v_mem s1) d (pceil oldsz) mid v -> own2 v = own1 v) /\
    (forall v, v ∈ l <-> v ∈ l2 \/ new_table (v_mem s) (v_mem s2) d v) /\ tabs_kept (v_mem s) (v_mem s2) d.
Proof.
  intros [I1 N1 P1 O1 D1 F1 T1] Hd Ho Hn Hmid Hno.
  destruct (dealloc_run s1 l1 own1 ds d newsz oldsz I1 Hd) as (s2 & l2 & own2 & E & U); [lia..|].
  assert (0 <= pceil oldsz /\ pceil newsz <= 2 ^ 19) as [Hr1 Hr2]
    by (unfold pceil, KERNBASE in *; Z.div_mod_to_equations; lia).
  assert (forall v, held (v_mem s1) d (pceil oldsz) (pceil newsz) v <->
                    held (v_mem s1) d (pceil oldsz) mid v) as Hh.
  { intros v. unfold held. split; intros (n & e & Hn' & He & ->); exists n, e; (split_and!; [lia| |done|done]); [|lia].
    destruct (decide (n < mid)); [done|]. rewrite P1, Hno in He by (done || lia). done. }
  assert (own_ext own own2) as Hext.
  { intros v r Hv. rewrite (um_own _ _ _ _ _ _ _ _ _ _ U), (O1 _ _ Hv); [done|].
    rewrite Hh. intros (n & e & Hn' & He & ->). destruct (N1 n) as (e' & He' & _ & Hov & _); [lia|].
    rewrite He in He'. injection He' as <-. congruence. }
  pose proof (um_tabs _ _ _ _ _ _ _ _ _ _ U) as T2.
  exists s2, l2, own2. split_and!; [done|apply U|done| | | | |].
  - intros d' k Hd' Hk. rewrite (um_pm _ _ _ _ _ _ _ _ _ _ U) by done. case_decide as Hc.
    + destruct Hc as [-> Hk']. by rewrite Hno.
    + apply P1; [done|done|naive_solver lia].
  - intros v r b Hg Hv Hr Hb. rewrite (um_data _ _ _ _ _ _ _ _ _ _ U v r) by auto. by apply (D1 v r).
  - intros v Hv. apply (um_own _ _ _ _ _ _ _ _ _ _ U). by rewrite Hh.
  - intros v. rewrite F1, (um_free _ _ _ _ _ _ _ _ _ _ U), Hh, (new_table_same _ _ _ d v T1 T2). tauto.
  - eapply tabs_kept_trans; [exact T1|by apply tabs_same_kept].
Qed.

(** A page taken for the next turn and never mapped leaves the growth as it is. *)
Lemma grown_spare s0 s s3 l0 own0 own ds d lo hi v q :
  grown s0 s l0 [v] own0 own ds d lo hi -> d ∈ ds -> 0 <= lo -> hi <= upages -> own v = None ->
  vm_inv s3 [] (upd own v (Some q)) ds -> maps_same ds (v_mem s) (v_mem s3) ->
  data_same own (v_mem s) (v_mem s3) -> tabs_same (v_mem s) (v_mem s3) d ->
  grown s0 s3 (filter (fun w => w <> v) l0) [] own0 (upd own v (Some q)) ds d lo hi.
Proof.
  intros [I1 N1 P1 O1 D1 F1 T1] Hd Hlo Hhi Hov Hi3 Hs3 Hd3 Ht3. rewrite upages_eq in Hhi.
  pose proof (vi_space _ _ _ _ I1 d Hd) as Hsp. split; [done| | | | | |].
  - intros n Hn. destruct (N1 n Hn) as (e & He & Hf & Hoe & Hz). exists e.
    rewrite Hs3 by (done || lia). split_and!; [done..|]. intros b Hb.
    destruct (sp_user _ _ _ (vi_space _ _ _ _ I1 d Hd) n e) as [Hge Hon']; [rewrite upages_eq; lia|done|].
    rewrite (Hd3 (P2V (PTE_ADDR e)) (d, RUser n)) by done. by apply Hz.
  - intros d' k Hd' Hk Hne. rewrite Hs3 by done. by apply P1.
  - eapply own_ext_trans; [done|]. by apply own_ext_upd.
  - by eapply data_same_trans.
  - intros w. rewrite list_elem_of_filter, F1, list_elem_of_singleton, (new_table_same _ _ _ d w T1 Ht3).
    assert (held (v_mem s3) d lo hi w <-> held (v_mem s) d lo hi w) as ->.
    { unfold held. split; intros (n & e & Hn & He & ->); exists n, e; (split_and!; [lia|lia| |done]).
      - by rewrite Hs3 in He by (done || lia).
      - by rewrite Hs3 by (done || lia). }
    assert (held (v_mem s) d lo hi w -> w <> v) as Hh.
    { intros (n & e & Hn & He & ->). destruct (sp_user _ _ _ Hsp n e) as [_ Ho]; [rewrite upages_eq; lia|done|congruence]. }
    assert (new_table (v_mem s0) (v_mem s) d w -> w <> v) as Ht.
    { intros (i & Hi & _ & Hp & ->). destruct (sp_tab _ _ _ Hsp i Hi Hp). congruence. }
    rewrite elem_of_nil. tauto.
  - eapply tabs_kept_trans; [exact T1|by apply tabs_same_kept].
Qed.

(** [mappages] failed for want of a table: the growth is undone and the spare page freed. *)
Lemma alloc_undo s0 s s3 l0 own0 own ds d oldsz n newsz v :
  grown s0 s l0 [v] own0 own ds d (pceil oldsz) n -> d ∈ ds -> 0 <= oldsz < newsz -> newsz <= KERNBASE ->
  pceil oldsz <= n < pceil newsz -> 0 <= pceil oldsz -> pceil newsz <= upages ->
  (forall k, pceil oldsz <= k < pceil newsz -> pm (v_mem s0) d k = None) ->
  good_page v -> own v = None -> vm_inv s3 [] (upd own v (Some (d, RUser n))) ds ->
  maps_same ds (v_mem s) (v_mem s3) -> data_same own (v_mem s) (v_mem s3) -> tabs_same (v_mem s) (v_mem s3) d ->
  exists s5, (deallocuvm d newsz oldsz ;;; kfree v ;;; ret 0) s3 = Ret 0 s5 /\ restored s0 s5 l0 own0 ds d.
Proof.
  intros Hg Hd Ho Hn Hr Hp0 Hpu Hno Hgv Hov Hi3 Hs3 Hd3 Ht3. pose proof Hg as [I1 N1 P1 O1 D1 F1 T1].
  pose proof (grown_spare _ _ _ _ _ _ _ _ _ _ v _ Hg Hd Hp0 ltac:(lia) Hov Hi3 Hs3 Hd3 Ht3) as Hg1.
  destruct (grown_undo _ _ _ _ _ _ _ _ _ _ newsz Hg1 Hd) as (s4 & l4 & own4 & E & Hi4 & Hx4 & Hs4 & Hd4 & Hsame4 & F4 & T4); try done || lia.
  rewrite (bind_Ret _ _ _ _ _ E).
  assert (own4 v = Some (d, RUser n)) as Ho4.
  { rewrite Hsame4; [by rewrite upd_eq|]. intros (k & e & Hk & He & ->).
    rewrite Hs3 in He by (done || (rewrite upages_eq in Hpu; lia)).
    destruct (sp_user _ _ _ (vi_space _ _ _ _ I1 d Hd) k e); [lia|done|congruence]. }
  destruct (vm_kfree s4 l4 own4 ds v d n Hi4 Hgv Ho4) as (s5 & E5 & Hi5 & Hs5 & Hd5 & Ht5).
  { intros _. rewrite Hs4, Hno; done || (rewrite upages_eq in Hpu; lia). }
  exists s5. rewrite (bind_Ret _ _ _ _ _ E5). split; [done|].
  assert (own_ext own0 (upd own4 v None)) as Hx5.
  { intros w r Hw. rewrite upd_ne; [by apply Hx4|]. intros <-. apply O1 in Hw. congruence. }
  split; [| |].
  - exists (v :: l4), (upd own4 v None). split_and!; [done|done|]. intros w.
    rewrite elem_of_cons, (new_table_same _ _ _ d w T4 (Ht5 d Hd)). specialize (F4 w). rewrite list_elem_of_filter in F4.
    assert (v ∈ l0) by (apply F1; left; by left). destruct (decide (w = v)) as [->|]; tauto.
  - intros d' k Hd' Hk. rewrite Hs5, Hs4; done.
  - by eapply data_same_trans.
Qed.

Lemma alloc_loop fuel : forall s0 l0 own0 s l own ds d a oldsz newsz,
  grown s0 s l0 l own0 own ds d (pceil oldsz) (a / 4096) -> d ∈ ds -> a mod 4096 = 0 ->
  0 <= oldsz -> pceil oldsz <= a / 4096 -> oldsz <= newsz < KERNBASE ->
  (forall n, pceil oldsz <= n < pceil newsz -> pm (v_mem s0) d n = None) ->
  pceil newsz - a / 4096 < Z.of_nat fuel -> (0 < fuel)%nat ->
  a / 4096 <= pceil newsz ->
  (exists s' l' own', allocuvm_loop fuel d a newsz oldsz s = Ret newsz s' /\
     grown s0 s' l0 l' own0 own' ds d (pceil oldsz) (pceil newsz)) \/
  (exists s', allocuvm_loop fuel d a newsz oldsz s = Ret 0 s' /\ restored s0 s' l0 own0 ds d).
Proof.
  induction fuel as [|fuel IH]; [lia|].
  intros s0 l0 own0 s l own ds d a oldsz newsz Hg Hd Hal Ho Hoa Hns Hno Hfuel _ Hle. cbn [allocuvm_loop].
  destruct (a <? newsz) eqn:Hlt; bool_to_prop.
  2: { left. exists s, l, own. split; [done|].
       replace (pceil newsz) with (a / 4096); [done|]. unfold pceil in *. Z.div_mod_to_equations. lia. }
  assert (0 <= a) as Ha0 by (unfold pceil in *; Z.div_mod_to_equations; lia).
  assert (a / 4096 < pceil newsz) as Hlt' by (unfold pceil in *; Z.div_mod_to_equations; lia).
  assert (0 <= a / 4096 < 2 ^ 20) as Hn20 by (apply va_idx; unfold KERNBASE in *; lia).
  assert (oldsz < newsz) as Hon by (unfold pceil in *; Z.div_mod_to_equations; lia).
  assert (0 <= pceil oldsz /\ pceil newsz <= upages) as [Hp0 Hpu]
    by (rewrite upages_eq; unfold pceil, KERNBASE in *; Z.div_mod_to_equations; lia).
  pose proof Hg as [I1 N1 P1 O1 D1 F1 T1].
  assert (pm (v_mem s) d (a / 4096) = None) as Hpn by (rewrite P1 by (done || lia); apply Hno; lia).
  destruct (grow_page s l own ds d a I1 Hd Hal ltac:(lia) Hpn)
    as [(s1 & Ek & Hi1 & -> & Hm1)|(v & s1 & Ek & Hv0 & Hov & Hgv & Hkr & _ & Hmap)].
  { right. rewrite (bind_Ret _ _ _ _ _ Ek). simpl.
    assert (grown s0 s1 l0 [] own0 own ds d (pceil oldsz) (a / 4096)) as Hg1 by (split; rewrite ?Hm1; done).
    destruct (grown_undo _ _ _ _ _ _ _ _ _ _ newsz Hg1 Hd) as (s2 & l2 & own2 & E & Hi2 & Hx2 & Hs2 & Hd2 & _ & F2 & _); try done || lia.
    exists s2. rewrite (bind_Ret _ _ _ _ _ E). split; [done|]. split; eauto 10. }
  rewrite (bind_Ret _ _ _ _ _ Ek), (proj2 (Z.eqb_neq v 0)) by done.
  rewrite (bind_Ret (memop _) _ s1 tt (set_v_mem (memset v 0 PGSIZE (v_mem s1)) s1) eq_refl).
  specialize (Hmap (v_hw s1) (kr_wf _ Hkr) (kr_lock _ Hkr)).
  replace (set_v_hw (v_hw s1) s1) with s1 in Hmap by (by destruct s1).
  destruct Hmap as [(s3 & E3 & Hi3 & -> & Hs3 & Hd3 & Ht3)|(s3 & l3 & own3 & E3 & Hg3)]; rewrite (bind_Ret _ _ _ _ _ E3).
  - right. destruct (alloc_undo _ _ _ _ _ _ _ _ _ _ newsz v Hg Hd ltac:(lia) ltac:(lia) ltac:(lia) Hp0 Hpu Hno Hgv Hov Hi3 Hs3 Hd3 Ht3)
      as (s5 & E5 & Hr5).
    by exists s5.
  - simpl. assert (u32 (a + PGSIZE) = a + 4096) as -> by (unfold PGSIZE, KERNBASE in *; rewrite u32_small; lia).
    assert ((a + 4096) / 4096 = a / 4096 + 1) as Hnx by (Z.div_mod_to_equations; lia).
    apply (IH s0 l0 own0 s3 l3 own3); rewrite ?Hnx; try done || lia.
    + eapply grown_trans; eauto; lia.
    + Z.div_mod_to_equations. lia.
Qed.

(** The outcome of [allocuvm] below KERNBASE. *)
Lemma alloc_run s l own ds d oldsz newsz :
  vm_inv s l own ds -> d ∈ ds -> 0 <= oldsz <= newsz -> newsz < KERNBASE ->
  (forall n, pceil oldsz <= n < pceil newsz -> pm (v_mem s) d n = None) ->
  (exists s' l' own', allocuvm d oldsz newsz s = Ret newsz s' /\
     grown s s' l l' own own' ds d (pceil oldsz) (pceil newsz)) \/
  (exists s', allocuvm d oldsz newsz s = Ret 0 s' /\ restored s s' l own ds d).
Proof.
  intros Hinv Hd Ho Hn Hno. unfold allocuvm.
  rewrite Z.geb_leb, (proj2 (Z.leb_gt _ _)), (proj2 (Z.ltb_ge _ _)) by lia.
  assert (PGROUNDUP oldsz = pceil oldsz * 4096) as ->.
  { rewrite PGROUNDUP_eq. unfold PGSIZE, KERNBASE, pceil in *. rewrite u32_small by lia.
    Z.div_mod_to_equations. lia. }
  apply (alloc_loop _ s l own s l own); rewrite ?Z.div_mul by lia; try done || lia.
  - by apply grown_refl.
  - apply Z_mod_mult.
  - unfold pceil, PGSIZE. Z.div_mod_to_equations. lia.
  - unfold pceil. Z.div_mod_to_equations. lia.
Qed.
End vminv.
