(* ===== verification/VmSpec.v ===== *)
(** * What vm.c promises about user memory

    The user's view of an address space: [ubyte] is the byte a user address
    reads, if the page is mapped; [uperm] its permission bits.  The theorems give
    the effect of the operations of vm.c on the view of every address space. *)
From S2P Require Import Prelude Machine StringC Spinlock Kalloc Vm VmInv.

Section vmspec.
Context `{Symbols}.

Definition ubyte (m : mem) (d va : Z) : option Z :=
  match pm m d (va / 4096) with
  | Some e => Some (m (P2V (PTE_ADDR e) + va mod 4096))
  | None => None
  end.
Definition uperm (m : mem) (d va : Z) : option Z := PTE_FLAGS <$> pm m d (va / 4096).

(** The views of the directories [ds] in [m'] are those in [m]. *)
Definition views_same (ds : list Z) (m m' : mem) : Prop :=
  forall d va, d ∈ ds -> 0 <= va < KERNBASE ->
    ubyte m' d va = ubyte m d va /\ uperm m' d va = uperm m d va.

Lemma uva_page va : 0 <= va < KERNBASE -> 0 <= va / 4096 < upages /\ 0 <= va / 4096 < 2 ^ 20.
Proof. rewrite upages_eq. unfold KERNBASE. intros. Z.div_mod_to_equations. lia. Qed.

(** A page that stays mapped, and owned, keeps its content. *)
Lemma view_same m m' (own : owner) d va :
  (forall e, pm m d (va / 4096) = Some e ->
     good_page (P2V (PTE_ADDR e)) /\ own (P2V (PTE_ADDR e)) = Some (d, RUser (va / 4096))) ->
  data_same own m m' -> pm m' d (va / 4096) = pm m d (va / 4096) ->
  ubyte m' d va = ubyte m d va /\ uperm m' d va = uperm m d va.
Proof.
  intros Hu Hdat E. unfold ubyte, uperm. rewrite E. split; [|done].
  destruct (pm m d (va / 4096)) as [e|]; [|done]. destruct (Hu e eq_refl) as [Hg Ho].
  f_equal. apply (Hdat _ _ _ Hg Ho eq_refl). Z.div_mod_to_equations. lia.
Qed.

Lemma view_same_space s l own ds m' d va :
  vm_inv s l own ds -> d ∈ ds -> 0 <= va < KERNBASE -> data_same own (v_mem s) m' ->
  pm m' d (va / 4096) = pm (v_mem s) d (va / 4096) ->
  ubyte m' d va = ubyte (v_mem s) d va /\ uperm m' d va = uperm (v_mem s) d va.
Proof.
  intros Hinv Hd Hva. apply view_same. intros e He.
  apply (sp_user _ _ _ (vi_space _ _ _ _ Hinv d Hd)); [by apply uva_page|done].
Qed.


Lemma pceil_le va z : pceil z <= va / 4096 <-> pceil z * 4096 <= va.
Proof. unfold pceil. Z.div_mod_to_equations. lia. Qed.

Lemma PGROUNDUP_pceil z : 0 <= z <= KERNBASE -> PGROUNDUP z = pceil z * 4096.
Proof.
  intros Hz. rewrite PGROUNDUP_eq. unfold PGSIZE, KERNBASE, pceil in *. rewrite u32_small by lia.
  Z.div_mod_to_equations. lia.
Qed.

(** The views after unmapping. *)
Lemma unmapped_views s s' l l' own own' ds d lo hi : unmapped s s' l l' own own' ds d (pceil lo) (pceil hi) ->
  forall d' va, d' ∈ ds -> 0 <= va < KERNBASE ->
    if decide (d' = d /\ pceil lo * 4096 <= va < pceil hi * 4096) then ubyte (v_mem s') d' va = None
    else ubyte (v_mem s') d' va = ubyte (v_mem s) d' va /\ uperm (v_mem s') d' va = uperm (v_mem s) d' va.
Proof.
  intros U d' va Hd' Hva. destruct (uva_page va Hva) as [Hu Hk].
  pose proof (um_pm _ _ _ _ _ _ _ _ _ _ U d' (va / 4096) Hd' Hk) as Hpm.
  pose proof (pceil_le va lo). pose proof (pceil_le va hi).
  destruct (decide (d' = d /\ pceil lo * 4096 <= va < pceil hi * 4096)) as [Hc|Hc].
  - unfold ubyte. rewrite Hpm, decide_True by naive_solver lia. done.
  - rewrite decide_False in Hpm by naive_solver lia.
    apply (view_same _ _ own'); [|by apply (um_data _ _ _ _ _ _ _ _ _ _ U)|done].
    intros e He. rewrite <- Hpm in He.
    by apply (sp_user _ _ _ (vi_space _ _ _ _ (um_inv _ _ _ _ _ _ _ _ _ _ U) d' Hd')).
Qed.

(** C17. [deallocuvm]: on every address space, it terminates; afterwards no page
    between the rounded sizes is mapped in [pgdir], every such page that was
    mapped is back on the free list, and no other byte or permission of any
    address space changed. *)
Theorem deallocuvm_correct s l own ds pgdir oldsz newsz :
  vm_inv s l own ds -> pgdir ∈ ds -> 0 <= newsz < oldsz -> oldsz <= KERNBASE ->
  exists s' l' own', deallocuvm pgdir oldsz newsz s = Ret newsz s' /\ vm_inv s' l' own' ds /\
    (forall v, v ∈ l' <-> v ∈ l \/ held (v_mem s) pgdir (pceil newsz) (pceil oldsz) v) /\
    forall d va, d ∈ ds -> 0 <= va < KERNBASE ->
      if decide (d = pgdir /\ PGROUNDUP newsz <= va < PGROUNDUP oldsz)
      then ubyte (v_mem s') d va = None
      else ubyte (v_mem s') d va = ubyte (v_mem s) d va /\ uperm (v_mem s') d va = uperm (v_mem s) d va.
Proof.
  intros Hinv Hd Hn Ho. destruct (dealloc_run s l own ds pgdir oldsz newsz) as (s' & l' & own' & E & U); try done || lia.
  exists s', l', own'. split_and!; [done|apply U| |].
  - intros v. rewrite (um_free _ _ _ _ _ _ _ _ _ _ U). naive_solver.
  - rewrite !PGROUNDUP_pceil by lia. exact (unmapped_views _ _ _ _ _ _ _ _ _ _ U).
Qed.

(** C16. [allocuvm] either returns [newsz] and every byte between the rounded
    sizes is a zero of a fresh page the user may write, all other memory of every
    address space being unchanged, or it returns 0 and every address space is as
    before.  No page is lost: the pages that were free are afterwards still free, or
    are the new pages of the process, or became page tables of its directory; when
    the allocation fails, every page but those page tables is free again. *)
Theorem allocuvm_correct s l own ds pgdir oldsz newsz :
  vm_inv s l own ds -> pgdir ∈ ds -> 0 <= oldsz <= newsz -> newsz < KERNBASE ->
  (forall va, PGROUNDUP oldsz <= va < PGROUNDUP newsz -> ubyte (v_mem s) pgdir va = None) ->
  (exists s' l' own', allocuvm pgdir oldsz newsz s = Ret newsz s' /\ vm_inv s' l' own' ds /\
     (forall v, v ∈ l <-> v ∈ l' \/ held (v_mem s') pgdir (pceil oldsz) (pceil newsz) v \/ new_table (v_mem s) (v_mem s') pgdir v) /\
     forall d va, d ∈ ds -> 0 <= va < KERNBASE ->
       if decide (d = pgdir /\ PGROUNDUP oldsz <= va < PGROUNDUP newsz)
       then ubyte (v_mem s') d va = Some 0 /\ uperm (v_mem s') d va = Some (Z.lor (Z.lor PTE_W PTE_U) PTE_P)
       else ubyte (v_mem s') d va = ubyte (v_mem s) d va /\ uperm (v_mem s') d va = uperm (v_mem s) d va) \/
  (exists s' l' own', allocuvm pgdir oldsz newsz s = Ret 0 s' /\ vm_inv s' l' own' ds /\
     (forall v, v ∈ l <-> v ∈ l' \/ new_table (v_mem s) (v_mem s') pgdir v) /\
     views_same ds (v_mem s) (v_mem s')).
Proof.
  intros Hinv Hd Ho Hn Hno. rewrite !PGROUNDUP_pceil in * by lia.
  destruct (alloc_run s l own ds pgdir oldsz newsz Hinv Hd Ho Hn)
    as [(s' & l' & own' & E & [I N P O D F T])|(s' & E & [(l' & own' & I & O & F) Hm D])].
  - intros n Hn'. specialize (Hno (n * 4096)). unfold ubyte in Hno. rewrite Z.div_mul in Hno by lia.
    destruct (pm (v_mem s) pgdir n); [|done]. discriminate Hno. lia.
  - left. exists s', l', own'. split_and!; [done|done|done|]. intros d va Hd' Hva.
    destruct (uva_page va Hva) as [Hu Hk].
    pose proof (pceil_le va newsz). pose proof (pceil_le va oldsz). case_decide as Hc.
    + destruct Hc as [-> Hr]. destruct (N (va / 4096)) as (e & He & Hf & _ & Hz); [lia|].
      unfold ubyte, uperm. rewrite He. simpl. rewrite Hf, Hz; [done|]. Z.div_mod_to_equations. lia.
    + apply (view_same_space s l own ds); try done. apply P; [done|done|naive_solver lia].
  - right. exists s', l', own'. split_and!; [done|done|done|]. intros d va Hd' Hva.
    destruct (uva_page va Hva) as [Hu Hk]. apply (view_same_space s l own ds); try done. by apply Hm.
Qed.
End vmspec.
