(* ===== verification/VmFrame.v ===== *)
(** * What memory management leaves alone

    The page allocator and vm.c touch, of the CPUs and locks, only kmem.lock and
    the interrupt bookkeeping of the CPU that executes: the process each CPU
    runs, the nesting depths and all other locks stay. *)
From S2P Require Import Prelude Machine StringC Spinlock Kalloc Vm.

Record cpu_same (c c' : cpu) : Prop := {
  cs_apicid : c_apicid c' = c_apicid c;
  cs_proc : c_proc c' = c_proc c;
  cs_ncli : c_ncli c' = c_ncli c;
  cs_if : c_if c' = c_if c;
  cs_cr3 : c_cr3 c' = c_cr3 c;
}.

Record hw_same (h h' : hw) : Prop := {
  hs_me : hw_me h' = hw_me h;
  hs_ncpu : hw_ncpu h' = hw_ncpu h;
  hs_cpu i : cpu_same (hw_cpus h i) (hw_cpus h' i);
  hs_lock lk : lk <> Lkmem -> hw_locks h' lk = hw_locks h lk;
}.

Lemma cpu_same_refl c : cpu_same c c.
Proof. done. Qed.
Lemma hw_same_refl h : hw_same h h.
Proof. done. Qed.
Lemma hw_same_trans h1 h2 h3 : hw_same h1 h2 -> hw_same h2 h3 -> hw_same h1 h3.
Proof.
  intros [M1 N1 C1 L1] [M2 N2 C2 L2]. split; [congruence..| |].
  - intros i. destruct (C1 i), (C2 i). split; congruence.
  - intros lk Hlk. by rewrite L2, L1.
Qed.

Lemma settled_same c : cpu_same c (settled c).
Proof. unfold settled. by destruct (_ =? 0). Qed.

Lemma set_my_same h c : cpu_same (my h) c -> hw_same h (set_my c h).
Proof.
  intros Hc. split; [done..| |done]. intros i. unfold set_my. simpl. rewrite upd_case.
  case_decide; [by subst|done].
Qed.

(** States whose CPUs are those of [h]. *)
Definition like (h : hw) (s : vmst) : Prop := hw_wf (v_hw s) /\ hw_same h (v_hw s).

Lemma like_refl s : hw_wf (v_hw s) -> like (v_hw s) s.
Proof. by split. Qed.

Lemma wf_same h h' : hw_wf h -> hw_same h h' -> hw_wf h'.
Proof.
  intros [W1 W2 W3 W4] [M N C L]. split; rewrite ?M, ?N; [done|..].
  - intros i j Hi Hj. destruct (C i) as [-> _ _ _ _], (C j) as [-> _ _ _ _]. by apply W2.
  - intros i Hi. destruct (C i) as [_ _ -> _ _]. by apply W3.
  - intros i Hi. destruct (C i) as [_ _ -> -> _]. by apply W4.
Qed.

(** Taking kmem.lock, changing memory and releasing it. *)
Lemma km_frame {A} (body : M vmst A) h s :
  like h s ->
  (forall s1 a s2, body s1 = Ret a s2 -> v_hw s2 = v_hw s1 /\ v_use_lock s2 = v_use_lock s1) ->
  (forall s1 s2, body s1 <> Swtch s2) ->
  match (km_acquire ;;; let* a := body in km_release ;;; ret a) s with
  | Ret _ s' => like h s' | Swtch _ => False | _ => True end.
Proof.
  intros [Hwf Hs] Hbody Hsw. unfold km_acquire, km_release, bind at 1, bind at 1, gets, when.
  destruct (v_use_lock s) eqn:Hu.
  - unfold on_hw at 1, zoom at 1. destruct (lk_locked (hw_locks (v_hw s) Lkmem)) eqn:Hl.
    { rewrite acquire_busy by done. by destruct (bool_decide _). }
    rewrite acquire_free by done. set (h1 := set_lock _ _ _).
    unfold bind at 1. destruct (body (set_v_hw h1 s)) as [a s2| |s2| |] eqn:E; try done;
      [|by eapply Hsw]. destruct (Hbody _ _ _ E) as [Hh2 Hu2]. simpl in *.
    unfold bind, on_hw, zoom. rewrite Hu2, Hu, Hh2. destruct (wf_my _ Hwf) as [Hn Hi].
    rewrite release_run.
    + unfold h1. rewrite my_set_lock, my_set_my. unfold set_lock, set_my. simpl.
      rewrite !upd_upd, popped_pushed by done. split; simpl.
      * apply (hw_wf_set_lock _ Lkmem lock0 (settled_wf _ Hwf)).
      * eapply hw_same_trans; [done|]. eapply hw_same_trans; [apply (set_my_same _ (settled (my (v_hw s))) (settled_same _))|].
        split; try done. intros lk Hlk. simpl. by rewrite upd_ne.
    + unfold h1. by apply hw_wf_set_lock, pushed_wf.
    + unfold h1, set_lock. simpl. by rewrite upd_eq.
    + unfold h1. rewrite my_set_lock, my_set_my, pushed_ncli. lia.
  - unfold ret, bind. destruct (body s) as [a s2| |s2| |] eqn:E; try done; [|by eapply Hsw].
    destruct (Hbody _ _ _ E) as [Hh2 Hu2]. rewrite Hu2, Hu. unfold like. by rewrite Hh2.
Qed.

Section frame.
Context `{Symbols} (h : hw).

Lemma kalloc_keeps : keeps (like h) kalloc.
Proof.
  intros s Hs. set (body := let* r := gets v_freelist in
    when (negb (r =? 0)) (modify (fun s => set_v_freelist (load32 (v_mem s) r) s)) ;;; ret r).
  pose proof (km_frame body h s Hs) as Hk.
  assert (kalloc s = (km_acquire ;;; let* a := body in km_release ;;; ret a) s) as ->.
  { unfold kalloc, body, bind, gets, when. destruct (km_acquire s) as [? s1| | | |]; try done. by destruct (negb _). }
  apply Hk; unfold body, bind, gets, when, modify, ret; intros s1 **; by destruct (negb _); simplify_eq.
Qed.

Lemma memop_keeps f : keeps (like h) (memop f).
Proof. by apply keeps_modify. Qed.
Lemma st_keeps a v : keeps (like h) (st a v).
Proof. apply memop_keeps. Qed.
Lemma ld_keeps a : keeps (like h) (ld a).
Proof. apply keeps_gets. Qed.
Lemma fuel_keeps {A} : keeps (like h) (out_of_fuel (A := A)).
Proof. by intros s. Qed.

Lemma kfree_keeps v : keeps (like h) (kfree v).
Proof.
  unfold kfree. apply keeps_if; [apply keeps_panic|]. apply keeps_bind; [apply memop_keeps|intros _].
  intros s Hs. set (body := let* fl := gets v_freelist in
    memop (fun m => store32 m v fl) ;;; modify (set_v_freelist v)).
  pose proof (km_frame body h s Hs) as Hk.
  set (m := (km_acquire ;;; _) : M vmst unit).
  assert (m s = (km_acquire ;;; let* a := body in km_release ;;; ret a) s) as ->.
  { unfold m, body, bind, gets, memop, modify. destruct (km_acquire s) as [? s1| | | |]; try done.
    destruct (km_release _) as [[] ?| | | |]; done. }
  apply Hk; unfold body, bind, gets, memop, modify; intros; by simplify_eq.
Qed.

Hint Resolve kalloc_keeps memop_keeps st_keeps ld_keeps fuel_keeps kfree_keeps : keeps.

Lemma walkpgdir_keeps d va alloc : keeps (like h) (walkpgdir d va alloc).
Proof. unfold walkpgdir. eauto 20 with keeps. Qed.
Hint Resolve walkpgdir_keeps : keeps.

Lemma deallocuvm_keeps d o n : keeps (like h) (deallocuvm d o n).
Proof.
  unfold deallocuvm. apply keeps_if; [auto with keeps|]. apply keeps_bind; [|auto with keeps].
  generalize (S (Z.to_nat (o / PGSIZE + 1))), (PGROUNDUP n). intros fuel.
  induction fuel as [|fuel IH]; intros a; simpl; [auto with keeps|].
  apply keeps_if; [|auto with keeps]. apply keeps_bind; [auto with keeps|]. intros pte.
  apply keeps_if; [apply IH|]. apply keeps_bind; [auto with keeps|]. intros e.
  apply keeps_bind; [|intros _; apply IH]. apply keeps_if; [|auto with keeps].
  apply keeps_if; auto with keeps.
Qed.
Hint Resolve deallocuvm_keeps : keeps.

Lemma freevm_keeps d b : keeps (like h) (freevm d b).
Proof. unfold freevm. auto 20 with keeps. Qed.
End frame.
#[export] Hint Resolve kalloc_keeps memop_keeps st_keeps ld_keeps fuel_keeps kfree_keeps
  walkpgdir_keeps deallocuvm_keeps freevm_keeps : keeps.
