(* ===== verification/Proc.v ===== *)
(** * Processes (proc.c)

    The operations of proc.c on the kernel state [kst].  [swtch] gives up the
    CPU: the outcome of a call that reaches it is [Swtch s]; what the code does
    when the thread is resumed is the definition with suffix [_resume].  The
    scheduler's loop body is [scheduler_turn] (up to [swtch]) and
    [scheduler_return] (after it).  Fork, exit and userinit call the file system
    through the interface [FileLayer]. *)
From S2P Require Import Prelude Machine ProcQueue StringC Spinlock Kalloc Vm.

Definition on_vm {A} (m : M vmst A) : M kst A := zoom k_vm (fun s v => set_k_vm v s) m.
Definition on_pt {A} (m : M ptable A) : M kst A := zoom k_pt (fun s t => set_k_pt t s) m.
Definition on_cpu {A} (m : M hw A) : M kst A := on_vm (on_hw m).
Definition k_hw (s : kst) : hw := v_hw (k_vm s).

Definition pget (p : nat) : M kst proc := on_pt (pt_get p).
Definition pset (p : nat) (f : proc -> proc) : M kst unit := on_pt (pt_upd p f).

(** A pointer that the code dereferences without testing it. *)
Definition nonnull {S A} (o : option nat) (k : nat -> M S A) : M S A :=
  match o with None => fault | Some p => k p end.

(** Leaving the CPU. *)
Definition swtch {S A} : M S A := fun s => Swtch s.

(** The process table, in the order the code scans it. *)
Definition procs : list nat := seq 0 NPROC.
#[global] Arguments procs : simpl never.
Definition find_proc (f : proc -> bool) : M kst (option nat) :=
  gets (fun s => find_first (fun i => f (pt_proc (k_pt s) i)) procs).

(** sizeof(struct trapframe), sizeof(struct context). *)
Definition TF_SIZE : Z := 76.
Definition CTX_SIZE : Z := 20.

Definition pinit : M kst unit := on_cpu (initlock Lptable).

Definition myproc : M kst (option nat) :=
  on_cpu (pushcli ;;;
          let* c := mycpu in
          let* p := gets (fun h => c_proc (hw_cpus h c)) in
          popcli ;;;
          ret p).

Section proc.
Context `{Symbols}.

(** allocproc up to the release of ptable.lock. *)
Definition alloc_claim : M kst (option nat) :=
  on_cpu (acquire Lptable) ;;;
  let* found := find_proc (fun p => bool_decide (p_state p = UNUSED)) in
  match found with
  | None => on_cpu (release Lptable) ;;; ret None
  | Some p =>
    pset p (set_p_state EMBRYO) ;;;
    let* pid := gets k_nextpid in
    pset p (set_p_pid pid) ;;;
    modify (set_k_nextpid (s32 (pid + 1))) ;;;
    on_cpu (release Lptable) ;;;
    ret (Some p)
  end.

(** The rest: the kernel stack with the frame that makes a new process start in
    forkret and return to trapret. *)
Definition alloc_stack (p : nat) : M kst (option nat) :=
  let* ks := on_vm kalloc in
  pset p (set_p_kstack ks) ;;;
  if ks =? 0 then pset p (set_p_state UNUSED) ;;; ret None else
  let sp := ks + KSTACKSIZE in
  let sp := sp - TF_SIZE in
  pset p (set_p_tfp sp) ;;;
  let sp := sp - 4 in
  on_vm (st sp sym_trapret) ;;;
  let sp := sp - CTX_SIZE in
  pset p (set_p_ctxp sp) ;;;
  pset p (set_p_ctx ctx0) ;;;
  pset p (fun q => set_p_ctx (set_cx_eip sym_forkret (p_ctx q)) q) ;;;
  ret (Some p).

Definition allocproc : M kst (option nat) :=
  let* p := alloc_claim in
  match p with None => ret None | Some p => alloc_stack p end.

(** Grow current process's memory by n bytes. *)
Definition growproc (n : Z) : M kst Z :=
  let* cur := myproc in
  nonnull cur (fun cur =>
  let* cp := pget cur in
  let sz := p_sz cp in
  let* r := (if n >? 0 then
               let* sz := on_vm (allocuvm (p_pgdir cp) sz (u32 (sz + n))) in
               ret (if sz =? 0 then None else Some sz)
             else if n <? 0 then
               let* sz := on_vm (deallocuvm (p_pgdir cp) sz (u32 (sz + n))) in
               ret (if sz =? 0 then None else Some sz)
             else ret (Some sz)) in
  match r with
  | None => ret (-1)
  | Some sz =>
    pset cur (set_p_sz sz) ;;;
    on_cpu (lcr3 (V2P (p_pgdir cp))) ;;;
    ret 0
  end).

(** Enter the scheduler.  [intena], a local variable of the code, is what
    [c_intena] of the CPU is when the thread leaves. *)
Definition sched : M kst unit :=
  let* p := myproc in
  let* b := on_cpu (holding Lptable) in
  if negb b then panic "sched ptable.lock" else
  let* c := on_cpu mycpu in
  let* n := gets (fun s => c_ncli (hw_cpus (k_hw s) c)) in
  if negb (n =? 1) then panic "sched locks" else
  nonnull p (fun p =>
  let* pp := pget p in
  if bool_decide (p_state pp = RUNNING) then panic "sched running" else
  let* i := on_cpu readeflags_IF in
  if i then panic "sched interruptible" else
  on_cpu mycpu ;;;
  swtch).

(** [mycpu()->intena = intena], when the thread runs again. *)
Definition sched_resume (intena : bool) : M kst unit :=
  on_cpu (let* c := mycpu in upd_cpu c (set_c_intena intena)).

Definition yield : M kst unit :=
  on_cpu (acquire Lptable) ;;;
  let* cur := myproc in
  nonnull cur (fun p => pset p (set_p_state RUNNABLE)) ;;;
  let* cur := myproc in
  nonnull cur (fun p => on_pt (enqueue p)) ;;;
  sched ;;;
  on_cpu (release Lptable).

Definition yield_resume (intena : bool) : M kst unit :=
  sched_resume intena ;;;
  on_cpu (release Lptable).

Definition sleep (ch : option chan) (lk : option lockid) : M kst unit :=
  let* cur := myproc in
  match cur, lk with
  | None, _ => panic "sleep"
  | Some p, None => panic "sleep without lk"
  | Some p, Some lk =>
    when (negb (bool_decide (lk = Lptable)))
      (on_cpu (acquire Lptable) ;;; on_cpu (release lk)) ;;;
    pset p (set_p_chan ch) ;;;
    pset p (set_p_state SLEEPING) ;;;
    sched ;;;
    pset p (set_p_chan None) ;;;
    when (negb (bool_decide (lk = Lptable)))
      (on_cpu (release Lptable) ;;; on_cpu (acquire lk))
  end.

(** What [sleep] does when it is resumed, up to the release of ptable.lock; the
    lock [lk] is then acquired. *)
Definition sleep_tidy (p : nat) (intena : bool) : M kst unit :=
  sched_resume intena ;;;
  pset p (set_p_chan None).
Definition sleep_resume (p : nat) (lk : lockid) (intena : bool) : M kst unit :=
  sleep_tidy p intena ;;;
  when (negb (bool_decide (lk = Lptable)))
    (on_cpu (release Lptable) ;;; on_cpu (acquire lk)).

Definition wakeup1 (ch : option chan) : M ptable unit :=
  foreach procs (fun p =>
    let* pp := pt_get p in
    when (bool_decide (p_state pp = SLEEPING) && bool_decide (p_chan pp = ch))
      (pt_upd p (set_p_state RUNNABLE) ;;; enqueue p)).

Definition wakeup (ch : option chan) : M kst unit :=
  on_cpu (acquire Lptable) ;;;
  on_pt (wakeup1 ch) ;;;
  on_cpu (release Lptable).

Definition kill (pid : Z) : M kst Z :=
  on_cpu (acquire Lptable) ;;;
  let* found := find_proc (fun p => p_pid p =? pid) in
  match found with
  | Some p =>
    pset p (set_p_killed true) ;;;
    let* pp := pget p in
    when (bool_decide (p_state pp = SLEEPING))
      (pset p (set_p_state RUNNABLE) ;;; on_pt (enqueue p)) ;;;
    on_cpu (release Lptable) ;;;
    ret 0
  | None => on_cpu (release Lptable) ;;; ret (-1)
  end.

Definition getprio (pid : Z) : M kst Z :=
  on_cpu (acquire Lptable) ;;;
  let* found := find_proc (fun p => (p_pid p =? pid) && negb (bool_decide (p_state p = UNUSED))) in
  match found with
  | Some p =>
    on_cpu (release Lptable) ;;;
    let* pp := pget p in
    ret (p_priority pp)
  | None => on_cpu (release Lptable) ;;; ret (-1)
  end.

Definition setprio (pid prio : Z) : M kst Z :=
  if negb (prio =? HI_PRIO) && negb (prio =? NORM_PRIO) then ret (-1) else
  on_cpu (acquire Lptable) ;;;
  let* found := find_proc (fun p => (p_pid p =? pid) && negb (bool_decide (p_state p = UNUSED))) in
  match found with
  | Some p =>
    let* pp := pget p in
    when (negb (p_priority pp =? prio))
      (if bool_decide (p_state pp = RUNNABLE) then
         on_pt (dequeue p) ;;;
         pset p (set_p_priority prio) ;;;
         on_pt (enqueue p)
       else pset p (set_p_priority prio)) ;;;
    on_cpu (release Lptable) ;;;
    ret 0
  | None => on_cpu (release Lptable) ;;; ret (-1)
  end.

(** ** The scheduler *)

(** Before the loop. *)
Definition scheduler_init : M kst nat :=
  on_cpu (let* c := mycpu in
          upd_cpu c (set_c_proc None) ;;;
          ret c).

(** One turn of the loop on CPU [c], up to [swtch] if a process is found. *)
Definition scheduler_turn (ts_addr : nat -> Z) (c : nat) : M kst unit :=
  on_cpu sti ;;;
  on_cpu (acquire Lptable) ;;;
  let* hi := gets (fun s => pt_queue (k_pt s) HI_PRIO) in
  let* norm := gets (fun s => pt_queue (k_pt s) NORM_PRIO) in
  match (match hi with Some _ => hi | None => norm end) with
  | Some p =>
    on_cpu (upd_cpu c (set_c_proc (Some p))) ;;;
    let* pp := pget p in
    on_vm (switchuvm ts_addr (Some pp)) ;;;
    pset p (set_p_state RUNNING) ;;;
    on_pt (dequeue p) ;;;
    swtch
  | None => on_cpu (release Lptable)
  end.

(** The rest of the turn, when the process has given the CPU back. *)
Definition scheduler_return (c : nat) : M kst unit :=
  on_vm switchkvm ;;;
  on_cpu (upd_cpu c (set_c_proc None)) ;;;
  on_cpu (release Lptable).

(** ** wait *)

(** [*status = v], a store to user memory by the MMU; see Trap. *)
Variable ustore32 : Z -> Z -> M kst unit.

(** The body of the loop, with ptable.lock held. *)
Definition wait_scan (cur : option nat) (status : Z) : M kst Z :=
  let* z := find_proc (fun p => bool_decide (p_parent p = cur) && bool_decide (p_state p = ZOMBIE)) in
  match z with
  | Some p =>
    let* pp := pget p in
    let pid := p_pid pp in
    on_vm (kfree (p_kstack pp)) ;;;
    pset p (set_p_kstack 0) ;;;
    let* pp := pget p in
    on_vm (freevm (p_pgdir pp) false) ;;;
    pset p (set_p_pid 0) ;;;
    pset p (set_p_parent None) ;;;
    pset p (set_p_name []) ;;;
    pset p (set_p_killed false) ;;;
    pset p (set_p_state UNUSED) ;;;
    pset p (set_p_priority 0) ;;;
    pset p (set_p_next None) ;;;
    pset p (set_p_previous None) ;;;
    let* pp := pget p in
    when (negb (status =? 0)) (ustore32 status (p_status pp)) ;;;
    on_cpu (release Lptable) ;;;
    ret pid
  | None =>
    let* kid := find_proc (fun p => bool_decide (p_parent p = cur)) in
    if is_null kid then on_cpu (release Lptable) ;;; ret (-1) else
    nonnull cur (fun c =>
    let* cp := pget c in
    if p_killed cp then on_cpu (release Lptable) ;;; ret (-1)
    else sleep (Some (ChProc c)) (Some Lptable) ;;; out_of_fuel (* goes on in wait_resume *))
  end.

Definition wait (status : Z) : M kst Z :=
  let* cur := myproc in
  on_cpu (acquire Lptable) ;;;
  wait_scan cur status.

(** When the sleep of the loop returns, the table is scanned again. *)
Definition wait_resume (cur : nat) (intena : bool) (status : Z) : M kst Z :=
  sleep_tidy cur intena ;;;
  wait_scan (Some cur) status.

End proc.

(** ** The file system as the process code sees it

    The operations act on the kernel state and a state [F] of their own. *)
Class FileLayer (F : Type) := {
  fl_filedup : nat -> M (kst * F) nat;
  fl_fileclose : nat -> M (kst * F) unit;
  fl_idup : option nat -> M (kst * F) (option nat);
  fl_iput : option nat -> M (kst * F) unit;
  fl_begin_op : M (kst * F) unit;
  fl_end_op : M (kst * F) unit;
  fl_namei : list Z -> M (kst * F) (option nat);
  fl_iinit : Z -> M (kst * F) unit;
  fl_initlog : Z -> M (kst * F) unit;
}.

Definition onk {F A} (m : M kst A) : M (kst * F) A := zoom fst (fun w k => (k, w.2)) m.

(** safestrcpy to a name field of 16 bytes. *)
Definition copy_name (n : list Z) : list Z := take 15 n.
(** The string initcode. *)
Definition initcode_name : list Z := [105; 110; 105; 116; 99; 111; 100; 101].
(** The path of the root directory. *)
Definition root_path : list Z := [47].
Definition ROOTDEV : Z := 1.

Section proc_files.
Context `{Symbols} {F : Type} `{FileLayer F}.

(** The end of userinit: the first process becomes visible to the scheduler. *)
Definition init_publish (p : nat) : M kst unit :=
  on_cpu (acquire Lptable) ;;;
  pset p (set_p_state RUNNABLE) ;;;
  pset p (set_p_priority NORM_PRIO) ;;;
  pset p (set_p_previous None) ;;;
  pset p (set_p_next None) ;;;
  on_pt (enqueue p) ;;;
  on_cpu (release Lptable).

(** The first process, from the image at [initcode_start]. *)
Definition userinit (initcode_start initcode_size : Z) : M (kst * F) unit :=
  let* p := onk allocproc in
  onk (modify (set_k_initproc p)) ;;;
  nonnull p (fun p =>
  let* d := onk (on_vm setupkvm) in
  onk (pset p (set_p_pgdir d)) ;;;
  if d =? 0 then panic "userinit: out of memory?" else
  onk (on_vm (inituvm d initcode_start initcode_size)) ;;;
  onk (pset p (set_p_sz PGSIZE)) ;;;
  onk (pset p (set_p_tf tf0)) ;;;
  let tfset (f : trapframe -> trapframe) := onk (pset p (fun q => set_p_tf (f (p_tf q)) q)) in
  tfset (set_tf_cs (Z.lor (Z.shiftl SEG_UCODE 3) DPL_USER)) ;;;
  tfset (set_tf_ds (Z.lor (Z.shiftl SEG_UDATA 3) DPL_USER)) ;;;
  tfset (fun t => set_tf_es (tf_ds t) t) ;;;
  tfset (fun t => set_tf_ss (tf_ds t) t) ;;;
  tfset (set_tf_eflags FL_IF) ;;;
  tfset (set_tf_esp PGSIZE) ;;;
  tfset (set_tf_eip 0) ;;;
  onk (pset p (set_p_name (copy_name initcode_name))) ;;;
  let* cwd := fl_namei root_path in
  onk (pset p (set_p_cwd cwd)) ;;;
  onk (init_publish p)).

(** The end of fork: the child becomes visible to the scheduler. *)
Definition fork_publish (np : nat) : M kst unit :=
  on_cpu (acquire Lptable) ;;;
  pset np (set_p_state RUNNABLE) ;;;
  let* n := pget np in
  nonnull (p_parent n) (fun q => let* pq := pget q in pset np (set_p_priority (p_priority pq))) ;;;
  on_pt (enqueue np) ;;;
  on_cpu (release Lptable).

Definition fork : M (kst * F) Z :=
  let* cur := onk myproc in
  let* np := onk allocproc in
  match np with
  | None => ret (-1)
  | Some np =>
    nonnull cur (fun cur =>
    let* cp := onk (pget cur) in
    let* d := onk (on_vm (copyuvm (p_pgdir cp) (p_sz cp))) in
    onk (pset np (set_p_pgdir d)) ;;;
    if d =? 0 then
      let* n := onk (pget np) in
      onk (on_vm (kfree (p_kstack n))) ;;;
      onk (pset np (set_p_kstack 0)) ;;;
      onk (pset np (set_p_state UNUSED)) ;;;
      ret (-1)
    else
    let* cp := onk (pget cur) in
    onk (pset np (set_p_sz (p_sz cp))) ;;;
    onk (pset np (set_p_parent (Some cur))) ;;;
    onk (pset np (set_p_tf (p_tf cp))) ;;;
    onk (pset np (fun q => set_p_tf (set_tf_eax 0 (p_tf q)) q)) ;;;
    foreach (seq 0 NOFILE) (fun i =>
      let* cp := onk (pget cur) in
      match p_ofile cp i with
      | Some f =>
        let* f' := fl_filedup f in
        onk (pset np (fun q => set_p_ofile (upd (p_ofile q) i (Some f')) q))
      | None => ret tt
      end) ;;;
    let* cp := onk (pget cur) in
    let* cwd := fl_idup (p_cwd cp) in
    onk (pset np (set_p_cwd cwd)) ;;;
    let* cp := onk (pget cur) in
    onk (pset np (set_p_name (copy_name (p_name cp)))) ;;;
    let* n := onk (pget np) in
    let pid := p_pid n in
    onk (fork_publish np) ;;;
    ret pid)
  end.

(** The end of exit, from the moment it holds ptable.lock. *)
Definition exit_locked (cur : nat) (status : Z) : M kst unit :=
  let* cp := pget cur in
  on_pt (wakeup1 (ChProc <$> p_parent cp)) ;;;
  foreach procs (fun p =>
    let* pp := pget p in
    when (bool_decide (p_parent pp = Some cur))
      (let* init := gets k_initproc in
       pset p (set_p_parent init) ;;;
       let* pp := pget p in
       when (bool_decide (p_state pp = ZOMBIE)) (on_pt (wakeup1 (ChProc <$> init))))) ;;;
  let* cp := pget cur in
  on_vm (deallocuvm (p_pgdir cp) KERNBASE 0) ;;;
  pset cur (set_p_state ZOMBIE) ;;;
  pset cur (set_p_status status) ;;;
  sched ;;;
  panic "zombie exit".

Definition exit (status : Z) : M (kst * F) unit :=
  let* cur := onk myproc in
  let* init := onk (gets k_initproc) in
  if bool_decide (cur = init) then panic "init exiting" else
  nonnull cur (fun cur =>
  foreach (seq 0 NOFILE) (fun fd =>
    let* cp := onk (pget cur) in
    match p_ofile cp fd with
    | Some f =>
      fl_fileclose f ;;;
      onk (pset cur (fun q => set_p_ofile (upd (p_ofile q) fd None) q))
    | None => ret tt
    end) ;;;
  fl_begin_op ;;;
  let* cp := onk (pget cur) in
  fl_iput (p_cwd cp) ;;;
  fl_end_op ;;;
  onk (pset cur (set_p_cwd None)) ;;;
  onk (on_cpu (acquire Lptable)) ;;;
  onk (exit_locked cur status)).

Definition forkret : M (kst * F) unit :=
  onk (on_cpu (release Lptable)) ;;;
  let* first := onk (gets k_first) in
  when first
    (onk (modify (set_k_first false)) ;;;
     fl_iinit ROOTDEV ;;;
     fl_initlog ROOTDEV).

End proc_files.
