(* ===== verification/RunQueue.v ===== *)
(** * Runnable processes and the queues

    [pt_inv t qs]: the queues of the table hold exactly its RUNNABLE processes,
    each in the queue of its priority, in the order [qs].  The lemmas give the
    effect on it of each change proc.c makes while it holds ptable.lock. *)
From S2P Require Import Prelude Machine ProcQueue StringC Spinlock Kalloc Vm Proc.

Definition prio_ok (pr : Z) : Prop := pr = HI_PRIO \/ pr = NORM_PRIO.

Record pt_inv (t : ptable) (qs : Z -> list nat) : Prop := {
  pi_queued : queued t qs;
  pi_elem pr i : i ∈ qs pr -> i ∈ procs /\ p_state (pt_proc t i) = RUNNABLE;
  pi_runnable i : i ∈ procs -> p_state (pt_proc t i) = RUNNABLE ->
    i ∈ qs (p_priority (pt_proc t i));
  pi_prio i : i ∈ procs -> prio_ok (p_priority (pt_proc t i));
}.

Lemma pi_not_queued t qs i pr : pt_inv t qs -> p_state (pt_proc t i) <> RUNNABLE -> i ∉ qs pr.
Proof. intros Hi Hs Hin. by destruct (pi_elem _ _ Hi pr i Hin). Qed.

(** Everything of a process the queue operations keep. *)
Lemma unlinked_inj_state p q : unlinked p = unlinked q -> p_state p = p_state q.
Proof. intros E. by apply (f_equal p_state) in E. Qed.
Lemma unlinked_chan p q : unlinked p = unlinked q -> p_chan p = p_chan q.
Proof. intros E. by apply (f_equal p_chan) in E. Qed.

Lemma unlinked_set_state st p : unlinked (set_p_state st p) = set_p_state st (unlinked p).
Proof. done. Qed.

(** Replacing a process that is in no queue. *)
Definition put_proc (t : ptable) (i : nat) (q : proc) : ptable :=
  set_pt_proc (upd (pt_proc t) i q) t.

Lemma queued_put t qs i q : queued t qs -> (forall pr, i ∉ qs pr) ->
  p_previous q = None -> p_next q = None -> queued (put_proc t i q) qs.
Proof.
  intros [Hr Hp Hn] Hi Hv Hx. split; simpl.
  - intros pr. apply (ring_frame (pt_proc t)); [|apply Hr]. intros j Hj.
    rewrite upd_ne; [done|]. intros <-. by apply (Hi pr).
  - intros pr j Hj. rewrite upd_ne; [by apply Hp|]. intros <-. by apply (Hi pr).
  - intros j. rewrite upd_case. case_decide; [by subst|apply Hn].
Qed.

Lemma pt_inv_links t qs i : pt_inv t qs -> p_state (pt_proc t i) <> RUNNABLE ->
  p_previous (pt_proc t i) = None /\ p_next (pt_proc t i) = None.
Proof. intros Hinv Hs. apply (queued_null _ _ (pi_queued _ _ Hinv)). by apply (pi_not_queued t). Qed.

Lemma queued_fields t t' qs : queued t qs -> (forall pr, pt_queue t' pr = pt_queue t pr) ->
  (forall i, p_priority (pt_proc t' i) = p_priority (pt_proc t i) /\
     p_previous (pt_proc t' i) = p_previous (pt_proc t i) /\ p_next (pt_proc t' i) = p_next (pt_proc t i)) ->
  queued t' qs.
Proof.
  intros [Hr Hp Hn] Fq F. split.
  - intros pr. rewrite Fq. pose proof (Hr pr) as Hring. destruct (qs pr) as [|h r]; [done|]. simpl in *.
    destruct Hring as (? & ? & Hl). split_and!; [done..|]. revert Hl. apply links_ext; intros i _; apply F.
  - intros pr i Hi. destruct (F i) as [-> _]. by apply Hp.
  - intros i. destruct (F i) as (-> & -> & ->). apply Hn.
Qed.

(** A change of fields that the queues do not depend on. *)
Record fields_same (t t' : ptable) : Prop := {
  fs_queue pr : pt_queue t' pr = pt_queue t pr;
  fs_state i : p_state (pt_proc t' i) = p_state (pt_proc t i);
  fs_prio i : p_priority (pt_proc t' i) = p_priority (pt_proc t i);
  fs_prev i : p_previous (pt_proc t' i) = p_previous (pt_proc t i);
  fs_next i : p_next (pt_proc t' i) = p_next (pt_proc t i);
}.

Lemma pt_inv_fields t t' qs : pt_inv t qs -> fields_same t t' -> pt_inv t' qs.
Proof.
  intros [Hq He Hru Hpr] [Fq Fs Fp Fv Fx]. split; [by apply (queued_fields t)|..].
  - intros pr i Hi. rewrite Fs. by apply (He pr).
  - intros i Hi. rewrite Fs, Fp. by apply Hru.
  - intros i Hi. rewrite Fp. by apply Hpr.
Qed.

(** ** One process in transit

    As [pt_inv], but process [p] is in no queue, whatever its state. *)
Record pt_inv_but (t : ptable) (qs : Z -> list nat) (p : nat) : Prop := {
  pb_queued : queued t qs;
  pb_out pr : p ∉ qs pr;
  pb_elem pr i : i ∈ qs pr -> i ∈ procs /\ p_state (pt_proc t i) = RUNNABLE;
  pb_runnable i : i ∈ procs -> i <> p -> p_state (pt_proc t i) = RUNNABLE ->
    i ∈ qs (p_priority (pt_proc t i));
  pb_prio i : i ∈ procs -> prio_ok (p_priority (pt_proc t i));
}.

Lemma pt_inv_open t qs p : pt_inv t qs -> p_state (pt_proc t p) <> RUNNABLE -> pt_inv_but t qs p.
Proof.
  intros Hinv Hs. split; try by destruct Hinv.
  - intros pr. by apply (pi_not_queued t).
  - intros i Hi _. by apply Hinv.
Qed.

Lemma pt_inv_close t qs p : pt_inv_but t qs p -> p_state (pt_proc t p) <> RUNNABLE -> pt_inv t qs.
Proof.
  intros [Hq Ho He Hr Hp] Hs. split; [done..| |done]. intros i Hi Hi'. apply Hr; [done| |done]. congruence.
Qed.

Lemma but_put t qs p q : pt_inv_but t qs p -> p_previous q = None -> p_next q = None ->
  prio_ok (p_priority q) -> pt_inv_but (put_proc t p q) qs p.
Proof.
  intros [Hq Ho He Hr Hp] Hv Hn Hok. split.
  - by apply queued_put.
  - done.
  - intros pr i Hi. simpl. rewrite upd_ne; [by apply (He pr)|]. intros <-. by apply (Ho pr).
  - intros i Hi Hip. simpl. rewrite upd_ne by done. by apply Hr.
  - intros i Hi. simpl. rewrite upd_case. case_decide; [done|by apply Hp].
Qed.

Lemma but_null t qs p : pt_inv_but t qs p ->
  p_previous (pt_proc t p) = None /\ p_next (pt_proc t p) = None.
Proof. intros Hb. apply (queued_null _ _ (pb_queued _ _ _ Hb)), Hb. Qed.

Lemma pt_inv_put t qs i q : pt_inv t qs -> p_state (pt_proc t i) <> RUNNABLE ->
  p_state q <> RUNNABLE -> p_previous q = None -> p_next q = None -> prio_ok (p_priority q) ->
  pt_inv (put_proc t i q) qs.
Proof.
  intros Hinv Hs Hq Hv Hn Hp. apply (pt_inv_close _ _ i).
  - apply but_put; try done. by apply pt_inv_open.
  - simpl. by rewrite upd_eq.
Qed.

(** The process becomes runnable: [enqueue] puts it at the end of its queue. *)
Lemma but_enqueue t qs p : pt_inv_but t qs p -> p ∈ procs -> p_state (pt_proc t p) = RUNNABLE ->
  let pr := p_priority (pt_proc t p) in
  exists t', enqueue p t = Ret tt t' /\ same_but_links t t' /\ pt_inv t' (upd qs pr (qs pr ++ [p])).
Proof.
  intros [Hq Ho He Hr Hp] Hin Hst pr. destruct (queued_enqueue t qs p Hq (Ho _)) as (t' & E & Hsame & Hq').
  pose proof (same_but_links_prio _ _ Hsame) as Hprio.
  assert (forall i, p_state (pt_proc t' i) = p_state (pt_proc t i)) as Hst'
    by (intros i; apply unlinked_inj_state, Hsame).
  exists t'. split_and!; [done..|]. split; [done|..].
  - intros pr' i. rewrite Hst', upd_case. case_decide; [|apply He].
    intros [Hi| ->%list_elem_of_singleton]%elem_of_app; [by apply (He pr)|done].
  - intros i Hi. rewrite Hst', Hprio, upd_case. intros Hi'.
    destruct (decide (i = p)) as [->|Hip]; [rewrite decide_True by done; set_solver|].
    specialize (Hr i Hi Hip Hi'). case_decide as Hc; [rewrite Hc; set_solver|done].
  - intros i Hi. rewrite Hprio. by apply Hp.
Qed.

Lemma make_runnable t qs p q :
  pt_inv t qs -> p ∈ procs -> p_state (pt_proc t p) <> RUNNABLE ->
  p_state q = RUNNABLE -> p_previous q = None -> p_next q = None -> prio_ok (p_priority q) ->
  exists t', enqueue p (put_proc t p q) = Ret tt t' /\ same_but_links (put_proc t p q) t' /\
    pt_inv t' (upd qs (p_priority q) (qs (p_priority q) ++ [p])).
Proof.
  intros Hinv Hp Hs Hq Hv Hn Hpr.
  destruct (but_enqueue (put_proc t p q) qs p) as (t' & E & Hsame & Hinv'); simpl; rewrite ?upd_eq; try done.
  - apply but_put; try done. by apply pt_inv_open.
  - exists t'. simpl in Hinv'. by rewrite upd_eq in Hinv'.
Qed.

(** Taking a process out of its queue; its state may have been changed before. *)
Lemma but_dequeue t qs p st l1 l2 : pt_inv t qs -> qs (p_priority (pt_proc t p)) = l1 ++ p :: l2 ->
  let t0 := put_proc t p (set_p_state st (pt_proc t p)) in
  exists t', dequeue p t0 = Ret tt t' /\ same_but_links t0 t' /\
    pt_inv_but t' (upd qs (p_priority (pt_proc t p)) (l1 ++ l2)) p.
Proof.
  intros [Hq He Hr Hp] Hqs t0. set (pr := p_priority (pt_proc t p)) in *.
  assert (p_priority (pt_proc t0 p) = pr) as Hpr by (simpl; by rewrite upd_eq).
  assert (queued t0 qs) as Hq0.
  { apply (queued_fields t); [done|done|]. intros i. simpl. rewrite upd_case. case_decide; [by subst|done]. }
  assert (qs (p_priority (pt_proc t0 p)) = l1 ++ p :: l2) as Hqs0 by by rewrite Hpr.
  destruct (queued_dequeue t0 qs p l1 l2 Hq0 Hqs0) as (t' & E & Hsame & Hq').
  rewrite Hpr in Hq'. exists t'. split_and!; [done..|].
  pose proof (same_but_links_prio _ _ Hsame) as Hprio.
  assert (forall i, i <> p -> p_state (pt_proc t' i) = p_state (pt_proc t i)) as Hst'.
  { intros i Hi. rewrite (unlinked_inj_state _ _ (Hsame i)). simpl. by rewrite upd_ne. }
  assert (forall i, p_priority (pt_proc t' i) = p_priority (pt_proc t i)) as Hprio'.
  { intros i. rewrite Hprio. simpl. rewrite upd_case. case_decide; [by subst|done]. }
  pose proof (ring_NoDup _ _ _ (queued_ring _ _ Hq pr)) as Hnd. rewrite Hqs in Hnd.
  apply NoDup_app in Hnd as (Hnd1 & Hnd2 & [Hnd3 Hnd4]%NoDup_cons).
  assert (forall pr', p ∉ upd qs pr (l1 ++ l2) pr') as Hout.
  { intros pr'. rewrite upd_case. case_decide as Hc; [set_solver|].
    intros Hi. apply Hc. by apply (queued_prio _ _ Hq pr' p). }
  assert (forall pr' i, i ∈ upd qs pr (l1 ++ l2) pr' -> i ∈ qs pr') as Hsub.
  { intros pr' i. rewrite upd_case. case_decide; [|done]. subst pr'. rewrite Hqs. set_solver. }
  split; [done|done|..].
  - intros pr' i Hi. rewrite Hst' by (intros ->; by eapply Hout). by apply (He pr'), Hsub.
  - intros i Hi Hip. rewrite Hst', Hprio' by done. intros Hi'. specialize (Hr i Hi Hi').
    rewrite upd_case. case_decide as Hc; [|done]. rewrite <- Hc, Hqs in Hr. set_solver.
  - intros i Hi. rewrite Hprio'. by apply Hp.
Qed.

(** ** wakeup1 *)

Definition sleeps_on (ch : option chan) (p : proc) : bool :=
  bool_decide (p_state p = SLEEPING) && bool_decide (p_chan p = ch).
Definition woken (ch : option chan) (p : proc) : proc :=
  if sleeps_on ch p then set_p_state RUNNABLE p else p.
(** The sleepers on [ch] of priority [pr], in the order of the table. *)
Definition sleepers (t : ptable) (ch : option chan) (pr : Z) (l : list nat) : list nat :=
  filter (fun i => sleeps_on ch (pt_proc t i) = true /\ p_priority (pt_proc t i) = pr) l.

Definition wake_one (ch : option chan) (p : nat) : M ptable unit :=
  let* pp := pt_get p in
  when (sleeps_on ch pp) (pt_upd p (set_p_state RUNNABLE) ;;; enqueue p).

Lemma wakeup1_loop ch l t qs : pt_inv t qs -> NoDup l -> (forall i, i ∈ l -> i ∈ procs) ->
  exists t' qs', foreach l (wake_one ch) t = Ret tt t' /\ pt_inv t' qs' /\
    (forall pr, qs' pr = qs pr ++ sleepers t ch pr l) /\
    forall i, unlinked (pt_proc t' i) =
      unlinked (if decide (i ∈ l) then woken ch (pt_proc t i) else pt_proc t i).
Proof.
  revert t qs. induction l as [|p l IH]; intros t qs Hinv Hnd Hl; simpl.
  { exists t, qs. split_and!; [done|done| |done]. intros pr. by rewrite app_nil_r. }
  apply NoDup_cons in Hnd as [Hpl Hnd].
  unfold bind at 1, wake_one, bind at 1, pt_get, gets.
  destruct (sleeps_on ch (pt_proc t p)) eqn:Hsl; simpl.
  - pose proof Hsl as Hsl'. unfold sleeps_on in Hsl'. bool_to_prop.
    assert (p_state (pt_proc t p) <> RUNNABLE) as Hnr by congruence.
    destruct (pt_inv_links t qs p Hinv Hnr) as [Hv Hn].
    assert (prio_ok (p_priority (pt_proc t p))) as Hpok by (apply Hinv, Hl; left).
    destruct (make_runnable t qs p (set_p_state RUNNABLE (pt_proc t p)) Hinv) as (t1 & E & Hsame & Hinv1); try done.
    { apply Hl. left. }
    unfold bind at 1, pt_upd, modify. change (set_pt_proc _ t) with (put_proc t p (set_p_state RUNNABLE (pt_proc t p))).
    rewrite E. simpl in Hinv1.
    destruct (IH _ _ Hinv1 Hnd) as (t' & qs' & E' & Hinv' & Hqs & Hun); [intros; apply Hl; by right|].
    assert (forall i, i <> p -> unlinked (pt_proc t1 i) = unlinked (pt_proc t i)) as Ht1.
    { intros i Hi. rewrite Hsame. simpl. by rewrite upd_ne. }
    assert (forall i, i <> p -> sleeps_on ch (pt_proc t1 i) = sleeps_on ch (pt_proc t i) /\
      p_priority (pt_proc t1 i) = p_priority (pt_proc t i)) as Hsl1.
    { intros i Hi. specialize (Ht1 i Hi). unfold sleeps_on.
      by rewrite (unlinked_inj_state _ _ Ht1), (unlinked_chan _ _ Ht1), (unlinked_priority _ _ Ht1). }
    exists t', qs'. split_and!; [done|done| |].
    + intros pr. rewrite Hqs, upd_case. unfold sleepers.
      rewrite filter_cons. assert (filter (fun i => sleeps_on ch (pt_proc t1 i) = true /\ p_priority (pt_proc t1 i) = pr) l =
        filter (fun i => sleeps_on ch (pt_proc t i) = true /\ p_priority (pt_proc t i) = pr) l) as ->.
      { apply filter_ext_elem. intros i Hi. destruct (Hsl1 i) as [-> ->]; [by intros ->|done]. }
      case_decide as Hc.
      * rewrite decide_True by done. subst pr. by rewrite <- app_assoc.
      * rewrite decide_False by naive_solver. done.
    + intros i. rewrite Hun. destruct (decide (i = p)) as [->|Hip].
      * rewrite decide_False, decide_True by set_solver. rewrite Hsame. simpl. rewrite upd_eq.
        unfold woken. by rewrite Hsl.
      * assert (unlinked (woken ch (pt_proc t1 i)) = unlinked (woken ch (pt_proc t i))) as Hw.
        { unfold woken. destruct (Hsl1 i Hip) as [-> _]. destruct (sleeps_on ch (pt_proc t i)); [|by apply Ht1].
          rewrite !unlinked_set_state. by rewrite Ht1. }
        repeat case_decide; try set_solver; rewrite ?Hw, ?Ht1 by done; done.
  - destruct (IH _ _ Hinv Hnd) as (t' & qs' & E' & Hinv' & Hqs & Hun); [intros; apply Hl; by right|].
    exists t', qs'. split_and!; [done|done| |].
    + intros pr. rewrite Hqs. unfold sleepers. rewrite filter_cons, decide_False; [done|]. rewrite Hsl. naive_solver.
    + intros i. rewrite Hun. destruct (decide (i = p)) as [->|Hip].
      * rewrite decide_False, decide_True by set_solver. unfold woken. by rewrite Hsl.
      * repeat case_decide; try set_solver; done.
Qed.

Lemma procs_NoDup : NoDup procs.
Proof. apply NoDup_seq. Qed.

Lemma wakeup1_run ch t qs : pt_inv t qs ->
  exists t' qs', wakeup1 ch t = Ret tt t' /\ pt_inv t' qs' /\
    (forall pr, qs' pr = qs pr ++ sleepers t ch pr procs) /\
    forall i, unlinked (pt_proc t' i) =
      unlinked (if decide (i ∈ procs) then woken ch (pt_proc t i) else pt_proc t i).
Proof. intros Hinv. apply (wakeup1_loop ch procs); [done|apply procs_NoDup|done]. Qed.
