(* ===== verification/ProcRun.v ===== *)
(** * Critical sections of the process table

    Runs of the operations of proc.c that hold ptable.lock, on one CPU. *)
From S2P Require Import Prelude Machine ProcQueue StringC Spinlock Kalloc Vm VmFrame Proc RunQueue.

Definition set_khw (h : hw) (s : kst) : kst := set_k_vm (set_v_hw h (k_vm s)) s.

Lemma on_cpu_Ret {A} (m : M hw A) s a h : m (k_hw s) = Ret a h -> on_cpu m s = Ret a (set_khw h s).
Proof. intros E. unfold on_cpu, on_vm, on_hw, zoom, k_hw in *. by rewrite E. Qed.
Lemma on_pt_Ret {A} (m : M ptable A) s a t : m (k_pt s) = Ret a t -> on_pt m s = Ret a (set_k_pt t s).
Proof. intros E. unfold on_pt, zoom. by rewrite E. Qed.
Lemma on_vm_Ret {A} (m : M vmst A) s a v : m (k_vm s) = Ret a v -> on_vm m s = Ret a (set_k_vm v s).
Proof. intros E. unfold on_vm, zoom. by rewrite E. Qed.
Lemma on_vm_inv {A} (m : M vmst A) s a s' : on_vm m s = Ret a s' ->
  exists v, m (k_vm s) = Ret a v /\ s' = set_k_vm v s.
Proof. unfold on_vm, zoom. destruct (m (k_vm s)); naive_solver. Qed.

Lemma set_khw_id s : set_khw (k_hw s) s = s.
Proof. by destruct s as [[]]. Qed.

Lemma pget_run p s : pget p s = Ret (pt_proc (k_pt s) p) s.
Proof. by destruct s. Qed.
Lemma pset_run p f s :
  pset p f s = Ret tt (set_k_pt (put_proc (k_pt s) p (f (pt_proc (k_pt s) p))) s).
Proof. done. Qed.

(** The CPUs while this CPU holds ptable.lock, and after it released the lock. *)
Definition holds (h : hw) : Prop :=
  hw_wf h /\ hw_locks h Lptable = mkSpinlock true (Some (hw_me h)) /\ 0 < c_ncli (my h).
Definition locked_hw (h : hw) : hw :=
  set_lock Lptable (mkSpinlock true (Some (hw_me h))) (set_my (pushed (my h)) h).
Definition released_hw (h : hw) : hw := set_lock Lptable lock0 (set_my (popped (my h)) h).

Lemma locked_holds h : hw_wf h -> holds (locked_hw h).
Proof.
  intros Hwf. destruct (wf_my h Hwf). unfold locked_hw. split_and!.
  - by apply hw_wf_set_lock, pushed_wf.
  - simpl. by rewrite upd_eq.
  - rewrite my_set_lock, my_set_my, pushed_ncli. lia.
Qed.

Lemma kacquire_run s : hw_wf (k_hw s) -> lk_locked (hw_locks (k_hw s) Lptable) = false ->
  on_cpu (acquire Lptable) s = Ret tt (set_khw (locked_hw (k_hw s)) s).
Proof. intros Hwf Hl. by apply on_cpu_Ret, acquire_free. Qed.

Lemma kacquire_spin s : hw_wf (k_hw s) -> lk_locked (hw_locks (k_hw s) Lptable) = true ->
  forall r s', on_cpu (acquire Lptable) s <> Ret r s' /\ on_cpu (acquire Lptable) s <> Swtch s'.
Proof.
  intros Hwf Hl r s'. unfold on_cpu, on_vm, on_hw, zoom.
  rewrite acquire_busy by done. by destruct (bool_decide _).
Qed.

(** A computation that starts by taking the lock: it was free. *)
Lemma acquire_inv {A} (m : M kst A) s : hw_wf (k_hw s) ->
  (exists a s', (on_cpu (acquire Lptable) ;;; m) s = Ret a s') \/
  (exists s', (on_cpu (acquire Lptable) ;;; m) s = Swtch s') ->
  lk_locked (hw_locks (k_hw s) Lptable) = false /\
  (on_cpu (acquire Lptable) ;;; m) s = m (set_khw (locked_hw (k_hw s)) s).
Proof.
  intros Hwf Hr. destruct (lk_locked (hw_locks (k_hw s) Lptable)) eqn:Hl.
  - exfalso. unfold bind in Hr. pose proof (kacquire_spin s Hwf Hl) as Hsp.
    destruct (on_cpu (acquire Lptable) s) as [a s1| |s1| |] eqn:E.
    + by destruct (Hsp a s1).
    + naive_solver.
    + by destruct (Hsp tt s1).
    + naive_solver.
    + naive_solver.
  - split; [done|]. by rewrite (bind_Ret _ _ _ _ _ (kacquire_run s Hwf Hl)).
Qed.

Lemma krelease_run s : holds (k_hw s) ->
  on_cpu (release Lptable) s = Ret tt (set_khw (released_hw (k_hw s)) s).
Proof. intros (Hwf & Hl & Hn). by apply on_cpu_Ret, release_run. Qed.

Lemma myproc_run s : hw_wf (k_hw s) ->
  myproc s = Ret (c_proc (my (k_hw s))) (set_khw (set_my (settled (my (k_hw s))) (k_hw s)) s).
Proof.
  intros Hwf. set (h := k_hw s) in *. apply on_cpu_Ret. fold h.
  pose proof (pushed_wf h Hwf) as Hwf1. destruct (wf_my h Hwf) as [Hn Hi].
  rewrite (bind_Ret _ _ _ _ _ (pushcli_run h Hwf)).
  set (h1 := set_my (pushed (my h)) h) in *.
  assert (c_if (my h1) = false) as Hif by (unfold h1; rewrite my_set_my; apply pushed_if).
  rewrite (bind_Ret _ _ _ _ _ (mycpu_run h1 Hwf1 Hif)). unfold bind at 1, gets.
  rewrite (bind_Ret _ _ _ tt (set_my (settled (my h)) h)).
  - unfold ret. f_equal. change (hw_cpus h1 (hw_me h1)) with (my h1). unfold h1. rewrite my_set_my.
    unfold pushed. by destruct (_ =? 0).
  - rewrite popcli_run; [|done|unfold h1; rewrite my_set_my, pushed_ncli; lia].
    unfold h1. by rewrite my_set_my, set_my_set_my, popped_pushed.
Qed.

(** With a lock held, reading the current process changes nothing. *)
Lemma myproc_locked s : hw_wf (k_hw s) -> 0 < c_ncli (my (k_hw s)) ->
  myproc s = Ret (c_proc (my (k_hw s))) s.
Proof. intros Hwf Hn. by rewrite myproc_run, settled_id, set_my_my, set_khw_id. Qed.

Lemma sched_run s p : holds (k_hw s) -> c_proc (my (k_hw s)) = Some p ->
  sched s = if c_ncli (my (k_hw s)) =? 1 then
              if bool_decide (p_state (pt_proc (k_pt s) p) = RUNNING) then Panic "sched running"
              else Swtch s
            else Panic "sched locks".
Proof.
  intros (Hwf & Hl & Hn) Hp. unfold sched.
  rewrite (bind_Ret _ _ _ _ _ (myproc_locked s Hwf Hn)), Hp.
  assert (on_cpu (holding Lptable) s = Ret true s) as E1.
  { rewrite (on_cpu_Ret _ s _ _ (holding_run Lptable _ Hwf)), Hl. simpl.
    by rewrite bool_decide_eq_true_2, settled_id, set_my_my, set_khw_id. }
  rewrite (bind_Ret _ _ _ _ _ E1). simpl.
  assert (c_if (my (k_hw s)) = false) as Hif by (apply (wf_my _ Hwf); done).
  assert (on_cpu mycpu s = Ret (hw_me (k_hw s)) s) as E2.
  { rewrite (on_cpu_Ret _ s _ _ (mycpu_run _ Hwf Hif)). by rewrite set_khw_id. }
  rewrite (bind_Ret _ _ _ _ _ E2). unfold bind at 1, gets.
  change (hw_cpus (k_hw s) (hw_me (k_hw s))) with (my (k_hw s)).
  destruct (c_ncli (my (k_hw s)) =? 1); [|done]. simpl.
  rewrite (bind_Ret _ _ _ _ _ (pget_run p s)). destruct (bool_decide _); [done|].
  assert (on_cpu readeflags_IF s = Ret false s) as E3.
  { rewrite (on_cpu_Ret _ s false (k_hw s)) by (unfold readeflags_IF, gets; by rewrite Hif).
    by rewrite set_khw_id. }
  by rewrite (bind_Ret _ _ _ _ _ E3), (bind_Ret _ _ _ _ _ E2).
Qed.

(** ** What a step does to the CPUs *)

(** Only the executing CPU changes. *)
Record hw_ev (h h' : hw) : Prop := {
  ev_wf : hw_wf h';
  ev_me : hw_me h' = hw_me h;
  ev_ncpu : hw_ncpu h' = hw_ncpu h;
  ev_other i : i <> hw_me h ->
    c_proc (hw_cpus h' i) = c_proc (hw_cpus h i) /\ c_ncli (hw_cpus h' i) = c_ncli (hw_cpus h i);
}.

Lemma ev_trans h1 h2 h3 : hw_ev h1 h2 -> hw_ev h2 h3 -> hw_ev h1 h3.
Proof.
  intros [W1 M1 N1 O1] [W2 M2 N2 O2]. split; [done|congruence..|].
  intros i Hi. destruct (O1 i Hi) as [<- <-]. apply O2. congruence.
Qed.

Lemma ev_refl h : hw_wf h -> hw_ev h h.
Proof. by split. Qed.

Lemma ev_set_my h c : hw_wf (set_my c h) -> hw_ev h (set_my c h).
Proof. intros. split; [done..|]. intros i Hi. unfold set_my. simpl. by rewrite upd_ne. Qed.

Lemma ev_set_lock h lk l : hw_wf h -> hw_ev h (set_lock lk l h).
Proof. intros. split; [by apply hw_wf_set_lock|done..]. Qed.

Lemma ev_locked h : hw_wf h -> hw_ev h (locked_hw h).
Proof.
  intros. eapply ev_trans; [by apply ev_set_my, pushed_wf|]. by apply ev_set_lock, pushed_wf.
Qed.

Lemma popped_wf h : hw_wf h -> 0 < c_ncli (my h) -> hw_wf (set_my (popped (my h)) h).
Proof.
  intros Hwf Hn. assert (c_if (my h) = false) as Hif by (apply (wf_my _ Hwf); done).
  apply hw_wf_set_my; [done|..]; unfold popped; destruct (_ && _) eqn:E; bool_to_prop; simpl; try done || lia.
Qed.

Lemma ev_released h : holds h -> hw_ev h (released_hw h).
Proof.
  intros (Hwf & _ & Hn). eapply ev_trans; [by apply ev_set_my, popped_wf|]. by apply ev_set_lock, popped_wf.
Qed.

Lemma ev_same h h' : hw_wf h -> hw_same h h' -> hw_ev h h'.
Proof.
  intros Hwf Hs. split; [by eapply wf_same|apply Hs..|]. intros i _. split; by destruct (hs_cpu _ _ Hs i).
Qed.

Lemma my_released h : my (released_hw h) = popped (my h).
Proof. unfold released_hw. by rewrite my_set_lock, my_set_my. Qed.
Lemma my_locked h : my (locked_hw h) = pushed (my h).
Proof. unfold locked_hw. by rewrite my_set_lock, my_set_my. Qed.
Lemma proc_popped c : c_proc (popped c) = c_proc c.
Proof. unfold popped. by destruct (_ && _). Qed.
Lemma proc_pushed c : c_proc (pushed c) = c_proc c.
Proof. unfold pushed. by destruct (_ =? 0). Qed.
Lemma ncli_popped c : c_ncli (popped c) = c_ncli c - 1.
Proof. unfold popped. by destruct (_ && _). Qed.
Lemma proc_settled c : c_proc (settled c) = c_proc c.
Proof. unfold settled. by destruct (_ =? 0). Qed.
Lemma ncli_settled c : c_ncli (settled c) = c_ncli c.
Proof. unfold settled. by destruct (_ =? 0). Qed.

Lemma holds_same h h' : holds h -> hw_same h h' -> holds h'.
Proof.
  intros (Hwf & Hl & Hn) Hs. pose proof (hs_me _ _ Hs) as Hm. split_and!.
  - by eapply wf_same.
  - by rewrite (hs_lock _ _ Hs), Hm.
  - unfold my. rewrite Hm. destruct (hs_cpu _ _ Hs (hw_me h)) as [_ _ -> _ _]. done.
Qed.

Lemma my_same h h' : hw_same h h' ->
  c_proc (my h') = c_proc (my h) /\ c_ncli (my h') = c_ncli (my h).
Proof. intros Hs. unfold my. rewrite (hs_me _ _ Hs). by destruct (hs_cpu _ _ Hs (hw_me h)). Qed.
