(* ===== verification/Sched.v ===== *)
(** * The scheduler as a concurrent system

    Several CPUs run the scheduler loop, processes enter and leave it through
    yield, sleep, wait and exit, and any other kernel or user code runs in
    between.  [sys_step] interleaves these at the critical sections of
    ptable.lock: a CPU that finds the lock taken makes no step.  The lock is held
    across [swtch], as in the code.  [sys_inv] is the invariant of all reachable
    states. *)
From S2P Require Import Prelude Machine ProcQueue StringC Spinlock Kalloc Vm VmFrame Proc RunQueue ProcRun.

(** ** Tables *)

Definition live (st : procstate) : Prop := st = SLEEPING \/ st = RUNNABLE \/ st = RUNNING.

(** Every process that can be scheduled has a kernel stack and a page table. *)
Definition mem_ok (t : ptable) : Prop := forall i, i ∈ procs -> live (p_state (pt_proc t i)) ->
  p_kstack (pt_proc t i) <> 0 /\ p_pgdir (pt_proc t i) <> 0.

Definition good (t : ptable) : Prop := (exists qs, pt_inv t qs) /\ mem_ok t.

Definition runs (t : ptable) (i : nat) : Prop := p_state (pt_proc t i) = RUNNING.

(** No process starts or stops running. *)
Definition quiet (t t' : ptable) : Prop :=
  good t' /\ forall i, i ∈ procs -> runs t' i <-> runs t i.
(** Process [p] stops running. *)
Definition leaves (p : nat) (t t' : ptable) : Prop :=
  good t' /\ forall i, i ∈ procs -> runs t' i <-> runs t i /\ i <> p.

Lemma quiet_refl t : good t -> quiet t t.
Proof. by split. Qed.
Lemma quiet_trans t1 t2 t3 : quiet t1 t2 -> quiet t2 t3 -> quiet t1 t3.
Proof. intros [_ R1] [G2 R2]. split; [done|]. intros i Hi. by rewrite R2, R1. Qed.
Lemma quiet_leaves p t1 t2 t3 : quiet t1 t2 -> leaves p t2 t3 -> leaves p t1 t3.
Proof. intros [_ R1] [G2 R2]. split; [done|]. intros i Hi. by rewrite R2, R1. Qed.

(** Tables that agree on everything but links. *)
Lemma unlinked_mem p q : unlinked p = unlinked q ->
  p_state p = p_state q /\ p_kstack p = p_kstack q /\ p_pgdir p = p_pgdir q.
Proof.
  intros E. split_and!; [by apply (f_equal p_state) in E|by apply (f_equal p_kstack) in E|
    by apply (f_equal p_pgdir) in E].
Qed.

Lemma mem_ok_links t t' : same_but_links t t' -> mem_ok t -> mem_ok t'.
Proof.
  intros Hs Hm i Hi. destruct (unlinked_mem _ _ (Hs i)) as (-> & -> & ->). by apply Hm.
Qed.
Lemma runs_links t t' i : same_but_links t t' -> runs t' i <-> runs t i.
Proof. intros Hs. unfold runs. by destruct (unlinked_mem _ _ (Hs i)) as (-> & _). Qed.

Lemma runs_put t p q i : runs (put_proc t p q) i <-> if decide (p = i) then p_state q = RUNNING else runs t i.
Proof. unfold runs. simpl. rewrite upd_case. by case_decide. Qed.

Lemma mem_ok_put t p q : mem_ok t -> (live (p_state q) -> p_kstack q <> 0 /\ p_pgdir q <> 0) ->
  mem_ok (put_proc t p q).
Proof. intros Hm Hq i Hi. simpl. rewrite upd_case. case_decide; [done|by apply Hm]. Qed.

(** Changing a process that stays out of the queues. *)
Lemma put_quiet t p q : good t -> p_state (pt_proc t p) <> RUNNABLE -> p_state q <> RUNNABLE ->
  (p_state q = RUNNING <-> p_state (pt_proc t p) = RUNNING) ->
  p_previous q = None -> p_next q = None -> prio_ok (p_priority q) ->
  (live (p_state q) -> p_kstack q <> 0 /\ p_pgdir q <> 0) -> quiet t (put_proc t p q).
Proof.
  intros [[qs Hq] Hm] Hs Hs' Hr Hv Hn Hp Hl. split; [split|].
  - exists qs. by apply pt_inv_put.
  - by apply mem_ok_put.
  - intros i Hi. rewrite runs_put. case_decide; [by subst|done].
Qed.

(** A process that was not running becomes runnable. *)
Lemma enqueue_quiet t p q : good t -> p ∈ procs -> ~ live (p_state (pt_proc t p)) \/ p_state (pt_proc t p) = SLEEPING ->
  p_state q = RUNNABLE -> p_previous q = None -> p_next q = None -> prio_ok (p_priority q) ->
  p_kstack q <> 0 /\ p_pgdir q <> 0 ->
  exists t', enqueue p (put_proc t p q) = Ret tt t' /\ quiet t t'.
Proof.
  intros [[qs Hq] Hm] Hp Hs Hs' Hv Hn Hpr Hl.
  assert (p_state (pt_proc t p) <> RUNNABLE /\ p_state (pt_proc t p) <> RUNNING) as [Hnr Hnr'].
  { unfold live in Hs. split; intros E; rewrite E in Hs; naive_solver. }
  destruct (make_runnable t qs p q Hq Hp Hnr) as (t' & E & Hsame & Hq'); try done.
  exists t'. split; [done|]. split; [split|].
  - by eexists.
  - eapply mem_ok_links; [done|]. by apply mem_ok_put.
  - intros i Hi. rewrite (runs_links _ _ i Hsame), runs_put. case_decide; [|done]. subst i.
    unfold runs. rewrite Hs'. naive_solver.
Qed.

(** The running process becomes runnable. *)
Lemma enqueue_leaves t p q : good t -> p ∈ procs -> runs t p ->
  p_state q = RUNNABLE -> p_previous q = None -> p_next q = None -> prio_ok (p_priority q) ->
  p_kstack q <> 0 /\ p_pgdir q <> 0 ->
  exists t', enqueue p (put_proc t p q) = Ret tt t' /\ leaves p t t' /\ p_state (pt_proc t' p) = RUNNABLE.
Proof.
  intros [[qs Hq] Hm] Hp Hs Hs' Hv Hn Hpr Hl. unfold runs in Hs.
  destruct (make_runnable t qs p q Hq Hp) as (t' & E & Hsame & Hq'); try done; [congruence|].
  exists t'. split_and!; [done| |].
  - split; [split|].
    + by eexists.
    + eapply mem_ok_links; [done|]. by apply mem_ok_put.
    + intros i Hi. rewrite (runs_links _ _ i Hsame), runs_put. case_decide; [|naive_solver]. subst i.
      rewrite Hs'. naive_solver.
  - destruct (unlinked_mem _ _ (Hsame p)) as (-> & _). simpl. by rewrite upd_eq.
Qed.

Lemma put_leaves t p q : good t -> runs t p -> p_state q <> RUNNABLE -> p_state q <> RUNNING ->
  p_previous q = None -> p_next q = None -> prio_ok (p_priority q) ->
  (live (p_state q) -> p_kstack q <> 0 /\ p_pgdir q <> 0) -> leaves p t (put_proc t p q).
Proof.
  intros [[qs Hq] Hm] Hs Hs' Hs2 Hv Hn Hpr Hl. unfold runs in Hs. split; [split|].
  - exists qs. apply pt_inv_put; try done. congruence.
  - by apply mem_ok_put.
  - intros i Hi. rewrite runs_put. case_decide; [subst i|]; naive_solver.
Qed.

Lemma good_null t p : good t -> p_state (pt_proc t p) <> RUNNABLE ->
  p_previous (pt_proc t p) = None /\ p_next (pt_proc t p) = None.
Proof. intros [[qs Hq] _] Hs. by eapply pt_inv_links. Qed.
Lemma good_prio t p : good t -> p ∈ procs -> prio_ok (p_priority (pt_proc t p)).
Proof. intros [[qs Hq] _]. apply Hq. Qed.

Lemma woken_state ch p : p_state (woken ch p) = RUNNING <-> p_state p = RUNNING.
Proof.
  unfold woken, sleeps_on. destruct (bool_decide (p_state p = SLEEPING)) eqn:E; simpl; [|done].
  bool_to_prop. destruct (bool_decide _); simpl; rewrite ?E; done.
Qed.

Lemma wakeup_quiet t ch : good t -> exists t', wakeup1 ch t = Ret tt t' /\ quiet t t' /\
  forall i, p_state (pt_proc t i) <> SLEEPING -> unlinked (pt_proc t' i) = unlinked (pt_proc t i).
Proof.
  intros [[qs Hq] Hm]. destruct (wakeup1_run ch t qs Hq) as (t' & qs' & E & Hq' & _ & Hun).
  assert (forall i, p_kstack (pt_proc t' i) = p_kstack (pt_proc t i) /\
    p_pgdir (pt_proc t' i) = p_pgdir (pt_proc t i) /\
    (live (p_state (pt_proc t' i)) -> live (p_state (pt_proc t i))) /\ (runs t' i <-> runs t i)) as Hall.
  { intros i. destruct (unlinked_mem _ _ (Hun i)) as (E1 & E2 & E3). unfold runs. rewrite E1, E2, E3.
    case_decide; [|done]. rewrite woken_state. unfold woken, sleeps_on.
    destruct (bool_decide (p_state (pt_proc t i) = SLEEPING)) eqn:Eb; simpl; [|done].
    bool_to_prop. unfold live. destruct (bool_decide _); simpl; naive_solver. }
  exists t'. split_and!; [done| |].
  - split; [split; [by eexists|]|].
    + intros i Hi. destruct (Hall i) as (-> & -> & Hl & _). auto.
    + intros i Hi. apply Hall.
  - intros i Hi. rewrite Hun. case_decide; [|done]. unfold woken, sleeps_on.
    by rewrite bool_decide_eq_false_2.
Qed.

(** ** Critical sections *)

Definition free (h : hw) : Prop := lk_locked (hw_locks h Lptable) = false.

(** A whole critical section: the lock is free at the end; locks were nested [n] deep in it. *)
Record critical (n : Z) (k k' : kst) : Prop := {
  cr_ev : hw_ev (k_hw k) (k_hw k');
  cr_proc : c_proc (my (k_hw k')) = c_proc (my (k_hw k));
  cr_ncli : c_ncli (my (k_hw k')) = n - 1;
  cr_free : free (k_hw k');
  cr_quiet : quiet (k_pt k) (k_pt k');
}.

(** Process [p] left the CPU with the lock held. *)
Record gone (p : nat) (k k' : kst) : Prop := {
  lf_ev : hw_ev (k_hw k) (k_hw k');
  lf_proc : c_proc (my (k_hw k')) = Some p;
  lf_lock : hw_locks (k_hw k') Lptable = mkSpinlock true (Some (hw_me (k_hw k')));
  lf_ncli : c_ncli (my (k_hw k')) = 1;
  lf_leaves : leaves p (k_pt k) (k_pt k');
}.

(** Inside a critical section begun in [k], with locks nested [n] deep. *)
Record inside (n : Z) (k k' : kst) : Prop := {
  in_ev : hw_ev (k_hw k) (k_hw k');
  in_proc : c_proc (my (k_hw k')) = c_proc (my (k_hw k));
  in_holds : holds (k_hw k');
  in_ncli : c_ncli (my (k_hw k')) = n;
  in_quiet : quiet (k_pt k) (k_pt k');
}.

Lemma inside_start k : hw_wf (k_hw k) -> good (k_pt k) ->
  inside (c_ncli (my (k_hw k)) + 1) k (set_khw (locked_hw (k_hw k)) k).
Proof.
  intros Hwf Hg. split; change (k_hw (set_khw ?h k)) with h; rewrite ?my_locked.
  - by apply ev_locked.
  - apply proc_pushed.
  - by apply locked_holds.
  - apply pushed_ncli.
  - by apply quiet_refl.
Qed.

Lemma inside_table n k k' t : inside n k k' -> quiet (k_pt k') t -> inside n k (set_k_pt t k').
Proof. intros [E P H N Q] Ht. split; try done. by eapply quiet_trans. Qed.

Lemma inside_same n k k' v : inside n k k' -> hw_same (k_hw k') (v_hw v) -> inside n k (set_k_vm v k').
Proof.
  intros [E P H N Q] Hs. destruct (my_same _ _ Hs) as [P' N']. split; change (k_hw (set_k_vm v k')) with (v_hw v); try done.
  - eapply ev_trans; [done|]. apply ev_same; [apply H|done].
  - congruence.
  - by eapply holds_same.
  - congruence.
Qed.

Lemma inside_good n k k' : inside n k k' -> good (k_pt k').
Proof. intros Hin. apply (in_quiet _ _ _ Hin). Qed.

(** Releasing the lock ends the section. *)
Lemma inside_release n k k' : inside n k k' ->
  exists k2, on_cpu (release Lptable) k' = Ret tt k2 /\ critical n k k2 /\ k_pt k2 = k_pt k'.
Proof.
  intros [E P H N Q]. eexists. split; [by apply krelease_run|]. split; [|done].
  split; change (k_hw (set_khw ?h k')) with h.
  - eapply ev_trans; [done|]. by apply ev_released.
  - by rewrite my_released, proc_popped.
  - by rewrite my_released, ncli_popped, N.
  - done.
  - done.
Qed.

(** Entering the scheduler from inside a section. *)
Lemma inside_sched n k k' t p : inside n k k' -> c_proc (my (k_hw k)) = Some p ->
  leaves p (k_pt k') t -> p_state (pt_proc t p) <> RUNNING ->
  sched (set_k_pt t k') = (if n =? 1 then Swtch (set_k_pt t k') else Panic "sched locks") /\
  (n = 1 -> gone p k (set_k_pt t k')).
Proof.
  intros [E P H N Q] Hp Hl Hs.
  rewrite (sched_run _ p); [|done|unfold k_hw in *; simpl; congruence].
  change (k_hw (set_k_pt t k')) with (k_hw k'). rewrite N, bool_decide_eq_false_2 by done.
  split; [done|]. intros H0. split; change (k_hw (set_k_pt t k')) with (k_hw k').
  - done.
  - congruence.
  - by destruct H as (_ & Hl' & _).
  - congruence.
  - by eapply quiet_leaves.
Qed.

(** ** Runs of the operations *)

Section ops.
Context (k : kst).
Hypothesis Hwf : hw_wf (k_hw k).
Hypothesis Hfree : free (k_hw k).
Hypothesis Hgood : good (k_pt k).

Let k1 : kst := set_khw (locked_hw (k_hw k)) k.
Let n : Z := c_ncli (my (k_hw k)) + 1.
Let Hin1 : inside n k k1 := inside_start k Hwf Hgood.

Lemma wakeup_run ch : exists k', wakeup ch k = Ret tt k' /\ critical n k k' /\
  wakeup1 ch (k_pt k) = Ret tt (k_pt k').
Proof.
  unfold wakeup. step (kacquire_run k Hwf Hfree). fold k1.
  destruct (wakeup_quiet (k_pt k1) ch Hgood) as (t & E & Hq & _).
  step (on_pt_Ret _ _ _ _ E).
  destruct (inside_release n k (set_k_pt t k1)) as (k2 & E2 & Hc & Ht); [by apply inside_table|].
  exists k2. split_and!; [done..|]. by rewrite Ht.
Qed.

(** A process made runnable by [pset] and [enqueue]. *)
Lemma sleeping_runnable t p : good t -> p ∈ procs -> p_state (pt_proc t p) = SLEEPING ->
  exists t', enqueue p (put_proc t p (set_p_state RUNNABLE (pt_proc t p))) = Ret tt t' /\ quiet t t'.
Proof.
  intros Hg Hp Hs. destruct (good_null t p Hg) as [Hv Hn]; [congruence|].
  apply enqueue_quiet; try done; [by right|by apply good_prio|].
  apply (proj2 Hg); [done|]. left. done.
Qed.

Lemma kill_run pid : exists r k', kill pid k = Ret r k' /\ critical n k k'.
Proof.
  unfold kill. step (kacquire_run k Hwf Hfree). fold k1. unfold find_proc, bind at 1, gets.
  destruct (find_first _ _) as [p|] eqn:Ef.
  - apply find_first_elem in Ef as [Hp _].
    step (pset_run p (set_p_killed true) k1). set (t2 := put_proc _ _ _).
    assert (quiet (k_pt k) t2) as Hq2.
    { destruct Hgood as [[qs Hqs] Hm]. split; [split|].
      - exists qs. apply (pt_inv_fields (k_pt k)); [done|]. unfold t2.
        split; try done; intros i; simpl; rewrite upd_case; case_decide; by subst.
      - unfold t2. apply mem_ok_put; [done|]. simpl. intros Hl. by apply Hm.
      - intros i Hi. unfold t2. rewrite runs_put. case_decide; by subst. }
    step (pget_run p (set_k_pt t2 k1)).
    assert (p_state (pt_proc t2 p) = p_state (pt_proc (k_pt k) p)) as Hst by (unfold t2; simpl; by rewrite upd_eq).
    cbn [k_pt set_k_pt]. unfold when.
    destruct (bool_decide (p_state (pt_proc t2 p) = SLEEPING)) eqn:Hb; bool_to_prop.
    + destruct (sleeping_runnable t2 p) as (t3 & E3 & Hq3); [apply Hq2|done|done|].
      rewrite bind_assoc. step (pset_run p (set_p_state RUNNABLE) (set_k_pt t2 k1)).
      step (on_pt_Ret _ (set_k_pt _ (set_k_pt t2 k1)) _ _ E3).
      destruct (inside_release n k (set_k_pt t3 k1)) as (k4 & E4 & Hc & _).
      { apply inside_table; [done|]. by eapply quiet_trans. }
      step E4. by eexists 0, k4.
    + unfold bind at 1, ret at 1.
      destruct (inside_release n k (set_k_pt t2 k1)) as (k4 & E4 & Hc & _); [by apply inside_table|].
      step E4. by eexists 0, k4.
  - destruct (inside_release n k k1 Hin1) as (k4 & E4 & Hc & _). step E4. by eexists (-1), k4.
Qed.

Lemma getprio_run pid : exists r k', getprio pid k = Ret r k' /\ critical n k k' /\ k_pt k' = k_pt k.
Proof.
  unfold getprio. step (kacquire_run k Hwf Hfree). fold k1. unfold find_proc, bind at 1, gets.
  destruct (inside_release n k k1 Hin1) as (k4 & E4 & Hc & Ht).
  destruct (find_first _ _) as [p|]; step E4; [step (pget_run p k4)|]; by eexists _, k4.
Qed.

(** A process that is not queued changes its priority. *)
Lemma set_prio_quiet t p pr : good t -> p ∈ procs -> prio_ok pr -> p_state (pt_proc t p) <> RUNNABLE ->
  quiet t (put_proc t p (set_p_priority pr (pt_proc t p))).
Proof.
  intros Hg Hp Hpr Hs. destruct (good_null t p Hg Hs) as [Hv Hn].
  apply put_quiet; try done. intros Hl. by apply (proj2 Hg).
Qed.

(** A queued process moves to the queue of another priority. *)
Lemma requeue_quiet t p pr : good t -> p ∈ procs -> prio_ok pr -> p_state (pt_proc t p) = RUNNABLE ->
  exists t1 t2, dequeue p t = Ret tt t1 /\
    enqueue p (put_proc t1 p (set_p_priority pr (pt_proc t1 p))) = Ret tt t2 /\ quiet t t2.
Proof.
  intros [[qs Hq] Hm] Hp Hpr Hs.
  destruct (list_elem_of_split _ _ (pi_runnable _ _ Hq p Hp Hs)) as (l1 & l2 & Hl).
  destruct (but_dequeue t qs p RUNNABLE l1 l2 Hq Hl) as (t1 & E1 & Hsame1 & Hb1).
  replace (put_proc t p _) with t in *.
  2: { unfold put_proc. rewrite upd_id; [by destruct t|]. destruct (pt_proc t p); simpl in *; by subst. }
  destruct (but_null _ _ _ Hb1) as [Hv Hn].
  destruct (unlinked_mem _ _ (Hsame1 p)) as (Hst1 & Hk1 & Hd1).
  set (q := set_p_priority pr (pt_proc t1 p)).
  destruct (but_enqueue (put_proc t1 p q) (upd qs (p_priority (pt_proc t p)) (l1 ++ l2)) p)
    as (t2 & E2 & Hsame2 & Hq2).
  - by apply but_put.
  - done.
  - simpl. rewrite upd_eq. simpl. by rewrite Hst1.
  - exists t1, t2. split_and!; [done..|]. split; [split|].
    + by eexists.
    + eapply mem_ok_links; [done|]. apply mem_ok_put; [by eapply mem_ok_links|]. simpl.
      rewrite Hst1, Hk1, Hd1. intros Hlv. by apply Hm.
    + intros i Hi. rewrite (runs_links _ _ i Hsame2), runs_put. case_decide.
      * subst i. simpl. unfold runs. by rewrite Hst1.
      * by apply runs_links.
Qed.

Lemma setprio_run pid pr : prio_ok pr -> exists r k', setprio pid pr k = Ret r k' /\ critical n k k'.
Proof.
  intros Hpr. unfold setprio.
  replace (negb (pr =? HI_PRIO) && negb (pr =? NORM_PRIO)) with false by (by destruct Hpr as [-> | ->]).
  step (kacquire_run k Hwf Hfree). fold k1. unfold find_proc, bind at 1, gets.
  destruct (find_first _ _) as [p|] eqn:Ef.
  2: { destruct (inside_release n k k1 Hin1) as (k4 & E4 & Hc & _). step E4. by eexists (-1), k4. }
  apply find_first_elem in Ef as [Hp _]. step (pget_run p k1).
  set (m := when _ _). assert (exists t, m k1 = Ret tt (set_k_pt t k1) /\ quiet (k_pt k1) t) as (t & E & Hq).
  { unfold m, when. destruct (negb _).
    - destruct (bool_decide _) eqn:Hb; bool_to_prop.
      + destruct (requeue_quiet (k_pt k1) p pr) as (t1 & t2 & E1 & E2 & Hq); [done..|].
        exists t2. split; [|done]. step (on_pt_Ret _ k1 _ _ E1). step (pset_run p (set_p_priority pr) (set_k_pt t1 k1)).
        exact (on_pt_Ret (enqueue p) (set_k_pt _ (set_k_pt t1 k1)) tt t2 E2).
      + eexists. split; [apply pset_run|]. by apply set_prio_quiet.
    - exists (k_pt k1). split; [by destruct k|by apply quiet_refl]. }
  step E. destruct (inside_release n k (set_k_pt t k1)) as (k4 & E4 & Hc & _); [by apply inside_table|].
  step E4. by eexists 0, k4.
Qed.

Lemma claim_quiet t p pid : good t -> p ∈ procs -> p_state (pt_proc t p) = UNUSED ->
  quiet t (put_proc t p (set_p_pid pid (set_p_state EMBRYO (pt_proc t p)))).
Proof.
  intros Hg Hp Hs. destruct (good_null t p Hg) as [Hv Hn]; [congruence|].
  apply put_quiet; simpl; try done; rewrite ?Hs; try done; [by apply good_prio|].
  intros [?|[?|?]]; done.
Qed.

Lemma put_put t p q q' : put_proc (put_proc t p q) p q' = put_proc t p q'.
Proof. unfold put_proc. simpl. by rewrite upd_upd. Qed.

Lemma alloc_claim_run : exists r k', alloc_claim k = Ret r k' /\ critical n k k' /\
  forall p, r = Some p -> p ∈ procs /\ p_state (pt_proc (k_pt k) p) = UNUSED /\
    k_pt k' = put_proc (k_pt k) p (set_p_pid (k_nextpid k) (set_p_state EMBRYO (pt_proc (k_pt k) p))) /\
    k_nextpid k' = s32 (k_nextpid k + 1).
Proof.
  unfold alloc_claim. step (kacquire_run k Hwf Hfree). fold k1. unfold find_proc, bind at 1, gets at 1.
  destruct (find_first _ _) as [p|] eqn:Ef.
  2: { destruct (inside_release n k k1 Hin1) as (k4 & E4 & Hc & _). step E4. by eexists None, k4. }
  apply find_first_elem in Ef as [Hp Hs]. bool_to_prop. simpl in Hs.
  step (pset_run p (set_p_state EMBRYO) k1). unfold bind at 1, gets.
  step (pset_run p (set_p_pid (k_nextpid k)) (set_k_pt (put_proc (k_pt k1) p (set_p_state EMBRYO (pt_proc (k_pt k1) p))) k1)).
  unfold bind at 1, modify. cbn [k_pt set_k_pt set_k_nextpid]. rewrite put_put.
  simpl pt_proc. rewrite upd_eq.
  set (t := put_proc (k_pt k) p (set_p_pid (k_nextpid k) (set_p_state EMBRYO (pt_proc (k_pt k) p)))).
  set (k2 := set_k_nextpid (s32 (k_nextpid k + 1)) (set_k_pt t k1)).
  match goal with |- context [(on_cpu (release Lptable) ;;; _) ?s] => change s with k2 end.
  assert (inside n k k2) as Hin2.
  { destruct (inside_table n k k1 t Hin1) as [E P Hh N Q]; [by apply claim_quiet|]. by split. }
  destruct (inside_release n k k2 Hin2) as (k4 & E4 & Hc & Ht). step E4.
  eexists (Some p), k4. split_and!; [done|done|]. intros q [= <-]. split_and!; [done|done|done|].
  rewrite krelease_run in E4 by apply Hin2. by injection E4 as <-.
Qed.

(** The end of userinit. *)
Lemma init_publish_run p : p ∈ procs -> p_state (pt_proc (k_pt k) p) = EMBRYO ->
  p_kstack (pt_proc (k_pt k) p) <> 0 -> p_pgdir (pt_proc (k_pt k) p) <> 0 ->
  exists k', init_publish p k = Ret tt k' /\ critical n k k'.
Proof.
  intros Hp Hs Hk Hd. unfold init_publish. step (kacquire_run k Hwf Hfree). fold k1.
  do 4 (rewrite (bind_Ret (pset _ _) _ _ _ _ (pset_run _ _ _))). cbn [k_pt set_k_pt]. rewrite !put_put.
  simpl pt_proc. rewrite !upd_eq. set (q := set_p_next _ _).
  destruct (enqueue_quiet (k_pt k) p q Hgood Hp) as (t & E & Hq); try done.
  { left. rewrite Hs. intros [?|[?|?]]; done. }
  { by right. }
  step (on_pt_Ret (enqueue p) (set_k_pt (put_proc (k_pt k) p q) k1) tt t E).
  destruct (inside_release n k (set_k_pt t k1)) as (k4 & E4 & Hc & _); [by apply inside_table|].
  by exists k4.
Qed.

(** The end of fork: the child gets the priority of its parent. *)
Lemma fork_publish_run p q : p ∈ procs -> p_state (pt_proc (k_pt k) p) = EMBRYO ->
  p_kstack (pt_proc (k_pt k) p) <> 0 -> p_pgdir (pt_proc (k_pt k) p) <> 0 ->
  p_parent (pt_proc (k_pt k) p) = Some q -> q ∈ procs -> q <> p ->
  exists k', fork_publish p k = Ret tt k' /\ critical n k k'.
Proof.
  intros Hp Hs Hk Hd Hpa Hq Hqp. unfold fork_publish. step (kacquire_run k Hwf Hfree). fold k1.
  step (pset_run p (set_p_state RUNNABLE) k1). set (k2 := set_k_pt _ k1).
  step (pget_run p k2). simpl. rewrite upd_eq. simpl. rewrite Hpa. simpl.
  rewrite bind_assoc. step (pget_run q k2).
  rewrite (bind_Ret (pset _ _) _ _ _ _ (pset_run _ _ _)). unfold k2. cbn [k_pt set_k_pt]. rewrite put_put.
  simpl pt_proc. rewrite upd_eq, upd_ne by done. set (np := set_p_priority _ _).
  destruct (good_null (k_pt k) p Hgood) as [Hv Hn]; [congruence|].
  destruct (enqueue_quiet (k_pt k) p np Hgood Hp) as (t & E & Hqt); try done.
  { left. rewrite Hs. intros [?|[?|?]]; done. }
  { by apply good_prio. }
  step (on_pt_Ret (enqueue p) (set_k_pt (put_proc (k_pt k) p np) k1) tt t E).
  destruct (inside_release n k (set_k_pt t k1)) as (k4 & E4 & Hc & _); [by apply inside_table|].
  by exists k4.
Qed.

(** ** Leaving the CPU *)

Context (p : nat).
Hypothesis Hcur : c_proc (my (k_hw k)) = Some p.
Hypothesis Hp : p ∈ procs.
Hypothesis Hrun : runs (k_pt k) p.

Lemma cur_fields t : quiet (k_pt k) t ->
  p_previous (pt_proc t p) = None /\ p_next (pt_proc t p) = None /\
  prio_ok (p_priority (pt_proc t p)) /\ p_kstack (pt_proc t p) <> 0 /\ p_pgdir (pt_proc t p) <> 0 /\ runs t p.
Proof.
  intros [Hg Hr]. assert (runs t p) as Hr' by by apply Hr. unfold runs in Hr'.
  destruct (good_null t p Hg) as [Hv Hn]; [congruence|].
  destruct (proj2 Hg p Hp); [by right; right|]. split_and!; try done. by apply good_prio.
Qed.

(** [yield] leaves the CPU with the process at the end of its queue, provided no
    other lock is held. *)
Lemma yield_run : exists k', yield k = (if n =? 1 then Swtch k' else Panic "sched locks") /\
  (n = 1 -> gone p k k' /\ p_state (pt_proc (k_pt k') p) = RUNNABLE).
Proof.
  unfold yield. step (kacquire_run k Hwf Hfree). fold k1.
  assert (forall k', k_hw k' = k_hw k1 -> myproc k' = Ret (Some p) k') as Hmy.
  { intros k' Hk'. rewrite <- Hcur, <- (in_proc _ _ _ Hin1), <- Hk'. destruct (in_holds _ _ _ Hin1) as (? & ? & ?).
    apply myproc_locked; by rewrite Hk'. }
  step (Hmy k1 eq_refl). simpl. step (pset_run p (set_p_state RUNNABLE) k1). set (k2 := set_k_pt _ k1).
  step (Hmy k2 eq_refl). simpl.
  destruct (cur_fields (k_pt k)) as (Hv & Hn & Hpr & Hk & Hd & _); [by apply quiet_refl|].
  destruct (enqueue_leaves (k_pt k) p (set_p_state RUNNABLE (pt_proc (k_pt k) p)) Hgood Hp Hrun)
    as (t & E & Hl & Hst); try done.
  rewrite (bind_Ret (on_pt (enqueue p)) _ k2 tt (set_k_pt t k1)) by exact (on_pt_Ret (enqueue p) k2 tt t E).
  destruct (inside_sched n k k1 t p Hin1 Hcur Hl) as [Es Hleft]; [congruence|].
  exists (set_k_pt t k1). split; [|by auto]. unfold bind. rewrite Es. by destruct (n =? 1).
Qed.
End ops.

(** [sleep] on a lock other than ptable.lock: it holds both locks for a moment,
    then ptable.lock only. *)
Section sleep.
Context (k : kst) (p : nat) (lk : lockid) (ch : option chan).
Hypothesis Hwf : hw_wf (k_hw k).
Hypothesis Hfree : free (k_hw k).
Hypothesis Hgood : good (k_pt k).
Hypothesis Hcur : c_proc (my (k_hw k)) = Some p.
Hypothesis Hp : p ∈ procs.
Hypothesis Hrun : runs (k_pt k) p.
Hypothesis Hlk : lk <> Lptable.
Hypothesis Hheld : hw_locks (k_hw k) lk = mkSpinlock true (Some (hw_me (k_hw k))).
Hypothesis Hn : 0 < c_ncli (my (k_hw k)).

Lemma both_locks : exists k2, (on_cpu (acquire Lptable) ;;; on_cpu (release lk)) k = Ret tt k2 /\
  inside (c_ncli (my (k_hw k))) k k2 /\ k_pt k2 = k_pt k.
Proof.
  step (kacquire_run k Hwf Hfree). set (h := k_hw k) in *.
  destruct (locked_holds h Hwf) as (Hwf1 & Hl1 & Hn1).
  assert (release lk (locked_hw h) = Ret tt (set_lock lk lock0 (set_my (popped (my (locked_hw h))) (locked_hw h)))) as E.
  { apply release_run; [done| |done]. unfold locked_hw, set_lock. simpl. by rewrite upd_ne. }
  eexists. split; [by apply (on_cpu_Ret _ (set_khw (locked_hw h) k))|]. split; [|done].
  split; change (k_hw (set_khw ?h _)) with h.
  - eapply ev_trans; [by apply ev_locked|]. eapply ev_trans; [by apply ev_set_my, popped_wf|].
    by apply ev_set_lock, popped_wf.
  - by rewrite my_set_lock, my_set_my, proc_popped, my_locked, proc_pushed.
  - split_and!.
    + by apply hw_wf_set_lock, popped_wf.
    + unfold set_lock at 1. simpl. by rewrite upd_ne.
    + rewrite my_set_lock, my_set_my, ncli_popped, my_locked, pushed_ncli. lia.
  - rewrite my_set_lock, my_set_my, ncli_popped, my_locked, pushed_ncli. unfold h. lia.
  - by apply quiet_refl.
Qed.

Lemma sleep_run : exists k',
  sleep ch (Some lk) k = (if c_ncli (my (k_hw k)) =? 1 then Swtch k' else Panic "sched locks") /\
  (c_ncli (my (k_hw k)) = 1 -> gone p k k' /\
     p_state (pt_proc (k_pt k') p) = SLEEPING /\ p_chan (pt_proc (k_pt k') p) = ch /\
     forall i, i <> p -> pt_proc (k_pt k') i = pt_proc (k_pt k) i).
Proof.
  unfold sleep. step (myproc_locked k Hwf Hn). rewrite Hcur, bool_decide_eq_false_2 by done. unfold when at 1.
  cbn [negb]. destruct both_locks as (k2 & E2 & Hin2 & Ht2). step E2.
  do 2 (rewrite (bind_Ret (pset _ _) _ _ _ _ (pset_run _ _ _))). cbn [k_pt set_k_pt]. rewrite put_put.
  simpl pt_proc. rewrite upd_eq, Ht2. set (q := set_p_state SLEEPING _).
  destruct (cur_fields k p Hp Hrun (k_pt k)) as (Hv & Hnx & Hpr & Hk & Hd & _); [by apply quiet_refl|].
  assert (leaves p (k_pt k) (put_proc (k_pt k) p q)) as Hl by by apply put_leaves.
  rewrite <- Ht2 in Hl at 1.
  destruct (inside_sched _ k k2 _ p Hin2 Hcur Hl) as [Es Hleft]; [simpl; by rewrite upd_eq|].
  exists (set_k_pt (put_proc (k_pt k) p q) k2).
  split; [|intros H1; split_and!; [by auto|..]].
  - unfold bind at 1.
    change (set_k_pt ?a (set_k_pt ?b k2)) with (set_k_pt a k2). rewrite Es. by destruct (_ =? 1).
  - simpl. by rewrite upd_eq.
  - simpl. by rewrite upd_eq.
  - intros i Hi. simpl. by rewrite upd_ne.
Qed.
End sleep.

(** ** The scheduler loop *)

(** Changes of this CPU's record that scheduling does not look at. *)
Record cpu_minor (c c' : cpu) : Prop := {
  cm_apicid : c_apicid c' = c_apicid c;
  cm_proc : c_proc c' = c_proc c;
  cm_ncli : c_ncli c' = c_ncli c;
  cm_if : c_if c' = c_if c;
  cm_intena : c_intena c' = c_intena c;
}.

Lemma pop_push_inner c c' : 0 < c_ncli c -> c_if c = false -> cpu_minor (pushed c) c' -> cpu_minor c (popped c').
Proof.
  intros Hn Hif [Ha Hp Hnc Hi Hin]. unfold pushed, popped in *.
  rewrite (proj2 (Z.eqb_neq (c_ncli c) 0)) in * by lia. simpl in *. rewrite Hnc.
  rewrite (proj2 (Z.eqb_neq (c_ncli c + 1 - 1) 0)) by lia. simpl.
  split; simpl; try congruence. lia.
Qed.

Lemma switchuvm_run ts s p : hw_wf (v_hw s) -> 0 < c_ncli (my (v_hw s)) -> p_kstack p <> 0 -> p_pgdir p <> 0 ->
  exists c', switchuvm ts (Some p) s = Ret tt (set_v_hw (set_my c' (v_hw s)) s) /\ cpu_minor (my (v_hw s)) c'.
Proof.
  intros Hwf Hn Hk Hd. unfold switchuvm. rewrite (proj2 (Z.eqb_neq _ _) Hk), (proj2 (Z.eqb_neq _ _) Hd).
  set (h := v_hw s) in *. assert (c_if (my h) = false) as Hif by (apply (wf_my _ Hwf); done).
  pose proof (pushed_wf h Hwf) as Hwf1.
  assert (exists c1, (upd_cpu (hw_me h) (fun k => set_c_gdt (upd (c_gdt k) (Z.to_nat SEG_TSS)
        (SEG16 STS_T32A (ts (hw_me h)) 103 0)) k) ;;;
      upd_cpu (hw_me h) (fun k => set_c_gdt (upd (c_gdt k) (Z.to_nat SEG_TSS)
        (set_sd_s 0 (c_gdt k (Z.to_nat SEG_TSS)))) k) ;;;
      upd_cpu (hw_me h) (set_c_ts_ss0 (Z.shiftl SEG_KDATA 3)) ;;;
      upd_cpu (hw_me h) (set_c_ts_esp0 (u32 (p_kstack p + KSTACKSIZE))) ;;;
      upd_cpu (hw_me h) (set_c_ts_iomb 0xFFFF) ;;;
      ltr (Z.shiftl SEG_TSS 3) ;;;
      lcr3 (V2P (p_pgdir p)) ;;;
      popcli) (set_my (pushed (my h)) h) = popcli (set_my c1 h) /\ cpu_minor (pushed (my h)) c1) as (c1 & E & Hc1).
  { unfold ltr, lcr3, upd_cpu, bind, modify, set_my. simpl.
    rewrite !upd_upd, !upd_eq. eexists. split; [done|]. done. }
  exists (popped c1). split; [|by apply pop_push_inner].
  apply on_hw_Ret. fold h. step (pushcli_run h Hwf).
  rewrite (bind_Ret mycpu _ _ (hw_me h) (set_my (pushed (my h)) h)).
  2: { rewrite mycpu_run; [done|done|]. rewrite my_set_my. apply pushed_if. }
  rewrite E, popcli_run.
  - by rewrite my_set_my, set_my_set_my.
  - destruct Hc1 as [Ha _ Hnc Hi _]. rewrite <- (set_my_set_my c1 (pushed (my h))).
    destruct (wf_my _ Hwf1) as [H1 H2]. rewrite my_set_my in H1, H2.
    apply hw_wf_set_my; rewrite ?my_set_my, ?Hnc, ?Hi; done.
  - rewrite my_set_my. destruct Hc1 as [_ _ -> _ _]. rewrite pushed_ncli. lia.
Qed.

(** Process [p] was chosen: it runs on this CPU, which holds the lock. *)
Record entered (p : nat) (k k' : kst) : Prop := {
  en_ev : hw_ev (k_hw k) (k_hw k');
  en_proc : c_proc (my (k_hw k')) = Some p;
  en_lock : hw_locks (k_hw k') Lptable = mkSpinlock true (Some (hw_me (k_hw k')));
  en_ncli : c_ncli (my (k_hw k')) = 1;
  en_in : p ∈ procs;
  en_runnable : p_state (pt_proc (k_pt k) p) = RUNNABLE;
  en_good : good (k_pt k');
  en_runs i : i ∈ procs -> runs (k_pt k') i <-> runs (k_pt k) i \/ i = p;
}.

(** The processes in the order the scheduler takes them. *)
Definition order (qs : Z -> list nat) : list nat := qs HI_PRIO ++ qs NORM_PRIO.

Lemma queue_head t qs pr : pt_inv t qs -> pt_queue t pr = head (qs pr).
Proof.
  intros Hq. pose proof (queued_ring _ _ (pi_queued _ _ Hq) pr) as Hr.
  destruct (qs pr); simpl in *; naive_solver.
Qed.

(** Taking the first process of its queue. *)
Lemma take_head t qs p r : good t -> pt_inv t qs -> qs (p_priority (pt_proc t p)) = p :: r ->
  exists t', dequeue p (put_proc t p (set_p_state RUNNING (pt_proc t p))) = Ret tt t' /\
    pt_inv t' (upd qs (p_priority (pt_proc t p)) r) /\ good t' /\
    (forall i, runs t' i <-> runs t i \/ i = p) /\
    forall i, unlinked (pt_proc t' i) =
      unlinked (if decide (i = p) then set_p_state RUNNING (pt_proc t p) else pt_proc t i).
Proof.
  intros [_ Hm] Hq Hqs. destruct (but_dequeue t qs p RUNNING [] r Hq Hqs) as (t' & E & Hsame & Hb).
  destruct (pi_elem _ _ Hq (p_priority (pt_proc t p)) p) as [Hp Hrn]; [rewrite Hqs; left|].
  assert (runs t' p) as Hr.
  { apply (runs_links _ _ _ Hsame), runs_put. by rewrite decide_True. }
  assert (pt_inv t' (upd qs (p_priority (pt_proc t p)) r)) as Hq'.
  { apply (pt_inv_close _ _ p Hb). unfold runs in Hr. congruence. }
  exists t'. split_and!; [done|done| | |].
  - split; [by eexists|]. eapply mem_ok_links; [done|]. apply mem_ok_put; [done|].
    intros _. apply Hm; [done|]. by right; left.
  - intros i. rewrite (runs_links _ _ i Hsame), runs_put. case_decide; [subst i; naive_solver|]. naive_solver.
  - intros i. rewrite Hsame. simpl. rewrite upd_case. repeat case_decide; congruence.
Qed.

(** The process the scheduler picks is the first one in order. *)
Lemma order_head qs p :
  match head (qs HI_PRIO) with Some _ => head (qs HI_PRIO) | None => head (qs NORM_PRIO) end = Some p ->
  exists pr r, qs pr = p :: r /\ order qs = p :: order (upd qs pr r).
Proof.
  unfold order. destruct (qs HI_PRIO) as [|x r] eqn:Eh; simpl; intros Ep.
  - destruct (qs NORM_PRIO) as [|x r] eqn:En; simplify_eq/=. exists NORM_PRIO, r.
    rewrite upd_eq, upd_ne by done. by rewrite Eh.
  - simplify_eq. exists HI_PRIO, r. by rewrite upd_eq, upd_ne.
Qed.

Section turn.
Context (k : kst) (ts : nat -> Z) (qs : Z -> list nat).
Hypothesis Hwf : hw_wf (k_hw k).
Hypothesis Hfree : free (k_hw k).
Hypothesis Hgood : good (k_pt k).
Hypothesis Hq : pt_inv (k_pt k) qs.
Hypothesis Hn : c_ncli (my (k_hw k)) = 0.

Let c := hw_me (k_hw k).

(** The scheduler idles when no process is runnable; otherwise it switches to the
    first process of the highest nonempty priority. *)
Lemma turn_run :
  match order qs with
  | [] => exists k', scheduler_turn ts c k = Ret tt k' /\ critical 1 k k'
  | p :: r => exists k' qs', scheduler_turn ts c k = Swtch k' /\ entered p k k' /\
      pt_inv (k_pt k') qs' /\ order qs' = r /\
      (forall i, unlinked (pt_proc (k_pt k') i) =
         unlinked (if decide (i = p) then set_p_state RUNNING (pt_proc (k_pt k) p) else pt_proc (k_pt k) i))
  end.
Proof.
  set (h := k_hw k) in *.
  set (h0 := set_my (set_c_if true (my h)) h).
  assert (hw_wf h0) as Hwf0.
  { apply hw_wf_set_my; simpl; try done; lia. }
  set (k0 := set_khw h0 k).
  assert (on_cpu sti k = Ret tt k0) as E0 by done.
  assert (hw_ev h h0) as Hev0 by by apply ev_set_my.
  unfold scheduler_turn. step E0. step (kacquire_run k0 Hwf0 Hfree).
  pose proof (inside_start k0 Hwf0 Hgood) as Hin.
  set (k1 := set_khw (locked_hw (k_hw k0)) k0) in *.
  rewrite (bind_Ret (gets _) _ k1 _ _ eq_refl), (bind_Ret (gets _) _ k1 _ _ eq_refl).
  change (k_pt k1) with (k_pt k). rewrite !(queue_head _ qs) by done. unfold order.
  assert (c_ncli (my h0) = 0) as Hn0 by (unfold h0; by rewrite my_set_my).
  destruct (match head (qs HI_PRIO) with Some _ => head (qs HI_PRIO) | None => head (qs NORM_PRIO) end) as [p|] eqn:Ep.
  - destruct (order_head qs p Ep) as (pr & r & Hpr & Hord). unfold order at 1 in Hord. rewrite Hord. clear Hord.
    assert (p_priority (pt_proc (k_pt k) p) = pr) as Hprio.
    { apply (queued_prio _ _ (pi_queued _ _ Hq)). rewrite Hpr. left. }
    destruct (pi_elem _ _ Hq pr p) as [Hp Hrn]; [rewrite Hpr; left|].
    destruct (proj2 Hgood p Hp) as [Hks Hpd]; [right; by left|].
    set (h1 := k_hw k1) in *. set (c2 := set_c_proc (Some p) (my h1)).
    rewrite (bind_Ret (on_cpu _) _ k1 tt (set_khw (set_my c2 h1) k1)) by done.
    step (pget_run p (set_khw (set_my c2 h1) k1)).
    destruct (in_holds _ _ _ Hin) as (Hwf1 & Hl1 & Hn1). fold h1 in Hwf1, Hl1, Hn1.
    assert (hw_wf (set_my c2 h1)) as Hwf2 by (apply hw_wf_set_my; try done; apply (wf_my _ Hwf1)).
    destruct (switchuvm_run ts (k_vm (set_khw (set_my c2 h1) k1)) (pt_proc (k_pt k) p)) as (c3 & E3 & Hc3); simpl; try done.
    { by rewrite my_set_my. }
    simpl in E3, Hc3. rewrite my_set_my in Hc3. rewrite set_my_set_my in E3.
    rewrite (bind_Ret _ _ _ _ _ (on_vm_Ret _ (set_khw (set_my c2 h1) k1) _ _ E3)).
    change (set_k_vm _ (set_khw _ k1)) with (set_khw (set_my c3 h1) k1).
    step (pset_run p (set_p_state RUNNING) (set_khw (set_my c3 h1) k1)).
    destruct (take_head (k_pt k) qs p r Hgood Hq) as (t & Et & Hq' & Hg' & Hr' & Hu'); [by rewrite Hprio|].
    rewrite (bind_Ret (on_pt (dequeue p)) _ _ tt (set_k_pt t (set_khw (set_my c3 h1) k1)))
      by exact (on_pt_Ret (dequeue p) (set_k_pt _ (set_khw (set_my c3 h1) k1)) tt t Et).
    eexists _, (upd qs pr r). split; [done|]. split_and!; [|by rewrite Hprio in Hq'|done|done].
    destruct Hc3 as [Ha3 Hp3 Hn3 Hi3 _].
    assert (hw_wf (set_my c3 h1)) as Hwf3.
    { apply hw_wf_set_my; try done; rewrite Hn3; simpl; [lia|]. rewrite Hi3. apply (wf_my _ Hwf1). }
    split; simpl; change (k_hw (set_k_pt t (set_khw ?h k1))) with h; rewrite ?my_set_my; try done.
    + eapply ev_trans; [done|]. eapply ev_trans; [apply Hin|]. by apply ev_set_my.
    + rewrite Hn3. unfold c2. simpl. unfold h1. rewrite (in_ncli _ _ _ Hin).
      change (k_hw k0) with h0. lia.
  - assert (qs HI_PRIO = [] /\ qs NORM_PRIO = []) as [-> ->].
    { destruct (qs HI_PRIO), (qs NORM_PRIO); done. }
    simpl. destruct (inside_release _ k0 k1 Hin) as (k2 & E2 & [C1 C2 C3 C4 C5] & _). exists k2. split; [done|].
    change (k_hw k0) with h0 in *. split; [by eapply ev_trans|rewrite C2; unfold h0; by rewrite my_set_my|lia|done|done].
Qed.
End turn.

(** Back in the scheduler. *)
Record returned (k k' : kst) : Prop := {
  rt_ev : hw_ev (k_hw k) (k_hw k');
  rt_proc : c_proc (my (k_hw k')) = None;
  rt_ncli : c_ncli (my (k_hw k')) = c_ncli (my (k_hw k)) - 1;
  rt_free : free (k_hw k');
  rt_table : k_pt k' = k_pt k;
}.

Lemma upd_me f h : upd_cpu (hw_me h) f h = Ret tt (set_my (f (my h)) h).
Proof. done. Qed.

Lemma return_run k : holds (k_hw k) ->
  exists k', scheduler_return (hw_me (k_hw k)) k = Ret tt k' /\ returned k k'.
Proof.
  intros Hh. unfold scheduler_return. set (h := k_hw k) in *.
  set (c1 := set_c_cr3 (V2P (v_kpgdir (k_vm k))) (my h)).
  set (c2 := set_c_proc None c1).
  rewrite (bind_Ret (on_vm switchkvm) _ k tt (set_khw (set_my c1 h) k)) by done.
  assert (holds (set_my c2 h)) as Hh2.
  { destruct Hh as (Hwf & Hl & Hn). split_and!; [|done|by rewrite my_set_my].
    apply hw_wf_set_my; try done; apply (wf_my _ Hwf). }
  rewrite (bind_Ret (on_cpu _) _ _ tt (set_khw (set_my c2 h) k)).
  2: { pose proof (on_cpu_Ret _ (set_khw (set_my c1 h) k) _ _ (upd_me (set_c_proc None) (set_my c1 h))) as E.
       by rewrite my_set_my, set_my_set_my in E. }
  eexists. split; [by apply krelease_run|].
  split; change (k_hw (set_khw ?h _)) with h; try done.
  - eapply ev_trans; [apply ev_set_my, Hh2|]. by apply ev_released.
  - rewrite my_released, proc_popped. change (k_hw (set_khw ?h _)) with h. by rewrite my_set_my.
  - rewrite my_released, ncli_popped. change (k_hw (set_khw ?h _)) with h. by rewrite my_set_my.
Qed.

(** ** Resuming *)

Lemma inside_self k : holds (k_hw k) -> good (k_pt k) -> inside (c_ncli (my (k_hw k))) k k.
Proof. intros Hh Hg. split; [apply ev_refl, Hh|done|done|done|by apply quiet_refl]. Qed.

Lemma inside_my n k k' c : inside n k k' -> cpu_same (my (k_hw k')) c ->
  inside n k (set_khw (set_my c (k_hw k')) k').
Proof. intros Hin Hc. apply inside_same; [done|]. by apply set_my_same. Qed.

Lemma sched_resume_run k i : holds (k_hw k) ->
  sched_resume i k = Ret tt (set_khw (set_my (set_c_intena i (my (k_hw k))) (k_hw k)) k).
Proof.
  intros (Hwf & Hl & Hn). apply on_cpu_Ret.
  assert (c_if (my (k_hw k)) = false) as Hif by (apply (wf_my _ Hwf); done).
  by rewrite (bind_Ret _ _ _ _ _ (mycpu_run _ Hwf Hif)).
Qed.

Lemma resume_inside k i : holds (k_hw k) -> good (k_pt k) ->
  exists k1, sched_resume i k = Ret tt k1 /\ inside (c_ncli (my (k_hw k))) k k1 /\ k_pt k1 = k_pt k.
Proof.
  intros Hh Hg. eexists. split; [by apply sched_resume_run|]. split; [|done].
  apply inside_my; [by apply inside_self|done].
Qed.

Lemma yield_resume_run k i : holds (k_hw k) -> good (k_pt k) ->
  exists k', yield_resume i k = Ret tt k' /\ critical (c_ncli (my (k_hw k))) k k'.
Proof.
  intros Hh Hg. destruct (resume_inside k i Hh Hg) as (k1 & E1 & Hin & _).
  destruct (inside_release _ _ _ Hin) as (k2 & E2 & Hc & _). exists k2. split; [|done].
  unfold yield_resume. by step E1.
Qed.

Lemma forkret_release_run k : holds (k_hw k) -> good (k_pt k) ->
  exists k', on_cpu (release Lptable) k = Ret tt k' /\ critical (c_ncli (my (k_hw k))) k k'.
Proof.
  intros Hh Hg. destruct (inside_release _ _ _ (inside_self k Hh Hg)) as (k2 & E2 & Hc & _). eauto.
Qed.

(** A change of fields the scheduler does not use. *)
Record minor (p q : proc) : Prop := {
  mi_state : p_state q = p_state p;
  mi_prio : p_priority q = p_priority p;
  mi_prev : p_previous q = p_previous p;
  mi_next : p_next q = p_next p;
  mi_kstack : p_kstack q = p_kstack p;
  mi_pgdir : p_pgdir q = p_pgdir p;
}.
Definition tab_minor (t t' : ptable) : Prop :=
  (forall pr, pt_queue t' pr = pt_queue t pr) /\ forall i, minor (pt_proc t i) (pt_proc t' i).

Lemma tab_minor_quiet t t' : good t -> tab_minor t t' -> quiet t t'.
Proof.
  intros [[qs Hq] Hm] [Hqu Hmi]. split; [split|].
  - exists qs. apply (pt_inv_fields t); [done|]. split; try done; intros i; apply Hmi.
  - intros i Hi. destruct (Hmi i) as [-> _ _ _ -> ->]. by apply Hm.
  - intros i Hi. unfold runs. by destruct (Hmi i) as [-> _ _ _ _ _].
Qed.

Lemma put_minor t p q : minor (pt_proc t p) q -> tab_minor t (put_proc t p q).
Proof. intros Hq. split; [done|]. intros i. simpl. rewrite upd_case. case_decide; by subst. Qed.

Lemma sleep_tidy_run k p i : holds (k_hw k) -> good (k_pt k) ->
  exists k1, sleep_tidy p i k = Ret tt k1 /\ inside (c_ncli (my (k_hw k))) k k1.
Proof.
  intros Hh Hg. destruct (resume_inside k i Hh Hg) as (k1 & E1 & Hin & Ht).
  unfold sleep_tidy. step E1. eexists. split; [apply pset_run|].
  apply inside_table; [done|]. apply tab_minor_quiet; [by rewrite Ht|]. by apply put_minor.
Qed.

Lemma sleep_resume_run k p i : holds (k_hw k) -> good (k_pt k) ->
  exists k', (sleep_tidy p i ;;; on_cpu (release Lptable)) k = Ret tt k' /\ critical (c_ncli (my (k_hw k))) k k'.
Proof.
  intros Hh Hg. destruct (sleep_tidy_run k p i Hh Hg) as (k1 & E1 & Hin).
  destruct (inside_release _ _ _ Hin) as (k2 & E2 & Hc & _). exists k2. split; [|done]. by step E1.
Qed.

(** ** wait and exit *)

(** Memory management inside a critical section. *)
Lemma inside_vm {A} n k k' (m : M vmst A) : inside n k k' -> (forall h, keeps (like h) m) ->
  wp (on_vm m k') (fun _ k2 => inside n k k2 /\ k_pt k2 = k_pt k') (fun _ => False).
Proof.
  intros Hin Hm. assert (like (k_hw k') (k_vm k')) as Hl by (apply like_refl, (in_holds _ _ _ Hin)).
  specialize (Hm (k_hw k') (k_vm k') Hl). unfold wp, on_vm, zoom.
  destruct (m (k_vm k')) as [a v| |v| |]; try done. split; [|done]. apply inside_same; [done|apply Hm].
Qed.

Lemma wp_step {A} (m : M kst A) s a s' Q R : m s = Ret a s' -> Q a s' -> wp (m s) Q R.
Proof. by intros ->. Qed.

Section wait_exit.
Context `{Symbols} (ustore32 : Z -> Z -> M kst unit).
(** Storing to user memory may change memory and flags of processes. *)
Hypothesis ustore_frame : forall k a v, hw_wf (k_hw k) ->
  wp (ustore32 a v k) (fun _ k' => hw_same (k_hw k) (k_hw k') /\ tab_minor (k_pt k) (k_pt k')) (fun _ => False).

Context (k : kst) (p : nat) (n : Z).
Hypothesis Hcur : c_proc (my (k_hw k)) = Some p.
Hypothesis Hp : p ∈ procs.
Hypothesis Hrun : runs (k_pt k) p.

Lemma inside_ustore k' a v : inside n k k' ->
  wp (ustore32 a v k') (fun _ k2 => inside n k k2) (fun _ => False).
Proof.
  intros Hin. eapply wp_mono; [apply ustore_frame, (in_holds _ _ _ Hin)| |done].
  intros _ k2 [Hs Ht]. destruct k2 as [v2 t2 a2 b2 c2 d2].
  pose proof (inside_same n k k' v2 Hin Hs) as Hin2.
  destruct (inside_table n k _ t2 Hin2) as [E P Hh N Q]; [|by split].
  apply tab_minor_quiet; [by eapply inside_good|done].
Qed.

Lemma inside_ret n' k' : inside n' k k' -> forall A (a : A) R,
  wp ((on_cpu (release Lptable) ;;; ret a) k') (fun _ k2 => critical n' k k2) R.
Proof.
  intros Hin A a R. destruct (inside_release _ _ _ Hin) as (k2 & E & Hc & _). by step E.
Qed.

(** Reaping a zombie. *)
Lemma reap_quiet t z q : good t -> p_state (pt_proc t z) = ZOMBIE -> p_state q = UNUSED ->
  p_priority q = 0 -> p_next q = None -> p_previous q = None -> quiet t (put_proc t z q).
Proof.
  intros Hg Hz Hs Hpr Hn Hv. apply put_quiet; rewrite ?Hz, ?Hs; try done.
  - by left.
  - intros [?|[?|?]]; done.
Qed.

Lemma wait_scan_spec k' st : inside n k k' ->
  wp (wait_scan ustore32 (Some p) st k') (fun _ k2 => critical n k k2) (fun k2 => n = 1 /\ gone p k k2).
Proof.
  intros Hin. unfold wait_scan. apply wp_bind. unfold find_proc, gets. cbn [wp].
  destruct (find_first _ _) as [z|] eqn:Ez.
  - apply find_first_elem in Ez as [Hz Hzs]. bool_to_prop.
    apply wp_bind. rewrite pget_run. cbn [wp].
    apply wp_bind. eapply wp_mono; [apply (inside_vm n k); [done|intros; apply kfree_keeps]| |done].
    intros _ k2 [Hin2 Ht2]. apply wp_bind. rewrite pset_run. cbn [wp].
    apply wp_bind. rewrite pget_run. cbn [wp].
    set (k3 := set_k_pt _ k2). rewrite <- Ht2 in *.
    assert (wp (on_vm (freevm (p_pgdir (pt_proc (k_pt k3) z)) false) k3)
      (fun _ k4 => exists v, k4 = set_k_vm v k3 /\ hw_same (k_hw k3) (v_hw v)) (fun _ => False)) as Hfv.
    { assert (like (k_hw k3) (k_vm k3)) as Hl by (apply like_refl, (in_holds _ _ _ Hin2)).
      pose proof (freevm_keeps (k_hw k3) (p_pgdir (pt_proc (k_pt k3) z)) false (k_vm k3) Hl) as Hk.
      unfold wp, on_vm, zoom. destruct (freevm _ _ _) as [a v| |v| |]; try done.
      exists v. split; [done|apply Hk]. }
    apply wp_bind. eapply wp_mono; [apply Hfv| |done]. intros _ k4 (v & -> & Hsv).
    do 8 (apply wp_bind; rewrite pset_run; cbn [wp]).
    apply wp_bind. rewrite pget_run. cbn [wp].
    set (q := pt_proc _ z). set (k5 := set_k_pt _ _).
    assert (inside n k k5) as Hin5.
    { pose proof (inside_same n k k2 v Hin2 Hsv) as Hin4.
      assert (k5 = set_k_pt (put_proc (k_pt k2) z q) (set_k_vm v k2)) as ->.
      { unfold k5, q. cbn [k_pt set_k_pt set_k_vm]. unfold k3. cbn [k_pt set_k_pt set_k_vm].
        rewrite !put_put. simpl pt_proc. by rewrite !upd_eq. }
      apply inside_table; [done|]. apply reap_quiet; [by eapply inside_good|done|..];
        unfold q; simpl; rewrite !upd_eq; done. }
    apply wp_bind. unfold when. destruct (negb (st =? 0)).
    + eapply wp_mono; [by apply inside_ustore| |done]. intros u k6 Hin6. by apply (inside_ret n).
    + simpl. by apply (inside_ret n).
  - apply wp_bind. cbn [wp]. destruct (is_null _); [by apply (inside_ret n)|]. cbn [nonnull].
    apply wp_bind. rewrite pget_run. cbn [wp]. destruct (p_killed _); [by apply (inside_ret n)|].
    apply wp_bind. destruct (in_holds _ _ _ Hin) as (Hwf & Hl & Hn).
    unfold sleep. apply wp_bind. rewrite (myproc_locked k' Hwf Hn), (in_proc _ _ _ Hin), Hcur. cbn [wp].
    unfold when. rewrite bool_decide_eq_true_2 by done. cbn [negb]. apply wp_bind. cbn [wp ret].
    do 2 (apply wp_bind; rewrite pset_run; cbn [wp]).
    cbn [k_pt set_k_pt]. rewrite put_put. simpl pt_proc. rewrite upd_eq. set (q := set_p_state SLEEPING _).
    destruct (cur_fields k p Hp Hrun (k_pt k')) as (Hv & Hnx & Hpr & Hk & Hd & Hr'); [apply Hin|].
    assert (leaves p (k_pt k') (put_proc (k_pt k') p q)) as Hlv
      by (apply put_leaves; try done; by eapply inside_good).
    destruct (inside_sched n k k' _ p Hin Hcur Hlv) as [Es Hgone]; [simpl; by rewrite upd_eq|].
    apply wp_bind. change (set_k_pt ?a (set_k_pt ?b k')) with (set_k_pt a k'). rewrite Es.
    destruct (n =? 1) eqn:E1; [|done]. bool_to_prop. simpl. auto.
Qed.

Lemma inside_wakeup ch : keeps (inside n k) (on_pt (wakeup1 ch)).
Proof.
  intros k' Hin. destruct (wakeup_quiet (k_pt k') ch) as (t & E & Hq & _); [by eapply inside_good|].
  rewrite (on_pt_Ret _ _ _ _ E). by apply inside_table.
Qed.

Lemma inside_minor i f : (forall q, minor q (f q)) -> keeps (inside n k) (pset i f).
Proof.
  intros Hf k' Hin. rewrite pset_run. apply inside_table; [done|].
  apply tab_minor_quiet; [by eapply inside_good|]. by apply put_minor.
Qed.

(** Passing the children to init. *)
Lemma reparent_keeps : keeps (inside n k) (foreach procs (fun i =>
  let* pp := pget i in
  when (bool_decide (p_parent pp = Some p))
    (let* init := gets k_initproc in
     pset i (set_p_parent init) ;;;
     let* pp := pget i in
     when (bool_decide (p_state pp = ZOMBIE)) (on_pt (wakeup1 (ChProc <$> init)))))).
Proof.
  assert (forall i, keeps (inside n k) (pget i)) as Hget by (intros i k' Hin; by rewrite pget_run).
  apply keeps_foreach. intros i. apply keeps_bind; [done|]. intros pp. apply keeps_when.
  apply keeps_bind; [apply keeps_gets|]. intros init. apply keeps_bind; [by apply inside_minor|]. intros _.
  apply keeps_bind; [done|]. intros pp'. apply keeps_when, inside_wakeup.
Qed.

Lemma wp_keeps {A} (I : kst -> Prop) (m : M kst A) s : keeps I m -> I s -> wp (m s) (fun _ s' => I s') (fun _ => False).
Proof. intros Hm Hs. exact (Hm s Hs). Qed.

Lemma exit_spec k' status : inside n k k' ->
  wp (exit_locked p status k') (fun _ _ => False) (fun k2 => n = 1 /\ gone p k k2 /\
    p_state (pt_proc (k_pt k2) p) = ZOMBIE /\ p_status (pt_proc (k_pt k2) p) = status).
Proof.
  intros Hin. unfold exit_locked. apply wp_bind. rewrite pget_run. cbn [wp].
  apply wp_bind. eapply wp_mono; [apply (wp_keeps _ _ _ (inside_wakeup _) Hin)| |done]. intros u k1 Hin1.
  apply wp_bind. eapply wp_mono; [apply (wp_keeps _ _ _ reparent_keeps Hin1)| |done]. intros u2 k2 Hin2.
  apply wp_bind. rewrite pget_run. cbn [wp].
  apply wp_bind. eapply wp_mono; [apply (inside_vm n k k2); [done|intros; apply deallocuvm_keeps]| |done].
  intros _ k3 [Hin3 _].
  do 2 (apply wp_bind; rewrite pset_run; cbn [wp]).
  cbn [k_pt set_k_pt]. rewrite put_put. simpl pt_proc. rewrite upd_eq. set (q := set_p_status _ _).
  destruct (cur_fields k p Hp Hrun (k_pt k3)) as (Hv & Hnx & Hpr & Hk & Hd & Hr'); [apply Hin3|].
  assert (leaves p (k_pt k3) (put_proc (k_pt k3) p q)) as Hlv
    by (apply put_leaves; try done; by eapply inside_good).
  destruct (inside_sched n k k3 _ p Hin3 Hcur Hlv) as [Es Hgone]; [simpl; by rewrite upd_eq|].
  apply wp_bind. change (set_k_pt ?a (set_k_pt ?b k3)) with (set_k_pt a k3). rewrite Es.
  destruct (n =? 1) eqn:E1; [|done]. bool_to_prop. simpl. rewrite upd_eq. auto.
Qed.
End wait_exit.
