(* ===== verification/SchedSys.v ===== *)
(** * All interleavings of the scheduler

    The state [sys] adds to the kernel state what each CPU is doing ([cmode]) and
    where each process that is off the CPU resumes ([cont]). *)
From S2P Require Import Prelude Machine ProcQueue StringC Spinlock Kalloc Vm VmFrame Proc RunQueue ProcRun Sched.

(** What a CPU is doing: in the scheduler's loop without the lock; just switched
    to a process (lock held); running a process; just switched back to the
    scheduler (lock held). *)
Inductive cmode := MSched | MEnter | MProc | MLeave.

(** Where a process goes on: after the [swtch] of its first run, of yield, of
    sleep, or of the sleep in wait; with the saved [intena]. *)
Inductive cont := CNew | CYield (i : bool) | CSleep (i : bool) | CWait (i : bool) (status : Z).

Record sys := mkSys { y_k : kst; y_mode : nat -> cmode; y_cont : nat -> cont }.

Definition y_hw (y : sys) : hw := k_hw (y_k y).
Definition y_cpu (y : sys) (c : nat) : cpu := hw_cpus (y_hw y) c.

(** CPU [c] executes. *)
Definition at_cpu (c : nat) (k : kst) : kst := set_khw (set_hw_me c (k_hw k)) k.

Definition active (m : cmode) : bool := match m with MProc | MEnter => true | _ => false end.
Definition locked (m : cmode) : bool := match m with MEnter | MLeave => true | _ => false end.

(** Code that is not about scheduling: it may change this CPU's registers and
    nesting, other locks, memory and any field of processes the scheduler does
    not use. *)
Record other (c : nat) (m : cmode) (k k' : kst) : Prop := {
  ot_ev : hw_ev (k_hw (at_cpu c k)) (k_hw k');
  ot_proc : c_proc (my (k_hw k')) = c_proc (hw_cpus (k_hw k) c);
  ot_ncli : m = MSched -> c_ncli (my (k_hw k')) = c_ncli (hw_cpus (k_hw k) c);
  ot_lock : hw_locks (k_hw k') Lptable = hw_locks (k_hw k) Lptable;
  ot_queue pr : pt_queue (k_pt k') pr = pt_queue (k_pt k) pr;
  ot_table i : p_state (pt_proc (k_pt k') i) = p_state (pt_proc (k_pt k) i) /\
    p_priority (pt_proc (k_pt k') i) = p_priority (pt_proc (k_pt k) i) /\
    p_previous (pt_proc (k_pt k') i) = p_previous (pt_proc (k_pt k) i) /\
    p_next (pt_proc (k_pt k') i) = p_next (pt_proc (k_pt k) i);
  ot_mem : mem_ok (k_pt k) -> mem_ok (k_pt k');
}.

Section sys.
Context `{Symbols} (ts : nat -> Z) (ustore32 : Z -> Z -> M kst unit).

(** Steps of CPU [c]; [p] is the process it runs. *)
Inductive sys_step : sys -> sys -> Prop :=
| S_idle c k k' mo co : (c < hw_ncpu (k_hw k))%nat -> mo c = MSched ->
    scheduler_turn ts c (at_cpu c k) = Ret tt k' -> sys_step (mkSys k mo co) (mkSys k' mo co)
| S_pick c k k' mo co : (c < hw_ncpu (k_hw k))%nat -> mo c = MSched ->
    scheduler_turn ts c (at_cpu c k) = Swtch k' ->
    sys_step (mkSys k mo co) (mkSys k' (upd mo c MEnter) co)
| S_return c k k' mo co : (c < hw_ncpu (k_hw k))%nat -> mo c = MLeave ->
    scheduler_return c (at_cpu c k) = Ret tt k' ->
    sys_step (mkSys k mo co) (mkSys k' (upd mo c MSched) co)
| S_new c p k k' mo co : (c < hw_ncpu (k_hw k))%nat -> mo c = MEnter ->
    c_proc (hw_cpus (k_hw k) c) = Some p -> co p = CNew ->
    on_cpu (release Lptable) (at_cpu c k) = Ret tt k' ->
    sys_step (mkSys k mo co) (mkSys k' (upd mo c MProc) co)
| S_yield c p k k' mo co : (c < hw_ncpu (k_hw k))%nat -> mo c = MProc ->
    c_proc (hw_cpus (k_hw k) c) = Some p -> yield (at_cpu c k) = Swtch k' ->
    sys_step (mkSys k mo co)
      (mkSys k' (upd mo c MLeave) (upd co p (CYield (c_intena (hw_cpus (k_hw k') c)))))
| S_yield_resume c p i k k' mo co : (c < hw_ncpu (k_hw k))%nat -> mo c = MEnter ->
    c_proc (hw_cpus (k_hw k) c) = Some p -> co p = CYield i ->
    yield_resume i (at_cpu c k) = Ret tt k' ->
    sys_step (mkSys k mo co) (mkSys k' (upd mo c MProc) co)
| S_sleep c p ch lk k k' mo co : (c < hw_ncpu (k_hw k))%nat -> mo c = MProc ->
    c_proc (hw_cpus (k_hw k) c) = Some p -> lk <> Lptable ->
    hw_locks (k_hw k) lk = mkSpinlock true (Some c) -> 0 < c_ncli (hw_cpus (k_hw k) c) ->
    sleep ch (Some lk) (at_cpu c k) = Swtch k' ->
    sys_step (mkSys k mo co)
      (mkSys k' (upd mo c MLeave) (upd co p (CSleep (c_intena (hw_cpus (k_hw k') c)))))
| S_sleep_resume c p i k k' mo co : (c < hw_ncpu (k_hw k))%nat -> mo c = MEnter ->
    c_proc (hw_cpus (k_hw k) c) = Some p -> co p = CSleep i ->
    (sleep_tidy p i ;;; on_cpu (release Lptable)) (at_cpu c k) = Ret tt k' ->
    sys_step (mkSys k mo co) (mkSys k' (upd mo c MProc) co)
| S_wait c p st r k k' mo co : (c < hw_ncpu (k_hw k))%nat -> mo c = MProc ->
    c_proc (hw_cpus (k_hw k) c) = Some p -> wait ustore32 st (at_cpu c k) = Ret r k' ->
    sys_step (mkSys k mo co) (mkSys k' mo co)
| S_wait_sleep c p st k k' mo co : (c < hw_ncpu (k_hw k))%nat -> mo c = MProc ->
    c_proc (hw_cpus (k_hw k) c) = Some p -> wait ustore32 st (at_cpu c k) = Swtch k' ->
    sys_step (mkSys k mo co)
      (mkSys k' (upd mo c MLeave) (upd co p (CWait (c_intena (hw_cpus (k_hw k') c)) st)))
| S_wait_resume c p i st r k k' mo co : (c < hw_ncpu (k_hw k))%nat -> mo c = MEnter ->
    c_proc (hw_cpus (k_hw k) c) = Some p -> co p = CWait i st ->
    wait_resume ustore32 p i st (at_cpu c k) = Ret r k' ->
    sys_step (mkSys k mo co) (mkSys k' (upd mo c MProc) co)
| S_wait_again c p i st k k' mo co : (c < hw_ncpu (k_hw k))%nat -> mo c = MEnter ->
    c_proc (hw_cpus (k_hw k) c) = Some p -> co p = CWait i st ->
    wait_resume ustore32 p i st (at_cpu c k) = Swtch k' ->
    sys_step (mkSys k mo co)
      (mkSys k' (upd mo c MLeave) (upd co p (CWait (c_intena (hw_cpus (k_hw k') c)) st)))
| S_exit c p st k k' mo co : (c < hw_ncpu (k_hw k))%nat -> mo c = MProc ->
    c_proc (hw_cpus (k_hw k) c) = Some p ->
    (on_cpu (acquire Lptable) ;;; exit_locked p st) (at_cpu c k) = Swtch k' ->
    sys_step (mkSys k mo co) (mkSys k' (upd mo c MLeave) co)
| S_wakeup c ch k k' mo co : (c < hw_ncpu (k_hw k))%nat -> locked (mo c) = false ->
    wakeup ch (at_cpu c k) = Ret tt k' -> sys_step (mkSys k mo co) (mkSys k' mo co)
| S_kill c pid r k k' mo co : (c < hw_ncpu (k_hw k))%nat -> mo c = MProc ->
    kill pid (at_cpu c k) = Ret r k' -> sys_step (mkSys k mo co) (mkSys k' mo co)
| S_getprio c pid r k k' mo co : (c < hw_ncpu (k_hw k))%nat -> mo c = MProc ->
    getprio pid (at_cpu c k) = Ret r k' -> sys_step (mkSys k mo co) (mkSys k' mo co)
| S_setprio c pid pr r k k' mo co : (c < hw_ncpu (k_hw k))%nat -> mo c = MProc ->
    setprio pid pr (at_cpu c k) = Ret r k' -> sys_step (mkSys k mo co) (mkSys k' mo co)
| S_alloc c r k k' mo co : (c < hw_ncpu (k_hw k))%nat -> locked (mo c) = false ->
    alloc_claim (at_cpu c k) = Ret r k' -> sys_step (mkSys k mo co) (mkSys k' mo co)
| S_alloc_fail c np k mo co : (c < hw_ncpu (k_hw k))%nat -> locked (mo c) = false -> np ∈ procs ->
    p_state (pt_proc (k_pt k) np) = EMBRYO ->
    sys_step (mkSys k mo co)
      (mkSys (set_k_pt (put_proc (k_pt k) np (set_p_state UNUSED (pt_proc (k_pt k) np))) (at_cpu c k)) mo co)
| S_init c np k k' mo co : (c < hw_ncpu (k_hw k))%nat -> locked (mo c) = false -> np ∈ procs ->
    p_state (pt_proc (k_pt k) np) = EMBRYO ->
    p_kstack (pt_proc (k_pt k) np) <> 0 -> p_pgdir (pt_proc (k_pt k) np) <> 0 ->
    init_publish np (at_cpu c k) = Ret tt k' ->
    sys_step (mkSys k mo co) (mkSys k' mo (upd co np CNew))
| S_fork c p np k k' mo co : (c < hw_ncpu (k_hw k))%nat -> mo c = MProc ->
    c_proc (hw_cpus (k_hw k) c) = Some p -> np ∈ procs ->
    p_state (pt_proc (k_pt k) np) = EMBRYO -> p_parent (pt_proc (k_pt k) np) = Some p ->
    p_kstack (pt_proc (k_pt k) np) <> 0 -> p_pgdir (pt_proc (k_pt k) np) <> 0 ->
    fork_publish np (at_cpu c k) = Ret tt k' ->
    sys_step (mkSys k mo co) (mkSys k' mo (upd co np CNew))
| S_other c k k' mo co : (c < hw_ncpu (k_hw k))%nat -> locked (mo c) = false ->
    other c (mo c) k k' -> sys_step (mkSys k mo co) (mkSys k' mo co).

(** CPU [c] runs process [p]. *)
Definition running_on (y : sys) (c p : nat) : Prop :=
  (c < hw_ncpu (y_hw y))%nat /\ active (y_mode y c) = true /\ c_proc (y_cpu y c) = Some p.

Record sys_inv (y : sys) : Prop := {
  si_wf : hw_wf (y_hw y);
  si_good : good (k_pt (y_k y));
  si_active c : (c < hw_ncpu (y_hw y))%nat -> active (y_mode y c) = true ->
    exists p, c_proc (y_cpu y c) = Some p /\ p ∈ procs /\ runs (k_pt (y_k y)) p;
  si_running p : p ∈ procs -> runs (k_pt (y_k y)) p -> exists c, running_on y c p;
  si_unique c c' p : running_on y c p -> running_on y c' p -> c = c';
  si_lock c : (c < hw_ncpu (y_hw y))%nat -> locked (y_mode y c) = true ->
    hw_locks (y_hw y) Lptable = mkSpinlock true (Some c) /\ c_ncli (y_cpu y c) = 1;
  si_free : (forall c, (c < hw_ncpu (y_hw y))%nat -> locked (y_mode y c) = false) -> free (y_hw y);
  si_sched c : (c < hw_ncpu (y_hw y))%nat -> y_mode y c = MSched -> c_ncli (y_cpu y c) = 0;
}.

(** Boot: an empty process table, all CPUs in the scheduler. *)
Definition sys_boot (y : sys) : Prop :=
  hw_wf (y_hw y) /\ k_pt (y_k y) = ptable0 /\ free (y_hw y) /\
  forall c, (c < hw_ncpu (y_hw y))%nat -> y_mode y c = MSched /\ c_ncli (y_cpu y c) = 0.

Lemma boot_inv y : sys_boot y -> sys_inv y.
Proof.
  intros (Hwf & Ht & Hf & Hm). split; try done.
  - rewrite Ht. split.
    + exists (fun _ => []). split; [split|..]; try done.
      * intros pr i []%not_elem_of_nil.
      * intros pr i []%not_elem_of_nil.
      * intros i _. by left.
    + intros i _ [?|[?|?]]; done.
  - intros c Hc. destruct (Hm c Hc) as [-> _]. done.
  - rewrite Ht. done.
  - intros c c' p (Hc & Ha & _). destruct (Hm c Hc) as [E _]. by rewrite E in Ha.
  - intros c Hc. destruct (Hm c Hc) as [-> _]. done.
  - intros c Hc _. by apply Hm.
Qed.

(** ** Preservation *)

(** A step of CPU [c] to [k'], after which it is in mode [m]. *)
Section update.
Context (y : sys) (c : nat) (k' : kst) (m : cmode) (co : nat -> cont).
Hypothesis Hinv : sys_inv y.
Hypothesis Hc : (c < hw_ncpu (y_hw y))%nat.
Hypothesis Hev : hw_ev (k_hw (at_cpu c (y_k y))) (k_hw k').
Hypothesis Hgood : good (k_pt k').

Let y' := mkSys k' (upd (y_mode y) c m) co.

Lemma up_me : hw_me (k_hw k') = c.
Proof. apply (ev_me _ _ Hev). Qed.
Lemma up_ncpu : hw_ncpu (k_hw k') = hw_ncpu (y_hw y).
Proof. apply (ev_ncpu _ _ Hev). Qed.
Lemma up_my : my (k_hw k') = hw_cpus (k_hw k') c.
Proof. unfold my. by rewrite up_me. Qed.
Lemma up_other i : i <> c -> c_proc (hw_cpus (k_hw k') i) = c_proc (y_cpu y i) /\
  c_ncli (hw_cpus (k_hw k') i) = c_ncli (y_cpu y i).
Proof. apply (ev_other _ _ Hev). Qed.

(** The CPUs other than [c] that run a process keep running it. *)
Lemma up_running_ne i p : i <> c -> running_on y' i p <-> running_on y i p.
Proof.
  intros Hi. unfold running_on. change (y_hw y') with (k_hw k').
  change (y_cpu y' i) with (hw_cpus (k_hw k') i). destruct (up_other i Hi) as [-> _].
  rewrite up_ncpu. simpl. by rewrite upd_ne.
Qed.

Lemma update_inv :
  (forall i, (i < hw_ncpu (y_hw y))%nat -> i <> c -> locked (y_mode y i) = false) ->
  (forall p, p ∈ procs -> runs (k_pt k') p <->
     (exists i, i <> c /\ running_on y i p) \/ (active m = true /\ c_proc (my (k_hw k')) = Some p)) ->
  (active m = true -> exists p, c_proc (my (k_hw k')) = Some p /\ p ∈ procs /\
     forall i, i <> c -> ~ running_on y i p) ->
  (locked m = true -> hw_locks (k_hw k') Lptable = mkSpinlock true (Some c) /\ c_ncli (my (k_hw k')) = 1) ->
  (locked m = false -> free (k_hw k')) ->
  (m = MSched -> c_ncli (my (k_hw k')) = 0) ->
  sys_inv y'.
Proof.
  intros Hno Hruns Hact Hlk Hfr Hsc. rewrite up_my in *.
  assert (forall p, running_on y' c p <-> active m = true /\ c_proc (hw_cpus (k_hw k') c) = Some p) as Hself.
  { intros p. unfold running_on. change (y_hw y') with (k_hw k').
    change (y_cpu y' c) with (hw_cpus (k_hw k') c). rewrite up_ncpu. simpl. rewrite upd_eq. tauto. }
  split; change (y_hw y') with (k_hw k'); simpl.
  - apply Hev.
  - done.
  - rewrite up_ncpu. intros i Hi. rewrite upd_case. case_decide as E.
    + subst i. intros Ha. destruct (Hact Ha) as (p & Hp & Hin & _). exists p.
      split_and!; [done..|]. apply Hruns; auto.
    + intros Ha. destruct (si_active _ Hinv i Hi Ha) as (p & Hp & Hin & _). exists p.
      change (y_cpu y' i) with (hw_cpus (k_hw k') i). destruct (up_other i) as [-> _]; [done|].
      split_and!; [done..|]. apply Hruns; [done|]. left. exists i. done.
  - intros p Hp Hr. apply Hruns in Hr as [(i & Hi & Hri)|[Ha Hcp]]; [|..|done].
    + exists i. by apply up_running_ne.
    + exists c. by rewrite Hself.
  - intros i j p Hi Hj. destruct (decide (i = c)) as [->|Hic], (decide (j = c)) as [->|Hjc]; [done|..].
    + rewrite Hself in Hi. destruct Hi as [Ha Hcp]. destruct (Hact Ha) as (q & Hq & _ & Hne).
      rewrite Hcp in Hq. injection Hq as <-. exfalso. apply (Hne j Hjc). by apply up_running_ne.
    + rewrite Hself in Hj. destruct Hj as [Ha Hcp]. destruct (Hact Ha) as (q & Hq & _ & Hne).
      rewrite Hcp in Hq. injection Hq as <-. exfalso. apply (Hne i Hic). by apply up_running_ne.
    + apply (si_unique _ Hinv i j p); by apply up_running_ne.
  - rewrite up_ncpu. intros i Hi. rewrite upd_case. case_decide as E; [by subst i|].
    intros Hl. rewrite Hno in Hl by done. done.
  - rewrite up_ncpu. intros Hall. apply Hfr. specialize (Hall c Hc). by rewrite upd_eq in Hall.
  - rewrite up_ncpu. intros i Hi. rewrite upd_case. case_decide as E; [by subst i|].
    intros Hm. change (y_cpu y' i) with (hw_cpus (k_hw k') i). destruct (up_other i) as [_ ->]; [done|]. by apply si_sched.
Qed.
End update.

Lemma wf_at c k : hw_wf (k_hw k) -> (c < hw_ncpu (k_hw k))%nat -> hw_wf (k_hw (at_cpu c k)).
Proof. intros [] Hc. by split. Qed.

Lemma holds_at y c : sys_inv y -> (c < hw_ncpu (y_hw y))%nat -> locked (y_mode y c) = true ->
  holds (k_hw (at_cpu c (y_k y))) /\ c_ncli (my (k_hw (at_cpu c (y_k y)))) = 1.
Proof.
  intros Hinv Hc Hl. destruct (si_lock _ Hinv c Hc Hl) as [Hlk Hn].
  split; [|done]. split_and!; [by apply wf_at, Hc; apply Hinv|done|].
  change (0 < c_ncli (y_cpu y c)). lia.
Qed.

(** Taking the lock succeeds only if it is free. *)
Lemma acq_free {A} (m : M kst A) s : hw_wf (k_hw s) ->
  wp ((on_cpu (acquire Lptable) ;;; m) s) (fun _ _ => free (k_hw s)) (fun _ => free (k_hw s)).
Proof.
  intros Hwf. unfold wp. destruct ((on_cpu (acquire Lptable) ;;; m) s) as [a s'| |s'| |] eqn:E; try done;
    (destruct (acquire_inv m s Hwf) as [Hf _]; [rewrite E; eauto|exact Hf]).
Qed.

Lemma others_unlocked y c : sys_inv y -> (c < hw_ncpu (y_hw y))%nat ->
  free (y_hw y) \/ locked (y_mode y c) = true ->
  forall i, (i < hw_ncpu (y_hw y))%nat -> i <> c -> locked (y_mode y i) = false.
Proof.
  intros Hinv Hc Hor i Hi Hne. destruct (locked (y_mode y i)) eqn:El; [|done]. exfalso.
  destruct (si_lock _ Hinv i Hi El) as [Hlk _]. destruct Hor as [Hf|Hl].
  - unfold free in Hf. by rewrite Hlk in Hf.
  - destruct (si_lock _ Hinv c Hc Hl) as [Hlk' _]. rewrite Hlk in Hlk'. congruence.
Qed.

(** The processes that run, seen from CPU [c]. *)
Lemma runs_split y c p : sys_inv y -> (c < hw_ncpu (y_hw y))%nat -> p ∈ procs ->
  runs (k_pt (y_k y)) p <-> (exists i, i <> c /\ running_on y i p) \/
    (active (y_mode y c) = true /\ c_proc (y_cpu y c) = Some p).
Proof.
  intros Hinv Hc Hp. split.
  - intros Hr. destruct (si_running _ Hinv p Hp Hr) as (i & Hi).
    destruct (decide (i = c)) as [->|Hne]; [right|left; by exists i]. apply Hi.
  - assert (forall i, running_on y i p -> runs (k_pt (y_k y)) p) as Hrun.
    { intros i (Hi & Ha & Hcp). destruct (si_active _ Hinv i Hi Ha) as (q & Hq & _ & Hr). congruence. }
    intros [(i & _ & Hi)|[Ha Hcp]]; [by eapply Hrun|]. apply (Hrun c). by split_and!.
Qed.

(** A process that runs on [c] runs nowhere else. *)
Lemma runs_here y c p : sys_inv y -> running_on y c p -> forall i, i <> c -> ~ running_on y i p.
Proof. intros Hinv Hc i Hi Hr. apply Hi. by eapply si_unique. Qed.

(** A critical section that neither starts nor stops a process. *)
Lemma critical_inv y c m n k' co : sys_inv y -> (c < hw_ncpu (y_hw y))%nat ->
  free (y_hw y) \/ locked (y_mode y c) = true ->
  critical n (at_cpu c (y_k y)) k' -> active m = active (y_mode y c) -> locked m = false ->
  (m = MSched -> n = 1) ->
  sys_inv (mkSys k' (upd (y_mode y) c m) co).
Proof.
  intros Hinv Hc Hor [Ev Pr Nc Fr [Gd Qu]] Ha Hl Hs.
  apply (update_inv y c k' m co Hinv Hc Ev Gd); try done.
  - by apply others_unlocked.
  - intros p Hp. rewrite Qu, (runs_split y c p) by done. rewrite Pr, Ha. done.
  - rewrite Ha. intros Ha'. destruct (si_active _ Hinv c Hc Ha') as (p & Hp & Hin & _).
    exists p. rewrite Pr. split_and!; [done|done|]. apply runs_here; [done|]. by split_and!.
  - rewrite Hl. done.
  - intros ->. rewrite Nc, Hs; done.
Qed.

(** The mode of the CPU stays. *)
Lemma critical_inv_same y c n k' co : sys_inv y -> (c < hw_ncpu (y_hw y))%nat -> free (y_hw y) ->
  critical n (at_cpu c (y_k y)) k' -> locked (y_mode y c) = false ->
  n = c_ncli (y_cpu y c) + 1 ->
  sys_inv (mkSys k' (y_mode y) co).
Proof.
  intros Hinv Hc Hf Hcr Hl Hn. rewrite <- (upd_id (y_mode y) c _ eq_refl).
  apply (critical_inv y c _ n); auto. intros Hm. rewrite Hn, si_sched; done.
Qed.

(** The process leaves the CPU. *)
Lemma gone_inv y c p k' co : sys_inv y -> running_on y c p ->
  free (y_hw y) \/ locked (y_mode y c) = true ->
  gone p (at_cpu c (y_k y)) k' -> sys_inv (mkSys k' (upd (y_mode y) c MLeave) co).
Proof.
  intros Hinv Hr Hor [Ev Pr Lk Nc [Gd Lv]]. pose proof Hr as (Hc & Ha & Hcp).
  apply (update_inv y c k' MLeave co Hinv Hc Ev Gd); try done.
  - by apply others_unlocked.
  - intros q Hq. rewrite Lv, (runs_split y c q) by done. split.
    + intros [[Hi|[_ Hq']] Hne]; [by left|]. congruence.
    + intros [(i & Hi & Hri)|[? _]]; [|done]. split; [left; eauto|]. intros ->.
      by apply (runs_here y c p Hinv Hr i).
  - intros _. rewrite Lk. rewrite (ev_me _ _ Ev). done.
Qed.

(** The scheduler switches to a process. *)
Lemma entered_inv y c p k' co : sys_inv y -> (c < hw_ncpu (y_hw y))%nat -> y_mode y c = MSched ->
  free (y_hw y) -> entered p (at_cpu c (y_k y)) k' ->
  sys_inv (mkSys k' (upd (y_mode y) c MEnter) co).
Proof.
  intros Hinv Hc Hm Hf [Ev Pr Lk Nc Hp Hrn Gd Ru].
  apply (update_inv y c k' MEnter co Hinv Hc Ev Gd); try done.
  - apply others_unlocked; auto.
  - intros q Hq. rewrite Ru, Pr, (runs_split y c q) by done. rewrite Hm. naive_solver.
  - intros _. exists p. split_and!; [done|done|]. intros i Hi (Hi' & Ha & Hcp).
    destruct (si_active _ Hinv i Hi' Ha) as (q & Hq & _ & Hr). rewrite Hcp in Hq. injection Hq as <-.
    unfold runs in Hr. simpl in Hrn. congruence.
  - intros _. rewrite Lk, (ev_me _ _ Ev). done.
Qed.

Lemma returned_inv y c k' co : sys_inv y -> (c < hw_ncpu (y_hw y))%nat -> y_mode y c = MLeave ->
  returned (at_cpu c (y_k y)) k' -> sys_inv (mkSys k' (upd (y_mode y) c MSched) co).
Proof.
  intros Hinv Hc Hm [Ev Pr Nc Fr Ta].
  assert (locked (y_mode y c) = true) as Hl by by rewrite Hm.
  apply (update_inv y c k' MSched co Hinv Hc Ev); try done.
  - rewrite Ta. apply Hinv.
  - by apply others_unlocked; [..|right].
  - intros q Hq. rewrite Ta. simpl. rewrite (runs_split y c q), Hm by done. naive_solver.
  - intros _. rewrite Nc. destruct (holds_at y c Hinv Hc Hl) as [_ ->]. done.
Qed.

(** A step that leaves the lock alone. *)
Lemma lockless_inv y c k' co : sys_inv y -> (c < hw_ncpu (y_hw y))%nat -> locked (y_mode y c) = false ->
  hw_ev (k_hw (at_cpu c (y_k y))) (k_hw k') ->
  c_proc (my (k_hw k')) = c_proc (y_cpu y c) ->
  (y_mode y c = MSched -> c_ncli (my (k_hw k')) = c_ncli (y_cpu y c)) ->
  hw_locks (k_hw k') Lptable = hw_locks (y_hw y) Lptable ->
  quiet (k_pt (y_k y)) (k_pt k') -> sys_inv (mkSys k' (y_mode y) co).
Proof.
  intros Hinv Hc Hl Ev Pr Nc Lk [Gd Hru].
  pose proof (up_other y c k' Ev) as Hoth. pose proof (up_ncpu y c k' Ev) as Hncpu.
  pose proof (up_my y c k' Ev) as Hmy. rewrite Hmy in *.
  assert (forall i, c_proc (hw_cpus (k_hw k') i) = c_proc (y_cpu y i)) as Hproc.
  { intros i. destruct (decide (i = c)) as [->|Hi]; [done|by apply Hoth]. }
  assert (forall i p, running_on (mkSys k' (y_mode y) co) i p <-> running_on y i p) as Hro.
  { intros i p. unfold running_on. change (y_cpu (mkSys k' _ _) i) with (hw_cpus (k_hw k') i).
    change (y_hw (mkSys k' _ _)) with (k_hw k'). by rewrite Hproc, Hncpu. }
  split; change (y_hw (mkSys k' _ _)) with (k_hw k'); rewrite ?Hncpu; simpl.
  - apply Ev.
  - done.
  - intros i Hi Ha. destruct (si_active _ Hinv i Hi Ha) as (p & Hp & Hin & Hr). exists p.
    change (y_cpu (mkSys k' _ _) i) with (hw_cpus (k_hw k') i). rewrite Hproc. split_and!; [done..|].
    by apply Hru.
  - intros p Hp Hr. apply Hru in Hr; [|done]. destruct (si_running _ Hinv p Hp Hr) as (i & Hi). exists i. by apply Hro.
  - intros i j p Hi%Hro Hj%Hro. by eapply si_unique.
  - intros i Hi Hi'. assert (i <> c) by congruence.
    change (y_cpu (mkSys k' _ _) i) with (hw_cpus (k_hw k') i). destruct (Hoth i) as [_ ->]; [done|].
    rewrite Lk. by apply si_lock.
  - intros Hall. unfold free. rewrite Lk. by apply si_free.
  - intros i Hi Hm. change (y_cpu (mkSys k' _ _) i) with (hw_cpus (k_hw k') i).
    destruct (decide (i = c)) as [->|Hic]; [rewrite Nc by done; by apply si_sched|].
    destruct (Hoth i) as [_ ->]; [done|]. by apply si_sched.
Qed.

Lemma other_quiet c m k k' : good (k_pt k) -> other c m k k' -> quiet (k_pt k) (k_pt k').
Proof.
  intros [[qs Hq] Hm] [_ _ _ _ Qu Ta Me]. split; [split; [|by apply Me]|].
  - exists qs. apply (pt_inv_fields (k_pt k)); [done|]. split; [done|..]; intros i; apply Ta.
  - intros i _. unfold runs. by destruct (Ta i) as [-> _].
Qed.

(** A store to user memory may change memory and flags of processes; see Trap. *)
Hypothesis ustore_frame : forall k a v, hw_wf (k_hw k) ->
  wp (ustore32 a v k) (fun _ k' => hw_same (k_hw k) (k_hw k') /\ tab_minor (k_pt k) (k_pt k')) (fun _ => False).

Lemma wait_spec k p st : hw_wf (k_hw k) -> good (k_pt k) -> c_proc (my (k_hw k)) = Some p ->
  p ∈ procs -> runs (k_pt k) p ->
  wp (wait ustore32 st k)
    (fun _ k2 => free (k_hw k) /\ critical (c_ncli (my (k_hw k)) + 1) k k2)
    (fun k2 => free (k_hw k) /\ gone p k k2).
Proof.
  intros Hwf Hg Hcur Hp Hr. unfold wait. apply wp_bind. rewrite myproc_run by done. cbn [wp].
  set (h1 := set_my (settled (my (k_hw k))) (k_hw k)). set (k1 := set_khw h1 k).
  assert (hw_wf h1) as Hwf1 by by apply settled_wf.
  assert (my h1 = settled (my (k_hw k))) as Hmy by apply my_set_my.
  destruct (lk_locked (hw_locks (k_hw k) Lptable)) eqn:Hf.
  { pose proof (acq_free (wait_scan ustore32 (c_proc (my (k_hw k))) st) k1 Hwf1) as Ha.
    eapply wp_mono; [exact Ha|..]; unfold free; simpl; intros **; exfalso;
      change (lk_locked (hw_locks (k_hw k) Lptable) = false) in H0; congruence. }
  rewrite (bind_Ret _ _ _ _ _ (kacquire_run k1 Hwf1 Hf)). rewrite Hcur.
  assert (inside (c_ncli (my (k_hw k)) + 1) k (set_khw (locked_hw (k_hw k1)) k1)) as Hin.
  { pose proof (inside_start k1 Hwf1 Hg) as [Ev Pr Ho Nc Qu].
    change (k_hw k1) with h1 in *. rewrite Hmy in *. rewrite ncli_settled in Nc. rewrite proc_settled in Pr.
    split; try done. eapply ev_trans; [|done]. by apply ev_set_my. }
  eapply wp_mono; [by apply (wait_scan_spec ustore32 ustore_frame k p (c_ncli (my (k_hw k)) + 1) Hcur Hp Hr)|..].
  - intros r k2 Hc. by split.
  - intros k2 [_ Hgo]. by split.
Qed.

(** One lemma per group of steps. *)
Section steps.
Context (c : nat) (k k' : kst) (mo : nat -> cmode) (co co' : nat -> cont).
Let y := mkSys k mo co.
Hypothesis Hinv : sys_inv y.
Hypothesis Hc : (c < hw_ncpu (k_hw k))%nat.

Let Hwf : hw_wf (k_hw (at_cpu c k)) := wf_at c k (si_wf _ Hinv) Hc.
Let Hg : good (k_pt (at_cpu c k)) := si_good _ Hinv.

Lemma inv_cur p : active (mo c) = true -> c_proc (hw_cpus (k_hw k) c) = Some p ->
  p ∈ procs /\ runs (k_pt k) p /\ running_on y c p.
Proof.
  intros Ha Hp. destruct (si_active _ Hinv c Hc Ha) as (q & Hq & Hin & Hr).
  change (c_proc (hw_cpus (k_hw k) c) = Some q) in Hq. rewrite Hp in Hq. injection Hq as <-. by split_and!.
Qed.

(** Operations that take and release the lock. *)
Lemma inv_section n : critical n (at_cpu c k) k' -> free (k_hw k) -> locked (mo c) = false ->
  n = c_ncli (hw_cpus (k_hw k) c) + 1 -> sys_inv (mkSys k' mo co').
Proof. intros. by apply (critical_inv_same y c n). Qed.

Lemma inv_turn : mo c = MSched ->
  wp (scheduler_turn ts c (at_cpu c k))
    (fun _ k' => sys_inv (mkSys k' mo co)) (fun k' => sys_inv (mkSys k' (upd mo c MEnter) co)).
Proof.
  intros Hm. destruct (lk_locked (hw_locks (k_hw k) Lptable)) eqn:Hf.
  { unfold scheduler_turn. apply wp_bind.
    set (h0 := set_my (set_c_if true (my (k_hw (at_cpu c k)))) (k_hw (at_cpu c k))).
    rewrite (on_cpu_Ret sti _ tt h0) by done. cbn [wp].
    assert (hw_wf h0) as Hwf0.
    { apply hw_wf_set_my; [done|done|..]; simpl; change (c_ncli (my _)) with (c_ncli (y_cpu y c));
        rewrite (si_sched _ Hinv c Hc Hm); done. }
    apply wp_bind. pose proof (kacquire_spin (set_khw h0 (at_cpu c k)) Hwf0 Hf) as Hsp. unfold wp.
    destruct (on_cpu (acquire Lptable) _) as [r s1| |s1| |]; try done;
      [by destruct (Hsp r s1)|by destruct (Hsp tt s1)]. }
  pose proof Hg as [[qs Hq] _].
  pose proof (turn_run (at_cpu c k) ts qs Hwf Hf Hg Hq (si_sched _ Hinv c Hc Hm)) as Ht.
  change (hw_me (k_hw (at_cpu c k))) with c in Ht.
  destruct (order qs) as [|p r].
  - destruct Ht as (k1 & -> & Hcr). simpl. apply (critical_inv_same y c 1); try done; [simpl; by rewrite Hm|].
    by rewrite (si_sched _ Hinv c Hc Hm).
  - destruct Ht as (k1 & qs' & -> & Hen & _). simpl. by apply (entered_inv y c p).
Qed.

Lemma inv_return : mo c = MLeave -> scheduler_return c (at_cpu c k) = Ret tt k' ->
  sys_inv (mkSys k' (upd mo c MSched) co).
Proof.
  intros Hm E. assert (locked (mo c) = true) as Hl by by rewrite Hm.
  destruct (holds_at y c Hinv Hc Hl) as [Hh _]. change (y_k y) with k in *.
  destruct (return_run _ Hh) as (k2 & E2 & Hr). change (hw_me (k_hw (at_cpu c k))) with c in E2.
  rewrite E in E2. injection E2 as <-. by apply (returned_inv y c).
Qed.

(** A process resumes and releases the lock. *)
Lemma inv_resume (m : M kst unit) : mo c = MEnter ->
  (forall k, holds (k_hw k) -> good (k_pt k) -> exists k', m k = Ret tt k' /\ critical (c_ncli (my (k_hw k))) k k') ->
  m (at_cpu c k) = Ret tt k' -> sys_inv (mkSys k' (upd mo c MProc) co).
Proof.
  intros Hm Hrun E. assert (locked (mo c) = true) as Hl by by rewrite Hm.
  destruct (holds_at y c Hinv Hc Hl) as [Hh Hn]. change (y_k y) with k in *.
  destruct (Hrun _ Hh Hg) as (k2 & E2 & Hcr). rewrite E in E2. injection E2 as <-.
  eapply (critical_inv y c MProc); eauto. change (y_mode y c) with (mo c). by rewrite Hm.
Qed.

Lemma inv_yield p : mo c = MProc -> c_proc (hw_cpus (k_hw k) c) = Some p ->
  yield (at_cpu c k) = Swtch k' -> sys_inv (mkSys k' (upd mo c MLeave) co').
Proof.
  intros Hm Hp E. destruct (inv_cur p) as (Hin & Hr & Hro); [by rewrite Hm|done|].
  pose proof (acq_free _ (at_cpu c k) Hwf : wp (yield (at_cpu c k)) _ _) as Hf. rewrite E in Hf.
  destruct (yield_run (at_cpu c k) Hwf Hf Hg p Hp Hin Hr) as (k2 & E2 & Hgo). rewrite E in E2.
  destruct (_ =? 1) eqn:En; [|done]. injection E2 as <-. bool_to_prop. destruct (Hgo En).
  apply (gone_inv y c p); auto.
Qed.

Lemma inv_sleep p ch lk : mo c = MProc -> c_proc (hw_cpus (k_hw k) c) = Some p -> lk <> Lptable ->
  hw_locks (k_hw k) lk = mkSpinlock true (Some c) -> 0 < c_ncli (hw_cpus (k_hw k) c) ->
  sleep ch (Some lk) (at_cpu c k) = Swtch k' -> sys_inv (mkSys k' (upd mo c MLeave) co').
Proof.
  intros Hm Hp Hlk Hhe Hn E. destruct (inv_cur p) as (Hin & Hr & Hro); [by rewrite Hm|done|].
  assert (free (k_hw k)) as Hf.
  { unfold sleep in E. rewrite (bind_Ret _ _ _ _ _ (myproc_locked (at_cpu c k) Hwf Hn)) in E.
    change (c_proc (my _)) with (c_proc (hw_cpus (k_hw k) c)) in E. rewrite Hp in E.
    rewrite bool_decide_eq_false_2 in E by done. cbn [when negb] in E. rewrite bind_assoc in E.
    match type of E with (on_cpu (acquire Lptable) ;;; ?m) _ = _ =>
      pose proof (acq_free m (at_cpu c k) Hwf) as Hf; rewrite E in Hf; exact Hf end. }
  destruct (sleep_run (at_cpu c k) p lk ch Hwf Hf Hg Hp Hin Hr Hlk Hhe Hn) as (k2 & E2 & Hgo). rewrite E in E2.
  destruct (_ =? 1) eqn:En; [|done]. injection E2 as <-. bool_to_prop. destruct (Hgo En).
  apply (gone_inv y c p); auto.
Qed.

Lemma inv_wait p st : mo c = MProc -> c_proc (hw_cpus (k_hw k) c) = Some p ->
  wp (wait ustore32 st (at_cpu c k)) (fun _ k' => sys_inv (mkSys k' mo co))
    (fun k' => sys_inv (mkSys k' (upd mo c MLeave) co')).
Proof.
  intros Hm Hp. destruct (inv_cur p) as (Hin & Hr & Hro); [by rewrite Hm|done|].
  eapply wp_mono; [by apply (wait_spec (at_cpu c k) p st)|..].
  - intros r k2 [Hf Hcr]. eapply (critical_inv_same y c); eauto. simpl. by rewrite Hm.
  - intros k2 [Hf Hgo]. apply (gone_inv y c p); auto.
Qed.

Lemma inv_wait_resume p i st : mo c = MEnter -> c_proc (hw_cpus (k_hw k) c) = Some p ->
  wp (wait_resume ustore32 p i st (at_cpu c k)) (fun _ k' => sys_inv (mkSys k' (upd mo c MProc) co))
    (fun k' => sys_inv (mkSys k' (upd mo c MLeave) co')).
Proof.
  intros Hm Hp. destruct (inv_cur p) as (Hin & Hr & Hro); [by rewrite Hm|done|].
  assert (locked (mo c) = true) as Hl by by rewrite Hm.
  destruct (holds_at y c Hinv Hc Hl) as [Hh Hn]. change (y_k y) with k in *.
  unfold wait_resume. destruct (sleep_tidy_run (at_cpu c k) p i Hh Hg) as (k1 & E1 & Hin1).
  rewrite (bind_Ret _ _ _ _ _ E1). rewrite Hn in Hin1.
  eapply wp_mono; [by apply (wait_scan_spec ustore32 ustore_frame (at_cpu c k) p 1 Hp Hin Hr)|..].
  - intros r k2 Hcr. refine (critical_inv y c MProc 1 k2 co Hinv Hc (or_intror Hl) Hcr _ eq_refl _); [|done].
    change (true = active (mo c)). by rewrite Hm.
  - intros k2 [_ Hgo]. apply (gone_inv y c p); auto.
Qed.

Lemma inv_exit p st : mo c = MProc -> c_proc (hw_cpus (k_hw k) c) = Some p ->
  (on_cpu (acquire Lptable) ;;; exit_locked p st) (at_cpu c k) = Swtch k' ->
  sys_inv (mkSys k' (upd mo c MLeave) co).
Proof.
  intros Hm Hp E. destruct (inv_cur p) as (Hin & Hr & Hro); [by rewrite Hm|done|].
  pose proof (acq_free (exit_locked p st) (at_cpu c k) Hwf) as Hf. rewrite E in Hf. cbn [wp] in Hf.
  rewrite (bind_Ret _ _ _ _ _ (kacquire_run _ Hwf Hf)) in E.
  pose proof (exit_spec (at_cpu c k) p _ Hp Hin Hr _ st (inside_start _ Hwf Hg)) as Hx.
  rewrite E in Hx. destruct Hx as (_ & Hgo & _). apply (gone_inv y c p); auto.
Qed.

Lemma inv_alloc_fail np : locked (mo c) = false -> np ∈ procs -> p_state (pt_proc (k_pt k) np) = EMBRYO ->
  sys_inv (mkSys (set_k_pt (put_proc (k_pt k) np (set_p_state UNUSED (pt_proc (k_pt k) np))) (at_cpu c k)) mo co).
Proof.
  intros Hl Hnp Hs. apply (lockless_inv y c); try done; try by apply ev_refl.
  destruct (good_null (k_pt k) np Hg) as [Hv Hn]; [congruence|].
  apply put_quiet; simpl; rewrite ?Hs; try done; [by apply good_prio|]. by intros [?|[?|?]].
Qed.

Lemma inv_other : locked (mo c) = false -> other c (mo c) k k' -> sys_inv (mkSys k' mo co).
Proof.
  intros Hl Ho. pose proof (other_quiet c (mo c) k k' Hg Ho). destruct Ho. by apply (lockless_inv y c).
Qed.
End steps.

Lemma acq_free_at {A} (m : M kst A) c k : hw_wf (k_hw (at_cpu c k)) ->
  wp ((on_cpu (acquire Lptable) ;;; m) (at_cpu c k)) (fun _ _ => free (k_hw k)) (fun _ => free (k_hw k)).
Proof. intros Hwf. exact (acq_free m (at_cpu c k) Hwf). Qed.

(** An operation that is one critical section. *)
Lemma section_inv {A} c k mo co co' (m : M kst A) r k' :
  sys_inv (mkSys k mo co) -> (c < hw_ncpu (k_hw k))%nat -> locked (mo c) = false ->
  (hw_wf (k_hw (at_cpu c k)) -> wp (m (at_cpu c k)) (fun _ _ => free (k_hw k)) (fun _ => free (k_hw k))) ->
  (hw_wf (k_hw (at_cpu c k)) -> free (k_hw k) -> good (k_pt k) -> exists r k',
     m (at_cpu c k) = Ret r k' /\ critical (c_ncli (hw_cpus (k_hw k) c) + 1) (at_cpu c k) k') ->
  m (at_cpu c k) = Ret r k' -> sys_inv (mkSys k' mo co').
Proof.
  intros Hi Hc Hl Hf Hrun E. pose proof (wf_at c k (si_wf _ Hi) Hc) as Hwf.
  specialize (Hf Hwf). rewrite E in Hf. cbn [wp] in Hf.
  destruct (Hrun Hwf Hf (si_good _ Hi)) as (r2 & k2 & E2 & Hcr).
  rewrite E in E2. injection E2 as <- <-. by eapply inv_section.
Qed.

Lemma inv_setprio c k k' mo co pid pr r : sys_inv (mkSys k mo co) -> (c < hw_ncpu (k_hw k))%nat ->
  mo c = MProc -> setprio pid pr (at_cpu c k) = Ret r k' -> sys_inv (mkSys k' mo co).
Proof.
  intros Hi Hc Hm E. destruct (negb (pr =? HI_PRIO) && negb (pr =? NORM_PRIO)) eqn:Hpr.
  - unfold setprio in E. rewrite Hpr in E. injection E as <- <-.
    apply (lockless_inv (mkSys k mo co) c); try done; [simpl; by rewrite Hm| |].
    + by apply ev_refl, wf_at; [apply (si_wf _ Hi)|].
    + apply quiet_refl, (si_good _ Hi).
  - eapply section_inv; eauto; [by rewrite Hm| |].
    + unfold setprio. rewrite Hpr. by apply acq_free_at.
    + intros Hwf Hf Hg. apply setprio_run; try done. unfold prio_ok.
      apply andb_false_iff in Hpr as [Hpr|Hpr]; bool_to_prop; auto.
Qed.

Lemma step_inv y y' : sys_inv y -> sys_step y y' -> sys_inv y'.
Proof.
  intros Hinv Hstep.
  destruct Hstep as [c k k' mo co Hc Hm E|c k k' mo co Hc Hm E|c k k' mo co Hc Hm E
    |c p k k' mo co Hc Hm Hp Hco E|c p k k' mo co Hc Hm Hp E|c p i k k' mo co Hc Hm Hp Hco E
    |c p ch lk k k' mo co Hc Hm Hp Hlk Hhe Hn E|c p i k k' mo co Hc Hm Hp Hco E
    |c p st r k k' mo co Hc Hm Hp E|c p st k k' mo co Hc Hm Hp E|c p i st r k k' mo co Hc Hm Hp Hco E
    |c p i st k k' mo co Hc Hm Hp Hco E|c p st k k' mo co Hc Hm Hp E|c ch k k' mo co Hc Hm E
    |c pid r k k' mo co Hc Hm E|c pid r k k' mo co Hc Hm E|c pid pr r k k' mo co Hc Hm E
    |c r k k' mo co Hc Hm E|c np k mo co Hc Hm Hnp Hs|c np k k' mo co Hc Hm Hnp Hs Hk Hd E
    |c p np k k' mo co Hc Hm Hp Hnp Hs Hpa Hk Hd E|c k k' mo co Hc Hm Ho].
  - pose proof (inv_turn c k mo co Hinv Hc Hm) as Ht. by rewrite E in Ht.
  - pose proof (inv_turn c k mo co Hinv Hc Hm) as Ht. by rewrite E in Ht.
  - by eapply inv_return.
  - eapply inv_resume; eauto. apply forkret_release_run.
  - by eapply inv_yield.
  - eapply inv_resume; eauto. intros; by apply yield_resume_run.
  - by eapply inv_sleep.
  - eapply inv_resume; eauto. intros; by apply sleep_resume_run.
  - pose proof (inv_wait c k mo co co Hinv Hc p st Hm Hp) as Ht. by rewrite E in Ht.
  - pose proof (inv_wait c k mo co (upd co p (CWait (c_intena (hw_cpus (k_hw k') c)) st)) Hinv Hc p st Hm Hp) as Ht.
    by rewrite E in Ht.
  - pose proof (inv_wait_resume c k mo co co Hinv Hc p i st Hm Hp) as Ht. by rewrite E in Ht.
  - pose proof (inv_wait_resume c k mo co (upd co p (CWait (c_intena (hw_cpus (k_hw k') c)) st)) Hinv Hc p i st Hm Hp) as Ht.
    by rewrite E in Ht.
  - by eapply inv_exit.
  - eapply section_inv; eauto; [apply acq_free_at|]. intros Hwf Hf Hg.
    destruct (wakeup_run (at_cpu c k) Hwf Hf Hg ch) as (k2 & ? & ? & _). eauto.
  - eapply section_inv; eauto; [by rewrite Hm|apply acq_free_at|]. intros. by apply kill_run.
  - eapply section_inv; eauto; [by rewrite Hm|apply acq_free_at|]. intros Hwf Hf Hg.
    destruct (getprio_run (at_cpu c k) Hwf Hf Hg pid) as (r2 & k2 & ? & ? & _). eauto.
  - by eapply inv_setprio.
  - eapply section_inv; eauto; [apply acq_free_at|]. intros Hwf Hf Hg.
    destruct (alloc_claim_run (at_cpu c k) Hwf Hf Hg) as (r2 & k2 & ? & ? & _). eauto.
  - by apply inv_alloc_fail.
  - eapply section_inv; eauto; [apply acq_free_at|]. intros Hwf Hf Hg.
    destruct (init_publish_run (at_cpu c k) Hwf Hf Hg np) as (k2 & ? & ?); eauto.
  - destruct (inv_cur c k mo co Hinv Hc p) as (Hin & Hr & _); [by rewrite Hm|done|].
    eapply section_inv; eauto; [by rewrite Hm|apply acq_free_at|]. intros Hwf Hf Hg.
    destruct (fork_publish_run (at_cpu c k) Hwf Hf Hg np p) as (k2 & ? & ?); eauto.
    intros ->. unfold runs in Hr. congruence.
  - by eapply inv_other.
Qed.

Lemma reachable_inv y0 y : sys_boot y0 -> rtc sys_step y0 y -> sys_inv y.
Proof. intros H0 Hs. apply boot_inv in H0. induction Hs; eauto using step_inv. Qed.

(** C1. In every reachable state of the multiprocessor, whatever the
    interleaving of scheduling, sleeping, waking, forking, exiting, killing and
    changing priorities, the queues hold exactly the RUNNABLE processes, each once
    and in the queue of its own priority. *)
Theorem queues_hold_runnable y0 y : sys_boot y0 -> rtc sys_step y0 y ->
  exists qs, queued (k_pt (y_k y)) qs /\
    (forall pr, NoDup (qs pr)) /\
    (forall i pr, i ∈ procs -> i ∈ qs pr <->
       p_state (pt_proc (k_pt (y_k y)) i) = RUNNABLE /\ p_priority (pt_proc (k_pt (y_k y)) i) = pr) /\
    (forall i pr, i ∈ qs pr -> i ∈ procs /\ prio_ok pr).
Proof.
  intros H0 Hs. destruct (si_good _ (reachable_inv y0 y H0 Hs)) as [[qs Hq] _]. exists qs.
  assert (forall i pr, i ∈ qs pr -> i ∈ procs /\ p_state (pt_proc (k_pt (y_k y)) i) = RUNNABLE /\
    p_priority (pt_proc (k_pt (y_k y)) i) = pr) as Hin.
  { intros i pr Hi. destruct (pi_elem _ _ Hq pr i Hi). split_and!; [done..|].
    by apply (queued_prio _ _ (pi_queued _ _ Hq)). }
  split_and!; [apply Hq| | |].
  - intros pr. eapply ring_NoDup, (queued_ring _ _ (pi_queued _ _ Hq)).
  - intros i pr Hi. split; [intros Hx; by destruct (Hin i pr Hx) as (_ & ? & ?)|].
    intros [Hr <-]. by apply Hq.
  - intros i pr Hi. destruct (Hin i pr Hi) as (Hp & _ & <-). split; [done|]. by apply Hq.
Qed.

(** C2. No process ever runs on two CPUs, and a process is RUNNING exactly while
    some CPU runs it. *)
Theorem process_runs_on_one_cpu y0 y p : sys_boot y0 -> rtc sys_step y0 y -> p ∈ procs ->
  (p_state (pt_proc (k_pt (y_k y)) p) = RUNNING <-> exists c, running_on y c p) /\
  forall c c', running_on y c p -> running_on y c' p -> c = c'.
Proof.
  intros H0 Hs Hp. pose proof (reachable_inv y0 y H0 Hs) as Hinv. split.
  - split; [by apply (si_running _ Hinv)|]. intros (c & Hc & Ha & Hcp).
    destruct (si_active _ Hinv c Hc Ha) as (q & Hq & _ & Hr). congruence.
  - intros c c'. apply (si_unique _ Hinv).
Qed.

(** C4. The scheduler in a reachable state, when the lock is free: it never
    panics; it idles only if no process is runnable; otherwise it switches to a
    RUNNABLE process that it marks RUNNING on this CPU, and that process has
    normal priority only if no high-priority process is runnable. *)
Theorem scheduler_picks_by_priority y0 y c : sys_boot y0 -> rtc sys_step y0 y ->
  (c < hw_ncpu (y_hw y))%nat -> y_mode y c = MSched -> free (y_hw y) ->
  let st i := p_state (pt_proc (k_pt (y_k y)) i) in
  let pr i := p_priority (pt_proc (k_pt (y_k y)) i) in
  (exists k', scheduler_turn ts c (at_cpu c (y_k y)) = Ret tt k' /\
     forall i, i ∈ procs -> st i <> RUNNABLE) \/
  (exists p k', scheduler_turn ts c (at_cpu c (y_k y)) = Swtch k' /\
     p ∈ procs /\ st p = RUNNABLE /\ (pr p = NORM_PRIO -> forall i, i ∈ procs -> st i = RUNNABLE -> pr i = NORM_PRIO) /\
     c_proc (hw_cpus (k_hw k') c) = Some p /\ p_state (pt_proc (k_pt k') p) = RUNNING).
Proof.
  intros H0 Hs Hc Hm Hf st pr. pose proof (reachable_inv y0 y H0 Hs) as Hinv.
  pose proof (si_good _ Hinv) as Hg. pose proof Hg as [[qs Hq] _].
  pose proof (wf_at c (y_k y) (si_wf _ Hinv) Hc) as Hwf.
  assert (forall i, i ∈ procs -> st i = RUNNABLE -> i ∈ qs (pr i) /\ i ∈ order qs) as Hord.
  { intros i Hi Hr. pose proof (pi_runnable _ _ Hq i Hi Hr) as Hin. split; [done|]. fold (pr i) in Hin.
    unfold order. destruct (pi_prio _ _ Hq i Hi) as [E|E]; fold (pr i) in E; rewrite E in Hin; set_solver. }
  pose proof (turn_run (at_cpu c (y_k y)) ts qs Hwf Hf Hg Hq (si_sched _ Hinv c Hc Hm)) as Ht.
  change (hw_me (k_hw (at_cpu c (y_k y)))) with c in Ht. destruct (order qs) as [|p r] eqn:Eo.
  - left. destruct Ht as (k' & E & _). exists k'. split; [done|]. intros i Hi Hr.
    destruct (Hord i Hi Hr) as [_ []%not_elem_of_nil].
  - right. destruct Ht as (k' & qs' & E & [Ev Pr _ _ Hp Hrn _ Ru] & _). exists p, k'. split_and!; try done.
    + intros Hpp i Hi Hr. destruct (pi_prio _ _ Hq i Hi) as [Eh|]; [|done]. exfalso. fold (pr i) in Eh.
      destruct (Hord i Hi Hr) as [Hin _]. rewrite Eh in Hin. unfold order in Eo.
      destruct (qs HI_PRIO) as [|x l] eqn:Ex; [by apply not_elem_of_nil in Hin|]. simpl in Eo. injection Eo as -> _.
      assert (pr p = HI_PRIO) as Hx; [|by rewrite Hx in Hpp].
      apply (queued_prio _ _ (pi_queued _ _ Hq)). rewrite Ex. left.
    + rewrite <- Pr. unfold my. by rewrite (ev_me _ _ Ev).
    + apply Ru; auto.
Qed.
End sys.
