(* ===== verification/UserMem.v ===== *)
(** * User memory from the kernel: page faults and lazy allocation (trap.c)

    [pgflt] is the T_PGFLT case of trap.  The kernel reads and writes user memory
    through the page table of the CPU; a missing page raises the fault, and the
    access is made again when the handler returns. *)
From S2P Require Import Prelude Machine ProcQueue StringC Spinlock Kalloc Vm VmInv VmSpec VmFrame Proc RunQueue ProcRun Sched.

Section usermem.
Context `{Symbols}.

(** [myproc()->killed = 1] *)
Definition kill_me : M kst unit :=
  let* cur := myproc in nonnull cur (fun p => pset p (set_p_killed true)).

(** The page fault handler; [fltaddr] is the register cr2 and [err] the error
    code of the trap frame. *)
Definition pgflt (fltaddr err : Z) : M kst unit :=
  let* cur := myproc in
  nonnull cur (fun p =>
  let* pp := pget p in
  if fltaddr >=? p_sz pp then kill_me else
  let fltpage := PGROUNDDOWN fltaddr in
  let* cur := myproc in
  nonnull cur (fun p =>
  let* pp := pget p in
  let* pte := on_vm (walkpgdir (p_pgdir pp) fltpage false) in
  let* present := (if pte =? 0 then ret false else let* e := on_vm (ld pte) in ret (flag e PTE_P)) in
  if present then
    if negb (flag err PTE_U) then panic "kernel had a page fault" else kill_me
  else
  let* mem := on_vm kalloc in
  if mem =? 0 then kill_me else
  on_vm (memop (memset mem 0 PGSIZE)) ;;;
  let* cur := myproc in
  nonnull cur (fun p =>
  let* pp := pget p in
  let* r := on_vm (mappages (p_pgdir pp) fltpage PGSIZE (V2P mem) (Z.lor PTE_W PTE_U)) in
  if r <? 0 then kill_me else ret tt))).

(** ** The memory management unit *)

(** The page directory of the CPU. *)
Definition mmu_dir : M kst Z := gets (fun s => P2V (c_cr3 (my (k_hw s)))).

(** The entry for [va], if its page is present. *)
Definition mmu_entry (va : Z) : M kst (option Z) :=
  let* d := mmu_dir in
  let* pte := on_vm (walkpgdir d va false) in
  if pte =? 0 then ret None else
  let* e := on_vm (ld pte) in
  ret (if flag e PTE_P then Some e else None).

(** The error code of a fault in kernel mode. *)
Definition err_code (present write : bool) : Z := (if present then 1 else 0) + (if write then 2 else 0).

(** A byte at a user address, read and written by the kernel.  When the access faults, it is made again
    after the handler; [tries] bounds how often. *)
Fixpoint uload8_loop (tries : nat) (va : Z) : M kst Z :=
  match tries with
  | O => out_of_fuel
  | S n =>
    let* e := mmu_entry va in
    match e with
    | Some e => gets (fun s => v_mem (k_vm s) (P2V (PTE_ADDR e) + va mod 4096))
    | None => pgflt va (err_code false false) ;;; uload8_loop n va
    end
  end.

Fixpoint ustore8_loop (tries : nat) (va v : Z) : M kst unit :=
  match tries with
  | O => out_of_fuel
  | S n =>
    let* e := mmu_entry va in
    match e with
    | Some e =>
      if flag e PTE_W then on_vm (memop (fun m => upd m (P2V (PTE_ADDR e) + va mod 4096) (u8 v)))
      else pgflt va (err_code true true) ;;; ustore8_loop n va v
    | None => pgflt va (err_code false true) ;;; ustore8_loop n va v
    end
  end.

(** Two tries are enough: an access that faults twice faults for ever, see [uload8_tries] and [ustore8_tries]. *)
Definition uload8 : Z -> M kst Z := uload8_loop 2.
Definition ustore8 : Z -> Z -> M kst unit := ustore8_loop 2.

(** An [int] at a user address. *)
Definition uload32 (va : Z) : M kst Z :=
  let* b0 := uload8 va in
  let* b1 := uload8 (u32 (va + 1)) in
  let* b2 := uload8 (u32 (va + 2)) in
  let* b3 := uload8 (u32 (va + 3)) in
  ret (s32 (u8 b0 + 256 * u8 b1 + 65536 * u8 b2 + 16777216 * u8 b3)).

Definition ustore32 (va v : Z) : M kst unit :=
  ustore8 va v ;;;
  ustore8 (u32 (va + 1)) (Z.shiftr v 8) ;;;
  ustore8 (u32 (va + 2)) (Z.shiftr v 16) ;;;
  ustore8 (u32 (va + 3)) (Z.shiftr v 24).

(** ** What an access leaves alone *)

(** The CPUs of [h], the scheduling data of the table [t]. *)
Definition ulike (h : hw) (t : ptable) (s : kst) : Prop :=
  like h (k_vm s) /\ tab_minor t (k_pt s).

Lemma tab_minor_trans t1 t2 t3 : tab_minor t1 t2 -> tab_minor t2 t3 -> tab_minor t1 t3.
Proof.
  intros [Q1 M1] [Q2 M2]. split; [intros; by rewrite Q2|]. intros i. destruct (M1 i), (M2 i). split; congruence.
Qed.

Section frame.
Context (h : hw) (t : ptable).
Let I := ulike h t.

Lemma on_vm_keeps {A} (m : M vmst A) : (forall h, keeps (like h) m) -> keeps I (on_vm m).
Proof.
  intros Hm s [Hl Ht]. specialize (Hm h (k_vm s) Hl). unfold on_vm, zoom.
  destruct (m (k_vm s)); done.
Qed.
Lemma myproc_keeps : keeps I myproc.
Proof.
  intros s [[Hwf Hs] Ht]. rewrite myproc_run by done. split; [|done]. split; simpl.
  - by apply settled_wf.
  - eapply hw_same_trans; [done|]. apply set_my_same, settled_same.
Qed.
Lemma pget_keeps p : keeps I (pget p).
Proof. intros s Hs. by rewrite pget_run. Qed.
Lemma pset_keeps p f : (forall q, minor q (f q)) -> keeps I (pset p f).
Proof.
  intros Hf s [Hl Ht]. rewrite pset_run. split; [done|]. eapply tab_minor_trans; [done|]. by apply put_minor.
Qed.
Lemma nonnull_keeps {A} o (k : nat -> M kst A) : (forall p, keeps I (k p)) -> keeps I (nonnull o k).
Proof. intros Hk. destruct o; [apply Hk|apply keeps_fault]. Qed.
Lemma kfuel_keeps {A} : keeps I (out_of_fuel (A := A)).
Proof. by intros s. Qed.
Lemma kgets_keeps {A} (f : kst -> A) : keeps I (gets f).
Proof. by intros s. Qed.

Lemma mappages_keeps h' d va sz pa perm : keeps (like h') (mappages d va sz pa perm).
Proof.
  unfold mappages. generalize (S (Z.to_nat (u32 (PGROUNDDOWN (u32 (u32 va + sz - 1)) - PGROUNDDOWN (u32 va)) / PGSIZE))).
  generalize (PGROUNDDOWN (u32 (u32 va + sz - 1))), (PGROUNDDOWN (u32 va)). intros last a n. revert a pa.
  induction n as [|n IH]; intros a pa; simpl; eauto 20 with keeps.
Qed.

Hint Resolve myproc_keeps pget_keeps nonnull_keeps kfuel_keeps on_vm_keeps mappages_keeps kgets_keeps : keeps.

Lemma kill_me_keeps : keeps I kill_me.
Proof.
  apply keeps_bind; [auto with keeps|]. intros cur. apply nonnull_keeps. intros p. by apply pset_keeps.
Qed.
Hint Resolve kill_me_keeps : keeps.

Lemma pgflt_keeps va err : keeps I (pgflt va err).
Proof. unfold pgflt. eauto 40 with keeps. Qed.
Hint Resolve pgflt_keeps : keeps.

Lemma mmu_entry_keeps va : keeps I (mmu_entry va).
Proof. unfold mmu_entry, mmu_dir. eauto 20 with keeps. Qed.
Hint Resolve mmu_entry_keeps : keeps.

Lemma ustore8_keeps va v : keeps I (ustore8 va v).
Proof.
  unfold ustore8. generalize 2%nat. intros n. induction n as [|n IH]; cbn [ustore8_loop]; [auto with keeps|].
  apply keeps_bind; [auto with keeps|]. intros [e|]; [|auto 10 with keeps]. destruct (flag e PTE_W); auto 10 with keeps.
Qed.
Lemma uload8_keeps va : keeps I (uload8 va).
Proof.
  unfold uload8. generalize 2%nat. intros n. induction n as [|n IH]; cbn [uload8_loop]; [auto with keeps|].
  apply keeps_bind; [auto with keeps|]. intros [e|]; auto 10 with keeps.
Qed.
Hint Resolve ustore8_keeps uload8_keeps : keeps.

Lemma ustore32_keeps va v : keeps I (ustore32 va v).
Proof. unfold ustore32. auto 10 with keeps. Qed.
Lemma uload32_keeps va : keeps I (uload32 va).
Proof. unfold uload32. auto 20 with keeps. Qed.
End frame.

(** The requirement of the scheduler's invariant. *)
Lemma ustore32_frame k a v : hw_wf (k_hw k) ->
  wp (ustore32 a v k) (fun _ k' => hw_same (k_hw k) (k_hw k') /\ tab_minor (k_pt k) (k_pt k')) (fun _ => False).
Proof.
  intros Hwf. assert (ulike (k_hw k) (k_pt k) k) as Hl.
  { split; [by apply like_refl|]. by split. }
  pose proof (ustore32_keeps (k_hw k) (k_pt k) a v k Hl) as Hk. unfold wp.
  destruct (ustore32 a v k) as [r k'| |k'| |]; try done. destruct Hk as [[_ ?] ?]. done.
Qed.

(** ** Lazy allocation *)

(** Process [p] is current, its page directory is [d] and its size [sz]; memory
    is in order. *)
Record user_ok (s : kst) (l : list Z) (own : owner) (ds : list Z) (p : nat) (d sz : Z) : Prop := {
  uo_vm : vm_inv (k_vm s) l own ds;
  uo_cur : c_proc (my (k_hw s)) = Some p;
  uo_dir : p_pgdir (pt_proc (k_pt s) p) = d;
  uo_in : d ∈ ds;
  uo_sz : p_sz (pt_proc (k_pt s) p) = sz;
  uo_top : 0 <= sz <= KERNBASE;
}.

Lemma user_ok_wf s l own ds p d sz : user_ok s l own ds p d sz -> hw_wf (k_hw s).
Proof. intros Ho. apply (kr_wf _ (vi_ready _ _ _ _ (uo_vm _ _ _ _ _ _ _ Ho))). Qed.

Lemma user_myproc s l own ds p d sz : user_ok s l own ds p d sz ->
  exists s', myproc s = Ret (Some p) s' /\ user_ok s' l own ds p d sz /\
    v_mem (k_vm s') = v_mem (k_vm s) /\ k_pt s' = k_pt s.
Proof.
  intros Ho. pose proof (user_ok_wf _ _ _ _ _ _ _ Ho) as Hwf. destruct Ho as [Hv Hc Hd Hi Hz Ht].
  rewrite myproc_run, Hc by done. eexists. split; [done|]. split; [|done]. split; try done.
  - apply vm_inv_hw; [done|by apply settled_wf|]. apply (kr_lock _ (vi_ready _ _ _ _ Hv)).
  - change (k_hw (set_khw ?h s)) with h. by rewrite my_set_my, proc_settled.
Qed.

(** A step of memory management keeps the current process. *)
Lemma user_vm {A} (m : M vmst A) s ds p d sz a v l' own' :
  hw_wf (k_hw s) -> c_proc (my (k_hw s)) = Some p -> p_pgdir (pt_proc (k_pt s) p) = d -> d ∈ ds ->
  p_sz (pt_proc (k_pt s) p) = sz -> 0 <= sz <= KERNBASE ->
  (forall h, keeps (like h) m) -> m (k_vm s) = Ret a v -> vm_inv v l' own' ds ->
  on_vm m s = Ret a (set_k_vm v s) /\ user_ok (set_k_vm v s) l' own' ds p d sz.
Proof.
  intros Hwf Hc Hd Hi Hz Ht Hm E Hv. split; [by apply on_vm_Ret|]. split; try done.
  specialize (Hm (k_hw s) (k_vm s) (like_refl _ Hwf)). rewrite E in Hm. destruct Hm as [_ Hs].
  change (c_proc (my (v_hw v)) = Some p). by rewrite (proj1 (my_same _ _ Hs)).
Qed.

Lemma kill_me_run s l own ds p d sz : user_ok s l own ds p d sz ->
  exists s', kill_me s = Ret tt s' /\ user_ok s' l own ds p d sz /\ v_mem (k_vm s') = v_mem (k_vm s) /\
    k_pt s' = put_proc (k_pt s) p (set_p_killed true (pt_proc (k_pt s) p)).
Proof.
  intros Ho. destruct (user_myproc _ _ _ _ _ _ _ Ho) as (s1 & E & [Hv Hc Hd Hi Hz Ht] & Hm & Hp).
  unfold kill_me. rewrite (bind_Ret _ _ _ _ _ E). cbn [nonnull]. rewrite pset_run, Hp.
  eexists. split; [done|]. split; [|done]. split; simpl; rewrite ?upd_eq; simpl; rewrite <- ?Hp; done.
Qed.

Lemma page_down va : 0 <= va < KERNBASE -> PGROUNDDOWN va = va / 4096 * 4096 /\
  PGROUNDDOWN va / 4096 = va / 4096 /\ PGROUNDDOWN va mod 4096 = 0 /\ 0 <= PGROUNDDOWN va < KERNBASE.
Proof. unfold KERNBASE. intros. rewrite PGROUNDDOWN_eq. unfold PGSIZE. Z.div_mod_to_equations. lia. Qed.

(** The handler on a missing page of the process: what remains to be done once
    the tests are passed. *)
Lemma pgflt_missing s l own ds p d sz va err : user_ok s l own ds p d sz -> 0 <= va < sz ->
  pm (v_mem (k_vm s)) d (va / 4096) = None ->
  exists s1, user_ok s1 l own ds p d sz /\ v_mem (k_vm s1) = v_mem (k_vm s) /\ k_pt s1 = k_pt s /\
    pgflt va err s =
      (let* mem := on_vm kalloc in
       if mem =? 0 then kill_me else
       on_vm (memop (memset mem 0 PGSIZE)) ;;;
       let* cur := myproc in
       nonnull cur (fun p =>
       let* pp := pget p in
       let* r := on_vm (mappages (p_pgdir pp) (PGROUNDDOWN va) PGSIZE (V2P mem) (Z.lor PTE_W PTE_U)) in
       if r <? 0 then kill_me else ret tt)) s1.
Proof.
  intros Ho Hva Hno. destruct (user_myproc _ _ _ _ _ _ _ Ho) as (s1 & E1 & Ho1 & Hm1 & Hp1).
  destruct (user_myproc _ _ _ _ _ _ _ Ho1) as (s2 & E2 & Ho2 & Hm2 & Hp2).
  exists s2. split_and!; [done|congruence|congruence|]. unfold pgflt.
  rewrite (bind_Ret _ _ _ _ _ E1). cbn [nonnull]. rewrite (bind_Ret _ _ _ _ _ (pget_run p s1)).
  rewrite (uo_sz _ _ _ _ _ _ _ Ho1), Z.geb_leb, (proj2 (Z.leb_gt _ _)) by lia.
  rewrite (bind_Ret _ _ _ _ _ E2). cbn [nonnull]. rewrite (bind_Ret _ _ _ _ _ (pget_run p s2)).
  rewrite (uo_dir _ _ _ _ _ _ _ Ho2). pose proof (uo_top _ _ _ _ _ _ _ Ho).
  destruct (page_down va) as (_ & Hdiv & _ & Hr); [lia|].
  assert (on_vm (walkpgdir d (PGROUNDDOWN va) false) s2 = Ret (if present (v_mem (k_vm s2)) d (va / 4096 / 1024)
    then slot (v_mem (k_vm s2)) d (va / 4096) else 0) s2) as Ew.
  { rewrite (on_vm_Ret _ _ _ _ (walk_lookup (k_vm s2) d (PGROUNDDOWN va) ltac:(unfold KERNBASE in *; lia))), Hdiv.
    by destruct s2. }
  rewrite (bind_Ret _ _ _ _ _ Ew). rewrite <- Hm1, <- Hm2 in Hno. unfold pm in Hno.
  destruct (present (v_mem (k_vm s2)) d (va / 4096 / 1024)) eqn:Hpr.
  - rewrite (proj2 (Z.eqb_neq _ 0)).
    2: { eapply slot_nonzero; [apply Ho2|apply Ho2| |done]. apply va_idx. unfold KERNBASE in *. lia. }
    rewrite bind_assoc. rewrite (bind_Ret (on_vm (ld _)) _ s2 (load32 (v_mem (k_vm s2)) (slot (v_mem (k_vm s2)) d (va / 4096))) s2)
      by (by destruct s2). cbn [bind ret]. unfold bind at 1, ret at 1.
    destruct (flag (load32 _ _) PTE_P); [done|]. done.
  - done.
Qed.

(** The state after the handler killed the process. *)
Definition killed_by_fault (s s' : kst) (p : nat) (ds : list Z) : Prop :=
  k_pt s' = put_proc (k_pt s) p (set_p_killed true (pt_proc (k_pt s) p)) /\
  views_same ds (v_mem (k_vm s)) (v_mem (k_vm s')).

Lemma pgflt_run s l own ds p d sz va err : user_ok s l own ds p d sz -> 0 <= va < sz ->
  pm (v_mem (k_vm s)) d (va / 4096) = None ->
  exists s' l' own', pgflt va err s = Ret tt s' /\ user_ok s' l' own' ds p d sz /\
    ((k_pt s' = k_pt s /\ grown (k_vm s) (k_vm s') l l' own own' ds d (va / 4096) (va / 4096 + 1)) \/
     l' = [] /\ killed_by_fault s s' p ds).
Proof.
  intros Ho Hva Hno. destruct (pgflt_missing _ _ _ _ _ _ _ _ err Ho Hva Hno) as (s1 & Ho1 & Hm1 & Hp1 & ->).
  pose proof (uo_top _ _ _ _ _ _ _ Ho). destruct (page_down va) as (_ & Hdiv & Hal & Hr); [lia|].
  assert (pm (v_mem (k_vm s1)) d (PGROUNDDOWN va / 4096) = None) as Hno1 by (by rewrite Hdiv, Hm1).
  destruct (grow_page _ _ _ _ d (PGROUNDDOWN va) (uo_vm _ _ _ _ _ _ _ Ho1) (uo_in _ _ _ _ _ _ _ Ho1) Hal Hr Hno1)
    as [(v1 & Ek & Hi1 & -> & Hmm)|(v & v1 & Ek & Hv0 & Hov & Hgv & Hkr & _ & Hmap)].
  { destruct (user_vm kalloc s1 ds p d sz 0 v1 [] own) as [E2 Ho2]; try by destruct Ho1.
    { by eapply user_ok_wf. }
    { intros; apply kalloc_keeps. }
    destruct (kill_me_run _ _ _ _ _ _ _ Ho2) as (s3 & E3 & Ho3 & Hm3 & Hp3).
    exists s3, [], own. rewrite (bind_Ret _ _ _ _ _ E2). split_and!; [done|done|]. right. split; [done|]. split.
    - rewrite Hp3. simpl. by rewrite Hp1.
    - rewrite Hm3. simpl. rewrite Hmm, Hm1. by intros d' a. }
  pose proof (user_ok_wf _ _ _ _ _ _ _ Ho1) as Hwf1.
  pose proof (kalloc_keeps (k_hw s1) (k_vm s1) (like_refl _ Hwf1)) as Hlk. rewrite Ek in Hlk. destruct Hlk as [_ Hsame].
  destruct (my_same _ _ Hsame) as [Hpr _]. rewrite (uo_cur _ _ _ _ _ _ _ Ho1) in Hpr.
  rewrite (bind_Ret _ _ _ _ _ (on_vm_Ret _ _ _ _ Ek)), (proj2 (Z.eqb_neq v 0)) by done.
  set (v2 := set_v_mem (memset v 0 PGSIZE (v_mem v1)) v1). set (s2 := set_k_vm v2 s1).
  rewrite (bind_Ret (on_vm (memop _)) _ (set_k_vm v1 s1) tt s2) by done.
  assert (hw_wf (k_hw s2)) as Hwf2 by apply Hkr.
  rewrite (bind_Ret myproc _ s2 _ _ (myproc_run s2 Hwf2)).
  change (k_hw s2) with (v_hw v1). rewrite Hpr. cbn [nonnull].
  set (hh := set_my (settled (my (v_hw v1))) (v_hw v1)). set (s3 := set_khw hh s2).
  rewrite (bind_Ret _ _ _ _ _ (pget_run p s3)). change (k_pt s3) with (k_pt s1).
  rewrite (uo_dir _ _ _ _ _ _ _ Ho1).
  assert (hw_wf hh) as Hwh by apply (settled_wf _ Hwf2).
  destruct (Hmap hh Hwh (kr_lock _ Hkr)) as [(v3 & E3 & Hi3 & -> & Hs3 & Hd3 & _)|(v3 & l3 & own3 & E3 & Hg3)].
  - destruct (user_vm (mappages d (PGROUNDDOWN va) PGSIZE (V2P v) (Z.lor PTE_W PTE_U)) s3 ds p d sz
      (-1) v3 [] (upd own v (Some (d, RUser (PGROUNDDOWN va / 4096))))) as [E4 Ho4]; try by destruct Ho1.
    { change (k_hw s3) with hh. unfold hh. by rewrite my_set_my, proc_settled. }
    { intros; apply mappages_keeps. }
    rewrite (bind_Ret _ _ _ _ _ E4). cbn [Z.ltb Z.compare].
    destruct (kill_me_run _ _ _ _ _ _ _ Ho4) as (s5 & E5 & Ho5 & Hm5 & Hp5).
    eexists s5, _, _. split_and!; [exact E5|exact Ho5|]. right. split; [done|]. split.
    + rewrite Hp5. simpl. by rewrite Hp1.
    + rewrite Hm5. simpl. intros d' a Hd' Ha. rewrite <- Hm1.
      apply (view_same_space (k_vm s1) [v] own ds); try done; [apply Ho1|].
      apply Hs3; [done|]. by apply uva_page.
  - pose proof Hg3 as [Hi3 _ _ _ _ _ _].
    destruct (user_vm (mappages d (PGROUNDDOWN va) PGSIZE (V2P v) (Z.lor PTE_W PTE_U)) s3 ds p d sz
      0 v3 l3 own3) as [E4 Ho4]; try by destruct Ho1.
    { change (k_hw s3) with hh. unfold hh. by rewrite my_set_my, proc_settled. }
    { intros; apply mappages_keeps. }
    rewrite (bind_Ret _ _ _ _ _ E4). cbn [Z.ltb Z.compare].
    eexists _, _, _. split_and!; [done|exact Ho4|]. left. split; [done|]. rewrite Hdiv in Hg3.
    destruct Hg3 as [G1 G2 G3 G4 G5 G6 G7]. rewrite Hm1 in *. by split.
Qed.

(** C15. Lazy allocation: a fault on an address below the size of the current
    process whose page is missing returns, and either the whole page now reads as
    zeros and is writable by the user while no other byte or permission of any
    address space changed, or memory was exhausted, nothing visible changed and
    the process is marked killed. *)
Theorem pgflt_lazy_allocation s l own ds p d sz va err : user_ok s l own ds p d sz -> 0 <= va < sz ->
  ubyte (v_mem (k_vm s)) d va = None ->
  exists s' l' own', pgflt va err s = Ret tt s' /\ user_ok s' l' own' ds p d sz /\
    ((k_pt s' = k_pt s /\ forall d' a, d' ∈ ds -> 0 <= a < KERNBASE ->
        if decide (d' = d /\ a / 4096 = va / 4096)
        then ubyte (v_mem (k_vm s')) d' a = Some 0 /\
             uperm (v_mem (k_vm s')) d' a = Some (Z.lor (Z.lor PTE_W PTE_U) PTE_P)
        else ubyte (v_mem (k_vm s')) d' a = ubyte (v_mem (k_vm s)) d' a /\
             uperm (v_mem (k_vm s')) d' a = uperm (v_mem (k_vm s)) d' a) \/
     (k_pt s' = put_proc (k_pt s) p (set_p_killed true (pt_proc (k_pt s) p)) /\
      views_same ds (v_mem (k_vm s)) (v_mem (k_vm s')))).
Proof.
  intros Ho Hva Hno. destruct (pgflt_run s l own ds p d sz va err Ho Hva) as (s' & l' & own' & E & Ho' & Hor).
  { unfold ubyte in Hno. by destruct (pm _ d (va / 4096)). }
  exists s', l', own'. split_and!; [done|done|]. destruct Hor as [[Hp [I N P O D _ _]]|[_ Hk]]; [left|by right].
  split; [done|]. intros d' a Hd' Ha. destruct (uva_page a Ha) as [Hu Hr]. case_decide as Hc.
  - destruct Hc as [-> Hc]. destruct (N (a / 4096)) as (e & He & Hf & _ & Hz); [lia|].
    unfold ubyte, uperm. rewrite He. simpl. rewrite Hf, Hz; [done|]. Z.div_mod_to_equations. lia.
  - apply (view_same_space (k_vm s) l own ds); try done; [apply Ho|]. apply P; [done|done|naive_solver lia].
Qed.

(** ** Kernel accesses to user memory *)

Lemma mmu_entry_run s l own ds p d sz va : user_ok s l own ds p d sz -> c_cr3 (my (k_hw s)) = V2P d ->
  0 <= va < sz -> mmu_entry va s = Ret (pm (v_mem (k_vm s)) d (va / 4096)) s.
Proof.
  intros Ho Hcr Hva. pose proof (uo_top _ _ _ _ _ _ _ Ho) as Htop.
  pose proof (vi_space _ _ _ _ (uo_vm _ _ _ _ _ _ _ Ho) d (uo_in _ _ _ _ _ _ _ Ho)) as Hsp.
  destruct (sp_dir _ _ _ Hsp) as [Hgd _].
  destruct (pte_split d 0 Hgd ltac:(lia)) as (_ & _ & _ & Hpd & _).
  unfold mmu_entry, mmu_dir. unfold bind at 1, gets. rewrite Hcr, Hpd.
  assert (0 <= va < 2 ^ 32) as Hv by (unfold KERNBASE in *; lia).
  pose proof (on_vm_Ret _ s _ _ (walk_lookup (k_vm s) d va Hv)) as Ew.
  replace (set_k_vm (k_vm s) s) with s in Ew by (by destruct s).
  rewrite (bind_Ret _ _ _ _ _ Ew). unfold pm.
  destruct (present (v_mem (k_vm s)) d (va / 4096 / 1024)) eqn:Hp; [|done].
  rewrite (proj2 (Z.eqb_neq _ 0)).
  - rewrite (bind_Ret (on_vm (ld _)) _ s (load32 (v_mem (k_vm s)) (slot (v_mem (k_vm s)) d (va / 4096))) s)
      by (by destruct s). done.
  - eapply slot_nonzero; [apply Ho|apply Ho|by apply va_idx|done].
Qed.

Lemma pgflt_cr3 va err s s' : hw_wf (k_hw s) -> pgflt va err s = Ret tt s' ->
  c_cr3 (my (k_hw s')) = c_cr3 (my (k_hw s)).
Proof.
  intros Hwf E. assert (ulike (k_hw s) (k_pt s) s) as Hl by (split; [by apply like_refl|by split]).
  pose proof (pgflt_keeps (k_hw s) (k_pt s) va err s Hl) as Hk. rewrite E in Hk. destruct Hk as [[_ Hs] _].
  change (v_hw (k_vm s')) with (k_hw s') in Hs. unfold my. rewrite (hs_me _ _ Hs). apply (hs_cpu _ _ Hs).
Qed.

Lemma pm_ubyte m d va : ubyte m d va = (fun e => m (P2V (PTE_ADDR e) + va mod 4096)) <$> pm m d (va / 4096).
Proof. unfold ubyte. by destruct (pm m d (va / 4096)). Qed.

(** ** Memory is exhausted *)

Lemma full_fault s own ds p d sz va err : user_ok s [] own ds p d sz -> 0 <= va < sz -> pm (v_mem (k_vm s)) d (va / 4096) = None ->
  exists s', pgflt va err s = Ret tt s' /\ user_ok s' [] own ds p d sz /\ v_mem (k_vm s') = v_mem (k_vm s) /\
    k_pt s' = put_proc (k_pt s) p (set_p_killed true (pt_proc (k_pt s) p)) /\ c_cr3 (my (k_hw s')) = c_cr3 (my (k_hw s)).
Proof.
  intros Ho Hva Hno. destruct (pgflt_missing _ _ _ _ _ _ _ _ err Ho Hva Hno) as (s1 & Ho1 & Hm1 & Hp1 & E).
  destruct (vm_kalloc _ _ _ _ (uo_vm _ _ _ _ _ _ _ Ho1)) as (v1 & Ek & Hk & Hi).
  destruct (user_vm kalloc s1 ds p d sz 0 v1 [] own) as [E2 Ho2]; try by destruct Ho1.
  { by eapply user_ok_wf. }
  { intros; apply kalloc_keeps. }
  destruct (kill_me_run _ _ _ _ _ _ _ Ho2) as (s3 & E3 & Ho3 & Hm3 & Hp3). exists s3.
  rewrite (bind_Ret _ _ _ _ _ E2) in E. assert (pgflt va err s = Ret tt s3) as E' by (by rewrite E).
  split_and!; [done|done|rewrite Hm3; simpl; by rewrite Hk|rewrite Hp3; simpl; by rewrite Hp1|].
  eapply pgflt_cr3; [by eapply user_ok_wf|done].
Qed.

(** An access to a missing page then faults again and again. *)
Lemma uload8_full tries : forall s own ds p d sz va, user_ok s [] own ds p d sz -> c_cr3 (my (k_hw s)) = V2P d -> 0 <= va < sz ->
  pm (v_mem (k_vm s)) d (va / 4096) = None -> uload8_loop tries va s = Spin.
Proof.
  induction tries as [|n IH]; intros s own ds p d sz va Ho Hcr Hva Hno; [done|]. cbn [uload8_loop].
  rewrite (bind_Ret _ _ _ _ _ (mmu_entry_run _ _ _ _ _ _ _ _ Ho Hcr Hva)), Hno.
  destruct (full_fault s own ds p d sz va (err_code false false) Ho Hva Hno) as (s' & E & Ho' & Hm & _ & Hcr').
  rewrite (bind_Ret _ _ _ _ _ E). eapply IH; [done|congruence|done|by rewrite Hm].
Qed.
Lemma ustore8_full tries : forall s own ds p d sz va v, user_ok s [] own ds p d sz -> c_cr3 (my (k_hw s)) = V2P d -> 0 <= va < sz ->
  pm (v_mem (k_vm s)) d (va / 4096) = None -> ustore8_loop tries va v s = Spin.
Proof.
  induction tries as [|n IH]; intros s own ds p d sz va v Ho Hcr Hva Hno; [done|]. cbn [ustore8_loop].
  rewrite (bind_Ret _ _ _ _ _ (mmu_entry_run _ _ _ _ _ _ _ _ Ho Hcr Hva)), Hno.
  destruct (full_fault s own ds p d sz va (err_code false true) Ho Hva Hno) as (s' & E & Ho' & Hm & _ & Hcr').
  rewrite (bind_Ret _ _ _ _ _ E). eapply IH; [done|congruence|done|by rewrite Hm].
Qed.

(** A fault: the page is there afterwards, or memory is exhausted. *)
Lemma fault_cases s l own ds p d sz va err : user_ok s l own ds p d sz -> c_cr3 (my (k_hw s)) = V2P d -> 0 <= va < sz ->
  pm (v_mem (k_vm s)) d (va / 4096) = None -> exists s' l' own', pgflt va err s = Ret tt s' /\ user_ok s' l' own' ds p d sz /\
    c_cr3 (my (k_hw s')) = V2P d /\
    ((exists e, pm (v_mem (k_vm s')) d (va / 4096) = Some e /\ flag e PTE_W = true /\ k_pt s' = k_pt s /\
        v_mem (k_vm s') (P2V (PTE_ADDR e) + va mod 4096) = 0) \/
     l' = [] /\ pm (v_mem (k_vm s')) d (va / 4096) = None).
Proof.
  intros Ho Hcr Hva Hno. destruct (pgflt_run s l own ds p d sz va err Ho Hva Hno) as (s' & l' & own' & E & Ho' & Hor).
  exists s', l', own'. split_and!; [done|done|by rewrite (pgflt_cr3 _ _ _ _ (user_ok_wf _ _ _ _ _ _ _ Ho) E)|].
  destruct Hor as [[Hp [I N P O D _ _]]|[-> [Hp Hv]]].
  - left. destruct (N (va / 4096)) as (e & He & Hf & _ & Hz); [lia|]. exists e. split_and!; [done| |done|].
    + unfold flag. unfold PTE_FLAGS in Hf. assert (Z.land (Z.land (u32 e) 0xFFF) PTE_W = Z.land e PTE_W) as Hw.
      { unfold u32. rewrite <- Z.land_ones, <- !Z.land_assoc by lia. done. }
      rewrite <- Hw, Hf. done.
    + apply Hz. Z.div_mod_to_equations. lia.
  - right. split; [done|]. pose proof (uo_top _ _ _ _ _ _ _ Ho) as Htop. destruct (Hv d va (uo_in _ _ _ _ _ _ _ Ho)) as [Hu _]; [lia|].
    rewrite !pm_ubyte, Hno in Hu. by destruct (pm (v_mem (k_vm s')) d (va / 4096)).
Qed.

(** More than two tries make no difference. *)
Lemma uload8_tries n s l own ds p d sz va : user_ok s l own ds p d sz -> c_cr3 (my (k_hw s)) = V2P d -> 0 <= va < sz ->
  uload8_loop (S (S n)) va s = uload8 va s.
Proof.
  intros Ho Hcr Hva. pose proof (mmu_entry_run _ _ _ _ _ _ _ _ Ho Hcr Hva) as Em. unfold uload8.
  remember (S n) as k eqn:Hk. cbn [uload8_loop]. rewrite !(bind_Ret _ _ _ _ _ Em). destruct (pm _ d (va / 4096)) as [e|] eqn:Hpm; [done|].
  destruct (fault_cases s l own ds p d sz va (err_code false false) Ho Hcr Hva Hpm) as (s' & l' & own' & E & Ho' & Hcr' & Hor).
  rewrite !(bind_Ret _ _ _ _ _ E). destruct Hor as [(e & He & _)|[-> He]].
  - subst k. cbn [uload8_loop]. rewrite !(bind_Ret _ _ _ _ _ (mmu_entry_run _ _ _ _ _ _ _ _ Ho' Hcr' Hva)), He. done.
  - etransitivity; [by eapply uload8_full|symmetry; by eapply (uload8_full 1)].
Qed.

(** The kernel's own fault on a page that is there is a panic. *)
Lemma pgflt_present s l own ds p d sz va e : user_ok s l own ds p d sz -> 0 <= va < sz -> pm (v_mem (k_vm s)) d (va / 4096) = Some e ->
  pgflt va (err_code true true) s = Panic "kernel had a page fault".
Proof.
  intros Ho Hva He. destruct (user_myproc _ _ _ _ _ _ _ Ho) as (s1 & E1 & Ho1 & Hm1 & Hp1).
  destruct (user_myproc _ _ _ _ _ _ _ Ho1) as (s2 & E2 & Ho2 & Hm2 & Hp2). unfold pgflt.
  rewrite (bind_Ret _ _ _ _ _ E1). cbn [nonnull]. rewrite (bind_Ret _ _ _ _ _ (pget_run p s1)).
  rewrite (uo_sz _ _ _ _ _ _ _ Ho1), Z.geb_leb, (proj2 (Z.leb_gt _ _)) by lia.
  rewrite (bind_Ret _ _ _ _ _ E2). cbn [nonnull]. rewrite (bind_Ret _ _ _ _ _ (pget_run p s2)).
  rewrite (uo_dir _ _ _ _ _ _ _ Ho2). pose proof (uo_top _ _ _ _ _ _ _ Ho).
  destruct (page_down va) as (_ & Hdiv & _ & Hr); [lia|]. rewrite <- Hm1, <- Hm2 in He. destruct (present_of_pm _ _ _ _ He) as (Hp & Hl & Hf).
  assert (on_vm (walkpgdir d (PGROUNDDOWN va) false) s2 = Ret (slot (v_mem (k_vm s2)) d (va / 4096)) s2) as Ew.
  { rewrite (on_vm_Ret _ _ _ _ (walk_lookup (k_vm s2) d (PGROUNDDOWN va) ltac:(unfold KERNBASE in *; lia))), Hdiv, Hp. by destruct s2. }
  rewrite (bind_Ret _ _ _ _ _ Ew), (proj2 (Z.eqb_neq _ 0)).
  2: { eapply slot_nonzero; [apply Ho2|apply Ho2| |done]. apply va_idx. unfold KERNBASE in *. lia. }
  rewrite bind_assoc. rewrite (bind_Ret (on_vm (ld _)) _ s2 e s2) by (rewrite <- Hl; by destruct s2). cbn [bind ret]. unfold bind at 1, ret at 1.
  by rewrite Hf.
Qed.

Lemma ustore8_tries n s l own ds p d sz va v : user_ok s l own ds p d sz -> c_cr3 (my (k_hw s)) = V2P d -> 0 <= va < sz ->
  ustore8_loop (S (S n)) va v s = ustore8 va v s.
Proof.
  intros Ho Hcr Hva. pose proof (mmu_entry_run _ _ _ _ _ _ _ _ Ho Hcr Hva) as Em. unfold ustore8.
  remember (S n) as k eqn:Hk. cbn [ustore8_loop]. rewrite !(bind_Ret _ _ _ _ _ Em). destruct (pm _ d (va / 4096)) as [e|] eqn:Hpm.
  { destruct (flag e PTE_W); [done|]. unfold bind. by rewrite (pgflt_present _ _ _ _ _ _ _ _ _ Ho Hva Hpm). }
  destruct (fault_cases s l own ds p d sz va (err_code false true) Ho Hcr Hva Hpm) as (s' & l' & own' & E & Ho' & Hcr' & Hor).
  rewrite !(bind_Ret _ _ _ _ _ E). destruct Hor as [(e & He & Hw & _)|[-> He]].
  - subst k. cbn [ustore8_loop]. rewrite !(bind_Ret _ _ _ _ _ (mmu_entry_run _ _ _ _ _ _ _ _ Ho' Hcr' Hva)), He, Hw. done.
  - etransitivity; [by eapply ustore8_full|symmetry; by eapply (ustore8_full 1)].
Qed.

(** The kernel reads the memory the user sees: below the size of the process
    a read returns the byte of the page if the page is there; of a page that was
    never touched it returns 0, and the page then exists; only when no page can be
    allocated does the access not complete. *)
Theorem uload8_correct s l own ds p d sz va : user_ok s l own ds p d sz ->
  c_cr3 (my (k_hw s)) = V2P d -> 0 <= va < sz ->
  match ubyte (v_mem (k_vm s)) d va with
  | Some b => uload8 va s = Ret b s
  | None => (exists s' l' own', uload8 va s = Ret 0 s' /\ user_ok s' l' own' ds p d sz /\
               k_pt s' = k_pt s /\ ubyte (v_mem (k_vm s')) d va = Some 0) \/ uload8 va s = Spin
  end.
Proof.
  intros Ho Hcr Hva. pose proof (mmu_entry_run _ _ _ _ _ _ _ _ Ho Hcr Hva) as Em. rewrite pm_ubyte.
  unfold uload8. remember 1%nat as one eqn:H1. cbn [uload8_loop]. rewrite (bind_Ret _ _ _ _ _ Em).
  destruct (pm _ d (va / 4096)) as [e|] eqn:Hpm; simpl; [done|].
  destruct (fault_cases s l own ds p d sz va (err_code false false) Ho Hcr Hva Hpm) as (s' & l' & own' & E & Ho' & Hcr' & Hor).
  rewrite (bind_Ret _ _ _ _ _ E). destruct Hor as [(e & He & _ & Hp & H0)|[-> He]]; [left|right; by eapply uload8_full].
  exists s', l', own'. subst one. cbn [uload8_loop]. rewrite (bind_Ret _ _ _ _ _ (mmu_entry_run _ _ _ _ _ _ _ _ Ho' Hcr' Hva)), He.
  unfold gets. rewrite pm_ubyte, He. simpl. rewrite H0. by split_and!.
Qed.
End usermem.
