(* ===== verification/Trap.v ===== *)
(** * Traps and system calls (trap.c, syscall.c, sysproc.c, user.h)

    The dispatcher [trap], the fetching of arguments from user memory and the
    process system calls.  Device interrupts and the file system calls are
    interfaces ([Devices], [SysFile]); [F] is the state of the file system. *)
From S2P Require Import Prelude Machine ProcQueue StringC Spinlock Kalloc Vm VmInv VmSpec VmFrame Proc RunQueue ProcRun Sched UserMem.

(** ** traps.h *)
Definition T_PGFLT : Z := 14.
Definition T_SYSCALL : Z := 64.
Definition T_IRQ0 : Z := 32.
Definition IRQ_TIMER : Z := 0.
Definition IRQ_KBD : Z := 1.
Definition IRQ_COM1 : Z := 4.
Definition IRQ_IDE : Z := 14.
Definition IRQ_SPURIOUS : Z := 31.

(** ** user.h: the exit status *)
Definition WIFEXITED (status : Z) : bool := Z.land status 0x7f =? 0.
Definition WEXITSTATUS (status : Z) : Z := Z.shiftr (Z.land status 0xff00) 8.
Definition WIFSIGNALED (status : Z) : bool := negb (Z.land status 0x7f =? 0).
Definition WEXITTRAP (status : Z) : Z := Z.land status 0x7f - 1.

(** ** Interfaces *)

(** The interrupt handlers of the devices, and the clock. *)
Class Devices (F : Type) := {
  dv_ideintr : M (kst * F) unit;
  dv_kbdintr : M (kst * F) unit;
  dv_uartintr : M (kst * F) unit;
  dv_lapiceoi : M (kst * F) unit;
  dv_cmostime : Z -> M (kst * F) unit;  (* fills the struct rtcdate at the address *)
}.

(** The system calls of sysfile.c. *)
Class SysFile (F : Type) := {
  sf_pipe : M (kst * F) Z;
  sf_read : M (kst * F) Z;
  sf_exec : M (kst * F) Z;
  sf_fstat : M (kst * F) Z;
  sf_chdir : M (kst * F) Z;
  sf_dup : M (kst * F) Z;
  sf_open : M (kst * F) Z;
  sf_write : M (kst * F) Z;
  sf_mknod : M (kst * F) Z;
  sf_unlink : M (kst * F) Z;
  sf_link : M (kst * F) Z;
  sf_mkdir : M (kst * F) Z;
  sf_close : M (kst * F) Z;
  sf_dup2 : M (kst * F) Z;
}.

Section args.
Context `{Symbols}.

(** ** syscall.c: arguments.  [None] is the result -1. *)

(** A field of the current process. *)
Definition cur_field {A} (f : proc -> A) : M kst A :=
  let* cur := myproc in nonnull cur (fun p => let* pp := pget p in ret (f pp)).
Definition cur_set (f : proc -> proc) : M kst unit :=
  let* cur := myproc in nonnull cur (fun p => pset p f).

Definition fetchint (addr : Z) : M kst (option Z) :=
  let* sz := cur_field p_sz in
  if (addr >=? sz) || (u32 (addr + 4) >? sz) then ret None else
  let* v := uload32 addr in
  ret (Some v).

(** The bytes from [s] to the end of memory; the fuel is their number. *)
Fixpoint fetchstr_loop (fuel : nat) (addr s ep : Z) : M kst (option Z) :=
  match fuel with
  | O => ret None
  | S f =>
    if s <? ep then
      let* b := uload8 s in
      if b =? 0 then ret (Some (s - addr)) else fetchstr_loop f addr (s + 1) ep
    else ret None
  end.
(** The length of the string at [addr]. *)
Definition fetchstr (addr : Z) : M kst (option Z) :=
  let* sz := cur_field p_sz in
  if addr >=? sz then ret None else
  let* ep := cur_field p_sz in
  fetchstr_loop (Z.to_nat (ep - addr)) addr addr ep.

Definition argint (n : Z) : M kst (option Z) :=
  let* esp := cur_field (fun p => tf_esp (p_tf p)) in
  fetchint (u32 (esp + 4 + 4 * n)).

Definition argptr (n size : Z) : M kst (option Z) :=
  let* i := argint n in
  match i with
  | None => ret None
  | Some i =>
    let* sz := cur_field p_sz in
    if (size <? 0) || (u32 i >=? sz) || (u32 (u32 i + size) >? sz) then ret None
    else ret (Some (u32 i))
  end.

(** The address and the length of the string. *)
Definition argstr (n : Z) : M kst (option (Z * Z)) :=
  let* a := argint n in
  match a with
  | None => ret None
  | Some a =>
    let* r := fetchstr (u32 a) in
    ret (match r with Some len => Some (u32 a, len) | None => None end)
  end.

(** ** sysproc.c: calls that do not use the file system *)

Definition sys_wait : M kst Z :=
  let* status := argptr 0 4 in
  match status with None => ret (-1) | Some status => wait ustore32 status end.

Definition sys_kill : M kst Z :=
  let* pid := argint 0 in
  match pid with None => ret (-1) | Some pid => kill pid end.

Definition sys_getpid : M kst Z := cur_field p_pid.

(** sys_sbrk once the argument [n] is fetched: memory grows without being
    allocated, see [pgflt]. *)
Definition sbrk_body (n : Z) : M kst Z :=
  let* sz := cur_field p_sz in
  let addr := s32 sz in
  if n >=? 0 then
    let* sz := cur_field p_sz in
    if u32 (sz + n) >=? KERNBASE then ret (-1) else
    cur_set (fun p => set_p_sz (u32 (p_sz p + n)) p) ;;;
    ret addr
  else
    let* r := growproc n in
    if r <? 0 then ret (-1) else ret addr.
Definition sys_sbrk : M kst Z :=
  let* n := argint 0 in
  match n with None => ret (-1) | Some n => sbrk_body n end.

(** The loop of sys_sleep, with tickslock held. *)
Definition sleep_ticks (ticks0 n : Z) : M kst Z :=
  let* t := gets k_ticks in
  if u32 (t - ticks0) <? u32 n then
    let* k := cur_field p_killed in
    if k then on_cpu (release Lticks) ;;; ret (-1)
    else sleep (Some ChTicks) (Some Lticks) ;;; out_of_fuel (* goes on in sys_sleep_resume *)
  else on_cpu (release Lticks) ;;; ret 0.
Definition sys_sleep : M kst Z :=
  let* n := argint 0 in
  match n with
  | None => ret (-1)
  | Some n =>
    on_cpu (acquire Lticks) ;;;
    let* ticks0 := gets k_ticks in
    sleep_ticks ticks0 n
  end.
Definition sys_sleep_resume (p : nat) (intena : bool) (ticks0 n : Z) : M kst Z :=
  sleep_resume p Lticks intena ;;;
  sleep_ticks ticks0 n.

Definition sys_uptime : M kst Z :=
  on_cpu (acquire Lticks) ;;;
  let* xticks := gets k_ticks in
  on_cpu (release Lticks) ;;;
  ret (s32 xticks).

Definition sys_getprio : M kst Z :=
  let* pid := argint 0 in
  match pid with None => ret (-1) | Some pid => getprio pid end.

Definition sys_setprio : M kst Z :=
  let* pid := argint 0 in
  match pid with
  | None => ret (-1)
  | Some pid =>
    let* prio := argint 1 in
    match prio with None => ret (-1) | Some prio => setprio pid prio end
  end.
End args.

Section trap.
Context `{Symbols} {F : Type} `{FileLayer F} `{Devices F} `{SysFile F}.

Definition sys_fork : M (kst * F) Z := fork.

(** The code given to exit is put in bits 8 to 15. *)
Definition sys_exit : M (kst * F) Z :=
  let* status := onk (argint 0) in
  match status with
  | None => ret (-1)
  | Some status => exit (s32 (Z.shiftl status 8)) ;;; ret 0
  end.

(** sizeof(struct rtcdate) is 24. *)
Definition sys_date : M (kst * F) Z :=
  let* r := onk (argptr 0 24) in
  match r with
  | None => ret (-1)
  | Some r => if r =? 0 then ret (-1) else dv_cmostime r ;;; ret 0
  end.

(** The table of system calls, by number (syscall.h). *)
Definition syscalls (num : Z) : option (M (kst * F) Z) :=
  match num with
  | 1 => Some sys_fork
  | 2 => Some sys_exit
  | 3 => Some (onk sys_wait)
  | 4 => Some sf_pipe
  | 5 => Some sf_read
  | 6 => Some (onk sys_kill)
  | 7 => Some sf_exec
  | 8 => Some sf_fstat
  | 9 => Some sf_chdir
  | 10 => Some sf_dup
  | 11 => Some (onk sys_getpid)
  | 12 => Some (onk sys_sbrk)
  | 13 => Some (onk sys_sleep)
  | 14 => Some (onk sys_uptime)
  | 15 => Some sf_open
  | 16 => Some sf_write
  | 17 => Some sf_mknod
  | 18 => Some sf_unlink
  | 19 => Some sf_link
  | 20 => Some sf_mkdir
  | 21 => Some sf_close
  | 22 => Some sys_date
  | 23 => Some sf_dup2
  | 24 => Some (onk sys_getprio)
  | 25 => Some (onk sys_setprio)
  | _ => None
  end.
Definition NELEM_syscalls : Z := 26.

Definition set_eax (p : nat) (v : Z) : M (kst * F) unit :=
  onk (pset p (fun q => set_p_tf (set_tf_eax (u32 v) (p_tf q)) q)).

(** The current process may change while the call runs only by leaving the CPU,
    so [curproc] is the same when the call returns. *)
Definition syscall : M (kst * F) unit :=
  let* cur := onk myproc in
  nonnull cur (fun p =>
  let* pp := onk (pget p) in
  let num := s32 (tf_eax (p_tf pp)) in
  match (if (num >? 0) && (num <? NELEM_syscalls) then syscalls num else None) with
  | Some call => let* r := call in set_eax p r
  | None => set_eax p (-1)
  end).

(** [myproc() && myproc()->killed && (tf->cs&3) == DPL_USER] *)
Definition killed_in_user (tf : trapframe) : M (kst * F) bool :=
  let* cur := onk myproc in
  match cur with
  | None => ret false
  | Some _ => let* k := onk (cur_field p_killed) in
              ret (k && (Z.land (tf_cs tf) 3 =? DPL_USER))
  end.

(** The exit code of a process that a trap kills. *)
Definition trap_status (tf : trapframe) : Z := s32 (tf_trapno tf + 1).

Definition exit_if_killed (tf : trapframe) : M (kst * F) unit :=
  let* k := killed_in_user tf in
  when k (exit (trap_status tf)).

(** [cr2] is the register with the address of a page fault. *)
Definition trap (cr2 : Z) (tf : trapframe) : M (kst * F) unit :=
  if tf_trapno tf =? T_SYSCALL then
    let* k := onk (cur_field p_killed) in
    when k (exit (trap_status tf)) ;;;
    onk (cur_set (set_p_tf tf)) ;;;
    syscall ;;;
    let* k := onk (cur_field p_killed) in
    when k (exit (trap_status tf))
  else
  (if tf_trapno tf =? T_IRQ0 + IRQ_TIMER then
     let* c := onk (on_cpu cpuid) in
     when (Nat.eqb c 0)
       (onk (on_cpu (acquire Lticks)) ;;;
        onk (modify (fun s => set_k_ticks (u32 (k_ticks s + 1)) s)) ;;;
        onk (wakeup (Some ChTicks)) ;;;
        onk (on_cpu (release Lticks))) ;;;
     dv_lapiceoi
   else if tf_trapno tf =? T_IRQ0 + IRQ_IDE then dv_ideintr ;;; dv_lapiceoi
   else if tf_trapno tf =? T_IRQ0 + IRQ_IDE + 1 then ret tt
   else if tf_trapno tf =? T_IRQ0 + IRQ_KBD then dv_kbdintr ;;; dv_lapiceoi
   else if tf_trapno tf =? T_IRQ0 + IRQ_COM1 then dv_uartintr ;;; dv_lapiceoi
   else if (tf_trapno tf =? T_IRQ0 + 7) || (tf_trapno tf =? T_IRQ0 + IRQ_SPURIOUS) then
     onk (on_cpu cpuid) ;;; dv_lapiceoi
   else if tf_trapno tf =? T_PGFLT then onk (pgflt cr2 (tf_err tf))
   else
     let* cur := onk myproc in
     match cur with
     | None => onk (on_cpu cpuid) ;;; panic "trap"
     | Some _ =>
       if Z.land (tf_cs tf) 3 =? 0 then onk (on_cpu cpuid) ;;; panic "trap"
       else onk (on_cpu cpuid) ;;; onk kill_me
     end) ;;;
  exit_if_killed tf ;;;
  let* cur := onk myproc in
  let* run := match cur with
              | None => ret false
              | Some _ => let* st := onk (cur_field p_state) in ret (bool_decide (st = RUNNING))
              end in
  when (run && (tf_trapno tf =? T_IRQ0 + IRQ_TIMER)) (onk yield) ;;;
  exit_if_killed tf.

(** A process that gave up the CPU at a clock tick goes on here. *)
Definition trap_resume (intena : bool) (tf : trapframe) : M (kst * F) unit :=
  onk (yield_resume intena) ;;;
  exit_if_killed tf.

End trap.

(** ** The exit status *)

Lemma land_7f z : Z.land z 0x7f = z mod 128.
Proof. change 0x7f with (Z.ones 7). by rewrite Z.land_ones. Qed.

Lemma s32_mod z m : (m | 2 ^ 32) -> 0 < m -> s32 z mod m = z mod m.
Proof.
  intros Hd Hm. pose proof (u32_s32 z) as Hu. unfold u32 in Hu.
  rewrite (Znumtheory.Zmod_div_mod m (2 ^ 32) (s32 z)), Hu by done.
  by rewrite <- Znumtheory.Zmod_div_mod.
Qed.

(** The exit code a process gives to exit reaches wait: the status that
    sys_exit stores is recognised by WIFEXITED, not by WIFSIGNALED, and
    WEXITSTATUS returns the low 8 bits of the code. *)
Theorem exit_code_roundtrip code :
  let status := s32 (Z.shiftl code 8) in
  WIFEXITED status = true /\ WIFSIGNALED status = false /\ WEXITSTATUS status = u8 code.
Proof.
  intros status. assert (status mod 2 ^ 16 = (code * 256) mod 2 ^ 16) as H16.
  { unfold status. rewrite s32_mod; [by rewrite Z.shiftl_mul_pow2|by exists (2 ^ 16)|lia]. }
  assert (Z.land status 0x7f = 0) as H0.
  { rewrite land_7f. change (2 ^ 16) with 65536 in H16. Z.div_mod_to_equations. lia. }
  unfold WIFEXITED, WIFSIGNALED, WEXITSTATUS. rewrite H0. split_and!; [done..|].
  apply Z.bits_inj'. intros i Hi. unfold u8.
  rewrite Z.shiftr_spec, Z.land_spec by done. change 0xff00 with (Z.shiftl (Z.ones 8) 8).
  rewrite Z.shiftl_spec by lia. replace (i + 8 - 8) with i by lia. rewrite Z.testbit_ones by lia.
  destruct (decide (i < 8)).
  - rewrite (proj2 (Z.ltb_lt i 8)), (proj2 (Z.leb_le 0 i)), andb_true_r, Z.mod_pow2_bits_low by lia.
    rewrite <- (Z.mod_pow2_bits_low status 16), H16, Z.mod_pow2_bits_low by lia.
    change 256 with (2 ^ 8). rewrite Z.mul_pow2_bits by lia. f_equal. lia.
  - rewrite (proj2 (Z.ltb_ge i 8)), andb_false_r, andb_false_r, Z.mod_pow2_bits_high by lia. done.
Qed.

(** A process killed by trap number [n] below 127 is reported by
    WIFSIGNALED, not by WIFEXITED, and WEXITTRAP returns [n]. *)
Theorem trap_code_roundtrip tf : 0 <= tf_trapno tf < 127 ->
  WIFSIGNALED (trap_status tf) = true /\ WIFEXITED (trap_status tf) = false /\
  WEXITTRAP (trap_status tf) = tf_trapno tf.
Proof.
  intros Hn. unfold trap_status, WIFSIGNALED, WIFEXITED, WEXITTRAP. rewrite s32_small, land_7f, Z.mod_small by lia.
  rewrite (proj2 (Z.eqb_neq _ 0)) by lia. split_and!; [done..|lia].
Qed.

(** ** Memory size *)

Section size.
Context `{Symbols}.

Lemma cur_field_run {A} (f : proc -> A) s l own ds p d sz : user_ok s l own ds p d sz ->
  exists s', cur_field f s = Ret (f (pt_proc (k_pt s) p)) s' /\ user_ok s' l own ds p d sz /\
    v_mem (k_vm s') = v_mem (k_vm s) /\ k_pt s' = k_pt s.
Proof.
  intros Ho. destruct (user_myproc _ _ _ _ _ _ _ Ho) as (s' & E & Ho' & Hm & Hp).
  exists s'. split_and!; try done. unfold cur_field. rewrite (bind_Ret _ _ _ _ _ E). cbn [nonnull].
  rewrite (bind_Ret _ _ _ _ _ (pget_run p s')), Hp. done.
Qed.

(** sbrk with a nonnegative argument only moves the size: it returns the old
    size, no page is allocated, and it fails, changing nothing, exactly when the
    new size would reach the kernel. *)
Theorem sbrk_grows_lazily s l own ds p d sz n : user_ok s l own ds p d sz -> 0 <= n < 2 ^ 31 ->
  exists s', sbrk_body n s = Ret (if sz + n <? KERNBASE then sz else -1) s' /\
    v_mem (k_vm s') = v_mem (k_vm s) /\
    (if sz + n <? KERNBASE then
       user_ok s' l own ds p d (sz + n) /\ k_pt s' = put_proc (k_pt s) p (set_p_sz (sz + n) (pt_proc (k_pt s) p))
     else user_ok s' l own ds p d sz /\ k_pt s' = k_pt s).
Proof.
  intros Ho Hn. destruct (cur_field_run p_sz _ _ _ _ _ _ _ Ho) as (s1 & E1 & Ho1 & Hm1 & Hp1).
  pose proof (uo_top _ _ _ _ _ _ _ Ho) as Htop. pose proof (uo_sz _ _ _ _ _ _ _ Ho) as Hz.
  destruct (cur_field_run p_sz _ _ _ _ _ _ _ Ho1) as (s2 & E2 & Ho2 & Hm2 & Hp2). rewrite Hp1 in E2, Hp2.
  unfold sbrk_body. rewrite (bind_Ret _ _ _ _ _ E1), Z.geb_leb, (proj2 (Z.leb_le 0 n)) by lia.
  rewrite (bind_Ret _ _ _ _ _ E2), Hz, Z.geb_leb, u32_small by (unfold KERNBASE in *; lia).
  destruct (sz + n <? KERNBASE) eqn:Hlt; bool_to_prop.
  - rewrite (proj2 (Z.leb_gt _ _)) by lia.
    destruct (user_myproc _ _ _ _ _ _ _ Ho2) as (s3 & E3 & Ho3 & Hm3 & Hp3).
    unfold cur_set. rewrite bind_assoc, (bind_Ret _ _ _ _ _ E3). cbn [nonnull].
    rewrite (bind_Ret _ _ _ _ _ (pset_run p _ s3)). rewrite Hp3, Hp2, Hz, u32_small by (unfold KERNBASE in *; lia).
    eexists. split; [unfold ret; rewrite s32_small by (unfold KERNBASE in *; lia); done|].
    split; [simpl; congruence|]. split; [|done]. destruct Ho3 as [V C Di In Sz To].
    split; simpl; rewrite ?upd_eq; simpl; try done; [by rewrite <- Hp2, <- Hp3|unfold KERNBASE in *; lia].
  - rewrite (proj2 (Z.leb_le _ _)) by lia. exists s2. split_and!; [done|congruence|done|done].
Qed.

(** growproc with a negative argument. *)
Lemma growproc_shrink_run s l own ds p d sz n : user_ok s l own ds p d sz -> n < 0 -> 0 <= sz + n ->
  exists s1 v1 l' own', user_ok s1 l own ds p d sz /\ v_mem (k_vm s1) = v_mem (k_vm s) /\ k_pt s1 = k_pt s /\
    unmapped (k_vm s1) v1 l l' own own' ds d (pceil (sz + n)) (pceil sz) /\
    user_ok (set_k_vm v1 s1) l' own' ds p d sz /\
    growproc n s = if sz + n =? 0 then Ret (-1) (set_k_vm v1 s1) else
      Ret 0 (set_khw (set_my (set_c_cr3 (V2P d) (my (v_hw v1))) (v_hw v1))
        (set_k_pt (put_proc (k_pt s) p (set_p_sz (sz + n) (pt_proc (k_pt s) p))) (set_k_vm v1 s1))).
Proof.
  intros Ho Hn Hsn. pose proof (uo_top _ _ _ _ _ _ _ Ho) as Htop.
  destruct (user_myproc _ _ _ _ _ _ _ Ho) as (s1 & E1 & Ho1 & Hm1 & Hp1).
  destruct (dealloc_run (k_vm s1) l own ds d sz (sz + n)) as (v1 & l' & own' & E2 & U);
    [apply Ho1|apply Ho1|lia..|].
  destruct (user_vm (deallocuvm d sz (sz + n)) s1 ds p d sz (sz + n) v1 l' own') as [E3 Ho3]; try by destruct Ho1.
  { by eapply user_ok_wf. }
  { intros; apply deallocuvm_keeps. }
  { apply U. }
  exists s1, v1, l', own'. split_and!; try done.
  unfold growproc. rewrite (bind_Ret _ _ _ _ _ E1). cbn [nonnull]. rewrite (bind_Ret _ _ _ _ _ (pget_run p s1)).
  rewrite (uo_sz _ _ _ _ _ _ _ Ho1), (uo_dir _ _ _ _ _ _ _ Ho1).
  rewrite Z.gtb_ltb, (proj2 (Z.ltb_ge 0 n)), (proj2 (Z.ltb_lt n 0)), u32_small by (unfold KERNBASE in *; lia).
  rewrite bind_assoc, (bind_Ret _ _ _ _ _ E3). unfold bind at 1, ret at 1.
  destruct (sz + n =? 0); [done|]. rewrite (bind_Ret _ _ _ _ _ (pset_run p _ _)). simpl k_pt. rewrite Hp1. done.
Qed.

(** Shrinking to a positive size: growproc returns 0, the size is the new
    one, the pages above it are gone, and every other byte of every address space
    is unchanged. *)
Theorem growproc_shrinks s l own ds p d sz n : user_ok s l own ds p d sz -> n < 0 -> 0 < sz + n ->
  exists s' l' own', growproc n s = Ret 0 s' /\ user_ok s' l' own' ds p d (sz + n) /\
    forall d' va, d' ∈ ds -> 0 <= va < KERNBASE ->
      if decide (d' = d /\ PGROUNDUP (sz + n) <= va < PGROUNDUP sz)
      then ubyte (v_mem (k_vm s')) d' va = None
      else ubyte (v_mem (k_vm s')) d' va = ubyte (v_mem (k_vm s)) d' va /\
           uperm (v_mem (k_vm s')) d' va = uperm (v_mem (k_vm s)) d' va.
Proof.
  intros Ho Hn Hsn. pose proof (uo_top _ _ _ _ _ _ _ Ho) as Htop.
  destruct (growproc_shrink_run s l own ds p d sz n Ho) as (s1 & v1 & l' & own' & Ho1 & Hm1 & Hp1 & U & Ho2 & E);
    [lia..|]. rewrite (proj2 (Z.eqb_neq _ 0)) in E by lia.
  pose proof (user_ok_wf _ _ _ _ _ _ _ Ho2) as Hwf. change (k_hw (set_k_vm v1 s1)) with (v_hw v1) in Hwf.
  eexists _, l', own'. split; [exact E|]. split.
  - destruct Ho2 as [V C Di In Sz To]. split; simpl; rewrite ?upd_eq; simpl; try done; [..|lia].
    + apply vm_inv_hw; [done| |apply (kr_lock _ (vi_ready _ _ _ _ V))].
      apply hw_wf_set_my; try done; apply (wf_my _ Hwf).
    + change (k_hw (set_khw ?h _)) with h. by rewrite my_set_my.
    + rewrite <- Hp1. done.
  - intros d' va Hd' Hva. rewrite !PGROUNDUP_pceil by lia. rewrite <- Hm1.
    exact (unmapped_views _ _ _ _ _ _ _ _ _ _ U d' va Hd' Hva).
Qed.

(** C39. Shrinking to size 0 goes wrong: sbrk reports failure and leaves the size
    as it was, although every page of the process has been unmapped and freed. *)
Theorem sbrk_to_zero_loses_memory s l own ds p d sz : user_ok s l own ds p d sz -> 0 < sz ->
  exists s' l' own', sbrk_body (- sz) s = Ret (-1) s' /\ user_ok s' l' own' ds p d sz /\
    (forall va, 0 <= va < sz -> ubyte (v_mem (k_vm s')) d va = None) /\
    (forall v, held (v_mem (k_vm s)) d 0 (pceil sz) v -> v ∈ l').
Proof.
  intros Ho Hsz. pose proof (uo_top _ _ _ _ _ _ _ Ho) as Htop.
  destruct (cur_field_run p_sz _ _ _ _ _ _ _ Ho) as (s0 & E0 & Ho0 & Hm0 & Hp0).
  destruct (growproc_shrink_run s0 l own ds p d sz (- sz) Ho0) as (s1 & v1 & l' & own' & Ho1 & Hm1 & Hp1 & U & Ho2 & E);
    [lia..|]. rewrite Z.add_opp_diag_r in *. simpl in E.
  exists (set_k_vm v1 s1), l', own'. split_and!; [|done| |].
  - unfold sbrk_body. rewrite (bind_Ret _ _ _ _ _ E0), Z.geb_leb, (proj2 (Z.leb_gt 0 (- sz))) by lia.
    by rewrite (bind_Ret _ _ _ _ _ E).
  - intros va Hva. pose proof (unmapped_views _ _ _ _ _ _ _ _ _ _ U d va (uo_in _ _ _ _ _ _ _ Ho)) as Hv.
    rewrite decide_True in Hv; [apply Hv; lia|]. split; [done|]. unfold pceil. Z.div_mod_to_equations. lia.
  - intros v Hv. apply (um_free _ _ _ _ _ _ _ _ _ _ U). left. by rewrite Hm1, Hm0.
Qed.
End size.

(** ** The kernel's own page faults *)

Section kernel_fault.
Context `{Symbols} {F : Type} `{FileLayer F} `{Devices F} `{SysFile F}.

Lemma onk_Ret_run {A} (m : M kst A) (k k' : kst) (f : F) a : m k = Ret a k' -> onk m (k, f) = Ret a (k', f).
Proof. intros E. unfold onk, zoom. simpl. by rewrite E. Qed.

(** What a step of the handler leaves alone. *)
Record faulted (s s' : kst) (own : owner) (ds : list Z) (p : nat) (d sz : Z) : Prop := {
  fd_ok : user_ok s' [] own ds p d sz;
  fd_mem : v_mem (k_vm s') = v_mem (k_vm s);
  fd_pt : k_pt s' = k_pt s;
  fd_cr3 : c_cr3 (my (k_hw s')) = c_cr3 (my (k_hw s));
}.

Lemma keeps_cr3 {A} (m : M kst A) s a s' : (forall h t, keeps (ulike h t) m) -> hw_wf (k_hw s) -> m s = Ret a s' ->
  c_cr3 (my (k_hw s')) = c_cr3 (my (k_hw s)).
Proof.
  intros Hm Hwf E. assert (ulike (k_hw s) (k_pt s) s) as Hl by (split; [by apply like_refl|by split]).
  specialize (Hm _ _ s Hl). rewrite E in Hm. destruct Hm as [[_ Hs] _].
  change (v_hw (k_vm s')) with (k_hw s') in Hs. unfold my. rewrite (hs_me _ _ Hs). apply (hs_cpu _ _ Hs).
Qed.

Lemma myproc_faulted s own ds p d sz : user_ok s [] own ds p d sz ->
  exists s', myproc s = Ret (Some p) s' /\ faulted s s' own ds p d sz.
Proof.
  intros Ho. destruct (user_myproc _ _ _ _ _ _ _ Ho) as (s' & E & Ho' & Hm & Hp). exists s'. split; [done|]. split; try done.
  eapply keeps_cr3; [intros; apply myproc_keeps|by eapply user_ok_wf|done].
Qed.
Lemma cur_field_faulted {A} (g : proc -> A) s own ds p d sz : user_ok s [] own ds p d sz ->
  exists s', cur_field g s = Ret (g (pt_proc (k_pt s) p)) s' /\ faulted s s' own ds p d sz.
Proof.
  intros Ho. destruct (cur_field_run g _ _ _ _ _ _ _ Ho) as (s' & E & Ho' & Hm & Hp). exists s'. split; [done|]. split; try done.
  eapply (keeps_cr3 (cur_field g)); [|by eapply user_ok_wf|done]. intros h t. unfold cur_field.
  eauto 10 using myproc_keeps, nonnull_keeps, pget_keeps with keeps.
Qed.

Lemma exit_if_killed_kernel tf s f own ds p d sz : user_ok s [] own ds p d sz -> Z.land (tf_cs tf) 3 = 0 ->
  exists s', exit_if_killed tf (s, f) = Ret tt (s', f) /\ faulted s s' own ds p d sz.
Proof.
  intros Ho Hcs. destruct (myproc_faulted _ _ _ _ _ _ Ho) as (s1 & E1 & [Ho1 Hm1 Hp1 Hc1]).
  destruct (cur_field_faulted p_killed _ _ _ _ _ _ Ho1) as (s2 & E2 & [Ho2 Hm2 Hp2 Hc2]). exists s2.
  split; [|split; [done|congruence..]]. unfold exit_if_killed, killed_in_user. rewrite bind_assoc.
  rewrite (bind_Ret _ _ _ _ _ (onk_Ret_run _ _ _ f _ E1)), bind_assoc, (bind_Ret _ _ _ _ _ (onk_Ret_run _ _ _ f _ E2)).
  rewrite Hcs. change (0 =? DPL_USER) with false. rewrite andb_false_r. done.
Qed.

(** The fault of a kernel instruction without free memory: trap returns to it, with the process marked killed. *)
Lemma trap_full tf s f own ds p d sz va : tf_trapno tf = T_PGFLT -> Z.land (tf_cs tf) 3 = 0 ->
  user_ok s [] own ds p d sz -> 0 <= va < sz -> pm (v_mem (k_vm s)) d (va / 4096) = None ->
  exists s', trap va tf (s, f) = Ret tt (s', f) /\ user_ok s' [] own ds p d sz /\ v_mem (k_vm s') = v_mem (k_vm s) /\
    c_cr3 (my (k_hw s')) = c_cr3 (my (k_hw s)) /\ k_pt s' = put_proc (k_pt s) p (set_p_killed true (pt_proc (k_pt s) p)).
Proof.
  intros Hno Hcs Ho Hva Hpm. destruct (full_fault s own ds p d sz va (tf_err tf) Ho Hva Hpm) as (s1 & E1 & Ho1 & Hm1 & Hp1 & Hc1).
  destruct (exit_if_killed_kernel tf s1 f own ds p d sz Ho1 Hcs) as (s2 & E2 & [Ho2 Hm2 Hp2 Hc2]).
  destruct (myproc_faulted _ _ _ _ _ _ Ho2) as (s3 & E3 & [Ho3 Hm3 Hp3 Hc3]).
  destruct (cur_field_faulted p_state _ _ _ _ _ _ Ho3) as (s4 & E4 & [Ho4 Hm4 Hp4 Hc4]).
  destruct (exit_if_killed_kernel tf s4 f own ds p d sz Ho4 Hcs) as (s5 & E5 & [Ho5 Hm5 Hp5 Hc5]).
  exists s5. split_and!; [|done|congruence..]. unfold trap. rewrite Hno.
  repeat match goal with |- context [T_PGFLT =? ?x] => let b := eval vm_compute in (T_PGFLT =? x) in change (T_PGFLT =? x) with b; cbv iota end.
  cbn [orb]. rewrite (bind_Ret _ _ _ _ _ (onk_Ret_run _ _ _ f _ E1)), (bind_Ret _ _ _ _ _ E2).
  rewrite (bind_Ret _ _ _ _ _ (onk_Ret_run _ _ _ f _ E3)), bind_assoc, (bind_Ret _ _ _ _ _ (onk_Ret_run _ _ _ f _ E4)).
  unfold bind at 1, ret at 1. rewrite andb_false_r. done.
Qed.

(** The instruction at [va] made again and again: each time its page is missing trap runs and returns to it. *)
Fixpoint fault_again (n : nat) (va : Z) (tf : trapframe) : M (kst * F) unit :=
  match n with
  | O => ret tt
  | S n =>
    let* e := onk (mmu_entry va) in
    match e with Some _ => ret tt | None => trap va tf ;;; fault_again n va tf end
  end.

Lemma fault_again_full n : forall tf s f own ds p d sz va, tf_trapno tf = T_PGFLT -> Z.land (tf_cs tf) 3 = 0 ->
  user_ok s [] own ds p d sz -> c_cr3 (my (k_hw s)) = V2P d -> 0 <= va < sz -> pm (v_mem (k_vm s)) d (va / 4096) = None ->
  exists s', fault_again n va tf (s, f) = Ret tt (s', f) /\ user_ok s' [] own ds p d sz /\ v_mem (k_vm s') = v_mem (k_vm s) /\
    c_cr3 (my (k_hw s')) = V2P d /\
    (k_pt s' = if n is O then k_pt s else put_proc (k_pt s) p (set_p_killed true (pt_proc (k_pt s) p))).
Proof.
  induction n as [|n IH]; intros tf s f own ds p d sz va Hno Hcs Ho Hcr Hva Hpm; [by exists s|]. cbn [fault_again].
  rewrite (bind_Ret _ _ _ _ _ (onk_Ret_run _ _ _ f _ (mmu_entry_run _ _ _ _ _ _ _ _ Ho Hcr Hva))), Hpm.
  destruct (trap_full tf s f own ds p d sz va Hno Hcs Ho Hva Hpm) as (s1 & E1 & Ho1 & Hm1 & Hc1 & Hp1).
  rewrite (bind_Ret _ _ _ _ _ E1).
  destruct (IH tf s1 f own ds p d sz va) as (s2 & E2 & Ho2 & Hm2 & Hc2 & Hp2); [done..|congruence|done|by rewrite Hm1|].
  exists s2. split_and!; [done|done|congruence|done|]. rewrite Hp2, Hp1. destruct n; [done|].
  unfold put_proc, set_pt_proc. simpl. by rewrite upd_upd, upd_eq.
Qed.

(** C40. A kernel instruction that faults on a page of the process while no page is free never completes: however
    often the fault is taken, the whole of trap runs and returns to the instruction, the process is marked killed but is not
    ended, since its trap frame is the kernel's, and the page is still missing, so that the instruction faults
    once more; no number of tries of the kernel's load ends. *)
Theorem kernel_fault_livelock tf s f own ds p d sz va : tf_trapno tf = T_PGFLT -> Z.land (tf_cs tf) 3 = 0 ->
  user_ok s [] own ds p d sz -> c_cr3 (my (k_hw s)) = V2P d -> 0 <= va < sz -> ubyte (v_mem (k_vm s)) d va = None ->
  (forall n, exists s', fault_again (S n) va tf (s, f) = Ret tt (s', f) /\ mmu_entry va s' = Ret None s' /\
    c_proc (my (k_hw s')) = Some p /\ k_pt s' = put_proc (k_pt s) p (set_p_killed true (pt_proc (k_pt s) p))) /\
  (forall tries, uload8_loop tries va s = Spin).
Proof.
  intros Hno Hcs Ho Hcr Hva Hub. assert (pm (v_mem (k_vm s)) d (va / 4096) = None) as Hpm.
  { unfold ubyte in Hub. by destruct (pm _ d (va / 4096)). }
  split; [|intros tries; by eapply uload8_full]. intros n.
  destruct (fault_again_full (S n) tf s f own ds p d sz va) as (s' & E & Ho' & Hm & Hc & Hp); [done..|].
  exists s'. split_and!; [done| |apply Ho'|done]. rewrite (mmu_entry_run _ _ _ _ _ _ _ _ Ho' Hc Hva), Hm, Hpm. done.
Qed.
End kernel_fault.
