(* ===== verification/ProcSpec.v ===== *)
(** * What the process operations promise

    Functional behaviour of wakeup, setprio, kill and the scheduler on the queues. *)
From S2P Require Import Prelude Machine ProcQueue StringC Spinlock Kalloc Vm VmFrame Proc RunQueue ProcRun Sched.

Section procspec.
Context (k : kst) (qs : Z -> list nat).
Hypothesis Hwf : hw_wf (k_hw k).
Hypothesis Hfree : free (k_hw k).
Hypothesis Hgood : good (k_pt k).
Hypothesis Hq : pt_inv (k_pt k) qs.

(** [wakeup] wakes exactly the processes that sleep on the channel: they
    become RUNNABLE and join the end of the queue of their priority, in the order
    of the table; nothing else of any process changes. *)
Theorem wakeup_wakes_exactly ch :
  exists k' qs', wakeup ch k = Ret tt k' /\ pt_inv (k_pt k') qs' /\
    (forall pr, qs' pr = qs pr ++
       filter (fun i => sleeps_on ch (pt_proc (k_pt k) i) = true /\ p_priority (pt_proc (k_pt k) i) = pr) procs) /\
    forall i, unlinked (pt_proc (k_pt k') i) = unlinked
      (if decide (i ∈ procs /\ sleeps_on ch (pt_proc (k_pt k) i) = true)
       then set_p_state RUNNABLE (pt_proc (k_pt k) i) else pt_proc (k_pt k) i).
Proof.
  destruct (wakeup_run k Hwf Hfree Hgood ch) as (k' & E & _ & Ew).
  destruct (wakeup1_run ch (k_pt k) qs Hq) as (t & qs' & Et & Hq' & Hqs & Hu).
  rewrite Ew in Et. injection Et as Et. subst t. exists k', qs'. split_and!; [done..|].
  intros i. rewrite Hu. unfold woken. destruct (decide (i ∈ procs)) as [Hi|Hi].
  - destruct (sleeps_on ch (pt_proc (k_pt k) i)); [rewrite decide_True by done|rewrite decide_False by naive_solver]; done.
  - rewrite decide_False by naive_solver. done.
Qed.

(** C37. [setprio] on a runnable process of another priority takes it out of its
    queue and appends it to the queue of the new priority, where it is the last;
    the other processes keep their order. *)
Theorem setprio_moves pid pr p l1 l2 :
  prio_ok pr -> find_first (fun i => (p_pid (pt_proc (k_pt k) i) =? pid) &&
    negb (bool_decide (p_state (pt_proc (k_pt k) i) = UNUSED))) procs = Some p ->
  p_state (pt_proc (k_pt k) p) = RUNNABLE -> p_priority (pt_proc (k_pt k) p) <> pr ->
  qs (p_priority (pt_proc (k_pt k) p)) = l1 ++ p :: l2 ->
  exists k', setprio pid pr k = Ret 0 k' /\
    pt_inv (k_pt k') (upd (upd qs (p_priority (pt_proc (k_pt k) p)) (l1 ++ l2)) pr (qs pr ++ [p])) /\
    forall i, unlinked (pt_proc (k_pt k') i) =
      unlinked (if decide (i = p) then set_p_priority pr (pt_proc (k_pt k) p) else pt_proc (k_pt k) i).
Proof.
  intros Hpr Hfind Hst Hne Hqs. apply find_first_elem in Hfind as Hp. destruct Hp as [Hp _].
  unfold setprio. replace (negb (pr =? HI_PRIO) && negb (pr =? NORM_PRIO)) with false by (by destruct Hpr as [-> | ->]).
  rewrite (bind_Ret _ _ _ _ _ (kacquire_run k Hwf Hfree)). set (k1 := set_khw _ k).
  pose proof (inside_start k Hwf Hgood) as Hin. fold k1 in Hin.
  unfold find_proc, bind at 1, gets. change (k_pt k1) with (k_pt k). rewrite Hfind.
  rewrite (bind_Ret _ _ _ _ _ (pget_run p k1)). change (k_pt k1) with (k_pt k).
  rewrite (proj2 (Z.eqb_neq _ _) Hne), bool_decide_eq_true_2 by done. cbn [when negb].
  destruct (but_dequeue (k_pt k) qs p RUNNABLE l1 l2 Hq Hqs) as (t1 & E1 & Hs1 & Hb1).
  replace (put_proc (k_pt k) p _) with (k_pt k) in *.
  2: { unfold put_proc. rewrite upd_id; [by destruct (k_pt k)|]. destruct (pt_proc (k_pt k) p); simpl in *; by subst. }
  destruct (but_null _ _ _ Hb1) as [Hv Hn]. set (q := set_p_priority pr (pt_proc t1 p)).
  destruct (but_enqueue (put_proc t1 p q) _ p (but_put _ _ _ q Hb1 Hv Hn Hpr) Hp) as (t2 & E2 & Hs2 & Hq2).
  { simpl. rewrite upd_eq. simpl. by rewrite (unlinked_inj_state _ _ (Hs1 p)). }
  simpl in Hq2. rewrite upd_eq in Hq2. simpl in Hq2. rewrite (upd_ne qs) in Hq2 by done.
  rewrite !bind_assoc, (bind_Ret _ _ _ _ _ (on_pt_Ret _ k1 _ _ E1)), bind_assoc.
  rewrite (bind_Ret _ _ _ _ _ (pset_run p (set_p_priority pr) (set_k_pt t1 k1))).
  rewrite (bind_Ret (on_pt (enqueue p)) _ _ tt (set_k_pt t2 k1))
    by exact (on_pt_Ret (enqueue p) (set_k_pt _ (set_k_pt t1 k1)) tt t2 E2).
  pose proof (in_holds _ _ _ Hin) as Hh. rewrite (bind_Ret _ _ _ _ _ (krelease_run (set_k_pt t2 k1) Hh)).
  eexists. split; [done|]. split; [done|]. intros i. simpl. rewrite Hs2. simpl. rewrite upd_case.
  destruct (decide (p = i)) as [<-|Hpi]; [|rewrite decide_False, Hs1 by done; done]. rewrite decide_True by done.
  unfold q. change (unlinked (set_p_priority pr (pt_proc t1 p))) with (set_p_priority pr (unlinked (pt_proc t1 p))).
  by rewrite Hs1.
Qed.

(** [kill] matches by process id alone, so it also marks an unused entry of
    the table (their id is 0 after boot and after wait), and [allocproc] does not
    clear the mark: the process created next in that entry is killed before it
    runs, although kill(0) reported success. *)
Theorem kill_marks_unused_entry p :
  find_first (fun i => p_pid (pt_proc (k_pt k) i) =? 0) procs = Some p ->
  find_first (fun i => bool_decide (p_state (pt_proc (k_pt k) i) = UNUSED)) procs = Some p ->
  exists k1 k2, kill 0 k = Ret 0 k1 /\ alloc_claim k1 = Ret (Some p) k2 /\
    p_state (pt_proc (k_pt k2) p) = EMBRYO /\ p_killed (pt_proc (k_pt k2) p) = true.
Proof.
  intros Hpid Hun. apply find_first_elem in Hun as Hu. destruct Hu as [Hp Hu]. bool_to_prop.
  unfold kill. rewrite (bind_Ret _ _ _ _ _ (kacquire_run k Hwf Hfree)). set (k0 := set_khw _ k).
  pose proof (inside_start k Hwf Hgood) as Hin. fold k0 in Hin.
  unfold find_proc, bind at 1, gets. change (k_pt k0) with (k_pt k). rewrite Hpid.
  rewrite (bind_Ret _ _ _ _ _ (pset_run p (set_p_killed true) k0)). change (k_pt k0) with (k_pt k).
  set (t := put_proc (k_pt k) p (set_p_killed true (pt_proc (k_pt k) p))).
  rewrite (bind_Ret _ _ _ _ _ (pget_run p (set_k_pt t k0))).
  assert (pt_proc t p = set_p_killed true (pt_proc (k_pt k) p)) as Htp by (unfold t; simpl; by rewrite upd_eq).
  cbn [k_pt set_k_pt]. rewrite Htp. simpl p_state. rewrite bool_decide_eq_false_2 by congruence. cbn [when].
  unfold bind at 1, ret at 1.
  assert (inside (c_ncli (my (k_hw k)) + 1) k (set_k_pt t k0)) as Hin2.
  { apply inside_table; [done|]. apply tab_minor_quiet; [done|]. by apply put_minor. }
  destruct (inside_release _ _ _ Hin2) as (k1 & E1 & [Ev _ _ Fr [Gd _]] & Ht1). rewrite (bind_Ret _ _ _ _ _ E1).
  destruct (alloc_claim_run k1 (ev_wf _ _ Ev) Fr Gd) as (r & k2 & E2 & _ & Hr).
  assert (r = Some p) as ->.
  { assert (find_first (fun i => bool_decide (p_state (pt_proc (k_pt k1) i) = UNUSED)) procs = Some p) as Hf1.
    { rewrite Ht1, <- Hun. apply find_first_ext. intros i _. simpl. rewrite upd_case. case_decide; by subst. }
    unfold alloc_claim in E2. rewrite (bind_Ret _ _ _ _ _ (kacquire_run k1 (ev_wf _ _ Ev) Fr)) in E2.
    unfold find_proc, bind at 1, gets at 1 in E2. change (k_pt (set_khw _ k1)) with (k_pt k1) in E2. rewrite Hf1 in E2.
    do 5 (apply bind_inv in E2 as (? & ? & _ & E2)). by injection E2 as <-. }
  destruct (Hr p eq_refl) as (_ & _ & Ht2 & _). exists k1, k2. split_and!; [done|done|..];
    rewrite Ht2, Ht1; simpl; rewrite upd_eq; simpl; [done|]. by rewrite upd_eq.
Qed.
End procspec.
