(* ===== verification/FsState.v ===== *)
(** * State of files, pipes and sleep locks (file.h, pipe.c, sleeplock.h)

    [I] is the state of the layers below: inodes, log, buffer cache and disk. *)
From S2P Require Import Prelude Machine ProcQueue StringC Spinlock Kalloc Vm Proc.

Definition PIPESIZE : Z := 512.

Inductive ftype := FD_NONE | FD_PIPE | FD_INODE.
#[export] Instance ftype_eq_dec : EqDecision ftype.
Proof. solve_decision. Defined.

(** struct file; [f_pipe] is the address of the pipe, [f_ip] an entry of the inode
    cache. *)
Record file := mkFile {
  f_type : ftype;
  f_ref : Z;
  f_readable : bool;
  f_writable : bool;
  f_pipe : Z;
  f_ip : option nat;
  f_off : Z;
}.

(** struct pipe; its lock is [Lpipe] of its address. *)
Record pipe := mkPipe {
  pi_data : Z -> Z;
  pi_nread : Z;
  pi_nwrite : Z;
  pi_readopen : bool;
  pi_writeopen : bool;
}.

(** struct sleeplock; its spin lock is [Lsleep]. *)
Record sleeplock := mkSleep { sl_locked : bool; sl_pid : Z }.

Record fstate (I : Type) := mkFs {
  fs_file : nat -> file;
  fs_pipe : Z -> pipe;
  fs_sleep : sleepid -> sleeplock;
  fs_low : I;
}.
Arguments mkFs {I} _ _ _ _.
Arguments fs_file {I} _ _.
Arguments fs_pipe {I} _ _.
Arguments fs_sleep {I} _ _.
Arguments fs_low {I} _.

Definition file0 : file := mkFile FD_NONE 0 false false 0 None 0.
Definition sleep0 : sleeplock := mkSleep false 0.

Definition set_f_type v f := mkFile v (f_ref f) (f_readable f) (f_writable f) (f_pipe f) (f_ip f) (f_off f).
Definition set_f_ref v f := mkFile (f_type f) v (f_readable f) (f_writable f) (f_pipe f) (f_ip f) (f_off f).
Definition set_f_readable v f := mkFile (f_type f) (f_ref f) v (f_writable f) (f_pipe f) (f_ip f) (f_off f).
Definition set_f_writable v f := mkFile (f_type f) (f_ref f) (f_readable f) v (f_pipe f) (f_ip f) (f_off f).
Definition set_f_pipe v f := mkFile (f_type f) (f_ref f) (f_readable f) (f_writable f) v (f_ip f) (f_off f).
Definition set_f_ip v f := mkFile (f_type f) (f_ref f) (f_readable f) (f_writable f) (f_pipe f) v (f_off f).
Definition set_f_off v f := mkFile (f_type f) (f_ref f) (f_readable f) (f_writable f) (f_pipe f) (f_ip f) v.

Definition set_pi_data v p := mkPipe v (pi_nread p) (pi_nwrite p) (pi_readopen p) (pi_writeopen p).
Definition set_pi_nread v p := mkPipe (pi_data p) v (pi_nwrite p) (pi_readopen p) (pi_writeopen p).
Definition set_pi_nwrite v p := mkPipe (pi_data p) (pi_nread p) v (pi_readopen p) (pi_writeopen p).
Definition set_pi_readopen v p := mkPipe (pi_data p) (pi_nread p) (pi_nwrite p) v (pi_writeopen p).
Definition set_pi_writeopen v p := mkPipe (pi_data p) (pi_nread p) (pi_nwrite p) (pi_readopen p) v.

Definition set_fs_file {I} v (s : fstate I) := mkFs v (fs_pipe s) (fs_sleep s) (fs_low s).
Definition set_fs_pipe {I} v (s : fstate I) := mkFs (fs_file s) v (fs_sleep s) (fs_low s).
Definition set_fs_sleep {I} v (s : fstate I) := mkFs (fs_file s) (fs_pipe s) v (fs_low s).
Definition set_fs_low {I} (v : I) (s : fstate I) := mkFs (fs_file s) (fs_pipe s) (fs_sleep s) v.

(** The kernel with its files. *)
Definition world (I : Type) : Type := (kst * fstate I)%type.

Section ops.
Context {I : Type}.

Definition onf {A} (m : M (fstate I) A) : M (world I) A := zoom snd (fun w f => (w.1, f)) m.

Definition file_get (i : nat) : M (world I) file := onf (gets (fun s => fs_file s i)).
Definition file_upd (i : nat) (g : file -> file) : M (world I) unit :=
  onf (modify (fun s => set_fs_file (upd (fs_file s) i (g (fs_file s i))) s)).
Definition pipe_get (a : Z) : M (world I) pipe := onf (gets (fun s => fs_pipe s a)).
Definition pipe_upd (a : Z) (g : pipe -> pipe) : M (world I) unit :=
  onf (modify (fun s => set_fs_pipe (upd (fs_pipe s) a (g (fs_pipe s a))) s)).
Definition sl_get (l : sleepid) : M (world I) sleeplock := onf (gets (fun s => fs_sleep s l)).
Definition sl_upd (l : sleepid) (g : sleeplock -> sleeplock) : M (world I) unit :=
  onf (modify (fun s => set_fs_sleep (upd (fs_sleep s) l (g (fs_sleep s l))) s)).

Definition wacquire (lk : lockid) : M (world I) unit := onk (on_cpu (acquire lk)).
Definition wrelease (lk : lockid) : M (world I) unit := onk (on_cpu (release lk)).
End ops.
