(* ===== verification/Pipe.v ===== *)
(** * Pipes (pipe.c)

    A pipe is a ring buffer with free-running 32-bit counters.  [pipewrite] and
    [piperead] sleep when the buffer is full or empty: the call then ends in
    [Swtch] and goes on, when the process is resumed, in the definition with
    suffix [_resume].  The copy loops take the access to the buffer of the caller as an argument. *)
From S2P Require Import Prelude Machine ProcQueue StringC Spinlock Kalloc Vm VmFrame Proc RunQueue ProcRun Sched UserMem Trap FsState.

Section pipe.
Context `{Symbols} {I : Type}.

(** The arguments are filealloc and fileclose of file.c, see File. *)
Definition pipealloc (filealloc : M (world I) (option nat)) (fileclose : nat -> M (world I) unit) :
    M (world I) (option (nat * nat)) :=
  let* f0 := filealloc in
  match f0 with
  | None => ret None
  | Some f0 =>
    let* f1 := filealloc in
    match f1 with
    | None => fileclose f0 ;;; ret None
    | Some f1 =>
      let* p := onk (on_vm kalloc) in
      if p =? 0 then fileclose f0 ;;; fileclose f1 ;;; ret None else
      pipe_upd p (set_pi_readopen true) ;;;
      pipe_upd p (set_pi_writeopen true) ;;;
      pipe_upd p (set_pi_nwrite 0) ;;;
      pipe_upd p (set_pi_nread 0) ;;;
      onk (on_cpu (initlock (Lpipe p))) ;;;
      file_upd f0 (set_f_type FD_PIPE) ;;;
      file_upd f0 (set_f_readable true) ;;;
      file_upd f0 (set_f_writable false) ;;;
      file_upd f0 (set_f_pipe p) ;;;
      file_upd f1 (set_f_type FD_PIPE) ;;;
      file_upd f1 (set_f_readable false) ;;;
      file_upd f1 (set_f_writable true) ;;;
      file_upd f1 (set_f_pipe p) ;;;
      ret (Some (f0, f1))
    end
  end.

Definition pipeclose (p : Z) (writable : bool) : M (world I) unit :=
  wacquire (Lpipe p) ;;;
  (if writable then
     pipe_upd p (set_pi_writeopen false) ;;;
     onk (wakeup (Some (ChPipeR p)))
   else
     pipe_upd p (set_pi_readopen false) ;;;
     onk (wakeup (Some (ChPipeW p)))) ;;;
  let* q := pipe_get p in
  if negb (pi_readopen q) && negb (pi_writeopen q) then
    wrelease (Lpipe p) ;;;
    onk (on_vm (kfree p))
  else wrelease (Lpipe p).

(** [p->data[p->nwrite++ % PIPESIZE] = b] *)
Definition push (b : Z) (p : pipe) : pipe :=
  set_pi_nwrite (u32 (pi_nwrite p + 1)) (set_pi_data (upd (pi_data p) (pi_nwrite p mod PIPESIZE) b) p).
(** [p->data[p->nread++ % PIPESIZE]] *)
Definition front (p : pipe) : Z := pi_data p (pi_nread p mod PIPESIZE).
Definition pop (p : pipe) : pipe := set_pi_nread (u32 (pi_nread p + 1)) p.
Definition full (p : pipe) : bool := pi_nwrite p =? u32 (pi_nread p + PIPESIZE).
Definition empty (p : pipe) : bool := pi_nread p =? pi_nwrite p.

(** [load i] reads [addr[i]] of the caller and [put i b] writes it. *)
Section copy.
Context (load : Z -> M (world I) Z) (put : Z -> Z -> M (world I) unit).

(** The loop of pipewrite from index [i]; [false]: it gave up and released the lock. *)
Fixpoint pipewrite_loop (fuel : nat) (p n i : Z) : M (world I) bool :=
  match fuel with
  | O => out_of_fuel
  | S f =>
    if i <? n then
      let* q := pipe_get p in
      if full q then
        let* killed := (if negb (pi_readopen q) then ret true else onk (cur_field p_killed)) in
        if killed then wrelease (Lpipe p) ;;; ret false else
        onk (wakeup (Some (ChPipeR p))) ;;;
        onk (sleep (Some (ChPipeW p)) (Some (Lpipe p))) ;;;
        out_of_fuel (* goes on in pipewrite_resume *)
      else
        let* b := load i in
        pipe_upd p (push b) ;;;
        pipewrite_loop f p n (i + 1)
    else ret true
  end.

(** From index [i]; the fuel is the number of bytes left and one for the last test. *)
Definition pipewrite_from (p n i : Z) : M (world I) Z :=
  let* ok := pipewrite_loop (S (Z.to_nat (n - i))) p n i in
  if negb ok then ret (-1) else
  onk (wakeup (Some (ChPipeR p))) ;;;
  wrelease (Lpipe p) ;;;
  ret n.

Definition pipewrite (p n : Z) : M (world I) Z :=
  wacquire (Lpipe p) ;;;
  pipewrite_from p n 0.

Definition pipewrite_resume (pr : nat) (intena : bool) (p n i : Z) : M (world I) Z :=
  onk (sleep_resume pr (Lpipe p) intena) ;;;
  pipewrite_from p n i.

Fixpoint piperead_copy (fuel : nat) (p n i : Z) : M (world I) Z :=
  match fuel with
  | O => out_of_fuel
  | S f =>
    if i <? n then
      let* q := pipe_get p in
      if empty q then ret i else
      pipe_upd p pop ;;;
      put i (front q) ;;;
      piperead_copy f p n (i + 1)
    else ret i
  end.

(** With the lock held. *)
Definition piperead_locked (p n : Z) : M (world I) Z :=
  let* q := pipe_get p in
  if empty q && pi_writeopen q then
    let* killed := onk (cur_field p_killed) in
    if killed then wrelease (Lpipe p) ;;; ret (-1) else
    onk (sleep (Some (ChPipeR p)) (Some (Lpipe p))) ;;;
    out_of_fuel (* goes on in piperead_resume *)
  else
  let* i := piperead_copy (S (Z.to_nat n)) p n 0 in
  onk (wakeup (Some (ChPipeW p))) ;;;
  wrelease (Lpipe p) ;;;
  ret i.

Definition piperead (p n : Z) : M (world I) Z :=
  wacquire (Lpipe p) ;;;
  piperead_locked p n.

Definition piperead_resume (pr : nat) (intena : bool) (p n : Z) : M (world I) Z :=
  onk (sleep_resume pr (Lpipe p) intena) ;;;
  piperead_locked p n.
End copy.

(** The buffer of the system call at [addr]. *)
Definition user_load (addr i : Z) : M (world I) Z := onk (uload8 (u32 (addr + i))).
Definition user_put (addr i b : Z) : M (world I) unit := onk (ustore8 (u32 (addr + i)) b).

(** ** The queue a pipe represents *)

Record pipe_ok (p : pipe) : Prop := {
  po_nread : 0 <= pi_nread p < 2 ^ 32;
  po_nwrite : 0 <= pi_nwrite p < 2 ^ 32;
  po_len : u32 (pi_nwrite p - pi_nread p) <= PIPESIZE;
}.

Definition plen (p : pipe) : Z := u32 (pi_nwrite p - pi_nread p).
(** The bytes in the buffer, oldest first. *)
Definition contents (p : pipe) : list Z :=
  (fun j => pi_data p ((pi_nread p + Z.of_nat j) mod PIPESIZE)) <$> seq 0 (Z.to_nat (plen p)).

Lemma contents_length p : Z.of_nat (length (contents p)) = plen p.
Proof. unfold contents. rewrite length_fmap, length_seq, Z2Nat.id; [done|apply u32_range]. Qed.

Lemma u32_mod_pipe z : u32 z mod PIPESIZE = z mod PIPESIZE.
Proof. unfold u32, PIPESIZE. symmetry. apply Znumtheory.Zmod_div_mod; [done..|by exists (2 ^ 23)]. Qed.

Lemma full_spec p : pipe_ok p -> full p = (plen p =? PIPESIZE).
Proof.
  intros [H1 H2 H3]. unfold full, plen, u32, PIPESIZE in *.
  apply eq_true_iff_eq. rewrite !Z.eqb_eq. Z.div_mod_to_equations. lia.
Qed.

Lemma empty_spec p : pipe_ok p -> empty p = (plen p =? 0).
Proof.
  intros [H1 H2 H3]. unfold empty, plen, u32, PIPESIZE in *.
  apply eq_true_iff_eq. rewrite !Z.eqb_eq. Z.div_mod_to_equations. lia.
Qed.

Lemma plen_push p b : pipe_ok p -> full p = false -> plen (push b p) = plen p + 1.
Proof.
  intros Hp Hf. rewrite full_spec in Hf by done. destruct Hp as [H1 H2 H3]. bool_to_prop.
  unfold plen, push, u32, PIPESIZE in *. simpl. Z.div_mod_to_equations. lia.
Qed.

Lemma push_ok p b : pipe_ok p -> full p = false -> pipe_ok (push b p).
Proof.
  intros Hp Hf. pose proof (plen_push p b Hp Hf) as Hl. rewrite full_spec in Hf by done.
  destruct Hp as [H1 H2 H3]. bool_to_prop. split; [done|apply u32_range|].
  change (plen (push b p) <= PIPESIZE). rewrite Hl. fold (plen p) in H3. lia.
Qed.

Lemma contents_push p b : pipe_ok p -> full p = false -> contents (push b p) = contents p ++ [b].
Proof.
  intros Hp Hf. unfold contents. rewrite plen_push by done. rewrite full_spec in Hf by done. bool_to_prop.
  destruct Hp as [H1 H2 H3]. pose proof (u32_range (pi_nwrite p - pi_nread p)). fold (plen p) in *.
  rewrite Z2Nat.inj_add, Nat.add_1_r by lia. rewrite seq_S, fmap_app. f_equal.
  - apply list_fmap_ext. intros i j Hj%lookup_seq. simpl. rewrite upd_ne; [done|].
    unfold plen, u32, PIPESIZE in *. Z.div_mod_to_equations. lia.
  - simpl. f_equal. rewrite Z2Nat.id by lia.
    replace ((pi_nread p + plen p) mod PIPESIZE) with (pi_nwrite p mod PIPESIZE); [by rewrite upd_eq|].
    unfold plen, u32, PIPESIZE in *. Z.div_mod_to_equations. lia.
Qed.

Lemma plen_pop p : pipe_ok p -> empty p = false -> plen (pop p) = plen p - 1.
Proof.
  intros Hp Hf. rewrite empty_spec in Hf by done. destruct Hp as [H1 H2 H3]. bool_to_prop.
  unfold plen, pop, u32, PIPESIZE in *. simpl. Z.div_mod_to_equations. lia.
Qed.

Lemma pop_ok p : pipe_ok p -> empty p = false -> pipe_ok (pop p).
Proof.
  intros Hp Hf. pose proof (plen_pop p Hp Hf) as Hl. destruct Hp as [H1 H2 H3].
  split; [apply u32_range|done|]. change (plen (pop p) <= PIPESIZE). rewrite Hl. fold (plen p) in H3. lia.
Qed.

Lemma contents_pop p : pipe_ok p -> empty p = false -> contents p = front p :: contents (pop p).
Proof.
  intros Hp Hf. unfold contents. rewrite plen_pop by done. rewrite empty_spec in Hf by done. bool_to_prop.
  destruct Hp as [H1 H2 H3]. pose proof (u32_range (pi_nwrite p - pi_nread p)). fold (plen p) in *.
  replace (Z.to_nat (plen p)) with (S (Z.to_nat (plen p - 1))) by lia. simpl. f_equal.
  - unfold front. f_equal. f_equal. lia.
  - rewrite <- seq_shift, <- list_fmap_compose. apply list_fmap_ext. intros i j _. simpl.
    f_equal. unfold u32, PIPESIZE. Z.div_mod_to_equations. lia.
Qed.

(** ** The copy loops *)

(** Storing, and loading, bytes at consecutive user addresses. *)
Fixpoint ustore_bytes (addr i : Z) (bs : list Z) : M kst unit :=
  match bs with
  | [] => ret tt
  | b :: bs' => ustore8 (u32 (addr + i)) b ;;; ustore_bytes addr (i + 1) bs'
  end.
Fixpoint uload_bytes (addr i : Z) (n : nat) : M kst (list Z) :=
  match n with
  | O => ret []
  | S n' => let* b := uload8 (u32 (addr + i)) in let* bs := uload_bytes addr (i + 1) n' in ret (b :: bs)
  end.

Lemma onk_Ret {A} (m : M kst A) (k k' : kst) (f : fstate I) a : m k = Ret a k' -> onk m (k, f) = Ret a (k', f).
Proof. intros E. unfold onk, zoom. simpl. by rewrite E. Qed.
Lemma pipe_get_run p (k : kst) (f : fstate I) : pipe_get p (k, f) = Ret (fs_pipe f p) (k, f).
Proof. by destruct f. Qed.
Definition put_pipe (f : fstate I) (p : Z) (q : pipe) : fstate I := set_fs_pipe (upd (fs_pipe f) p q) f.
Lemma pipe_upd_run p g (k : kst) (f : fstate I) : pipe_upd p g (k, f) = Ret tt (k, put_pipe f p (g (fs_pipe f p))).
Proof. done. Qed.
Lemma put_pipe_eq f p q : fs_pipe (put_pipe f p q) p = q.
Proof. simpl. by rewrite upd_eq. Qed.
Lemma put_pipe_twice f p q q' : put_pipe (put_pipe f p q) p q' = put_pipe f p q'.
Proof. unfold put_pipe. simpl. by rewrite upd_upd. Qed.
Lemma put_pipe_id f p : put_pipe f p (fs_pipe f p) = f.
Proof. unfold put_pipe. rewrite upd_id by done. by destruct f. Qed.

Lemma piperead_copy_S put fuel p n i : piperead_copy put (S fuel) p n i =
  if i <? n then
    let* q := pipe_get p in
    if empty q then ret i else
    pipe_upd p pop ;;;
    put i (front q) ;;;
    piperead_copy put fuel p n (i + 1)
  else ret i.
Proof. done. Qed.

Lemma piperead_copy_run p addr n : forall m i k k' f, pipe_ok (fs_pipe f p) -> Z.of_nat m = n - i ->
  ustore_bytes addr i (take m (contents (fs_pipe f p))) k = Ret tt k' ->
  exists q, piperead_copy (user_put addr) (S m) p n i (k, f) =
    Ret (i + Z.of_nat (length (take m (contents (fs_pipe f p))))) (k', put_pipe f p q) /\
    pipe_ok q /\ contents q = drop m (contents (fs_pipe f p)).
Proof.
  induction m as [|m IH]; intros i k k' f Hok Hm E.
  - rewrite piperead_copy_S, (proj2 (Z.ltb_ge i n)) by lia. simpl in *. injection E as <-.
    exists (fs_pipe f p). rewrite put_pipe_id, Z.add_0_r, drop_0. done.
  - rewrite piperead_copy_S, (proj2 (Z.ltb_lt i n)) by lia.
    rewrite (bind_Ret _ _ _ _ _ (pipe_get_run p k f)). destruct (empty (fs_pipe f p)) eqn:He.
    + pose proof He as He'. rewrite empty_spec in He' by done. bool_to_prop.
      pose proof (contents_length (fs_pipe f p)) as Hl. rewrite He' in Hl.
      destruct (contents (fs_pipe f p)) eqn:Ec; [|done]. simpl in *. injection E as <-.
      exists (fs_pipe f p). by rewrite put_pipe_id, Z.add_0_r.
    + rewrite (contents_pop _ Hok He) in E |- *. simpl take in *. simpl drop. simpl ustore_bytes in E.
      apply bind_inv in E as ([] & k1 & E1 & E2).
      rewrite (bind_Ret _ _ _ _ _ (pipe_upd_run p pop k f)), (bind_Ret (user_put _ _ _) _ _ _ _ (onk_Ret _ _ _ _ _ E1)).
      destruct (IH (i + 1) k1 k' (put_pipe f p (pop (fs_pipe f p)))) as (q & Eq & Hq & Hc);
        rewrite ?put_pipe_eq; [by apply pop_ok|lia|done|].
      rewrite put_pipe_eq, put_pipe_twice in *. exists q. split_and!; [|done|done].
      rewrite Eq. f_equal. simpl length. lia.
Qed.

Lemma pipewrite_loop_run p addr n : forall m i k k' f bs, pipe_ok (fs_pipe f p) -> Z.of_nat m = n - i ->
  plen (fs_pipe f p) + Z.of_nat m <= PIPESIZE -> uload_bytes addr i m k = Ret bs k' ->
  exists q, pipewrite_loop (user_load addr) (S m) p n i (k, f) = Ret true (k', put_pipe f p q) /\
    pipe_ok q /\ contents q = contents (fs_pipe f p) ++ bs.
Proof.
  induction m as [|m IH]; intros i k k' f bs Hok Hm Hfit E.
  - cbn [pipewrite_loop]. rewrite (proj2 (Z.ltb_ge i n)) by lia. injection E as <- <-.
    exists (fs_pipe f p). by rewrite put_pipe_id, app_nil_r.
  - remember (S m) as fuel eqn:Hfuel. cbn [pipewrite_loop]. rewrite (proj2 (Z.ltb_lt i n)) by lia.
    rewrite (bind_Ret _ _ _ _ _ (pipe_get_run p k f)).
    assert (full (fs_pipe f p) = false) as Hf by (rewrite full_spec by done; apply Z.eqb_neq; lia).
    rewrite Hf. subst fuel. simpl uload_bytes in E. apply bind_inv in E as (b & k1 & E1 & E2).
    apply bind_inv in E2 as (bs' & k2 & E2 & E3). injection E3 as <- <-.
    rewrite (bind_Ret (user_load _ _) _ _ _ _ (onk_Ret _ _ _ f _ E1)), (bind_Ret _ _ _ _ _ (pipe_upd_run p (push b) k1 f)).
    destruct (IH (i + 1) k1 k2 (put_pipe f p (push b (fs_pipe f p))) bs') as (q & Eq & Hq & Hc);
      rewrite ?put_pipe_eq, ?plen_push; [by apply push_ok|lia|lia|done|done|done|].
    rewrite put_pipe_eq, put_pipe_twice, contents_push in * by done.
    exists q. split_and!; [done|done|]. by rewrite Hc, <- app_assoc.
Qed.

(** The copy loop of piperead, when [n] bytes are wanted and storing them
    succeeds: it returns the number of bytes that were available, up to [n], has
    stored exactly the oldest bytes of the pipe, in order, and leaves the rest. *)
Theorem piperead_copies p addr n k k' f :
  let bs := take (Z.to_nat n) (contents (fs_pipe f p)) in
  pipe_ok (fs_pipe f p) -> 0 <= n -> ustore_bytes addr 0 bs k = Ret tt k' ->
  exists q, piperead_copy (user_put addr) (S (Z.to_nat n)) p n 0 (k, f) = Ret (Z.of_nat (length bs)) (k', put_pipe f p q) /\
    pipe_ok q /\ contents q = drop (Z.to_nat n) (contents (fs_pipe f p)).
Proof.
  intros bs Hok Hn E.
  destruct (piperead_copy_run p addr n (Z.to_nat n) 0 k k' f Hok ltac:(lia) E) as (q & Eq & Hq & Hc). by exists q.
Qed.

(** The loop of pipewrite, when the bytes fit and loading them succeeds: it
    appends exactly those bytes, in order. *)
Theorem pipewrite_appends p addr n k k' f bs :
  pipe_ok (fs_pipe f p) -> 0 <= n -> plen (fs_pipe f p) + n <= PIPESIZE ->
  uload_bytes addr 0 (Z.to_nat n) k = Ret bs k' ->
  exists q, pipewrite_loop (user_load addr) (S (Z.to_nat n)) p n 0 (k, f) = Ret true (k', put_pipe f p q) /\
    pipe_ok q /\ contents q = contents (fs_pipe f p) ++ bs.
Proof.
  intros Hok Hn Hfit E.
  destruct (pipewrite_loop_run p addr n (Z.to_nat n) 0 k k' f bs Hok) as (q & Eq & Hq & Hc); [lia|lia|done|]. by exists q.
Qed.

End pipe.

(** ** All interleavings

    The state of the layers below files is here a log of the bytes that were taken from the buffers
    of writers and of the bytes that were stored into the buffers of readers. *)
Section fifo.
Context `{Symbols} (p : Z).
Notation W := (world (list Z * list Z)).

Definition written (w : W) : list Z := (fs_low w.2).1.
Definition readout (w : W) : list Z := (fs_low w.2).2.

Definition note_written (b : Z) : M W unit :=
  onf (modify (fun f => set_fs_low ((fs_low f).1 ++ [b], (fs_low f).2) f)).
Definition note_read (b : Z) : M W unit :=
  onf (modify (fun f => set_fs_low ((fs_low f).1, (fs_low f).2 ++ [b]) f)).
Definition noted_load (addr i : Z) : M W Z := let* b := user_load addr i in note_written b ;;; ret b.
Definition noted_put (addr i b : Z) : M W unit := note_read b ;;; user_put addr i b.

(** [w] to [w'] by one piece of code that runs with the lock of the pipe: a call, or what
    follows a sleep in it, up to its return or its next sleep.  In between anything may happen to the
    rest of the kernel. *)
Inductive pipe_step (w w' : W) : Prop :=
| P_write addr n r : pipewrite (noted_load addr) p n w = Ret r w' -> pipe_step w w'
| P_write_sleep addr n : pipewrite (noted_load addr) p n w = Swtch w' -> pipe_step w w'
| P_write_on pr b addr n i r : pipewrite_resume (noted_load addr) pr b p n i w = Ret r w' -> pipe_step w w'
| P_write_on_sleep pr b addr n i : pipewrite_resume (noted_load addr) pr b p n i w = Swtch w' -> pipe_step w w'
| P_read addr n r : piperead (noted_put addr) p n w = Ret r w' -> pipe_step w w'
| P_read_sleep addr n : piperead (noted_put addr) p n w = Swtch w' -> pipe_step w w'
| P_read_on pr b addr n r : piperead_resume (noted_put addr) pr b p n w = Ret r w' -> pipe_step w w'
| P_read_on_sleep pr b addr n : piperead_resume (noted_put addr) pr b p n w = Swtch w' -> pipe_step w w'
| P_close b : pipeclose p b w = Ret tt w' -> pipe_step w w'
| P_other : fs_pipe w'.2 p = fs_pipe w.2 p -> fs_low w'.2 = fs_low w.2 -> pipe_step w w'.

Definition fifo (w : W) : Prop :=
  pipe_ok (fs_pipe w.2 p) /\ written w = readout w ++ contents (fs_pipe w.2 p).
Definition wlen (w : W) : Z := Z.of_nat (length (written w)).
Definition rlen (w : W) : Z := Z.of_nat (length (readout w)).

Lemma wp_onk {A} (m : M kst A) (w : W) (Q : A -> W -> Prop) (R : W -> Prop) :
  (forall a k, Q a (k, w.2)) -> (forall k, R (k, w.2)) -> wp (onk m w) Q R.
Proof. intros HQ HR. unfold onk, zoom. destruct (m w.1); simpl; auto. Qed.

(** One byte in. *)
Lemma noted_push {A} addr i (w : W) (k : M W A) Q : full (fs_pipe w.2 p) = false -> fifo w ->
  (forall w', fifo w' -> wlen w' = wlen w + 1 -> wp (k w') Q fifo) ->
  wp ((let* b := noted_load addr i in pipe_upd p (push b) ;;; k) w) Q fifo.
Proof.
  intros Hf [Hok Hw] HQ. apply wp_bind. unfold noted_load. apply wp_bind. apply wp_onk; [|by intros; split].
  intros b kk. destruct w as [k0 f]. apply wp_bind. simpl. apply HQ.
  - split; simpl; rewrite upd_eq; [by apply push_ok|]. unfold written, readout in *. simpl in *.
    by rewrite contents_push, Hw, app_assoc.
  - unfold wlen, written. simpl. rewrite length_app. simpl. lia.
Qed.

(** One byte out. *)
Lemma noted_pop {A} addr i (w : W) (k : M W A) Q : empty (fs_pipe w.2 p) = false -> fifo w ->
  (forall w', fifo w' -> rlen w' = rlen w + 1 -> wp (k w') Q fifo) ->
  wp ((pipe_upd p pop ;;; noted_put addr i (front (fs_pipe w.2 p)) ;;; k) w) Q fifo.
Proof.
  intros He [Hok Hw] HQ. destruct w as [k0 f]. apply wp_bind. simpl. apply wp_bind. unfold noted_put. apply wp_bind. simpl.
  set (w1 := (k0, _)). assert (fifo w1 /\ rlen w1 = rlen (k0, f) + 1) as [H1 H2].
  { split; [split|]; simpl.
    - rewrite upd_eq. by apply pop_ok.
    - rewrite upd_eq. unfold written, readout in *. simpl in *. by rewrite Hw, (contents_pop _ Hok He), <- app_assoc.
    - unfold rlen, readout. simpl. rewrite length_app. simpl. lia. }
  apply wp_onk; [|by intros; apply H1]. intros [] kk. by apply HQ.
Qed.

Lemma pipewrite_loop_fifo addr n fuel : forall i w, fifo w ->
  wp (pipewrite_loop (noted_load addr) fuel p n i w)
    (fun ok w' => fifo w' /\ (ok = true -> wlen w' = wlen w + Z.max 0 (n - i))) fifo.
Proof.
  induction fuel as [|fuel IH]; intros i w Hw; [done|]. cbn [pipewrite_loop]. destruct (i <? n) eqn:Hi; bool_to_prop.
  2: { simpl. split; [done|]. lia. }
  destruct w as [k f]. apply wp_bind. rewrite pipe_get_run. cbn [wp]. destruct (full (fs_pipe f p)) eqn:Hf.
  - apply wp_bind. destruct (negb _); [|apply wp_onk; [|done]; intros [] kk; cbn [wp]].
    1,2: apply wp_bind, wp_onk; [|done]; intros; by split.
    apply wp_bind, wp_onk; [|done]. intros _ k1. apply wp_bind, wp_onk; [|done]. done.
  - apply noted_push; [done|done|]. intros w' Hw' Hl. eapply wp_mono; [by apply IH| |done].
    intros ok w2 [H2 Hl2]. split; [done|]. intros Hok. specialize (Hl2 Hok). lia.
Qed.

Lemma pipewrite_from_fifo addr n i w : fifo w -> wp (pipewrite_from (noted_load addr) p n i w)
  (fun r w' => fifo w' /\ (r = -1 \/ r = n /\ wlen w' = wlen w + Z.max 0 (n - i))) fifo.
Proof.
  intros Hw. apply wp_bind. eapply wp_mono; [by apply pipewrite_loop_fifo| |done].
  intros [] [k f] [H1 Hl]; [|split; [done|by left]]. specialize (Hl eq_refl). cbn [negb].
  apply wp_bind, wp_onk; [|done]. intros _ k1. apply wp_bind, wp_onk; [|done]. intros _ k2. split; [done|by right].
Qed.

Lemma piperead_copy_fifo addr n fuel : forall i w, fifo w ->
  wp (piperead_copy (noted_put addr) fuel p n i w) (fun r w' => fifo w' /\ rlen w' = rlen w + (r - i)) fifo.
Proof.
  induction fuel as [|fuel IH]; intros i w Hw; [done|]. rewrite piperead_copy_S.
  destruct (i <? n); [|simpl; split; [done|lia]]. destruct w as [k f]. apply wp_bind. rewrite pipe_get_run. cbn [wp].
  destruct (empty (fs_pipe f p)) eqn:He; [simpl; split; [done|lia]|]. apply (noted_pop addr i (k, f)); [done|done|].
  intros w' Hw' Hl. eapply wp_mono; [by apply IH| |done]. intros r w2 [H2 Hl2]. split; [done|lia].
Qed.

Lemma piperead_locked_fifo addr n w : fifo w -> wp (piperead_locked (noted_put addr) p n w)
  (fun r w' => fifo w' /\ (r = -1 \/ rlen w' = rlen w + r)) fifo.
Proof.
  intros Hw. destruct w as [k f]. apply wp_bind. rewrite pipe_get_run. cbn [wp]. destruct (_ && _).
  - apply wp_bind, wp_onk; [|done]. intros [] k1; [|by apply wp_bind, wp_onk].
    apply wp_bind, wp_onk; [|done]. intros _ k2. split; [done|by left].
  - apply wp_bind. eapply wp_mono; [by apply piperead_copy_fifo| |done]. intros r [k1 f1] [H1 Hl].
    apply wp_bind, wp_onk; [|done]. intros _ k2. apply wp_bind, wp_onk; [|done]. intros _ k3. split; [done|right].
    unfold rlen, readout in *. simpl in *. lia.
Qed.

Lemma pipewrite_fifo addr n w : fifo w -> wp (pipewrite (noted_load addr) p n w)
  (fun r w' => fifo w' /\ (r = -1 \/ r = n /\ wlen w' = wlen w + Z.max 0 n)) fifo.
Proof.
  intros Hw. apply wp_bind, wp_onk; [|done]. intros _ k.
  eapply wp_mono; [by apply (pipewrite_from_fifo addr n 0 (k, w.2))| |done]. intros r w'. by rewrite Z.sub_0_r.
Qed.
Lemma piperead_fifo addr n w : fifo w -> wp (piperead (noted_put addr) p n w)
  (fun r w' => fifo w' /\ (r = -1 \/ rlen w' = rlen w + r)) fifo.
Proof. intros Hw. apply wp_bind, wp_onk; [|done]. intros _ k. by apply (piperead_locked_fifo addr n (k, w.2)). Qed.

Lemma pipeclose_fifo b w : fifo w -> wp (pipeclose p b w) (fun _ => fifo) fifo.
Proof.
  intros Hw. apply wp_bind, wp_onk; [|done]. intros _ k. apply wp_bind.
  apply (wp_mono _ (fun _ => fifo) _ fifo); [|clear w Hw k; intros _ [k f] Hw|done].
  - destruct Hw as [Hok Hc]. destruct b; apply wp_bind; cbn [wp]; apply wp_onk; intros; split; simpl; rewrite upd_eq; try done; by destruct Hok.
  - apply wp_bind. rewrite pipe_get_run. cbn [wp]. destruct (_ && _); [|by apply wp_onk].
    apply wp_bind, wp_onk; [|done]. intros _ k1. by apply wp_onk.
Qed.

Lemma pipewrite_resume_fifo pr b addr n i w : fifo w ->
  wp (pipewrite_resume (noted_load addr) pr b p n i w) (fun _ => fifo) fifo.
Proof.
  intros Hw. apply wp_bind, wp_onk; [|done]. intros _ k.
  eapply wp_mono; [by apply (pipewrite_from_fifo addr n i (k, w.2))|by intros ? ? []|done].
Qed.
Lemma piperead_resume_fifo pr b addr n w : fifo w -> wp (piperead_resume (noted_put addr) pr b p n w) (fun _ => fifo) fifo.
Proof.
  intros Hw. apply wp_bind, wp_onk; [|done]. intros _ k.
  eapply wp_mono; [by apply (piperead_locked_fifo addr n (k, w.2))|by intros ? ? []|done].
Qed.

Lemma step_fifo w w' : fifo w -> pipe_step w w' -> fifo w'.
Proof.
  intros Hw [addr n r E|addr n E|pr b addr n i r E|pr b addr n i E|addr n r E|addr n E|pr b addr n r E|pr b addr n E|b E|Ep El].
  - pose proof (pipewrite_fifo addr n w Hw) as G. rewrite E in G. apply G.
  - pose proof (pipewrite_fifo addr n w Hw) as G. rewrite E in G. apply G.
  - pose proof (pipewrite_resume_fifo pr b addr n i w Hw) as G. rewrite E in G. apply G.
  - pose proof (pipewrite_resume_fifo pr b addr n i w Hw) as G. rewrite E in G. apply G.
  - pose proof (piperead_fifo addr n w Hw) as G. rewrite E in G. apply G.
  - pose proof (piperead_fifo addr n w Hw) as G. rewrite E in G. apply G.
  - pose proof (piperead_resume_fifo pr b addr n w Hw) as G. rewrite E in G. apply G.
  - pose proof (piperead_resume_fifo pr b addr n w Hw) as G. rewrite E in G. apply G.
  - pose proof (pipeclose_fifo b w Hw) as G. rewrite E in G. apply G.
  - destruct Hw as [Hok Hc]. unfold fifo, written, readout. rewrite Ep, El. by split.
Qed.

End fifo.
