(* ===== verification/Sleeplock.v ===== *)
(** * Sleep locks (sleeplock.c)

    A sleep lock is a flag and the pid of its holder under a spin lock.
    [acquiresleep] on a held lock puts the process to sleep: the call ends in
    [Swtch] and goes on, when the process is resumed, in [acquiresleep_resume]. *)
From S2P Require Import Prelude Machine ProcQueue StringC Spinlock Kalloc Vm VmFrame Proc RunQueue ProcRun Sched UserMem Trap FsState.

Section sleeplock.
Context {I : Type}.

Definition set_sl_locked v (s : sleeplock) := mkSleep v (sl_pid s).
Definition set_sl_pid v (s : sleeplock) := mkSleep (sl_locked s) v.

Definition initsleeplock (l : sleepid) : M (world I) unit :=
  onk (on_cpu (initlock (Lsleep l))) ;;;
  sl_upd l (set_sl_locked false) ;;;
  sl_upd l (set_sl_pid 0).

(** The loop and what follows it, with the spin lock held. *)
Definition acquiresleep_locked (l : sleepid) : M (world I) unit :=
  let* s := sl_get l in
  if sl_locked s then
    onk (sleep (Some (ChSleep l)) (Some (Lsleep l))) ;;;
    out_of_fuel (* goes on in acquiresleep_resume *)
  else
    sl_upd l (set_sl_locked true) ;;;
    let* pid := onk (cur_field p_pid) in
    sl_upd l (set_sl_pid pid) ;;;
    wrelease (Lsleep l).

Definition acquiresleep (l : sleepid) : M (world I) unit :=
  wacquire (Lsleep l) ;;;
  acquiresleep_locked l.

Definition acquiresleep_resume (pr : nat) (intena : bool) (l : sleepid) : M (world I) unit :=
  onk (sleep_resume pr (Lsleep l) intena) ;;;
  acquiresleep_locked l.

Definition releasesleep (l : sleepid) : M (world I) unit :=
  wacquire (Lsleep l) ;;;
  sl_upd l (set_sl_locked false) ;;;
  sl_upd l (set_sl_pid 0) ;;;
  onk (wakeup (Some (ChSleep l))) ;;;
  wrelease (Lsleep l).

Definition holdingsleep (l : sleepid) : M (world I) bool :=
  wacquire (Lsleep l) ;;;
  let* s := sl_get l in
  let* pid := (if sl_locked s then onk (cur_field p_pid) else ret 0) in
  let r := sl_locked s && (sl_pid s =? pid) in
  wrelease (Lsleep l) ;;;
  ret r.

(** ** Calls that do not touch the files *)

Lemma onk_inv {A} (m : M kst A) (w w' : world I) a :
  onk m w = Ret a w' -> m w.1 = Ret a w'.1 /\ w'.2 = w.2.
Proof. unfold onk, zoom. destruct (m w.1); naive_solver. Qed.
Lemma onk_Swtch {A} (m : M kst A) (w w' : world I) :
  onk m w = Swtch w' -> m w.1 = Swtch w'.1 /\ w'.2 = w.2.
Proof. unfold onk, zoom. destruct (m w.1); naive_solver. Qed.

Lemma bind_Swtch {S A B} (m : M S A) (k : A -> M S B) s s' :
  bind m k s = Swtch s' -> m s = Swtch s' \/ exists a s1, m s = Ret a s1 /\ k a s1 = Swtch s'.
Proof. unfold bind. destruct (m s) eqn:E; naive_solver. Qed.

Definition put_sleep (f : fstate I) (l : sleepid) (s : sleeplock) : fstate I :=
  set_fs_sleep (upd (fs_sleep f) l s) f.

(** The process of this CPU has this pid. *)
Definition cur_is (k : kst) (pid : Z) : Prop :=
  exists p, c_proc (my (k_hw k)) = Some p /\ p_pid (pt_proc (k_pt k) p) = pid.

(** A lock operation leaves the current process in place. *)
Lemma acquire_cur (lk : lockid) k k' pid : hw_wf (k_hw k) -> cur_is k pid ->
  on_cpu (acquire lk) k = Ret tt k' -> hw_wf (k_hw k') /\ cur_is k' pid.
Proof.
  intros Hwf Hc E. destruct (lk_locked (hw_locks (k_hw k) lk)) eqn:Hl.
  - exfalso. unfold on_cpu, on_vm, on_hw, zoom in E. change (v_hw (k_vm k)) with (k_hw k) in E.
    rewrite acquire_busy in E by done. by destruct (bool_decide _).
  - rewrite (on_cpu_Ret _ _ _ _ (acquire_free lk _ Hwf Hl)) in E. injection E as <-.
    change (k_hw (set_khw ?h k)) with h. split; [apply hw_wf_set_lock, pushed_wf, Hwf|].
    destruct Hc as (p & Hp & Hpid). exists p. split; [|done].
    change (k_hw (set_khw ?h k)) with h. by rewrite my_set_lock, my_set_my, proc_pushed.
Qed.

Lemma cur_field_pid k k' pid v : hw_wf (k_hw k) -> cur_is k pid ->
  cur_field p_pid k = Ret v k' -> v = pid.
Proof.
  intros Hwf (p & Hp & <-) E. unfold cur_field in E.
  rewrite (bind_Ret _ _ _ _ _ (myproc_run k Hwf)), Hp in E. cbn [nonnull] in E.
  rewrite (bind_Ret _ _ _ _ _ (pget_run p _)) in E. unfold ret in E. by injection E as <-.
Qed.

(** The end of acquiresleep: the lock was free, and the process has it now. *)
Lemma locked_inv l (w w' : world I) pid : hw_wf (k_hw w.1) -> cur_is w.1 pid ->
  acquiresleep_locked l w = Ret tt w' ->
  sl_locked (fs_sleep w.2 l) = false /\ w'.2 = put_sleep w.2 l (mkSleep true pid).
Proof.
  intros Hwf Hc. destruct w as [k f]. unfold acquiresleep_locked.
  change (sl_get l (k, f)) with (Ret (fs_sleep f l) (k, f) : outcome (world I) sleeplock).
  intros (s & w1 & [= <- <-] & E)%bind_inv. simpl. destruct (sl_locked (fs_sleep f l)).
  - by apply bind_inv in E as (? & ? & _ & ?).
  - split; [done|]. apply bind_inv in E as ([] & w1 & [= <-] & E).
    apply bind_inv in E as (v & w2 & [Ev E2]%onk_inv & E). apply cur_field_pid with (pid := pid) in Ev; [|done..].
    apply bind_inv in E as ([] & w3 & [= <-] & [_ E]%onk_inv). subst v. simpl in *.
    rewrite E, E2. unfold put_sleep, onf, zoom. simpl. by rewrite upd_eq, upd_upd.
Qed.

(** ** Calls that do not leave the CPU *)

Notation stays m := (keeps (fun _ => True) m).
Lemma stays_not {S A} (m : M S A) s s' : stays m -> m s <> Swtch s'.
Proof. intros Hm E. specialize (Hm s Logic.I). by rewrite E in Hm. Qed.
Lemma stays_zoom {S T A} (pr : T -> S) inj (m : M S A) : stays m -> stays (zoom pr inj m).
Proof. intros Hm t _. specialize (Hm (pr t) Logic.I). unfold zoom. by destruct (m (pr t)). Qed.
Lemma stays_modify {S} (f : S -> S) : stays (modify f).
Proof. by intros s. Qed.
Hint Resolve stays_modify : keeps.

Lemma mycpu_stays : stays mycpu.
Proof.
  unfold mycpu, readeflags_IF, lapicid. apply keeps_bind; [auto with keeps|intros i].
  apply keeps_if; [auto with keeps|]. apply keeps_bind; [auto with keeps|intros a].
  apply keeps_bind; [auto with keeps|intros h]. case_match; auto with keeps.
Qed.
Hint Resolve mycpu_stays : keeps.
Lemma upd_cpu_stays i f : stays (upd_cpu i f).
Proof. apply stays_modify. Qed.
Lemma sti_stays : stays sti.
Proof. by intros h. Qed.
Lemma cli_stays : stays cli.
Proof. by intros h. Qed.
Hint Resolve upd_cpu_stays sti_stays cli_stays : keeps.
Lemma pushcli_stays : stays pushcli.
Proof. unfold pushcli, readeflags_IF. eauto 20 with keeps. Qed.
Lemma popcli_stays : stays popcli.
Proof. unfold popcli, readeflags_IF. eauto 20 with keeps. Qed.
Hint Resolve pushcli_stays popcli_stays : keeps.
Lemma holding_stays lk : stays (holding lk).
Proof. unfold holding. eauto 20 with keeps. Qed.
Hint Resolve holding_stays : keeps.
Lemma release_stays lk : stays (release lk).
Proof. unfold release. eauto 20 with keeps. Qed.
Lemma cur_field_stays {A} (f : proc -> A) : stays (cur_field f).
Proof.
  apply keeps_bind; [apply stays_zoom, stays_zoom; eauto 20 with keeps|].
  intros [p|]; [|apply keeps_fault]. apply keeps_bind; [apply stays_zoom; by intros s|]. intros; apply keeps_ret.
Qed.

(** ** All interleavings

    A state is the kernel with, for each lock, the pids of the processes that
    returned from acquiresleep and have not called releasesleep. *)
Record slsys := mkSl { sy_w : world I; sy_hold : sleepid -> list Z }.

Inductive sl_step : slsys -> slsys -> Prop :=
| SL_acquire l w w' h pid : hw_wf (k_hw w.1) -> cur_is w.1 pid -> acquiresleep l w = Ret tt w' ->
    sl_step (mkSl w h) (mkSl w' (upd h l (pid :: h l)))
| SL_block l w w' h : acquiresleep l w = Swtch w' -> sl_step (mkSl w h) (mkSl w' h)
| SL_resume pr i l w w1 w' h pid : onk (sleep_resume pr (Lsleep l) i) w = Ret tt w1 ->
    hw_wf (k_hw w1.1) -> cur_is w1.1 pid -> acquiresleep_resume pr i l w = Ret tt w' ->
    sl_step (mkSl w h) (mkSl w' (upd h l (pid :: h l)))
| SL_block_again pr i l w w' h : acquiresleep_resume pr i l w = Swtch w' -> sl_step (mkSl w h) (mkSl w' h)
| SL_release l l1 l2 w w' h pid : h l = l1 ++ pid :: l2 -> releasesleep l w = Ret tt w' ->
    sl_step (mkSl w h) (mkSl w' (upd h l (l1 ++ l2)))
| SL_other w w' h : fs_sleep w'.2 = fs_sleep w.2 -> sl_step (mkSl w h) (mkSl w' h).

Definition sl_inv (y : slsys) : Prop := forall l,
  match sy_hold y l with
  | [] => sl_locked (fs_sleep (sy_w y).2 l) = false
  | [pid] => fs_sleep (sy_w y).2 l = mkSleep true pid
  | _ => False
  end.

(** A call that leaves the CPU has not changed any lock. *)
Lemma locked_Swtch l (w w' : world I) : acquiresleep_locked l w = Swtch w' -> w'.2 = w.2.
Proof.
  destruct w as [k f]. unfold acquiresleep_locked.
  intros [E|(s & w1 & [= <- <-] & E)]%bind_Swtch; [done|]. simpl. destruct (sl_locked (fs_sleep f l)).
  - apply bind_Swtch in E as [[_ E]%onk_Swtch|(? & ? & _ & ?)]; done.
  - exfalso. revert E. apply stays_not. apply keeps_bind; [by apply keeps_modify|intros _].
    apply keeps_bind; [apply stays_zoom, cur_field_stays|intros pid].
    apply keeps_bind; [by apply keeps_modify|intros _]. apply stays_zoom, stays_zoom, stays_zoom, release_stays.
Qed.

Lemma release_inv l (w w' : world I) : releasesleep l w = Ret tt w' ->
  w'.2 = put_sleep w.2 l (mkSleep false 0).
Proof.
  destruct w as [k f]. unfold releasesleep. intros ([] & w1 & [_ E1]%onk_inv & E)%bind_inv.
  apply bind_inv in E as ([] & w2 & [= <-] & E). apply bind_inv in E as ([] & w3 & [= <-] & E).
  apply bind_inv in E as ([] & w4 & [_ E4]%onk_inv & [_ E]%onk_inv).
  rewrite E, E4. simpl in *. rewrite E1. unfold put_sleep. simpl. by rewrite upd_eq, upd_upd.
Qed.

Lemma sl_inv_put y l s h : sl_inv y ->
  (match h with [] => sl_locked s = false | [pid] => s = mkSleep true pid | _ => False end) ->
  forall w, w.2 = put_sleep (sy_w y).2 l s -> sl_inv (mkSl w (upd (sy_hold y) l h)).
Proof.
  intros Hi Hs w Ew l'. simpl. rewrite Ew. simpl. rewrite !upd_case. case_decide; [done|apply Hi].
Qed.

Lemma sl_step_inv y y' : sl_step y y' -> sl_inv y -> sl_inv y'.
Proof.
  intros Hst Hi. destruct Hst as [l w w' h pid Hwf Hc E|l w w' h E|pr i l w w1 w' h pid E1 Hwf Hc E
    |pr i l w w' h E|l l1 l2 w w' h pid Eh E|w w' h E].
  - apply bind_inv in E as ([] & w1 & [E1 Ef]%onk_inv & E).
    destruct (acquire_cur _ _ _ _ Hwf Hc E1) as [Hwf1 Hc1].
    destruct (locked_inv _ _ _ _ Hwf1 Hc1 E) as [Hl Ew]. rewrite Ef in *.
    pose proof (Hi l) as Hh. simpl in Hh. destruct (h l) as [|? [|]] eqn:Eh; [|by rewrite Hh in Hl|done].
    eapply (sl_inv_put (mkSl w h)); eauto.
  - apply bind_Swtch in E as [[_ E]%onk_Swtch|([] & w1 & [_ E1]%onk_inv & E%locked_Swtch)];
      intros l'; specialize (Hi l'); simpl in *; by rewrite ?E, ?E1.
  - unfold acquiresleep_resume in E. rewrite (bind_Ret _ _ _ _ _ E1) in E. apply onk_inv in E1 as [_ Ef].
    destruct (locked_inv _ _ _ _ Hwf Hc E) as [Hl Ew]. rewrite Ef in *.
    pose proof (Hi l) as Hh. simpl in Hh. destruct (h l) as [|? [|]] eqn:Eh; [|by rewrite Hh in Hl|done].
    eapply (sl_inv_put (mkSl w h)); eauto.
  - apply bind_Swtch in E as [[_ E]%onk_Swtch|([] & w1 & [_ E1]%onk_inv & E%locked_Swtch)];
      intros l'; specialize (Hi l'); simpl in *; by rewrite ?E, ?E1.
  - apply release_inv in E. pose proof (Hi l) as Hh. simpl in Hh. rewrite Eh in Hh.
    eapply (sl_inv_put (mkSl w h)); eauto. by destruct l1 as [|? [|]], l2.
  - intros l. simpl. rewrite E. apply Hi.
Qed.

(** C26. Sleep locks are mutual exclusion locks between processes: whatever other
    kernel code runs in between, at most one process is between the return of
    acquiresleep, also one that had to sleep, and releasesleep, and the lock
    records the pid of exactly that process. *)
Theorem sleeplock_mutual_exclusion y0 y l : (forall l, sy_hold y0 l = []) ->
  (forall l, sl_locked (fs_sleep (sy_w y0).2 l) = false) -> rtc sl_step y0 y ->
  (length (sy_hold y l) <= 1)%nat /\
  (forall pid, pid ∈ sy_hold y l -> fs_sleep (sy_w y).2 l = mkSleep true pid) /\
  (sl_locked (fs_sleep (sy_w y).2 l) = true <-> exists pid, pid ∈ sy_hold y l).
Proof.
  intros H0 H1 Hs. assert (sl_inv y) as Hi.
  { assert (sl_inv y0) as Hi0 by (intros l'; by rewrite H0). clear H0 H1.
    induction Hs; eauto using sl_step_inv. }
  specialize (Hi l). destruct (sy_hold y l) as [|pid [|]]; simpl; [| |done].
  - split_and!; [lia|by intros ? ?%not_elem_of_nil|]. rewrite Hi. split; [done|]. by intros [? ?%not_elem_of_nil].
  - split_and!; [lia|by intros ? ->%list_elem_of_singleton|]. rewrite Hi. split; [|done].
    exists pid. by left.
Qed.
End sleeplock.
