(* ===== verification/Disk.v ===== *)
(** * Data of the file system (buf.h, log.c, fs.h, file.h)

    The state below files: the buffer cache, the log, the inode cache, the
    super block and the disk.  A [struct buf *] is an index of bcache.buf,
    [HEAD] stands for the list head; a [struct inode *] is an index of
    icache.inode.  The data of a buffer and a block of the disk are functions
    from the offset of a byte. *)
From S2P Require Import Prelude Machine ProcQueue StringC Spinlock Kalloc Vm Proc FsState.

(** ** Constants *)
Definition NINODE : nat := 50.
Definition NDEV : Z := 10.
Definition MAXARG : Z := 32.
Definition MAXOPBLOCKS : Z := 10.
Definition LOGSIZE : Z := MAXOPBLOCKS * 3.
Definition NBUF : nat := 30.
Definition FSSIZE : Z := 1000.
Definition B_VALID : Z := 2.
Definition B_DIRTY : Z := 4.
Definition ROOTINO : Z := 1.
Definition BSIZE : Z := 512.
Definition NDIRECT : Z := 12.
Definition NINDIRECT : Z := BSIZE / 4.
Definition MAXFILE : Z := NDIRECT + NINDIRECT.
Definition DIRSIZ : Z := 14.
Definition T_DIR : Z := 1.
Definition T_FILE : Z := 2.
Definition T_DEV : Z := 3.

(** ** Structs *)

Definition block : Type := Z -> Z.

(** struct buf; the sleep lock of buffer [b] is [SLbuf b]. *)
Record buf := mkBuf {
  b_flags : Z;
  b_dev : Z;
  b_blockno : Z;
  b_refcnt : Z;
  b_prev : nat;
  b_next : nat;
  b_qnext : option nat;
  b_data : block;
}.

(** The index that stands for &bcache.head. *)
Definition HEAD : nat := NBUF.

(** struct superblock *)
Record superblock := mkSb {
  sb_size : Z;
  sb_nblocks : Z;
  sb_ninodes : Z;
  sb_nlog : Z;
  sb_logstart : Z;
  sb_inodestart : Z;
  sb_bmapstart : Z;
}.

(** struct log with its struct logheader ([lg_n], [lg_block]). *)
Record logst := mkLog {
  lg_start : Z;
  lg_size : Z;
  lg_outstanding : Z;
  lg_committing : bool;
  lg_dev : Z;
  lg_n : Z;
  lg_block : Z -> Z;
}.

(** struct inode; the sleep lock of inode [i] is [SLinode i]. *)
Record inode := mkInode {
  i_dev : Z;
  i_inum : Z;
  i_ref : Z;
  i_valid : bool;
  i_type : Z;
  i_major : Z;
  i_minor : Z;
  i_nlink : Z;
  i_size : Z;
  i_addrs : Z -> Z;
}.

(** console.c: the ring buffer of input characters. *)
Record input := mkInput {
  in_buf : Z -> Z;
  in_r : Z;
  in_w : Z;
  in_e : Z;
}.

(** The static variables of console.c, kbd.c and uart.c, and the screen memory. *)
Record consst := mkCons {
  cn_locking : bool;
  cn_panicked : bool;
  cn_input : input;
  cn_crt : Z -> Z;
  cn_shift : Z;
  cn_uart : bool;
}.

(** What passed between the CPUs and the devices: bytes at ports, words that CPU [c] read or wrote at the
    registers of its devices, and the start of a CPU, which found its stack at [stack]. *)
Inductive event :=
| EvIn (port v : Z)
| EvOut (port v : Z)
| EvRead (c : nat) (a v : Z)
| EvWrite (c : nat) (a v : Z)
| EvStart (apicid stack : Z).

(** Everything below struct file.  [l_writes] records the writes to the disk,
    oldest first, and [l_dev] the accesses to devices, newest first; the code does not read them. *)
Record low := mkLow {
  l_buf : nat -> buf;
  l_log : logst;
  l_inode : nat -> inode;
  l_sb : superblock;
  l_disk : Z -> block;
  l_disksize : Z;
  l_idequeue : option nat;
  l_havedisk1 : bool;
  l_writes : list (Z * block);
  l_cons : consst;
  l_dev : list event;
}.

(** ** Assignments to fields *)
Definition set_b_flags (v : Z) (s : buf) : buf := mkBuf v (b_dev s) (b_blockno s) (b_refcnt s) (b_prev s) (b_next s) (b_qnext s) (b_data s).
Definition set_b_dev (v : Z) (s : buf) : buf := mkBuf (b_flags s) v (b_blockno s) (b_refcnt s) (b_prev s) (b_next s) (b_qnext s) (b_data s).
Definition set_b_blockno (v : Z) (s : buf) : buf := mkBuf (b_flags s) (b_dev s) v (b_refcnt s) (b_prev s) (b_next s) (b_qnext s) (b_data s).
Definition set_b_refcnt (v : Z) (s : buf) : buf := mkBuf (b_flags s) (b_dev s) (b_blockno s) v (b_prev s) (b_next s) (b_qnext s) (b_data s).
Definition set_b_prev (v : nat) (s : buf) : buf := mkBuf (b_flags s) (b_dev s) (b_blockno s) (b_refcnt s) v (b_next s) (b_qnext s) (b_data s).
Definition set_b_next (v : nat) (s : buf) : buf := mkBuf (b_flags s) (b_dev s) (b_blockno s) (b_refcnt s) (b_prev s) v (b_qnext s) (b_data s).
Definition set_b_qnext (v : option nat) (s : buf) : buf := mkBuf (b_flags s) (b_dev s) (b_blockno s) (b_refcnt s) (b_prev s) (b_next s) v (b_data s).
Definition set_b_data (v : block) (s : buf) : buf := mkBuf (b_flags s) (b_dev s) (b_blockno s) (b_refcnt s) (b_prev s) (b_next s) (b_qnext s) v.

Definition set_lg_start (v : Z) (s : logst) : logst := mkLog v (lg_size s) (lg_outstanding s) (lg_committing s) (lg_dev s) (lg_n s) (lg_block s).
Definition set_lg_size (v : Z) (s : logst) : logst := mkLog (lg_start s) v (lg_outstanding s) (lg_committing s) (lg_dev s) (lg_n s) (lg_block s).
Definition set_lg_outstanding (v : Z) (s : logst) : logst := mkLog (lg_start s) (lg_size s) v (lg_committing s) (lg_dev s) (lg_n s) (lg_block s).
Definition set_lg_committing (v : bool) (s : logst) : logst := mkLog (lg_start s) (lg_size s) (lg_outstanding s) v (lg_dev s) (lg_n s) (lg_block s).
Definition set_lg_dev (v : Z) (s : logst) : logst := mkLog (lg_start s) (lg_size s) (lg_outstanding s) (lg_committing s) v (lg_n s) (lg_block s).
Definition set_lg_n (v : Z) (s : logst) : logst := mkLog (lg_start s) (lg_size s) (lg_outstanding s) (lg_committing s) (lg_dev s) v (lg_block s).
Definition set_lg_block (v : Z -> Z) (s : logst) : logst := mkLog (lg_start s) (lg_size s) (lg_outstanding s) (lg_committing s) (lg_dev s) (lg_n s) v.

Definition set_i_dev (v : Z) (s : inode) : inode := mkInode v (i_inum s) (i_ref s) (i_valid s) (i_type s) (i_major s) (i_minor s) (i_nlink s) (i_size s) (i_addrs s).
Definition set_i_inum (v : Z) (s : inode) : inode := mkInode (i_dev s) v (i_ref s) (i_valid s) (i_type s) (i_major s) (i_minor s) (i_nlink s) (i_size s) (i_addrs s).
Definition set_i_ref (v : Z) (s : inode) : inode := mkInode (i_dev s) (i_inum s) v (i_valid s) (i_type s) (i_major s) (i_minor s) (i_nlink s) (i_size s) (i_addrs s).
Definition set_i_valid (v : bool) (s : inode) : inode := mkInode (i_dev s) (i_inum s) (i_ref s) v (i_type s) (i_major s) (i_minor s) (i_nlink s) (i_size s) (i_addrs s).
Definition set_i_type (v : Z) (s : inode) : inode := mkInode (i_dev s) (i_inum s) (i_ref s) (i_valid s) v (i_major s) (i_minor s) (i_nlink s) (i_size s) (i_addrs s).
Definition set_i_major (v : Z) (s : inode) : inode := mkInode (i_dev s) (i_inum s) (i_ref s) (i_valid s) (i_type s) v (i_minor s) (i_nlink s) (i_size s) (i_addrs s).
Definition set_i_minor (v : Z) (s : inode) : inode := mkInode (i_dev s) (i_inum s) (i_ref s) (i_valid s) (i_type s) (i_major s) v (i_nlink s) (i_size s) (i_addrs s).
Definition set_i_nlink (v : Z) (s : inode) : inode := mkInode (i_dev s) (i_inum s) (i_ref s) (i_valid s) (i_type s) (i_major s) (i_minor s) v (i_size s) (i_addrs s).
Definition set_i_size (v : Z) (s : inode) : inode := mkInode (i_dev s) (i_inum s) (i_ref s) (i_valid s) (i_type s) (i_major s) (i_minor s) (i_nlink s) v (i_addrs s).
Definition set_i_addrs (v : Z -> Z) (s : inode) : inode := mkInode (i_dev s) (i_inum s) (i_ref s) (i_valid s) (i_type s) (i_major s) (i_minor s) (i_nlink s) (i_size s) v.

Definition set_l_buf (v : nat -> buf) (s : low) : low := mkLow v (l_log s) (l_inode s) (l_sb s) (l_disk s) (l_disksize s) (l_idequeue s) (l_havedisk1 s) (l_writes s) (l_cons s) (l_dev s).
Definition set_l_log (v : logst) (s : low) : low := mkLow (l_buf s) v (l_inode s) (l_sb s) (l_disk s) (l_disksize s) (l_idequeue s) (l_havedisk1 s) (l_writes s) (l_cons s) (l_dev s).
Definition set_l_inode (v : nat -> inode) (s : low) : low := mkLow (l_buf s) (l_log s) v (l_sb s) (l_disk s) (l_disksize s) (l_idequeue s) (l_havedisk1 s) (l_writes s) (l_cons s) (l_dev s).
Definition set_l_sb (v : superblock) (s : low) : low := mkLow (l_buf s) (l_log s) (l_inode s) v (l_disk s) (l_disksize s) (l_idequeue s) (l_havedisk1 s) (l_writes s) (l_cons s) (l_dev s).
Definition set_l_disk (v : Z -> block) (s : low) : low := mkLow (l_buf s) (l_log s) (l_inode s) (l_sb s) v (l_disksize s) (l_idequeue s) (l_havedisk1 s) (l_writes s) (l_cons s) (l_dev s).
Definition set_l_disksize (v : Z) (s : low) : low := mkLow (l_buf s) (l_log s) (l_inode s) (l_sb s) (l_disk s) v (l_idequeue s) (l_havedisk1 s) (l_writes s) (l_cons s) (l_dev s).
Definition set_l_idequeue (v : option nat) (s : low) : low := mkLow (l_buf s) (l_log s) (l_inode s) (l_sb s) (l_disk s) (l_disksize s) v (l_havedisk1 s) (l_writes s) (l_cons s) (l_dev s).
Definition set_l_havedisk1 (v : bool) (s : low) : low := mkLow (l_buf s) (l_log s) (l_inode s) (l_sb s) (l_disk s) (l_disksize s) (l_idequeue s) v (l_writes s) (l_cons s) (l_dev s).
Definition set_l_writes (v : list (Z * block)) (s : low) : low := mkLow (l_buf s) (l_log s) (l_inode s) (l_sb s) (l_disk s) (l_disksize s) (l_idequeue s) (l_havedisk1 s) v (l_cons s) (l_dev s).
Definition set_l_cons (v : consst) (s : low) : low := mkLow (l_buf s) (l_log s) (l_inode s) (l_sb s) (l_disk s) (l_disksize s) (l_idequeue s) (l_havedisk1 s) (l_writes s) v (l_dev s).
Definition set_l_dev (v : list event) (s : low) : low := mkLow (l_buf s) (l_log s) (l_inode s) (l_sb s) (l_disk s) (l_disksize s) (l_idequeue s) (l_havedisk1 s) (l_writes s) (l_cons s) v.

Definition set_in_buf (v : Z -> Z) (s : input) : input := mkInput v (in_r s) (in_w s) (in_e s).
Definition set_in_r (v : Z) (s : input) : input := mkInput (in_buf s) v (in_w s) (in_e s).
Definition set_in_w (v : Z) (s : input) : input := mkInput (in_buf s) (in_r s) v (in_e s).
Definition set_in_e (v : Z) (s : input) : input := mkInput (in_buf s) (in_r s) (in_w s) v.

Definition set_cn_locking (v : bool) (s : consst) : consst := mkCons v (cn_panicked s) (cn_input s) (cn_crt s) (cn_shift s) (cn_uart s).
Definition set_cn_panicked (v : bool) (s : consst) : consst := mkCons (cn_locking s) v (cn_input s) (cn_crt s) (cn_shift s) (cn_uart s).
Definition set_cn_input (v : input) (s : consst) : consst := mkCons (cn_locking s) (cn_panicked s) v (cn_crt s) (cn_shift s) (cn_uart s).
Definition set_cn_crt (v : Z -> Z) (s : consst) : consst := mkCons (cn_locking s) (cn_panicked s) (cn_input s) v (cn_shift s) (cn_uart s).
Definition set_cn_shift (v : Z) (s : consst) : consst := mkCons (cn_locking s) (cn_panicked s) (cn_input s) (cn_crt s) v (cn_uart s).
Definition set_cn_uart (v : bool) (s : consst) : consst := mkCons (cn_locking s) (cn_panicked s) (cn_input s) (cn_crt s) (cn_shift s) v.

(** ** Access to the parts of the state *)

Notation W := (world low).

Definition onl {A} (m : M low A) : M W A := onf (zoom fs_low (fun f l => set_fs_low l f) m).

Definition buf_get (b : nat) : M W buf := onl (gets (fun l => l_buf l b)).
Definition buf_upd (b : nat) (g : buf -> buf) : M W unit :=
  onl (modify (fun l => set_l_buf (upd (l_buf l) b (g (l_buf l b))) l)).
Definition log_get : M W logst := onl (gets l_log).
Definition log_upd (g : logst -> logst) : M W unit := onl (modify (fun l => set_l_log (g (l_log l)) l)).
Definition ino_get (i : nat) : M W inode := onl (gets (fun l => l_inode l i)).
Definition ino_upd (i : nat) (g : inode -> inode) : M W unit :=
  onl (modify (fun l => set_l_inode (upd (l_inode l) i (g (l_inode l i))) l)).
Definition sb_get : M W superblock := onl (gets l_sb).
Definition cons_get : M W consst := onl (gets l_cons).
Definition cons_upd (g : consst -> consst) : M W unit := onl (modify (fun l => set_l_cons (g (l_cons l)) l)).

(** An access added to the history. *)
Definition note (e : event) (w : W) : W := (w.1, set_fs_low (set_l_dev (e :: l_dev (fs_low w.2)) (fs_low w.2)) w.2).

(** The instructions in and out on bytes, and rep insl and rep outsl of one sector. *)
Class Ports := {
  inb : Z -> M W Z;
  outb : Z -> Z -> M W unit;
  insl : Z -> M W block;
  outsl : Z -> block -> M W unit;
  ioapicenable : Z -> nat -> M W unit;
}.

(** ** Bytes of a block *)

(** [short] and [ushort]. *)
Definition u16 (z : Z) : Z := z mod 2 ^ 16.
Definition s16 (z : Z) : Z := (z + 2 ^ 15) mod 2 ^ 16 - 2 ^ 15.
Definition load16 (m : Z -> Z) (a : Z) : Z := u8 (m a) + 256 * u8 (m (a + 1)).
Definition store16 (m : Z -> Z) (a v : Z) : Z -> Z := fun b =>
  if decide (a <= b < a + 2) then u8 (Z.shiftr v (8 * (b - a))) else m b.

(** [n] bytes from offset [o], and storing bytes there. *)
Definition bytes_at (m : Z -> Z) (o n : Z) : list Z := (fun i => u8 (m (o + i))) <$> seqZ 0 n.
Definition blit (m : Z -> Z) (o : Z) (bs : list Z) : Z -> Z := fun a =>
  if decide (o <= a < o + Z.of_nat (length bs)) then nth (Z.to_nat (a - o)) bs 0 else m a.
(** The value of bytes, least significant first. *)
Fixpoint le_value (bs : list Z) : Z :=
  match bs with [] => 0 | b :: bs' => u8 b + 256 * le_value bs' end.

(** ** Loops *)

(** A loop over [l] that ends when its body returns a value. *)
Fixpoint for_some {S A B} (l : list A) (f : A -> M S (option B)) : M S (option B) :=
  match l with
  | [] => ret None
  | x :: l' => let* r := f x in match r with Some b => ret (Some b) | None => for_some l' f end
  end.
