(* ===== verification/Bio.v ===== *)
(** * The buffer cache (bio.c) and the memory disk (memide.c)

    The cache is generic in the disk driver, the class [BlockDev]; memide.c is
    its instance here, ide.c is in Ide. *)
From S2P Require Import Prelude Machine ProcQueue StringC Spinlock Kalloc Vm VmFrame Proc RunQueue ProcRun Sched UserMem Trap FsState Sleeplock Disk.

(** What the cache asks of a disk driver: synchronise a buffer with the disk. *)
Class BlockDev := { iderw : nat -> M W unit }.

Definition has (flags bit : Z) : bool := negb (Z.land flags bit =? 0).

(** ** memide.c *)

(** A write to the disk, and its record. *)
Definition disk_write (b : Z) (d : block) : M W unit :=
  onl (modify (fun l => set_l_writes (l_writes l ++ [(b, d)]) (set_l_disk (upd (l_disk l) b d) l))).

Definition memide_init (img : Z -> block) (size : Z) : M W unit :=
  onl (modify (fun l => set_l_disksize (s32 (u32 size / BSIZE)) (set_l_disk img l))).

Definition memide_rw (b : nat) : M W unit :=
  let* h := holdingsleep (SLbuf b) in
  if negb h then panic "iderw: buf not locked" else
  let* bp := buf_get b in
  if Z.land (b_flags bp) (Z.lor B_VALID B_DIRTY) =? B_VALID then panic "iderw: nothing to do" else
  if negb (b_dev bp =? 1) then panic "iderw: request not for disk 1" else
  let* size := onl (gets l_disksize) in
  if b_blockno bp >=? u32 size then panic "iderw: block out of range" else
  (if has (b_flags bp) B_DIRTY then
     buf_upd b (fun x => set_b_flags (Z.land (b_flags x) (Z.lnot B_DIRTY)) x) ;;;
     disk_write (b_blockno bp) (b_data bp)
   else
     let* d := onl (gets (fun l => l_disk l (b_blockno bp))) in
     buf_upd b (set_b_data d)) ;;;
  buf_upd b (fun x => set_b_flags (Z.lor (b_flags x) B_VALID) x).

Definition memide : BlockDev := {| iderw := memide_rw |}.

(** ** bio.c *)

Definition bufs : list nat := seq 0 NBUF.
#[global] Arguments bufs : simpl never.

(** [b->next = head.next; b->prev = &head; head.next->prev = b; head.next = b] *)
Definition push_front (b : nat) : M W unit :=
  let* h := buf_get HEAD in
  buf_upd b (set_b_next (b_next h)) ;;;
  buf_upd b (set_b_prev HEAD) ;;;
  let* h := buf_get HEAD in
  buf_upd (b_next h) (set_b_prev b) ;;;
  buf_upd HEAD (set_b_next b).

Definition binit : M W unit :=
  onk (on_cpu (initlock Lbcache)) ;;;
  buf_upd HEAD (set_b_prev HEAD) ;;;
  buf_upd HEAD (set_b_next HEAD) ;;;
  foreach bufs (fun b =>
    let* h := buf_get HEAD in
    buf_upd b (set_b_next (b_next h)) ;;;
    buf_upd b (set_b_prev HEAD) ;;;
    initsleeplock (SLbuf b) ;;;
    let* h := buf_get HEAD in
    buf_upd (b_next h) (set_b_prev b) ;;;
    buf_upd HEAD (set_b_next b)).

(** [for(b = b0; b != &head; b = link b) if(test b) ...]; a list of the NBUF
    buffers ends within NBUF + 1 steps. *)
Fixpoint scan (fuel : nat) (link : buf -> nat) (test : buf -> bool) (b : nat) : M W (option nat) :=
  match fuel with
  | O => out_of_fuel
  | S f =>
    if bool_decide (b = HEAD) then ret None else
    let* x := buf_get b in
    if test x then ret (Some b) else scan f link test (link x)
  end.

Definition bget (dev blockno : Z) : M W nat :=
  wacquire Lbcache ;;;
  let* h := buf_get HEAD in
  let* found := scan (S NBUF) b_next (fun x => (b_dev x =? dev) && (b_blockno x =? blockno)) (b_next h) in
  match found with
  | Some b =>
    buf_upd b (fun x => set_b_refcnt (u32 (b_refcnt x + 1)) x) ;;;
    wrelease Lbcache ;;;
    acquiresleep (SLbuf b) ;;;
    ret b
  | None =>
    let* h := buf_get HEAD in
    let* found := scan (S NBUF) b_prev (fun x => (b_refcnt x =? 0) && negb (has (b_flags x) B_DIRTY)) (b_prev h) in
    match found with
    | Some b =>
      buf_upd b (set_b_dev dev) ;;;
      buf_upd b (set_b_blockno blockno) ;;;
      buf_upd b (set_b_flags 0) ;;;
      buf_upd b (set_b_refcnt 1) ;;;
      wrelease Lbcache ;;;
      acquiresleep (SLbuf b) ;;;
      ret b
    | None => panic "bget: no buffers"
    end
  end.

Section bio.
Context `{BlockDev}.

Definition bread (dev blockno : Z) : M W nat :=
  let* b := bget dev blockno in
  let* x := buf_get b in
  when (negb (has (b_flags x) B_VALID)) (iderw b) ;;;
  ret b.

Definition bwrite (b : nat) : M W unit :=
  let* h := holdingsleep (SLbuf b) in
  if negb h then panic "bwrite" else
  buf_upd b (fun x => set_b_flags (Z.lor (b_flags x) B_DIRTY) x) ;;;
  iderw b.
End bio.

Definition brelse (b : nat) : M W unit :=
  let* h := holdingsleep (SLbuf b) in
  if negb h then panic "brelse" else
  releasesleep (SLbuf b) ;;;
  wacquire Lbcache ;;;
  buf_upd b (fun x => set_b_refcnt (u32 (b_refcnt x - 1)) x) ;;;
  let* x := buf_get b in
  when (b_refcnt x =? 0)
    (buf_upd (b_next x) (set_b_prev (b_prev x)) ;;;
     (let* x := buf_get b in buf_upd (b_prev x) (set_b_next (b_next x))) ;;;
     push_front b) ;;;
  wrelease Lbcache.
