(* ===== verification/Log.v ===== *)
(** * The log (log.c)

    A loop body that calls the buffer cache is a definition of its own. *)
From S2P Require Import Prelude Machine ProcQueue StringC Spinlock Kalloc Vm VmFrame Proc RunQueue ProcRun Sched UserMem Trap FsState Sleeplock Disk Bio.

Section log.
Context `{BlockDev}.

(** fs.c: the seven words of the super block at the start of block 1. *)
Definition readsb (dev : Z) : M W superblock :=
  let* b := bread dev 1 in
  let* x := buf_get b in
  let w i := load32 (b_data x) (4 * i) in
  let sb := mkSb (w 0) (w 1) (w 2) (w 3) (w 4) (w 5) (w 6) in
  brelse b ;;;
  ret sb.

(** One turn of the loop of install_trans. *)
Definition install_block (tail : Z) : M W unit :=
  let* lg := log_get in
  let* lbuf := bread (lg_dev lg) (u32 (lg_start lg + tail + 1)) in
  let* lg := log_get in
  let* dbuf := bread (lg_dev lg) (u32 (lg_block lg tail)) in
  let* l := buf_get lbuf in
  buf_upd dbuf (set_b_data (b_data l)) ;;;
  bwrite dbuf ;;;
  brelse lbuf ;;;
  brelse dbuf.

Definition install_trans : M W unit :=
  let* lg := log_get in
  foreach (seqZ 0 (lg_n lg)) install_block.

(** log.lh.block has LOGSIZE elements. *)
Definition read_head : M W unit :=
  let* lg := log_get in
  let* b := bread (lg_dev lg) (u32 (lg_start lg)) in
  let* x := buf_get b in
  log_upd (set_lg_n (s32 (load32 (b_data x) 0))) ;;;
  let* lg := log_get in
  foreach (seqZ 0 (lg_n lg)) (fun i =>
    if i <? LOGSIZE then
      log_upd (fun l => set_lg_block (upd (lg_block l) i (s32 (load32 (b_data x) (4 + 4 * i)))) l)
    else fault) ;;;
  brelse b.

Definition write_head : M W unit :=
  let* lg := log_get in
  let* b := bread (lg_dev lg) (u32 (lg_start lg)) in
  let* lg := log_get in
  buf_upd b (fun x => set_b_data (store32 (b_data x) 0 (lg_n lg)) x) ;;;
  foreach (seqZ 0 (lg_n lg)) (fun i =>
    buf_upd b (fun x => set_b_data (store32 (b_data x) (4 + 4 * i) (lg_block lg i)) x)) ;;;
  bwrite b ;;;
  brelse b.

Definition recover_from_log : M W unit :=
  read_head ;;;
  install_trans ;;;
  log_upd (set_lg_n 0) ;;;
  write_head.

(** sizeof(struct logheader) is 4 + 4 * LOGSIZE. *)
Definition initlog (dev : Z) : M W unit :=
  if 4 + 4 * LOGSIZE >=? BSIZE then panic "initlog: too big logheader" else
  onk (on_cpu (initlock Llog)) ;;;
  let* sb := readsb dev in
  log_upd (set_lg_start (s32 (sb_logstart sb))) ;;;
  log_upd (set_lg_size (s32 (sb_nlog sb))) ;;;
  log_upd (set_lg_dev dev) ;;;
  recover_from_log.

(** With log.lock held. *)
Definition begin_op_locked : M W unit :=
  let* lg := log_get in
  if lg_committing lg then
    onk (sleep (Some ChLog) (Some Llog)) ;;;
    out_of_fuel (* goes on in begin_op_resume *)
  else if lg_n lg + (lg_outstanding lg + 1) * MAXOPBLOCKS >? LOGSIZE then
    onk (sleep (Some ChLog) (Some Llog)) ;;;
    out_of_fuel (* goes on in begin_op_resume *)
  else
    log_upd (fun l => set_lg_outstanding (lg_outstanding l + 1) l) ;;;
    wrelease Llog.

Definition begin_op : M W unit :=
  wacquire Llog ;;;
  begin_op_locked.

Definition begin_op_resume (pr : nat) (intena : bool) : M W unit :=
  onk (sleep_resume pr Llog intena) ;;;
  begin_op_locked.

(** One turn of the loop of write_log. *)
Definition log_block (tail : Z) : M W unit :=
  let* lg := log_get in
  let* to := bread (lg_dev lg) (u32 (lg_start lg + tail + 1)) in
  let* lg := log_get in
  let* from := bread (lg_dev lg) (u32 (lg_block lg tail)) in
  let* f := buf_get from in
  buf_upd to (set_b_data (b_data f)) ;;;
  bwrite to ;;;
  brelse from ;;;
  brelse to.

Definition write_log : M W unit :=
  let* lg := log_get in
  foreach (seqZ 0 (lg_n lg)) log_block.

Definition commit : M W unit :=
  let* lg := log_get in
  when (lg_n lg >? 0)
    (write_log ;;;
     write_head ;;;
     install_trans ;;;
     log_upd (set_lg_n 0) ;;;
     write_head).

Definition end_op : M W unit :=
  wacquire Llog ;;;
  log_upd (fun l => set_lg_outstanding (lg_outstanding l - 1) l) ;;;
  let* lg := log_get in
  if lg_committing lg then panic "log.committing" else
  let* do_commit :=
    (if lg_outstanding lg =? 0 then log_upd (set_lg_committing true) ;;; ret true
     else onk (wakeup (Some ChLog)) ;;; ret false) in
  wrelease Llog ;;;
  when do_commit
    (commit ;;;
     wacquire Llog ;;;
     log_upd (set_lg_committing false) ;;;
     onk (wakeup (Some ChLog)) ;;;
     wrelease Llog).

(** The index of [blockno] among the first n of log.lh.block, or n. *)
Definition log_slot (lg : logst) (blockno : Z) : Z :=
  match find_first (fun i => u32 (lg_block lg i) =? blockno) (seqZ 0 (lg_n lg)) with
  | Some i => i
  | None => Z.max 0 (lg_n lg)
  end.

Definition log_write (b : nat) : M W unit :=
  let* lg := log_get in
  if (lg_n lg >=? LOGSIZE) || (lg_n lg >=? lg_size lg - 1) then panic "too big a transaction" else
  if lg_outstanding lg <? 1 then panic "log_write outside of trans" else
  wacquire Llog ;;;
  let* lg := log_get in
  let* x := buf_get b in
  let i := log_slot lg (b_blockno x) in
  log_upd (fun l => set_lg_block (upd (lg_block l) i (s32 (b_blockno x))) l) ;;;
  (if i =? lg_n lg then log_upd (fun l => set_lg_n (lg_n l + 1) l) else ret tt) ;;;
  buf_upd b (fun x => set_b_flags (Z.lor (b_flags x) B_DIRTY) x) ;;;
  wrelease Llog.
End log.
