(* ===== verification/Fs.v ===== *)
(** * Blocks, inodes, directories and paths (fs.c)

    Copies between a file and memory are parameters: [put] stores bytes at the
    destination and returns where the next ones go, [fetch] takes bytes from the
    source.  The instances are user memory, kernel memory and the bytes of a local
    variable.  Paths and names are lists of bytes without the NUL. *)
From S2P Require Import Prelude Machine ProcQueue StringC Spinlock Kalloc Vm VmFrame Proc RunQueue ProcRun Sched UserMem Trap FsState Sleeplock Disk Bio Log.

(** The device functions devsw[] (console.c fills in entry CONSOLE). *)
Class DevSw := {
  devsw_read : Z -> option (forall A, (A -> list Z -> M W A) -> A -> nat -> Z -> M W (Z * A));
  devsw_write : Z -> option (forall A, (A -> Z -> M W (list Z * A)) -> A -> nat -> Z -> M W (Z * A));
}.

Definition IPB : Z := BSIZE / 64.
Definition IBLOCK (i : Z) (sb : superblock) : Z := u32 (i / IPB + sb_inodestart sb).
Definition BPB : Z := BSIZE * 8.
Definition BBLOCK (b : Z) (sb : superblock) : Z := u32 (b / BPB + sb_bmapstart sb).

(** struct dinode: the fields at offset [o] of a block. *)
Record dinode := mkDinode {
  di_type : Z; di_major : Z; di_minor : Z; di_nlink : Z; di_size : Z; di_addrs : Z -> Z;
}.
Definition load_dinode (d : block) (o : Z) : dinode :=
  mkDinode (s16 (load16 d o)) (s16 (load16 d (o + 2))) (s16 (load16 d (o + 4))) (s16 (load16 d (o + 6)))
    (load32 d (o + 8)) (fun i => load32 d (o + 12 + 4 * i)).
(** The array addrs has NDIRECT + 1 elements. *)
Definition store_addrs (d : block) (o : Z) (addrs : Z -> Z) : block :=
  foldr (fun i d => store32 d (o + 4 * i) (addrs i)) d (seqZ 0 (NDIRECT + 1)).
Definition store_dinode (d : block) (o : Z) (i : dinode) : block :=
  store_addrs (store32 (store16 (store16 (store16 (store16 d o (di_type i)) (o + 2) (di_major i)) (o + 4) (di_minor i))
    (o + 6) (di_nlink i)) (o + 8) (di_size i)) (o + 12) (di_addrs i).

Section fs.
Context `{Symbols} `{BlockDev} `{DevSw}.

(** ** Blocks *)

Definition bzero (dev bno : Z) : M W unit :=
  let* b := bread dev (u32 bno) in
  buf_upd b (set_b_data (fun _ => 0)) ;;;
  log_write b ;;;
  brelse b.

(** The bit of block [bi] of a bitmap block. *)
Definition bit_mask (bi : Z) : Z := Z.shiftl 1 (bi mod 8).
Definition bit_free (d : block) (bi : Z) : bool := Z.land (u8 (d (bi / 8))) (bit_mask bi) =? 0.
Definition set_bit (d : block) (bi : Z) : block := upd d (bi / 8) (u8 (Z.lor (d (bi / 8)) (bit_mask bi))).
Definition clear_bit (d : block) (bi : Z) : block :=
  upd d (bi / 8) (u8 (Z.land (d (bi / 8)) (Z.lnot (bit_mask bi)))).

(** The first blocks of the bitmap blocks: 0, BPB, 2 * BPB, ... below size. *)
Definition bitmap_starts (size : Z) : list Z := (fun i => i * BPB) <$> seqZ 0 ((size + BPB - 1) / BPB).

Definition balloc (dev : Z) : M W Z :=
  let* sb := sb_get in
  let* r := for_some (bitmap_starts (sb_size sb)) (fun b =>
    let* bp := bread dev (BBLOCK b sb) in
    let* x := buf_get bp in
    match find_first (bit_free (b_data x)) (seqZ 0 (Z.min BPB (sb_size sb - b))) with
    | Some bi =>
      buf_upd bp (fun x => set_b_data (set_bit (b_data x) bi) x) ;;;
      log_write bp ;;;
      brelse bp ;;;
      bzero dev (b + bi) ;;;
      ret (Some (b + bi))
    | None => brelse bp ;;; ret None
    end) in
  match r with Some b => ret b | None => panic "balloc: out of blocks" end.

Definition bfree (dev b : Z) : M W unit :=
  let* sb := readsb dev in
  onl (modify (set_l_sb sb)) ;;;
  let* bp := bread dev (BBLOCK b sb) in
  let bi := b mod BPB in
  let* x := buf_get bp in
  if bit_free (b_data x) bi then panic "freeing free block" else
  buf_upd bp (fun x => set_b_data (clear_bit (b_data x) bi) x) ;;;
  log_write bp ;;;
  brelse bp.

(** ** Inodes *)

Definition inodes : list nat := seq 0 NINODE.
#[global] Arguments inodes : simpl never.

(** console output is not modelled *)
Definition iinit (dev : Z) : M W unit :=
  onk (on_cpu (initlock Licache)) ;;;
  foreach inodes (fun i => initsleeplock (SLinode i)) ;;;
  let* sb := readsb dev in
  onl (modify (set_l_sb sb)).

Definition iget (dev inum : Z) : M W nat :=
  wacquire Licache ;;;
  let* l := onl get in
  match find_first (fun i => (i_ref (l_inode l i) >? 0) && (i_dev (l_inode l i) =? dev) &&
                             (i_inum (l_inode l i) =? inum)) inodes with
  | Some ip =>
    ino_upd ip (fun x => set_i_ref (s32 (i_ref x + 1)) x) ;;;
    wrelease Licache ;;;
    ret ip
  | None =>
    match find_first (fun i => i_ref (l_inode l i) =? 0) inodes with
    | None => panic "iget: no inodes"
    | Some ip =>
      ino_upd ip (set_i_dev dev) ;;;
      ino_upd ip (set_i_inum inum) ;;;
      ino_upd ip (set_i_ref 1) ;;;
      ino_upd ip (set_i_valid false) ;;;
      wrelease Licache ;;;
      ret ip
    end
  end.

Definition ialloc (dev type : Z) : M W nat :=
  let* sb := sb_get in
  let* r := for_some (seqZ 1 (sb_ninodes sb - 1)) (fun inum =>
    let* bp := bread dev (IBLOCK inum sb) in
    let* x := buf_get bp in
    let o := 64 * (inum mod IPB) in
    if di_type (load_dinode (b_data x) o) =? 0 then
      buf_upd bp (fun x => set_b_data (store16 (memset o 0 64 (b_data x)) o type) x) ;;;
      log_write bp ;;;
      brelse bp ;;;
      let* ip := iget dev inum in
      ret (Some ip)
    else brelse bp ;;; ret None) in
  match r with Some ip => ret ip | None => panic "ialloc: no inodes" end.

Definition iupdate (ip : nat) : M W unit :=
  let* i := ino_get ip in
  let* sb := sb_get in
  let* bp := bread (i_dev i) (IBLOCK (i_inum i) sb) in
  let* i := ino_get ip in
  let o := 64 * (i_inum i mod IPB) in
  buf_upd bp (fun x => set_b_data
    (store_dinode (b_data x) o (mkDinode (i_type i) (i_major i) (i_minor i) (i_nlink i) (i_size i) (i_addrs i))) x) ;;;
  log_write bp ;;;
  brelse bp.

Definition idup (ip : nat) : M W nat :=
  wacquire Licache ;;;
  ino_upd ip (fun x => set_i_ref (s32 (i_ref x + 1)) x) ;;;
  wrelease Licache ;;;
  ret ip.

Definition ilock (ip : option nat) : M W unit :=
  match ip with
  | None => panic "ilock"
  | Some ip =>
    let* i := ino_get ip in
    if i_ref i <? 1 then panic "ilock" else
    acquiresleep (SLinode ip) ;;;
    let* i := ino_get ip in
    when (negb (i_valid i))
      (let* sb := sb_get in
       let* bp := bread (i_dev i) (IBLOCK (i_inum i) sb) in
       let* x := buf_get bp in
       let d := load_dinode (b_data x) (64 * (i_inum i mod IPB)) in
       ino_upd ip (set_i_type (di_type d)) ;;;
       ino_upd ip (set_i_major (di_major d)) ;;;
       ino_upd ip (set_i_minor (di_minor d)) ;;;
       ino_upd ip (set_i_nlink (di_nlink d)) ;;;
       ino_upd ip (set_i_size (di_size d)) ;;;
       ino_upd ip (set_i_addrs (di_addrs d)) ;;;
       brelse bp ;;;
       ino_upd ip (set_i_valid true) ;;;
       let* i := ino_get ip in
       if i_type i =? 0 then panic "ilock: no type" else ret tt)
  end.

Definition iunlock (ip : option nat) : M W unit :=
  match ip with
  | None => panic "iunlock"
  | Some ip =>
    let* h := holdingsleep (SLinode ip) in
    if negb h then panic "iunlock" else
    let* i := ino_get ip in
    if i_ref i <? 1 then panic "iunlock" else
    releasesleep (SLinode ip)
  end.

(** ** Contents of inodes *)

Definition bmap (ip : nat) (bn : Z) : M W Z :=
  let* i := ino_get ip in
  if bn <? NDIRECT then
    if i_addrs i bn =? 0 then
      let* addr := balloc (i_dev i) in
      ino_upd ip (fun i => set_i_addrs (upd (i_addrs i) bn addr) i) ;;;
      ret addr
    else ret (i_addrs i bn)
  else
  let bn := bn - NDIRECT in
  if bn <? NINDIRECT then
    let* addr :=
      (if i_addrs i NDIRECT =? 0 then
         let* addr := balloc (i_dev i) in
         ino_upd ip (fun i => set_i_addrs (upd (i_addrs i) NDIRECT addr) i) ;;;
         ret addr
       else ret (i_addrs i NDIRECT)) in
    let* bp := bread (i_dev i) addr in
    let* x := buf_get bp in
    let a := load32 (b_data x) (4 * bn) in
    if a =? 0 then
      let* addr := balloc (i_dev i) in
      buf_upd bp (fun x => set_b_data (store32 (b_data x) (4 * bn) addr) x) ;;;
      log_write bp ;;;
      brelse bp ;;;
      ret addr
    else brelse bp ;;; ret a
  else panic "bmap: out of range".

Definition itrunc (ip : nat) : M W unit :=
  foreach (seqZ 0 NDIRECT) (fun j =>
    let* i := ino_get ip in
    when (negb (i_addrs i j =? 0))
      (bfree (i_dev i) (i_addrs i j) ;;;
       ino_upd ip (fun i => set_i_addrs (upd (i_addrs i) j 0) i))) ;;;
  let* i := ino_get ip in
  when (negb (i_addrs i NDIRECT =? 0))
    (let* bp := bread (i_dev i) (i_addrs i NDIRECT) in
     foreach (seqZ 0 NINDIRECT) (fun j =>
       let* x := buf_get bp in
       let a := load32 (b_data x) (4 * j) in
       when (negb (a =? 0)) (bfree (i_dev i) a)) ;;;
     brelse bp ;;;
     bfree (i_dev i) (i_addrs i NDIRECT) ;;;
     ino_upd ip (fun i => set_i_addrs (upd (i_addrs i) NDIRECT 0) i)) ;;;
  ino_upd ip (set_i_size 0) ;;;
  iupdate ip.

(** [ip] is dereferenced: NULL faults. *)
Definition iput (ip : option nat) : M W unit :=
  match ip with
  | None => fault
  | Some ip =>
    acquiresleep (SLinode ip) ;;;
    let* i := ino_get ip in
    when (i_valid i && (i_nlink i =? 0))
      (wacquire Licache ;;;
       let* i := ino_get ip in
       let r := i_ref i in
       wrelease Licache ;;;
       when (r =? 1)
         (itrunc ip ;;;
          ino_upd ip (set_i_type 0) ;;;
          iupdate ip ;;;
          ino_upd ip (set_i_valid false))) ;;;
    releasesleep (SLinode ip) ;;;
    wacquire Licache ;;;
    ino_upd ip (fun x => set_i_ref (s32 (i_ref x - 1)) x) ;;;
    wrelease Licache
  end.

Definition iunlockput (ip : option nat) : M W unit :=
  iunlock ip ;;;
  iput ip.

(** The fields of the struct stat at user address [st]: type at 0, dev at 4, ino at
    8, nlink at 12 and size at 16. *)
Definition ustore16 (a v : Z) : M kst unit :=
  ustore8 a (u8 v) ;;; ustore8 (u32 (a + 1)) (u8 (Z.shiftr v 8)).
Definition stati (ip : nat) (st : Z) : M W unit :=
  let* i := ino_get ip in
  onk (ustore32 (u32 (st + 4)) (i_dev i)) ;;;
  onk (ustore32 (u32 (st + 8)) (i_inum i)) ;;;
  onk (ustore16 st (i_type i)) ;;;
  onk (ustore16 (u32 (st + 12)) (i_nlink i)) ;;;
  onk (ustore32 (u32 (st + 16)) (i_size i)).

Section copy.
Context {A : Type}.

(** The loop of readi; every turn but the last reaches the end of a block, so
    n / BSIZE + 2 turns are enough, and one more for the last test. *)
Fixpoint readi_loop (fuel : nat) (put : A -> list Z -> M W A) (dst : A) (ip : nat) (off n tot : Z) : M W A :=
  match fuel with
  | O => out_of_fuel
  | S f =>
    if tot <? n then
      let* i := ino_get ip in
      let* addr := bmap ip (off / BSIZE) in
      let* bp := bread (i_dev i) addr in
      let m := Z.min (n - tot) (BSIZE - off mod BSIZE) in
      let* x := buf_get bp in
      let* dst := put dst (bytes_at (b_data x) (off mod BSIZE) m) in
      brelse bp ;;;
      readi_loop f put dst ip (off + m) n (tot + m)
    else ret dst
  end.

Definition readi (put : A -> list Z -> M W A) (dst : A) (ip : nat) (off n : Z) : M W (Z * A) :=
  let* i := ino_get ip in
  if i_type i =? T_DEV then
    if (i_major i <? 0) || (i_major i >=? NDEV) then ret (-1, dst) else
    match devsw_read (i_major i) with
    | None => ret (-1, dst)
    | Some rd => rd A put dst ip (s32 n)
    end
  else
  if (off >? i_size i) || (u32 (off + n) <? off) then ret (-1, dst) else
  let n := if u32 (off + n) >? i_size i then u32 (i_size i - off) else n in
  let* dst := readi_loop (Z.to_nat (n / BSIZE) + 3) put dst ip off n 0 in
  ret (s32 n, dst).

Fixpoint writei_loop (fuel : nat) (fetch : A -> Z -> M W (list Z * A)) (src : A) (ip : nat) (off n tot : Z) :
    M W (Z * A) :=
  match fuel with
  | O => out_of_fuel
  | S f =>
    if tot <? n then
      let* i := ino_get ip in
      let* addr := bmap ip (off / BSIZE) in
      let* bp := bread (i_dev i) addr in
      let m := Z.min (n - tot) (BSIZE - off mod BSIZE) in
      let* r := fetch src m in
      buf_upd bp (fun x => set_b_data (blit (b_data x) (off mod BSIZE) r.1) x) ;;;
      log_write bp ;;;
      brelse bp ;;;
      writei_loop f fetch r.2 ip (off + m) n (tot + m)
    else ret (off, src)
  end.

Definition writei (fetch : A -> Z -> M W (list Z * A)) (src : A) (ip : nat) (off n : Z) : M W (Z * A) :=
  let* i := ino_get ip in
  if i_type i =? T_DEV then
    if (i_major i <? 0) || (i_major i >=? NDEV) then ret (-1, src) else
    match devsw_write (i_major i) with
    | None => ret (-1, src)
    | Some wr => wr A fetch src ip (s32 n)
    end
  else
  if (off >? i_size i) || (u32 (off + n) <? off) then ret (-1, src) else
  if u32 (off + n) >? MAXFILE * BSIZE then ret (-1, src) else
  let* r := writei_loop (Z.to_nat (n / BSIZE) + 3) fetch src ip off n 0 in
  let* i := ino_get ip in
  when ((n >? 0) && (r.1 >? i_size i))
    (ino_upd ip (set_i_size r.1) ;;;
     iupdate ip) ;;;
  ret (s32 n, r.2).
End copy.

(** A local variable: the bytes read so far, the bytes left to write. *)
Definition put_local (acc bs : list Z) : M W (list Z) := ret (acc ++ bs).
Definition fetch_local (src : list Z) (m : Z) : M W (list Z * list Z) :=
  ret (take (Z.to_nat m) src, drop (Z.to_nat m) src).

(** ** Directories *)

(** The two names as arrays at addresses 0 and 64. *)
Definition two_arrays (s t : list Z) : mem := fun a =>
  if a <? 64 then nth (Z.to_nat a) s 0 else nth (Z.to_nat (a - 64)) t 0.
Definition namecmp (s t : list Z) : Z := strncmp (two_arrays s t) 0 64 DIRSIZ.

(** struct dirent in its 16 bytes: inum and name. *)
Definition de_inum (de : list Z) : Z := le_value (take 2 de).
Definition de_name (de : list Z) : list Z := drop 2 de.

(** The offsets of the entries of a directory of [size] bytes: 0, 16, 32, ... *)
Definition dir_offsets (from size : Z) : list Z := (fun i => from + i * 16) <$> seqZ 0 ((size - from + 15) / 16).

(** The inode and the offset of its entry. *)
Definition dirlookup (dp : nat) (name : list Z) : M W (option (nat * Z)) :=
  let* d := ino_get dp in
  if negb (i_type d =? T_DIR) then panic "dirlookup not DIR" else
  for_some (dir_offsets 0 (i_size d)) (fun off =>
    let* r := readi put_local [] dp off 16 in
    if negb (r.1 =? 16) then panic "dirlookup read" else
    if de_inum r.2 =? 0 then ret None else
    if namecmp name (de_name r.2) =? 0 then
      let* ip := iget (i_dev d) (de_inum r.2) in
      ret (Some (ip, off))
    else ret None).

(** The 16 bytes of an entry; strncpy pads the name with zeros. *)
Definition dirent_bytes (name : list Z) (inum : Z) : list Z :=
  [u8 inum; u8 (inum / 256)] ++ bytes_at (strncpy 64 0 DIRSIZ (two_arrays name [])) 64 DIRSIZ.

Definition dirlink (dp : nat) (name : list Z) (inum : Z) : M W Z :=
  let* r := dirlookup dp name in
  match r with
  | Some (ip, _) => iput (Some ip) ;;; ret (-1)
  | None =>
    let* d := ino_get dp in
    let* free := for_some (dir_offsets 0 (i_size d)) (fun off =>
      let* r := readi put_local [] dp off 16 in
      if negb (r.1 =? 16) then panic "dirlink read" else
      if de_inum r.2 =? 0 then ret (Some off) else ret None) in
    let off := match free with
               | Some off => off
               | None => 16 * ((i_size d + 15) / 16)
               end in
    let* r := writei fetch_local (dirent_bytes name inum) dp off 16 in
    if negb (r.1 =? 16) then panic "dirlink" else ret 0
  end.

(** ** Paths *)

Definition slash : Z := 47.

(** The path after its leading slashes. *)
Fixpoint skip_slashes (path : list Z) : list Z :=
  match path with c :: p => if c =? slash then skip_slashes p else path | [] => [] end.
(** The characters up to the next slash, and the rest. *)
Fixpoint take_elem (path : list Z) : list Z * list Z :=
  match path with
  | c :: p => if c =? slash then ([], path) else let r := take_elem p in (c :: r.1, r.2)
  | [] => ([], [])
  end.

(** The rest of the path and the new contents of the array [name] of DIRSIZ bytes. *)
Definition skipelem (path name : list Z) : option (list Z * list Z) :=
  match skip_slashes path with
  | [] => None
  | s =>
    let r := take_elem s in
    let len := length r.1 in
    let name' := if (Z.of_nat len >=? DIRSIZ) then take (Z.to_nat DIRSIZ) r.1
                 else r.1 ++ 0 :: drop (S len) name in
    Some (skip_slashes r.2, name')
  end.

(** The loop of namex; each turn removes a character of the path. *)
Fixpoint namex_loop (fuel : nat) (ip : nat) (path : list Z) (nameiparent : bool) (name : list Z) :
    M W (option (nat * list Z)) :=
  match fuel with
  | O => out_of_fuel
  | S f =>
    match skipelem path name with
    | None =>
      if nameiparent then iput (Some ip) ;;; ret None else ret (Some (ip, name))
    | Some (path, name) =>
      ilock (Some ip) ;;;
      let* i := ino_get ip in
      if negb (i_type i =? T_DIR) then iunlockput (Some ip) ;;; ret None else
      if nameiparent && bool_decide (path = []) then iunlock (Some ip) ;;; ret (Some (ip, name)) else
      let* next := dirlookup ip name in
      match next with
      | None => iunlockput (Some ip) ;;; ret None
      | Some (next, _) =>
        iunlockput (Some ip) ;;;
        namex_loop f next path nameiparent name
      end
    end
  end.

(** The array before its first use. *)
Definition name0 : list Z := replicate (Z.to_nat DIRSIZ) 0.

Definition namex (path : list Z) (nameiparent : bool) : M W (option (nat * list Z)) :=
  let* ip :=
    (if bool_decide (head path = Some slash) then iget ROOTDEV ROOTINO
     else let* cwd := onk (cur_field p_cwd) in
          match cwd with Some ip => idup ip | None => fault end) in
  namex_loop (S (length path)) ip path nameiparent name0.

Definition namei (path : list Z) : M W (option nat) :=
  let* r := namex path false in ret (fst <$> r).
Definition nameiparent (path : list Z) : M W (option (nat * list Z)) := namex path true.
End fs.
