(* ===== verification/Dinode.v ===== *)
(** * The bytes of an inode

    A struct dinode in its block: loading what was stored gives the same values, and the rest
    of the block stays.  The kernel and mkfs share this layout. *)
From S2P Require Import Prelude Machine Disk Fs.

Lemma load16_store16_eq m a v : load16 (store16 m a v) a = u16 v.
Proof.
  unfold load16, store16. rewrite !decide_True by lia. unfold u8, u16. rewrite !Z.shiftr_div_pow2, !Z.mod_mod by lia.
  replace (8 * (a - a)) with 0 by lia. replace (8 * (a + 1 - a)) with 8 by lia. rewrite Z.div_1_r.
  change (2 ^ 16) with (256 * 256). rewrite Z.rem_mul_r by lia. change (2 ^ 8) with 256. lia.
Qed.

Lemma load16_ext m m' a : m a = m' a -> m (a + 1) = m' (a + 1) -> load16 m a = load16 m' a.
Proof. unfold load16. by intros -> ->. Qed.

Lemma s16_u16 z : - 2 ^ 15 <= z < 2 ^ 15 -> s16 (u16 z) = z.
Proof. intros Hz. unfold s16, u16. rewrite Zplus_mod_idemp_l, Z.mod_small; lia. Qed.

(** Equal values of a struct dinode. *)
Definition deq (a b : dinode) : Prop :=
  di_type a = di_type b /\ di_major a = di_major b /\ di_minor a = di_minor b /\ di_nlink a = di_nlink b /\
  di_size a = di_size b /\ forall k, 0 <= k <= NDIRECT -> di_addrs a k = di_addrs b k.

#[global] Instance deq_equiv : Equivalence deq.
Proof.
  split.
  - intros a. by split_and!.
  - intros a b (? & ? & ? & ? & ? & Ha). split_and!; try done. intros k Hk. by rewrite Ha.
  - intros a b c (? & ? & ? & ? & ? & Ha) (? & ? & ? & ? & ? & Hb). split_and!; try congruence. intros k Hk. by rewrite Ha, Hb.
Qed.

Lemma store_addrs_bytes d o addrs l b : (b < o \/ o + 4 * (NDIRECT + 1) <= b) -> Forall (fun i => 0 <= i <= NDIRECT) l ->
  foldr (fun i d => store32 d (o + 4 * i) (addrs i)) d l b = d b.
Proof. intros Hb. induction 1 as [|i l Hi _ IH]; [done|]. simpl. rewrite store32_ne by lia. done. Qed.

Lemma load_store_addrs d o addrs l k : k ∈ l -> load32 (foldr (fun i d => store32 d (o + 4 * i) (addrs i)) d l) (o + 4 * k) = u32 (addrs k).
Proof.
  induction l as [|i l IH]; [by intros ?%elem_of_nil|]. intros Hk. simpl. destruct (decide (i = k)) as [->|Hne].
  - apply load32_store32_eq.
  - rewrite load32_store32_ne by lia. apply IH. set_solver.
Qed.

Lemma addrs_indices : Forall (fun i => 0 <= i <= NDIRECT) (seqZ 0 (NDIRECT + 1)).
Proof. apply Forall_seqZ. intros i Hi. lia. Qed.

Lemma store_dinode_outside d o i b : b < o \/ o + 64 <= b -> store_dinode d o i b = d b.
Proof.
  intros Hb. unfold store_dinode, store_addrs. rewrite store_addrs_bytes by (try apply addrs_indices; unfold NDIRECT; lia).
  rewrite store32_ne by lia. unfold store16. by rewrite !decide_False by lia.
Qed.

Lemma load_dinode_ext d d' o : (forall b, o <= b < o + 64 -> d b = d' b) -> deq (load_dinode d o) (load_dinode d' o).
Proof.
  intros Hd. unfold load_dinode, deq. simpl.
  assert (forall a, o <= a -> a + 2 <= o + 64 -> load16 d a = load16 d' a) as H16 by (intros; apply load16_ext; apply Hd; lia).
  assert (forall a, o <= a -> a + 4 <= o + 64 -> load32 d a = load32 d' a) as H32 by (intros; apply load32_ext; intros; apply Hd; lia).
  rewrite !H16, !H32 by lia. split_and!; try done. intros k Hk. unfold NDIRECT in Hk. apply H32; lia.
Qed.

Definition din_range (i : dinode) : Prop :=
  - 2 ^ 15 <= di_type i < 2 ^ 15 /\ - 2 ^ 15 <= di_major i < 2 ^ 15 /\ - 2 ^ 15 <= di_minor i < 2 ^ 15 /\
  - 2 ^ 15 <= di_nlink i < 2 ^ 15 /\ 0 <= di_size i < 2 ^ 32 /\ forall k, 0 <= k <= NDIRECT -> 0 <= di_addrs i k < 2 ^ 32.

Lemma load_store_dinode d o i : din_range i -> deq (load_dinode (store_dinode d o i) o) i.
Proof.
  intros (H1 & H2 & H3 & H4 & H5 & H6). unfold store_dinode. set (d5 := store32 _ (o + 8) _).
  assert (forall b, b < o + 12 -> store_addrs d5 (o + 12) (di_addrs i) b = d5 b) as Hlow.
  { intros b Hb. apply store_addrs_bytes; [lia|apply addrs_indices]. }
  unfold load_dinode, deq. simpl.
  assert (forall a, a + 2 <= o + 12 -> load16 (store_addrs d5 (o + 12) (di_addrs i)) a = load16 d5 a) as H16
    by (intros; apply load16_ext; apply Hlow; lia).
  rewrite !H16 by lia. rewrite (load32_ext _ d5) by (intros; apply Hlow; lia). unfold d5. rewrite load32_store32_eq, u32_small by done.
  assert (forall m v a, a + 2 <= o + 8 -> load16 (store32 m (o + 8) v) a = load16 m a) as H32
    by (intros; apply load16_ext; apply store32_ne; lia).
  rewrite !H32 by lia.
  assert (forall m b v a, a + 2 <= b \/ b + 2 <= a -> load16 (store16 m b v) a = load16 m a) as Hne
    by (intros; apply load16_ext; unfold store16; by rewrite decide_False by lia).
  split_and!; try (rewrite ?Hne by lia; by rewrite load16_store16_eq, s16_u16 by done); [done|]. intros k Hk. unfold store_addrs.
  rewrite load_store_addrs by (apply elem_of_seqZ; unfold NDIRECT in *; lia). by rewrite u32_small by auto.
Qed.
