(* ===== verification/File.v ===== *)
(** * Open files (file.c)

    A [struct file *] is an index of ftable.file. *)
From S2P Require Import Prelude Machine ProcQueue StringC Spinlock Kalloc Vm VmFrame Proc RunQueue ProcRun Sched UserMem Trap FsState Pipe Sleeplock Disk Bio Log Fs.

Section file.
Context `{Symbols} `{BlockDev} `{DevSw}.

Definition files : list nat := seq 0 NFILE.
#[global] Arguments files : simpl never.

Definition fileinit : M W unit := onk (on_cpu (initlock Lftable)).

Definition filealloc : M W (option nat) :=
  wacquire Lftable ;;;
  let* s := onf get in
  match find_first (fun f => f_ref (fs_file s f) =? 0) files with
  | Some f =>
    file_upd f (set_f_ref 1) ;;;
    wrelease Lftable ;;;
    ret (Some f)
  | None => wrelease Lftable ;;; ret None
  end.

Definition filedup (f : nat) : M W nat :=
  wacquire Lftable ;;;
  let* x := file_get f in
  if f_ref x <? 1 then panic "filedup" else
  file_upd f (fun x => set_f_ref (s32 (f_ref x + 1)) x) ;;;
  wrelease Lftable ;;;
  ret f.

(** The part of fileclose under the lock: the contents of an entry whose last
    reference went away. *)
Definition fileclose_ref (f : nat) : M W (option file) :=
  wacquire Lftable ;;;
  let* x := file_get f in
  if f_ref x <? 1 then panic "fileclose" else
  file_upd f (fun x => set_f_ref (f_ref x - 1) x) ;;;
  let* x := file_get f in
  if f_ref x >? 0 then wrelease Lftable ;;; ret None else
  file_upd f (set_f_ref 0) ;;;
  file_upd f (set_f_type FD_NONE) ;;;
  wrelease Lftable ;;;
  ret (Some x).

Definition fileclose (f : nat) : M W unit :=
  let* ff := fileclose_ref f in
  match ff with
  | None => ret tt
  | Some ff =>
    match f_type ff with
    | FD_PIPE => pipeclose (f_pipe ff) (f_writable ff)
    | FD_INODE => begin_op ;;; iput (f_ip ff) ;;; end_op
    | FD_NONE => ret tt
    end
  end.

Definition with_ip {A} (ip : option nat) (m : nat -> M W A) : M W A :=
  match ip with Some ip => m ip | None => fault end.

Definition filestat (f : nat) (st : Z) : M W Z :=
  let* x := file_get f in
  match f_type x with
  | FD_INODE =>
    ilock (f_ip x) ;;;
    with_ip (f_ip x) (fun ip => stati ip st) ;;;
    iunlock (f_ip x) ;;;
    ret 0
  | _ => ret (-1)
  end.

(** User memory as destination and as source of a copy. *)
Definition put_user (a : Z) (bs : list Z) : M W Z :=
  onk (ustore_bytes a 0 bs) ;;; ret (u32 (a + Z.of_nat (length bs))).
Definition fetch_user (a m : Z) : M W (list Z * Z) :=
  let* bs := onk (uload_bytes a 0 (Z.to_nat m)) in ret (bs, u32 (a + m)).

Definition fileread (f : nat) (addr n : Z) : M W Z :=
  let* x := file_get f in
  if negb (f_readable x) then ret (-1) else
  match f_type x with
  | FD_PIPE => piperead (user_put addr) (f_pipe x) n
  | FD_INODE =>
    ilock (f_ip x) ;;;
    let* x := file_get f in
    let* r := with_ip (f_ip x) (fun ip => readi put_user addr ip (f_off x) (u32 n)) in
    when (r.1 >? 0) (file_upd f (fun x => set_f_off (u32 (f_off x + r.1)) x)) ;;;
    iunlock (f_ip x) ;;;
    ret r.1
  | FD_NONE => panic "fileread"
  end.

(** The largest write of one transaction. *)
Definition max_write : Z := ((MAXOPBLOCKS - 1 - 1 - 2) / 2) * 512.

(** The loop of filewrite from index [i], which grows by up to [max_write] in
    each turn; the result is the last index. *)
Fixpoint filewrite_loop (fuel : nat) (f : nat) (addr n i : Z) : M W Z :=
  match fuel with
  | O => out_of_fuel
  | S fuel' =>
    if i <? n then
      let n1 := if n - i >? max_write then max_write else n - i in
      begin_op ;;;
      let* x := file_get f in
      ilock (f_ip x) ;;;
      let* x := file_get f in
      let* r := with_ip (f_ip x) (fun ip => writei fetch_user (u32 (addr + i)) ip (f_off x) n1) in
      when (r.1 >? 0) (file_upd f (fun x => set_f_off (u32 (f_off x + r.1)) x)) ;;;
      iunlock (f_ip x) ;;;
      end_op ;;;
      if r.1 <? 0 then ret i else
      if negb (r.1 =? n1) then panic "short filewrite" else
      filewrite_loop fuel' f addr n (i + r.1)
    else ret i
  end.

Definition filewrite (f : nat) (addr n : Z) : M W Z :=
  let* x := file_get f in
  if negb (f_writable x) then ret (-1) else
  match f_type x with
  | FD_PIPE => pipewrite (user_load addr) (f_pipe x) n
  | FD_INODE =>
    let* i := filewrite_loop (Z.to_nat (n / max_write) + 2) f addr n 0 in
    ret (if i =? n then n else -1)
  | FD_NONE => panic "filewrite"
  end.
End file.
