(* ===== verification/Exec.v ===== *)
(** * Replacing the image of a process (exec.c, vm.c: loaduvm)

    The argument strings are given by their bytes.  [goto bad] is the result
    [None] of a part of the function. *)
From S2P Require Import Prelude Machine ProcQueue StringC Spinlock Kalloc Vm VmFrame Proc RunQueue ProcRun Sched UserMem Trap FsState Pipe Sleeplock Disk Bio Log Fs File.

Definition ELF_MAGIC : Z := 0x464C457F.
Definition ELF_PROG_LOAD : Z := 1.

Section exec.
Context `{Symbols} `{BlockDev} `{DevSw} (ts : nat -> Z).

(** Kernel memory as the destination of readi. *)
Definition put_kern (a : Z) (bs : list Z) : M W Z :=
  onk (on_vm (memop (fun m => blit m a bs))) ;;; ret (a + Z.of_nat (length bs)).

(** The loop runs over the pages 0, PGSIZE, ... below [sz]. *)
Definition loaduvm (pgdir addr : Z) (ip : nat) (offset sz : Z) : M W Z :=
  if negb (addr mod PGSIZE =? 0) then panic "loaduvm: addr must be page aligned" else
  let* r := for_some ((fun j => j * PGSIZE) <$> seqZ 0 ((sz + PGSIZE - 1) / PGSIZE)) (fun i =>
    let* pte := onk (on_vm (walkpgdir pgdir (u32 (addr + i)) false)) in
    if pte =? 0 then panic "loaduvm: address should exist" else
    let* e := onk (on_vm (ld pte)) in
    let n := if sz - i <? PGSIZE then sz - i else PGSIZE in
    let* r := readi put_kern (P2V (PTE_ADDR e)) ip (u32 (offset + i)) n in
    if negb (r.1 =? n) then ret (Some (-1)) else ret None) in
  ret (match r with Some v => v | None => 0 end).

(** The bytes of struct elfhdr and of struct proghdr as a memory. *)
Definition fields (bs : list Z) : Z -> Z := fun a => nth (Z.to_nat a) bs 0.

(** One program header; the result is the new size. *)
Definition load_segment (pgdir : Z) (ip : nat) (off sz : Z) : M W (option Z) :=
  let* r := readi put_local [] ip (u32 off) 32 in
  if negb (r.1 =? 32) then ret None else
  let ph := fields r.2 in
  let type := load32 ph 0 in
  let poff := load32 ph 4 in
  let vaddr := load32 ph 8 in
  let filesz := load32 ph 16 in
  let memsz := load32 ph 20 in
  if negb (type =? ELF_PROG_LOAD) || (memsz =? 0) then ret (Some sz) else
  if memsz <? filesz then ret None else
  if u32 (vaddr + memsz) <? vaddr then ret None else
  let* sz := onk (on_vm (allocuvm pgdir sz (u32 (vaddr + memsz)))) in
  if sz =? 0 then ret None else
  if negb (vaddr mod PGSIZE =? 0) then ret None else
  let* r := loaduvm pgdir vaddr ip poff filesz in
  if r <? 0 then ret None else ret (Some sz).

Fixpoint load_segments (phnum : nat) (pgdir : Z) (ip : nat) (off sz : Z) : M W (option Z) :=
  match phnum with
  | O => ret (Some sz)
  | S n =>
    let* r := load_segment pgdir ip off sz in
    match r with
    | None => ret None
    | Some sz => load_segments n pgdir ip (off + 32) sz
    end
  end.

Definition le_bytes (v : Z) : list Z := [u8 v; u8 (Z.shiftr v 8); u8 (Z.shiftr v 16); u8 (Z.shiftr v 24)].

(** The argument strings are pushed; the stack pointer and the addresses of the
    strings.  [argc] counts those already pushed. *)
Fixpoint push_args (pgdir sp argc : Z) (argv : list (list Z)) : M W (option (Z * list Z)) :=
  match argv with
  | [] => ret (Some (sp, []))
  | s :: argv' =>
    if argc >=? MAXARG then ret None else
    let sp := Z.land (u32 (sp - (Z.of_nat (length s) + 1))) (Z.lnot 3) in
    let* r := onk (on_vm (copyout pgdir sp (s ++ [0]))) in
    if r <? 0 then ret None else
    let* r := push_args pgdir sp (argc + 1) argv' in
    match r with
    | None => ret None
    | Some (sp', ps) => ret (Some (sp', sp :: ps))
    end
  end.

(** The user stack above [sz]: arguments, argv[], argc and the return address;
    the size and the stack pointer. *)
Definition build_stack (pgdir sz : Z) (argv : list (list Z)) : M W (option (Z * Z)) :=
  let sz := PGROUNDUP sz in
  let* sz := onk (on_vm (allocuvm pgdir sz (u32 (sz + 2 * PGSIZE)))) in
  if sz =? 0 then ret None else
  onk (on_vm (clearpteu pgdir (sz - 2 * PGSIZE))) ;;;
  let* r := push_args pgdir sz 0 argv in
  match r with
  | None => ret None
  | Some (sp, ps) =>
    let argc := Z.of_nat (length argv) in
    let ustack := [0xffffffff; argc; u32 (sp - (argc + 1) * 4)] ++ ps ++ [0] in
    let sp := u32 (sp - (3 + argc + 1) * 4) in
    let* r := onk (on_vm (copyout pgdir sp (mjoin (le_bytes <$> ustack)))) in
    if r <? 0 then ret None else ret (Some (sz, sp))
  end.

(** The part of a path after its last slash. *)
Fixpoint last_elem (last path : list Z) : list Z :=
  match path with
  | [] => last
  | c :: p => last_elem (if c =? slash then p else last) p
  end.

(** From the check of the header to the loaded segments: the size, the entry
    point and the page directory, which the caller frees on failure. *)
Definition load_image (ip : nat) : M W (Z * option (Z * Z)) :=
  let* r := readi put_local [] ip 0 52 in
  if negb (r.1 =? 52) then ret (0, None) else
  let elf := fields r.2 in
  if negb (load32 elf 0 =? ELF_MAGIC) then ret (0, None) else
  let* pgdir := onk (on_vm setupkvm) in
  if pgdir =? 0 then ret (0, None) else
  let* r := load_segments (Z.to_nat (load16 elf 44)) pgdir ip (load32 elf 28) 0 in
  ret (pgdir, match r with Some sz => Some (sz, load32 elf 24) | None => None end).

Definition exec (path : list Z) (argv : list (list Z)) : M W Z :=
  let* cur := onk myproc in
  nonnull cur (fun p =>
  begin_op ;;;
  let* ip := namei path in
  match ip with
  | None => end_op ;;; ret (-1)
  | Some ip =>
    ilock (Some ip) ;;;
    let* r := load_image ip in
    let pgdir := r.1 in
    match r.2 with
    | None =>
      when (negb (pgdir =? 0)) (onk (on_vm (freevm pgdir true))) ;;;
      iunlockput (Some ip) ;;;
      end_op ;;;
      ret (-1)
    | Some (sz, entry) =>
      iunlockput (Some ip) ;;;
      end_op ;;;
      let* r := build_stack pgdir sz argv in
      match r with
      | None => onk (on_vm (freevm pgdir true)) ;;; ret (-1)
      | Some (sz, sp) =>
        onk (pset p (set_p_name (copy_name (last_elem path path)))) ;;;
        let* pp := onk (pget p) in
        let oldpgdir := p_pgdir pp in
        onk (pset p (set_p_pgdir pgdir)) ;;;
        onk (pset p (set_p_sz sz)) ;;;
        onk (pset p (fun q => set_p_tf (set_tf_eip entry (p_tf q)) q)) ;;;
        onk (pset p (fun q => set_p_tf (set_tf_esp sp (p_tf q)) q)) ;;;
        let* pp := onk (pget p) in
        onk (on_vm (switchuvm ts (Some pp))) ;;;
        onk (on_vm (freevm oldpgdir true)) ;;;
        ret 0
      end
    end
  end).
End exec.
