(* ===== verification/Sysfile.v ===== *)
(** * File system calls (sysfile.c)

    A path argument is checked by argstr and then read from user memory; the
    calls get its bytes. *)
From S2P Require Import Prelude Machine ProcQueue StringC Spinlock Kalloc Vm VmFrame Proc RunQueue ProcRun Sched UserMem Trap FsState Pipe Sleeplock Disk Bio Log Fs File Exec.

Definition O_RDONLY : Z := 0x000.
Definition O_WRONLY : Z := 0x001.
Definition O_RDWR : Z := 0x002.
Definition O_CREATE : Z := 0x200.

Section sysfile.
Context `{Symbols} `{BlockDev} `{DevSw} (ts : nat -> Z).

(** The descriptor and its file. *)
Definition argfd (n : Z) : M W (option (Z * nat)) :=
  let* fd := onk (argint n) in
  match fd with
  | None => ret None
  | Some fd =>
    let fd := s32 fd in
    if (fd <? 0) || (fd >=? Z.of_nat NOFILE) then ret None else
    let* ofile := onk (cur_field p_ofile) in
    match ofile (Z.to_nat fd) with
    | None => ret None
    | Some f => ret (Some (fd, f))
    end
  end.

Definition set_fd (fd : nat) (f : option nat) : M W unit :=
  onk (cur_set (fun p => set_p_ofile (upd (p_ofile p) fd f) p)).

Definition fdalloc (f : nat) : M W Z :=
  let* ofile := onk (cur_field p_ofile) in
  match find_first (fun fd => bool_decide (ofile fd = None)) (seq 0 NOFILE) with
  | Some fd => set_fd fd (Some f) ;;; ret (Z.of_nat fd)
  | None => ret (-1)
  end.

Definition sys_dup : M W Z :=
  let* a := argfd 0 in
  match a with
  | None => ret (-1)
  | Some (_, f) =>
    let* fd := fdalloc f in
    if fd <? 0 then ret (-1) else
    filedup f ;;;
    ret fd
  end.

(** What sys_dup2 does once its arguments are known and newfd is in range. *)
Definition dup2_body (oldfd : Z) (oldf : nat) (newfd : Z) : M W Z :=
  if newfd =? oldfd then ret newfd else
  let* ofile := onk (cur_field p_ofile) in
  match ofile (Z.to_nat newfd) with Some newf => fileclose newf | None => ret tt end ;;;
  filedup oldf ;;;
  set_fd (Z.to_nat newfd) (Some oldf) ;;;
  ret newfd.

Definition sys_dup2 : M W Z :=
  let* a := argfd 0 in
  match a with
  | None => ret (-1)
  | Some (oldfd, oldf) =>
    let* newfd := onk (argint 1) in
    match newfd with
    | None => ret (-1)
    | Some newfd =>
      let newfd := s32 newfd in
      if (newfd <? 0) || (newfd >=? Z.of_nat NOFILE) then ret (-1) else
      dup2_body oldfd oldf newfd
    end
  end.

(** The common arguments of read and write: file, address and count. *)
Definition arg_io : M W (option (nat * Z * Z)) :=
  let* a := argfd 0 in
  match a with
  | None => ret None
  | Some (_, f) =>
    let* n := onk (argint 2) in
    match n with
    | None => ret None
    | Some n =>
      let* p := onk (argptr 1 (s32 n)) in
      match p with None => ret None | Some p => ret (Some (f, p, s32 n)) end
    end
  end.

Definition sys_read : M W Z :=
  let* a := arg_io in
  match a with None => ret (-1) | Some (f, p, n) => fileread f p n end.

Definition sys_write : M W Z :=
  let* a := arg_io in
  match a with None => ret (-1) | Some (f, p, n) => filewrite f p n end.

Definition sys_close : M W Z :=
  let* a := argfd 0 in
  match a with
  | None => ret (-1)
  | Some (fd, f) => set_fd (Z.to_nat fd) None ;;; fileclose f ;;; ret 0
  end.

(** sizeof(struct stat) is 20. *)
Definition sys_fstat : M W Z :=
  let* a := argfd 0 in
  match a with
  | None => ret (-1)
  | Some (_, f) =>
    let* st := onk (argptr 1 20) in
    match st with None => ret (-1) | Some st => filestat f st end
  end.

(** The bytes of a path argument. *)
Definition arg_path (n : Z) : M W (option (list Z)) :=
  let* a := onk (argstr n) in
  match a with
  | None => ret None
  | Some (addr, len) => let* bs := onk (uload_bytes addr 0 (Z.to_nat len)) in ret (Some bs)
  end.

Definition add_nlink (ip : nat) (d : Z) : M W unit :=
  ino_upd ip (fun i => set_i_nlink (s16 (i_nlink i + d)) i).

(** The label bad of sys_link. *)
Definition link_bad (ip : nat) : M W Z :=
  ilock (Some ip) ;;;
  add_nlink ip (-1) ;;;
  iupdate ip ;;;
  iunlockput (Some ip) ;;;
  end_op ;;;
  ret (-1).

Definition sys_link : M W Z :=
  let* old := arg_path 0 in
  match old with None => ret (-1) | Some old =>
  let* new := arg_path 1 in
  match new with None => ret (-1) | Some new =>
  begin_op ;;;
  let* ip := namei old in
  match ip with
  | None => end_op ;;; ret (-1)
  | Some ip =>
    ilock (Some ip) ;;;
    let* i := ino_get ip in
    if i_type i =? T_DIR then iunlockput (Some ip) ;;; end_op ;;; ret (-1) else
    add_nlink ip 1 ;;;
    iupdate ip ;;;
    iunlock (Some ip) ;;;
    let* r := nameiparent new in
    match r with
    | None => link_bad ip
    | Some (dp, name) =>
      ilock (Some dp) ;;;
      let* d := ino_get dp in
      let* i := ino_get ip in
      let* failed := (if negb (i_dev d =? i_dev i) then ret true
                      else let* r := dirlink dp name (i_inum i) in ret (r <? 0)) in
      if failed then iunlockput (Some dp) ;;; link_bad ip else
      iunlockput (Some dp) ;;;
      iput (Some ip) ;;;
      end_op ;;;
      ret 0
    end
  end end end.

(** From the third entry: the first two are . and .. *)
Definition isdirempty (dp : nat) : M W bool :=
  let* d := ino_get dp in
  let* r := for_some (dir_offsets 32 (i_size d)) (fun off =>
    let* r := readi put_local [] dp off 16 in
    if negb (r.1 =? 16) then panic "isdirempty: readi" else
    if negb (de_inum r.2 =? 0) then ret (Some tt) else ret None) in
  ret (match r with Some _ => false | None => true end).

Definition dot : list Z := [46].
Definition dotdot : list Z := [46; 46].

(** The label bad of sys_unlink. *)
Definition unlink_bad (dp : nat) : M W Z :=
  iunlockput (Some dp) ;;;
  end_op ;;;
  ret (-1).

Definition sys_unlink : M W Z :=
  let* path := arg_path 0 in
  match path with None => ret (-1) | Some path =>
  begin_op ;;;
  let* r := nameiparent path in
  match r with
  | None => end_op ;;; ret (-1)
  | Some (dp, name) =>
    ilock (Some dp) ;;;
    if (namecmp name dot =? 0) || (namecmp name dotdot =? 0) then unlink_bad dp else
    let* r := dirlookup dp name in
    match r with
    | None => unlink_bad dp
    | Some (ip, off) =>
      ilock (Some ip) ;;;
      let* i := ino_get ip in
      if i_nlink i <? 1 then panic "unlink: nlink < 1" else
      let* full := (if i_type i =? T_DIR then let* e := isdirempty ip in ret (negb e) else ret false) in
      if full then iunlockput (Some ip) ;;; unlink_bad dp else
      let* r := writei fetch_local (replicate 16 0) dp off 16 in
      if negb (r.1 =? 16) then panic "unlink: writei" else
      let* i := ino_get ip in
      when (i_type i =? T_DIR) (add_nlink dp (-1) ;;; iupdate dp) ;;;
      iunlockput (Some dp) ;;;
      add_nlink ip (-1) ;;;
      iupdate ip ;;;
      iunlockput (Some ip) ;;;
      end_op ;;;
      ret 0
    end
  end end.

(** A new inode in the directory [dp]: sys_open, sys_mkdir and sys_mknod. *)
Definition create (path : list Z) (type major minor : Z) : M W (option nat) :=
  let* r := nameiparent path in
  match r with
  | None => ret None
  | Some (dp, name) =>
    ilock (Some dp) ;;;
    let* r := dirlookup dp name in
    match r with
    | Some (ip, _) =>
      iunlockput (Some dp) ;;;
      ilock (Some ip) ;;;
      let* i := ino_get ip in
      if (type =? T_FILE) && (i_type i =? T_FILE) then ret (Some ip) else
      iunlockput (Some ip) ;;;
      ret None
    | None =>
      let* d := ino_get dp in
      let* ip := ialloc (i_dev d) type in
      ilock (Some ip) ;;;
      ino_upd ip (set_i_major (s16 major)) ;;;
      ino_upd ip (set_i_minor (s16 minor)) ;;;
      ino_upd ip (set_i_nlink 1) ;;;
      iupdate ip ;;;
      let* i := ino_get ip in
      when (type =? T_DIR)
        (add_nlink dp 1 ;;;
         iupdate dp ;;;
         let* r := dirlink ip dot (i_inum i) in
         if r <? 0 then panic "create dots" else
         let* d := ino_get dp in
         let* r := dirlink ip dotdot (i_inum d) in
         if r <? 0 then panic "create dots" else ret tt) ;;;
      let* r := dirlink dp name (i_inum i) in
      if r <? 0 then panic "create: dirlink" else
      iunlockput (Some dp) ;;;
      ret (Some ip)
    end
  end.

(** The inode of open, locked, inside the transaction. *)
Definition open_inode (path : list Z) (omode : Z) : M W (option nat) :=
  if has omode O_CREATE then create path T_FILE 0 0 else
  let* ip := namei path in
  match ip with
  | None => ret None
  | Some ip =>
    ilock (Some ip) ;;;
    let* i := ino_get ip in
    if (i_type i =? T_DIR) && negb (omode =? O_RDONLY) then
      iunlockput (Some ip) ;;; ret None
    else ret (Some ip)
  end.

Definition sys_open : M W Z :=
  let* path := arg_path 0 in
  match path with None => ret (-1) | Some path =>
  let* omode := onk (argint 1) in
  match omode with None => ret (-1) | Some omode =>
  begin_op ;;;
  let* ip := open_inode path omode in
  match ip with
  | None => end_op ;;; ret (-1)
  | Some ip =>
    let* f := filealloc in
    match f with
    | None => iunlockput (Some ip) ;;; end_op ;;; ret (-1)
    | Some f =>
      let* fd := fdalloc f in
      if fd <? 0 then fileclose f ;;; iunlockput (Some ip) ;;; end_op ;;; ret (-1) else
      iunlock (Some ip) ;;;
      end_op ;;;
      file_upd f (set_f_type FD_INODE) ;;;
      file_upd f (set_f_ip (Some ip)) ;;;
      file_upd f (set_f_off 0) ;;;
      file_upd f (set_f_readable (negb (has omode O_WRONLY))) ;;;
      file_upd f (set_f_writable (has omode O_WRONLY || has omode O_RDWR)) ;;;
      ret fd
    end
  end end end.

Definition sys_mkdir : M W Z :=
  begin_op ;;;
  let* path := arg_path 0 in
  let* ip := (match path with None => ret None | Some path => create path T_DIR 0 0 end) in
  match ip with
  | None => end_op ;;; ret (-1)
  | Some ip => iunlockput (Some ip) ;;; end_op ;;; ret 0
  end.

Definition sys_mknod : M W Z :=
  begin_op ;;;
  let* path := arg_path 0 in
  let* major := (match path with None => ret None | Some _ => onk (argint 1) end) in
  let* minor := (match major with None => ret None | Some _ => onk (argint 2) end) in
  let* ip := (match path, major, minor with
              | Some path, Some major, Some minor => create path T_DEV major minor
              | _, _, _ => ret None
              end) in
  match ip with
  | None => end_op ;;; ret (-1)
  | Some ip => iunlockput (Some ip) ;;; end_op ;;; ret 0
  end.

Definition sys_chdir : M W Z :=
  begin_op ;;;
  let* path := arg_path 0 in
  let* ip := (match path with None => ret None | Some path => namei path end) in
  match ip with
  | None => end_op ;;; ret (-1)
  | Some ip =>
    ilock (Some ip) ;;;
    let* i := ino_get ip in
    if negb (i_type i =? T_DIR) then iunlockput (Some ip) ;;; end_op ;;; ret (-1) else
    iunlock (Some ip) ;;;
    let* cwd := onk (cur_field p_cwd) in
    iput cwd ;;;
    end_op ;;;
    onk (cur_set (set_p_cwd (Some ip))) ;;;
    ret 0
  end.

(** The argument strings from index [i]; at most MAXARG - 1 of them. *)
Fixpoint fetch_argv (fuel : nat) (uargv i : Z) : M W (option (list (list Z))) :=
  match fuel with
  | O => ret None
  | S f =>
    let* uarg := onk (fetchint (u32 (uargv + 4 * i))) in
    match uarg with
    | None => ret None
    | Some uarg =>
      if uarg =? 0 then ret (Some []) else
      let* len := onk (fetchstr uarg) in
      match len with
      | None => ret None
      | Some len =>
        let* s := onk (uload_bytes uarg 0 (Z.to_nat len)) in
        let* r := fetch_argv f uargv (i + 1) in
        ret (match r with Some l => Some (s :: l) | None => None end)
      end
    end
  end.

Definition sys_exec : M W Z :=
  let* path := arg_path 0 in
  match path with None => ret (-1) | Some path =>
  let* uargv := onk (argint 1) in
  match uargv with None => ret (-1) | Some uargv =>
  let* argv := fetch_argv (Z.to_nat MAXARG) uargv 0 in
  match argv with None => ret (-1) | Some argv => exec ts path argv end
  end end.

Definition sys_pipe : M W Z :=
  let* fd := onk (argptr 0 8) in
  match fd with None => ret (-1) | Some fd =>
  let* r := pipealloc filealloc fileclose in
  match r with None => ret (-1) | Some (rf, wf) =>
  let* fd0 := fdalloc rf in
  if fd0 <? 0 then fileclose rf ;;; fileclose wf ;;; ret (-1) else
  let* fd1 := fdalloc wf in
  if fd1 <? 0 then
    set_fd (Z.to_nat fd0) None ;;; fileclose rf ;;; fileclose wf ;;; ret (-1)
  else
    onk (ustore32 fd fd0) ;;;
    onk (ustore32 (u32 (fd + 4)) fd1) ;;;
    ret 0
  end end.
End sysfile.
