(* ===== verification/Ide.v ===== *)
(** * The IDE disk driver (ide.c)

    The ports of the controller are the class [Ports] of Disk.  Requests are kept in a
    linked list through [b_qnext]; [iderw] sleeps until the interrupt handler has
    served its buffer. *)
From S2P Require Import Prelude Machine ProcQueue StringC Spinlock Kalloc Vm VmFrame Proc RunQueue ProcRun Sched UserMem Trap FsState Sleeplock Disk Bio.

Definition IDE_BSY : Z := 0x80.
Definition IDE_DRDY : Z := 0x40.
Definition IDE_DF : Z := 0x20.
Definition IDE_ERR : Z := 0x01.
Definition IDE_CMD_READ : Z := 0x20.
Definition IDE_CMD_WRITE : Z := 0x30.
Definition IDE_CMD_RDMUL : Z := 0xc4.
Definition IDE_CMD_WRMUL : Z := 0xc5.
Definition SECTOR_SIZE : Z := 512.

Section ide.
Context `{Ports}.

(** Polls at most [fuel] times. *)
Fixpoint idewait (fuel : nat) (checkerr : bool) : M W Z :=
  match fuel with
  | O => out_of_fuel
  | S f =>
    let* r := inb 0x1f7 in
    if Z.land r (Z.lor IDE_BSY IDE_DRDY) =? IDE_DRDY then
      if checkerr && has r (Z.lor IDE_DF IDE_ERR) then ret (-1) else ret 0
    else idewait f checkerr
  end.

(** The number of polls the model waits for the disk. *)
Variable polls : nat.

Definition ideinit : M W unit :=
  onk (on_cpu (initlock Lide)) ;;;
  let* n := onk (gets (fun k => hw_ncpu (k_hw k))) in
  ioapicenable IRQ_IDE (n - 1) ;;;
  idewait polls false ;;;
  outb 0x1f6 (Z.lor 0xe0 (Z.shiftl 1 4)) ;;;
  let* found := for_some (seq 0 1000) (fun _ =>
    let* r := inb 0x1f7 in ret (if negb (r =? 0) then Some tt else None)) in
  match found with Some _ => onl (modify (set_l_havedisk1 true)) | None => ret tt end ;;;
  outb 0x1f6 (Z.lor 0xe0 (Z.shiftl 0 4)).

Definition idestart (b : option nat) : M W unit :=
  match b with
  | None => panic "idestart"
  | Some b =>
    let* x := buf_get b in
    if b_blockno x >=? FSSIZE then panic "incorrect blockno" else
    let sector_per_block := BSIZE / SECTOR_SIZE in
    let sector := s32 (b_blockno x * sector_per_block) in
    let read_cmd := if sector_per_block =? 1 then IDE_CMD_READ else IDE_CMD_RDMUL in
    let write_cmd := if sector_per_block =? 1 then IDE_CMD_WRITE else IDE_CMD_WRMUL in
    if sector_per_block >? 7 then panic "idestart" else
    idewait polls false ;;;
    outb 0x3f6 0 ;;;
    outb 0x1f2 sector_per_block ;;;
    outb 0x1f3 (Z.land sector 0xff) ;;;
    outb 0x1f4 (Z.land (Z.shiftr sector 8) 0xff) ;;;
    outb 0x1f5 (Z.land (Z.shiftr sector 16) 0xff) ;;;
    outb 0x1f6 (Z.lor (Z.lor 0xe0 (Z.shiftl (Z.land (b_dev x) 1) 4)) (Z.land (Z.shiftr sector 24) 0x0f)) ;;;
    if has (b_flags x) B_DIRTY then
      outb 0x1f7 write_cmd ;;;
      outsl 0x1f0 (b_data x)
    else outb 0x1f7 read_cmd
  end.

Definition ideintr : M W unit :=
  wacquire Lide ;;;
  let* q := onl (gets l_idequeue) in
  match q with
  | None => wrelease Lide
  | Some b =>
    let* x := buf_get b in
    onl (modify (set_l_idequeue (b_qnext x))) ;;;
    (if negb (has (b_flags x) B_DIRTY) then
       let* r := idewait polls true in
       when (r >=? 0) (let* d := insl 0x1f0 in buf_upd b (set_b_data d))
     else ret tt) ;;;
    buf_upd b (fun x => set_b_flags (Z.lor (b_flags x) B_VALID) x) ;;;
    buf_upd b (fun x => set_b_flags (Z.land (b_flags x) (Z.lnot B_DIRTY)) x) ;;;
    onk (wakeup (Some (ChBuf b))) ;;;
    let* q := onl (gets l_idequeue) in
    match q with Some _ => idestart q | None => ret tt end ;;;
    wrelease Lide
  end.

(** The last buffer of the queue that starts at [b]. *)
Fixpoint queue_last (fuel : nat) (b : nat) : M W nat :=
  match fuel with
  | O => out_of_fuel
  | S f => let* x := buf_get b in
           match b_qnext x with None => ret b | Some b' => queue_last f b' end
  end.

(** Append [b]; a queue holds at most NBUF buffers. *)
Definition ide_append (b : nat) : M W unit :=
  buf_upd b (set_b_qnext None) ;;;
  let* q := onl (gets l_idequeue) in
  match q with
  | None => onl (modify (set_l_idequeue (Some b)))
  | Some h => let* t := queue_last NBUF h in buf_upd t (set_b_qnext (Some b))
  end.

(** The loop at the end of iderw, with idelock held. *)
Definition ide_wait_done (b : nat) : M W unit :=
  let* x := buf_get b in
  if negb (Z.land (b_flags x) (Z.lor B_VALID B_DIRTY) =? B_VALID) then
    onk (sleep (Some (ChBuf b)) (Some Lide)) ;;;
    out_of_fuel (* goes on in ide_rw_resume *)
  else wrelease Lide.

Definition ide_rw (b : nat) : M W unit :=
  let* h := holdingsleep (SLbuf b) in
  if negb h then panic "iderw: buf not locked" else
  let* x := buf_get b in
  if Z.land (b_flags x) (Z.lor B_VALID B_DIRTY) =? B_VALID then panic "iderw: nothing to do" else
  let* disk1 := onl (gets l_havedisk1) in
  if negb (b_dev x =? 0) && negb disk1 then panic "iderw: ide disk 1 not present" else
  wacquire Lide ;;;
  ide_append b ;;;
  let* q := onl (gets l_idequeue) in
  when (bool_decide (q = Some b)) (idestart (Some b)) ;;;
  ide_wait_done b.

Definition ide_rw_resume (pr : nat) (intena : bool) (b : nat) : M W unit :=
  onk (sleep_resume pr Lide intena) ;;;
  ide_wait_done b.

Definition ide : BlockDev := {| iderw := ide_rw |}.
End ide.
