(* ===== verification/Console.v ===== *)
(** * Console, keyboard and serial line (console.c, kbd.c, uart.c)

    The devices are reached through [Ports].  Input characters go through a ring
    buffer of INPUT_BUF bytes with free-running 32-bit indices: bytes from r to w
    are complete lines, bytes from w to e are being edited.  microdelay is an
    empty function.  procdump only prints and is left out. *)
From S2P Require Import Prelude Machine ProcQueue StringC Spinlock Kalloc Vm VmFrame Proc RunQueue ProcRun Sched UserMem Trap FsState Sleeplock Disk Bio Log Fs.

Definition BACKSPACE : Z := 0x100.
Definition CRTPORT : Z := 0x3d4.
Definition COM1 : Z := 0x3f8.
Definition INPUT_BUF : Z := 128.
Definition newline : Z := 10.
Definition ctrl (x : Z) : Z := x - 64.
(** C('P'), C('U'), C('H'), C('D') *)
Definition C_P : Z := ctrl 80.
Definition C_U : Z := ctrl 85.
Definition C_H : Z := ctrl 72.
Definition C_D : Z := ctrl 68.

Definition set_input (g : input -> input) (c : consst) : consst := set_cn_input (g (cn_input c)) c.

Section console.
Context `{Ports}.

(** ** Output *)

Definition uartputc (c : Z) : M W unit :=
  let* s := cons_get in
  if negb (cn_uart s) then ret tt else
  for_some (seq 0 128) (fun _ =>
    let* st := inb (COM1 + 5) in ret (if has st 0x20 then Some tt else None)) ;;;
  outb COM1 (u8 c).

(** The screen scrolled by one line, with the cursor at [pos] afterwards. *)
Definition scroll_up (crt : Z -> Z) (pos : Z) : Z -> Z := fun i =>
  let crt' := if decide (0 <= i < 23 * 80) then crt (i + 80) else crt i in
  if decide (pos <= i < 24 * 80) then 0 else crt'.

Definition cgaputc (c : Z) : M W unit :=
  outb CRTPORT 14 ;;;
  let* hi := inb (CRTPORT + 1) in
  outb CRTPORT 15 ;;;
  let* lo := inb (CRTPORT + 1) in
  let pos := Z.lor (Z.shiftl hi 8) lo in
  let* pos :=
    (if c =? newline then ret (pos + (80 - pos mod 80))
     else if c =? BACKSPACE then ret (if pos >? 0 then pos - 1 else pos)
     else cons_upd (fun s => set_cn_crt (upd (cn_crt s) pos (Z.lor (Z.land c 0xff) 0x0700)) s) ;;; ret (pos + 1)) in
  if (pos <? 0) || (pos >? 25 * 80) then panic "pos under/overflow" else
  let* pos :=
    (if pos / 80 >=? 24 then
       cons_upd (fun s => set_cn_crt (scroll_up (cn_crt s) (pos - 80)) s) ;;; ret (pos - 80)
     else ret pos) in
  outb CRTPORT 14 ;;;
  outb (CRTPORT + 1) (u8 (Z.shiftr pos 8)) ;;;
  outb CRTPORT 15 ;;;
  outb (CRTPORT + 1) (u8 pos) ;;;
  cons_upd (fun s => set_cn_crt (upd (cn_crt s) pos (Z.lor 32 0x0700)) s).

Definition consputc (c : Z) : M W unit :=
  let* s := cons_get in
  if cn_panicked s then onk (on_cpu cli) ;;; out_of_fuel (* for(;;); *) else
  (if c =? BACKSPACE then uartputc 8 ;;; uartputc 32 ;;; uartputc 8 else uartputc c) ;;;
  cgaputc c.

(** The digits of printint, least significant first. *)
Fixpoint digits (fuel : nat) (x base : Z) : list Z :=
  match fuel with
  | O => []
  | S f =>
    let d := x mod base in
    (if d <? 10 then 48 + d else 87 + d) :: (if x / base =? 0 then [] else digits f (x / base) base)
  end.

(** A 32-bit number has at most 32 digits. *)
Definition int_chars (xx base : Z) (sign : bool) : list Z :=
  let neg := sign && (xx <? 0) in
  let x := if neg then u32 (- xx) else u32 xx in
  rev (digits 32 x base ++ (if neg then [45] else [])).

Definition printint (xx base : Z) (sign : bool) : M W unit :=
  foreach (int_chars xx base sign) consputc.

(** An argument of cprintf: a number or a pointer to a string. *)
Inductive carg := AInt (z : Z) | AStr (s : option (list Z)).

(** The string "(null)". *)
Definition null_str : list Z := [40; 110; 117; 108; 108; 41].

(** The loop of cprintf on the rest of the format; an argument of the wrong kind
    or a missing one is not defined in C. *)
Fixpoint cprintf_loop (fmt : list Z) (args : list carg) : M W unit :=
  match fmt with
  | [] => ret tt
  | c :: fmt1 =>
    if negb (c =? 37) then consputc c ;;; cprintf_loop fmt1 args else
    match fmt1 with
    | [] => ret tt
    | c :: fmt2 =>
      if c =? 100 then
        match args with AInt z :: args => printint (s32 z) 10 true ;;; cprintf_loop fmt2 args | _ => fault end
      else if (c =? 120) || (c =? 112) then
        match args with AInt z :: args => printint (s32 z) 16 false ;;; cprintf_loop fmt2 args | _ => fault end
      else if c =? 115 then
        match args with
        | AStr s :: args =>
          foreach (match s with Some s => s | None => null_str end) consputc ;;; cprintf_loop fmt2 args
        | _ => fault
        end
      else if c =? 37 then consputc 37 ;;; cprintf_loop fmt2 args
      else consputc 37 ;;; consputc c ;;; cprintf_loop fmt2 args
    end
  end.

Definition cprintf (fmt : option (list Z)) (args : list carg) : M W unit :=
  let* s := cons_get in
  let locking := cn_locking s in
  when locking (wacquire Lcons) ;;;
  match fmt with
  | None => panic "null fmt"
  | Some fmt => cprintf_loop fmt args
  end ;;;
  when locking (wrelease Lcons).

(** ** Input *)

(** The loop of the key C('U'): at most e - w characters are erased. *)
Fixpoint kill_line (fuel : nat) : M W unit :=
  match fuel with
  | O => out_of_fuel
  | S f =>
    let* s := cons_get in
    let i := cn_input s in
    if negb (in_e i =? in_w i) && negb (in_buf i (u32 (in_e i - 1) mod INPUT_BUF) =? newline) then
      cons_upd (set_input (fun i => set_in_e (u32 (in_e i - 1)) i)) ;;;
      consputc BACKSPACE ;;;
      kill_line f
    else ret tt
  end.

(** The switch of consoleintr: whether to call procdump afterwards. *)
Definition consoleintr_char (c : Z) : M W bool :=
  if c =? C_P then ret true
  else if c =? C_U then
    let* s := cons_get in
    kill_line (S (Z.to_nat (u32 (in_e (cn_input s) - in_w (cn_input s))))) ;;; ret false
  else if (c =? C_H) || (c =? 0x7f) then
    let* s := cons_get in
    when (negb (in_e (cn_input s) =? in_w (cn_input s)))
      (cons_upd (set_input (fun i => set_in_e (u32 (in_e i - 1)) i)) ;;; consputc BACKSPACE) ;;;
    ret false
  else
    let* s := cons_get in
    when (negb (c =? 0) && (u32 (in_e (cn_input s) - in_r (cn_input s)) <? INPUT_BUF))
      (let c := if c =? 13 then newline else c in
       cons_upd (set_input (fun i =>
         set_in_e (u32 (in_e i + 1)) (set_in_buf (upd (in_buf i) (in_e i mod INPUT_BUF) (u8 c)) i))) ;;;
       consputc c ;;;
       let* s := cons_get in
       when ((c =? newline) || (c =? C_D) || (in_e (cn_input s) =? u32 (in_r (cn_input s) + INPUT_BUF)))
         (cons_upd (set_input (fun i => set_in_w (in_e i) i)) ;;;
          onk (wakeup (Some ChInput)))) ;;;
    ret false.

(** Characters until getc has none; the model takes at most [fuel] of them. *)
Fixpoint consoleintr_loop (fuel : nat) (getc : M W Z) (doprocdump : bool) : M W bool :=
  match fuel with
  | O => out_of_fuel
  | S f =>
    let* c := getc in
    if c >=? 0 then
      let* d := consoleintr_char c in
      consoleintr_loop f getc (doprocdump || d)
    else ret doprocdump
  end.

Definition consoleintr (fuel : nat) (getc : M W Z) : M W unit :=
  wacquire Lcons ;;;
  consoleintr_loop fuel getc false ;;;
  wrelease Lcons.

(** ** The device functions *)

Section device.
Context `{Symbols} `{BlockDev} {A : Type}.

Variable put : A -> list Z -> M W A.

(** The end of consoleread: [n] bytes of [target] are still wanted. *)
Definition consoleread_end (ip : nat) (dst : A) (n target : Z) : M W (Z * A) :=
  wrelease Lcons ;;;
  ilock (Some ip) ;;;
  ret (s32 (target - n), dst).

Fixpoint consoleread_loop (fuel : nat) (ip : nat) (dst : A) (n target : Z) : M W (Z * A) :=
  match fuel with
  | O => out_of_fuel
  | S f =>
    if n >? 0 then
      let* s := cons_get in
      let i := cn_input s in
      if in_r i =? in_w i then
        let* killed := onk (cur_field p_killed) in
        if killed then
          wrelease Lcons ;;;
          ilock (Some ip) ;;;
          ret (-1, dst)
        else
          onk (sleep (Some ChInput) (Some Lcons)) ;;;
          out_of_fuel (* goes on in consoleread_resume *)
      else
      let c := in_buf i (in_r i mod INPUT_BUF) in
      cons_upd (set_input (fun i => set_in_r (u32 (in_r i + 1)) i)) ;;;
      if c =? C_D then
        when (u32 n <? target) (cons_upd (set_input (fun i => set_in_r (u32 (in_r i - 1)) i))) ;;;
        consoleread_end ip dst n target
      else
      let* dst := put dst [c] in
      if c =? newline then consoleread_end ip dst (n - 1) target
      else consoleread_loop f ip dst (n - 1) target
    else consoleread_end ip dst n target
  end.

Definition consoleread (dst : A) (ip : nat) (n : Z) : M W (Z * A) :=
  iunlock (Some ip) ;;;
  wacquire Lcons ;;;
  consoleread_loop (S (Z.to_nat n)) ip dst n (u32 n).

Definition consoleread_resume (pr : nat) (intena : bool) (ip : nat) (dst : A) (n target : Z) : M W (Z * A) :=
  onk (sleep_resume pr Lcons intena) ;;;
  consoleread_loop (S (Z.to_nat n)) ip dst n target.

Variable fetch : A -> Z -> M W (list Z * A).

Fixpoint consolewrite_loop (n : nat) (src : A) : M W A :=
  match n with
  | O => ret src
  | S n' =>
    let* r := fetch src 1 in
    foreach r.1 (fun b => consputc (Z.land b 0xff)) ;;;
    consolewrite_loop n' r.2
  end.

Definition consolewrite (src : A) (ip : nat) (n : Z) : M W (Z * A) :=
  iunlock (Some ip) ;;;
  wacquire Lcons ;;;
  let* src := consolewrite_loop (Z.to_nat n) src in
  wrelease Lcons ;;;
  ilock (Some ip) ;;;
  ret (n, src).
End device.
End console.

(** file.h: the entry of devsw[] that consoleinit fills in. *)
Definition CONSOLE : Z := 1.

Definition console_devsw `{Ports} `{Symbols} `{BlockDev} : DevSw := {|
  devsw_read major := if major =? CONSOLE then Some (fun A put => consoleread put) else None;
  devsw_write major := if major =? CONSOLE then Some (fun A fetch => consolewrite fetch) else None;
|}.

Definition consoleinit `{Ports} : M W unit :=
  onk (on_cpu (initlock Lcons)) ;;;
  cons_upd (set_cn_locking true) ;;;
  ioapicenable IRQ_KBD 0.
