(* ===== verification/Kbd.v ===== *)
(** * Keyboard and serial input (kbd.c, kbd.h, uart.c)

    The sources of characters of the console.  A table of kbd.h is its list of
    first entries with the entries given by index after it. *)
From S2P Require Import Prelude Machine ProcQueue StringC Spinlock Kalloc Vm VmFrame Proc RunQueue ProcRun Sched UserMem Trap FsState Sleeplock Disk Bio Log Fs Console.

(** ** kbd.h *)
Definition KBSTATP : Z := 0x64.
Definition KBS_DIB : Z := 0x01.
Definition KBDATAP : Z := 0x60.
Definition SHIFT : Z := 1.
Definition CTL : Z := 2.
Definition ALT : Z := 4.
Definition CAPSLOCK : Z := 8.
Definition NUMLOCK : Z := 16.
Definition SCROLLLOCK : Z := 32.
Definition E0ESC : Z := 64.

(** A table with entries [l] from 0 on and [sparse] elsewhere. *)
Definition table (l : list Z) (sparse : list (Z * Z)) (i : Z) : Z :=
  match list_find (fun e => e.1 = i) sparse with
  | Some (_, e) => e.2
  | None => nth (Z.to_nat i) l 0
  end.

Definition shiftcode : Z -> Z :=
  table [] [(0x1D, CTL); (0x2A, SHIFT); (0x36, SHIFT); (0x38, ALT); (0x9D, CTL); (0xB8, ALT)].
Definition togglecode : Z -> Z :=
  table [] [(0x3A, CAPSLOCK); (0x45, NUMLOCK); (0x46, SCROLLLOCK)].

(** The keys with an 0xE0 prefix: arrows, home, end, page keys, insert, delete. *)
Definition special_keys : list (Z * Z) :=
  [(0xC8, 0xE2); (0xD0, 0xE3); (0xC9, 0xE6); (0xD1, 0xE7); (0xCB, 0xE4); (0xCD, 0xE5); (0x97, 0xE0); (0xCF, 0xE1);
   (0xD2, 0xE8); (0xD3, 0xE9)].

Definition normalmap : Z -> Z :=
  table
  [ 0; 0x1B; 49; 50; 51; 52; 53; 54;
    55; 56; 57; 48; 45; 61; 8; 9;
    113; 119; 101; 114; 116; 121; 117; 105;
    111; 112; 91; 93; 10; 0; 97; 115;
    100; 102; 103; 104; 106; 107; 108; 59;
    39; 96; 0; 92; 122; 120; 99; 118;
    98; 110; 109; 44; 46; 47; 0; 42;
    0; 32; 0; 0; 0; 0; 0; 0;
    0; 0; 0; 0; 0; 0; 0; 55;
    56; 57; 45; 52; 53; 54; 43; 49;
    50; 51; 48; 46; 0; 0; 0; 0 ]
  ((0x9C, 10) :: (0xB5, 47) :: special_keys).

Definition shiftmap : Z -> Z :=
  table
  [ 0; 27; 33; 64; 35; 36; 37; 94;
    38; 42; 40; 41; 95; 43; 8; 9;
    81; 87; 69; 82; 84; 89; 85; 73;
    79; 80; 123; 125; 10; 0; 65; 83;
    68; 70; 71; 72; 74; 75; 76; 58;
    34; 126; 0; 124; 90; 88; 67; 86;
    66; 78; 77; 60; 62; 63; 0; 42;
    0; 32; 0; 0; 0; 0; 0; 0;
    0; 0; 0; 0; 0; 0; 0; 55;
    56; 57; 45; 52; 53; 54; 43; 49;
    50; 51; 48; 46; 0; 0; 0; 0 ]
  ((0x9C, 10) :: (0xB5, 47) :: special_keys).

(** The entry C('/') is stored as an unsigned byte. *)
Definition ctlmap : Z -> Z :=
  table
  [ 0; 0; 0; 0; 0; 0; 0; 0;
    0; 0; 0; 0; 0; 0; 0; 0;
    ctrl 81; ctrl 87; ctrl 69; ctrl 82; ctrl 84; ctrl 89; ctrl 85; ctrl 73;
    ctrl 79; ctrl 80; 0; 0; 13; 0; ctrl 65; ctrl 83;
    ctrl 68; ctrl 70; ctrl 71; ctrl 72; ctrl 74; ctrl 75; ctrl 76; 0;
    0; 0; 0; ctrl 92; ctrl 90; ctrl 88; ctrl 67; ctrl 86;
    ctrl 66; ctrl 78; ctrl 77; 0; 0; u8 (ctrl 47); 0; 0 ]
  ((0x9C, 13) :: (0xB5, u8 (ctrl 47)) :: special_keys).

Section devices.
Context `{Ports}.

(** ** kbd.c *)

Definition charcode (shift data : Z) : Z :=
  let m := Z.land shift (Z.lor CTL SHIFT) in
  if m =? 0 then normalmap data else if m =? 1 then shiftmap data else ctlmap data.

(** What the pressing of key [data] yields with the keys of [shift] down. *)
Definition key_char (shift data : Z) : Z :=
  let c := charcode shift data in
  if negb (Z.land shift CAPSLOCK =? 0) then
    if (97 <=? c) && (c <=? 122) then c + 65 - 97
    else if (65 <=? c) && (c <=? 90) then c + 97 - 65
    else c
  else c.

Definition kbdgetc : M W Z :=
  let* st := inb KBSTATP in
  if Z.land st KBS_DIB =? 0 then ret (-1) else
  let* data := inb KBDATAP in
  let* s := cons_get in
  let shift := cn_shift s in
  if data =? 0xE0 then
    cons_upd (set_cn_shift (Z.lor shift E0ESC)) ;;; ret 0
  else if negb (Z.land data 0x80 =? 0) then
    let data := if negb (Z.land shift E0ESC =? 0) then data else Z.land data 0x7F in
    cons_upd (set_cn_shift (Z.land shift (Z.lnot (Z.lor (shiftcode data) E0ESC)))) ;;; ret 0
  else
    let esc := negb (Z.land shift E0ESC =? 0) in
    let data := if esc then Z.lor data 0x80 else data in
    let shift := if esc then Z.land shift (Z.lnot E0ESC) else shift in
    let shift := Z.lxor (Z.lor shift (shiftcode data)) (togglecode data) in
    cons_upd (set_cn_shift shift) ;;;
    ret (key_char shift data).

Definition kbdintr (fuel : nat) : M W unit := consoleintr fuel kbdgetc.

(** ** uart.c *)

Definition uartgetc : M W Z :=
  let* s := cons_get in
  if negb (cn_uart s) then ret (-1) else
  let* st := inb (COM1 + 5) in
  if Z.land st 0x01 =? 0 then ret (-1) else
  inb COM1.

Definition uartintr (fuel : nat) : M W unit := consoleintr fuel uartgetc.

(** "xv6...\n" *)
Definition uart_hello : list Z := [120; 118; 54; 46; 46; 46; 10].

Definition uartinit : M W unit :=
  outb (COM1 + 2) 0 ;;;
  outb (COM1 + 3) 0x80 ;;;
  outb (COM1 + 0) (115200 / 9600) ;;;
  outb (COM1 + 1) 0 ;;;
  outb (COM1 + 3) 0x03 ;;;
  outb (COM1 + 4) 0 ;;;
  outb (COM1 + 1) 0x01 ;;;
  let* st := inb (COM1 + 5) in
  if st =? 0xFF then ret tt else
  cons_upd (set_cn_uart true) ;;;
  inb (COM1 + 2) ;;;
  inb (COM1 + 0) ;;;
  ioapicenable IRQ_COM1 0 ;;;
  foreach uart_hello uartputc.
End devices.
