(* ===== verification/Cmos.v ===== *)
(** * The clock (lapic.c: cmos_read, fill_rtcdate, cmostime)

    The CMOS is reached through [Ports]. *)
From S2P Require Import Prelude Machine ProcQueue StringC Spinlock Kalloc Vm VmFrame Proc RunQueue ProcRun Sched UserMem Trap FsState Sleeplock Disk Bio.

Definition CMOS_PORT : Z := 0x70.
Definition CMOS_RETURN : Z := 0x71.
Definition CMOS_STATA : Z := 0x0a.
Definition CMOS_STATB : Z := 0x0b.
Definition CMOS_UIP : Z := 128.

(** struct rtcdate (date.h) *)
Record rtcdate := mkRtc {
  rt_second : Z; rt_minute : Z; rt_hour : Z; rt_day : Z; rt_month : Z; rt_year : Z;
}.
#[export] Instance rtcdate_eq_dec : EqDecision rtcdate.
Proof. solve_decision. Defined.

Definition rt_map (g : Z -> Z) (t : rtcdate) : rtcdate :=
  mkRtc (g (rt_second t)) (g (rt_minute t)) (g (rt_hour t)) (g (rt_day t)) (g (rt_month t)) (g (rt_year t)).
(** The macro CONV: from binary coded decimal. *)
Definition bcd_value (x : Z) : Z := Z.shiftr x 4 * 10 + Z.land x 0xf.

Section cmos.
Context `{Ports}.

Definition cmos_read (reg : Z) : M W Z :=
  outb CMOS_PORT reg ;;;
  inb CMOS_RETURN.

Definition fill_rtcdate : M W rtcdate :=
  let* second := cmos_read 0x00 in
  let* minute := cmos_read 0x02 in
  let* hour := cmos_read 0x04 in
  let* day := cmos_read 0x07 in
  let* month := cmos_read 0x08 in
  let* year := cmos_read 0x09 in
  ret (mkRtc second minute hour day month year).

(** Reads until two in a row agree; the model tries [fuel] times. *)
Fixpoint stable_date (fuel : nat) : M W rtcdate :=
  match fuel with
  | O => out_of_fuel
  | S f =>
    let* t1 := fill_rtcdate in
    let* st := cmos_read CMOS_STATA in
    if has st CMOS_UIP then stable_date f else
    let* t2 := fill_rtcdate in
    if bool_decide (t1 = t2) then ret t1 else stable_date f
  end.

(** [*r = t] in user memory. *)
Definition store_rtcdate `{Symbols} (r : Z) (t : rtcdate) : M W unit :=
  onk (ustore32 (u32 r) (rt_second t) ;;;
       ustore32 (u32 (r + 4)) (rt_minute t) ;;;
       ustore32 (u32 (r + 8)) (rt_hour t) ;;;
       ustore32 (u32 (r + 12)) (rt_day t) ;;;
       ustore32 (u32 (r + 16)) (rt_month t) ;;;
       ustore32 (u32 (r + 20)) (rt_year t)).

Definition cmostime `{Symbols} (fuel : nat) (r : Z) : M W unit :=
  let* sb := cmos_read CMOS_STATB in
  let bcd := Z.land sb 4 =? 0 in
  let* t1 := stable_date fuel in
  let t1 := if bcd then rt_map bcd_value t1 else t1 in
  store_rtcdate r t1 ;;;
  onk (let* y := uload32 (u32 (r + 20)) in
       ustore32 (u32 (r + 20)) (u32 (y + 2000))).
End cmos.
