(* ===== verification/Kernel.v ===== *)
(** * The kernel put together

    file.c, fs.c, log.c and sysfile.c as the file layer that proc.c, trap.c and
    syscall.c use, and the devices on their ports. *)
From S2P Require Import Prelude Machine ProcQueue StringC Spinlock Kalloc Vm VmFrame Proc RunQueue ProcRun Sched UserMem Trap FsState Pipe Sleeplock Disk Bio Log Fs File Exec Sysfile Ide Console Kbd Cmos.

Section kernel.
Context `{Symbols} `{BlockDev} `{DevSw} `{Devices (fstate low)} (ts : nat -> Z).

#[export] Instance kernel_files : FileLayer (fstate low) := {|
  fl_filedup := filedup;
  fl_fileclose := fileclose;
  fl_idup := fun ip => match ip with Some ip => let* i := idup ip in ret (Some i) | None => fault end;
  fl_iput := iput;
  fl_begin_op := begin_op;
  fl_end_op := end_op;
  fl_namei := namei;
  fl_iinit := iinit;
  fl_initlog := initlog;
|}.

#[export] Instance kernel_sysfile : SysFile (fstate low) := {|
  sf_pipe := sys_pipe;
  sf_read := sys_read;
  sf_exec := sys_exec ts;
  sf_fstat := sys_fstat;
  sf_chdir := sys_chdir;
  sf_dup := sys_dup;
  sf_open := sys_open;
  sf_write := sys_write;
  sf_mknod := sys_mknod;
  sf_unlink := sys_unlink;
  sf_link := sys_link;
  sf_mkdir := sys_mkdir;
  sf_close := sys_close;
  sf_dup2 := sys_dup2;
|}.

(** The handler that trapasm.S calls, with the value of cr2. *)
Definition kernel_trap : Z -> trapframe -> M W unit := trap.
End kernel.

(** The kernel on the IDE disk, with the console as the only device file.  [tries]
    bounds the polls of a device, the characters of an interrupt and the readings
    of the clock; [lapiceoi] acknowledges an interrupt. *)
Section machine.
Context `{Symbols} `{Ports} (ts : nat -> Z) (tries : nat) (lapiceoi : M W unit).

#[local] Instance machine_disk : BlockDev := ide tries.
#[local] Instance machine_devsw : DevSw := console_devsw.
#[local] Instance machine_devices : Devices (fstate low) := {|
  dv_ideintr := ideintr tries;
  dv_kbdintr := kbdintr tries;
  dv_uartintr := uartintr tries;
  dv_lapiceoi := lapiceoi;
  dv_cmostime := cmostime tries;
|}.

Definition machine_trap : Z -> trapframe -> M W unit := kernel_trap ts.
End machine.
