(* ===== verification/FsLogic.v ===== *)
(** * Reasoning about file system calls

    A call of a process that finds every lock it takes free runs to its end.
    [runs m Q] says so of [m]: from every kernel state in which the process runs
    and no spin lock is held, [m] returns, again in such a state, and [Q] holds of
    its result and of the files, sleep locks, buffers and disk. *)
From S2P Require Import Prelude Machine ProcQueue StringC Spinlock Kalloc Vm VmFrame Proc RunQueue ProcRun Sched UserMem Trap FsState Sleeplock Disk.

Section calm.
Context (p : nat) (pid : Z).

(** Process [p] runs on this CPU; of the spin locks, [held] is this CPU's and the
    others are free. *)
Record busy (held : option lockid) (k : kst) : Prop := {
  bs_wf : hw_wf (k_hw k);
  bs_cur : c_proc (my (k_hw k)) = Some p;
  bs_in : p ∈ procs;
  bs_good : good (k_pt k);
  bs_run : Sched.runs (k_pt k) p;
  bs_pid : p_pid (pt_proc (k_pt k) p) = pid;
  bs_free lk : held <> Some lk -> hw_locks (k_hw k) lk = lock0;
  bs_held lk : held = Some lk ->
    hw_locks (k_hw k) lk = mkSpinlock true (Some (hw_me (k_hw k))) /\ 0 < c_ncli (my (k_hw k));
}.
Definition calm : kst -> Prop := busy None.

Lemma busy_hw held held' k h : busy held k -> hw_wf h -> c_proc (my h) = Some p ->
  (forall lk, held' <> Some lk -> hw_locks h lk = lock0) ->
  (forall lk, held' = Some lk -> hw_locks h lk = mkSpinlock true (Some (hw_me h)) /\ 0 < c_ncli (my h)) ->
  busy held' (set_khw h k).
Proof. intros []. by split. Qed.

Lemma acquire_calm lk k : calm k -> exists k1, on_cpu (acquire lk) k = Ret tt k1 /\ busy (Some lk) k1.
Proof.
  intros Hc. pose proof Hc as []. eexists.
  split; [apply on_cpu_Ret, acquire_free; [done|by rewrite bs_free0]|].
  eapply busy_hw; [exact Hc|..].
  - by apply hw_wf_set_lock, pushed_wf.
  - by rewrite my_set_lock, my_set_my, proc_pushed.
  - intros lk' Hne. simpl. rewrite upd_ne by congruence. by apply bs_free0.
  - intros lk' [= <-]. simpl. rewrite upd_eq. split; [done|]. rewrite my_set_lock, my_set_my, pushed_ncli.
    destruct (wf_my _ bs_wf0). lia.
Qed.

Lemma release_busy lk k : busy (Some lk) k -> exists k1, on_cpu (release lk) k = Ret tt k1 /\ calm k1.
Proof.
  intros Hc. pose proof Hc as []. destruct (bs_held0 lk eq_refl) as [Hl Hn]. eexists.
  split; [by apply on_cpu_Ret, release_run|]. eapply busy_hw; [exact Hc|..].
  - by apply hw_wf_set_lock, popped_wf.
  - by rewrite my_set_lock, my_set_my, proc_popped.
  - intros lk' _. simpl. rewrite upd_case. case_decide; [done|]. apply bs_free0. congruence.
  - done.
Qed.

Lemma cur_field_calm {A} (g : proc -> A) held k : busy held k ->
  exists k1, cur_field g k = Ret (g (pt_proc (k_pt k) p)) k1 /\ busy held k1 /\ k_pt k1 = k_pt k.
Proof.
  intros Hc. pose proof Hc as []. eexists. split; [|split].
  - unfold cur_field. rewrite (bind_Ret _ _ _ _ _ (myproc_run k bs_wf0)), bs_cur0. cbn [nonnull].
    by rewrite (bind_Ret _ _ _ _ _ (pget_run p _)).
  - eapply busy_hw; [exact Hc|by apply settled_wf|by rewrite my_set_my, proc_settled|done|].
    intros lk Hlk. destruct (bs_held0 lk Hlk). split; [done|]. by rewrite my_set_my, ncli_settled.
  - done.
Qed.

Lemma wakeup_busy ch held k : held <> Some Lptable -> busy held k ->
  exists k1, wakeup ch k = Ret tt k1 /\ busy held k1.
Proof.
  intros Hne Hc. pose proof Hc as []. unfold wakeup.
  assert (lk_locked (hw_locks (k_hw k) Lptable) = false) as Hfree by (by rewrite bs_free0).
  rewrite (bind_Ret _ _ _ _ _ (kacquire_run k bs_wf0 Hfree)). set (k1 := set_khw _ k).
  destruct (wakeup_quiet (k_pt k1) ch bs_good0) as (t & E & [Hg Hr] & Hu).
  rewrite (bind_Ret _ _ _ _ _ (on_pt_Ret _ _ _ _ E)).
  destruct (wf_my _ bs_wf0) as [Hn Hi]. assert (holds (k_hw (set_k_pt t k1))) as Hh by (by apply locked_holds).
  eexists. split; [by apply krelease_run|].
  assert (Sched.runs t p) as Hrt by (by apply Hr).
  assert (p_pid (pt_proc t p) = pid) as Hpid.
  { rewrite <- bs_pid0. apply (f_equal p_pid (x := unlinked (pt_proc t p)) (y := unlinked (pt_proc (k_pt k) p))).
    apply Hu. change (k_pt k1) with (k_pt k). unfold Sched.runs in bs_run0. by rewrite bs_run0. }
  change (k_hw (set_k_pt t k1)) with (locked_hw (k_hw k)).
  assert (released_hw (locked_hw (k_hw k)) = set_my (settled (my (k_hw k))) (k_hw k)) as Eh.
  { unfold released_hw, locked_hw. rewrite my_set_lock, my_set_my, popped_pushed by done.
    pose proof (bs_free0 Lptable Hne) as Hl. destruct (k_hw k). unfold set_lock, set_my, my. simpl in *.
    by rewrite !upd_upd, upd_id. }
  rewrite Eh. split; change (k_hw (set_khw ?h _)) with h; rewrite ?my_set_my, ?proc_settled, ?ncli_settled;
    try done. by apply settled_wf.
Qed.

(** ** Runs *)

(** [m] returns; it starts with spin lock [h] held and ends with [h']. *)
Definition runs_in {I A} (h h' : option lockid) (m : M (world I) A) (Q : A -> fstate I -> Prop) (f : fstate I) : Prop :=
  forall k, busy h k -> exists a k' f', m (k, f) = Ret a (k', f') /\ busy h' k' /\ Q a f'.
Definition runs {I A} (m : M (world I) A) (Q : A -> fstate I -> Prop) (f : fstate I) : Prop := runs_in None None m Q f.

Section rules.
Context {I : Type}.
Implicit Types (f : fstate I).

Lemma runs_ret {A} h (a : A) (Q : A -> fstate I -> Prop) f : Q a f -> runs_in h h (ret a) Q f.
Proof. intros HQ k Hk. by exists a, k, f. Qed.

Lemma runs_bind {A B} h h1 h' (m : M (world I) A) (g : A -> M (world I) B) Q f :
  runs_in h h1 m (fun a f' => runs_in h1 h' (g a) Q f') f -> runs_in h h' (bind m g) Q f.
Proof.
  intros Hm k Hk. destruct (Hm k Hk) as (a & k1 & f1 & E & Hk1 & Hg).
  destruct (Hg k1 Hk1) as (b & k2 & f2 & E2 & Hk2 & HQ). exists b, k2, f2.
  by rewrite (bind_Ret _ _ _ _ _ E).
Qed.

Lemma runs_mono {A} h h' (m : M (world I) A) (Q Q' : A -> fstate I -> Prop) f :
  runs_in h h' m Q f -> (forall a f', Q a f' -> Q' a f') -> runs_in h h' m Q' f.
Proof. intros Hm HQ k Hk. destruct (Hm k Hk) as (a & k1 & f1 & E & Hk1 & HQ1). exists a, k1, f1. auto. Qed.

Lemma runs_gets {A} h (g : fstate I -> A) Q f : Q (g f) f -> runs_in h h (onf (gets g)) Q f.
Proof. intros HQ k Hk. exists (g f), k, f. by destruct f. Qed.
Lemma runs_modify h (g : fstate I -> fstate I) (Q : unit -> fstate I -> Prop) f :
  Q tt (g f) -> runs_in h h (onf (modify g)) Q f.
Proof. intros HQ k Hk. by exists tt, k, (g f). Qed.
Lemma runs_when h b (m : M (world I) unit) Q f :
  (b = true -> runs_in h h m Q f) -> (b = false -> Q tt f) -> runs_in h h (when b m) Q f.
Proof. intros H1 H2. destruct b; [by apply H1|]. by apply runs_ret, H2. Qed.

(** An invariant of the elements done so far. *)
Lemma runs_foreach {A} h (l : list A) (g : A -> M (world I) unit) (P : list A -> fstate I -> Prop) f :
  P [] f ->
  (forall l1 x l2 f', l = l1 ++ x :: l2 -> P l1 f' -> runs_in h h (g x) (fun _ => P (l1 ++ [x])) f') ->
  runs_in h h (foreach l g) (fun _ => P l) f.
Proof.
  intros H0 Hstep.
  enough (forall l2 l1 f', l = l1 ++ l2 -> P l1 f' -> runs_in h h (foreach l2 g) (fun _ => P l) f') as H by by apply (H l []).
  induction l2 as [|x l2 IH]; intros l1 f' El HP; simpl.
  - apply runs_ret. by rewrite El, app_nil_r.
  - eapply runs_bind, runs_mono; [by eapply Hstep|]. intros ? f1 H1. eapply IH; [|exact H1].
    by rewrite El, <- app_assoc.
Qed.

(** Calls on the kernel state alone. *)
Lemma runs_onk {A} h h' (m : M kst A) (R : A -> Prop) (Q : A -> fstate I -> Prop) f :
  (forall k, busy h k -> exists a k', m k = Ret a k' /\ busy h' k' /\ R a) ->
  (forall a, R a -> Q a f) -> runs_in h h' (onk m) Q f.
Proof.
  intros Hm HQ k Hk. destruct (Hm k Hk) as (a & k' & E & Hk' & HR). exists a, k', f.
  split; [unfold onk, zoom; simpl; by rewrite E|]. auto.
Qed.

Lemma runs_wacquire lk (Q : unit -> fstate I -> Prop) f : Q tt f -> runs_in None (Some lk) (wacquire lk) Q f.
Proof.
  intros HQ. apply (runs_onk _ _ _ (fun _ => True)); [|by intros []].
  intros k Hk. destruct (acquire_calm lk k Hk) as (k1 & E & Hk1). by exists tt, k1.
Qed.
Lemma runs_wrelease lk (Q : unit -> fstate I -> Prop) f : Q tt f -> runs_in (Some lk) None (wrelease lk) Q f.
Proof.
  intros HQ. apply (runs_onk _ _ _ (fun _ => True)); [|by intros []].
  intros k Hk. destruct (release_busy lk k Hk) as (k1 & E & Hk1). by exists tt, k1.
Qed.
Lemma runs_wakeup ch h (Q : unit -> fstate I -> Prop) f : h <> Some Lptable ->
  Q tt f -> runs_in h h (onk (wakeup ch)) Q f.
Proof.
  intros Hh HQ. apply (runs_onk _ _ _ (fun _ => True)); [|by intros []].
  intros k Hk. destruct (wakeup_busy ch h k Hh Hk) as (k1 & E & Hk1). by exists tt, k1.
Qed.
Lemma runs_pid h (Q : Z -> fstate I -> Prop) f : Q pid f -> runs_in h h (onk (cur_field p_pid)) Q f.
Proof.
  intros HQ. apply (runs_onk _ _ _ (eq pid)); [|by intros ? <-].
  intros k Hk. destruct (cur_field_calm p_pid _ k Hk) as (k1 & E & Hk1 & _).
  rewrite (bs_pid _ _ Hk) in E. by exists pid, k1.
Qed.

(** ** Sleep locks *)

Lemma runs_acquiresleep l (Q : unit -> fstate I -> Prop) f : sl_locked (fs_sleep f l) = false ->
  Q tt (put_sleep f l (mkSleep true pid)) -> runs (acquiresleep l) Q f.
Proof.
  intros Hl HQ. unfold acquiresleep, acquiresleep_locked. eapply runs_bind, runs_wacquire.
  eapply runs_bind, runs_gets. rewrite Hl. eapply runs_bind, runs_modify.
  eapply runs_bind, runs_pid, runs_bind, runs_modify, runs_wrelease.
  unfold put_sleep in HQ. simpl. by rewrite upd_eq, upd_upd.
Qed.

Lemma runs_releasesleep l (Q : unit -> fstate I -> Prop) f :
  Q tt (put_sleep f l (mkSleep false 0)) -> runs (releasesleep l) Q f.
Proof.
  intros HQ. unfold releasesleep. eapply runs_bind, runs_wacquire. eapply runs_bind, runs_modify.
  eapply runs_bind, runs_modify. eapply runs_bind, runs_wakeup; [done|]. apply runs_wrelease.
  unfold put_sleep in HQ. simpl. by rewrite upd_eq, upd_upd.
Qed.

Lemma runs_holdingsleep l (Q : bool -> fstate I -> Prop) f : fs_sleep f l = mkSleep true pid ->
  Q true f -> runs (holdingsleep l) Q f.
Proof.
  intros Hl HQ. unfold holdingsleep. eapply runs_bind, runs_wacquire. eapply runs_bind, runs_gets.
  rewrite Hl. cbn [sl_locked sl_pid]. eapply runs_bind, runs_pid. eapply runs_bind, runs_wrelease, runs_ret.
  by rewrite Z.eqb_refl.
Qed.
End rules.

(** ** The parts of the file system *)

Implicit Types (f : fstate low).

Lemma runs_low_get {A} h (g : low -> A) Q f : Q (g (fs_low f)) f -> runs_in h h (onl (gets g)) Q f.
Proof. intros HQ k Hk. exists (g (fs_low f)), k, f. by destruct f. Qed.
Lemma runs_low_modify h (g : low -> low) (Q : unit -> fstate low -> Prop) f :
  Q tt (set_fs_low (g (fs_low f)) f) -> runs_in h h (onl (modify g)) Q f.
Proof. intros HQ k Hk. by exists tt, k, (set_fs_low (g (fs_low f)) f). Qed.

Definition put_buf f (b : nat) (x : buf) : fstate low :=
  set_fs_low (set_l_buf (upd (l_buf (fs_low f)) b x) (fs_low f)) f.
Definition put_log f (x : logst) : fstate low := set_fs_low (set_l_log x (fs_low f)) f.

Lemma runs_buf_get h b Q f : Q (l_buf (fs_low f) b) f -> runs_in h h (buf_get b) Q f.
Proof. apply (runs_low_get h (fun l => l_buf l b)). Qed.
Lemma runs_buf_upd h b g (Q : unit -> fstate low -> Prop) f :
  Q tt (put_buf f b (g (l_buf (fs_low f) b))) -> runs_in h h (buf_upd b g) Q f.
Proof. apply (runs_low_modify h (fun l => set_l_buf (upd (l_buf l) b (g (l_buf l b))) l)). Qed.
Lemma runs_log_get h Q f : Q (l_log (fs_low f)) f -> runs_in h h log_get Q f.
Proof. apply (runs_low_get h l_log). Qed.
Lemma runs_log_upd h g (Q : unit -> fstate low -> Prop) f :
  Q tt (put_log f (g (l_log (fs_low f)))) -> runs_in h h (log_upd g) Q f.
Proof. apply (runs_low_modify h (fun l => set_l_log (g (l_log l)) l)). Qed.
End calm.
