(* ===== verification/BufList.v ===== *)
(** * The list of buffers (bio.c)

    The buffers are linked in a circle through bcache.head, most recently used
    first.  [ring B L]: the circle holds the buffers [L] in this order. *)
From S2P Require Import Prelude Machine ProcQueue StringC Spinlock Kalloc Vm VmFrame Proc RunQueue ProcRun Sched UserMem Trap FsState Sleeplock Disk Bio FsLogic.

(** Consecutive elements point to each other. *)
Fixpoint linked (B : nat -> buf) (l : list nat) : Prop :=
  match l with
  | a :: ((b :: _) as r) => b_next (B a) = b /\ b_prev (B b) = a /\ linked B r
  | _ => True
  end.

Definition ring (B : nat -> buf) (L : list nat) : Prop := linked B (HEAD :: L ++ [HEAD]).

(** All of a buffer but its place in the list. *)
Definition unlink (x : buf) : buf := set_b_prev 0%nat (set_b_next 0%nat x).

Lemma linked_cons B a b l : linked B (a :: b :: l) <-> b_next (B a) = b /\ b_prev (B b) = a /\ linked B (b :: l).
Proof. done. Qed.

Lemma linked_app B l1 a l2 : linked B (l1 ++ a :: l2) <-> linked B (l1 ++ [a]) /\ linked B (a :: l2).
Proof.
  induction l1 as [|x [|y l1] IH].
  - simpl. tauto.
  - change ([x] ++ a :: l2) with (x :: a :: l2). rewrite linked_cons. simpl. tauto.
  - change ((x :: y :: l1) ++ a :: l2) with (x :: y :: (l1 ++ a :: l2)). rewrite linked_cons.
    change (y :: l1 ++ a :: l2) with ((y :: l1) ++ a :: l2). rewrite IH.
    change ((x :: y :: l1) ++ [a]) with (x :: y :: (l1 ++ [a])). rewrite linked_cons. tauto.
Qed.

(** The links of [l] depend on the next pointers of all but its last element and
    the prev pointers of all but its first. *)
Lemma linked_frame B B' a l z : linked B (a :: l ++ [z]) ->
  (forall x, x ∈ a :: l -> b_next (B' x) = b_next (B x)) ->
  (forall x, x ∈ l ++ [z] -> b_prev (B' x) = b_prev (B x)) -> linked B' (a :: l ++ [z]).
Proof.
  revert a. induction l as [|y l IH]; intros a Hl Hn Hp.
  - simpl in *. rewrite Hn, Hp by set_solver. naive_solver.
  - change (a :: (y :: l) ++ [z]) with (a :: y :: (l ++ [z])) in *. rewrite linked_cons in *.
    destruct Hl as (H1 & H2 & H3). rewrite Hn, Hp by set_solver. split_and!; [done..|].
    apply IH; [done|..]; intros x Hx; [apply Hn|apply Hp]; set_solver.
Qed.

Lemma linked_ext B B' l : (forall x, b_next (B' x) = b_next (B x) /\ b_prev (B' x) = b_prev (B x)) ->
  linked B l -> linked B' l.
Proof.
  intros H. induction l as [|x [|y l] IH]; [done..|]. rewrite !linked_cons. intros (H1 & H2 & H3).
  destruct (H x) as [-> _], (H y) as [_ ->]. auto.
Qed.

(** ** Searching the list *)

Section scan.
Context (p : nat) (pid : Z) (f : fstate low) (test : buf -> bool).
Let B : nat -> buf := l_buf (fs_low f).

Lemma scan_next h L : forall fuel a, linked B (a :: L ++ [HEAD]) -> HEAD ∉ L -> (length L < fuel)%nat ->
  runs_in p pid h h (scan fuel b_next test (b_next (B a))) (fun r f' => f' = f /\ r = find_first (fun b => test (B b)) L) f.
Proof.
  induction L as [|x L IH]; intros [|fuel] a Hl Hh Hf; simpl in Hf; try lia; cbn [scan].
  - destruct Hl as (-> & _). rewrite bool_decide_eq_true_2 by done. by apply runs_ret.
  - change (a :: (x :: L) ++ [HEAD]) with (a :: x :: (L ++ [HEAD])) in Hl. rewrite linked_cons in Hl.
    destruct Hl as (-> & _ & Hl). rewrite bool_decide_eq_false_2 by set_solver.
    eapply runs_bind, runs_buf_get. simpl. destruct (test (B x)) eqn:Et; fold B; rewrite Et.
    + by apply runs_ret.
    + apply IH; [done|set_solver|lia].
Qed.

Lemma scan_prev h L : forall fuel a, linked B (HEAD :: L ++ [a]) -> HEAD ∉ L -> (length L < fuel)%nat ->
  runs_in p pid h h (scan fuel b_prev test (b_prev (B a)))
    (fun r f' => f' = f /\ r = find_first (fun b => test (B b)) (reverse L)) f.
Proof.
  induction L as [|x L IH] using rev_ind; intros [|fuel] a Hl Hh Hf; rewrite ?length_app in Hf; simpl in Hf; try lia;
    cbn [scan].
  - destruct Hl as (_ & -> & _). rewrite bool_decide_eq_true_2 by done. by apply runs_ret.
  - rewrite <- app_assoc in Hl. change (HEAD :: L ++ [x] ++ [a]) with ((HEAD :: L) ++ x :: [a]) in Hl.
    apply linked_app in Hl as [Hl (_ & -> & _)]. rewrite bool_decide_eq_false_2 by set_solver.
    eapply runs_bind, runs_buf_get. rewrite reverse_snoc. simpl. fold B. destruct (test (B x)) eqn:Et.
    + by apply runs_ret.
    + apply IH; [done|set_solver|lia].
Qed.
End scan.

(** ** Moving a buffer to the front *)

Definition cut_buf (b : nat) (B : nat -> buf) : nat -> buf :=
  let B1 := upd B (b_next (B b)) (set_b_prev (b_prev (B b)) (B (b_next (B b)))) in
  upd B1 (b_prev (B1 b)) (set_b_next (b_next (B1 b)) (B1 (b_prev (B1 b)))).
Definition front_buf (b : nat) (B : nat -> buf) : nat -> buf :=
  let B1 := upd B b (set_b_next (b_next (B HEAD)) (B b)) in
  let B2 := upd B1 b (set_b_prev HEAD (B1 b)) in
  let B3 := upd B2 (b_next (B2 HEAD)) (set_b_prev b (B2 (b_next (B2 HEAD)))) in
  upd B3 HEAD (set_b_next b (B3 HEAD)).

Lemma unlink_upd (B : nat -> buf) i x j : unlink x = unlink (B i) -> unlink (upd B i x j) = unlink (B j).
Proof. intros E. rewrite upd_case. case_decide; by subst. Qed.
Lemma unlink_cut b B j : unlink (cut_buf b B j) = unlink (B j).
Proof. unfold cut_buf. rewrite !unlink_upd; done. Qed.
Lemma unlink_front b B j : unlink (front_buf b B j) = unlink (B j).
Proof. unfold front_buf. rewrite !unlink_upd; done. Qed.

(** Cutting out [b] between [a] and [c]. *)
Lemma buf_cut_links P a b c S (B : nat -> buf) : linked B (P ++ a :: b :: c :: S) ->
  a <> b -> c <> b ->
  let B' := cut_buf b B in
  b_next (B' a) = c /\ b_prev (B' c) = a /\
  (forall x, x <> a -> b_next (B' x) = b_next (B x)) /\ (forall x, x <> c -> b_prev (B' x) = b_prev (B x)).
Proof.
  intros [_ (H1 & H2 & H3 & H4 & _)]%linked_app Hab Hcb. unfold cut_buf. rewrite H3, H2. rewrite (upd_ne B c b) by done.
  rewrite H2, H3. clear H1 H2 H3 H4. split_and!.
  - by rewrite upd_eq.
  - rewrite upd_case. case_decide; subst; simpl; by rewrite upd_eq.
  - intros x Hx. rewrite upd_ne by done. rewrite upd_case. by case_decide; subst.
  - intros x Hx. rewrite upd_case. case_decide; subst; simpl; by rewrite upd_ne by done.
Qed.

Lemma ring_split_last (L : list nat) : exists P a, HEAD :: L = P ++ [a] /\
  (a = HEAD \/ a ∈ L) /\ (P = [] \/ exists P', P = HEAD :: P' /\ L = P' ++ [a]).
Proof.
  destruct L as [|x L _] using rev_ind; [exists [], HEAD; split_and!; auto|].
  exists (HEAD :: L), x. split_and!; [done|set_solver|eauto].
Qed.
Lemma ring_split_first (L : list nat) : exists c S, L ++ [HEAD] = c :: S /\
  (c = HEAD \/ c ∈ L) /\ (S = [] \/ exists L', S = L' ++ [HEAD] /\ L = c :: L').
Proof. destruct L as [|c L]; simpl; [exists HEAD, []; auto|]. exists c, (L ++ [HEAD]). split_and!; [done|set_solver|eauto]. Qed.

Lemma ring_cut B L1 b L2 : ring B (L1 ++ b :: L2) -> NoDup (L1 ++ b :: L2) -> HEAD ∉ L1 ++ b :: L2 ->
  ring (cut_buf b B) (L1 ++ L2).
Proof.
  intros Hr Hnd Hh. unfold ring in *. rewrite <- app_assoc in Hr.
  destruct (ring_split_last L1) as (P & a & EP & Ha & HP). destruct (ring_split_first L2) as (c & S & ES & Hc & HS).
  change (HEAD :: L1 ++ (b :: L2) ++ [HEAD]) with ((HEAD :: L1) ++ b :: (L2 ++ [HEAD])) in Hr.
  rewrite EP, ES, <- app_assoc in Hr. change (P ++ [a] ++ b :: c :: S) with (P ++ a :: b :: c :: S) in Hr.
  apply NoDup_app in Hnd as (Hn1 & Hd & Hn2). apply NoDup_cons in Hn2 as [Hb Hn2].
  assert (HEAD ∉ L1 /\ HEAD <> b /\ HEAD ∉ L2) as (H1 & H0 & H2) by (clear -Hh; set_solver).
  assert (a <> b) as Hab by (intros ->; destruct Ha as [|Ha]; [done|]; apply (Hd b Ha); by left).
  assert (c <> b) as Hcb by (intros ->; by destruct Hc as [|Hc]).
  destruct (buf_cut_links P a b c S B Hr Hab Hcb) as (E1 & E2 & F1 & F2).
  rewrite <- app_assoc. change (HEAD :: L1 ++ L2 ++ [HEAD]) with ((HEAD :: L1) ++ (L2 ++ [HEAD])).
  rewrite EP, ES, <- app_assoc. change (P ++ [a] ++ c :: S) with (P ++ a :: c :: S). apply linked_app in Hr as [Hr1 (_ & _ & _ & _ & Hr2)].
  apply linked_app. split; [|rewrite linked_cons; split_and!; [done..|]].
  - destruct HP as [->|(P' & -> & EL)]; [done|]. apply (linked_frame B); [done|..].
    + intros x Hx. apply F1. intros ->. rewrite EL in Hn1. apply NoDup_app in Hn1 as (_ & Hn & _).
      apply elem_of_cons in Hx as [->|Hx]; [apply H1; rewrite EL; set_solver +|]. apply (Hn a Hx). by left.
    + rewrite <- EL. intros x Hx. apply F2. intros ->. destruct Hc as [->|Hc]; [done|]. apply (Hd c Hx). by right.
  - destruct HS as [->|(L' & -> & EL)]; [done|]. apply (linked_frame B); [done|..].
    + rewrite <- EL. intros x Hx. apply F1. intros ->. destruct Ha as [->|Ha]; [done|]. apply (Hd a Ha). by right.
    + intros x Hx. apply F2. intros ->. rewrite EL in Hn2. apply NoDup_cons in Hn2 as [Hn2 _].
      apply elem_of_app in Hx as [Hx|Hx%list_elem_of_singleton]; [done|]. apply H2. rewrite EL, <- Hx. by left.
Qed.

Lemma ring_front B b L : ring B L -> NoDup L -> HEAD ∉ L -> b ∉ L -> b <> HEAD -> ring (front_buf b B) (b :: L).
Proof.
  intros Hr Hnd Hh Hb Hne. unfold ring in *. destruct (ring_split_first L) as (c & S & ES & Hc & HS).
  change (HEAD :: (b :: L) ++ [HEAD]) with (HEAD :: b :: (L ++ [HEAD])). rewrite ES in *. rewrite linked_cons in Hr. destruct Hr as (H1 & H2 & H3).
  assert (c <> b) as Hcb by (intros ->; by destruct Hc).
  set (B' := front_buf b B).
  assert (b_next (B' HEAD) = b /\ b_prev (B' b) = HEAD /\ b_next (B' b) = c /\ b_prev (B' c) = b /\
    (forall x, x <> HEAD -> x <> b -> b_next (B' x) = b_next (B x)) /\
    (forall x, x <> c -> x <> b -> b_prev (B' x) = b_prev (B x))) as (E1 & E2 & E3 & E4 & F1 & F2).
  { unfold B', front_buf. rewrite H1. rewrite !(upd_ne _ b HEAD) by done. rewrite H1.
    clear H1 H2 H3. split_and!.
    - by rewrite upd_eq.
    - rewrite (upd_ne _ HEAD), (upd_ne _ c), !upd_eq by done. done.
    - rewrite (upd_ne _ HEAD), (upd_ne _ c), !upd_eq by done. done.
    - rewrite upd_case. case_decide; subst; by rewrite upd_eq.
    - intros x Hx Hxb. rewrite upd_ne by done. rewrite upd_case. case_decide; subst; cbn [b_next b_prev set_b_prev set_b_next]; by rewrite !upd_ne by done.
    - intros x Hx Hxb. rewrite upd_case. case_decide; subst; cbn [b_next b_prev set_b_prev set_b_next]; by rewrite !upd_ne by done. }
  rewrite !linked_cons. split_and!; [done..|]. destruct HS as [->|(L' & -> & ->)]; [done|].
  apply NoDup_cons in Hnd as [Hnc Hnd]. apply not_elem_of_cons in Hh as [Hh1 Hh2], Hb as [Hb1 Hb2].
  apply (linked_frame B); [done|..]; intros x Hx.
  - apply F1; intros ->; apply elem_of_cons in Hx; naive_solver.
  - apply elem_of_app in Hx as [Hx|Hx%list_elem_of_singleton]; apply F2; congruence.
Qed.

(** [brelse] moves the buffer to the front. *)
Lemma ring_move B L1 b L2 : ring B (L1 ++ b :: L2) -> NoDup (L1 ++ b :: L2) -> HEAD ∉ L1 ++ b :: L2 ->
  ring (front_buf b (cut_buf b B)) (b :: L1 ++ L2).
Proof.
  intros Hr Hnd Hh. pose proof (ring_cut _ _ _ _ Hr Hnd Hh) as Hc. apply NoDup_app in Hnd as (Hn1 & Hd & Hn2).
  apply NoDup_cons in Hn2 as [Hb Hn2]. apply ring_front; [done|..].
  - apply NoDup_app. split_and!; [done| |done]. intros x Hx Hx2. apply (Hd x Hx). by right.
  - clear -Hh. set_solver.
  - intros [H|H]%elem_of_app; [|done]. apply (Hd b H). by left.
  - clear -Hh. set_solver.
Qed.
