(* ===== verification/Cache.v ===== *)
(** * What the buffer cache promises

    [cache f cont pin held] relates the buffers to three abstract things: [cont],
    the current contents of every block of the disk; [pin], the blocks whose
    contents only the cache has and must keep; [held], the buffers this process
    has locked.  [bread], [bwrite] and [brelse] are specified by their effect on
    them.  What a disk driver has to promise is the class [DiskOk]; memide.c is an
    instance. *)
From S2P Require Import Prelude Machine ProcQueue StringC Spinlock Kalloc Vm VmFrame Proc RunQueue ProcRun Sched UserMem Trap FsState Sleeplock Disk Bio FsLogic BufList.

Definition bufs_of (f : fstate low) : nat -> buf := l_buf (fs_low f).
Definition disk_of (f : fstate low) : Z -> block := l_disk (fs_low f).
Definition nblocks (f : fstate low) : Z := u32 (l_disksize (fs_low f)).

(** ** The driver *)

Definition wrote (f : fstate low) (b : nat) : fstate low :=
  let x := bufs_of f b in
  set_fs_low (set_l_writes (l_writes (fs_low f) ++ [(b_blockno x, b_data x)])
    (set_l_disk (upd (disk_of f) (b_blockno x) (b_data x))
      (set_l_buf (upd (bufs_of f) b (set_b_flags B_VALID x)) (fs_low f)))) f.
Definition fetched (f : fstate low) (b : nat) : fstate low :=
  put_buf f b (set_b_flags B_VALID (set_b_data (disk_of f (b_blockno (bufs_of f b))) (bufs_of f b))).

Class DiskOk `{BlockDev} := {
  iderw_write p pid f b (Q : unit -> fstate low -> Prop) :
    fs_sleep f (SLbuf b) = mkSleep true pid -> b_dev (bufs_of f b) = 1 ->
    0 <= b_blockno (bufs_of f b) < nblocks f -> b_flags (bufs_of f b) = Z.lor B_VALID B_DIRTY ->
    Q tt (wrote f b) -> runs p pid (iderw b) Q f;
  iderw_read p pid f b (Q : unit -> fstate low -> Prop) :
    fs_sleep f (SLbuf b) = mkSleep true pid -> b_dev (bufs_of f b) = 1 ->
    0 <= b_blockno (bufs_of f b) < nblocks f -> b_flags (bufs_of f b) = 0 ->
    Q tt (fetched f b) -> runs p pid (iderw b) Q f;
}.

Lemma put_buf_twice f b x y : put_buf (put_buf f b x) b y = put_buf f b y.
Proof. unfold put_buf. simpl. by rewrite upd_upd. Qed.
Lemma put_buf_at f b x : l_buf (fs_low (put_buf f b x)) b = x.
Proof. simpl. by rewrite upd_eq. Qed.

#[export] Instance memide_ok : @DiskOk memide.
Proof.
  split; intros p pid f b Q Hs Hd Hn Hf HQ; unfold iderw; simpl; unfold memide_rw.
  - eapply runs_bind, runs_holdingsleep; [done|]. cbn [negb]. eapply runs_bind, runs_buf_get.
    fold (bufs_of f). rewrite Hf, Hd. eapply runs_bind, runs_low_get. fold (nblocks f). simpl.
    rewrite Z.geb_leb, (proj2 (Z.leb_gt _ _)) by lia.
    eapply runs_bind. eapply runs_bind, runs_buf_upd. apply runs_low_modify. apply runs_buf_upd.
    fold (bufs_of f). unfold put_buf. simpl. rewrite !upd_eq, upd_upd. fold (bufs_of f). simpl.
    rewrite Hf. exact HQ.
  - eapply runs_bind, runs_holdingsleep; [done|]. cbn [negb]. eapply runs_bind, runs_buf_get.
    fold (bufs_of f). rewrite Hf, Hd. eapply runs_bind, runs_low_get. fold (nblocks f). simpl.
    rewrite Z.geb_leb, (proj2 (Z.leb_gt _ _)) by lia.
    eapply runs_bind. eapply runs_bind, runs_low_get. apply runs_buf_upd. apply runs_buf_upd.
    rewrite put_buf_twice, put_buf_at. fold (bufs_of f). simpl. rewrite Hf. exact HQ.
Qed.

(** ** The invariant *)

Definition valid (x : buf) : bool := has (b_flags x) B_VALID.
Definition dirty (x : buf) : bool := has (b_flags x) B_DIRTY.

Section cache.
Context (p : nat) (pid : Z).

(** The fields that say what a buffer holds. *)
Record buf_ok (f : fstate low) (cont : Z -> block) (pin : list Z) (held : list nat) (b : nat) (x : buf) : Prop := {
  bo_flags : b_flags x = 0 \/ b_flags x = B_VALID \/ b_flags x = Z.lor B_VALID B_DIRTY;
  bo_held : b ∈ held -> b_refcnt x = 1 /\ fs_sleep f (SLbuf b) = mkSleep true pid /\ b_dev x = 1;
  bo_free : b ∉ held -> b_refcnt x = 0 /\ sl_locked (fs_sleep f (SLbuf b)) = false;
  bo_data : b_dev x = 1 -> valid x = true /\ b_data x = cont (b_blockno x);
  bo_dirty : dirty x = true -> b_dev x = 1 /\ b_blockno x ∈ pin;
  bo_range : b_dev x = 1 -> 0 <= b_blockno x < nblocks f;
}.

Record cache (f : fstate low) (cont : Z -> block) (pin : list Z) (held : list nat) : Prop := {
  ch_ring : exists L, ring (bufs_of f) L /\ L ≡ₚ bufs;
  ch_buf b : b ∈ bufs -> buf_ok f cont pin held b (bufs_of f b);
  ch_uniq b1 b2 : b1 ∈ bufs -> b2 ∈ bufs -> b_dev (bufs_of f b1) = 1 -> b_dev (bufs_of f b2) = 1 ->
    b_blockno (bufs_of f b1) = b_blockno (bufs_of f b2) -> b1 = b2;
  ch_held : NoDup held /\ forall b, b ∈ held -> b ∈ bufs;
  ch_pin : NoDup pin /\ forall n, n ∈ pin ->
    exists b, b ∈ bufs /\ b_dev (bufs_of f b) = 1 /\ b_blockno (bufs_of f b) = n /\ dirty (bufs_of f b) = true;
  ch_clean n : n ∉ pin -> (forall b, b ∈ held -> b_blockno (bufs_of f b) <> n) -> cont n = disk_of f n;
}.

(** The parts of the state the cache does not change. *)
Record rest_same (f f' : fstate low) : Prop := {
  rs_file : fs_file f' = fs_file f;
  rs_pipe : fs_pipe f' = fs_pipe f;
  rs_inode_lock i : fs_sleep f' (SLinode i) = fs_sleep f (SLinode i);
  rs_log : l_log (fs_low f') = l_log (fs_low f);
  rs_inode : l_inode (fs_low f') = l_inode (fs_low f);
  rs_sb : l_sb (fs_low f') = l_sb (fs_low f);
  rs_size : l_disksize (fs_low f') = l_disksize (fs_low f);
}.
Definition disk_same (f f' : fstate low) : Prop :=
  l_disk (fs_low f') = l_disk (fs_low f) /\ l_writes (fs_low f') = l_writes (fs_low f).

Lemma rest_refl f : rest_same f f.
Proof. done. Qed.
Lemma rest_trans f1 f2 f3 : rest_same f1 f2 -> rest_same f2 f3 -> rest_same f1 f3.
Proof. intros [] []. split; congruence. Qed.

Lemma bufs_head : HEAD ∉ bufs.
Proof. unfold bufs, HEAD. rewrite elem_of_seq. lia. Qed.
Lemma bufs_NoDup : NoDup bufs.
Proof. apply NoDup_seq. Qed.
Lemma bufs_len : length bufs = 30%nat.
Proof. done. Qed.

Lemma dirty_valid f cont pin held b : cache f cont pin held -> b ∈ bufs -> dirty (bufs_of f b) = true ->
  b_flags (bufs_of f b) = Z.lor B_VALID B_DIRTY.
Proof.
  intros Hc Hb Hd. unfold dirty in Hd. destruct (bo_flags _ _ _ _ _ _ (ch_buf _ _ _ _ Hc b Hb)) as [E|[E|E]];
    rewrite E in Hd; done.
Qed.
Lemma flags_cases f cont pin held b : cache f cont pin held -> b ∈ bufs ->
  (b_flags (bufs_of f b) = 0 /\ valid (bufs_of f b) = false /\ dirty (bufs_of f b) = false) \/
  (b_flags (bufs_of f b) = B_VALID /\ valid (bufs_of f b) = true /\ dirty (bufs_of f b) = false) \/
  (b_flags (bufs_of f b) = Z.lor B_VALID B_DIRTY /\ valid (bufs_of f b) = true /\ dirty (bufs_of f b) = true).
Proof.
  intros Hc Hb. unfold valid, dirty. destruct (bo_flags _ _ _ _ _ _ (ch_buf _ _ _ _ Hc b Hb)) as [E|[E|E]]; rewrite E; auto.
Qed.

(** A buffer is free unless it is held or dirty, so there is one while fewer than
    NBUF are. *)
Lemma free_buffer f cont pin held L : cache f cont pin held -> L ≡ₚ bufs -> (length held + length pin < NBUF)%nat ->
  exists b, find_first (fun b => (b_refcnt (bufs_of f b) =? 0) && negb (dirty (bufs_of f b))) (reverse L) = Some b.
Proof.
  intros Hc HL Hn. destruct (find_first _ (reverse L)) as [b|] eqn:E; [by exists b|]. exfalso.
  rewrite find_first_None in E. set (D := filter (fun b => dirty (bufs_of f b) = true) bufs).
  assert (bufs ⊆ held ++ D) as Hsub.
  { intros b Hb. specialize (E b). rewrite elem_of_reverse, HL in E. specialize (E Hb).
    apply elem_of_app. destruct (decide (b ∈ held)) as [|Hh]; [by left|right]. apply list_elem_of_filter. split; [|done].
    destruct (bo_free _ _ _ _ _ _ (ch_buf _ _ _ _ Hc b Hb) Hh) as [Hr _]. rewrite Hr in E. by destruct (dirty _). }
  assert (length D <= length pin)%nat as HD.
  { rewrite <- (length_fmap (fun b => b_blockno (bufs_of f b)) D). apply submseteq_length, NoDup_submseteq.
    - apply NoDup_fmap_2_strong; [|apply NoDup_filter, bufs_NoDup].
      intros b1 b2 [Hd1 H1]%list_elem_of_filter [Hd2 H2]%list_elem_of_filter Eb.
      apply (ch_uniq _ _ _ _ Hc); try done;
        [by apply (bo_dirty _ _ _ _ _ _ (ch_buf _ _ _ _ Hc b1 H1))|by apply (bo_dirty _ _ _ _ _ _ (ch_buf _ _ _ _ Hc b2 H2))].
    - intros n (b & -> & [Hd Hb]%list_elem_of_filter)%list_elem_of_fmap.
      by apply (bo_dirty _ _ _ _ _ _ (ch_buf _ _ _ _ Hc _ Hb)). }
  assert (length bufs <= length (held ++ D))%nat as Hlen by (apply submseteq_length, NoDup_submseteq; [apply bufs_NoDup|done]).
  rewrite bufs_len, length_app in Hlen. unfold NBUF in Hn. lia.
Qed.

(** Changing one buffer and its lock. *)
Lemma cache_put f f' cont pin held cont' pin' held' b x : cache f cont pin held -> b ∈ bufs ->
  bufs_of f' = upd (bufs_of f) b x ->
  b_next x = b_next (bufs_of f b) -> b_prev x = b_prev (bufs_of f b) ->
  (forall b', b' <> b -> fs_sleep f' (SLbuf b') = fs_sleep f (SLbuf b')) -> nblocks f' = nblocks f ->
  buf_ok f' cont' pin' held' b x -> b_dev x = 1 ->
  (forall b', b' ∈ bufs -> b' <> b -> b_dev (bufs_of f b') = 1 -> b_blockno (bufs_of f b') <> b_blockno x) ->
  (dirty (bufs_of f b) = true -> b_blockno (bufs_of f b) = b_blockno x) ->
  (forall n, n <> b_blockno x -> cont' n = cont n /\ (n ∈ pin' <-> n ∈ pin)) ->
  NoDup pin' -> (b_blockno x ∈ pin' -> dirty x = true) ->
  NoDup held' -> (forall b', b' <> b -> b' ∈ held' <-> b' ∈ held) ->
  (forall n, n ∉ pin' -> (forall b', b' ∈ held' -> b_blockno (bufs_of f' b') <> n) -> cont' n = disk_of f' n) ->
  cache f' cont' pin' held'.
Proof.
  intros Hc Hb HB Hnx Hpv Hsl Hnb Hx Hdx Hun Hdi Hco Hp1 Hp2 Hh1 Hh2 Hcl.
  assert (forall b', b' <> b -> bufs_of f' b' = bufs_of f b') as Hne by (intros b' ?; rewrite HB; by apply upd_ne).
  assert (bufs_of f' b = x) as He by (rewrite HB; apply upd_eq).
  split.
  - destruct (ch_ring _ _ _ _ Hc) as (L & Hr & HL). exists L. split; [|done].
    apply (linked_ext (bufs_of f)); [|done]. intros y. rewrite HB, upd_case. case_decide; by subst.
  - intros b' Hb'. destruct (decide (b' = b)) as [->|Hn]; [by rewrite He|]. rewrite Hne by done.
    destruct (ch_buf _ _ _ _ Hc b' Hb') as [H1 H2 H3 H4 H5 H6].
    assert (b_dev (bufs_of f b') = 1 -> b_blockno (bufs_of f b') <> b_blockno x) as Hnb' by (intros; by apply Hun).
    split; [done|..].
    + rewrite Hh2, Hsl by done. done.
    + rewrite Hh2, Hsl by done. done.
    + intros Hd. destruct (Hco _ (Hnb' Hd)) as [-> _]. auto.
    + intros Hd. destruct (H5 Hd) as [H7 H8]. split; [done|]. by apply (Hco _ (Hnb' H7)).
    + by rewrite Hnb.
  - intros b1 b2 Hb1 Hb2. rewrite HB, !upd_case. repeat case_decide; subst; intros E1 E2 E; try done.
    + exfalso. by apply (Hun b2 Hb2).
    + exfalso. by apply (Hun b1 Hb1).
    + by apply (ch_uniq _ _ _ _ Hc).
  - split; [done|]. intros b' Hb'. destruct (decide (b' = b)) as [->|Hn]; [done|]. apply Hh2 in Hb'; [|done].
    by apply (ch_held _ _ _ _ Hc).
  - split; [done|]. intros n Hn. destruct (decide (n = b_blockno x)) as [->|Hnx'].
    + exists b. rewrite He. auto.
    + apply (Hco n Hnx') in Hn. destruct (proj2 (ch_pin _ _ _ _ Hc) n Hn) as (b' & H1 & H2 & H3 & H4).
      assert (b' <> b) by (intros ->; apply Hnx'; rewrite <- H3; auto). exists b'. by rewrite Hne.
  - done.
Qed.

(** Moving buffers in the list changes nothing else. *)
Lemma cache_links f f' cont pin held L : cache f cont pin held ->
  (forall b, unlink (bufs_of f' b) = unlink (bufs_of f b)) -> ring (bufs_of f') L -> L ≡ₚ bufs ->
  fs_sleep f' = fs_sleep f -> nblocks f' = nblocks f -> disk_of f' = disk_of f -> cache f' cont pin held.
Proof.
  intros Hc Hu Hr HL Hs Hn Hd.
  assert (forall b, b_flags (bufs_of f' b) = b_flags (bufs_of f b) /\ b_dev (bufs_of f' b) = b_dev (bufs_of f b) /\
    b_blockno (bufs_of f' b) = b_blockno (bufs_of f b) /\ b_refcnt (bufs_of f' b) = b_refcnt (bufs_of f b) /\
    b_data (bufs_of f' b) = b_data (bufs_of f b)) as Hf.
  { intros b. specialize (Hu b). split_and!; [by apply (f_equal b_flags) in Hu|by apply (f_equal b_dev) in Hu
      |by apply (f_equal b_blockno) in Hu|by apply (f_equal b_refcnt) in Hu|by apply (f_equal b_data) in Hu]. }
  split.
  - by exists L.
  - intros b Hb. destruct (Hf b) as (E1 & E2 & E3 & E4 & E5).
    destruct (ch_buf _ _ _ _ Hc b Hb) as [H1 H2 H3 H4 H5 H6]. unfold valid, dirty in *.
    split; unfold valid, dirty; by rewrite ?E1, ?E2, ?E3, ?E4, ?E5, ?Hs, ?Hn.
  - intros b1 b2. destruct (Hf b1) as (_ & -> & -> & _), (Hf b2) as (_ & -> & -> & _). apply Hc.
  - apply Hc.
  - split; [apply Hc|]. intros n Hn'. destruct (proj2 (ch_pin _ _ _ _ Hc) n Hn') as (b & Hb).
    exists b. destruct (Hf b) as (E1 & -> & -> & _). unfold dirty in *. by rewrite E1.
  - intros n Hn' Hh. rewrite Hd. apply (ch_clean _ _ _ _ Hc); [done|]. intros b Hb. destruct (Hf b) as (_ & _ & <- & _). auto.
Qed.

(** ** bread *)

Record got (f : fstate low) (cont : Z -> block) (pin : list Z) (held : list nat) (n : Z) (b : nat) (f' : fstate low) : Prop := {
  got_in : b ∈ bufs;
  got_new : b ∉ held;
  got_cache : cache f' cont pin (b :: held);
  got_block : b_blockno (bufs_of f' b) = n;
  got_rest : rest_same f f';
  got_disk : disk_same f f';
  got_held b' : b' ∈ held -> bufs_of f' b' = bufs_of f b';
}.

Section bread.
Context `{DiskOk} (f : fstate low) (cont : Z -> block) (pin : list Z) (held : list nat) (n : Z).
Hypothesis Hc : cache f cont pin held.
Hypothesis Hn : 0 <= n < nblocks f.
Hypothesis Hnh : forall b, b ∈ held -> b_blockno (bufs_of f b) <> n.

Local Notation B := (bufs_of f).
Definition lock_buf (f : fstate low) (b : nat) (x : buf) : fstate low :=
  put_sleep (put_buf f b x) (SLbuf b) (mkSleep true pid).

Lemma lock_buf_rest b x : rest_same f (lock_buf f b x) /\ disk_same f (lock_buf f b x).
Proof. by split. Qed.

(** The block is in the cache. *)
Lemma got_cached b : b ∈ bufs -> b_dev (B b) = 1 -> b_blockno (B b) = n ->
  got f cont pin held n b (lock_buf f b (set_b_refcnt 1 (B b))).
Proof.
  intros Hb Hd Hbn. assert (b ∉ held) as Hh by (intros Hh; by apply (Hnh b)).
  destruct (lock_buf_rest b (set_b_refcnt 1 (B b))) as [Hr Hds].
  destruct (ch_buf _ _ _ _ Hc b Hb) as [H1 H2 H3 H4 H5 H6].
  split; try done.
  - eapply cache_put; try done.
    + intros b' Hne. simpl. by rewrite upd_ne by congruence.
    + split; try done; [intros _; simpl; by rewrite upd_eq|]. intros Hx. exfalso. apply Hx. by left.
    + intros b' Hb' Hne Hd' E. by apply Hne, (ch_uniq _ _ _ _ Hc).
    + apply Hc.
    + simpl. rewrite Hbn. intros Hp. destruct (proj2 (ch_pin _ _ _ _ Hc) n Hp) as (b' & Hb' & Hd' & Hn' & Hdy).
      assert (b' = b) as -> by (apply (ch_uniq _ _ _ _ Hc); try done; by rewrite Hn', <- Hbn). done.
    + apply NoDup_cons. split; [done|apply Hc].
    + intros b' Hne. rewrite elem_of_cons. naive_solver.
    + intros m Hm Hh'. apply (ch_clean _ _ _ _ Hc); [done|]. intros b' Hb' E. apply (Hh' b'); [by right|].
      unfold bufs_of. simpl. rewrite upd_ne by (intros ->; done). done.
  - unfold bufs_of. simpl. by rewrite upd_eq.
  - intros b' Hb'. unfold bufs_of. simpl. rewrite upd_ne; [done|]. intros ->. done.
Qed.

(** A free buffer takes the block. *)
Lemma got_recycled b : b ∈ bufs -> b_refcnt (B b) = 0 -> dirty (B b) = false ->
  (forall b', b' ∈ bufs -> b_dev (B b') = 1 -> b_blockno (B b') <> n) ->
  got f cont pin held n b
    (lock_buf f b (mkBuf B_VALID 1 n 1 (b_prev (B b)) (b_next (B b)) (b_qnext (B b)) (disk_of f n))).
Proof.
  intros Hb Hrc Hdy Hno. destruct (ch_buf _ _ _ _ Hc b Hb) as [H1 H2 H3 H4 H5 H6].
  assert (b ∉ held) as Hh by (intros Hh; destruct (H2 Hh); lia).
  assert (n ∉ pin) as Hp.
  { intros Hp. destruct (proj2 (ch_pin _ _ _ _ Hc) n Hp) as (b' & Hb' & Hd' & Hn' & _). by apply (Hno b'). }
  set (x := mkBuf _ _ _ _ _ _ _ _). destruct (lock_buf_rest b x) as [Hr Hds]. split; try done.
  - eapply cache_put; try done.
    + intros b' Hne. simpl. by rewrite upd_ne by congruence.
    + split; try done; simpl; [auto|..].
      * intros _. by rewrite upd_eq.
      * intros Hx. exfalso. apply Hx. by left.
      * intros _. split; [done|]. symmetry. by apply (ch_clean _ _ _ _ Hc).
    + intros b' Hb' _. apply (Hno b' Hb').
    + congruence.
    + apply Hc.
    + apply NoDup_cons. split; [done|apply Hc].
    + intros b' Hne. rewrite elem_of_cons. naive_solver.
    + intros m Hm Hh'. apply (ch_clean _ _ _ _ Hc); [done|]. intros b' Hb' E. apply (Hh' b'); [by right|].
      unfold bufs_of. simpl. rewrite upd_ne by (intros ->; done). done.
  - unfold bufs_of. simpl. by rewrite upd_eq.
  - intros b' Hb'. unfold bufs_of. simpl. rewrite upd_ne; [done|]. intros ->. done.
Qed.

Lemma lock_free b : b ∈ bufs -> b ∉ held -> sl_locked (fs_sleep f (SLbuf b)) = false /\ b_refcnt (B b) = 0.
Proof. intros Hb Hh. by destruct (bo_free _ _ _ _ _ _ (ch_buf _ _ _ _ Hc b Hb) Hh). Qed.

Lemma runs_bread (Q : nat -> fstate low -> Prop) : n ∈ pin \/ (length held + length pin < NBUF)%nat ->
  (forall b f', got f cont pin held n b f' -> Q b f') -> runs p pid (bread 1 n) Q f.
Proof.
  intros Hroom HQ. destruct (ch_ring _ _ _ _ Hc) as (L & Hr & HL).
  assert (HEAD ∉ L) as Hh by (rewrite HL; apply bufs_head).
  assert (length L < S NBUF)%nat as Hlen by (rewrite HL, bufs_len; unfold NBUF; lia).
  assert (forall b, find_first (fun b => (b_dev (B b) =? 1) && (b_blockno (B b) =? n)) L = Some b ->
    b ∈ bufs /\ b_dev (B b) = 1 /\ b_blockno (B b) = n /\ b ∉ held) as Hfound.
  { intros b [Hb Ht]%find_first_elem. rewrite HL in Hb. bool_to_prop. split_and!; [done..|]. intros Hx. by apply (Hnh b). }
  unfold bread, bget. eapply runs_bind, runs_bind, runs_wacquire, runs_bind, runs_buf_get, runs_bind, runs_mono;
    [by apply (scan_next p pid f _ _ L)|]. intros r f' [-> ->]. fold B.
  destruct (find_first _ L) as [b|] eqn:E.
  - destruct (Hfound b eq_refl) as (Hb & Hd & Hbn & Hbh). destruct (lock_free b Hb Hbh) as [Hs Hrc].
    eapply runs_bind, runs_buf_upd, runs_bind, runs_wrelease, runs_bind, runs_acquiresleep; [done|].
    apply runs_ret. fold B. rewrite Hrc. change (u32 (0 + 1)) with 1. fold (lock_buf f b (set_b_refcnt 1 (B b))).
    eapply runs_bind, runs_buf_get. simpl. rewrite upd_eq. simpl.
    destruct (bo_data _ _ _ _ _ _ (ch_buf _ _ _ _ Hc b Hb) Hd) as [Hv _]. unfold valid in Hv. rewrite Hv.
    eapply runs_bind, runs_ret, runs_ret. by apply HQ, got_cached.
  - rewrite find_first_None in E. assert (forall b', b' ∈ bufs -> b_dev (B b') = 1 -> b_blockno (B b') <> n) as Hno.
    { intros b' Hb' Hd Hbn. specialize (E b'). rewrite HL, Hd, Hbn, !Z.eqb_refl in E. by specialize (E Hb'). }
    destruct Hroom as [Hp|Hroom].
    { destruct (proj2 (ch_pin _ _ _ _ Hc) n Hp) as (b' & Hb' & Hd' & Hn' & _). exfalso. by apply (Hno b'). }
    eapply runs_bind, runs_buf_get, runs_bind, runs_mono; [by apply (scan_prev p pid f _ _ L)|]. intros r f' [-> ->].
    destruct (free_buffer f cont pin held L Hc HL Hroom) as (b & Ef). unfold dirty in Ef. fold B. rewrite Ef.
    apply find_first_elem in Ef as [Hb Ht]. rewrite elem_of_reverse, HL in Hb. bool_to_prop.
    assert (b ∉ held) as Hbh.
    { intros Hx. destruct (bo_held _ _ _ _ _ _ (ch_buf _ _ _ _ Hc b Hb) Hx). lia. }
    destruct (lock_free b Hb Hbh) as [Hs Hrc].
    eapply runs_bind, runs_buf_upd, runs_bind, runs_buf_upd, runs_bind, runs_buf_upd, runs_bind, runs_buf_upd.
    eapply runs_bind, runs_wrelease, runs_bind, runs_acquiresleep; [done|]. apply runs_ret.
    rewrite !put_buf_twice, !put_buf_at. set (x := set_b_refcnt 1 _). fold (lock_buf f b x).
    eapply runs_bind, runs_buf_get. unfold lock_buf at 1. simpl. rewrite upd_eq. cbn [b_flags set_b_flags].
    eapply runs_bind, (iderw_read p pid).
    + simpl. by rewrite upd_eq.
    + unfold bufs_of. simpl. by rewrite upd_eq.
    + unfold bufs_of. simpl. by rewrite upd_eq.
    + unfold bufs_of. simpl. by rewrite upd_eq.
    + apply runs_ret, HQ. replace (fetched (lock_buf f b x) b) with
        (lock_buf f b (mkBuf B_VALID 1 n 1 (b_prev (B b)) (b_next (B b)) (b_qnext (B b)) (disk_of f n)));
        [by apply got_recycled|].
      unfold fetched, lock_buf, put_buf, put_sleep, bufs_of, disk_of. simpl. by rewrite upd_eq, upd_upd.
Qed.
End bread.

(** ** Held buffers *)

Definition blocks_kept (held : list nat) (f f' : fstate low) : Prop :=
  forall b, b ∈ held -> b_blockno (bufs_of f' b) = b_blockno (bufs_of f b).

Section held.
Context (f : fstate low) (cont : Z -> block) (pin : list Z) (held : list nat) (b : nat).
Hypothesis Hc : cache f cont pin held.
Hypothesis Hb : b ∈ held.
Local Notation B := (bufs_of f).
Local Notation n := (b_blockno (bufs_of f b)).

Lemma held_in : b ∈ bufs.
Proof. by apply (ch_held _ _ _ _ Hc). Qed.
Lemma held_ok : buf_ok f cont pin held b (B b).
Proof. apply (ch_buf _ _ _ _ Hc), held_in. Qed.
Lemma held_dev : b_dev (B b) = 1.
Proof. by apply (bo_held _ _ _ _ _ _ held_ok). Qed.
Lemma held_data : b_data (B b) = cont n.
Proof. apply (bo_data _ _ _ _ _ _ held_ok), held_dev. Qed.
Lemma held_range : 0 <= n < nblocks f.
Proof. apply (bo_range _ _ _ _ _ _ held_ok), held_dev. Qed.
Lemma held_lock : fs_sleep f (SLbuf b) = mkSleep true pid.
Proof. by apply (bo_held _ _ _ _ _ _ held_ok). Qed.
Lemma held_unique b' : b' ∈ bufs -> b_dev (B b') = 1 -> b_blockno (B b') = n -> b' = b.
Proof. intros. apply (ch_uniq _ _ _ _ Hc); try done; [apply held_in|apply held_dev]. Qed.
Lemma held_pin : n ∈ pin -> dirty (B b) = true.
Proof.
  intros Hp. destruct (proj2 (ch_pin _ _ _ _ Hc) n Hp) as (b' & Hb' & Hd & Hn & Hdy).
  by rewrite (held_unique b' Hb' Hd Hn) in Hdy.
Qed.

(** A change of the buffer's flags and data, and of the disk at its block. *)
Lemma held_put f' cont' pin' x : bufs_of f' = upd B b x ->
  unlink x = unlink (set_b_flags (b_flags x) (set_b_data (b_data x) (B b))) ->
  b_next x = b_next (B b) -> b_prev x = b_prev (B b) ->
  fs_sleep f' = fs_sleep f -> nblocks f' = nblocks f -> b_data x = cont' n ->
  (b_flags x = B_VALID /\ n ∉ pin' \/ b_flags x = Z.lor B_VALID B_DIRTY /\ n ∈ pin') ->
  (forall m, m <> n -> cont' m = cont m /\ (m ∈ pin' <-> m ∈ pin) /\ disk_of f' m = disk_of f m) -> NoDup pin' ->
  cache f' cont' pin' held.
Proof.
  intros HB Hu Hnx Hpv Hs Hnb Hd Hfl Hco Hnp.
  assert (b_blockno x = n) as En by (by apply (f_equal b_blockno) in Hu).
  assert (b_dev x = 1) as Ed by (rewrite <- held_dev; by apply (f_equal b_dev) in Hu).
  assert (b_refcnt x = b_refcnt (B b)) as Er by (by apply (f_equal b_refcnt) in Hu).
  assert (valid x = true) as Hv by (unfold valid; by destruct Hfl as [[-> _]|[-> _]]).
  destruct held_ok as [H1 H2 H3 H4 H5 H6].
  apply (cache_put f f' cont pin held cont' pin' held b x); try done.
  - apply held_in.
  - intros b' _. by rewrite Hs.
  - split.
    + destruct Hfl as [[-> _]|[-> _]]; auto.
    + intros _. rewrite Er, Hs, Ed. split_and!; [by apply H2|by apply H2|done].
    + done.
    + intros _. rewrite En. auto.
    + rewrite En, Ed. unfold dirty. destruct Hfl as [[-> _]|[-> ?]]; done.
    + rewrite En, Hnb. intros _. apply held_range.
  - rewrite En. intros b' Hb' Hne Hd' E. by apply Hne, held_unique.
  - rewrite En. intros m Hm. destruct (Hco m Hm) as (? & ? & _). auto.
  - rewrite En. unfold dirty. by destruct Hfl as [[-> ?]|[-> ?]].
  - apply Hc.
  - intros m Hm Hh. destruct (decide (m = n)) as [->|Hne].
    + exfalso. apply (Hh b Hb). rewrite HB, upd_eq. done.
    + destruct (Hco m Hne) as (-> & Hp & ->). apply (ch_clean _ _ _ _ Hc); [by rewrite <- Hp|].
      intros b' Hb'. specialize (Hh b' Hb'). rewrite HB, upd_case in Hh. case_decide; subst; congruence.
Qed.

Lemma held_kept f' x : bufs_of f' = upd B b x -> b_blockno x = n -> blocks_kept held f f'.
Proof. intros HB En b' _. rewrite HB, upd_case. case_decide; by subst. Qed.

Lemma held_flags : b_flags (B b) = B_VALID /\ n ∉ pin \/ b_flags (B b) = Z.lor B_VALID B_DIRTY /\ n ∈ pin.
Proof.
  destruct (flags_cases _ _ _ _ b Hc held_in) as [(_ & Hv & _)|[(Hf & _ & Hd)|(Hf & _ & Hd)]].
  - exfalso. destruct (bo_data _ _ _ _ _ _ held_ok held_dev). congruence.
  - left. split; [done|]. intros Hp%held_pin. congruence.
  - right. split; [done|]. by apply (bo_dirty _ _ _ _ _ _ held_ok).
Qed.

(** Assigning the data. *)
Lemma runs_set_data h g (Q : unit -> fstate low -> Prop) :
  (forall f', cache f' (upd cont n (g (cont n))) pin held -> rest_same f f' -> disk_same f f' -> blocks_kept held f f' ->
     Q tt f') ->
  runs_in p pid h h (buf_upd b (fun x => set_b_data (g (b_data x)) x)) Q f.
Proof.
  intros HQ. apply runs_buf_upd. apply HQ; try done.
  - eapply held_put; try done.
    + simpl. fold B. by rewrite upd_eq, held_data.
    + apply held_flags.
    + intros m Hm. by rewrite upd_ne.
    + apply Hc.
  - by eapply held_kept.
Qed.

(** Marking it dirty: the block is pinned. *)
Lemma runs_mark_dirty h (Q : unit -> fstate low -> Prop) :
  (forall f', cache f' cont (if decide (n ∈ pin) then pin else pin ++ [n]) held ->
     rest_same f f' -> disk_same f f' -> blocks_kept held f f' -> Q tt f') ->
  runs_in p pid h h (buf_upd b (fun x => set_b_flags (Z.lor (b_flags x) B_DIRTY) x)) Q f.
Proof.
  intros HQ. apply runs_buf_upd. apply HQ; try done; [|by eapply held_kept].
  pose proof (proj1 (ch_pin _ _ _ _ Hc)) as Hnd. eapply held_put; try done.
  - simpl. apply held_data.
  - right. split; [simpl; fold B; by destruct held_flags as [[-> _]|[-> _]]|]. case_decide; [done|]. set_solver.
  - intros m Hm. split; [done|]. split; [|done]. case_decide; [done|]. set_solver.
  - case_decide; [done|]. apply NoDup_app. split_and!; [done|set_solver|apply NoDup_singleton].
Qed.

(** ** bwrite *)
Lemma runs_bwrite `{DiskOk} (Q : unit -> fstate low -> Prop) :
  (forall f', cache f' cont (filter (fun m => m <> n) pin) held -> rest_same f f' -> blocks_kept held f f' ->
     disk_of f' = upd (disk_of f) n (cont n) -> l_writes (fs_low f') = l_writes (fs_low f) ++ [(n, cont n)] -> Q tt f') ->
  runs p pid (bwrite b) Q f.
Proof.
  intros HQ. unfold bwrite. eapply runs_bind, runs_holdingsleep; [apply held_lock|]. cbn [negb].
  eapply runs_bind, runs_buf_upd. fold B. set (x := set_b_flags _ _).
  assert (b_flags x = Z.lor B_VALID B_DIRTY) as Hx by (simpl; by destruct held_flags as [[-> _]|[-> _]]).
  assert (bufs_of (put_buf f b x) b = x) as Eb by apply put_buf_at.
  apply (iderw_write p pid); rewrite ?Eb; try done; [apply held_lock|apply held_dev|apply held_range|].
  unfold wrote. rewrite Eb. apply HQ; try done.
  - eapply held_put.
    + unfold bufs_of. simpl. by rewrite upd_upd.
    + done.
    + done.
    + done.
    + done.
    + done.
    + simpl. apply held_data.
    + left. split; [done|]. rewrite list_elem_of_filter. naive_solver.
    + intros m Hm. split; [done|]. split; [rewrite list_elem_of_filter; naive_solver|].
      unfold disk_of. simpl. by rewrite upd_ne.
    + apply NoDup_filter, Hc.
  - eapply held_kept; [unfold bufs_of; simpl; by rewrite upd_upd|done].
  - unfold disk_of. simpl. by rewrite held_data.
  - simpl. by rewrite held_data.
Qed.
End held.

(** ** brelse *)

Lemma cache_perm f cont pin held held' : held ≡ₚ held' -> cache f cont pin held -> cache f cont pin held'.
Proof.
  intros HL [H1 H2 H3 H4 H5 H6]. assert (forall b, b ∈ held' <-> b ∈ held) as He by (intros; by rewrite HL).
  split; try done.
  - intros b Hb. destruct (H2 b Hb). split; try done; by rewrite He.
  - rewrite <- HL. setoid_rewrite He. done.
  - intros m Hm Hh. apply H6; [done|]. intros b Hb. apply Hh. by apply He.
Qed.

Definition freed_buf (f : fstate low) (b : nat) : fstate low :=
  put_buf (put_sleep f (SLbuf b) (mkSleep false 0)) b (set_b_refcnt 0 (bufs_of f b)).

Lemma freed_cache f cont pin held b : cache f cont pin (b :: held) ->
  b_blockno (bufs_of f b) ∈ pin \/ cont (b_blockno (bufs_of f b)) = disk_of f (b_blockno (bufs_of f b)) ->
  cache (freed_buf f b) cont pin held.
Proof.
  intros Hc Hn. assert (b ∈ b :: held) as Hb by by left.
  destruct (ch_held _ _ _ _ Hc) as [Hnd _]. apply NoDup_cons in Hnd as [Hbh Hnd].
  pose proof (held_in _ _ _ _ _ Hc Hb) as Hbb. pose proof (held_dev _ _ _ _ _ Hc Hb) as Hd.
  destruct (held_ok _ _ _ _ _ Hc Hb) as [H1 H2 H3 H4 H5 H6].
  eapply cache_put; try done.
  - intros b' Hne. simpl. by rewrite upd_ne by congruence.
  - split; try done. intros _. simpl. by rewrite upd_eq.
  - intros b' Hb' Hne Hd' E. by apply Hne, (held_unique _ _ _ _ _ Hc Hb).
  - apply Hc.
  - simpl. apply (held_pin _ _ _ _ _ Hc Hb).
  - intros b' Hne. rewrite elem_of_cons. naive_solver.
  - intros m Hm Hh. destruct (decide (m = b_blockno (bufs_of f b))) as [->|Hne]; [by destruct Hn|].
    apply (ch_clean _ _ _ _ Hc); [done|]. intros b' [->|Hb']%elem_of_cons; [done|].
    specialize (Hh b' Hb'). unfold bufs_of in *. simpl in Hh. rewrite upd_ne in Hh by (intros ->; done). done.
Qed.

Definition put_bufs (f : fstate low) (B : nat -> buf) : fstate low := set_fs_low (set_l_buf B (fs_low f)) f.

Lemma runs_relink h b f (Q : unit -> fstate low -> Prop) :
  Q tt (put_bufs f (front_buf b (cut_buf b (bufs_of f)))) ->
  runs_in p pid h h (
    buf_upd (b_next (bufs_of f b)) (set_b_prev (b_prev (bufs_of f b))) ;;;
    (let* x := buf_get b in buf_upd (b_prev x) (set_b_next (b_next x))) ;;;
    push_front b) Q f.
Proof.
  intros HQ. eapply runs_bind, runs_buf_upd.
  eapply runs_bind, runs_bind, runs_buf_get, runs_buf_upd. unfold push_front.
  eapply runs_bind, runs_buf_get, runs_bind, runs_buf_upd, runs_bind, runs_buf_upd.
  eapply runs_bind, runs_buf_get, runs_bind, runs_buf_upd, runs_buf_upd. exact HQ.
Qed.

Lemma runs_brelse f cont pin held b (Q : unit -> fstate low -> Prop) : cache f cont pin (b :: held) ->
  b_blockno (bufs_of f b) ∈ pin \/ cont (b_blockno (bufs_of f b)) = disk_of f (b_blockno (bufs_of f b)) ->
  (forall f', cache f' cont pin held -> rest_same f f' -> disk_same f f' -> blocks_kept held f f' -> Q tt f') ->
  runs p pid (brelse b) Q f.
Proof.
  intros Hc Hn HQ. assert (b ∈ b :: held) as Hb by by left.
  pose proof (freed_cache _ _ _ _ _ Hc Hn) as Hc1. pose proof (held_in _ _ _ _ _ Hc Hb) as Hbb.
  unfold brelse. eapply runs_bind, runs_holdingsleep; [by apply (held_lock _ _ _ _ _ Hc Hb)|]. cbn [negb].
  eapply runs_bind, runs_releasesleep, runs_bind, runs_wacquire, runs_bind, runs_buf_upd.
  destruct (bo_held _ _ _ _ _ _ (held_ok _ _ _ _ _ Hc Hb) Hb) as [Hr _].
  change (l_buf (fs_low (put_sleep f (SLbuf b) (mkSleep false 0))) b) with (bufs_of f b). rewrite Hr.
  change (u32 (1 - 1)) with 0. fold (freed_buf f b).
  assert (b_refcnt (bufs_of (freed_buf f b) b) = 0) as Hr0 by (unfold bufs_of; simpl; by rewrite upd_eq).
  eapply runs_bind, runs_buf_get. fold (bufs_of (freed_buf f b)). rewrite Hr0.
  eapply runs_bind. set (f1 := freed_buf f b).
  apply runs_relink, runs_wrelease. destruct (ch_ring _ _ _ _ Hc1) as (L & Hri & HL).
  assert (b ∈ L) as HbL by (by rewrite HL). apply list_elem_of_split in HbL as (L1 & L2 & ->).
  assert (NoDup (L1 ++ b :: L2)) as HndL by (rewrite HL; apply bufs_NoDup).
  assert (HEAD ∉ L1 ++ b :: L2) as HhL by (rewrite HL; apply bufs_head).
  apply HQ; try done.
  - eapply (cache_links f1 _ _ _ _ (b :: L1 ++ L2)); try done.
    + intros b'. unfold bufs_of at 1. simpl. by rewrite unlink_front, unlink_cut.
    + by apply ring_move.
    + by rewrite <- HL, Permutation_middle.
  - intros b' Hb'. unfold bufs_of at 1. simpl.
    pose proof (unlink_front b (cut_buf b (bufs_of f1)) b') as E. rewrite unlink_cut in E.
    apply (f_equal b_blockno) in E. etransitivity; [exact E|]. unfold f1, bufs_of. simpl.
    rewrite upd_case. case_decide; by subst.
Qed.

(** Write and read back: getting a block of the disk, changing its data,
    writing and releasing it and getting it again never panics while fewer than
    NBUF buffers are held or pinned; the second bread returns a buffer that this
    process has locked and that has the changed data, which is also on the disk. *)
Theorem bwrite_bread `{DiskOk} f cont pin held n g : cache f cont pin held -> 0 <= n < nblocks f ->
  (forall b, b ∈ held -> b_blockno (bufs_of f b) <> n) -> (length held + length pin < NBUF)%nat ->
  runs p pid (let* b := bread 1 n in
    buf_upd b (fun x => set_b_data (g (b_data x)) x) ;;; bwrite b ;;; brelse b ;;; bread 1 n)
    (fun b f' => fs_sleep f' (SLbuf b) = mkSleep true pid /\ b_data (bufs_of f' b) = g (cont n) /\
      disk_of f' = upd (disk_of f) n (g (cont n)) /\
      cache f' (upd cont n (g (cont n))) (filter (fun m => m <> n) pin) (b :: held)) f.
Proof.
  intros Hc Hn Hh Hroom. eapply runs_bind, (runs_bread f cont pin held); [done..|by right|].
  intros b f1 [G1 G2 G3 G4 G5 G6 G7]. assert (b ∈ b :: held) as Ib by by left.
  eapply runs_bind, (runs_set_data _ _ _ _ _ G3 Ib). rewrite G4. intros f2 C2 R2 D2 K2.
  pose proof (K2 b Ib) as E2. rewrite G4 in E2.
  eapply runs_bind, (runs_bwrite _ _ _ _ _ C2 Ib). rewrite E2, upd_eq. intros f3 C3 R3 K3 D3 W3.
  pose proof (K3 b Ib) as E3. rewrite E2 in E3.
  eapply runs_bind, (runs_brelse _ _ _ _ _ _ C3); [right; by rewrite E3, D3, !upd_eq|]. intros f4 C4 R4 [D4 W4] K4.
  assert (nblocks f4 = nblocks f) as En by (unfold nblocks; destruct G5, R2, R3, R4; congruence).
  eapply (runs_bread _ _ _ _ n C4); [by rewrite En| | |].
  - intros b' Hb'. rewrite (K4 b' Hb'), (K3 b'), (K2 b'), G7 by (try done; by right). by apply Hh.
  - right. pose proof (length_filter (fun m => m <> n) pin). lia.
  - intros b' f5 [A1 A2 A3 A4 A5 [A6 A8] A7]. assert (b' ∈ b' :: held) as Ib' by by left. split_and!.
    + by apply (held_lock _ _ _ _ _ A3 Ib').
    + rewrite (held_data _ _ _ _ _ A3 Ib'), A4. apply upd_eq.
    + unfold disk_of in *. rewrite A6, D4, D3. destruct D2 as [D2 _], G6 as [D1 _]. by rewrite D2, D1.
    + done.
Qed.
End cache.

Arguments ch_ring {_ _ _ _ _} _.
Arguments ch_buf {_ _ _ _ _} _ _ _.
Arguments ch_uniq {_ _ _ _ _} _ _ _ _ _ _ _ _.
Arguments ch_held {_ _ _ _ _} _.
Arguments ch_pin {_ _ _ _ _} _.
Arguments ch_clean {_ _ _ _ _} _ _ _ _.
Arguments got_in {_ _ _ _ _ _ _ _} _.
Arguments got_new {_ _ _ _ _ _ _ _} _.
Arguments got_cache {_ _ _ _ _ _ _ _} _.
Arguments got_block {_ _ _ _ _ _ _ _} _.
Arguments got_rest {_ _ _ _ _ _ _ _} _.
Arguments got_disk {_ _ _ _ _ _ _ _} _.
Arguments got_held {_ _ _ _ _ _ _ _} _ _ _.
Arguments held_data {_ _ _ _ _ _} _ _.
Arguments held_range {_ _ _ _ _ _} _ _.
Arguments rs_log {_ _} _.
