(* ===== verification/LogSpec.v ===== *)
(** * What the log promises

    The blocks that the loops of log.c and the writes of the header put on the
    disk, and the encoding of the header. *)
From S2P Require Import Prelude Machine ProcQueue StringC Spinlock Kalloc Vm VmFrame Proc RunQueue ProcRun Sched UserMem Trap FsState Sleeplock Disk Bio Log FsLogic BufList Cache.

Lemma cache_put_log pid f l cont pin held : cache pid f cont pin held -> cache pid (put_log f l) cont pin held.
Proof.
  intros [H1 H2 H3 H4 H5 H6]. split; try done. intros b Hb. by destruct (H2 b Hb).
Qed.
Lemma cache_pin_ext pid f cont pin pin' held : NoDup pin' -> (forall m, m ∈ pin' <-> m ∈ pin) ->
  cache pid f cont pin held -> cache pid f cont pin' held.
Proof.
  intros Hn He [H1 H2 H3 H4 H5 H6]. split; try done.
  - intros b Hb. destruct (H2 b Hb). split; try done. by rewrite He.
  - split; [done|]. intros m. rewrite He. apply H5.
  - intros m. rewrite He. apply H6.
Qed.

(** The blocks that are pinned or of a held buffer are on the disk. *)
Lemma pin_range pid f cont pin held m : cache pid f cont pin held -> m ∈ pin -> 0 <= m < nblocks f.
Proof.
  intros Hc Hm. destruct (proj2 (ch_pin Hc) m Hm) as (b & Hb & Hd & <- & _).
  by apply (bo_range _ _ _ _ _ _ _ (ch_buf Hc b Hb)).
Qed.

(** Blocks written in order. *)
Definition replay (d : Z -> block) (ws : list (Z * block)) : Z -> block := foldl (fun d w => upd d w.1 w.2) d ws.

Lemma replay_app d ws1 ws2 : replay d (ws1 ++ ws2) = replay (replay d ws1) ws2.
Proof. apply foldl_app. Qed.
Lemma replay_ne d ws m : (forall w, w ∈ ws -> w.1 <> m) -> replay d ws m = d m.
Proof.
  induction ws as [|w ws IH] using rev_ind; intros Hw; [done|]. rewrite replay_app. simpl.
  rewrite upd_ne by (intros E; apply (Hw w); [set_solver|done]). apply IH. intros w' Hw'. apply Hw. set_solver.
Qed.

Lemma seqZ_split n l1 x l2 : seqZ 0 n = l1 ++ x :: l2 -> x = Z.of_nat (length l1) /\ Z.of_nat (length l1) < n.
Proof.
  intros E. assert (seqZ 0 n !! length l1 = Some x) as Hx by (rewrite E; by apply list_lookup_middle).
  apply lookup_seqZ in Hx. lia.
Qed.

Lemma filter_unpinned (pin : list Z) n : n ∉ pin -> filter (fun m => m <> n) pin = pin.
Proof.
  induction pin as [|m pin IH]; [done|]. intros [Hm Hp]%not_elem_of_cons. rewrite filter_cons, decide_True by done.
  by rewrite IH.
Qed.

(** The blocks of the log on the disk. *)
Definition in_log (lg : logst) (m : Z) : Prop := lg_start lg <= m < lg_start lg + lg_size lg.

(** The log in memory lists the blocks [bl]. *)
Record log_ok (f : fstate low) (lg : logst) (bl : list Z) : Prop := {
  lo_dev : lg_dev lg = 1;
  lo_geom : 0 <= lg_start lg /\ 0 < lg_size lg <= LOGSIZE /\ lg_start lg + lg_size lg <= nblocks f < 2 ^ 31;
  lo_n : lg_n lg = Z.of_nat (length bl);
  lo_block i m : bl !! i = Some m -> lg_block lg (Z.of_nat i) = m;
  lo_nodup : NoDup bl;
  lo_len : Z.of_nat (length bl) < lg_size lg;
  lo_home m : m ∈ bl -> 0 <= m < nblocks f /\ ~ in_log lg m;
}.

Lemma log_ok_rest f f' lg bl : nblocks f' = nblocks f -> log_ok f lg bl -> log_ok f' lg bl.
Proof. intros E []. split; rewrite ?E; done. Qed.

(** ** Encoding of the header *)

Definition head_bytes (lg : logst) (d : block) : block :=
  foldl (fun d i => store32 d (4 + 4 * i) (lg_block lg i)) (store32 d 0 (lg_n lg)) (seqZ 0 (lg_n lg)).
Definition read_log (lg : logst) (d : block) : logst :=
  foldl (fun l i => set_lg_block (upd (lg_block l) i (s32 (load32 d (4 + 4 * i)))) l) (set_lg_n (s32 (load32 d 0)) lg)
    (seqZ 0 (s32 (load32 d 0))).
Definition hdr_n (d : block) : Z := s32 (load32 d 0).
Definition hdr_list (d : block) : list Z := (fun i => s32 (load32 d (4 + 4 * i))) <$> seqZ 0 (hdr_n d).

Lemma s32_u32_small x : 0 <= x < 2 ^ 31 -> s32 (u32 x) = x.
Proof. intros Hx. rewrite u32_small by lia. apply s32_small. lia. Qed.

Lemma head_loads (lg : logst) (d : block) n : let d' := foldl (fun d i => store32 d (4 + 4 * i) (lg_block lg i)) d (seqZ 0 (Z.of_nat n)) in
  load32 d' 0 = load32 d 0 /\ forall i, 0 <= i < Z.of_nat n -> load32 d' (4 + 4 * i) = u32 (lg_block lg i).
Proof.
  cbv zeta. induction n as [|n [IH0 IH]]; [split; [done|lia]|]. rewrite seqZ_S, foldl_app, Z.add_0_l. cbn [foldl]. split.
  - rewrite load32_store32_ne by lia. exact IH0.
  - intros i Hi. destruct (decide (i = Z.of_nat n)) as [->|Hne]; [by rewrite load32_store32_eq|].
    rewrite load32_store32_ne by lia. apply IH. lia.
Qed.

Lemma head_roundtrip f lg bl d : log_ok f lg bl -> hdr_n (head_bytes lg d) = Z.of_nat (length bl) /\ hdr_list (head_bytes lg d) = bl.
Proof.
  intros Hl. pose proof (lo_geom _ _ _ Hl) as Hg. pose proof (lo_len _ _ _ Hl) as Hlen. unfold LOGSIZE, MAXOPBLOCKS in *.
  unfold head_bytes. rewrite (lo_n _ _ _ Hl).
  destruct (head_loads lg (store32 d 0 (Z.of_nat (length bl))) (length bl)) as [H0' Hi]. cbv zeta in *.
  assert (hdr_n (foldl (fun d i => store32 d (4 + 4 * i) (lg_block lg i)) (store32 d 0 (Z.of_nat (length bl)))
    (seqZ 0 (Z.of_nat (length bl)))) = Z.of_nat (length bl)) as En.
  { unfold hdr_n. rewrite H0', load32_store32_eq. apply s32_u32_small. lia. }
  split; [done|]. unfold hdr_list. rewrite En. apply list_eq. intros i. rewrite list_lookup_fmap.
  destruct (bl !! i) as [m|] eqn:E.
  - pose proof (lookup_lt_Some _ _ _ E). rewrite (lookup_seqZ_lt 0), Z.add_0_l by lia. cbn [fmap option_fmap option_map]. rewrite Hi by lia.
    rewrite (lo_block _ _ _ Hl _ _ E). f_equal. apply s32_u32_small.
    destruct (lo_home _ _ _ Hl m ltac:(by eapply list_elem_of_lookup_2)). lia.
  - apply lookup_ge_None in E. rewrite lookup_seqZ_ge by lia. done.
Qed.

Lemma head_zero lg d : lg_n lg = 0 -> hdr_n (head_bytes lg d) = 0.
Proof. intros E. unfold head_bytes. rewrite E. simpl. unfold hdr_n. by rewrite load32_store32_eq. Qed.

Lemma read_log_fields lg d : let lg' := read_log lg d in
  lg_start lg' = lg_start lg /\ lg_size lg' = lg_size lg /\ lg_dev lg' = lg_dev lg /\ lg_n lg' = hdr_n d /\
  forall i m, hdr_list d !! i = Some m -> lg_block lg' (Z.of_nat i) = m.
Proof.
  cbv zeta. unfold read_log, hdr_list, hdr_n. set (n := s32 (load32 d 0)). set (l0 := set_lg_n n lg).
  assert (forall k, let lg' := foldl (fun l i => set_lg_block (upd (lg_block l) i (s32 (load32 d (4 + 4 * i)))) l) l0 (seqZ 0 (Z.of_nat k)) in
    lg_start lg' = lg_start lg /\ lg_size lg' = lg_size lg /\ lg_dev lg' = lg_dev lg /\ lg_n lg' = n /\
    forall i, 0 <= i < Z.of_nat k -> lg_block lg' i = s32 (load32 d (4 + 4 * i))) as Hk.
  { cbv zeta. induction k as [|k (E1 & E2 & E3 & E4 & E5)]; [split_and!; try done; lia|].
    rewrite seqZ_S, foldl_app. simpl. split_and!; [done..|]. intros i Hi. rewrite upd_case. case_decide; [by subst|].
    apply E5. lia. }
  destruct (decide (0 <= n)) as [Hn|Hn].
  - specialize (Hk (Z.to_nat n)). cbv zeta in Hk. rewrite Z2Nat.id in Hk by done. destruct Hk as (E1 & E2 & E3 & E4 & E5).
    split_and!; [done..|]. intros i m Hi. rewrite list_lookup_fmap in Hi. apply fmap_Some in Hi as (x & [-> Hx]%lookup_seqZ & ->).
    rewrite Z.add_0_l. apply E5. lia.
  - rewrite seqZ_nil by lia. split_and!; try done.
Qed.

Section logspec.
Context (p : nat) (pid : Z) `{DiskOk}.
Notation cache := (cache pid).
Notation runs := (runs p pid).

(** One block was written to the disk. *)
Record wrote_one (f : fstate low) (cont : Z -> block) (pin : list Z) (w : Z * block) (f' : fstate low) : Prop := {
  wo_cache : cache f' (upd cont w.1 w.2) pin [];
  wo_rest : rest_same f f';
  wo_disk : disk_of f' = upd (disk_of f) w.1 w.2;
  wo_writes : l_writes (fs_low f') = l_writes (fs_low f) ++ [w];
}.

Lemma nblocks_rest f f' : rest_same f f' -> nblocks f' = nblocks f.
Proof. intros [? ? ? ? ? ? E]. unfold nblocks. by rewrite E. Qed.

(** Copying the data of buffer [s] to buffer [d] and writing [d]. *)
Lemma runs_copy f cont pin s d : cache f cont pin [s; d] ->
  let ns := b_blockno (bufs_of f s) in let nd := b_blockno (bufs_of f d) in
  ns <> nd -> ns ∈ pin \/ cont ns = disk_of f ns ->
  runs (let* x := buf_get s in buf_upd d (set_b_data (b_data x)) ;;; bwrite d ;;; brelse s ;;; brelse d)
    (fun _ => wrote_one f cont (filter (fun m => m <> nd) pin) (nd, cont ns)) f.
Proof.
  intros Hc ns nd Hne Hs. assert (s ∈ [s; d]) as Is by by left. assert (d ∈ [s; d]) as Id by (right; by left).
  eapply runs_bind, runs_buf_get. fold (bufs_of f). rewrite (held_data Hc Is). fold ns.
  eapply runs_bind. apply (runs_set_data p pid f cont pin [s; d] d Hc Id None (fun _ => cont ns)).
  fold nd. intros f1 C1 R1 D1 K1. pose proof (K1 s Is) as Es1. pose proof (K1 d Id) as Ed1. fold ns in Es1. fold nd in Ed1.
  eapply runs_bind, (runs_bwrite _ _ _ _ _ _ _ C1 Id). intros f2 C2 R2 K2 D2 W2.
  pose proof (K2 s Is) as Es2. pose proof (K2 d Id) as Ed2. rewrite Es1 in Es2. rewrite Ed1 in Ed2, C2, D2, W2.
  rewrite upd_eq in D2, W2. destruct D1 as [D1 W1].
  assert (disk_of f2 = upd (disk_of f) nd (cont ns)) as Ed by (rewrite D2; unfold disk_of; by rewrite D1). clear D2.
  eapply runs_bind, (runs_brelse _ _ _ _ _ _ _ _ C2).
  { rewrite Es2, Ed, !upd_ne by done. destruct Hs as [Hs|Hs]; [left|by right]. by apply list_elem_of_filter. }
  intros f3 C3 R3 [D3 W3] K3. pose proof (K3 d ltac:(by left)) as Ed3. rewrite Ed2 in Ed3.
  eapply (runs_brelse _ _ _ _ _ _ _ _ C3).
  { right. rewrite Ed3. unfold disk_of. rewrite D3. fold (disk_of f2). by rewrite Ed, !upd_eq. }
  intros f4 C4 R4 [D4 W4] K4. split; [done|by do 3 (eapply rest_trans; [eassumption|])|..].
  - unfold disk_of. by rewrite D4, D3.
  - by rewrite W4, W3, W2, W1.
Qed.

Section copy.
Context (f : fstate low) (cont : Z -> block) (pin : list Z) (tail : Z).
Hypothesis Hc : cache f cont pin [].
Notation lg := (l_log (fs_low f)).
Notation slot := (u32 (lg_start lg + tail + 1)).
Notation home := (u32 (lg_block lg tail)).
Hypothesis Hdev : lg_dev lg = 1.
Hypothesis Hslot : 0 <= slot < nblocks f.
Hypothesis Hhome : 0 <= home < nblocks f.
Hypothesis Hnp : slot ∉ pin.
Hypothesis Hne : slot <> home.
Hypothesis Hroom : (length pin < NBUF)%nat.

(** Both loops first get the log's block, then the home block. *)
Lemma runs_two (g : nat -> nat -> M W unit) Q : home ∈ pin \/ (S (length pin) < NBUF)%nat ->
  (forall b1 b2 f', cache f' cont pin [b2; b1] -> b_blockno (bufs_of f' b1) = slot -> b_blockno (bufs_of f' b2) = home ->
     rest_same f f' -> disk_same f f' -> runs (g b1 b2) Q f') ->
  runs (let* lg := log_get in let* b1 := bread (lg_dev lg) (u32 (lg_start lg + tail + 1)) in
        let* lg := log_get in let* b2 := bread (lg_dev lg) (u32 (lg_block lg tail)) in g b1 b2) Q f.
Proof.
  intros Hp Hg. eapply runs_bind, runs_log_get. rewrite Hdev.
  eapply runs_bind, (runs_bread _ _ f cont pin []); [done|done|by intros ? ?%elem_of_nil|by right|]. intros b1 f1 G1.
  eapply runs_bind, runs_log_get. rewrite (rs_log (got_rest G1)), Hdev. pose proof (got_block G1) as E1.
  eapply runs_bind, (runs_bread _ _ f1 cont pin [b1]); [by apply G1| | |done|].
  { by rewrite (nblocks_rest _ _ (got_rest G1)). }
  { intros b ->%list_elem_of_singleton. by rewrite E1. }
  intros b2 f2 G2. apply Hg.
  - apply G2.
  - rewrite (got_held G2); [done|by left].
  - apply G2.
  - eapply rest_trans; [apply G1|apply G2].
  - destruct (got_disk G1), (got_disk G2). split; congruence.
Qed.

Lemma wrote_same f' pin' w f'' : rest_same f f' -> disk_same f f' -> wrote_one f' cont pin' w f'' -> wrote_one f cont pin' w f''.
Proof.
  intros Hr [Hd Hw] [H1 H2 H3 H4]. split; [done|by eapply rest_trans|..].
  - rewrite H3. unfold disk_of. by rewrite Hd.
  - by rewrite H4, Hw.
Qed.

Lemma runs_log_block : home ∈ pin -> runs (log_block tail) (fun _ => wrote_one f cont pin (slot, cont home)) f.
Proof.
  intros Hp. apply runs_two; [by left|]. intros b1 b2 f' C' E1 E2 R' D'. eapply runs_mono; [apply (runs_copy f' cont pin b2 b1 C')|].
  - rewrite E1, E2. done.
  - rewrite E2. by left.
  - intros u f''. rewrite E1, E2, filter_unpinned by done. by apply wrote_same.
Qed.

Lemma runs_install_block : home ∈ pin \/ (S (length pin) < NBUF)%nat ->
  runs (install_block tail) (fun _ => wrote_one f cont (filter (fun m => m <> home) pin) (home, cont slot)) f.
Proof.
  intros Hp. apply runs_two; [done|]. intros b1 b2 f' C' E1 E2 R' D'.
  assert (cache f' cont pin [b1; b2]) as C2 by (eapply cache_perm; [|exact C']; by apply perm_swap).
  eapply runs_mono; [apply (runs_copy f' cont pin b1 b2 C2)|].
  - rewrite E1, E2. done.
  - rewrite E1. right. unfold disk_of. rewrite (proj1 D'). apply (ch_clean Hc); [done|]. by intros ? ?%elem_of_nil.
  - intros u f''. rewrite E1, E2. by apply wrote_same.
Qed.
End copy.

(** ** The header *)

Section header.
Context (f : fstate low) (cont : Z -> block) (pin : list Z).
Hypothesis Hc : cache f cont pin [].
Notation lg := (l_log (fs_low f)).
Notation start := (u32 (lg_start lg)).
Hypothesis Hdev : lg_dev lg = 1.
Hypothesis Hstart : 0 <= start < nblocks f.
Hypothesis Hroom : (length pin < NBUF)%nat.

Lemma runs_write_head : start ∉ pin ->
  runs write_head (fun _ => wrote_one f cont pin (start, head_bytes lg (cont start))) f.
Proof.
  intros Hnp. unfold write_head. eapply runs_bind, runs_log_get. rewrite Hdev.
  eapply runs_bind, (runs_bread _ _ f cont pin []); [done|done|by intros ? ?%elem_of_nil|by right|]. intros b f1 G1.
  eapply runs_bind, runs_log_get. rewrite (rs_log (got_rest G1)). pose proof (got_block G1) as E1. pose proof (got_cache G1) as C1.
  assert (b ∈ [b]) as Ib by by left.
  eapply runs_bind. apply (runs_set_data p pid f1 cont pin [b] b C1 Ib None (fun d => store32 d 0 (lg_n lg))).
  rewrite E1. intros f2 C2 R2 D2 K2. eapply runs_bind, runs_mono.
  { apply (runs_foreach p pid None _ _ (fun l f' => cache f' (upd cont start (foldl (fun d i => store32 d (4 + 4 * i) (lg_block lg i))
      (store32 (cont start) 0 (lg_n lg)) l)) pin [b] /\ rest_same f1 f' /\ disk_same f1 f' /\ b_blockno (bufs_of f' b) = start)).
    - by rewrite (K2 b Ib), E1.
    - intros l1 i l2 f' _ (C' & R' & D' & E').
      apply (runs_set_data p pid f' _ pin [b] b C' Ib None (fun d => store32 d (4 + 4 * i) (lg_block lg i))).
      rewrite E', upd_eq, upd_upd, foldl_app. intros f3 C3 R3 D3 K3. split_and!; [done|by eapply rest_trans| |by rewrite (K3 b Ib)].
      destruct D', D3. split; congruence. }
  simpl. intros u f3 (C3 & R3 & D3 & E3). fold (head_bytes lg (cont start)) in C3.
  eapply runs_bind, (runs_bwrite _ _ _ _ _ _ _ C3 Ib). rewrite E3, upd_eq, filter_unpinned by done. intros f4 C4 R4 K4 D4 W4.
  pose proof (K4 b Ib) as E4. rewrite E3 in E4.
  eapply (runs_brelse _ _ _ _ _ _ _ _ C4); [right; by rewrite E4, D4, !upd_eq|]. intros f5 C5 R5 [D5 W5] _.
  destruct D3 as [D3 W3], (got_disk G1) as [D1 W1]. split; [done|..].
  - eapply rest_trans; [apply G1|]. by do 2 (eapply rest_trans; [eassumption|]).
  - unfold disk_of in *. simpl. congruence.
  - congruence.
Qed.

Lemma runs_read_head : s32 (load32 (cont start) 0) <= LOGSIZE -> start ∉ pin ->
  runs read_head (fun _ f' => cache f' cont pin [] /\ rest_same (put_log f (read_log lg (cont start))) f' /\ disk_same f f') f.
Proof.
  intros Hn Hnp. unfold read_head. eapply runs_bind, runs_log_get. rewrite Hdev.
  eapply runs_bind, (runs_bread _ _ f cont pin []); [done|done|by intros ? ?%elem_of_nil|by right|]. intros b f1 G1.
  pose proof (got_block G1) as E1. pose proof (got_cache G1) as C1. assert (b ∈ [b]) as Ib by by left.
  eapply runs_bind, runs_buf_get. fold (bufs_of f1). rewrite (held_data C1 Ib), E1. set (d := cont start) in *.
  eapply runs_bind, runs_log_upd, runs_bind, runs_log_get. simpl. rewrite (rs_log (got_rest G1)).
  eapply runs_bind, runs_mono.
  { apply (runs_foreach p pid None _ _ (fun l f' => f' = put_log f1 (foldl (fun l i =>
      set_lg_block (upd (lg_block l) i (s32 (load32 d (4 + 4 * i)))) l) (set_lg_n (s32 (load32 d 0)) lg) l))); [done|].
    intros l1 i l2 f' El ->. assert (i ∈ seqZ 0 (s32 (load32 d 0))) as Hi by (rewrite El; set_solver).
    apply elem_of_seqZ in Hi. rewrite (proj2 (Z.ltb_lt _ _)) by lia. apply runs_log_upd. by rewrite foldl_app. }
  simpl. intros u f2 ->. fold (read_log lg d).
  eapply (runs_brelse _ _ _ _ _ _ _ _ (cache_put_log _ _ _ _ _ _ C1)).
  { right. change (bufs_of (put_log f1 (read_log lg d))) with (bufs_of f1). rewrite E1.
    change (disk_of (put_log f1 (read_log lg d))) with (disk_of f1). unfold disk_of. rewrite (proj1 (got_disk G1)).
    apply (ch_clean Hc); [done|]. by intros ? ?%elem_of_nil. }
  intros f3 C3 R3 D3 _. split_and!; [done| |].
  - eapply rest_trans; [|exact R3]. destruct (got_rest G1). by split.
  - destruct D3, (got_disk G1). split; simpl in *; congruence.
Qed.
End header.

(** ** The loops *)

(** The blocks [ws] were written to the disk. *)
Record did (f : fstate low) (cont : Z -> block) (pin : list Z) (ws : list (Z * block)) (f' : fstate low) : Prop := {
  di_cache : cache f' (replay cont ws) pin [];
  di_rest : rest_same f f';
  di_disk : disk_of f' = replay (disk_of f) ws;
  di_writes : l_writes (fs_low f') = l_writes (fs_low f) ++ ws;
}.

Lemma did_nil f cont pin : cache f cont pin [] -> did f cont pin [] f.
Proof. intros Hc. split; try done. by rewrite app_nil_r. Qed.
Lemma did_snoc f cont pin ws f1 pin' w f2 : did f cont pin ws f1 -> wrote_one f1 (replay cont ws) pin' w f2 ->
  did f cont pin' (ws ++ [w]) f2.
Proof.
  intros [A1 A2 A3 A4] [B1 B2 B3 B4]. split.
  - by rewrite replay_app.
  - by eapply rest_trans.
  - by rewrite B3, A3, replay_app.
  - by rewrite B4, A4, app_assoc.
Qed.

Section loops.
Context (f : fstate low) (cont : Z -> block) (pin bl : list Z).
Hypothesis Hc : cache f cont pin [].
Notation lg := (l_log (fs_low f)).
Hypothesis Hl : log_ok f lg bl.
Hypothesis Hp : forall m, m ∈ pin -> m ∈ bl.

Lemma slot_u32 i : (i < length bl)%nat -> u32 (lg_start lg + Z.of_nat i + 1) = lg_start lg + 1 + Z.of_nat i.
Proof.
  intros Hi. pose proof (lo_geom _ _ _ Hl). pose proof (lo_len _ _ _ Hl). rewrite u32_small by lia. lia.
Qed.
Lemma home_u32 i m : bl !! i = Some m -> u32 (lg_block lg (Z.of_nat i)) = m.
Proof.
  intros Hi. rewrite (lo_block _ _ _ Hl _ _ Hi). apply u32_small.
  destruct (lo_home _ _ _ Hl m ltac:(by eapply list_elem_of_lookup_2)). pose proof (lo_geom _ _ _ Hl). lia.
Qed.
Lemma slot_home i m : (i < length bl)%nat -> m ∈ bl -> lg_start lg + 1 + Z.of_nat i <> m.
Proof.
  intros Hi Hm E. pose proof (lo_len _ _ _ Hl). destruct (lo_home _ _ _ Hl m Hm) as [_ Hn]. apply Hn. unfold in_log. lia.
Qed.
Lemma pin_room : (length pin < NBUF)%nat.
Proof.
  assert (length pin <= length bl)%nat by (apply submseteq_length, NoDup_submseteq; [apply Hc|exact Hp]).
  pose proof (lo_len _ _ _ Hl). pose proof (lo_geom _ _ _ Hl). unfold LOGSIZE, MAXOPBLOCKS, NBUF in *. lia.
Qed.

Definition log_writes : list Z -> list (Z * block) := imap (fun i m => (lg_start lg + 1 + Z.of_nat i, cont m)).
Definition home_writes : list Z -> list (Z * block) := imap (fun i m => (m, cont (lg_start lg + 1 + Z.of_nat i))).

(** A loop over the log that writes block [wr i m] for its entry [i]. *)
Lemma runs_log_loop (g : Z -> M W unit) (wr : nat -> Z -> Z * block) (pins : nat -> list Z) :
  pins 0%nat = pin ->
  (forall k m f1, bl !! k = Some m -> did f cont (pins k) (imap wr (take k bl)) f1 -> l_log (fs_low f1) = lg ->
     nblocks f1 = nblocks f ->
     runs (g (Z.of_nat k)) (fun _ => wrote_one f1 (replay cont (imap wr (take k bl))) (pins (S k)) (wr k m)) f1) ->
  runs (let* lg := log_get in foreach (seqZ 0 (lg_n lg)) g) (fun _ => did f cont (pins (length bl)) (imap wr bl)) f.
Proof.
  intros Hp0 Hg. eapply runs_bind, runs_log_get. rewrite (lo_n _ _ _ Hl). eapply runs_mono.
  { apply (runs_foreach p pid None _ _ (fun l => did f cont (pins (length l)) (imap wr (take (length l) bl)))).
    { simpl. rewrite Hp0. by apply did_nil. }
    intros l1 x l2 f1 [-> Hi]%seqZ_split D1. set (k := length l1) in *.
    destruct (lookup_lt_is_Some_2 bl k ltac:(lia)) as [m Hm].
    rewrite length_app. simpl. fold k. rewrite Nat.add_1_r, (take_S_r _ _ _ Hm), imap_app. simpl.
    rewrite length_take_le, Nat.add_0_r by lia. eapply runs_mono; [apply (Hg k m f1 Hm D1)|].
    - apply (rs_log (di_rest _ _ _ _ _ D1)).
    - apply (nblocks_rest _ _ (di_rest _ _ _ _ _ D1)).
    - intros u f2 Hw. by eapply did_snoc. }
  intros u f1. simpl. rewrite length_seqZ, Nat2Z.id. by rewrite firstn_all.
Qed.

Lemma runs_write_log : (forall m, m ∈ bl -> m ∈ pin) -> runs write_log (fun _ => did f cont pin (log_writes bl)) f.
Proof.
  intros Hbp. apply (runs_log_loop _ _ (fun _ => pin)); [done|]. intros k m f1 Hm D1 El En.
  pose proof (list_elem_of_lookup_2 _ _ _ Hm) as Hmb. pose proof (lookup_lt_Some _ _ _ Hm) as Hk.
  pose proof (lo_geom _ _ _ Hl). pose proof (lo_len _ _ _ Hl). destruct (lo_home _ _ _ Hl m Hmb).
  eapply runs_mono; [apply (runs_log_block f1); rewrite ?El, ?En, ?(home_u32 k m Hm), ?slot_u32 by lia|].
  - apply D1.
  - apply Hl.
  - lia.
  - done.
  - intros Hs%Hp. by apply (slot_home k _ ltac:(lia) Hs).
  - apply slot_home; [lia|done].
  - apply pin_room.
  - auto.
  - intros u f2. rewrite El, (home_u32 k m Hm), slot_u32, (replay_ne _ _ m); [done|..|lia].
    intros w (j & m' & -> & Hj)%elem_of_lookup_imap. apply slot_home; [|done].
    apply lookup_lt_Some in Hj. rewrite length_take_le in Hj; lia.
Qed.

(** Installing a block unpins it. *)
Lemma runs_install_trans : pin = [] \/ (forall m, m ∈ bl -> m ∈ pin) ->
  runs install_trans (fun _ => did f cont [] (home_writes bl)) f.
Proof.
  intros Hbp. set (pins k := filter (fun m => m ∉ take k bl) pin). eapply runs_mono.
  { apply (runs_log_loop _ (fun i m => (m, cont (lg_start lg + 1 + Z.of_nat i))) pins).
    { unfold pins. simpl. clear. induction pin as [|m l IH]; [done|]. rewrite filter_cons, decide_True by set_solver. by f_equal. }
    intros k m f1 Hm D1 El En.
    pose proof (list_elem_of_lookup_2 _ _ _ Hm) as Hmb. pose proof (lookup_lt_Some _ _ _ Hm) as Hk.
    pose proof (lo_geom _ _ _ Hl). pose proof (lo_len _ _ _ Hl). destruct (lo_home _ _ _ Hl m Hmb).
    assert (m ∉ take k bl) as Hmt.
    { intros (j & Hj)%list_elem_of_lookup. pose proof (lookup_lt_Some _ _ _ Hj) as Hjk. rewrite length_take_le in Hjk by lia.
      rewrite lookup_take_lt in Hj by done. pose proof (NoDup_lookup _ _ _ _ (lo_nodup _ _ _ Hl) Hj Hm). lia. }
    assert (length (pins k) <= length pin)%nat by apply length_filter. pose proof pin_room.
    eapply runs_mono; [apply (runs_install_block f1); rewrite ?El, ?En, ?(home_u32 k m Hm), ?slot_u32 by lia|].
    - apply D1.
    - apply Hl.
    - lia.
    - done.
    - intros [_ Hs%Hp]%list_elem_of_filter. by apply (slot_home k _ ltac:(lia) Hs).
    - apply slot_home; [lia|done].
    - lia.
    - destruct Hbp as [E|Hbp]; [right; unfold pins; rewrite E; unfold NBUF; simpl; lia|left].
      apply list_elem_of_filter. auto.
    - intros u f2. rewrite El, (home_u32 k m Hm), slot_u32, (replay_ne _ _ (lg_start lg + 1 + Z.of_nat k)); [|..|lia].
      + unfold pins. rewrite list_filter_filter. intros Hw.
        rewrite (list_filter_iff _ (fun x => x ∉ take (S k) bl)) in Hw; [exact Hw|].
        intros x. rewrite (take_S_r _ _ _ Hm). set_solver.
      + intros w (j & m' & -> & Hj)%elem_of_lookup_imap E. simpl in E. apply (slot_home k m'); [done| |done].
        eapply subseteq_take, list_elem_of_lookup_2; eassumption. }
  simpl. intros u f1. replace (pins (length bl)) with (@nil Z); [done|]. symmetry. unfold pins. rewrite firstn_all.
  apply elem_of_nil_inv. intros m [Hn Hm%Hp]%list_elem_of_filter. done.
Qed.
End loops.

Lemma did_trans f cont pin ws f1 pin' ws' f2 : did f cont pin ws f1 -> did f1 (replay cont ws) pin' ws' f2 ->
  did f cont pin' (ws ++ ws') f2.
Proof.
  intros [A1 A2 A3 A4] [B1 B2 B3 B4]. split.
  - by rewrite replay_app.
  - by eapply rest_trans.
  - by rewrite B3, A3, replay_app.
  - by rewrite B4, A4, app_assoc.
Qed.
Lemma did_one f cont pin w f' : wrote_one f cont pin w f' -> did f cont pin [w] f'.
Proof. by intros []. Qed.
Lemma did_put_log f cont pin ws f' l : did f cont pin ws f' -> did (put_log f l) cont pin ws (put_log f' l).
Proof. intros [A1 [] A3 A4]. split; [by apply cache_put_log|by split|done|done]. Qed.

End logspec.
