(* ===== verification/LogCrash.v ===== *)
(** * Crashes during a commit

    A commit writes the blocks of the transaction to the log, then the header,
    then the blocks to their homes, then the empty header; recovery repeats the
    last two.  Whatever prefix of these writes reaches the disk, and however often
    recovery itself is cut short, a recovery that finishes leaves every block
    outside the log as it was before the commit if the header was not written, and
    as the transaction made it if it was. *)
From S2P Require Import Prelude Machine ProcQueue StringC Spinlock Kalloc Vm VmFrame Proc RunQueue ProcRun Sched UserMem Trap FsState Sleeplock Disk Bio Log FsLogic BufList Cache LogSpec.

Section runs.
Context (p : nat) (pid : Z) `{DiskOk}.
Notation cache := (cache pid).
Notation runs := (runs p pid).

Definition homes (new : Z -> block) (bl : list Z) : list (Z * block) := (fun m => (m, new m)) <$> bl.

Lemma homes_imap new bl (g : nat -> Z -> block) : (forall i m, bl !! i = Some m -> g i m = new m) ->
  imap (fun i m => (m, g i m)) bl = homes new bl.
Proof.
  intros Hg. apply list_eq. intros i. unfold homes. rewrite list_lookup_imap, list_lookup_fmap.
  destruct (bl !! i) as [m|] eqn:E; simpl; [|done]. by rewrite (Hg i m E).
Qed.

Lemma start_u32 f bl : log_ok f (l_log (fs_low f)) bl -> u32 (lg_start (l_log (fs_low f))) = lg_start (l_log (fs_low f)).
Proof. intros Hl. pose proof (lo_geom _ _ _ Hl). apply u32_small. lia. Qed.
Lemma start_home f bl m : log_ok f (l_log (fs_low f)) bl -> m ∈ bl -> lg_start (l_log (fs_low f)) <> m.
Proof.
  intros Hl Hm E. destruct (lo_home _ _ _ Hl m Hm) as [_ Hn]. apply Hn. pose proof (lo_geom _ _ _ Hl). unfold in_log. lia.
Qed.

(** The contents of the log after its blocks were written. *)
Lemma log_writes_at f cont bl i m : bl !! i = Some m ->
  replay cont (log_writes f cont bl) (lg_start (l_log (fs_low f)) + 1 + Z.of_nat i) = cont m.
Proof.
  intros Hm. rewrite <- (take_drop_middle _ _ _ Hm). unfold log_writes. rewrite imap_app. simpl.
  rewrite length_take_le by (apply lookup_lt_Some in Hm; lia). rewrite replay_app. simpl.
  rewrite Nat.add_0_r. etransitivity; [apply replay_ne|by rewrite upd_eq].
  intros w (j & m' & -> & _)%elem_of_lookup_imap. simpl. lia.
Qed.

Lemma runs_head f cont pin bl : cache f cont pin [] -> log_ok f (l_log (fs_low f)) bl ->
  (forall m, m ∈ pin -> m ∈ bl) ->
  runs write_head (fun _ => did pid f cont pin [(lg_start (l_log (fs_low f)),
    head_bytes (l_log (fs_low f)) (cont (lg_start (l_log (fs_low f)))))]) f.
Proof.
  intros Hc Hl Hp. pose proof (start_u32 _ _ Hl) as Es. eapply runs_mono; [apply (runs_write_head p pid f cont pin Hc)|].
  - apply Hl.
  - rewrite Es. pose proof (lo_geom _ _ _ Hl). lia.
  - by apply (pin_room pid f cont pin bl Hc Hl).
  - rewrite Es. intros Hx%Hp. by apply (start_home _ _ _ Hl Hx).
  - rewrite Es. intros u f' Hw. by apply did_one.
Qed.

Lemma log_ok_zero f lg bl : log_ok f lg bl -> log_ok f (set_lg_n 0 lg) [].
Proof. intros []. split; simpl in *; try done; [apply NoDup_nil_2|lia|by intros m ?%elem_of_nil]. Qed.

(** The last two phases: install the blocks and clear the header. *)
Lemma runs_finish f cont pin bl : cache f cont pin [] -> log_ok f (l_log (fs_low f)) bl ->
  (forall m, m ∈ pin -> m ∈ bl) -> pin = [] \/ (forall m, m ∈ bl -> m ∈ pin) ->
  runs (install_trans ;;; log_upd (set_lg_n 0) ;;; write_head)
    (fun _ f' => exists h0, hdr_n h0 = 0 /\
      did pid (put_log f (set_lg_n 0 (l_log (fs_low f)))) cont [] (home_writes f cont bl ++ [(lg_start (l_log (fs_low f)), h0)]) f') f.
Proof.
  intros Hc Hl Hp Hp2. set (lg := l_log (fs_low f)) in *.
  eapply runs_bind, runs_mono; [by apply (runs_install_trans p pid f cont pin bl)|]. intros u f1 D1. simpl.
  eapply runs_bind, runs_log_upd. rewrite (rs_log (di_rest _ _ _ _ _ _ D1)). fold lg.
  apply (did_put_log _ _ _ _ _ _ (set_lg_n 0 lg)) in D1.
  assert (log_ok (put_log f1 (set_lg_n 0 lg)) (set_lg_n 0 lg) []) as Hl1.
  { eapply log_ok_rest; [|by eapply log_ok_zero]. by rewrite (nblocks_rest _ _ (di_rest _ _ _ _ _ _ D1)). }
  eapply runs_mono; [apply (runs_head (put_log f1 (set_lg_n 0 lg)) (replay cont (home_writes f cont bl)) [] []); [apply D1|exact Hl1|done]|].
  intros u' f2 D2. simpl in D2. eexists. split; [|by eapply did_trans]. by apply head_zero.
Qed.

Lemma runs_commit f cont pin bl : cache f cont pin [] -> log_ok f (l_log (fs_low f)) bl ->
  (forall m, m ∈ pin <-> m ∈ bl) -> bl <> [] ->
  runs commit (fun _ f' => exists h1 h0, hdr_n h1 = Z.of_nat (length bl) /\ hdr_list h1 = bl /\ hdr_n h0 = 0 /\
    let start := lg_start (l_log (fs_low f)) in
    did pid (put_log f (set_lg_n 0 (l_log (fs_low f)))) cont []
      (log_writes f cont bl ++ [(start, h1)] ++ homes cont bl ++ [(start, h0)]) f') f.
Proof.
  intros Hc Hl Hp Hne. set (lg := l_log (fs_low f)) in *. assert (lg_n lg > 0) as Hn.
  { rewrite (lo_n _ _ _ Hl). destruct bl; [done|]. simpl. lia. }
  unfold commit. eapply runs_bind, runs_log_get. fold lg. rewrite (proj2 (Z.gtb_lt _ _)) by lia. simpl.
  assert (forall m, m ∈ bl -> m ∈ pin) as Hbp by (intros; by apply Hp).
  assert (forall m, m ∈ pin -> m ∈ bl) as Hpb by (intros; by apply Hp).
  eapply runs_bind, runs_mono; [by apply (runs_write_log p pid f cont pin bl)|]. intros u1 f1 D1.
  pose proof (rs_log (di_rest _ _ _ _ _ _ D1)) as El1. fold lg in El1.
  assert (log_ok f1 (l_log (fs_low f1)) bl) as Hl1.
  { rewrite El1. eapply log_ok_rest; [|exact Hl]. by rewrite (nblocks_rest _ _ (di_rest _ _ _ _ _ _ D1)). }
  eapply runs_bind, runs_mono; [by apply (runs_head f1 (replay cont (log_writes f cont bl)) pin bl); [apply D1|..]|]. intros u2 f2 D2.
  set (h1 := head_bytes _ _) in D2. destruct (head_roundtrip f1 _ _ (replay cont (log_writes f cont bl) (lg_start (l_log (fs_low f1)))) Hl1) as [Hh1 Hh2].
  fold h1 in Hh1, Hh2. rewrite El1 in D2. pose proof (did_trans _ _ _ _ _ _ _ _ _ D1 D2) as D12.
  pose proof (rs_log (di_rest _ _ _ _ _ _ D12)) as El2. fold lg in El2.
  assert (log_ok f2 (l_log (fs_low f2)) bl) as Hl2.
  { rewrite El2. eapply log_ok_rest; [|exact Hl]. by rewrite (nblocks_rest _ _ (di_rest _ _ _ _ _ _ D12)). }
  eapply runs_mono; [apply (runs_finish f2 (replay cont (log_writes f cont bl ++ [(lg_start lg, h1)])) pin bl); [apply D12|done..|by right]|].
  intros u3 f3 (h0 & Hh0 & D3). rewrite El2 in D3.
  exists h1, h0. split_and!; [done..|]. cbv zeta. apply (did_put_log _ _ _ _ _ _ (set_lg_n 0 lg)) in D12.
  pose proof (did_trans _ _ _ _ _ _ _ _ _ D12 D3) as D. rewrite <- app_assoc in D.
  replace (homes cont bl) with (home_writes f2 (replay cont (log_writes f cont bl ++ [(lg_start lg, h1)])) bl); [done|].
  unfold home_writes. apply homes_imap. intros i m Hm. rewrite El2, replay_app. simpl. rewrite upd_ne by lia.
  by apply log_writes_at.
Qed.

Lemma runs_recover f cont bl : cache f cont [] [] -> lg_dev (l_log (fs_low f)) = 1 ->
  let lg := l_log (fs_low f) in let start := lg_start lg in
  0 <= start < nblocks f -> nblocks f < 2 ^ 31 -> hdr_n (cont start) <= LOGSIZE -> log_ok f (read_log lg (cont start)) bl ->
  runs recover_from_log (fun _ f' => exists h0, hdr_n h0 = 0 /\
    did pid (put_log f (set_lg_n 0 (read_log lg (cont start)))) cont [] (home_writes f cont bl ++ [(start, h0)]) f') f.
Proof.
  intros Hc Hd lg start Hs Hnb Hh Hl. assert (u32 start = start) as Es by (apply u32_small; lia).
  unfold recover_from_log. eapply runs_bind, runs_mono.
  { apply (runs_read_head p pid f cont [] Hc Hd); fold lg start; rewrite ?Es; unfold NBUF; simpl;
      [done|lia|done|by intros ?%elem_of_nil]. }
  fold lg start. rewrite Es. intros u f1 (C1 & R1 & D1). pose proof (rs_log R1) as El1. simpl in El1.
  set (lg1 := read_log lg (cont start)) in *. pose proof (nblocks_rest _ _ R1) as En1.
  destruct (read_log_fields lg (cont start)) as (E1 & _). fold lg1 in E1.
  eapply runs_mono; [apply (runs_finish f1 cont [] bl C1)|].
  - rewrite El1. apply (log_ok_rest f); [exact En1|exact Hl].
  - by intros m ?%elem_of_nil.
  - by left.
  - intros u' f2 (h0 & Hh0 & [A1 A2 A3 A4]). exists h0. split; [done|]. rewrite El1 in A1, A2, A3, A4.
    replace (home_writes f1 cont bl) with (home_writes f cont bl) in * by (unfold home_writes; by rewrite El1, E1).
    rewrite E1 in A1, A3, A4. destruct D1 as [D1 W1]. unfold disk_of in *. simpl in *. split; [exact A1| |..].
    + destruct R1, A2. split; simpl in *; congruence.
    + unfold disk_of. simpl. by rewrite A3, D1.
    + simpl. by rewrite A4, W1.
Qed.
End runs.

(** ** Disks *)

Section disks.
Context (start size : Z).

Definition outside (m : Z) : Prop := ~ (start <= m < start + size).

(** The header of [d] lists [bl]; with the logged blocks in their place, [d] is
    [x] outside the log. *)
Record committed (x : Z -> block) (bl : list Z) (d : Z -> block) : Prop := {
  cm_n : hdr_n (d start) = Z.of_nat (length bl);
  cm_list : hdr_list (d start) = bl;
  cm_slot i m : bl !! i = Some m -> d (start + 1 + Z.of_nat i) = x m;
  cm_home m : outside m -> m ∉ bl -> d m = x m;
}.

Record good_list (bl : list Z) : Prop := {
  gl_nodup : NoDup bl;
  gl_len : Z.of_nat (length bl) < size;
  gl_out m : m ∈ bl -> outside m;
}.

Lemma good_nil : 0 < size -> good_list [].
Proof. intros. split; [apply NoDup_nil_2|simpl; lia|by intros m ?%elem_of_nil]. Qed.

Section one.
Context (x : Z -> block) (bl : list Z) (d : Z -> block).
Hypothesis Hg : good_list bl.

(** Writing home blocks. *)
Lemma committed_homes l : committed x bl d -> (forall m, m ∈ l -> m ∈ bl) -> committed x bl (replay d (homes x l)).
Proof.
  intros [H1 H2 H3 H4] Hl. pose proof (gl_len _ Hg).
  assert (forall m, ~ outside m -> replay d (homes x l) m = d m) as Hin.
  { intros m Hm. apply replay_ne. intros w (m' & -> & Hm')%list_elem_of_fmap E. apply Hm. simpl in E. subst m'.
    by apply (gl_out _ Hg), Hl. }
  assert (0 <= Z.of_nat (length bl)) by lia.
  split; rewrite ?Hin by (unfold outside; lia); [done..|intros i m Hm|intros m Ho Hm].
  - pose proof (lookup_lt_Some _ _ _ Hm). rewrite Hin by (unfold outside; lia). auto.
  - rewrite replay_ne; [auto|]. intros w (m' & -> & Hm')%list_elem_of_fmap E. simpl in E. subst m'. auto.
Qed.

Lemma homes_at l m : m ∈ l -> replay d (homes x l) m = x m.
Proof.
  induction l as [|m' l IH] using rev_ind; [by intros ?%elem_of_nil|]. intros [Hm|Hm%list_elem_of_singleton]%elem_of_app;
    subst; unfold homes in *; rewrite fmap_app, replay_app; simpl; [|by rewrite upd_eq].
  rewrite upd_case. case_decide; [by subst|auto].
Qed.

(** Clearing the header after all of them. *)
Lemma committed_clear h0 : committed x bl d -> hdr_n h0 = 0 ->
  committed x [] (upd (replay d (homes x bl)) start h0).
Proof.
  intros Hc Hh. pose proof (gl_len _ Hg). assert (outside start -> False) as Hs by (unfold outside; lia). split.
  - by rewrite upd_eq.
  - rewrite upd_eq. unfold hdr_list. by rewrite Hh.
  - done.
  - intros m Ho _. rewrite upd_ne by (intros <-; auto). destruct (decide (m ∈ bl)) as [Hm|Hm]; [by apply homes_at|].
    by apply (committed_homes bl Hc).
Qed.

(** Any part of installing and clearing. *)
Lemma finish_prefix h0 ws1 ws2 : committed x bl d -> hdr_n h0 = 0 -> homes x bl ++ [(start, h0)] = ws1 ++ ws2 ->
  committed x bl (replay d ws1) \/ committed x [] (replay d ws1).
Proof.
  intros Hc Hh E. apply app_eq_inv in E as [(k & E1 & E2)|(k & -> & E2)].
  - left. unfold homes in E1. apply fmap_app_inv in E1 as (l1 & l2 & -> & -> & E). apply committed_homes; [done|].
    intros m Hm. rewrite E. apply elem_of_app. by left.
  - destruct k as [|w k].
    + left. rewrite app_nil_r. by apply committed_homes.
    + right. simpl in E2. injection E2 as <- E2. destruct k; [|by destruct k]. rewrite replay_app. by apply committed_clear.
Qed.
End one.

Section commit.
Context (old new : Z -> block) (bl : list Z) (d : Z -> block) (h1 h0 : block).
Hypothesis Hg : good_list bl.
Hypothesis Hc : committed old [] d.
Hypothesis Hnew : forall m, outside m -> m ∉ bl -> new m = old m.
Hypothesis H1 : hdr_n h1 = Z.of_nat (length bl).
Hypothesis H2 : hdr_list h1 = bl.
Hypothesis H0 : hdr_n h0 = 0.
Let lw : list (Z * block) := imap (fun i m => (start + 1 + Z.of_nat i, new m)) bl.
Let fin : list (Z * block) := homes new bl ++ [(start, h0)].

(** Writing the log changes nothing outside it, nor the header. *)
Lemma log_part l m : (forall w, w ∈ l -> w ∈ lw) -> m = start \/ outside m -> replay d l m = d m.
Proof.
  intros Hl Hm. pose proof (gl_len _ Hg). apply replay_ne. intros w (i & m' & -> & Hi)%Hl%elem_of_lookup_imap. simpl.
  apply lookup_lt_Some in Hi. unfold outside in Hm. lia.
Qed.

Lemma commit_header : committed new bl (replay d (lw ++ [(start, h1)])).
Proof.
  pose proof (gl_len _ Hg). rewrite replay_app. simpl. split; rewrite ?upd_eq; try done.
  - intros i m Hi. rewrite upd_ne by lia. unfold lw. rewrite <- (take_drop_middle _ _ _ Hi), imap_app. simpl.
    rewrite length_take_le by (apply lookup_lt_Some in Hi; lia). rewrite replay_app. simpl. rewrite Nat.add_0_r.
    etransitivity; [apply replay_ne|by rewrite upd_eq]. intros w (j & m' & -> & _)%elem_of_lookup_imap. simpl. lia.
  - intros m Ho Hm. rewrite upd_ne by (intros <-; unfold outside in Ho; lia). rewrite log_part by auto.
    rewrite Hnew by done. apply (cm_home _ _ _ Hc); [done|apply not_elem_of_nil].
Qed.

Lemma commit_full : committed new [] (replay d (lw ++ [(start, h1)] ++ fin)).
Proof.
  unfold fin. rewrite app_assoc, !(replay_app _ _ (homes new bl ++ _)), replay_app. simpl.
  apply committed_clear; [done| |done]. apply commit_header.
Qed.

(** Any part of a commit. *)
Lemma commit_prefix k : let ws := lw ++ [(start, h1)] ++ fin in
  let x := if decide (k <= length bl)%nat then old else new in
  committed x [] (replay d (take k ws)) \/ committed x bl (replay d (take k ws)).
Proof.
  intros ws x. assert (length lw = length bl) as Elw by apply length_imap. unfold x. case_decide as Hk.
  - left. unfold ws. rewrite take_app_le by lia. assert (forall w, w ∈ take k lw -> w ∈ lw) as Ht by (intros w; apply subseteq_take).
    destruct Hc as [A1 A2 A3 A4]. split; rewrite ?(log_part _ start Ht) by auto; try done. intros m Ho _. rewrite log_part by auto.
    apply A4; [done|apply not_elem_of_nil].
  - unfold ws. rewrite app_assoc, take_app_ge by (rewrite length_app, Elw; simpl; lia). rewrite replay_app.
    set (j := (k - _)%nat). edestruct (finish_prefix new bl _ Hg h0 (take j fin) (drop j fin) commit_header H0);
      [by rewrite take_drop|by right|by left].
Qed.
End commit.
End disks.

(** ** Boot *)

Section boot.
Context (p : nat) (pid : Z).

Lemma runs_initlock {I} lk (Q : unit -> fstate I -> Prop) f : Q tt f -> FsLogic.runs p pid (onk (on_cpu (initlock lk))) Q f.
Proof.
  intros HQ. apply (runs_onk p pid None None _ (fun _ => True)); [|by intros []].
  intros k Hk. eexists tt, _. split; [done|]. split; [|done]. destruct Hk. split; try done.
  - by apply (hw_wf_set_lock _ lk lock0).
  - intros lk' _. simpl. rewrite upd_case. case_decide; [done|]. by apply bs_free.
Qed.

Lemma runs_initsleeplock {I} l (Q : unit -> fstate I -> Prop) f : Q tt (put_sleep f l (mkSleep false 0)) ->
  FsLogic.runs p pid (initsleeplock l) Q f.
Proof.
  intros HQ. unfold initsleeplock. eapply runs_bind, runs_initlock, runs_bind, runs_modify, runs_modify.
  unfold put_sleep in HQ. simpl. by rewrite upd_eq, upd_upd.
Qed.

(** The buffers as the kernel finds them: bcache is zero. *)
Definition zeroed (f : fstate low) : Prop :=
  forall b, b ∈ bufs -> b_flags (bufs_of f b) = 0 /\ b_dev (bufs_of f b) = 0 /\ b_refcnt (bufs_of f b) = 0.

(** The list of buffers while [binit] builds it. *)
Record building (f : fstate low) (l : list nat) (f' : fstate low) : Prop := {
  bd_ring : ring (bufs_of f') (reverse l);
  bd_same b : unlink (bufs_of f' b) = unlink (bufs_of f b);
  bd_lock b : b ∈ l -> fs_sleep f' (SLbuf b) = mkSleep false 0;
  bd_rest : rest_same f f';
  bd_disk : disk_same f f';
}.

Lemma runs_binit_body f l1 b l2 f1 : NoDup (l1 ++ b :: l2) -> HEAD ∉ l1 ++ b :: l2 -> building f l1 f1 ->
  FsLogic.runs p pid (let* h := buf_get HEAD in
    buf_upd b (set_b_next (b_next h)) ;;;
    buf_upd b (set_b_prev HEAD) ;;;
    initsleeplock (SLbuf b) ;;;
    let* h := buf_get HEAD in
    buf_upd (b_next h) (set_b_prev b) ;;;
    buf_upd HEAD (set_b_next b)) (fun _ => building f (l1 ++ [b])) f1.
Proof.
  intros Hnd Hhd [Hr Hu Hs R1 D1]. apply NoDup_app in Hnd as (Hn1 & Hd & _).
  eapply runs_bind, runs_buf_get, runs_bind, runs_buf_upd, runs_bind, runs_buf_upd, runs_bind, runs_initsleeplock.
  eapply runs_bind, runs_buf_get, runs_bind, runs_buf_upd, runs_buf_upd.
  set (f2 := put_buf _ _ _). assert (bufs_of f2 = front_buf b (bufs_of f1)) as E2 by done. split.
  - rewrite reverse_snoc, E2. apply ring_front.
    + done.
    + by rewrite reverse_Permutation.
    + rewrite elem_of_reverse. intros Hx. apply Hhd, elem_of_app. by left.
    + rewrite elem_of_reverse. intros Hx. apply (Hd b Hx). by left.
    + intros ->. apply Hhd, elem_of_app. right. by left.
  - intros b'. by rewrite E2, unlink_front.
  - intros b' Hb'. simpl. rewrite upd_case. case_decide as Hx; [done|]. apply Hs.
    apply elem_of_app in Hb' as [Hb'|Hb'%list_elem_of_singleton]; [done|]. by subst.
  - destruct R1. by split.
  - done.
Qed.

(** A cache without a block. *)
Lemma empty_cache f L : ring (bufs_of f) L -> L ≡ₚ bufs -> zeroed f -> (forall b, b ∈ bufs -> sl_locked (fs_sleep f (SLbuf b)) = false) ->
  cache pid f (disk_of f) [] [].
Proof.
  intros Hr HL Hz Hs. split.
  - by exists L.
  - intros b Hb. destruct (Hz b Hb) as (E1 & E2 & E3). split; unfold valid, dirty; rewrite ?E1, ?E2, ?E3; try done; [auto| |].
    + by intros ?%elem_of_nil.
    + intros _. by rewrite Hs.
  - intros b1 b2 Hb1 _ E. destruct (Hz b1 Hb1). lia.
  - split; [apply NoDup_nil_2|]. by intros b ?%elem_of_nil.
  - split; [apply NoDup_nil_2|]. by intros b ?%elem_of_nil.
  - done.
Qed.

Lemma built_cache f f1 : zeroed f -> building f bufs f1 -> cache pid f1 (disk_of f) [] [].
Proof.
  intros Hz [Hr Hu Hs R1 D1]. unfold disk_of. rewrite <- (proj1 D1). apply (empty_cache f1 (reverse bufs)); [done|apply reverse_Permutation| |].
  - intros b Hb. specialize (Hu b). destruct (Hz b Hb) as (E1 & E2 & E3).
    split_and!; [rewrite <- E1; by apply (f_equal b_flags) in Hu|rewrite <- E2; by apply (f_equal b_dev) in Hu
      |rewrite <- E3; by apply (f_equal b_refcnt) in Hu].
  - intros b Hb. by rewrite Hs.
Qed.

Lemma runs_binit f (Q : unit -> fstate low -> Prop) : zeroed f ->
  (forall f', cache pid f' (disk_of f) [] [] -> rest_same f f' -> disk_same f f' -> Q tt f') ->
  FsLogic.runs p pid binit Q f.
Proof.
  intros Hz HQ. unfold binit. eapply runs_bind, runs_initlock, runs_bind, runs_buf_upd, runs_bind, runs_buf_upd.
  eapply runs_mono.
  { apply (runs_foreach p pid None _ _ (building f)).
    - split; try done; [intros b; etransitivity; by apply unlink_upd|by intros b ?%elem_of_nil].
    - intros l1 b l2 f1 El Hb. eapply runs_binit_body; rewrite <- ?El; [apply bufs_NoDup|apply bufs_head|done]. }
  intros [] f1 Hb. pose proof (built_cache _ _ Hz Hb). destruct Hb. by apply HQ.
Qed.

Context `{DiskOk}.

Lemma runs_readsb f cont (Q : superblock -> fstate low -> Prop) : cache pid f cont [] [] -> 1 < nblocks f ->
  (forall f', cache pid f' cont [] [] -> rest_same f f' -> disk_same f f' ->
     Q (mkSb (load32 (cont 1) 0) (load32 (cont 1) 4) (load32 (cont 1) 8) (load32 (cont 1) 12) (load32 (cont 1) 16)
             (load32 (cont 1) 20) (load32 (cont 1) 24)) f') ->
  FsLogic.runs p pid (readsb 1) Q f.
Proof.
  intros Hc Hn HQ. unfold readsb.
  eapply runs_bind, (runs_bread _ _ f cont [] []); [done|lia|by intros ? ?%elem_of_nil|right; simpl; unfold NBUF; lia|].
  intros b f1 G1. pose proof (got_cache G1) as C1. assert (b ∈ [b]) as Ib by by left.
  eapply runs_bind, runs_buf_get. fold (bufs_of f1). rewrite (held_data C1 Ib), (got_block G1).
  eapply runs_bind, (runs_brelse _ _ _ _ _ _ _ _ C1).
  { right. rewrite (got_block G1). unfold disk_of. rewrite (proj1 (got_disk G1)). apply (ch_clean Hc); [apply not_elem_of_nil|].
    by intros ? ?%elem_of_nil. }
  intros f2 C2 R2 D2 _. apply runs_ret. apply HQ; [done|eapply rest_trans; [apply G1|done]|].
  destruct D2, (got_disk G1). split; congruence.
Qed.
End boot.

(** [binit] in main, [initlog] in the first process. *)
Definition boot `{BlockDev} : M W unit := binit ;;; initlog 1.

Section atomic.
Context (nb start size : Z).

(** The super block has the place of the log. *)
Definition sb_says (d : Z -> block) : Prop := load32 (d 1) 12 = size /\ load32 (d 1) 16 = start.

(** The disk has room for the log, and the super block is not in it. *)
Record layout : Prop := {
  ly_start : 0 <= start;
  ly_size : 0 < size <= LOGSIZE;
  ly_end : start + size <= nb < 2 ^ 31;
  ly_sb : 1 < nb /\ outside start size 1;
}.

(** A machine that starts with disk [d]. *)
Record powered_on (d : Z -> block) (g : fstate low) : Prop := {
  on_zero : zeroed g;
  on_disk : disk_of g = d;
  on_size : nblocks g = nb;
  on_writes : l_writes (fs_low g) = [];
}.

Record logged (bl : list Z) : Prop := {
  lb_good : good_list start size bl;
  lb_range m : m ∈ bl -> 0 <= m < nb /\ m <> 1;
}.

Context (Hly : layout).

Lemma logged_nil : logged [].
Proof. split; [apply good_nil, Hly|by intros m ?%elem_of_nil]. Qed.

(** The log comes up: the blocks of a committed transaction are written home, and the header is empty. *)
Lemma runs_initlog `{DiskOk} q qid f d x bl (Q : unit -> fstate low -> Prop) : cache qid f d [] [] -> nblocks f = nb -> logged bl ->
  committed start size x bl d -> sb_says d ->
  (forall h0 lg f', hdr_n h0 = 0 -> did qid (put_log f lg) d [] (homes x bl ++ [(start, h0)]) f' -> Q tt f') ->
  runs q qid (initlog 1) Q f.
Proof.
  intros C1 Hn [Hg Hr] Hc [S1 S2] HQ. destruct Hly as [L1 L2 L3 [L4 L5]].
  unfold initlog. change (4 + 4 * LOGSIZE >=? BSIZE) with false. cbv iota.
  eapply runs_bind, runs_initlock, runs_bind, (runs_readsb _ _ _ _ _ C1); [lia|].
  intros f2 C2 R2 D2. simpl. rewrite S1, S2, !s32_small by (unfold LOGSIZE, MAXOPBLOCKS in *; lia).
  eapply runs_bind, runs_log_upd, runs_bind, runs_log_upd, runs_bind, runs_log_upd. simpl. set (lg := l_log (fs_low f2)).
  set (f3 := put_log _ _). pose proof (cache_put_log _ _ (l_log (fs_low f3)) _ _ _ C2) as C3.
  assert (nblocks f3 = nb) as En.
  { change (nblocks f3) with (nblocks f2). by rewrite (nblocks_rest _ _ R2). }
  change (put_log f2 (l_log (fs_low f3))) with f3 in C3.
  destruct (read_log_fields (l_log (fs_low f3)) (d start)) as (E1 & E2 & E3 & E4 & E5).
  rewrite (cm_list _ _ _ _ _ Hc) in E5. rewrite (cm_n _ _ _ _ _ Hc) in E4.
  pose proof (gl_len _ _ _ Hg) as Hlen.
  eapply runs_mono; [apply (runs_recover q qid f3 d bl C3); rewrite ?En|].
  - done.
  - simpl. lia.
  - lia.
  - simpl. rewrite (cm_n _ _ _ _ _ Hc). lia.
  - change (lg_start (l_log (fs_low f3))) with start. split; rewrite ?E1, ?E2, ?E3, ?En; try done; [apply Hg|].
    intros m Hm. split; [by apply Hr|]. unfold in_log. change (lg_start (l_log (fs_low f3))) with start in *. rewrite E1, E2. by apply (gl_out _ _ _ Hg).
  - simpl. intros [] g' (h0 & Hh & [A1 A2 A3 A4]).
    assert (home_writes f3 d bl = homes x bl) as Eh.
    { unfold home_writes. apply homes_imap. intros i m Hm. simpl. by apply (cm_slot _ _ _ _ _ Hc). }
    rewrite Eh in A1, A3, A4. apply (HQ h0 (l_log (fs_low g')) g' Hh). destruct A2, R2, D2 as [D2 W2]. simpl in *.
    split; [done|split; simpl; congruence|..]; unfold disk_of in *; simpl in *; congruence.
Qed.

Lemma runs_boot `{DiskOk} q qid d g x bl : powered_on d g -> logged bl -> committed start size x bl d -> sb_says d ->
  runs q qid boot (fun _ g' => exists h0, hdr_n h0 = 0 /\ l_writes (fs_low g') = homes x bl ++ [(start, h0)] /\
    disk_of g' = replay d (homes x bl ++ [(start, h0)])) g.
Proof.
  intros [Hz Hd Hn Hw] Hb Hc Hs. unfold boot. eapply runs_bind, runs_binit; [done|]. intros f1 C1 R1 [D1 W1]. rewrite Hd in C1.
  eapply (runs_initlog q qid f1 d x bl); try done; [by rewrite (nblocks_rest _ _ R1)|].
  intros h0 lg f' Hh [_ _ A3 A4]. exists h0. split; [done|]. unfold disk_of in *. simpl in *. rewrite A3, A4, W1, Hw, D1, Hd. done.
Qed.

Lemma sb_replay d ws : (forall w, w ∈ ws -> w.1 <> 1) -> sb_says d -> sb_says (replay d ws).
Proof. intros Hw [H1 H2]. unfold sb_says. by rewrite !replay_ne by done. Qed.

(** ** Transactions *)

(** The blocks [bl] are in the running transaction; with it the blocks of the disk
    are [cont]. *)
Record transaction (pid : Z) (f : fstate low) (cont : Z -> block) (bl : list Z) : Prop := {
  tx_cache : cache pid f cont bl [];
  tx_log : log_ok f (l_log (fs_low f)) bl;
  tx_start : lg_start (l_log (fs_low f)) = start;
  tx_size : lg_size (l_log (fs_low f)) = size;
  tx_nb : nblocks f = nb;
  tx_empty : hdr_n (disk_of f start) = 0;
  tx_sb : sb_says (disk_of f) /\ 1 ∉ bl;
}.

Lemma tx_logged pid f cont bl : transaction pid f cont bl -> logged bl.
Proof.
  intros [H1 [? ? ? ? H2 H3 H4] H5 H6 H7 H8 [H9 H10]]. rewrite H6 in H3. unfold in_log in H4. rewrite H5, H6, H7 in H4. split.
  - split; [done|done|]. intros m Hm. by apply H4.
  - intros m Hm. split; [by apply H4|]. by intros ->.
Qed.

Lemma tx_put_log pid f cont bl l : lg_dev l = 1 -> lg_n l = Z.of_nat (length bl) -> lg_start l = start -> lg_size l = size ->
  lg_block l = lg_block (l_log (fs_low f)) -> transaction pid f cont bl -> transaction pid (put_log f l) cont bl.
Proof.
  intros E1 E2 E3 E4 E5 [H1 [G1 G2 G3 G4 G5 G6 G7] H3 H4 H5 H6 H7]. split; try done; [by apply cache_put_log|].
  unfold in_log in *. rewrite H3, H4 in *.
  split; unfold in_log; simpl; rewrite ?E1, ?E2, ?E3, ?E4, ?E5; done.
Qed.

Lemma tx_committed pid f cont bl : transaction pid f cont bl -> committed start size (disk_of f) [] (disk_of f).
Proof.
  intros [H1 H2 H3 H4 H5 H6 H7]. split; try done. unfold hdr_list. by rewrite H6.
Qed.

Lemma tx_clean pid f cont bl m : transaction pid f cont bl -> m ∉ bl -> cont m = disk_of f m.
Proof. intros Ht Hm. apply (ch_clean (tx_cache _ _ _ _ Ht)); [done|]. by intros ? ?%elem_of_nil. Qed.

(** The last operation of a transaction commits it. *)
Lemma runs_end_op `{DiskOk} p pid f cont bl : transaction pid f cont bl -> bl <> [] ->
  lg_outstanding (l_log (fs_low f)) = 1 -> lg_committing (l_log (fs_low f)) = false ->
  runs p pid end_op (fun _ f' => exists h1 h0, hdr_n h1 = Z.of_nat (length bl) /\ hdr_list h1 = bl /\ hdr_n h0 = 0 /\
    let ws := imap (fun i m => (start + 1 + Z.of_nat i, cont m)) bl ++ [(start, h1)] ++ homes cont bl ++ [(start, h0)] in
    let lg := l_log (fs_low f) in
    did pid (put_log f (mkLog (lg_start lg) (lg_size lg) 0 false (lg_dev lg) 0 (lg_block lg))) cont [] ws f') f.
Proof.
  intros Ht Hne Ho Hcm. set (lg := l_log (fs_low f)) in *. unfold end_op.
  eapply runs_bind, runs_wacquire, runs_bind, runs_log_upd. fold lg. rewrite Ho. simpl. eapply runs_bind, runs_log_get. simpl.
  rewrite Hcm. eapply runs_bind, runs_bind, runs_log_upd, runs_ret. eapply runs_bind, runs_wrelease. simpl.
  set (f1 := put_log (put_log f _) _). eapply runs_bind.
  assert (transaction pid f1 cont bl) as Ht1.
  { destruct (tx_log _ _ _ _ Ht) as [E1 _ E2 _ _ _ _].
    apply (tx_put_log pid f cont bl (set_lg_committing true (set_lg_outstanding 0 lg))); try done; [apply Ht|apply Ht]. }
  eapply runs_mono; [apply (runs_commit p pid f1 cont bl bl (tx_cache _ _ _ _ Ht1) (tx_log _ _ _ _ Ht1)); done|].
  intros u f2 (h1 & h0 & Hh1 & Hh2 & Hh0 & D). cbv zeta in D.
  eapply runs_bind, runs_wacquire, runs_bind, runs_log_upd, runs_bind, runs_wakeup; [done|]. apply runs_wrelease.
  exists h1, h0. split_and!; [done..|]. cbv zeta. rewrite (rs_log (di_rest _ _ _ _ _ _ D)).
  apply (did_put_log _ _ _ _ _ _ (set_lg_committing false (set_lg_n 0 (l_log (fs_low f1))))) in D.
  unfold log_writes in D. rewrite (tx_start _ _ _ _ Ht1) in D. exact D.
Qed.

(** The disks a crash can leave: after the first [k] of the writes [ws], and then
    after any part of the writes of any number of boots. *)
Inductive crashed `{BlockDev} (q : nat) (qid : Z) (d0 : Z -> block) (ws : list (Z * block)) (k : nat) : (Z -> block) -> Prop :=
  | crash_op : crashed q qid d0 ws k (replay d0 (take k ws))
  | crash_boot d g ks ks' g' j : crashed q qid d0 ws k d -> powered_on d g -> calm q qid ks ->
      boot (ks, g) = Ret tt (ks', g') -> crashed q qid d0 ws k (replay d (take j (l_writes (fs_low g')))).

Lemma take_prefix {A} (l1 l2 : list A) w j : w ∈ take j (l1 ++ l2) -> w ∈ l1 \/ w ∈ l2.
Proof. intros Hw. by apply elem_of_app, (subseteq_take j). Qed.

(** Every such disk holds the old blocks or the new ones. *)
Lemma crashed_safe `{DiskOk} q qid pid f cont bl h1 h0 k d : transaction pid f cont bl ->
  hdr_n h1 = Z.of_nat (length bl) -> hdr_list h1 = bl -> hdr_n h0 = 0 ->
  let ws := imap (fun i m => (start + 1 + Z.of_nat i, cont m)) bl ++ [(start, h1)] ++ homes cont bl ++ [(start, h0)] in
  let x := if decide (k <= length bl)%nat then disk_of f else cont in
  crashed q qid (disk_of f) ws k d -> sb_says d /\ exists bl', logged bl' /\ committed start size x bl' d.
Proof.
  intros Ht Hh1 Hh2 Hh0 ws x Hd. pose proof (tx_logged _ _ _ _ Ht) as Hlb. pose proof logged_nil as Hnil.
  destruct Hly as [L1 L2 L3 [L4 L5]]. unfold outside in L5. pose proof (lb_good _ Hlb) as Hg.
  assert (forall w, w ∈ homes x bl -> w.1 <> 1) as Hhm by (intros w (m & -> & Hm)%list_elem_of_fmap; by apply (lb_range _ Hlb)).
  induction Hd as [|d g ks ks' g' j Hd IH Hon Hks Hb].
  - split.
    + apply sb_replay; [|apply Ht]. intros w Hw%(subseteq_take k). unfold ws in Hw. rewrite !elem_of_app in Hw.
      destruct Hw as [(i & m & -> & Hi)%elem_of_lookup_imap|[Hw%list_elem_of_singleton|[(m & -> & Hm)%list_elem_of_fmap|Hw%list_elem_of_singleton]]];
        subst; simpl.
      * apply lookup_lt_Some in Hi. pose proof (gl_len _ _ _ Hg). lia.
      * lia.
      * by apply (lb_range _ Hlb).
      * lia.
    + destruct (commit_prefix start size (disk_of f) cont bl (disk_of f) h1 h0 Hg (tx_committed _ _ _ _ Ht)
        (fun m _ Hm => tx_clean _ _ _ _ m Ht Hm) Hh1 Hh2 Hh0 k) as [Hc|Hc].
      * by exists [].
      * by exists bl.
  - destruct IH as (Hs & bl' & Hlb' & Hc). destruct (runs_boot q qid d g x bl' Hon Hlb' Hc Hs ks Hks) as (u & k1 & g1 & E & _ & h & Hh & Ew & Ed).
    destruct u. rewrite E in Hb. injection Hb as <- <-. clear E. rewrite Ew. split.
    + apply sb_replay; [|done]. intros w [(m & -> & Hm)%list_elem_of_fmap|Hw%list_elem_of_singleton]%take_prefix; subst; simpl; [by apply (lb_range _ Hlb')|lia].
    + destruct (finish_prefix start size x bl' d (lb_good _ Hlb') h (take j (homes x bl' ++ [(start, h)])) (drop j (homes x bl' ++ [(start, h)])) Hc Hh).
      * by rewrite take_drop.
      * by exists bl'.
      * by exists [].
Qed.

(** C3. Atomicity of transactions: the last end_op of a transaction returns with
    every block of it on the disk.  If the machine stops after any number [k] of
    its disk writes, and any number of boots that try to recover stop early too,
    then the boot that finishes leaves outside the log the old contents of every
    block when the header was not among the [k] writes, and the new contents of
    every block when it was. *)
Theorem end_op_crash_atomic `{DiskOk} p pid q qid f cont bl : transaction pid f cont bl -> bl <> [] ->
  lg_outstanding (l_log (fs_low f)) = 1 -> lg_committing (l_log (fs_low f)) = false ->
  runs p pid end_op (fun _ f' => exists ws, l_writes (fs_low f') = l_writes (fs_low f) ++ ws /\
    (forall m, outside start size m -> disk_of f' m = cont m) /\
    forall k d g, crashed q qid (disk_of f) ws k d -> powered_on d g ->
      runs q qid boot (fun _ g' => forall m, outside start size m ->
        disk_of g' m = if decide (k <= length bl)%nat then disk_of f m else cont m) g) f.
Proof.
  intros Ht Hne Ho Hcm. eapply runs_mono; [by apply (runs_end_op p pid f cont bl)|].
  intros u f' (h1 & h0 & Hh1 & Hh2 & Hh0 & [A1 A2 A3 A4]). cbv zeta in *. set (ws := imap _ bl ++ _) in *.
  exists ws. split; [done|]. pose proof (tx_logged _ _ _ _ Ht) as Hlb. split.
  - intros m Hm. rewrite A3. change (disk_of (put_log f _)) with (disk_of f).
    assert (committed start size cont [] (replay (disk_of f) ws)) as Hc.
    { apply (commit_full start size (disk_of f)); try done; [apply Hlb|by eapply tx_committed|].
      intros m' _ Hm'. by eapply tx_clean. }
    apply (cm_home _ _ _ _ _ Hc); [done|apply not_elem_of_nil].
  - intros k d g Hcr Hon. destruct (crashed_safe q qid pid f cont bl h1 h0 k d Ht Hh1 Hh2 Hh0 Hcr) as (Hs & bl' & Hlb' & Hc).
    eapply runs_mono; [apply (runs_boot q qid d g (if decide (k <= length bl)%nat then disk_of f else cont) bl' Hon Hlb' Hc Hs)|]. intros u' g' (h & Hh & _ & Ed) m Hm.
    rewrite Ed, replay_app. simpl.
    pose proof (committed_clear start size _ bl' d (lb_good _ Hlb') h Hc Hh) as Hcl.
    rewrite (cm_home _ _ _ _ _ Hcl m Hm (not_elem_of_nil _)). by case_decide.
Qed.
End atomic.
