(* ===== verification/LogWrite.v ===== *)
(** * Blocks of a transaction

    [log_write], the updates of blocks built on it, and how many blocks the log
    takes. *)
From S2P Require Import Prelude Machine ProcQueue StringC Spinlock Kalloc Vm VmFrame Proc RunQueue ProcRun Sched UserMem Trap FsState Sleeplock Disk Bio Log FsLogic BufList Cache LogSpec.

(** ** log_write *)

Definition add_block (bl : list Z) (n : Z) : list Z := if decide (n ∈ bl) then bl else bl ++ [n].
Lemma add_block_length (l : list Z) n : (length (add_block l n) <= S (length l))%nat.
Proof. unfold add_block. case_decide; rewrite ?length_app; simpl; lia. Qed.

Lemma log_slot_spec f lg bl n : log_ok f lg bl -> 0 <= n < nblocks f ->
  exists i, log_slot lg n = Z.of_nat i /\ (bl !! i = Some n \/ n ∉ bl /\ i = length bl).
Proof.
  intros Hl Hn. pose proof (lo_geom _ _ _ Hl) as Hg.
  assert (forall i m, bl !! i = Some m -> u32 (lg_block lg (Z.of_nat i)) = m) as Hu.
  { intros i m Hi. rewrite (lo_block _ _ _ Hl _ _ Hi). apply u32_small.
    destruct (lo_home _ _ _ Hl m ltac:(by eapply list_elem_of_lookup_2)). lia. }
  unfold log_slot. rewrite (lo_n _ _ _ Hl).
  destruct (find_first _ _) as [i|] eqn:E.
  - apply find_first_elem in E as [Hi%elem_of_seqZ Et]. apply Z.eqb_eq in Et.
    destruct (lookup_lt_is_Some_2 bl (Z.to_nat i) ltac:(lia)) as [m Hm]. pose proof (Hu _ _ Hm) as Em.
    rewrite Z2Nat.id in Em by lia. exists (Z.to_nat i). rewrite Z2Nat.id by lia. split; [done|left]. congruence.
  - exists (length bl). split; [lia|right]. split; [|done]. intros (i & Hi)%list_elem_of_lookup.
    rewrite find_first_None in E. pose proof (lookup_lt_Some _ _ _ Hi).
    specialize (E (Z.of_nat i)). rewrite elem_of_seqZ, (Hu _ _ Hi), Z.eqb_refl in E. specialize (E ltac:(lia)). done.
Qed.

(** The log after [log_write] of block [n]. *)
Definition logged_write (lg : logst) (i n : Z) : logst :=
  let l := set_lg_block (upd (lg_block lg) i (s32 n)) lg in
  if i =? lg_n lg then set_lg_n (lg_n l + 1) l else l.

Lemma logged_write_ok f lg bl n i : log_ok f lg bl -> 0 <= n < nblocks f -> ~ in_log lg n ->
  Z.of_nat (length bl) < lg_size lg - 1 -> bl !! i = Some n \/ n ∉ bl /\ i = length bl ->
  log_ok f (logged_write lg (Z.of_nat i) n) (add_block bl n).
Proof.
  intros [H1 H2 H3 H4 H5 H6 H7] Hn Ho Hs Hi. unfold logged_write, add_block. rewrite H3.
  assert (s32 n = n) as En by (apply s32_small; lia). rewrite En. destruct Hi as [Hi|[Hi ->]].
  - pose proof (lookup_lt_Some _ _ _ Hi). rewrite (proj2 (Z.eqb_neq _ _)) by lia.
    rewrite decide_True by (by eapply list_elem_of_lookup_2). split; try done. simpl. intros j m Hj.
    rewrite upd_case. case_decide as E; [|by apply H4]. apply Nat2Z.inj in E. subst. congruence.
  - rewrite Z.eqb_refl, decide_False by done. split; simpl; rewrite ?length_app; simpl; try done; try lia.
    + intros j m [Hj|[Hle Hj]]%lookup_app_Some.
      * rewrite upd_ne; [by apply H4|]. apply lookup_lt_Some in Hj. lia.
      * destruct (j - length bl)%nat eqn:E; [|done]. injection Hj as <-. assert (j = length bl) as -> by lia. by rewrite upd_eq.
    + apply NoDup_app. split_and!; [done| |apply NoDup_singleton]. intros m Hm ->%list_elem_of_singleton. done.
    + intros m [Hm|Hm%list_elem_of_singleton]%elem_of_app; [by apply H7|by subst].
Qed.

(** What changes besides the blocks: the list of the log. *)
Record log_step (f f' : fstate low) : Prop := {
  ls_rest : rest_same (put_log f (l_log (fs_low f'))) f';
  ls_disk : disk_same f f';
  ls_start : lg_start (l_log (fs_low f')) = lg_start (l_log (fs_low f));
  ls_size : lg_size (l_log (fs_low f')) = lg_size (l_log (fs_low f));
  ls_outstanding : lg_outstanding (l_log (fs_low f')) = lg_outstanding (l_log (fs_low f));
  ls_committing : lg_committing (l_log (fs_low f')) = lg_committing (l_log (fs_low f));
}.

Lemma log_step_refl f : log_step f f.
Proof. split; try done. Qed.
Lemma log_step_trans f1 f2 f3 : log_step f1 f2 -> log_step f2 f3 -> log_step f1 f3.
Proof.
  intros [[] [] ? ? ? ?] [[] [] ? ? ? ?]. simpl in *. split; try (split; simpl); congruence.
Qed.
Lemma log_step_rest f f' : rest_same f f' -> disk_same f f' -> log_step f f'.
Proof. intros [] Hd. split; try congruence; done. Qed.

Section write.
Context (p : nat) (pid : Z).

Lemma runs_log_write f cont held bl b (Q : unit -> fstate low -> Prop) : cache pid f cont bl held -> b ∈ held ->
  let n := b_blockno (bufs_of f b) in let lg := l_log (fs_low f) in
  log_ok f lg bl -> ~ in_log lg n -> Z.of_nat (length bl) < lg_size lg - 1 -> 1 <= lg_outstanding lg ->
  (forall f', cache pid f' cont (add_block bl n) held -> log_ok f' (l_log (fs_low f')) (add_block bl n) ->
     log_step f f' -> blocks_kept held f f' -> Q tt f') ->
  runs p pid (log_write b) Q f.
Proof.
  intros Hc Hb n lg Hl Hn Hs Ho HQ. pose proof (lo_geom _ _ _ Hl) as Hg. pose proof (held_range Hc Hb) as Hr. fold n in Hr.
  unfold log_write. eapply runs_bind, runs_log_get. fold lg. rewrite (lo_n _ _ _ Hl).
  rewrite !Z.geb_leb, !(proj2 (Z.leb_gt _ _)), (proj2 (Z.ltb_ge _ _)) by lia. cbn [orb].
  eapply runs_bind, runs_wacquire, runs_bind, runs_log_get, runs_bind, runs_buf_get. fold (bufs_of f) n lg.
  destruct (log_slot_spec f lg bl n Hl Hr) as (i & Ei & Hi). rewrite Ei.
  eapply runs_bind, runs_log_upd. fold lg. set (f1 := put_log f _). eapply runs_bind.
  assert (forall Q : unit -> fstate low -> Prop, Q tt (put_log f (logged_write lg (Z.of_nat i) n)) -> runs_in p pid (Some Llog) (Some Llog)
    (if Z.of_nat i =? lg_n lg then log_upd (fun l => set_lg_n (lg_n l + 1) l) else ret tt) Q f1) as Hrun.
  { intros Q' HQ'. unfold logged_write in HQ'. destruct (_ =? _); [by apply runs_log_upd|by apply runs_ret]. }
  apply Hrun.
  eapply runs_bind, (runs_mark_dirty _ _ _ _ _ _ _ (cache_put_log _ _ _ _ _ _ Hc) Hb). change (bufs_of (put_log f ?l)) with (bufs_of f).
  fold n (add_block bl n). intros f2 C2 R2 D2 K2. apply runs_wrelease. apply HQ; [done| | |done].
  - rewrite (rs_log R2). simpl. apply (log_ok_rest f); [by apply (nblocks_rest _ _ R2)|]. by apply logged_write_ok.
  - pose proof (rs_log R2) as E2. simpl in E2. unfold logged_write in E2.
    split; [by rewrite (rs_log R2)|done|..]; rewrite E2; by destruct (_ =? _).
Qed.

Context `{DiskOk}.

(** Changing block [n] in a transaction, as the file system does it. *)
Definition update (u : Z * (block -> block)) : M W unit :=
  let* b := bread 1 u.1 in
  buf_upd b (fun x => set_b_data (u.2 (b_data x)) x) ;;;
  log_write b ;;;
  brelse b.

Definition updated (cont : Z -> block) (u : Z * (block -> block)) : Z -> block := upd cont u.1 (u.2 (cont u.1)).

(** An operation runs, its transaction has changed the blocks [bl], and it holds the buffers [held]. *)
Record in_txh (held : list nat) (f : fstate low) (cont : Z -> block) (bl : list Z) : Prop := {
  it_cache : cache pid f cont bl held;
  it_log : log_ok f (l_log (fs_low f)) bl;
  it_op : 1 <= lg_outstanding (l_log (fs_low f));
}.
Notation in_tx := (in_txh []).

Lemma step_nblocks f f' : log_step f f' -> nblocks f' = nblocks f.
Proof. intros [R _ _ _ _ _]. apply (nblocks_rest _ _ R). Qed.
Lemma step_in_log f f' m : log_step f f' -> in_log (l_log (fs_low f')) m <-> in_log (l_log (fs_low f)) m.
Proof. intros [_ _ E1 E2 _ _]. unfold in_log. by rewrite E1, E2. Qed.

Lemma tx_room f cont bl : in_tx f cont bl -> (length bl < NBUF)%nat.
Proof. intros [H1 H2 _]. by apply (pin_room pid f cont bl bl H1 H2). Qed.

Lemma kept_trans held f1 f2 f3 : blocks_kept held f1 f2 -> blocks_kept held f2 f3 -> blocks_kept held f1 f3.
Proof. intros H1 H2 b Hb. by rewrite H2, H1. Qed.
Lemma kept_cons held b f f' : blocks_kept (b :: held) f f' -> blocks_kept held f f'.
Proof. intros Hk b' Hb'. apply Hk. by right. Qed.
Lemma got_kept f cont bl held n b f1 : got pid f cont bl held n b f1 -> blocks_kept held f f1.
Proof. intros G b' Hb'. by rewrite (got_held G b' Hb'). Qed.

(** Block [n] is in none of the held buffers. *)
Definition not_held (held : list nat) (f : fstate low) (n : Z) : Prop := forall b, b ∈ held -> b_blockno (bufs_of f b) <> n.
Lemma not_held_nil f n : not_held [] f n.
Proof. by intros ? ?%elem_of_nil. Qed.
Lemma not_held_kept held f f' n : blocks_kept held f f' -> not_held held f n -> not_held held f' n.
Proof. intros Hk Hn b Hb. rewrite Hk by done. by apply Hn. Qed.

Section held.
Context (held : list nat).

(** A block that was got is held. *)
Lemma got_txh f cont bl n b f1 : in_txh held f cont bl -> got pid f cont bl held n b f1 ->
  in_txh (b :: held) f1 cont bl /\ log_step f f1 /\ blocks_kept held f f1.
Proof.
  intros [Hc Hl Ho] G. pose proof (log_step_rest _ _ (got_rest G) (got_disk G)) as S. pose proof (rs_log (got_rest G)) as El.
  split_and!; [|done|by eapply got_kept]. split; [apply (got_cache G)| |by rewrite El]. rewrite El. apply (log_ok_rest f); [by apply step_nblocks|done].
Qed.

(** Changing a block that is held, and giving it back. *)
Lemma runs_store f cont bl g b (Q : unit -> fstate low -> Prop) : in_txh (b :: held) f cont bl -> let n := b_blockno (bufs_of f b) in
  ~ in_log (l_log (fs_low f)) n -> Z.of_nat (length bl) < lg_size (l_log (fs_low f)) - 1 ->
  (forall f', in_txh held f' (updated cont (n, g)) (add_block bl n) -> log_step f f' -> blocks_kept held f f' -> Q tt f') ->
  runs p pid (buf_upd b (fun x => set_b_data (g (b_data x)) x) ;;; log_write b ;;; brelse b) Q f.
Proof.
  intros [Hc Hl Hop] n Ho Hs HQ. assert (b ∈ b :: held) as Ib by by left.
  eapply runs_bind. apply (runs_set_data p pid f cont bl (b :: held) b Hc Ib None g). fold n. intros f2 C2 R2 D2 K2.
  pose proof (K2 b Ib) as E2. fold n in E2. pose proof (log_step_rest _ _ R2 D2) as S2. pose proof (rs_log R2) as El.
  eapply runs_bind, (runs_log_write f2 _ (b :: held) bl b _ C2 Ib); rewrite ?E2, ?El; try done.
  { apply (log_ok_rest f); [by apply step_nblocks|done]. }
  intros f3 C3 L3 S3 K3. pose proof (K3 b Ib) as E3. rewrite E2 in E3.
  eapply (runs_brelse _ _ _ _ _ _ _ _ C3).
  { left. rewrite E3. unfold add_block. case_decide; [done|]. apply elem_of_app. right. by left. }
  intros f4 C4 R4 D4 K4. pose proof (log_step_rest _ _ R4 D4) as S4.
  pose proof (log_step_trans _ _ _ (log_step_trans _ _ _ S2 S3) S4) as S. apply HQ; [|done|].
  - split; [done| |by rewrite (ls_outstanding _ _ S)]. rewrite (rs_log R4). apply (log_ok_rest f3); [by apply step_nblocks|done].
  - eapply kept_trans; [by eapply kept_cons|]. eapply kept_trans; [by eapply kept_cons|done].
Qed.

(** With the block just got. *)
Lemma runs_changeh f cont bl n g b f1 (Q : unit -> fstate low -> Prop) : in_txh held f cont bl ->
  ~ in_log (l_log (fs_low f)) n -> Z.of_nat (length bl) < lg_size (l_log (fs_low f)) - 1 -> got pid f cont bl held n b f1 ->
  (forall f', in_txh held f' (updated cont (n, g)) (add_block bl n) -> log_step f f' -> blocks_kept held f f' -> Q tt f') ->
  runs p pid (buf_upd b (fun x => set_b_data (g (b_data x)) x) ;;; log_write b ;;; brelse b) Q f1.
Proof.
  intros Ht Ho Hs G1 HQ. destruct (got_txh _ _ _ _ _ _ Ht G1) as (Ht1 & S1 & K1). pose proof (got_block G1) as E1.
  eapply runs_store; [exact Ht1|by rewrite E1, (step_in_log _ _ _ S1)|by rewrite (ls_size _ _ S1)|]. rewrite E1. intros f' Ht' S' K'.
  apply HQ; [done|by eapply log_step_trans|by eapply kept_trans].
Qed.

(** Only reading it. *)
Lemma runs_unreadh f cont bl n b f1 (Q : unit -> fstate low -> Prop) : in_txh held f cont bl -> not_held held f n ->
  got pid f cont bl held n b f1 ->
  (forall f', in_txh held f' cont bl -> log_step f f' -> blocks_kept held f f' -> Q tt f') -> runs p pid (brelse b) Q f1.
Proof.
  intros [Hc Hl Hop] Hn G1 HQ. eapply (runs_brelse _ _ _ _ _ _ _ _ (got_cache G1)).
  { rewrite (got_block G1). destruct (decide (n ∈ bl)) as [|Hb]; [by left|right]. unfold disk_of. rewrite (proj1 (got_disk G1)).
    by apply (ch_clean Hc). }
  intros f2 C2 R2 D2 K2.
  pose proof (log_step_trans _ _ _ (log_step_rest _ _ (got_rest G1) (got_disk G1)) (log_step_rest _ _ R2 D2)) as S2.
  assert (l_log (fs_low f2) = l_log (fs_low f)) as El by (by rewrite (rs_log R2), (rs_log (got_rest G1))).
  apply HQ; [|done|eapply kept_trans; [by eapply got_kept|done]]. split; [done| |by rewrite El]. rewrite El.
  apply (log_ok_rest f); [by apply step_nblocks|done].
Qed.

Lemma runs_txh_bread f cont bl n (Q : nat -> fstate low -> Prop) : in_txh held f cont bl -> 0 <= n < nblocks f -> not_held held f n ->
  (length held + length bl < NBUF)%nat ->
  (forall b f', got pid f cont bl held n b f' -> b_data (bufs_of f' b) = cont n -> Q b f') -> runs p pid (bread 1 n) Q f.
Proof.
  intros Ht Hn Hh Hroom HQ.
  apply (runs_bread _ _ f cont bl held); [apply Ht|done|done|by right|]. intros b f' G. apply HQ; [done|].
  assert (b ∈ b :: held) as Ib by by left. by rewrite (held_data (got_cache G) Ib), (got_block G).
Qed.

(** The log has fewer blocks than there are buffers. *)
Lemma held_room f cont bl : in_txh held f cont bl -> (length held <= 1)%nat -> Z.of_nat (length bl) < lg_size (l_log (fs_low f)) - 1 ->
  (length held + length bl < NBUF)%nat.
Proof. intros [_ Hl _] Hh Hs. pose proof (lo_geom _ _ _ Hl). unfold LOGSIZE, MAXOPBLOCKS, NBUF in *. lia. Qed.

Lemma runs_updateh f cont bl u (Q : unit -> fstate low -> Prop) : in_txh held f cont bl -> 0 <= u.1 < nblocks f -> not_held held f u.1 ->
  (length held <= 1)%nat ->
  ~ in_log (l_log (fs_low f)) u.1 -> Z.of_nat (length bl) < lg_size (l_log (fs_low f)) - 1 ->
  (forall f', in_txh held f' (updated cont u) (add_block bl u.1) -> log_step f f' -> blocks_kept held f f' -> Q tt f') ->
  runs p pid (update u) Q f.
Proof.
  intros Ht Hn Hnh Hh Ho Hs HQ. destruct u as [n g]. unfold update.
  eapply runs_bind, runs_txh_bread; [done..|by eapply held_room|]. intros b f1 G1 _. by eapply runs_changeh.
Qed.
End held.

(** The same without held buffers. *)
Lemma runs_update f cont bl u (Q : unit -> fstate low -> Prop) : in_tx f cont bl -> 0 <= u.1 < nblocks f ->
  ~ in_log (l_log (fs_low f)) u.1 -> Z.of_nat (length bl) < lg_size (l_log (fs_low f)) - 1 ->
  (forall f', in_tx f' (updated cont u) (add_block bl u.1) -> log_step f f' -> Q tt f') ->
  runs p pid (update u) Q f.
Proof. intros Ht Hn Ho Hs HQ. eapply runs_updateh; [done|done|apply not_held_nil|simpl; lia|done|done|]. auto. Qed.

Definition blocks_of (bl : list Z) (us : list (Z * (block -> block))) : list Z := foldl (fun bl u => add_block bl u.1) bl us.

Lemma blocks_mono us bl : (length bl <= length (blocks_of bl us))%nat.
Proof.
  revert bl. induction us as [|u us IH]; intros bl; simpl; [done|]. etransitivity; [|apply IH].
  unfold add_block. case_decide; rewrite ?length_app; lia.
Qed.

Lemma runs_updates us : forall f cont bl (Q : unit -> fstate low -> Prop), in_tx f cont bl ->
  (forall u, u ∈ us -> 0 <= u.1 < nblocks f /\ ~ in_log (l_log (fs_low f)) u.1) ->
  (forall us1 u us2, us = us1 ++ u :: us2 -> Z.of_nat (length (blocks_of bl us1)) < lg_size (l_log (fs_low f)) - 1) ->
  (forall f', in_tx f' (foldl updated cont us) (blocks_of bl us) -> log_step f f' -> Q tt f') ->
  runs p pid (foreach us update) Q f.
Proof.
  induction us as [|u us IH]; intros f cont bl Q Ht Hu Hs HQ; simpl.
  - apply runs_ret. apply HQ; [done|apply log_step_refl].
  - destruct (Hu u) as [Hn Ho]; [by left|]. eapply runs_bind, (runs_update f cont bl u); [done..| |].
    { by apply (Hs [] u us). }
    intros f1 Ht1 S1. apply (IH f1 _ _ _ Ht1).
    + intros u' Hu'. rewrite (step_nblocks _ _ S1), (step_in_log _ _ _ S1). apply Hu. by right.
    + intros us1 u' us2 ->. rewrite (ls_size _ _ S1). by apply (Hs (u :: us1) u' us2).
    + intros f2 Ht2 S2. apply HQ; [done|by eapply log_step_trans].
Qed.

(** C27. Updates in a transaction: changing blocks through bread, log_write and
    brelse never panics while the log has room; afterwards the log lists every
    block that was changed exactly once (absorption), the cache has the new
    contents of all of them, and the disk is unchanged. *)
Theorem log_write_absorbs f cont bl us : in_tx f cont bl ->
  (forall u, u ∈ us -> 0 <= u.1 < nblocks f /\ ~ in_log (l_log (fs_low f)) u.1) ->
  Z.of_nat (length (blocks_of bl us)) < lg_size (l_log (fs_low f)) - 1 ->
  runs p pid (foreach us update) (fun _ f' =>
    cache pid f' (foldl updated cont us) (blocks_of bl us) [] /\
    (fun i => lg_block (l_log (fs_low f')) i) <$> seqZ 0 (lg_n (l_log (fs_low f'))) = blocks_of bl us /\
    NoDup (blocks_of bl us) /\ disk_of f' = disk_of f) f.
Proof.
  intros Ht Hu Hs. apply (runs_updates us f cont bl _ Ht Hu).
  - intros us1 u us2 ->. unfold blocks_of in Hs. rewrite foldl_app in Hs.
    pose proof (blocks_mono (u :: us2) (blocks_of bl us1)). unfold blocks_of in *. lia.
  - intros f' [C' L' _] S'. split_and!; [done| |apply L'|by apply S'].
    rewrite (lo_n _ _ _ L'). apply list_eq. intros i. rewrite list_lookup_fmap.
    destruct (blocks_of bl us !! i) as [m|] eqn:E.
    + pose proof (lookup_lt_Some _ _ _ E). rewrite lookup_seqZ_lt, Z.add_0_l by lia. cbn. by rewrite (lo_block _ _ _ L' _ _ E).
    + apply lookup_ge_None in E. by rewrite lookup_seqZ_ge by lia.
Qed.

(** ** The space of the log *)

Lemma runs_begin_op f (Q : unit -> fstate low -> Prop) : let lg := l_log (fs_low f) in
  lg_committing lg = false -> lg_n lg + (lg_outstanding lg + 1) * MAXOPBLOCKS <= LOGSIZE ->
  Q tt (put_log f (set_lg_outstanding (lg_outstanding lg + 1) lg)) -> runs p pid begin_op Q f.
Proof.
  intros lg Hc Hn HQ. unfold begin_op, begin_op_locked. eapply runs_bind, runs_wacquire, runs_bind, runs_log_get. fold lg.
  rewrite Hc, Z.gtb_ltb, (proj2 (Z.ltb_ge _ _)) by lia. eapply runs_bind, runs_log_upd. by apply runs_wrelease.
Qed.

Lemma blocks_distinct us bl : NoDup (bl ++ (fst <$> us)) -> blocks_of bl us = bl ++ (fst <$> us).
Proof.
  revert bl. induction us as [|u us IH]; intros bl Hnd; simpl in *; [by rewrite app_nil_r|].
  assert (u.1 ∉ bl) as Hu by (intros Hu; apply NoDup_app in Hnd as (_ & Hd & _); apply (Hd _ Hu); by left).
  unfold add_block. rewrite decide_False by done. rewrite IH; rewrite <- app_assoc; done.
Qed.

(** [m] panics. *)
Definition panics {A} (h : option lockid) (m : M W A) (msg : string) (f : fstate low) : Prop :=
  forall k, busy p pid h k -> m (k, f) = Panic msg.

Lemma panics_bind {A B} h h1 (m : M W A) (g : A -> M W B) msg f :
  runs_in p pid h h1 m (fun a f' => panics h1 (g a) msg f') f -> panics h (bind m g) msg f.
Proof.
  intros Hm k Hk. destruct (Hm k Hk) as (a & k1 & f1 & E & Hk1 & Hp). rewrite (bind_Ret _ _ _ _ _ E). by apply Hp.
Qed.

Lemma panics_first {A B} h (m : M W A) (g : A -> M W B) msg f : panics h m msg f -> panics h (bind m g) msg f.
Proof. intros Hm k Hk. unfold bind. by rewrite (Hm k Hk). Qed.

Lemma log_write_full b f : lg_n (l_log (fs_low f)) >= lg_size (l_log (fs_low f)) - 1 ->
  panics None (log_write b) "too big a transaction" f.
Proof.
  intros Hn. unfold log_write. eapply panics_bind, runs_log_get. rewrite (Z.geb_leb _ (_ - _)), (proj2 (Z.leb_le _ _)) by lia.
  by rewrite orb_true_r.
Qed.

(** Updating a block when the log is full. *)
Lemma update_full f cont bl u : in_tx f cont bl -> 0 <= u.1 < nblocks f -> u.1 ∉ bl ->
  Z.of_nat (length bl) >= lg_size (l_log (fs_low f)) - 1 -> panics None (update u) "too big a transaction" f.
Proof.
  intros Ht Hn Hu Hfull. pose proof (tx_room _ _ _ Ht) as Hroom. destruct Ht as [Hc Hl _]. unfold update.
  eapply panics_bind, (runs_bread _ _ f cont bl []); [done|done|by intros ? ?%elem_of_nil|by right|]. intros b f1 G1.
  eapply panics_bind, runs_buf_upd.
  assert (lg_n (l_log (fs_low f1)) >= lg_size (l_log (fs_low f1)) - 1) as Hf1.
  { rewrite (rs_log (got_rest G1)), (lo_n _ _ _ Hl). done. }
  apply panics_first, log_write_full, Hf1.
Qed.

Lemma panics_foreach_snoc us u f msg : runs p pid (foreach us update) (fun _ f' => panics None (update u) msg f') f ->
  panics None (foreach (us ++ [u]) update) msg f.
Proof.
  intros Hr k Hk. rewrite foreach_app. revert k Hk. apply (panics_bind None None (foreach us update) (fun _ => foreach [u] update) msg f).
  eapply runs_mono; [exact Hr|]. intros u' f' Hp.
  by apply panics_first.
Qed.

(** C38. The reservations of the log are one block too large: from an idle log
    begin_op admits three operations of MAXOPBLOCKS blocks each, but the log takes
    one block less than LOGSIZE, and the last update of the last operation
    panics. *)
Theorem log_space_one_short f us k : let lg := l_log (fs_low f) in
  cache pid f (disk_of f) [] [] -> log_ok f lg [] -> lg_size lg = LOGSIZE -> lg_outstanding lg = 0 -> lg_committing lg = false ->
  length us = Z.to_nat (3 * MAXOPBLOCKS) -> NoDup (fst <$> us) ->
  (forall u, u ∈ us -> 0 <= u.1 < nblocks f /\ ~ in_log lg u.1) -> calm p pid k ->
  (begin_op ;;; begin_op ;;; begin_op ;;; foreach us update) (k, f) = Panic "too big a transaction".
Proof.
  intros lg Hc Hl Hsz Ho Hcm Hlen Hnd Hu Hk. pose proof (lo_n _ _ _ Hl) as Hn. simpl in Hn. revert k Hk.
  enough (panics None (begin_op ;;; begin_op ;;; begin_op ;;; foreach us update) "too big a transaction" f) by done.
  eapply panics_bind, runs_begin_op; fold lg; [done|rewrite Hn, Ho; unfold LOGSIZE, MAXOPBLOCKS; lia|].
  eapply panics_bind, runs_begin_op; simpl; fold lg; [done|rewrite Hn, Ho; unfold LOGSIZE, MAXOPBLOCKS; lia|].
  eapply panics_bind, runs_begin_op; simpl; fold lg; [done|rewrite Hn, Ho; unfold LOGSIZE, MAXOPBLOCKS; lia|].
  rewrite Ho. set (f3 := put_log _ _). assert (in_tx f3 (disk_of f) []) as Ht3.
  { split; [by do 3 apply cache_put_log| |simpl; lia]. destruct Hl. by split. }
  destruct us as [|u us _] using rev_ind; [done|]. rewrite length_app in Hlen. rewrite fmap_app in Hnd.
  apply NoDup_app in Hnd as (Hnd & Hdis & _). pose proof (blocks_distinct us [] Hnd) as Eb.
  apply panics_foreach_snoc. apply (runs_updates us f3 _ _ _ Ht3).
  - intros u' Hu'. apply Hu, elem_of_app. by left.
  - intros us1 u' us2 ->. rewrite fmap_app in Hnd. apply NoDup_app in Hnd as [Hnd _].
    rewrite (blocks_distinct us1 [] Hnd). change (lg_size (l_log (fs_low f3))) with (lg_size lg). rewrite Hsz.
    simpl. rewrite length_fmap. rewrite length_app in Hlen. simpl in *. unfold LOGSIZE, MAXOPBLOCKS in *. lia.
  - intros f4 Ht4 S4. eapply (update_full f4 _ _ u Ht4).
    + rewrite (step_nblocks _ _ S4). apply Hu, elem_of_app. right. by left.
    + rewrite Eb. simpl. intros Hx. apply (Hdis _ Hx). by left.
    + rewrite Eb, (ls_size _ _ S4). change (lg_size (l_log (fs_low f3))) with (lg_size lg). rewrite Hsz.
      simpl. rewrite length_fmap. simpl in Hlen. unfold LOGSIZE, MAXOPBLOCKS in *. lia.
Qed.
End write.

Notation in_tx pid := (in_txh pid []).
