(* ===== verification/PathSpec.v ===== *)
(** * What path lookup promises

    [skipelem] against a reference definition of the elements of a path, and why
    the fuel of the loop of [namex] is enough. *)
From S2P Require Import Prelude Machine ProcQueue StringC Spinlock Kalloc Vm VmFrame Proc RunQueue ProcRun Sched UserMem Trap FsState Sleeplock Disk Bio Log Fs.

(** ** The elements of a path *)

(** The parts between slashes. *)
Fixpoint split_slash (path : list Z) : list (list Z) :=
  match path with
  | [] => [[]]
  | c :: p =>
    if c =? slash then [] :: split_slash p
    else match split_slash p with e :: es => (c :: e) :: es | [] => [[c]] end
  end.
Definition nonempty (e : list Z) : bool := negb (bool_decide (e = [])).
(** The elements, cut to DIRSIZ characters as in directories. *)
Definition elements (path : list Z) : list (list Z) :=
  take (Z.to_nat DIRSIZ) <$> filter (fun e => nonempty e = true) (split_slash path).

(** The name in an array of DIRSIZ bytes: up to a NUL, or all of it. *)
Fixpoint before_nul (bs : list Z) : list Z :=
  match bs with b :: bs' => if b =? 0 then [] else b :: before_nul bs' | [] => [] end.
Definition name_of (name : list Z) : list Z := before_nul (take (Z.to_nat DIRSIZ) name).

(** The names the calls of [skipelem] leave until it returns 0. *)
Inductive walks : list Z -> list Z -> list (list Z) -> Prop :=
  | walks_end path name : skipelem path name = None -> walks path name []
  | walks_elem path name path' name' es : skipelem path name = Some (path', name') ->
      walks path' name' es -> walks path name (name_of name' :: es).

Lemma split_slash_nonnil path : split_slash path <> [].
Proof. destruct path as [|c p]; simpl; [done|]. destruct (_ =? _); [done|]. by destruct (split_slash p). Qed.

Lemma elements_slashes path : elements (skip_slashes path) = elements path.
Proof.
  induction path as [|c p IH]; [done|]. simpl. destruct (c =? slash) eqn:E; [|done]. rewrite IH.
  unfold elements. simpl. rewrite E. done.
Qed.

Lemma take_elem_split path : split_slash path = (take_elem path).1 ::
  match (take_elem path).2 with [] => [] | _ :: p => split_slash p end.
Proof.
  induction path as [|c p IH]; [done|]. simpl. destruct (c =? slash) eqn:E; [done|]. by rewrite IH.
Qed.

Lemma take_elem_rest path : (take_elem path).2 = [] \/ exists p, (take_elem path).2 = slash :: p.
Proof.
  induction path as [|c p IH]; [by left|]. simpl. destruct (c =? slash) eqn:E; [|done]. apply Z.eqb_eq in E. subst. right. by exists p.
Qed.

Lemma elements_rest path : (take_elem path).1 <> [] ->
  elements path = take (Z.to_nat DIRSIZ) (take_elem path).1 :: elements (skip_slashes (take_elem path).2).
Proof.
  intros Hne. rewrite elements_slashes. unfold elements. rewrite take_elem_split at 1.
  rewrite filter_cons, decide_True by (unfold nonempty; by rewrite bool_decide_false). rewrite fmap_cons. f_equal.
  destruct (take_elem_rest path) as [->|[p ->]]; done.
Qed.

Lemma skip_slashes_head path c p : skip_slashes path = c :: p -> c <> slash.
Proof.
  induction path as [|c' p' IH]; [done|]. simpl. destruct (c' =? slash) eqn:E; [done|]. intros [= <- <-].
  by apply Z.eqb_neq.
Qed.

Lemma skip_slashes_length path : (length (skip_slashes path) <= length path)%nat.
Proof. induction path as [|c p IH]; [done|]. simpl. destruct (_ =? _); simpl; lia. Qed.
Lemma take_elem_length path : length path = (length (take_elem path).1 + length (take_elem path).2)%nat.
Proof. induction path as [|c p IH]; [done|]. simpl. destruct (_ =? _); simpl; lia. Qed.
Lemma take_elem_app path : path = (take_elem path).1 ++ (take_elem path).2.
Proof. induction path as [|c p IH]; [done|]. simpl. destruct (_ =? _); simpl; congruence. Qed.
Lemma skip_slashes_elem path c : c ∈ skip_slashes path -> c ∈ path.
Proof. induction path as [|c' p IH]; [done|]. simpl. destruct (_ =? _); [|done]. intros. right. auto. Qed.

Lemma before_nul_id bs : 0 ∉ bs -> before_nul bs = bs.
Proof.
  induction bs as [|b bs IH]; [done|]. intros [Hb Hbs]%not_elem_of_cons. simpl. rewrite (proj2 (Z.eqb_neq b 0)) by done.
  by rewrite IH.
Qed.
Lemma before_nul_app bs r : 0 ∉ bs -> before_nul (bs ++ 0 :: r) = bs.
Proof.
  induction bs as [|b bs IH]; [done|]. intros [Hb Hbs]%not_elem_of_cons. simpl. rewrite (proj2 (Z.eqb_neq b 0)) by done.
  by rewrite IH.
Qed.

(** One call. *)
Lemma skipelem_spec path name : 0 ∉ path ->
  match skipelem path name with
  | None => elements path = []
  | Some (path', name') => elements path = name_of name' :: elements path' /\ (length path' < length path)%nat /\ 0 ∉ path'
  end.
Proof.
  intros Hz. unfold skipelem. pose proof (skip_slashes_length path) as Hl. rewrite <- (elements_slashes path).
  assert (0 ∉ skip_slashes path) as Hz' by (by intros ?%skip_slashes_elem).
  destruct (skip_slashes path) as [|c p] eqn:E; [done|]. pose proof (skip_slashes_head _ _ _ E) as Hc. clear E.
  set (s := c :: p) in *. assert ((take_elem s).1 <> []) as Hne.
  { unfold s. simpl. by rewrite (proj2 (Z.eqb_neq c slash)). }
  pose proof (take_elem_app s) as Ea. pose proof (take_elem_length s) as El. pose proof (skip_slashes_length (take_elem s).2).
  assert (0 ∉ (take_elem s).1) as Hz1 by (intros Hx; apply Hz'; rewrite Ea; apply elem_of_app; by left).
  split_and!.
  - rewrite elements_rest by done. f_equal. unfold name_of.
    rewrite Z.geb_leb. destruct (Z.leb_spec DIRSIZ (Z.of_nat (length (take_elem s).1))) as [Hle|Hlt].
    + rewrite take_take, Nat.min_id. symmetry. apply before_nul_id. intros Hx. apply Hz1. by eapply subseteq_take.
    + rewrite take_ge by lia. rewrite take_app_ge by lia.
      destruct (Z.to_nat DIRSIZ - length (take_elem s).1)%nat eqn:En; [lia|]. simpl. by rewrite before_nul_app.
  - destruct (take_elem s).1; [done|]. simpl in El. simpl in *. lia.
  - intros Hx%skip_slashes_elem. apply Hz'. rewrite Ea. apply elem_of_app. by right.
Qed.

(** C32. Path parsing: calling skipelem until it returns 0 yields, whatever was in
    the array before, exactly the nonempty parts of the path between slashes, in
    order, each cut to DIRSIZ characters, after at most one call per character. *)
Theorem skipelem_elements path name : 0 ∉ path ->
  walks path name (elements path) /\ (length (elements path) <= length path)%nat.
Proof.
  remember (length path) as n eqn:En. revert path name En.
  induction (lt_wf n) as [n _ IH]; intros path name -> Hz. pose proof (skipelem_spec path name Hz) as Hs.
  destruct (skipelem path name) as [[path' name']|] eqn:E.
  - destruct Hs as (Ee & Hl & Hz'). destruct (IH (length path') Hl path' name' eq_refl Hz') as [Hw Hn].
    rewrite Ee. split; [by eapply walks_elem|]. simpl. lia.
  - rewrite Hs. split; [by apply walks_end|simpl; lia].
Qed.

(** ** The fuel of namex *)

Section namex.
Context `{Symbols} `{BlockDev} `{DevSw}.

Lemma skipelem_shorter path name path' name' : skipelem path name = Some (path', name') -> (length path' < length path)%nat.
Proof.
  unfold skipelem. pose proof (skip_slashes_length path). destruct (skip_slashes path) as [|c p] eqn:E; [done|].
  pose proof (skip_slashes_head _ _ _ E) as Hc. intros [= <- _]. simpl. rewrite (proj2 (Z.eqb_neq c slash)) by done. simpl.
  pose proof (take_elem_length p). pose proof (skip_slashes_length (take_elem p).2). simpl in *. lia.
Qed.

Lemma bind_ext {S A B} (m : M S A) (g h : A -> M S B) : (forall a s, g a s = h a s) -> forall s, bind m g s = bind m h s.
Proof. intros Hgh s. unfold bind. destruct (m s); auto. Qed.

(** Every turn of the loop of namex shortens the path: more fuel than the path has characters makes no difference. *)
Lemma namex_loop_fuel fuel : forall fuel' ip path np name w, (length path < fuel)%nat -> (length path < fuel')%nat ->
  namex_loop fuel ip path np name w = namex_loop fuel' ip path np name w.
Proof.
  induction fuel as [|fuel IH]; intros [|fuel'] ip path np name w Hl Hl'; [lia..|]. simpl.
  destruct (skipelem path name) as [[path' name']|] eqn:E; [|done]. pose proof (skipelem_shorter _ _ _ _ E).
  revert w. apply bind_ext. intros _. apply bind_ext. intros i.
  destruct (negb _); [done|]. destruct (np && _); [done|]. apply bind_ext. intros [[next o]|]; [|done].
  apply bind_ext. intros _ s. apply IH; lia.
Qed.
End namex.
