(* ===== verification/BallocSpec.v ===== *)
(** * What block allocation promises

    The bits of the bitmap, and [balloc] as the first free block of it. *)
From S2P Require Import Prelude Machine ProcQueue StringC Spinlock Kalloc Vm VmFrame Proc RunQueue ProcRun Sched UserMem Trap FsState Sleeplock Disk Bio Log Fs FsLogic BufList Cache LogSpec LogWrite.

(** ** Bits *)

Lemma bit_mask_testbit bi i : 0 <= i < 8 -> Z.testbit (bit_mask bi) i = (i =? bi mod 8).
Proof.
  intros Hi. unfold bit_mask. pose proof (Z.mod_pos_bound bi 8). rewrite Z.shiftl_1_l, Z.pow2_bits_eqb by lia.
  apply Z.eqb_sym.
Qed.

Lemma bit_free_testbit d bi : bit_free d bi = negb (Z.testbit (u8 (d (bi / 8))) (bi mod 8)).
Proof.
  unfold bit_free. pose proof (Z.mod_pos_bound bi 8 ltac:(lia)) as Hb. apply eq_bool_prop_intro. split; intros Ht.
  - apply Is_true_eq_true, Z.eqb_eq in Ht. apply Is_true_eq_left, negb_true_iff.
    apply (f_equal (fun z => Z.testbit z (bi mod 8))) in Ht. rewrite Z.land_spec, Z.bits_0, bit_mask_testbit, Z.eqb_refl, andb_true_r in Ht by lia.
    done.
  - apply Is_true_eq_true, negb_true_iff in Ht. apply Is_true_eq_left, Z.eqb_eq, Z.bits_inj_0. intros i.
    rewrite Z.land_spec. destruct (decide (0 <= i < 8)) as [Hi|Hi].
    + rewrite bit_mask_testbit by done. destruct (Z.eqb_spec i (bi mod 8)) as [->|_]; [by rewrite Ht|apply andb_false_r].
    + destruct (decide (i < 0)); [by rewrite Z.testbit_neg_r|]. unfold u8. rewrite Z.mod_pow2_bits_high by lia. done.
Qed.

Lemma testbit_u8 z i : 0 <= i < 8 -> Z.testbit (u8 z) i = Z.testbit z i.
Proof. intros Hi. unfold u8. by rewrite Z.mod_pow2_bits_low by lia. Qed.

(** Setting a bit marks that block used and no other. *)
Lemma set_bit_free d bi bj : 0 <= bi -> 0 <= bj ->
  bit_free (set_bit d bi) bj = bit_free d bj && negb (bi =? bj).
Proof.
  intros Hi Hj. rewrite !bit_free_testbit. unfold set_bit. rewrite upd_case. pose proof (Z.mod_pos_bound bj 8 ltac:(lia)).
  case_decide as E.
  - rewrite !testbit_u8, Z.lor_spec, bit_mask_testbit, <- E by lia.
    assert ((bj mod 8 =? bi mod 8) = (bi =? bj)) as ->.
    { apply eq_bool_prop_intro. rewrite !Is_true_true, !Z.eqb_eq. split; [|by intros ->].
      intros Em. rewrite (Z.div_mod bi 8), (Z.div_mod bj 8) by lia. lia. }
    by destruct (Z.testbit _ _), (_ =? _).
  - assert ((bi =? bj) = false) as -> by (apply Z.eqb_neq; intros ->; done). by rewrite andb_true_r.
Qed.

(** ** balloc *)

Section balloc.
Context (p : nat) (pid : Z) `{DiskOk}.

(** Block [n] is free according to the bitmap. *)
Definition is_free (sb : superblock) (cont : Z -> block) (n : Z) : bool := bit_free (cont (BBLOCK n sb)) (n mod BPB).

(** What [balloc] does to the blocks. *)
Definition ballocated (sb : superblock) (cont : Z -> block) (n : Z) : Z -> block :=
  upd (upd cont (BBLOCK n sb) (set_bit (cont (BBLOCK n sb)) (n mod BPB))) n (fun _ => 0).

Section loop.
Context (held : list nat) (sb : superblock) (f0 : fstate low) (cont : Z -> block) (bl : list Z).
Notation lg := (l_log (fs_low f0)).
Notation in_tx := (in_txh pid held).
Hypothesis Hheld : (length held <= 1)%nat.
Hypothesis Hhbm : forall n, 0 <= n < sb_size sb -> not_held held f0 (BBLOCK n sb).
Hypothesis Hhfree : forall n, 0 <= n < sb_size sb -> is_free sb cont n = true -> not_held held f0 n.
Hypothesis Hsize : 0 <= sb_size sb <= nblocks f0.
Hypothesis Hnb : nblocks f0 < 2 ^ 32.
Hypothesis Hbm : forall n, 0 <= n < sb_size sb -> 0 <= BBLOCK n sb < nblocks f0 /\ ~ in_log lg (BBLOCK n sb).
Hypothesis Hout : forall n, 0 <= n < sb_size sb -> is_free sb cont n = true -> ~ in_log lg n.
Hypothesis Hroom : Z.of_nat (length bl) < lg_size lg - 2.

(** The block of the bitmap for [b + bi] is that of the start [b]. *)
Lemma BBLOCK_start i bi : 0 <= bi < BPB -> BBLOCK (i * BPB + bi) sb = BBLOCK (i * BPB) sb.
Proof.
  intros Hb. unfold BBLOCK. rewrite Z.div_add_l, Z.div_mul, (Z.div_small bi) by (unfold BPB, BSIZE in *; lia). f_equal. lia.
Qed.
Lemma mod_start i bi : 0 <= bi < BPB -> (i * BPB + bi) mod BPB = bi.
Proof. intros Hb. rewrite Z.add_comm, Z.mod_add by (unfold BPB, BSIZE in *; lia). by apply Z.mod_small. Qed.

(** The loop body of [balloc]. *)
Definition balloc_body (b : Z) : M W (option Z) :=
  let* bp := bread 1 (BBLOCK b sb) in
  let* x := buf_get bp in
  match find_first (bit_free (b_data x)) (seqZ 0 (Z.min BPB (sb_size sb - b))) with
  | Some bi =>
    buf_upd bp (fun x => set_b_data (set_bit (b_data x) bi) x) ;;;
    log_write bp ;;;
    brelse bp ;;;
    bzero 1 (b + bi) ;;;
    ret (Some (b + bi))
  | None => brelse bp ;;; ret None
  end.

(** The result of the search from block [from] on. *)
Definition balloc_post (from : Z) (r : option Z) (f' : fstate low) : Prop :=
  log_step f0 f' /\ blocks_kept held f0 f' /\
  match r with
  | Some n => from <= n < sb_size sb /\ is_free sb cont n = true /\
      (forall m, from <= m < n -> is_free sb cont m = false) /\
      in_tx f' (ballocated sb cont n) (add_block (add_block bl (BBLOCK n sb)) n)
  | None => (forall m, from <= m < sb_size sb -> is_free sb cont m = false) /\ in_tx f' cont bl
  end.

Lemma bzero_update n : bzero 1 n = update (u32 n, fun _ _ => 0).
Proof. done. Qed.

Lemma bind_assoc3 {S A B C D} (m1 : M S A) (m2 : A -> M S B) (m3 : B -> M S C) (k : C -> M S D) s :
  bind m1 (fun a => bind (m2 a) (fun b => bind (m3 b) k)) s = bind (bind m1 (fun a => bind (m2 a) m3)) k s.
Proof. unfold bind. destruct (m1 s) as [a s1| | | |]; try done. by destruct (m2 a s1). Qed.

Lemma runs_ext {A} h h' (m m' : M W A) (Q : A -> fstate low -> Prop) f : (forall s, m s = m' s) ->
  runs_in p pid h h' m' Q f -> runs_in p pid h h' m Q f.
Proof. intros E Hr k Hk. rewrite E. by apply Hr. Qed.

Lemma seqZ_before n l1 x l2 y : seqZ 0 n = l1 ++ x :: l2 -> 0 <= y < x -> y ∈ l1.
Proof.
  intros E Hy. destruct (seqZ_split _ _ _ _ E) as [-> Hn].
  assert (seqZ 0 n !! Z.to_nat y = Some y) as Hl by (apply lookup_seqZ; lia).
  rewrite E, lookup_app_l in Hl by lia. by eapply list_elem_of_lookup_2.
Qed.

Lemma runs_balloc_body f i : in_tx f cont bl -> log_step f0 f -> blocks_kept held f0 f -> 0 <= i -> i * BPB < sb_size sb ->
  runs p pid (balloc_body (i * BPB)) (fun r f' => balloc_post (i * BPB) r f' \/
    r = None /\ log_step f0 f' /\ blocks_kept held f0 f' /\ in_tx f' cont bl /\
      forall m, i * BPB <= m < Z.min ((i + 1) * BPB) (sb_size sb) -> is_free sb cont m = false) f.
Proof.
  intros Ht S0 K0 Hi Hlt. pose proof (step_nblocks _ _ S0) as En. assert (0 < BPB) by done.
  destruct (Hbm (i * BPB)) as [Hr Ho]; [lia|]. set (bm := BBLOCK (i * BPB) sb) in *.
  assert (~ in_log (l_log (fs_low f)) bm) as Ho' by (by rewrite (step_in_log _ _ _ S0)).
  unfold balloc_body. eapply runs_bind, (runs_txh_bread p pid held f cont bl); [exact Ht|by rewrite En| | |].
  { eapply not_held_kept; [exact K0|]. apply Hhbm. lia. }
  { eapply held_room; [exact Ht|done|]. rewrite (ls_size _ _ S0). lia. }
  intros b f1 G1 Ed.
  eapply runs_bind, runs_buf_get. fold (bufs_of f1). rewrite Ed. fold bm.
  assert (forall m, i * BPB <= m < (i + 1) * BPB -> is_free sb cont m = bit_free (cont bm) (m - i * BPB)) as Hfr.
  { intros m Hm. unfold is_free. replace m with (i * BPB + (m - i * BPB)) at 1 2 by lia.
    by rewrite BBLOCK_start, mod_start by lia. }
  destruct (find_first _ _) as [bi|] eqn:Ef.
  - apply find_first_Some in Ef as (l1 & l2 & El & Hfree & Hl1). destruct (seqZ_split _ _ _ _ El) as [Ebi Hbi].
    assert (0 <= bi < BPB) as Hb by lia. set (n := i * BPB + bi).
    assert (is_free sb cont n = true) as Hn by (rewrite Hfr by lia; replace (n - i * BPB) with bi by lia; done).
    assert (BBLOCK n sb = bm) as Ebm by (by apply BBLOCK_start). assert (n mod BPB = bi) as Emod by (by apply mod_start).
    eapply runs_ext; [intros s; apply bind_assoc3|]. eapply runs_bind, (runs_changeh p pid held f cont bl bm (fun d => set_bit d bi)); try done.
    { rewrite (ls_size _ _ S0). lia. }
    intros f2 Ht2 S2 K2. pose proof (log_step_trans _ _ _ S0 S2) as S02. pose proof (kept_trans _ _ _ _ K0 K2) as K02.
    rewrite bzero_update, u32_small by lia. eapply runs_bind, (runs_updateh p pid held f2 _ _ _ _ Ht2); simpl.
    { rewrite (step_nblocks _ _ S02). lia. }
    { eapply not_held_kept; [exact K02|]. apply Hhfree; [lia|done]. }
    { done. }
    { rewrite (step_in_log _ _ _ S02). apply Hout; [lia|done]. }
    { rewrite (ls_size _ _ S02). pose proof (add_block_length bl bm). lia. }
    intros f3 Ht3 S3 K3. apply runs_ret. left. split; [by eapply log_step_trans|]. split; [by eapply kept_trans|]. split_and!; [lia|lia|done| |].
    + intros m Hm. rewrite Hfr by lia. apply Hl1. eapply seqZ_before; [exact El|lia].
    + unfold ballocated. rewrite Ebm, Emod. exact Ht3.
  - rewrite find_first_None in Ef. eapply runs_bind, (runs_unreadh p pid held f cont bl bm); [done| |done|].
    { eapply not_held_kept; [exact K0|]. apply Hhbm. lia. }
    intros f2 Ht2 S2 K2. apply runs_ret. right. split_and!; [done|by eapply log_step_trans|by eapply kept_trans|done|]. intros m Hm. rewrite Hfr by lia. apply Ef.
    apply elem_of_seqZ. lia.
Qed.

Lemma balloc_post_from a b r f' : a <= b -> (forall m, a <= m < Z.min b (sb_size sb) -> is_free sb cont m = false) ->
  balloc_post b r f' -> balloc_post a r f'.
Proof.
  intros Hab Hu (Hs & Hk & Hr). split; [done|]. split; [done|]. destruct r as [n|].
  - destruct Hr as (Hn & Hf & Hb & Ht). split_and!; [lia|lia|done| |done]. intros m Hm.
    destruct (decide (m < b)); [apply Hu|apply Hb]; lia.
  - destruct Hr as [Hb Ht]. split; [|done]. intros m Hm. destruct (decide (m < b)); [apply Hu|apply Hb]; lia.
Qed.

Lemma runs_balloc_loop k : forall j f, in_tx f cont bl -> log_step f0 f -> blocks_kept held f0 f -> 0 <= j ->
  (0 < k -> (j + k - 1) * BPB < sb_size sb) -> sb_size sb <= (j + k) * BPB -> 0 <= k ->
  runs p pid (for_some ((fun i => i * BPB) <$> seqZ j k) balloc_body) (balloc_post (j * BPB)) f.
Proof.
  assert (0 < BPB) as Hbpb by done. revert k.
  enough (forall kn j f, in_tx f cont bl -> log_step f0 f -> blocks_kept held f0 f -> 0 <= j ->
    (0 < Z.of_nat kn -> (j + Z.of_nat kn - 1) * BPB < sb_size sb) -> sb_size sb <= (j + Z.of_nat kn) * BPB ->
    runs p pid (for_some ((fun i => i * BPB) <$> seqZ j (Z.of_nat kn)) balloc_body) (balloc_post (j * BPB)) f) as Hkn.
  { intros k j f Ht S0 K0 Hj Hk1 Hk2 Hk. specialize (Hkn (Z.to_nat k) j f Ht S0 K0 Hj). rewrite Z2Nat.id in Hkn by done. auto. }
  induction kn as [|kn IH]; intros j f Ht S0 K0 Hj Hk1 Hk2.
  - apply runs_ret. split; [done|]. split; [done|]. split; [|done]. intros m Hm. lia.
  - rewrite seqZ_cons by lia. cbn [fmap list_fmap for_some]. replace (Z.pred (Z.of_nat (S kn))) with (Z.of_nat kn) by lia.
    eapply runs_bind, runs_mono; [apply (runs_balloc_body f j Ht S0 K0 Hj); nia|]. intros r f1 Hr. simpl in Hr.
    destruct r as [n|]; [destruct Hr as [Hr|[? _]]; [by apply runs_ret|done]|].
    assert (log_step f0 f1 /\ blocks_kept held f0 f1 /\ in_tx f1 cont bl /\
      forall m, j * BPB <= m < Z.min ((j + 1) * BPB) (sb_size sb) -> is_free sb cont m = false) as (S1 & K1 & Ht1 & Hu).
    { destruct Hr as [(S1 & K1 & Hu & Ht1)|(_ & S1 & K1 & Ht1 & Hu)]; [|done]. split_and!; [done..|]. intros m Hm. apply Hu. lia. }
    replace (Z.succ j) with (j + 1) by lia. eapply runs_mono; [apply (IH (j + 1) f1 Ht1 S1 K1); [lia|intros; lia|lia]|].
    intros r f2. apply balloc_post_from; [lia|done].
Qed.

Lemma runs_balloc_scan : in_tx f0 cont bl -> runs p pid (for_some (bitmap_starts (sb_size sb)) balloc_body) (balloc_post 0) f0.
Proof.
  intros Ht. assert (BPB = 4096) as Eb by done.
  apply (runs_balloc_loop _ 0 f0 Ht (log_step_refl f0) (fun _ _ => eq_refl)); rewrite ?Eb; Z.div_mod_to_equations; lia.
Qed.
End loop.

Lemma BBLOCK_inj sb m n : 0 <= m < 2 ^ 32 -> 0 <= n < 2 ^ 32 -> BBLOCK m sb = BBLOCK n sb -> m / BPB = n / BPB.
Proof.
  intros Hm Hn. unfold BBLOCK, u32. change BPB with 4096. change (2 ^ 32) with 4294967296 in *. intros E. Z.div_mod_to_equations. lia.
Qed.

(** The bitmap after an allocation. *)
Lemma ballocated_free sb cont n m : 0 <= m < 2 ^ 32 -> 0 <= n < 2 ^ 32 -> BBLOCK m sb <> n ->
  is_free sb (ballocated sb cont n) m = is_free sb cont m && negb (n =? m).
Proof.
  intros Hm Hn Hne. unfold is_free, ballocated. rewrite upd_ne by done. assert (0 < BPB) as Hb by done.
  pose proof (Z.mod_pos_bound m BPB Hb). pose proof (Z.mod_pos_bound n BPB Hb). rewrite upd_case. case_decide as E.
  - rewrite E, set_bit_free by lia. do 2 f_equal. apply BBLOCK_inj in E; [|done..].
    apply eq_bool_prop_intro. rewrite !Is_true_true, !Z.eqb_eq. split; [|by intros ->]. intros Em.
    rewrite (Z.div_mod n BPB), (Z.div_mod m BPB) by lia. congruence.
  - assert ((n =? m) = false) as -> by (apply Z.eqb_neq; intros ->; done). by rewrite andb_true_r.
Qed.

(** The bitmap of a disk in order: its blocks are on the disk, not in the log and
    marked used, and no block of the log is marked free. *)
Record bitmap_ok (f : fstate low) (cont : Z -> block) : Prop := {
  bk_size : 0 <= sb_size (l_sb (fs_low f)) <= nblocks f;
  bk_bitmap n : 0 <= n < sb_size (l_sb (fs_low f)) ->
    0 <= BBLOCK n (l_sb (fs_low f)) < nblocks f /\ ~ in_log (l_log (fs_low f)) (BBLOCK n (l_sb (fs_low f)));
  bk_free n : 0 <= n < sb_size (l_sb (fs_low f)) -> is_free (l_sb (fs_low f)) cont n = true ->
    ~ in_log (l_log (fs_low f)) n /\ forall m, 0 <= m < sb_size (l_sb (fs_low f)) -> BBLOCK m (l_sb (fs_low f)) <> n;
}.

(** The held buffers have no block of the bitmap and no free block. *)
Definition held_used (held : list nat) (f : fstate low) (cont : Z -> block) : Prop := let sb := l_sb (fs_low f) in
  forall n, 0 <= n < sb_size sb -> not_held held f (BBLOCK n sb) /\ (is_free sb cont n = true -> not_held held f n).

Lemma balloc_scan held f cont bl : let sb := l_sb (fs_low f) in in_txh pid held f cont bl -> bitmap_ok f cont -> (length held <= 1)%nat ->
  held_used held f cont -> Z.of_nat (length bl) < lg_size (l_log (fs_low f)) - 2 ->
  runs p pid (for_some (bitmap_starts (sb_size sb)) (balloc_body sb)) (balloc_post held sb f cont bl 0) f.
Proof.
  intros sb Ht [B1 B2 B3] Hh Hu Hroom. fold sb in B1, B2, B3.
  assert (nblocks f < 2 ^ 32) as Hnb by (pose proof (lo_geom _ _ _ (it_log _ _ _ _ _ Ht)); lia).
  apply runs_balloc_scan; try done; intros n Hn; try (intros Hf; by apply B3); destruct (Hu n Hn); auto.
Qed.

(** The blocks after an allocation of [n]. *)
Record allocated (sb : superblock) (cont : Z -> block) (n : Z) (cont' : Z -> block) : Prop := {
  al_range : 0 <= n < sb_size sb;
  al_free : is_free sb cont n = true;
  al_first m : 0 <= m < n -> is_free sb cont m = false;
  al_bits m : 0 <= m < sb_size sb -> is_free sb cont' m = is_free sb cont m && negb (n =? m);
  al_zero : cont' n = fun _ => 0;
  al_same m : m <> n -> m <> BBLOCK n sb -> cont' m = cont m;
}.

Lemma runs_balloc held f cont bl (Q : Z -> fstate low -> Prop) : let sb := l_sb (fs_low f) in in_txh pid held f cont bl -> bitmap_ok f cont ->
  (length held <= 1)%nat -> held_used held f cont -> Z.of_nat (length bl) < lg_size (l_log (fs_low f)) - 2 ->
  (exists n, 0 <= n < sb_size sb /\ is_free sb cont n = true) ->
  (forall n cont' f', in_txh pid held f' cont' (add_block (add_block bl (BBLOCK n sb)) n) -> log_step f f' -> blocks_kept held f f' ->
     allocated sb cont n cont' -> Q n f') -> runs p pid (balloc 1) Q f.
Proof.
  intros sb Ht Hb Hh Hu Hroom Hex HQ. assert (nblocks f < 2 ^ 32) as Hnb by (pose proof (lo_geom _ _ _ (it_log _ _ _ _ _ Ht)); lia).
  unfold balloc. eapply runs_bind, runs_low_get, runs_bind, runs_mono; [by eapply balloc_scan|]. intros [n|] f' (S & K & Hr).
  - destruct Hr as (Hn & Hf & Hl & Ht'). apply runs_ret. destruct Hb as [B1 B2 B3]. fold sb in B1, B2, B3, Hn, Hf, Hl, Ht'.
    eapply (HQ n (ballocated sb cont n)); [done..|]. split; [lia|done|done| | |].
    + intros m Hm. apply ballocated_free; [lia|lia|]. by apply (B3 n).
    + unfold ballocated. apply upd_eq.
    + intros m H1 H2. unfold ballocated. by rewrite !upd_ne.
  - exfalso. destruct Hr as [Hnone _], Hex as (n & Hn & Hf). fold sb in Hnone. rewrite Hnone in Hf by lia. done.
Qed.

(** C30. Block allocation: balloc returns the first free block of the bitmap, which
    is then marked used and filled with zeros; no other bit and no other block
    changes, and both changes are in the transaction.  It panics exactly when no
    block is free. *)
Theorem balloc_correct f cont bl : let sb := l_sb (fs_low f) in in_tx pid f cont bl -> bitmap_ok f cont ->
  Z.of_nat (length bl) < lg_size (l_log (fs_low f)) - 2 ->
  ((exists n, 0 <= n < sb_size sb /\ is_free sb cont n = true) ->
   runs p pid (balloc 1) (fun n f' => exists cont', in_tx pid f' cont' (add_block (add_block bl (BBLOCK n sb)) n) /\
     0 <= n < sb_size sb /\ is_free sb cont n = true /\ (forall m, 0 <= m < n -> is_free sb cont m = false) /\
     (forall m, 0 <= m < sb_size sb -> is_free sb cont' m = is_free sb cont m && negb (n =? m)) /\
     cont' n = (fun _ => 0) /\ (forall m, m <> n -> m <> BBLOCK n sb -> cont' m = cont m)) f) /\
  ((forall n, 0 <= n < sb_size sb -> is_free sb cont n = false) -> panics p pid None (balloc 1) "balloc: out of blocks" f).
Proof.
  intros sb Ht Hb Hroom. assert (held_used [] f cont) as Hu by (intros n Hn; split; [|intros _]; apply not_held_nil). split; intros Hex.
  - eapply runs_balloc; try done; [simpl; lia|]. intros n cont' f' Ht' _ _ []. exists cont'. fold sb in al_range0. split_and!; try done; lia.
  - unfold balloc. eapply panics_bind, runs_low_get, panics_bind, runs_mono; [eapply balloc_scan; try done; simpl; lia|].
    intros [n|] f' (S & _ & Hr); [|by intros k Hk]. exfalso. destruct Hr as (Hn & Hf & _). fold sb in Hn, Hf. rewrite Hex in Hf by lia. done.
Qed.
End balloc.
