(* ===== verification/InodeSpec.v ===== *)
(** * What inodes promise

    The contents of a file are the bytes of the blocks that its addresses name.  [fsview]
    relates the state to the inode cache, the locks of its inodes and the contents of the
    blocks; the calls on inodes are specified by their effect on them: [ilock] brings an inode
    in from the disk, [readi] returns the bytes of the file, [iget] and [iput] count
    references. *)
From S2P Require Import Prelude Machine ProcQueue StringC Spinlock Kalloc Vm VmFrame Proc RunQueue ProcRun Sched UserMem Trap FsState Sleeplock Disk Bio Log Fs FsLogic BufList Cache.

(** ** The contents of a file *)

(** The block that holds block [k] of the file with the addresses [addrs]. *)
Definition file_block_at (cont : Z -> block) (addrs : Z -> Z) (k : Z) : Z :=
  if k <? NDIRECT then addrs k else load32 (cont (addrs NDIRECT)) (4 * (k - NDIRECT)).
Definition file_byte (cont : Z -> block) (addrs : Z -> Z) (o : Z) : Z :=
  u8 (cont (file_block_at cont addrs (o / BSIZE)) (o mod BSIZE)).
Definition file_bytes (cont : Z -> block) (addrs : Z -> Z) (off n : Z) : list Z :=
  file_byte cont addrs <$> seqZ off n.

(** Block [k] exists, on a disk of [nb] blocks. *)
Definition has_block (nb : Z) (cont : Z -> block) (addrs : Z -> Z) (k : Z) : Prop :=
  0 <= k < MAXFILE /\ 0 < file_block_at cont addrs k < nb /\ (NDIRECT <= k -> 0 < addrs NDIRECT < nb).

Lemma file_bytes_app cont addrs off m n : 0 <= m -> 0 <= n ->
  file_bytes cont addrs off (m + n) = file_bytes cont addrs off m ++ file_bytes cont addrs (off + m) n.
Proof. intros. unfold file_bytes. by rewrite seqZ_app, fmap_app. Qed.

Lemma length_file_bytes cont addrs off n : length (file_bytes cont addrs off n) = Z.to_nat n.
Proof. unfold file_bytes. by rewrite length_fmap, length_seqZ. Qed.

Lemma take_file_bytes cont addrs m n : 0 <= m <= n -> take (Z.to_nat m) (file_bytes cont addrs 0 n) = file_bytes cont addrs 0 m.
Proof.
  intros Hm. replace n with (m + (n - m)) by lia. rewrite file_bytes_app by lia. apply take_app_length'. by rewrite length_file_bytes.
Qed.

(** The bytes of one block. *)
Lemma block_bytes cont addrs off m : 0 <= m -> off mod BSIZE + m <= BSIZE ->
  bytes_at (cont (file_block_at cont addrs (off / BSIZE))) (off mod BSIZE) m = file_bytes cont addrs off m.
Proof.
  intros Hm Hb. unfold bytes_at, file_bytes. apply list_eq. intros i. rewrite !list_lookup_fmap.
  destruct (decide (Z.of_nat i < m)) as [Hi|Hi]; [|by rewrite !lookup_seqZ_ge by lia].
  rewrite !lookup_seqZ_lt by lia. cbn [fmap option_fmap option_map]. unfold file_byte.
  assert ((off + Z.of_nat i) / BSIZE = off / BSIZE /\ (off + Z.of_nat i) mod BSIZE = off mod BSIZE + Z.of_nat i) as [-> ->].
  { unfold BSIZE in *. Z.div_mod_to_equations. lia. }
  by rewrite Z.add_0_l.
Qed.

(** ** Rules for inodes *)

Section rules.
Context (p : nat) (pid : Z).
Implicit Types (f : fstate low).

Definition put_inode f (i : nat) (x : inode) : fstate low :=
  set_fs_low (set_l_inode (upd (l_inode (fs_low f)) i x) (fs_low f)) f.

Lemma runs_ino_get h i Q f : Q (l_inode (fs_low f) i) f -> runs_in p pid h h (ino_get i) Q f.
Proof. apply (runs_low_get p pid h (fun l => l_inode l i)). Qed.
Lemma runs_ino_upd h i g (Q : unit -> fstate low -> Prop) f :
  Q tt (put_inode f i (g (l_inode (fs_low f) i))) -> runs_in p pid h h (ino_upd i g) Q f.
Proof. apply (runs_low_modify p pid h (fun l => set_l_inode (upd (l_inode l) i (g (l_inode l i))) l)). Qed.
Lemma runs_sb_get h Q f : Q (l_sb (fs_low f)) f -> runs_in p pid h h sb_get Q f.
Proof. apply (runs_low_get p pid h l_sb). Qed.

(** The cache depends on buffers, their locks and the disk. *)
Lemma cache_ext f f' cont pin held : cache pid f cont pin held -> bufs_of f' = bufs_of f ->
  (forall b, fs_sleep f' (SLbuf b) = fs_sleep f (SLbuf b)) -> nblocks f' = nblocks f -> disk_of f' = disk_of f ->
  cache pid f' cont pin held.
Proof.
  intros [H1 H2 H3 H4 H5 H6] Hb Hs Hn Hd. split; rewrite ?Hb, ?Hd; try done.
  intros b Hx. destruct (H2 b Hx). split; rewrite ?Hs, ?Hn; done.
Qed.

(** ** The state of inodes *)

(** Everything else is as in [f0]. *)
Record frame (f0 f : fstate low) : Prop := {
  fr_file : fs_file f = fs_file f0;
  fr_pipe : fs_pipe f = fs_pipe f0;
  fr_log : l_log (fs_low f) = l_log (fs_low f0);
  fr_sb : l_sb (fs_low f) = l_sb (fs_low f0);
  fr_size : l_disksize (fs_low f) = l_disksize (fs_low f0);
  fr_disk : disk_same f0 f;
}.
#[global] Instance frame_preorder : PreOrder frame.
Proof. split; [by split|]. intros f1 f2 f3 [? ? ? ? ? []] [? ? ? ? ? []]. split; try split; congruence. Qed.

(** The inode cache is [I], the locks of its entries are [L]; this process holds the buffers [held], as it read them. *)
Record fsview (f0 : fstate low) (cont : Z -> block) (pin : list Z) (held : list nat) (I : nat -> inode) (L : nat -> sleeplock)
    (f : fstate low) : Prop := {
  vw_cache : cache pid f cont pin held;
  vw_clean b : b ∈ held -> b_blockno (bufs_of f b) ∈ pin \/ cont (b_blockno (bufs_of f b)) = disk_of f (b_blockno (bufs_of f b));
  vw_inode : l_inode (fs_low f) = I;
  vw_lock i : fs_sleep f (SLinode i) = L i;
  vw_frame : frame f0 f;
}.

Context `{Symbols} `{DiskOk} `{DevSw} (f0 : fstate low) (cont : Z -> block) (pin : list Z).
Hypothesis Hroom : (length pin < NBUF)%nat.
Local Notation hview := (fsview f0 cont pin).
Local Notation view := (fsview f0 cont pin []).
Local Notation sb := (l_sb (fs_low f0)).
Implicit Types (I : nat -> inode) (L : nat -> sleeplock).

Lemma view_nblocks held I L f : hview held I L f -> nblocks f = nblocks f0.
Proof. intros [_ _ _ _ []]. unfold nblocks. congruence. Qed.
Lemma view_sb held I L f : hview held I L f -> l_sb (fs_low f) = sb.
Proof. by intros [_ _ _ _ []]. Qed.

(** Buffers come and go without a trace. *)
Lemma view_rest held held' I L f f' : hview held I L f -> cache pid f' cont pin held' -> rest_same f f' -> disk_same f f' ->
  (forall b, b ∈ held' -> b_blockno (bufs_of f' b) ∈ pin \/ cont (b_blockno (bufs_of f' b)) = disk_of f' (b_blockno (bufs_of f' b))) ->
  hview held' I L f'.
Proof.
  intros [_ _ <- Hl Hf] Hc [] Hd Hh. split; [done|done|done|intros i; by rewrite rs_inode_lock|]. etransitivity; [exact Hf|]. by split.
Qed.

Lemma view_put_inode held I L f i x : hview held I L f -> hview held (upd I i x) L (put_inode f i x).
Proof. intros [Hc Hh <- Hl Hf]. split; [by eapply cache_ext|done|done|done|]. etransitivity; [exact Hf|]. by split. Qed.
Lemma view_put_lock held I L f i s : hview held I L f -> hview held I (upd L i s) (put_sleep f (SLinode i) s).
Proof.
  intros [Hc Hh <- Hl Hf]. split; [|done|done| |].
  - by eapply cache_ext.
  - intros j. unfold put_sleep. simpl. rewrite !upd_case. destruct (decide (i = j)) as [->|Hne]; [by rewrite decide_True|].
    rewrite decide_False by congruence. apply Hl.
  - etransitivity; [exact Hf|]. by split.
Qed.

(** A block is read with bread, and brelse gives it back. *)
Lemma runs_view_bread I L f n (Q : nat -> fstate low -> Prop) : view I L f -> 0 <= n < nblocks f0 ->
  (forall b f1, hview [b] I L f1 -> b_data (bufs_of f1 b) = cont n -> Q b f1) -> runs p pid (bread 1 n) Q f.
Proof.
  intros Hv Hn HQ. rewrite <- (view_nblocks _ _ _ _ Hv) in Hn. pose proof (vw_cache _ _ _ _ _ _ _ Hv) as Hc.
  apply (runs_bread _ _ f cont pin []); [done..|by intros ? ?%elem_of_nil|by right|]. intros b f1 G.
  assert (b ∈ [b]) as Ib by by left. apply HQ; [|by rewrite (held_data (got_cache G) Ib), (got_block G)].
  apply (view_rest _ _ _ _ _ _ Hv (got_cache G) (got_rest G) (got_disk G)). intros b' ->%list_elem_of_singleton.
  rewrite (got_block G). destruct (decide (n ∈ pin)) as [|Hp]; [by left|right]. unfold disk_of. rewrite (proj1 (got_disk G)).
  apply (ch_clean Hc); [done|]. by intros ? ?%elem_of_nil.
Qed.
Lemma runs_view_brelse I L f b (Q : unit -> fstate low -> Prop) : hview [b] I L f ->
  (forall f1, view I L f1 -> Q tt f1) -> runs p pid (brelse b) Q f.
Proof.
  intros Hv HQ. eapply runs_brelse; [apply Hv|apply (vw_clean _ _ _ _ _ _ _ Hv); by left|]. intros f1 C1 R1 D1 _.
  apply HQ, (view_rest _ _ _ _ _ _ Hv C1 R1 D1). by intros ? ?%elem_of_nil.
Qed.

(** ** Reading a file *)

Lemma runs_bmap I L f ip k (Q : Z -> fstate low -> Prop) : view I L f -> i_dev (I ip) = 1 ->
  has_block (nblocks f0) cont (i_addrs (I ip)) k ->
  (forall f', view I L f' -> Q (file_block_at cont (i_addrs (I ip)) k) f') -> runs p pid (bmap ip k) Q f.
Proof.
  intros Hv Hd (Hk & Hb & Hi) HQ. unfold bmap. eapply runs_bind, runs_ino_get. rewrite (vw_inode _ _ _ _ _ _ _ Hv).
  unfold file_block_at in *. destruct (k <? NDIRECT) eqn:E; bool_to_prop.
  - rewrite (proj2 (Z.eqb_neq _ 0)) by lia. by apply runs_ret, HQ.
  - specialize (Hi ltac:(lia)). rewrite (proj2 (Z.ltb_lt _ NINDIRECT)) by (unfold MAXFILE in Hk; lia).
    rewrite (proj2 (Z.eqb_neq (i_addrs (I ip) NDIRECT) 0)) by lia. eapply runs_bind, runs_ret. rewrite Hd.
    eapply runs_bind, (runs_view_bread I L f); [done|lia|]. intros b f1 B1 Ed.
    eapply runs_bind, runs_buf_get. fold (bufs_of f1). rewrite Ed, (proj2 (Z.eqb_neq _ 0)) by lia.
    eapply runs_bind, (runs_view_brelse _ _ _ _ _ B1). intros f2 Hv2. by apply runs_ret, HQ.
Qed.

Lemma runs_readi_loop I L ip : i_dev (I ip) = 1 -> forall fuel f acc off n tot (Q : list Z -> fstate low -> Prop), view I L f ->
  0 <= off -> 0 <= tot <= n -> (forall k, off / BSIZE <= k -> k * BSIZE < off + (n - tot) -> has_block (nblocks f0) cont (i_addrs (I ip)) k) ->
  (0 < fuel)%nat -> (tot < n -> off mod BSIZE + (n - tot) <= (Z.of_nat fuel - 1) * BSIZE) ->
  (forall f', view I L f' -> Q (acc ++ file_bytes cont (i_addrs (I ip)) off (n - tot)) f') ->
  runs p pid (readi_loop fuel put_local acc ip off n tot) Q f.
Proof.
  intros Hd. induction fuel as [|fuel IH]; intros f acc off n tot Q Hv Hoff Htot Hbl Hpos Hfuel HQ; [lia|].
  cbn [readi_loop]. destruct (tot <? n) eqn:E; bool_to_prop.
  2: { apply runs_ret. replace (n - tot) with 0 in HQ by lia. specialize (HQ f Hv). unfold file_bytes in HQ.
       change (seqZ off 0) with (@nil Z) in HQ. by rewrite app_nil_r in HQ. }
  set (m := Z.min _ _). assert (0 < m /\ m <= n - tot /\ off mod BSIZE + m <= BSIZE) as (Hm1 & Hm2 & Hm3)
    by (subst m; unfold BSIZE in *; Z.div_mod_to_equations; lia).
  assert (has_block (nblocks f0) cont (i_addrs (I ip)) (off / BSIZE)) as Hb
    by (apply Hbl; unfold BSIZE in *; Z.div_mod_to_equations; lia).
  eapply runs_bind, runs_ino_get. rewrite (vw_inode _ _ _ _ _ _ _ Hv), Hd.
  eapply runs_bind, (runs_bmap I L f ip (off / BSIZE)); [done..|]. intros f1 Hv1.
  eapply runs_bind, (runs_view_bread I L f1); [done|destruct Hb as (_ & ? & _); lia|]. intros b f2 B2 Ed.
  eapply runs_bind, runs_buf_get. fold (bufs_of f2). rewrite Ed, block_bytes by lia.
  eapply runs_bind. unfold put_local at 1. apply runs_ret. eapply runs_bind, (runs_view_brelse _ _ _ _ _ B2). intros f3 Hv3.
  specialize (Hfuel E). pose proof (Z.mod_pos_bound off BSIZE ltac:(done)).
  apply (IH f3); [done|lia|lia| |unfold BSIZE in *; lia|intros; unfold m, BSIZE in *; Z.div_mod_to_equations; lia|].
  - intros k Hk1 Hk2. apply Hbl; unfold BSIZE in *; Z.div_mod_to_equations; lia.
  - intros f' Hv'. replace (n - (tot + m)) with (n - tot - m) by lia. rewrite <- app_assoc, <- file_bytes_app by lia.
    replace (m + (n - tot - m)) with (n - tot) by lia. by apply HQ.
Qed.

(** The number of bytes that a read of [n] bytes at [off] gets. *)
Definition readable (size off n : Z) : Z := Z.min n (size - off).

(** The blocks of the bytes from [off] to [off + n]. *)
Definition has_bytes (addrs : Z -> Z) (off n : Z) : Prop :=
  forall k, off / BSIZE <= k -> k * BSIZE < off + n -> has_block (nblocks f0) cont addrs k.

Lemma runs_readi I L f ip off n (Q : Z * list Z -> fstate low -> Prop) : view I L f -> let x := I ip in
  i_dev x = 1 -> i_type x <> T_DEV -> i_size x < 2 ^ 32 -> 0 <= off <= i_size x -> 0 <= n -> off + n < 2 ^ 32 ->
  let m := readable (i_size x) off n in has_bytes (i_addrs x) off m ->
  (forall f', view I L f' -> Q (s32 m, file_bytes cont (i_addrs x) off m) f') ->
  runs p pid (readi put_local [] ip off n) Q f.
Proof.
  intros Hv x Hd Ht Hs Hoff Hn Ho m Hb HQ. unfold readi. eapply runs_bind, runs_ino_get. rewrite (vw_inode _ _ _ _ _ _ _ Hv). fold x.
  rewrite (proj2 (Z.eqb_neq (i_type x) T_DEV)) by done. rewrite !Z.gtb_ltb, (u32_small (off + n)) by lia.
  rewrite !(proj2 (Z.ltb_ge _ _)) by lia. cbn [orb].
  assert ((if i_size x <? off + n then u32 (i_size x - off) else n) = m) as ->.
  { unfold m, readable. rewrite u32_small by lia. destruct (_ <? _) eqn:E; bool_to_prop; lia. }
  assert (0 <= m) as Hm by (unfold m, readable; lia).
  eapply runs_bind, (runs_readi_loop I L ip Hd _ f); rewrite ?Z.sub_0_r; [done|lia|lia|done|lia| |].
  - intros _. unfold BSIZE. Z.div_mod_to_equations. lia.
  - intros f' Hv'. apply runs_ret. by apply HQ.
Qed.

(** C8. Reading a file: readi into a buffer of the kernel on a file in the inode cache fails beyond the end of the file and
    when the offset overflows, and otherwise returns exactly the bytes of the file from the offset on, as many as were asked for
    and the file has, across direct and indirect blocks; it terminates, changes no block, inode or lock, and needs one
    buffer. *)
Theorem readi_reads_file I L f ip off n : view I L f -> let x := I ip in
  i_dev x = 1 -> i_type x <> T_DEV -> 0 <= i_size x < 2 ^ 32 -> 0 <= off < 2 ^ 32 -> 0 <= n < 2 ^ 32 ->
  let m := readable (i_size x) off n in has_bytes (i_addrs x) off m ->
  runs p pid (readi put_local [] ip off n) (fun r f' => view I L f' /\
    r = if decide (off <= i_size x /\ off + n < 2 ^ 32) then (s32 m, file_bytes cont (i_addrs x) off m) else (-1, [])) f.
Proof.
  intros Hv x Hd Ht Hs Hoff Hn m Hb. case_decide as E.
  - apply (runs_readi I L f ip off n); fold x; try done; lia.
  - unfold readi. eapply runs_bind, runs_ino_get. rewrite (vw_inode _ _ _ _ _ _ _ Hv). fold x.
    rewrite (proj2 (Z.eqb_neq (i_type x) T_DEV)) by done. rewrite Z.gtb_ltb.
    assert ((i_size x <? off) || (u32 (off + n) <? off) = true) as ->; [|by apply runs_ret].
    apply orb_true_iff. rewrite !Z.ltb_lt. destruct (decide (off <= i_size x)); [right|lia].
    assert (2 ^ 32 <= off + n) by (destruct (decide (off + n < 2 ^ 32)); [tauto|lia]).
    unfold u32. replace (off + n) with (off + n - 2 ^ 32 + 1 * 2 ^ 32) by lia. rewrite Z.mod_add, Z.mod_small; lia.
Qed.

(** ** Bringing in an inode *)

(** The inode with the fields of its copy on the disk. *)
Definition loaded (x : inode) (d : dinode) : inode :=
  mkInode (i_dev x) (i_inum x) (i_ref x) true (di_type d) (di_major d) (di_minor d) (di_nlink d) (di_size d) (di_addrs d).
Definition disk_inode (inum : Z) : dinode := load_dinode (cont (IBLOCK inum sb)) (64 * (inum mod IPB)).
Definition brought (x : inode) : inode := if i_valid x then x else loaded x (disk_inode (i_inum x)).

Lemma runs_view_acquire I L f i (Q : unit -> fstate low -> Prop) : view I L f -> sl_locked (L i) = false ->
  (forall f', view I (upd L i (mkSleep true pid)) f' -> Q tt f') -> runs p pid (acquiresleep (SLinode i)) Q f.
Proof.
  intros Hv Hl HQ. apply runs_acquiresleep; [by rewrite (vw_lock _ _ _ _ _ _ _ Hv)|]. by apply HQ, view_put_lock.
Qed.
Lemma runs_view_release I L f i (Q : unit -> fstate low -> Prop) : view I L f ->
  (forall f', view I (upd L i (mkSleep false 0)) f' -> Q tt f') -> runs p pid (releasesleep (SLinode i)) Q f.
Proof. intros Hv HQ. apply runs_releasesleep. by apply HQ, view_put_lock. Qed.
Lemma runs_view_upd h held I L f i g (Q : unit -> fstate low -> Prop) : hview held I L f ->
  (forall f', hview held (upd I i (g (I i))) L f' -> Q tt f') -> runs_in p pid h h (ino_upd i g) Q f.
Proof.
  intros Hv HQ. apply runs_ino_upd, HQ. rewrite (vw_inode _ _ _ _ _ _ _ Hv). by apply view_put_inode.
Qed.

Lemma runs_ilock I L f ip (Q : unit -> fstate low -> Prop) : view I L f -> 1 <= i_ref (I ip) -> sl_locked (L ip) = false ->
  (i_valid (I ip) = false -> i_dev (I ip) = 1 /\ 0 <= IBLOCK (i_inum (I ip)) sb < nblocks f0 /\ di_type (disk_inode (i_inum (I ip))) <> 0) ->
  (forall f', view (upd I ip (brought (I ip))) (upd L ip (mkSleep true pid)) f' -> Q tt f') -> runs p pid (ilock (Some ip)) Q f.
Proof.
  intros Hv Hr Hl Hload HQ. unfold ilock. eapply runs_bind, runs_ino_get. rewrite (vw_inode _ _ _ _ _ _ _ Hv).
  rewrite (proj2 (Z.ltb_ge _ _)) by lia. eapply runs_bind, (runs_view_acquire I L f); [done..|]. intros f1 Hv1.
  eapply runs_bind, runs_ino_get. rewrite (vw_inode _ _ _ _ _ _ _ Hv1). unfold brought in HQ. destruct (i_valid (I ip)) eqn:Ev.
  { apply runs_ret, HQ. by rewrite upd_id. }
  destruct (Hload eq_refl) as (Hd & Hb & Ht). cbn [negb when]. eapply runs_bind, runs_sb_get. rewrite (view_sb _ _ _ _ Hv1), Hd.
  eapply runs_bind, (runs_view_bread _ _ f1); [done..|]. intros b f2 B2 Ed. eapply runs_bind, runs_buf_get. fold (bufs_of f2).
  rewrite Ed. fold (disk_inode (i_inum (I ip))). set (d := disk_inode _) in *. clear Ed.
  do 6 (eapply runs_bind, runs_view_upd; [exact B2|clear f2 B2; intros f2 B2]; rewrite ?upd_upd, ?upd_eq in B2).
  eapply runs_bind, (runs_view_brelse _ _ _ _ _ B2). intros f3 Hv3. eapply runs_bind, runs_view_upd; [exact Hv3|]. intros f4 Hv4.
  rewrite upd_upd, upd_eq in Hv4. eapply runs_bind, runs_ino_get. rewrite (vw_inode _ _ _ _ _ _ _ Hv4), upd_eq.
  cbn [i_type set_i_valid set_i_addrs set_i_size set_i_nlink set_i_minor set_i_major set_i_type]. rewrite (proj2 (Z.eqb_neq (di_type d) 0)) by done. by apply runs_ret, HQ.
Qed.

Lemma runs_iunlock I L f ip (Q : unit -> fstate low -> Prop) : view I L f -> 1 <= i_ref (I ip) -> L ip = mkSleep true pid ->
  (forall f', view I (upd L ip (mkSleep false 0)) f' -> Q tt f') -> runs p pid (iunlock (Some ip)) Q f.
Proof.
  intros Hv Hr Hl HQ. unfold iunlock. eapply runs_bind, runs_holdingsleep; [by rewrite (vw_lock _ _ _ _ _ _ _ Hv)|]. cbn [negb].
  eapply runs_bind, runs_ino_get. rewrite (vw_inode _ _ _ _ _ _ _ Hv), (proj2 (Z.ltb_ge _ _)) by lia.
  by apply (runs_view_release I L f).
Qed.

(** Giving back a reference to an inode that stays. *)
Lemma runs_iput I L f ip (Q : unit -> fstate low -> Prop) : view I L f -> sl_locked (L ip) = false ->
  (i_valid (I ip) = true -> i_nlink (I ip) <> 0) ->
  (forall f', view (upd I ip (set_i_ref (s32 (i_ref (I ip) - 1)) (I ip))) (upd L ip (mkSleep false 0)) f' -> Q tt f') ->
  runs p pid (iput (Some ip)) Q f.
Proof.
  intros Hv Hl Hn HQ. unfold iput. eapply runs_bind, (runs_view_acquire I L f); [done..|]. intros f1 Hv1.
  eapply runs_bind, runs_ino_get. rewrite (vw_inode _ _ _ _ _ _ _ Hv1).
  assert (i_valid (I ip) && (i_nlink (I ip) =? 0) = false) as ->.
  { destruct (i_valid (I ip)); [|done]. apply Z.eqb_neq. auto. }
  eapply runs_bind, runs_ret. eapply runs_bind, (runs_view_release _ _ f1); [done|]. intros f2 Hv2. rewrite upd_upd in Hv2.
  eapply runs_bind, runs_wacquire, runs_bind, runs_view_upd; [exact Hv2|]. intros f3 Hv3. by apply runs_wrelease, HQ.
Qed.

(** ** References to inodes *)

Definition is_inode (dev inum : Z) (x : inode) : bool := (i_ref x >? 0) && (i_dev x =? dev) && (i_inum x =? inum).
(** The entry that [iget] uses, and what becomes of it. *)
Definition iget_entry I (dev inum : Z) : option nat :=
  match find_first (fun i => is_inode dev inum (I i)) inodes with
  | Some ip => Some ip
  | None => find_first (fun i => i_ref (I i) =? 0) inodes
  end.
Definition iget_inode (dev inum : Z) (x : inode) : inode :=
  if is_inode dev inum x then set_i_ref (s32 (i_ref x + 1)) x else set_i_valid false (set_i_ref 1 (set_i_inum inum (set_i_dev dev x))).

Lemma runs_iget I L f dev inum ip (Q : nat -> fstate low -> Prop) : view I L f -> iget_entry I dev inum = Some ip ->
  (forall f', view (upd I ip (iget_inode dev inum (I ip))) L f' -> Q ip f') -> runs p pid (iget dev inum) Q f.
Proof.
  intros Hv He HQ. unfold iget. eapply runs_bind, runs_wacquire.
  eapply runs_bind. intros k Hk. exists (fs_low f), k, f. split; [by destruct f|]. split; [exact Hk|]. clear k Hk.
  rewrite (vw_inode _ _ _ _ _ _ _ Hv). unfold iget_entry, is_inode in He. unfold iget_inode in HQ. destruct (find_first _ inodes) as [i|] eqn:E1.
  - injection He as ->. apply find_first_elem in E1 as [_ E1]. unfold is_inode in HQ. rewrite E1 in HQ.
    eapply runs_bind, runs_view_upd; [exact Hv|]. intros f1 Hv1. eapply runs_bind, runs_wrelease, runs_ret. by apply HQ.
  - rewrite He. assert (is_inode dev inum (I ip) = false) as E.
    { apply find_first_elem in He as [_ He]. apply Z.eqb_eq in He. unfold is_inode. by rewrite He. }
    rewrite E in HQ. do 4 (eapply runs_bind, runs_view_upd; [exact Hv|clear Hv f; intros f Hv]; rewrite ?upd_upd, ?upd_eq in Hv).
    eapply runs_bind, runs_wrelease, runs_ret. by apply HQ.
Qed.
End rules.
