(* ===== verification/DirSpec.v ===== *)
(** * What directories and paths promise

    Names in directories, the entries of a directory, and path lookup: [namei] follows a path
    of directories on the disk and returns a reference to the inode at its end; the references
    to all other inodes are as before. *)
From S2P Require Import Prelude Machine ProcQueue StringC Spinlock Kalloc Vm VmFrame Proc RunQueue ProcRun Sched UserMem Trap FsState Sleeplock Disk Bio Log Fs FsLogic BufList Cache PathSpec InodeSpec.

(** ** Names *)

Definition is_byte (b : Z) : Prop := 0 <= b < 256.

Lemma before_nul_take n bs : take n (before_nul bs) = before_nul (take n bs).
Proof.
  revert n. induction bs as [|b bs IH]; intros n; [by destruct n|]. destruct n as [|n]; [done|]. simpl.
  destruct (b =? 0); [done|]. simpl. by rewrite IH.
Qed.

Lemma cstr_before_nul bs : forall m a, Forall is_byte bs -> (forall j, (j <= length bs)%nat -> m (a + Z.of_nat j) = nth j bs 0) ->
  cstr m a (before_nul bs).
Proof.
  induction bs as [|b bs IH]; intros m a Hb Hm; pose proof (Hm O ltac:(simpl; lia)) as H0; rewrite Z.add_0_r in H0; simpl in H0.
  - simpl. unfold rd. by rewrite H0.
  - apply Forall_cons in Hb as [Hb1 Hb2]. assert (rd m a = b) as E by (unfold rd; rewrite H0; by apply u8_small). simpl.
    destruct (b =? 0) eqn:Ez; bool_to_prop; simpl; [by rewrite E|]. split_and!; [done..|]. apply IH; [done|].
    intros j Hj. replace (a + 1 + Z.of_nat j) with (a + Z.of_nat (S j)) by lia. rewrite Hm by (simpl; lia). done.
Qed.

(** [namecmp] compares the names in two arrays. *)
Lemma namecmp_iff s t : Forall is_byte s -> Forall is_byte t -> (length s < 64)%nat -> namecmp s t = 0 <-> name_of s = name_of t.
Proof.
  intros Hs Ht Hl. unfold namecmp, name_of. rewrite <- !before_nul_take. apply strncmp_zero_iff; [|..|done].
  - apply cstr_before_nul; [done|]. intros j Hj. unfold two_arrays. rewrite (proj2 (Z.ltb_lt _ _)), Z.add_0_l, Nat2Z.id by lia. done.
  - apply cstr_before_nul; [done|]. intros j Hj. unfold two_arrays. rewrite (proj2 (Z.ltb_ge _ _)) by lia. f_equal. lia.
Qed.

Lemma skipelem_name path name path' name' : skipelem path name = Some (path', name') -> length name = Z.to_nat DIRSIZ ->
  Forall is_byte path -> Forall is_byte name -> length name' = Z.to_nat DIRSIZ /\ Forall is_byte name' /\ Forall is_byte path'.
Proof.
  unfold skipelem. intros E Hl Hp Hn.
  assert (Forall is_byte (skip_slashes path)) as Hs by (apply Forall_forall; intros c Hc%skip_slashes_elem; by rewrite Forall_forall in Hp; apply Hp).
  destruct (skip_slashes path) as [|c s] eqn:Es; [done|]. set (q := c :: s) in *.
  change (Some (skip_slashes (take_elem q).2, if Z.of_nat (length (take_elem q).1) >=? DIRSIZ then take (Z.to_nat DIRSIZ) (take_elem q).1
    else (take_elem q).1 ++ 0 :: drop (S (length (take_elem q).1)) name) = Some (path', name')) in E. clearbody q. injection E as <- <-.
  pose proof (take_elem_app q) as Ea. rewrite Ea, Forall_app in Hs. destruct Hs as [H1 H2]. split_and!.
  - rewrite Z.geb_leb. destruct (_ <=? _) eqn:E; bool_to_prop.
    + rewrite length_take. lia.
    + rewrite length_app. simpl. rewrite length_drop. lia.
  - destruct (_ >=? _); [by apply Forall_take|]. apply Forall_app. split; [done|]. apply Forall_cons. split; [done|]. by apply Forall_drop.
  - apply Forall_forall. intros d Hd%skip_slashes_elem. rewrite Forall_forall in H2. by apply H2.
Qed.

(** ** Entries *)

Section dirs.
Context (p : nat) (pid : Z) `{Symbols} `{DiskOk} `{DevSw} (f0 : fstate low) (cont : Z -> block) (pin : list Z).
Hypothesis Hroom : (length pin < NBUF)%nat.
Local Notation view := (fsview pid f0 cont pin []).
Local Notation sb := (l_sb (fs_low f0)).
Local Notation disk_inode := (disk_inode f0 cont).
Implicit Types (I : nat -> inode) (L : nat -> sleeplock).

(** The entry at [off] of a directory with the addresses [addrs]; entry [de] is in use and has the name [e]. *)
Definition entry_at (addrs : Z -> Z) (off : Z) : list Z := file_bytes cont addrs off 16.
Definition names (e de : list Z) : bool := negb (de_inum de =? 0) && bool_decide (name_of (de_name de) = e).

Lemma entry_bytes addrs off : Forall is_byte (de_name (entry_at addrs off)).
Proof. apply Forall_drop, Forall_fmap, Forall_true. intros o. apply u8_range. Qed.

(** The entry at [off] is the first one in use with the name [e] and leads to inode [j]. *)
Record first_entry (d : dinode) (e : list Z) (off j : Z) : Prop := {
  fe_off : 0 <= off /\ off mod 16 = 0 /\ off + 16 <= di_size d < 2 ^ 32 - 16;
  fe_blocks : has_bytes f0 cont (di_addrs d) 0 (off + 16);
  fe_before o : 0 <= o < off -> o mod 16 = 0 -> names e (entry_at (di_addrs d) o) = false;
  fe_entry : names e (entry_at (di_addrs d) off) = true;
  fe_inum : de_inum (entry_at (di_addrs d) off) = j;
}.

Lemma runs_read_entry I L f dp off (Q : Z * list Z -> fstate low -> Prop) : view I L f -> i_dev (I dp) = 1 -> i_type (I dp) <> T_DEV ->
  0 <= off -> off mod 16 = 0 -> off + 16 <= i_size (I dp) < 2 ^ 32 - 16 -> has_bytes f0 cont (i_addrs (I dp)) 0 (off + 16) ->
  (forall f', view I L f' -> Q (16, entry_at (i_addrs (I dp)) off) f') -> runs p pid (readi put_local [] dp off 16) Q f.
Proof.
  intros Hv Hd Ht Ho1 Ho2 Hs Hb HQ. assert (readable (i_size (I dp)) off 16 = 16) as Em by (unfold readable; lia).
  eapply (runs_readi p pid f0 cont pin Hroom I L f dp off 16); try done; try lia; rewrite Em; [|done].
  intros k Hk1 Hk2. apply Hb; unfold BSIZE in *; Z.div_mod_to_equations; lia.
Qed.

(** One turn of the loop of [dirlookup]. *)
Definition probe (dp : nat) (dev : Z) (name : list Z) (off : Z) : M W (option (nat * Z)) :=
  let* r := readi put_local [] dp off 16 in
  if negb (r.1 =? 16) then panic "dirlookup read" else
  if de_inum r.2 =? 0 then ret None else
  if namecmp name (de_name r.2) =? 0 then
    let* ip := iget dev (de_inum r.2) in
    ret (Some (ip, off))
  else ret None.

Lemma dir_offsets_split off size : 0 <= off -> off mod 16 = 0 -> off + 16 <= size ->
  exists l, dir_offsets 0 size = ((fun i => i * 16) <$> seqZ 0 (off / 16)) ++ off :: l.
Proof.
  intros H1' H2' H3'. unfold dir_offsets. rewrite Z.sub_0_r. set (n := (size + 15) / 16).
  assert (0 <= off / 16 < n) by (subst n; Z.div_mod_to_equations; lia). replace n with (off / 16 + (n - off / 16)) by lia.
  rewrite seqZ_app, fmap_app by lia. rewrite (seqZ_cons (0 + off / 16)) by lia. rewrite fmap_cons. eexists. f_equal.
  f_equal. Z.div_mod_to_equations. lia.
Qed.

Lemma runs_probes I L dp name l2 (Q : option (nat * Z) -> fstate low -> Prop) l1 : forall f, view I L f ->
  Forall is_byte name -> (length name < 64)%nat -> i_dev (I dp) = 1 -> i_type (I dp) <> T_DEV -> i_size (I dp) < 2 ^ 32 - 16 ->
  Forall (fun off => 0 <= off /\ off mod 16 = 0 /\ off + 16 <= i_size (I dp) /\ has_bytes f0 cont (i_addrs (I dp)) 0 (off + 16) /\
    names (name_of name) (entry_at (i_addrs (I dp)) off) = false) l1 ->
  (forall f', view I L f' -> runs p pid (for_some l2 (probe dp 1 name)) Q f') ->
  runs p pid (for_some (l1 ++ l2) (probe dp 1 name)) Q f.
Proof.
  induction l1 as [|off l1 IH]; intros f Hv Hn Hl Hd Ht Hs Hf HQ; [by apply HQ|].
  apply Forall_cons in Hf as [(Ho1 & Ho2 & Ho3 & Hb & Hm) Hf]. cbn [app for_some]. eapply runs_bind. unfold probe at 1.
  eapply runs_bind, (runs_read_entry I L f); [done..|]. intros f1 Hv1. cbn [fst snd]. change (negb (16 =? 16)) with false. cbv iota.
  assert (forall (m : M W (option (nat * Z))), runs p pid (if de_inum (entry_at (i_addrs (I dp)) off) =? 0 then ret None
    else if namecmp name (de_name (entry_at (i_addrs (I dp)) off)) =? 0 then m else ret None)
    (fun a f' => runs p pid match a with Some b => ret (Some b) | None => for_some (l1 ++ l2) (probe dp 1 name) end Q f') f1) as Hx; [|apply Hx].
  intros m. unfold names in Hm. destruct (_ =? 0); [apply runs_ret; by apply (IH f1)|].
  destruct (namecmp _ _ =? 0) eqn:E; [|apply runs_ret; by apply (IH f1)]. exfalso. apply Z.eqb_eq, namecmp_iff in E; [|done|apply entry_bytes|done].
  by rewrite bool_decide_true in Hm.
Qed.

(** The directory has the name. *)
Lemma runs_dirlookup I L f dp name off j ip (Q : option (nat * Z) -> fstate low -> Prop) d : view I L f ->
  Forall is_byte name -> (length name < 64)%nat -> I dp = loaded (I dp) d -> i_dev (I dp) = 1 -> di_type d = T_DIR ->
  first_entry d (name_of name) off j -> iget_entry I 1 j = Some ip ->
  (forall f', view (upd I ip (iget_inode 1 j (I ip))) L f' -> Q (Some (ip, off)) f') -> runs p pid (dirlookup dp name) Q f.
Proof.
  intros Hv Hn Hl Ed Hd Ht [Hoff Hb Hbe He Hj] Hip HQ. unfold dirlookup. eapply runs_bind, runs_ino_get.
  rewrite (vw_inode _ _ _ _ _ _ _ _ Hv). assert (i_type (I dp) = T_DIR) as Ht' by by rewrite Ed.
  assert (i_size (I dp) = di_size d) as Hs' by by rewrite Ed. assert (i_addrs (I dp) = di_addrs d) as Ha' by by rewrite Ed.
  rewrite Ht', Hs', Hd. cbn [negb Z.eqb T_DIR Pos.eqb].
  destruct (dir_offsets_split off (di_size d)) as (l & ->); [lia..|].
  apply (runs_probes I L dp name (off :: l) Q _ f Hv Hn Hl Hd); [by rewrite Ht'|lia| |].
  - apply Forall_fmap, Forall_seqZ. intros i Hi. rewrite Hs', Ha'. simpl. assert (i * 16 < off) by (Z.div_mod_to_equations; lia).
    assert (i * 16 mod 16 = 0) by (rewrite Z.mod_mul; lia). split_and!; [lia|done|lia| |apply Hbe; [lia|done]].
    intros k Hk1 Hk2. apply Hb; [lia|]. lia.
  - intros f1 Hv1. cbn [for_some]. eapply runs_bind. unfold probe at 1. eapply runs_bind, (runs_read_entry I L f1); try done; try lia.
    { by rewrite Ht'. } { by rewrite Ha'. }
    intros f2 Hv2. cbn [fst snd]. change (negb (16 =? 16)) with false. cbv iota. rewrite Ha'. unfold names in He.
    apply andb_true_iff in He as [He1 He2]. apply negb_true_iff in He1. rewrite He1.
    apply bool_decide_eq_true in He2. rewrite (proj2 (namecmp_iff name _ Hn (entry_bytes _ _) Hl)) by done. cbn [Z.eqb]. rewrite Hj.
    eapply runs_bind, (runs_iget p pid f0 cont pin I L f2 1 j ip); [done|done|]. intros f3 Hv3. by apply runs_ret, runs_ret, HQ.
Qed.

(** ** Paths on the disk *)

(** Inode [i] of the disk is a directory with a link to it. *)
Record directory (i : Z) : Prop := {
  dr_block : 0 <= IBLOCK i sb < nblocks f0;
  dr_type : di_type (disk_inode i) = T_DIR;
  dr_link : di_nlink (disk_inode i) <> 0;
}.

(** From directory [i] the names [es] lead to inode [k]. *)
Inductive reaches : Z -> list (list Z) -> Z -> Prop :=
  | reaches_here i : reaches i [] i
  | reaches_entry i e es off j k : directory i -> first_entry (disk_inode i) e off j -> reaches j es k -> reaches i (e :: es) k.

(** ** The inode cache during a lookup *)

(** A cached inode is the one on the disk. *)
Definition current (x : inode) : Prop :=
  i_dev x = 1 /\ (i_valid x = true -> x = loaded x (disk_inode (i_inum x))).
Record icache_ok I : Prop := {
  ic_ref i : 0 <= i_ref (I i) < 2 ^ 30;
  ic_current i : 0 < i_ref (I i) -> current (I i);
}.
(** [y] is what became of the entry [x]: a referenced one stays. *)
Definition stays (x y : inode) : Prop :=
  0 < i_ref x -> i_dev y = i_dev x /\ i_inum y = i_inum x /\ (i_valid x = true -> y = set_i_ref (i_ref y) x).
(** The cache was [I], and there is one more reference, to inode [inum] in entry [ip]. *)
Record holding I X (ip : nat) (inum : Z) : Prop := {
  hd_ref i : i_ref (X i) = i_ref (I i) + if decide (i = ip) then 1 else 0;
  hd_stays i : stays (I i) (X i);
  hd_current i : 0 < i_ref (X i) -> current (X i);
  hd_inum : i_inum (X ip) = inum;
}.

Lemma iget_entry_cases X dev inum ip : iget_entry X dev inum = Some ip ->
  is_inode dev inum (X ip) = true /\ i_ref (X ip) > 0 /\ i_dev (X ip) = dev /\ i_inum (X ip) = inum \/
  is_inode dev inum (X ip) = false /\ i_ref (X ip) = 0.
Proof.
  unfold iget_entry. destruct (find_first _ inodes) as [i|] eqn:E.
  - intros [= ->]. apply find_first_elem in E as [_ E]. left. split; [done|]. unfold is_inode in E. bool_to_prop. lia.
  - intros [_ E']%find_first_elem. bool_to_prop. right. split; [|done]. unfold is_inode. by rewrite E'.
Qed.

Lemma loaded_ref x d r : x = loaded x d -> set_i_ref r x = loaded (set_i_ref r x) d.
Proof. intros ->. done. Qed.
Lemma current_ref x r : current x -> current (set_i_ref r x).
Proof. intros [Hd Hl]. split; [done|]. intros Hv. by apply loaded_ref, Hl. Qed.
Lemma stays_ref x y r : stays x y -> stays x (set_i_ref r y).
Proof. intros Hs Hr. destruct (Hs Hr) as (? & ? & Hv). split_and!; try done. intros E. specialize (Hv E). by rewrite Hv. Qed.

(** What [iget] makes of its entry. *)
Lemma iget_inode_spec X inum ip r : iget_entry X 1 inum = Some ip -> 0 <= i_ref (X ip) <= 2 ^ 30 ->
  (0 < i_ref (X ip) -> current (X ip)) -> let y := iget_inode 1 inum (X ip) in
  i_ref y = i_ref (X ip) + 1 /\ i_inum y = inum /\ current y /\
  (forall x, i_ref x = i_ref (X ip) + r -> r <= 0 -> stays x (X ip) -> stays x y).
Proof.
  intros He Hr Hc y. unfold y, iget_inode. destruct (iget_entry_cases _ _ _ _ He) as [(-> & Hp & Hd & Hi)|[-> H0']].
  - simpl. rewrite s32_small by lia. split_and!; try done; [by apply current_ref, Hc; lia|]. intros x _ _ Hs. by apply stays_ref.
  - simpl. rewrite H0'. split_and!; try done. intros x Hx Hr0 _ Hpos. lia.
Qed.

Lemma holding_start I ip inum : icache_ok I -> iget_entry I 1 inum = Some ip -> holding I (upd I ip (iget_inode 1 inum (I ip))) ip inum.
Proof.
  intros [Hr Hc] He. pose proof (Hr ip) as Hri. destruct (iget_inode_spec I inum ip 0 He ltac:(lia) (Hc ip)) as (H1' & H2' & H3' & H4').
  assert (forall x, stays x x) as Hrefl by (intros x Hp; split_and!; try done; intros _; by destruct x).
  split; try intros i; rewrite ?upd_eq, ?upd_case; try destruct (decide (ip = i)) as [<-|Hne];
    rewrite ?(decide_True (P := ip = ip)), ?(decide_False (P := i = ip)) by done; try done; try lia.
  - apply H4'; [lia|lia|done].
  - apply Hc.
Qed.

Lemma holding_brought I X ip inum : holding I X ip inum -> holding I (upd X ip (brought f0 cont (X ip))) ip inum.
Proof.
  intros [Hr Hs Hc Hi]. unfold brought. destruct (i_valid (X ip)) eqn:Ev; [by rewrite upd_id|].
  split; try intros i; rewrite ?upd_eq, ?upd_case; try (case_decide as E; [subst i|]); try done.
  - apply Hr.
  - intros Hp. destruct (Hs ip Hp) as (E1 & E2 & E3). split_and!; try done. intros Hv. specialize (E3 Hv). rewrite E3 in Ev. simpl in Ev. congruence.
  - intros Hp. split; [by apply Hc|]. done.
  - apply Hc.
Qed.

Lemma holding_next I X ip inum nip j : icache_ok I -> holding I X ip inum -> iget_entry X 1 j = Some nip ->
  let X2 := upd X nip (iget_inode 1 j (X nip)) in holding I (upd X2 ip (set_i_ref (s32 (i_ref (X2 ip) - 1)) (X2 ip))) nip j.
Proof.
  intros [Hr0 _] [Hr Hs Hc Hi] He X2. pose proof (Hr nip) as Hrn. pose proof (Hr0 nip) as Hrn0. pose proof (Hr0 ip) as Hri0. pose proof (Hr ip) as Hri.
  rewrite decide_True in Hri by done.
  assert (0 <= i_ref (X nip) <= 2 ^ 30) as Hb by (case_decide; lia).
  destruct (iget_inode_spec X j nip (- if decide (nip = ip) then 1 else 0) He Hb (Hc nip)) as (H1' & H2' & H3' & H4').
  assert (stays (I nip) (X2 nip)) as Hsn.
  { unfold X2. rewrite upd_eq. apply H4'; [lia|case_decide; lia|done]. }
  assert (i_ref (X2 nip) = i_ref (X nip) + 1 /\ current (X2 nip) /\ i_inum (X2 nip) = j) as (R1 & R2 & R3) by (unfold X2; by rewrite upd_eq).
  assert (forall i, i <> nip -> X2 i = X i) as Hne by (intros; unfold X2; by rewrite upd_ne). clearbody X2.
  assert (i_ref (X2 ip) = i_ref (I ip) + 1 + if decide (nip = ip) then 1 else 0) as R4.
  { destruct (decide (nip = ip)) as [->|Hn]; [lia|]. rewrite Hne by done. lia. }
  assert (s32 (i_ref (X2 ip) - 1) = i_ref (X2 ip) - 1) as Es by (apply s32_small; case_decide; lia).
  assert (forall i, stays (I i) (X2 i)) as Hs2 by (intros i; destruct (decide (i = nip)) as [->|?]; [done|rewrite Hne by done; apply Hs]).
  assert (forall i, 0 < i_ref (X2 i) -> current (X2 i)) as Hc2 by (intros i; destruct (decide (i = nip)) as [->|?]; [done|rewrite Hne by done; apply Hc]).
  split.
  - intros i. rewrite upd_case. destruct (decide (ip = i)) as [<-|Hn]; simpl.
    + rewrite Es, R4. repeat case_decide; subst; try lia; done.
    + destruct (decide (i = nip)) as [->|Hn2]; [rewrite R1, Hr, decide_False by done; lia|]. rewrite Hne, Hr, decide_False by done. lia.
  - intros i. rewrite upd_case. destruct (decide (ip = i)) as [<-|Hn]; [apply stays_ref|]; apply Hs2.
  - intros i. rewrite upd_case. destruct (decide (ip = i)) as [<-|Hn]; [|apply Hc2]. intros _. apply current_ref, Hc2. case_decide; lia.
  - rewrite upd_case. destruct (decide (ip = nip)) as [->|Hn]; done.
Qed.

(** Two entries of the cache are free. *)
Definition two_free I : Prop := exists a b, a <> b /\ a ∈ inodes /\ b ∈ inodes /\ i_ref (I a) = 0 /\ i_ref (I b) = 0.

Lemma iget_free X dev inum a : a ∈ inodes -> i_ref (X a) = 0 -> exists ip, iget_entry X dev inum = Some ip.
Proof.
  intros Ha H0'. unfold iget_entry. destruct (find_first _ inodes) as [ip|]; [by exists ip|].
  destruct (find_first (fun i => i_ref (X i) =? 0) inodes) as [ip|] eqn:E; [by exists ip|].
  rewrite find_first_None in E. specialize (E a Ha). by rewrite H0' in E.
Qed.
Lemma holding_free I X ip inum : two_free I -> holding I X ip inum -> exists a, a ∈ inodes /\ i_ref (X a) = 0.
Proof.
  intros (a & b & Hab & Ha & Hb & Ra & Rb) [Hr _ _ _]. destruct (decide (a = ip)) as [->|Hne].
  - exists b. split; [done|]. rewrite Hr, decide_False, Rb by done. done.
  - exists a. split; [done|]. rewrite Hr, decide_False, Ra by done. done.
Qed.

Definition unlocked L : Prop := forall i, sl_locked (L i) = false.
Lemma unlocked_upd L i : unlocked L -> unlocked (upd L i (mkSleep false 0)).
Proof. intros HL j. rewrite upd_case. by case_decide. Qed.

(** One directory of the path. *)
Lemma runs_namex_turn I X L f ip name inum off j : icache_ok I -> two_free I ->
  view X L f -> unlocked L -> holding I X ip inum -> directory inum -> Forall is_byte name -> (length name < 64)%nat ->
  first_entry (disk_inode inum) (name_of name) off j ->
  runs p pid (ilock (Some ip)) (fun _ f1 => i_type (l_inode (fs_low f1) ip) = T_DIR /\
    runs p pid (dirlookup ip name) (fun r f2 => exists nip, r = Some (nip, off) /\
      runs p pid (iunlockput (Some ip)) (fun _ f3 => exists X' L', view X' L' f3 /\ unlocked L' /\ holding I X' nip j) f2) f1) f.
Proof.
  intros HI Hfree Hv HL Hh Hdir Hn Hl Hfe.
  pose proof (holding_brought I X ip inum Hh) as Hh1. pose proof (ic_ref _ HI ip) as Hr0.
  assert (1 <= i_ref (X ip)) as Hr by (rewrite (hd_ref _ _ _ _ Hh), decide_True by done; lia).
  destruct (hd_current _ _ _ _ Hh ip ltac:(lia)) as [Hd Hld]. rewrite (hd_inum _ _ _ _ Hh) in Hld.
  set (d := disk_inode inum) in *. pose proof (dr_type _ Hdir) as Ht. fold d in Ht. pose proof (dr_link _ Hdir) as Hk. fold d in Hk.
  assert (brought f0 cont (X ip) = loaded (brought f0 cont (X ip)) d) as Eb.
  { unfold brought. destruct (i_valid (X ip)) eqn:Ev; [auto|]. by rewrite (hd_inum _ _ _ _ Hh). }
  eapply (runs_ilock p pid f0 cont pin Hroom X L f ip); [done|done|apply HL|..].
  { intros _. rewrite (hd_inum _ _ _ _ Hh). split_and!; [done|apply Hdir..|]. fold d. by rewrite Ht. }
  set (x1 := brought f0 cont (X ip)) in *. set (X1 := upd X ip x1) in *. assert (X1 ip = x1) as Ex1 by (unfold X1; by rewrite upd_eq).
  intros f1 Hv1. rewrite (vw_inode _ _ _ _ _ _ _ _ Hv1), Ex1. split; [by rewrite Eb|].
  destruct (holding_free _ _ _ _ Hfree Hh1) as (a & Ha & Ra). destruct (iget_free X1 1 j a Ha Ra) as (nip & Hnip).
  assert (i_dev x1 = 1) as Hd1 by (unfold x1, brought; by destruct (i_valid (X ip))).
  eapply (runs_dirlookup X1 _ f1 ip name off j nip _ d Hv1 Hn Hl); rewrite ?Ex1; try done.
  intros f2 Hv2. exists nip. split; [done|]. set (X2 := upd X1 nip (iget_inode 1 j (X1 nip))) in *.
  pose proof (holding_next I X1 ip inum nip j HI Hh1 Hnip) as Hh3. cbv zeta in Hh3. fold X2 in Hh3.
  assert (1 <= i_ref (X2 ip) /\ i_nlink (X2 ip) = di_nlink d) as [Hr2 Hk2].
  { assert (i_ref x1 = i_ref (X ip) /\ i_nlink x1 = di_nlink d) as [Q1 Q2] by (split; [unfold x1, brought; by destruct (i_valid (X ip))|by rewrite Eb]).
    unfold X2. rewrite upd_case. destruct (decide (nip = ip)) as [->|Hne]; [|rewrite Ex1; lia].
    unfold iget_inode. destruct (iget_entry_cases _ _ _ _ Hnip) as [(-> & _)|[_ E0]]; [|rewrite Ex1 in E0; lia]. simpl.
    rewrite Ex1, Q1, (hd_ref _ _ _ _ Hh), decide_True, s32_small by (try done; lia). split; [lia|exact Q2]. }
  unfold iunlockput. eapply runs_bind, (runs_iunlock p pid f0 cont pin Hroom X2); [done|done|by rewrite upd_eq|].
  intros f3 Hv3. rewrite upd_upd in Hv3. eapply (runs_iput p pid f0 cont pin X2); [exact Hv3|by rewrite upd_eq|by rewrite Hk2|].
  intros f4 Hv4. rewrite upd_upd in Hv4. eexists _, _. split; [exact Hv4|]. split; [by apply unlocked_upd|done].
Qed.

Lemma runs_namex_loop I fuel : icache_ok I -> two_free I -> forall X L f ip path name i k (Q : option (nat * list Z) -> fstate low -> Prop),
  view X L f -> unlocked L -> holding I X ip i -> reaches i (elements path) k -> (length path < fuel)%nat ->
  0 ∉ path -> Forall is_byte path -> Forall is_byte name -> length name = Z.to_nat DIRSIZ ->
  (forall ip' name' X' L' f', view X' L' f' -> unlocked L' -> holding I X' ip' k -> Q (Some (ip', name')) f') ->
  runs p pid (namex_loop fuel ip path false name) Q f.
Proof.
  intros HI Hfree. induction fuel as [|fuel IH]; intros X L f ip path name i k Q Hv HL Hh Hre Hlen Hz Hp Hn Hnl HQ; [lia|].
  cbn [namex_loop]. pose proof (skipelem_spec path name Hz) as Hs. destruct (skipelem path name) as [[path' name']|] eqn:Es.
  2: { rewrite Hs in Hre. inversion Hre; subst. apply runs_ret. by eapply HQ. }
  destruct Hs as (Ee & Hl' & Hz'). rewrite Ee in Hre. inversion Hre as [|? ? ? off j ? Hdir Hfe Hre']; subst.
  destruct (skipelem_name _ _ _ _ Es Hnl Hp Hn) as (Hnl' & Hn' & Hp').
  eapply runs_bind, runs_mono; [eapply (runs_namex_turn I X L f ip name' i off j); try done; rewrite Hnl'; unfold DIRSIZ; lia|].
  intros _ f1 [Ht Hdl]. eapply runs_bind, runs_ino_get. rewrite Ht. cbn [negb Z.eqb T_DIR Pos.eqb andb].
  eapply runs_bind, runs_mono; [exact Hdl|]. intros r f2 (nip & -> & Hup).
  eapply runs_bind, runs_mono; [exact Hup|]. intros _ f3 (X' & L' & Hv3 & HL3 & Hh3).
  apply (IH X' L' f3 nip path' name' j k); try done. lia.
Qed.

Lemma runs_namei I L f path k (Q : option nat -> fstate low -> Prop) : icache_ok I -> two_free I -> view I L f -> unlocked L ->
  head path = Some slash -> 0 ∉ path -> Forall is_byte path -> reaches ROOTINO (elements path) k ->
  (forall ip X L' f', view X L' f' -> unlocked L' -> holding I X ip k -> Q (Some ip) f') -> runs p pid (namei path) Q f.
Proof.
  intros HI Hfree Hv HL Hhd Hz Hp Hre HQ. pose proof Hfree as (a & _ & _ & Ha & _ & Ra & _).
  destruct (iget_free I 1 ROOTINO a Ha Ra) as (ip & Hip). unfold namei, namex. eapply runs_bind, runs_bind.
  rewrite bool_decide_true by done. eapply (runs_iget p pid f0 cont pin I L f); [done|exact Hip|]. intros f1 Hv1.
  eapply (runs_namex_loop I); try done; [by apply holding_start|lia|by apply Forall_replicate|].
  intros ip' name' X' L' f' Hv' HL' Hh'. by eapply runs_ret, HQ.
Qed.

(** C7. Path lookup: when an absolute path leads, entry by entry through directories on the disk, to inode [k], namei returns
    a reference to inode [k] (whatever the cache held of it); it finds the first entry with each name, reads only blocks the
    directories have, never panics while two entries of the inode cache and a buffer are free, changes no block, leaves every
    inode unlocked, and of the reference counts only that of the result is changed, by one. *)
Theorem namei_reaches I L f path k : icache_ok I -> two_free I -> view I L f -> unlocked L ->
  head path = Some slash -> 0 ∉ path -> Forall is_byte path -> reaches ROOTINO (elements path) k ->
  runs p pid (namei path) (fun r f' => exists ip X L', r = Some ip /\ view X L' f' /\ unlocked L' /\
    i_inum (X ip) = k /\ i_dev (X ip) = 1 /\ (forall i, i_ref (X i) = i_ref (I i) + if decide (i = ip) then 1 else 0) /\
    forall i, stays (I i) (X i)) f.
Proof.
  intros HI Hfree Hv HL Hhd Hz Hp Hre. eapply (runs_namei I L f path k); try done. intros ip X L' f' Hv' HL' [H1' H2' H3' H4'].
  exists ip, X, L'. split_and!; try done. apply H3'. rewrite H1', decide_True by done. pose proof (ic_ref _ HI ip). lia.
Qed.
End dirs.
