(* ===== verification/BmapSpec.v ===== *)
(** * The blocks of a file that grows

    The blocks of a file are its slots: the file blocks, and the block of addresses as slot
    -1.  [bmap] gives a file block to a slot that has none; the contents of the file, in
    which missing blocks count as zeros, stay the same, and no other file changes. *)
From S2P Require Import Prelude Machine ProcQueue StringC Spinlock Kalloc Vm VmFrame Proc RunQueue ProcRun Sched UserMem Trap FsState Sleeplock Disk Bio Log Fs FsLogic BufList Cache LogSpec LogWrite BallocSpec PathSpec InodeSpec.

(** ** Slots *)

Definition fslot (cont : Z -> block) (addrs : Z -> Z) (k : Z) : Z :=
  if k =? -1 then addrs NDIRECT
  else if k <? NDIRECT then addrs k
  else if addrs NDIRECT =? 0 then 0 else load32 (cont (addrs NDIRECT)) (4 * (k - NDIRECT)).
Definition is_slot (k : Z) : Prop := -1 <= k < MAXFILE.

(** The byte at [o]; blocks the file does not have count as zeros. *)
Definition content (cont : Z -> block) (addrs : Z -> Z) (o : Z) : Z :=
  let b := fslot cont addrs (o / BSIZE) in if b =? 0 then 0 else cont b (o mod BSIZE).

Ltac fsc := change MAXFILE with 140 in *; change NDIRECT with 12 in *; change NINDIRECT with 128 in *; change BSIZE with 512 in *;
  change (2 ^ 32) with 4294967296 in *.

Lemma fslot_minus cont addrs : fslot cont addrs (-1) = addrs NDIRECT.
Proof. done. Qed.
Lemma fslot_direct cont addrs k : 0 <= k < NDIRECT -> fslot cont addrs k = addrs k.
Proof. intros Hk. unfold fslot. by rewrite (proj2 (Z.eqb_neq k (-1))), (proj2 (Z.ltb_lt k NDIRECT)) by lia. Qed.
Lemma fslot_entry cont addrs k : NDIRECT <= k -> addrs NDIRECT <> 0 ->
  fslot cont addrs k = load32 (cont (addrs NDIRECT)) (4 * (k - NDIRECT)).
Proof.
  intros Hk H0. unfold fslot. rewrite (proj2 (Z.eqb_neq k (-1))), (proj2 (Z.ltb_ge k NDIRECT)) by (fsc; lia).
  by rewrite (proj2 (Z.eqb_neq (addrs NDIRECT) 0)).
Qed.
Lemma fslot_no_entry cont addrs k : NDIRECT <= k -> addrs NDIRECT = 0 -> fslot cont addrs k = 0.
Proof.
  intros Hk H0. unfold fslot. rewrite (proj2 (Z.eqb_neq k (-1))), (proj2 (Z.ltb_ge k NDIRECT)) by (fsc; lia). by rewrite H0.
Qed.

(** A slot with a block is what reading goes to. *)
Lemma fslot_block cont addrs k : 0 <= k < MAXFILE -> fslot cont addrs k <> 0 ->
  file_block_at cont addrs k = fslot cont addrs k /\ (NDIRECT <= k -> addrs NDIRECT <> 0).
Proof.
  intros Hk H0. unfold file_block_at. destruct (decide (k < NDIRECT)) as [Hd|Hd].
  - rewrite (proj2 (Z.ltb_lt k NDIRECT)), fslot_direct by lia. split; [done|lia].
  - rewrite (proj2 (Z.ltb_ge k NDIRECT)) by lia. destruct (decide (addrs NDIRECT = 0)) as [E|E]; [by rewrite fslot_no_entry in H0 by lia|].
    by rewrite fslot_entry by lia.
Qed.

(** ** Blocks of the disk *)

Section slots.
Context (f0 : fstate low).
Local Notation sb := (l_sb (fs_low f0)).
Local Notation lg := (l_log (fs_low f0)).

Definition is_inum (i : Z) : Prop := 0 <= i < sb_ninodes sb.
Definition on_bitmap (m : Z) : Prop := exists n, 0 <= n < sb_size sb /\ BBLOCK n sb = m.

(** Block [b] holds data: it is marked used, and is not a block of the log, the bitmap or the inodes. *)
Record data_block (cont : Z -> block) (b : Z) : Prop := {
  db_range : 0 < b < sb_size sb;
  db_used : is_free sb cont b = false;
  db_log : ~ in_log lg b;
  db_bitmap : ~ on_bitmap b;
  db_inode i : is_inum i -> IBLOCK i sb <> b;
}.

(** Blocks that are free could hold data; the blocks of inodes are where they should be. *)
Record disk_ok (cont : Z -> block) : Prop := {
  dk_bitmap : bitmap_ok f0 cont;
  dk_free n : 0 <= n < sb_size sb -> is_free sb cont n = true -> 0 < n /\ forall i, is_inum i -> IBLOCK i sb <> n;
  dk_inode i : is_inum i -> 0 <= IBLOCK i sb < nblocks f0 /\ ~ in_log lg (IBLOCK i sb) /\ ~ on_bitmap (IBLOCK i sb);
}.

(** The blocks of a file are its own. *)
Record file_ok (cont : Z -> block) (addrs : Z -> Z) : Prop := {
  fo_data k : is_slot k -> fslot cont addrs k = 0 \/ data_block cont (fslot cont addrs k);
  fo_inj k l : is_slot k -> is_slot l -> fslot cont addrs k = fslot cont addrs l -> fslot cont addrs k <> 0 -> k = l;
}.

Definition nfree (cont : Z -> block) : nat := length (filter (fun n => is_free sb cont n = true) (seqZ 0 (sb_size sb))).

Lemma free_iff cont n : n ∈ filter (fun n => is_free sb cont n = true) (seqZ 0 (sb_size sb)) <-> is_free sb cont n = true /\ 0 <= n < sb_size sb.
Proof. rewrite list_elem_of_filter, elem_of_seqZ. split; intros []; split; try done; lia. Qed.
Lemma free_NoDup cont : NoDup (filter (fun n => is_free sb cont n = true) (seqZ 0 (sb_size sb))).
Proof. apply NoDup_filter, NoDup_seqZ. Qed.

Lemma nfree_ext cont cont' : (forall n, 0 <= n < sb_size sb -> is_free sb cont' n = is_free sb cont n) -> nfree cont' = nfree cont.
Proof.
  intros He. apply Permutation_length, NoDup_Permutation; [apply free_NoDup..|]. intros n. rewrite !free_iff.
  split; intros [Hf Hn]; (split; [|done]); [by rewrite <- He|by rewrite He].
Qed.
Lemma nfree_alloc cont n cont' : allocated sb cont n cont' -> nfree cont' = pred (nfree cont) /\ (0 < nfree cont)%nat.
Proof.
  intros [H1 H2 _ H4 _ _]. enough (nfree cont = S (nfree cont')) by lia. apply (Permutation_length (l' := n :: _)), NoDup_Permutation.
  - apply free_NoDup.
  - apply NoDup_cons. split; [|apply free_NoDup]. rewrite free_iff, H4, Z.eqb_refl, andb_false_r by done. by intros [].
  - intros m. rewrite elem_of_cons, !free_iff. split.
    + intros [Hf Hm]. destruct (decide (m = n)) as [->|Hne]; [by left|right]. rewrite H4, (proj2 (Z.eqb_neq n m)), Hf by done. done.
    + intros [->|[Hf Hm]]; [done|]. rewrite H4 in Hf by done. by apply andb_true_iff in Hf as [-> _].
Qed.
Lemma nfree_exists cont : (0 < nfree cont)%nat -> exists n, 0 <= n < sb_size sb /\ is_free sb cont n = true.
Proof.
  unfold nfree. destruct (filter _ _) as [|n l] eqn:E; simpl; [lia|]. intros _. exists n. apply and_comm, free_iff. rewrite E. by left.
Qed.

(** ** Allocation leaves files alone *)

Section alloc.
Context (cont : Z -> block) (n : Z) (cont1 : Z -> block).
Hypothesis Hd : disk_ok cont.
Hypothesis Ha : allocated sb cont n cont1.

Lemma alloc_same b : ~ on_bitmap b -> b <> n -> cont1 b = cont b.
Proof. intros Hb Hn. apply (al_same _ _ _ _ Ha); [done|]. intros ->. apply Hb. exists n. split; [apply Ha|done]. Qed.
Lemma alloc_used b : 0 <= b < sb_size sb -> is_free sb cont b = false -> is_free sb cont1 b = false /\ b <> n.
Proof.
  intros Hb Hu. rewrite (al_bits _ _ _ _ Ha), Hu by done. split; [done|]. intros ->. by rewrite (al_free _ _ _ _ Ha) in Hu.
Qed.
Lemma alloc_data b : data_block cont b -> data_block cont1 b /\ cont1 b = cont b /\ b <> n.
Proof.
  intros [H1 H2 H3 H4 H5]. destruct (alloc_used b) as [Hu Hn]; [lia|done|]. split_and!; [by split| |done]. by apply alloc_same.
Qed.
Lemma alloc_new : data_block cont1 n.
Proof.
  pose proof (al_range _ _ _ _ Ha) as Hr. pose proof (al_free _ _ _ _ Ha) as Hf. destruct (dk_free _ Hd n Hr Hf) as [Hp Hi].
  destruct (bk_free _ _ (dk_bitmap _ Hd) n Hr Hf) as [Hl Hb]. split; [lia| |done| |done].
  - by rewrite (al_bits _ _ _ _ Ha), Z.eqb_refl, andb_false_r.
  - intros (m & Hm & E). by apply (Hb m).
Qed.
Lemma alloc_disk : disk_ok cont1.
Proof.
  destruct Hd as [[B1 B2 B3] D2 D3]. assert (forall m, 0 <= m < sb_size sb -> is_free sb cont1 m = true -> is_free sb cont m = true) as Hf.
  { intros m Hm. rewrite (al_bits _ _ _ _ Ha) by done. by intros [? _]%andb_true_iff. }
  split; [split|..]; auto.
Qed.
Lemma alloc_slots addrs l : file_ok cont addrs -> is_slot l -> fslot cont1 addrs l = fslot cont addrs l.
Proof.
  intros Hf Hl. unfold fslot. destruct (l =? -1); [done|]. destruct (l <? NDIRECT); [done|]. destruct (addrs NDIRECT =? 0) eqn:E; [done|]. bool_to_prop.
  destruct (fo_data _ _ Hf (-1)) as [H0|H0]; [unfold is_slot; fsc; lia|done|]. rewrite fslot_minus in H0. by rewrite (proj1 (proj2 (alloc_data _ H0))).
Qed.
Lemma alloc_file addrs : file_ok cont addrs -> file_ok cont1 addrs.
Proof.
  intros Hf. split.
  - intros k Hk. rewrite alloc_slots by done. destruct (fo_data _ _ Hf k Hk) as [?|Hk']; [by left|right]. by apply alloc_data.
  - intros k l Hk Hl. rewrite !alloc_slots by done. by apply Hf.
Qed.
Lemma alloc_not_slot addrs k : file_ok cont addrs -> is_slot k -> fslot cont addrs k <> n.
Proof.
  intros Hf Hk E. destruct (fo_data _ _ Hf k Hk) as [H0|H0]; [|by apply alloc_data in H0 as (_ & _ & ?)].
  pose proof (db_range _ _ alloc_new). lia.
Qed.
Lemma alloc_content addrs o : file_ok cont addrs -> 0 <= o < MAXFILE * BSIZE -> content cont1 addrs o = content cont addrs o.
Proof.
  intros Hf Ho. assert (is_slot (o / BSIZE)) as Hs by (unfold is_slot; fsc; Z.div_mod_to_equations; lia).
  unfold content. rewrite alloc_slots by done. destruct (fo_data _ _ Hf _ Hs) as [->|H0]; [done|]. by rewrite (proj1 (proj2 (alloc_data _ H0))).
Qed.
End alloc.

(** ** A slot gets a block *)

Lemma minus_is_slot : is_slot (-1).
Proof. unfold is_slot. fsc. lia. Qed.
Lemma data_is_slot k : 0 <= k < MAXFILE -> is_slot k.
Proof. unfold is_slot. lia. Qed.

(** The bits do not depend on blocks that are not in the bitmap. *)
Lemma is_free_other cont b d n : ~ on_bitmap b -> 0 <= n < sb_size sb -> is_free sb (upd cont b d) n = is_free sb cont n.
Proof. intros Hb Hn. unfold is_free. rewrite upd_ne; [done|]. intros E. apply Hb. by exists n. Qed.
Lemma data_block_other cont b d m : ~ on_bitmap b -> data_block cont m -> data_block (upd cont b d) m.
Proof. intros Hb [H1 H2 H3 H4 H5]. split; try done. rewrite is_free_other by (done || lia). done. Qed.
Lemma disk_ok_other cont b d : ~ on_bitmap b -> disk_ok cont -> disk_ok (upd cont b d).
Proof.
  intros Hb [[B1 B2 B3] D2 D3]. split; [split|..]; try done; intros n Hn; rewrite is_free_other by (done || lia); auto.
Qed.

Section assign.
Context (cont : Z -> block) (addrs : Z -> Z) (s n : Z) (cont' : Z -> block) (addrs' : Z -> Z).
Hypothesis Hf : file_ok cont addrs.
Hypothesis Hs : is_slot s.
Hypothesis Hn : data_block cont' n.
Hypothesis Hfresh : forall l, is_slot l -> fslot cont addrs l <> n.
Hypothesis Hslots : forall l, is_slot l -> fslot cont' addrs' l = if decide (l = s) then n else fslot cont addrs l.
Hypothesis Hdata : forall b, data_block cont b -> data_block cont' b.
Hypothesis Hold : fslot cont addrs s = 0.

Lemma assign_file : file_ok cont' addrs'.
Proof.
  split.
  - intros k Hk. rewrite Hslots by done. case_decide; [by right|]. destruct (fo_data _ _ Hf k Hk) as [?|?]; [by left|right; auto].
  - intros k l Hk Hl. rewrite !Hslots by done. pose proof (db_range _ _ Hn). repeat case_decide; subst; try done.
    + intros E. exfalso. by apply (Hfresh l).
    + intros E. exfalso. by apply (Hfresh k).
    + by apply Hf.
Qed.

Hypothesis Hzero : 0 <= s -> forall o, cont' n o = 0.
Hypothesis Hsame : forall l, is_slot l -> 0 <= l -> fslot cont addrs l <> 0 -> cont' (fslot cont addrs l) = cont (fslot cont addrs l).

Lemma assign_content o : 0 <= o < MAXFILE * BSIZE -> content cont' addrs' o = content cont addrs o.
Proof.
  intros Ho. assert (0 <= o / BSIZE < MAXFILE) as Hk by (fsc; Z.div_mod_to_equations; lia). pose proof (data_is_slot _ Hk) as Hks.
  unfold content. rewrite Hslots by done. case_decide as E.
  - rewrite E, Hold, Hzero by lia. by destruct (n =? 0).
  - destruct (fslot cont addrs (o / BSIZE) =? 0) eqn:E0; bool_to_prop; [done|]. rewrite Hsame by (done || lia). done.
Qed.
End assign.

(** One of the addresses in the inode. *)
Definition addr_slot (a : Z) : Z := if a =? NDIRECT then -1 else a.

Lemma addr_slot_ok a : 0 <= a <= NDIRECT -> is_slot (addr_slot a).
Proof. intros Ha. unfold is_slot, addr_slot. fsc. destruct (a =? 12) eqn:E; bool_to_prop; lia. Qed.

Lemma fslot_addr cont addrs a : 0 <= a <= NDIRECT -> fslot cont addrs (addr_slot a) = addrs a.
Proof.
  intros Ha. unfold addr_slot. destruct (a =? NDIRECT) eqn:E; bool_to_prop; [by subst|]. apply fslot_direct. lia.
Qed.

Lemma fslot_set_addr cont addrs a n l : 0 <= a <= NDIRECT -> is_slot l -> addrs a = 0 -> n <> 0 -> (forall o, cont n o = 0) ->
  fslot cont (upd addrs a n) l = if decide (l = addr_slot a) then n else fslot cont addrs l.
Proof.
  intros Ha Hl H0 Hn Hz. unfold is_slot in Hl. unfold addr_slot. destruct (a =? NDIRECT) eqn:Ea; bool_to_prop.
  - subst a. case_decide as E; [subst l; rewrite fslot_minus; apply upd_eq|]. destruct (decide (l < NDIRECT)).
    + rewrite !fslot_direct by (fsc; lia). by rewrite upd_ne by lia.
    + rewrite fslot_entry, (fslot_no_entry cont addrs) by (rewrite ?upd_eq; lia). rewrite upd_eq. unfold load32. by rewrite !Hz.
  - case_decide as E; [subst l; rewrite fslot_direct by lia; apply upd_eq|]. unfold fslot.
    rewrite !(upd_ne _ a NDIRECT) by lia. destruct (l =? -1); [done|]. destruct (l <? NDIRECT); [|done]. by rewrite upd_ne.
Qed.

(** An entry of the block of addresses. *)
Lemma fslot_set_entry cont addrs k n l : NDIRECT <= k < MAXFILE -> is_slot l -> let ib := addrs NDIRECT in ib <> 0 -> 0 <= n < 2 ^ 32 ->
  fslot (upd cont ib (store32 (cont ib) (4 * (k - NDIRECT)) n)) addrs l = if decide (l = k) then n else fslot cont addrs l.
Proof.
  intros Hk Hl ib Hib Hn. unfold is_slot in Hl. destruct (decide (l < NDIRECT)) as [Hd|Hd].
  - rewrite decide_False by lia. unfold fslot. destruct (l =? -1); [done|]. by rewrite (proj2 (Z.ltb_lt l NDIRECT)).
  - rewrite !fslot_entry by (done || lia). fold ib. rewrite upd_eq. case_decide as E.
    + subst l. by rewrite load32_store32_eq, u32_small.
    + rewrite load32_store32_ne by lia. done.
Qed.

(** ** Growing a file *)

(** The file has grown towards block [k], by [c] blocks; [bl] are the blocks of the transaction. *)
Record extends (k : Z) (c : nat) (cont : Z -> block) (addrs : Z -> Z) (bl : list Z) (cont' : Z -> block) (addrs' : Z -> Z) (bl' : list Z) : Prop := {
  ex_disk : disk_ok cont';
  ex_file : file_ok cont' addrs';
  ex_slots l : is_slot l -> fslot cont addrs l <> 0 \/ l <> k /\ l <> -1 -> fslot cont' addrs' l = fslot cont addrs l;
  ex_content o : 0 <= o < MAXFILE * BSIZE -> content cont' addrs' o = content cont addrs o;
  ex_same m : (0 <= m < sb_size sb -> is_free sb cont m = false) -> ~ on_bitmap m -> m = 0 \/ m <> fslot cont' addrs' (-1) -> cont' m = cont m;
  ex_free m : 0 <= m < sb_size sb -> is_free sb cont' m = true -> is_free sb cont m = true;
  ex_count : (nfree cont' + c)%nat = nfree cont;
  ex_bl m : m ∈ bl' -> m ∈ bl \/ on_bitmap m \/ m <> 0 /\ (m = fslot cont' addrs' (-1) \/ m = fslot cont' addrs' k);
}.

Lemma extends_refl k cont addrs bl : disk_ok cont -> file_ok cont addrs -> extends k 0 cont addrs bl cont addrs bl.
Proof. intros Hd Hf. split; try done; try lia. intros m Hm. by left. Qed.

Lemma extends_trans k c1 c2 cont addrs bl cont1 addrs1 bl1 cont2 addrs2 bl2 : 0 <= k < MAXFILE ->
  extends k c1 cont addrs bl cont1 addrs1 bl1 -> extends k c2 cont1 addrs1 bl1 cont2 addrs2 bl2 ->
  extends k (c1 + c2) cont addrs bl cont2 addrs2 bl2.
Proof.
  intros Hk [A1 A2 A3 A4 A5 A6 A7 A8] [B1 B2 B3 B4 B5 B6 B7 B8]. split; try done.
  - intros l Hl Hc. rewrite B3; [by apply A3|done|]. rewrite A3 by done. done.
  - intros o Ho. by rewrite B4, A4.
  - intros m Hm Hb Hi. rewrite B5; [apply A5; [done|done|]| |done|done].
    + destruct Hi as [?|Hi]; [by left|]. destruct (decide (m = 0)) as [|Hm0]; [by left|right].
      destruct (decide (fslot cont1 addrs1 (-1) = 0)) as [->|Hne]; [done|]. by rewrite <- (B3 (-1) minus_is_slot (or_introl Hne)).
    + intros Hr. destruct (is_free sb cont1 m) eqn:E; [|done]. apply A6 in E; [|done]. by rewrite Hm in E.
  - intros m Hm Hf. by apply A6, B6.
  - lia.
  - intros m [Hm|[Hm|Hm]]%B8; [|by right; left|by right; right]. destruct (A8 m Hm) as [?|[?|[Hm0 Hc]]]; [by left|by right; left|]. right; right.
    split; [done|]. destruct Hc as [->| ->]; [left|right]; symmetry; apply B3; auto using minus_is_slot, data_is_slot.
Qed.

(** The blocks of an allocation in the transaction. *)
Lemma add_block_in bl n m : m ∈ add_block bl n -> m ∈ bl \/ m = n.
Proof. unfold add_block. case_decide; [by left|]. intros [?|?%list_elem_of_singleton]%elem_of_app; auto. Qed.
Lemma add_blocks_in bl b n m : m ∈ add_block (add_block bl b) n -> m ∈ bl \/ m = b \/ m = n.
Proof. intros [[?|?]%add_block_in|?]%add_block_in; auto. Qed.

Lemma extends_addr cont addrs bl n cont1 a k : disk_ok cont -> file_ok cont addrs -> allocated sb cont n cont1 -> 0 <= a <= NDIRECT ->
  addrs a = 0 -> 0 <= k < MAXFILE -> addr_slot a = k \/ addr_slot a = -1 ->
  extends k 1 cont addrs bl cont1 (upd addrs a n) (add_block (add_block bl (BBLOCK n sb)) n).
Proof.
  intros Hd Hf Hal Ha H0 Hk Hor. pose proof (alloc_new _ _ _ Hd Hal) as Hnew. pose proof (db_range _ _ Hnew) as Hnr.
  assert (forall o, cont1 n o = 0) as Hz by (intros o; by rewrite (al_zero _ _ _ _ Hal)).
  pose proof (addr_slot_ok a Ha) as Has. set (s := addr_slot a) in *.
  assert (forall l, is_slot l -> fslot cont1 (upd addrs a n) l = if decide (l = s) then n else fslot cont addrs l) as Hsl.
  { intros l Hl. rewrite fslot_set_addr by (done || lia). fold s. by rewrite (alloc_slots _ _ _ Hal _ _ Hf Hl). }
  assert (fslot cont addrs s = 0) as Hs0 by (unfold s; by rewrite fslot_addr).
  split.
  - by eapply alloc_disk.
  - apply (assign_file cont addrs s n); try done; [intros l Hl; by eapply alloc_not_slot|]. intros b Hb. by eapply (alloc_data _ _ _ Hal).
  - intros l Hl Hc. rewrite Hsl by done. rewrite decide_False; [done|]. intros ->. destruct Hc as [?|[? ?]]; [done|]. by destruct Hor.
  - intros o Ho. apply (assign_content cont addrs s n); try done.
    intros l Hl _ Hne. destruct (fo_data _ _ Hf l Hl) as [?|Hb]; [done|]. by apply (alloc_data _ _ _ Hal).
  - intros m Hm Hb _. eapply alloc_same; [done..|]. intros ->. pose proof (al_free _ _ _ _ Hal) as Hfr. rewrite Hm in Hfr by lia. done.
  - intros m Hm. rewrite (al_bits _ _ _ _ Hal) by done. by intros [? _]%andb_true_iff.
  - destruct (nfree_alloc _ _ _ Hal). lia.
  - intros m [?|[->| ->]]%add_blocks_in; [by left|right; left; exists n; split; [lia|done]|right; right].
    split; [lia|]. destruct Hor as [<-|E]; [right|left]; rewrite Hsl by (done || apply minus_is_slot); by rewrite decide_True.
Qed.

Lemma extends_entry cont addrs bl n cont1 k : disk_ok cont -> file_ok cont addrs -> allocated sb cont n cont1 -> NDIRECT <= k < MAXFILE ->
  let ib := addrs NDIRECT in ib <> 0 -> fslot cont addrs k = 0 -> sb_size sb < 2 ^ 32 ->
  extends k 1 cont addrs bl (upd cont1 ib (store32 (cont1 ib) (4 * (k - NDIRECT)) n)) addrs
    (add_block (add_block (add_block bl (BBLOCK n sb)) n) ib).
Proof.
  intros Hd Hf Hal Hk ib Hib H0 Hsz. pose proof (alloc_new _ _ _ Hd Hal) as Hnew. pose proof (db_range _ _ Hnew) as Hnr.
  assert (is_slot k) as Hks by (unfold is_slot; fsc; lia). pose proof minus_is_slot as Hms.
  destruct (fo_data _ _ Hf (-1) Hms) as [?|Hibd]; [done|]. rewrite fslot_minus in Hibd. fold ib in Hibd.
  destruct (alloc_data _ _ _ Hal ib Hibd) as (Hibd1 & _ & Hibn). pose proof (db_bitmap _ _ Hibd) as Hibb.
  set (cont2 := upd cont1 ib _).
  assert (forall l, is_slot l -> fslot cont2 addrs l = if decide (l = k) then n else fslot cont addrs l) as Hsl.
  { intros l Hl. unfold cont2. etransitivity; [apply (fslot_set_entry cont1 addrs k n l Hk Hl Hib); lia|]. by rewrite (alloc_slots _ _ _ Hal _ _ Hf Hl). }
  assert (forall b, b <> ib -> cont2 b = cont1 b) as Hc2 by (intros b Hb; unfold cont2; by rewrite upd_ne).
  split.
  - apply disk_ok_other; [done|]. by eapply alloc_disk.
  - apply (assign_file cont addrs k n); try done.
    + by apply data_block_other.
    + intros l Hl. by eapply alloc_not_slot.
    + intros b Hb. apply data_block_other; [done|]. by eapply (alloc_data _ _ _ Hal).
  - intros l Hl Hc. rewrite Hsl by done. rewrite decide_False; [done|]. intros ->. by destruct Hc as [?|[? ?]].
  - intros o Ho. apply (assign_content cont addrs k n); try done.
    + intros _ o'. rewrite Hc2, (al_zero _ _ _ _ Hal) by done. done.
    + intros l Hl Hl0 Hne. destruct (fo_data _ _ Hf l Hl) as [?|Hb]; [done|]. rewrite Hc2; [by apply (alloc_data _ _ _ Hal)|].
      intros E. assert (l = -1) by (by apply (fo_inj _ _ Hf)). lia.
  - intros m Hm Hb Hi. assert (m <> ib) as Hmi by (destruct Hi as [->|Hi]; [done|by rewrite Hsl, decide_False, fslot_minus in Hi by (done || fsc; lia)]).
    rewrite Hc2 by done. eapply alloc_same; [done..|]. intros ->. pose proof (al_free _ _ _ _ Hal) as Hfr. rewrite Hm in Hfr by lia. done.
  - intros m Hm. unfold cont2. rewrite is_free_other by done. rewrite (al_bits _ _ _ _ Hal) by done. by intros [? _]%andb_true_iff.
  - unfold cont2. rewrite (nfree_ext cont1) by (intros; by rewrite is_free_other). destruct (nfree_alloc _ _ _ Hal). lia.
  - intros m [[?|[->| ->]]%add_blocks_in| ->]%add_block_in; [by left|right; left; exists n; split; [lia|done]|right; right..].
    + split; [lia|]. right. by rewrite Hsl, decide_True.
    + split; [done|]. left. by rewrite Hsl, decide_False, fslot_minus by (done || fsc; lia).
Qed.
End slots.

(** ** Steps of a transaction *)

(** What a step of a transaction leaves alone, besides what [in_txh] says of the cache and the log. *)
Record tx_step (f f' : fstate low) : Prop := {
  ts_file : fs_file f' = fs_file f;
  ts_pipe : fs_pipe f' = fs_pipe f;
  ts_lock i : fs_sleep f' (SLinode i) = fs_sleep f (SLinode i);
  ts_sb : l_sb (fs_low f') = l_sb (fs_low f);
  ts_size : l_disksize (fs_low f') = l_disksize (fs_low f);
  ts_start : lg_start (l_log (fs_low f')) = lg_start (l_log (fs_low f));
  ts_lsize : lg_size (l_log (fs_low f')) = lg_size (l_log (fs_low f));
  ts_disk : disk_same f f';
}.
#[global] Instance tx_step_preorder : PreOrder tx_step.
Proof. split; [by split|]. intros f1 f2 f3 [] []. split; try congruence. destruct ts_disk0, ts_disk1. split; congruence. Qed.

Lemma tx_step_log f f' : log_step f f' -> tx_step f f' /\ l_inode (fs_low f') = l_inode (fs_low f).
Proof. intros [[] ? ? ? ? ?]. simpl in *. by split. Qed.
Lemma tx_step_inode f i x : tx_step f (put_inode f i x).
Proof. by split. Qed.
Lemma tx_nblocks f f' : tx_step f f' -> nblocks f' = nblocks f.
Proof. intros []. unfold nblocks. congruence. Qed.
Lemma tx_in_log f f' m : tx_step f f' -> in_log (l_log (fs_low f')) m <-> in_log (l_log (fs_low f)) m.
Proof. intros []. unfold in_log. by rewrite ts_start0, ts_lsize0. Qed.
Lemma tx_bitmap f f' cont : tx_step f f' -> bitmap_ok f cont -> bitmap_ok f' cont.
Proof.
  intros S [B1 B2 B3]. pose proof (ts_sb _ _ S) as Es. pose proof (tx_nblocks _ _ S) as En. split; rewrite ?Es, ?En.
  - done.
  - intros n Hn. rewrite (tx_in_log _ _ _ S). by apply B2.
  - intros n Hn Hf. rewrite (tx_in_log _ _ _ S). by apply B3.
Qed.

Lemma in_txh_inode pid held f cont bl i x : in_txh pid held f cont bl -> in_txh pid held (put_inode f i x) cont bl.
Proof. intros [Hc Hl Ho]. split; [by eapply cache_ext|by destruct Hl|done]. Qed.

(** ** bmap *)

Section bmap.
Context (p : nat) (pid : Z) `{Symbols} `{DiskOk} `{DevSw} (f0 : fstate low).
Local Notation sb := (l_sb (fs_low f0)).
Local Notation lg := (l_log (fs_low f0)).
Local Notation extends := (extends f0).
Local Notation is_free := (is_free sb).

(** Allocation with at most one buffer held, which has a used block that is not of the bitmap. *)
Lemma runs_alloc held f cont bl (Q : Z -> fstate low -> Prop) : tx_step f0 f -> in_txh pid held f cont bl -> disk_ok f0 cont ->
  (length held <= 1)%nat -> (forall b, b ∈ held -> data_block f0 cont (b_blockno (bufs_of f b))) ->
  Z.of_nat (length bl) < lg_size lg - 2 -> (0 < nfree f0 cont)%nat ->
  (forall n cont' f', in_txh pid held f' cont' (add_block (add_block bl (BBLOCK n sb)) n) -> tx_step f f' ->
     l_inode (fs_low f') = l_inode (fs_low f) -> blocks_kept held f f' -> allocated sb cont n cont' -> Q n f') ->
  runs p pid (balloc 1) Q f.
Proof.
  intros S Ht Hd Hh Hb Hroom Hnf HQ. pose proof (ts_sb _ _ S) as Es. apply nfree_exists in Hnf as (n & Hn & Hfree).
  eapply (runs_balloc p pid held f cont bl); rewrite ?Es, ?(ts_lsize _ _ S); try done.
  - eapply tx_bitmap; [exact S|apply Hd].
  - intros m. rewrite Es. intros Hm. split.
    + intros b Hx E. apply (db_bitmap _ _ _ (Hb b Hx)). rewrite E. by exists m.
    + intros Hf b Hx E. pose proof (db_used _ _ _ (Hb b Hx)) as Hu. rewrite E in Hu. congruence.
  - by exists n.
  - intros n' cont' f' Ht' S' K' Ha. destruct (tx_step_log _ _ S') as [S'' Ei]. by eapply HQ.
Qed.

(** The part of [bmap] for an address in the inode. *)
Definition need_addr (ip : nat) (i : inode) (a : Z) : M W Z :=
  if i_addrs i a =? 0 then
    let* addr := balloc (i_dev i) in
    ino_upd ip (fun i => set_i_addrs (upd (i_addrs i) a addr) i) ;;;
    ret addr
  else ret (i_addrs i a).

Definition takes (b : Z) : nat := if b =? 0 then 1 else 0.

Lemma runs_need_addr f cont bl ip a k (Q : Z -> fstate low -> Prop) : let x := l_inode (fs_low f) ip in
  tx_step f0 f -> in_tx pid f cont bl -> i_dev x = 1 -> disk_ok f0 cont -> file_ok f0 cont (i_addrs x) -> 0 <= a <= NDIRECT ->
  0 <= k < MAXFILE -> addr_slot a = k \/ addr_slot a = -1 -> Z.of_nat (length bl) < lg_size lg - 2 -> (takes (i_addrs x a) <= nfree f0 cont)%nat ->
  (forall cont' addrs' bl' f', in_tx pid f' cont' bl' -> tx_step f f' ->
     l_inode (fs_low f') = upd (l_inode (fs_low f)) ip (set_i_addrs addrs' x) ->
     extends k (takes (i_addrs x a)) cont (i_addrs x) bl cont' addrs' bl' -> addrs' a <> 0 -> (length bl' <= length bl + 2)%nat ->
     (forall l, is_slot l -> l <> addr_slot a -> fslot cont' addrs' l = fslot cont (i_addrs x) l) -> Q (addrs' a) f') -> runs p pid (need_addr ip x a) Q f.
Proof.
  intros x S Ht Hdev Hd Hf Ha Hk Hor Hroom Hnf HQ. unfold need_addr, takes in *. destruct (i_addrs x a =? 0) eqn:E; bool_to_prop.
  - rewrite Hdev. eapply runs_bind, (runs_alloc [] f cont bl); [done..|simpl; lia|by intros ? ?%elem_of_nil|done|lia|].
    intros n cont' f1 Ht1 S1 Ei _ Hal. eapply runs_bind, runs_ino_upd, runs_ret.
    assert (i_addrs (set_i_addrs (upd (i_addrs x) a n) x) a = n) as En by (simpl; by rewrite upd_eq).
    pose proof (db_range _ _ _ (alloc_new f0 cont n cont' Hd Hal)) as Hn. rewrite <- En at 1.
    eapply (HQ cont' (upd (i_addrs x) a n)).
    + by apply in_txh_inode.
    + etransitivity; [exact S1|apply tx_step_inode].
    + simpl. rewrite Ei. done.
    + by apply extends_addr.
    + rewrite upd_eq. lia.
    + pose proof (add_block_length bl (BBLOCK n sb)). pose proof (add_block_length (add_block bl (BBLOCK n sb)) n). lia.
    + intros l Hl Hne. rewrite fslot_set_addr by (try done; try lia; intros o; by rewrite (al_zero _ _ _ _ Hal)).
      rewrite decide_False by done. by eapply alloc_slots.
  - apply runs_ret. eapply HQ; [done|done| |by apply extends_refl|done|lia|done]. rewrite upd_id; [done|]. fold x. by destruct x.
Qed.

(** The blocks that [bmap] takes for block [k]. *)
Definition needs (cont : Z -> block) (addrs : Z -> Z) (k : Z) : nat :=
  takes (fslot cont addrs k) + if k <? NDIRECT then 0 else takes (addrs NDIRECT).

Lemma bmap_unfold ip k f : bmap ip k f =
  (let* i := ino_get ip in
   if k <? NDIRECT then need_addr ip i k else
   let bn := k - NDIRECT in
   if bn <? NINDIRECT then
     let* addr := need_addr ip i NDIRECT in
     let* bp := bread (i_dev i) addr in
     let* x := buf_get bp in
     let a := load32 (b_data x) (4 * bn) in
     if a =? 0 then
       let* addr := balloc (i_dev i) in
       (buf_upd bp (fun x => set_b_data (store32 (b_data x) (4 * bn) addr) x) ;;;
        log_write bp ;;; brelse bp) ;;;
       ret addr
     else brelse bp ;;; ret a
   else panic "bmap: out of range") f.
Proof.
  unfold bmap. apply bind_ext. intros i s. destruct (k <? NDIRECT); [done|]. destruct (_ <? NINDIRECT); [|done].
  apply bind_ext. intros addr s1. apply bind_ext. intros bp s2. apply bind_ext. intros x s3. destruct (_ =? 0); [|done].
  apply bind_ext. intros a s4. symmetry. rewrite bind_assoc. apply bind_ext. intros u s5. by rewrite bind_assoc.
Qed.

(** The entry of the block of addresses. *)
Lemma runs_entry f cont bl ip k (Q : Z -> fstate low -> Prop) : let x := l_inode (fs_low f) ip in let ib := i_addrs x NDIRECT in
  tx_step f0 f -> in_tx pid f cont bl -> disk_ok f0 cont -> file_ok f0 cont (i_addrs x) -> ib <> 0 ->
  NDIRECT <= k < MAXFILE -> Z.of_nat (length bl) < lg_size lg - 3 -> (takes (fslot cont (i_addrs x) k) <= nfree f0 cont)%nat ->
  (forall cont' bl' f', in_tx pid f' cont' bl' -> tx_step f f' -> l_inode (fs_low f') = l_inode (fs_low f) ->
     extends k (takes (fslot cont (i_addrs x) k)) cont (i_addrs x) bl cont' (i_addrs x) bl' -> fslot cont' (i_addrs x) k <> 0 ->
     (length bl' <= length bl + 3)%nat -> Q (fslot cont' (i_addrs x) k) f') ->
  runs p pid (let* bp := bread 1 ib in
     let* x := buf_get bp in
     let a := load32 (b_data x) (4 * (k - NDIRECT)) in
     if a =? 0 then
       let* addr := balloc 1 in
       (buf_upd bp (fun x => set_b_data (store32 (b_data x) (4 * (k - NDIRECT)) addr) x) ;;; log_write bp ;;; brelse bp) ;;;
       ret addr
     else brelse bp ;;; ret a) Q f.
Proof.
  intros x ib S Ht Hd Hf Hib Hk Hroom Hnf HQ. pose proof (tx_nblocks _ _ S) as En. pose proof (bk_size _ _ (dk_bitmap _ _ Hd)) as Hsz.
  destruct (fo_data _ _ _ Hf (-1) minus_is_slot) as [?|Hibd]; [done|]. rewrite fslot_minus in Hibd. fold ib in Hibd.
  pose proof (db_range _ _ _ Hibd) as Hibr. pose proof (fslot_entry cont (i_addrs x) k ltac:(lia) Hib) as Es. fold ib in Es.
  assert (Z.of_nat (length bl) < lg_size (l_log (fs_low f)) - 1) as Hroom1 by (rewrite (ts_lsize _ _ S); lia).
  eapply runs_bind, (runs_txh_bread p pid [] f cont bl ib); [done|lia|apply not_held_nil|by eapply held_room; [done|simpl; lia|]|].
  intros b f1 G1 Ed. eapply runs_bind, runs_buf_get. fold (bufs_of f1). rewrite Ed. cbv zeta. rewrite <- Es.
  destruct (got_txh pid [] _ _ _ _ _ _ Ht G1) as (Ht1 & S1' & _). destruct (tx_step_log _ _ S1') as [S1 Ei1]. unfold takes in *.
  destruct (fslot cont (i_addrs x) k =? 0) eqn:E0; bool_to_prop.
  2: { eapply runs_bind, (runs_unreadh p pid [] f cont bl ib); [done|apply not_held_nil|done|]. intros f2 Ht2 S2 _.
       destruct (tx_step_log _ _ S2) as [S2' Ei2]. apply runs_ret. eapply HQ; [done|done|done|by apply extends_refl|done|lia]. }
  eapply runs_bind, (runs_alloc [b] f1 cont bl); [by etransitivity|exact Ht1|done|simpl; lia| |lia|lia|].
  { intros b' ->%list_elem_of_singleton. by rewrite (got_block G1). }
  intros n cont2 f2 Ht2 S2 Ei2 K2 Hal. pose proof (K2 b ltac:(by left)) as Eb. rewrite (got_block G1) in Eb.
  assert (tx_step f0 f2) as S02 by (etransitivity; [exact S|]; by etransitivity). assert (tx_step f f2) as Sf2 by by etransitivity.
  pose proof (add_block_length bl (BBLOCK n sb)). pose proof (add_block_length (add_block bl (BBLOCK n sb)) n).
  eapply runs_bind, (runs_store p pid [] f2 cont2 _ (fun d => store32 d (4 * (k - NDIRECT)) n) b _ Ht2); rewrite ?Eb.
  { rewrite (tx_in_log _ _ _ S02). apply Hibd. }
  { rewrite (ts_lsize _ _ S02). lia. }
  intros f3 Ht3 S3 _. destruct (tx_step_log _ _ S3) as [S3' Ei3]. apply runs_ret.
  pose proof (lo_geom _ _ _ (it_log _ _ _ _ _ Ht)) as Hgeom. rewrite En in Hgeom.
  pose proof (extends_entry f0 cont (i_addrs x) bl n cont2 k Hd Hf Hal Hk Hib E0 ltac:(lia)) as Hex. fold ib in Hex.
  set (cont3 := updated cont2 _) in *. change (upd cont2 ib _) with cont3 in Hex.
  assert (fslot cont3 (i_addrs x) k = n) as En3.
  { etransitivity; [apply (fslot_set_entry cont2 (i_addrs x) k n k Hk (data_is_slot k ltac:(fsc; lia)) Hib)|by rewrite decide_True].
    pose proof (al_range _ _ _ _ Hal). lia. }
  pose proof (add_block_length (add_block (add_block bl (BBLOCK n sb)) n) ib).
  rewrite <- En3 at 1. eapply HQ; [exact Ht3|by etransitivity|congruence|exact Hex| |lia]. rewrite En3.
  pose proof (db_range _ _ _ (alloc_new f0 _ _ _ Hd Hal)). lia.
Qed.

Lemma runs_bmap_tx f cont bl ip k (Q : Z -> fstate low -> Prop) : let x := l_inode (fs_low f) ip in
  tx_step f0 f -> in_tx pid f cont bl -> i_dev x = 1 -> disk_ok f0 cont -> file_ok f0 cont (i_addrs x) -> 0 <= k < MAXFILE ->
  Z.of_nat (length bl) < lg_size lg - 5 -> (needs cont (i_addrs x) k <= nfree f0 cont)%nat ->
  (forall cont' addrs' bl' f', in_tx pid f' cont' bl' -> tx_step f f' ->
     l_inode (fs_low f') = upd (l_inode (fs_low f)) ip (set_i_addrs addrs' x) ->
     extends k (needs cont (i_addrs x) k) cont (i_addrs x) bl cont' addrs' bl' -> fslot cont' addrs' k <> 0 ->
     (k < NDIRECT -> addrs' NDIRECT = i_addrs x NDIRECT) -> (length bl' <= length bl + 5)%nat ->
     Q (fslot cont' addrs' k) f') -> runs p pid (bmap ip k) Q f.
Proof.
  intros x S Ht Hdev Hd Hf Hk Hroom Hnf HQ. eapply runs_ext; [apply bmap_unfold|]. eapply runs_bind, runs_ino_get. fold x.
  unfold needs in *. destruct (k <? NDIRECT) eqn:Ek; bool_to_prop.
  - rewrite Nat.add_0_r in *. assert (addr_slot k = k) as Ea by (unfold addr_slot; by rewrite (proj2 (Z.eqb_neq k NDIRECT)) by lia).
    rewrite fslot_direct in * by lia. eapply (runs_need_addr f cont bl ip k k); try done; [lia|by left|lia|].
    intros cont' addrs' bl' f' Ht' S' Ei Hex Hne Hlen Hoth. rewrite <- (fslot_direct cont' addrs' k) by lia.
    eapply HQ; try done; [by rewrite fslot_direct by lia| |lia]. intros _. apply (Hoth (-1)); [apply minus_is_slot|lia].
  - rewrite (proj2 (Z.ltb_lt (k - NDIRECT) NINDIRECT)) by (fsc; lia).
    eapply runs_bind, (runs_need_addr f cont bl ip NDIRECT k); try done; try (by right); fold x; try lia.
    intros cont1 addrs1 bl1 f1 Ht1 S1 Ei1 Hex1 Hne Hlen1 Hoth1. rewrite Hdev.
    assert (l_inode (fs_low f1) ip = set_i_addrs addrs1 x) as Ex1 by (rewrite Ei1; apply upd_eq).
    assert (fslot cont1 addrs1 k = fslot cont (i_addrs x) k) as Ek1 by (apply Hoth1; [by apply data_is_slot|change (addr_slot NDIRECT) with (-1); lia]).
    assert (tx_step f0 f1) as S01 by by etransitivity. pose proof (ex_count _ _ _ _ _ _ _ _ _ Hex1) as Hc1.
    pose proof (runs_entry f1 cont1 bl1 ip k Q) as Hrun. rewrite Ex1 in Hrun. cbn [i_addrs set_i_addrs] in Hrun.
    apply Hrun; try done; try lia; [apply Hex1..|rewrite Ek1; lia|].
    intros cont2 bl2 f2 Ht2 S2 Ei2 Hex2 Hne2 Hlen2. eapply HQ; [exact Ht2|by etransitivity|by rewrite Ei2|rewrite Nat.add_comm|done|lia|lia].
    eapply extends_trans; [done|exact Hex1|]. by rewrite <- Ek1.
Qed.
End bmap.
