(* ===== verification/WriteSpec.v ===== *)
(** * What writei promises

    Writing to a file in a transaction: [writei] replaces exactly the bytes it was given,
    growing the file by blocks from the bitmap, and the blocks of other files stay. *)
From S2P Require Import Prelude Machine ProcQueue StringC Spinlock Kalloc Vm VmFrame Proc RunQueue ProcRun Sched UserMem Trap FsState Sleeplock Disk Bio Log Fs Dinode FsLogic BufList Cache LogSpec LogWrite BallocSpec PathSpec InodeSpec BmapSpec.

(** ** Writing to blocks of a file *)

Section wrote.
Context (f0 : fstate low).
Local Notation sb := (l_sb (fs_low f0)).
Local Notation disk_ok := (disk_ok f0).
Local Notation file_ok := (file_ok f0).
Local Notation is_free := (is_free sb).
Local Notation nfree := (nfree f0).
Local Notation on_bitmap := (on_bitmap f0).

(** Block [k] of a file holds bytes between [off] and [off + n]. *)
Definition touches (off n k : Z) : Prop := 0 <= k < MAXFILE /\ 0 < n /\ k * BSIZE < off + n /\ off < (k + 1) * BSIZE.

(** Writing the bytes does not give a block to slot [l]. *)
Definition untouched (off n l : Z) : Prop := if l =? -1 then forall k, touches off n k -> k < NDIRECT else ~ touches off n l.

Lemma untouched_sub off n off' n' l : (forall k, touches off n k -> touches off' n' k) -> untouched off' n' l -> untouched off n l.
Proof. intros Hsub. unfold untouched. destruct (l =? -1); auto. Qed.

(** The bytes [bs] have been written at [off]; the file took [c] blocks. *)
Record wrote (off : Z) (bs : list Z) (c : nat) (cont : Z -> block) (addrs : Z -> Z) (bl : list Z)
    (cont' : Z -> block) (addrs' : Z -> Z) (bl' : list Z) : Prop := {
  wr_disk : disk_ok cont';
  wr_file : file_ok cont' addrs';
  wr_slots l : is_slot l -> fslot cont addrs l <> 0 \/ untouched off (Z.of_nat (length bs)) l -> fslot cont' addrs' l = fslot cont addrs l;
  wr_has k : touches off (Z.of_nat (length bs)) k -> fslot cont' addrs' k <> 0;
  wr_content o : 0 <= o < MAXFILE * BSIZE -> content cont' addrs' o =
    if decide (off <= o < off + Z.of_nat (length bs)) then nth (Z.to_nat (o - off)) bs 0 else content cont addrs o;
  wr_same m : (0 <= m < sb_size sb -> is_free cont m = false) -> ~ on_bitmap m ->
    m = 0 \/ (forall l, is_slot l -> m <> fslot cont' addrs' l) -> cont' m = cont m;
  wr_free m : 0 <= m < sb_size sb -> is_free cont' m = true -> is_free cont m = true;
  wr_count : (nfree cont' + c)%nat = nfree cont;
  wr_bl m : m ∈ bl' -> m ∈ bl \/ on_bitmap m \/ m <> 0 /\ (m = fslot cont' addrs' (-1) \/
    exists k, touches off (Z.of_nat (length bs)) k /\ m = fslot cont' addrs' k);
}.

Lemma wrote_nil off cont addrs bl : disk_ok cont -> file_ok cont addrs -> wrote off [] 0 cont addrs bl cont addrs bl.
Proof.
  intros Hd Hf. split; try done; simpl.
  - intros k (_ & ? & _). lia.
  - intros o Ho. by rewrite decide_False by lia.
  - by left.
Qed.

Lemma wrote_trans off bs1 bs2 c1 c2 cont addrs bl cont1 addrs1 bl1 cont2 addrs2 bl2 :
  wrote off bs1 c1 cont addrs bl cont1 addrs1 bl1 -> wrote (off + Z.of_nat (length bs1)) bs2 c2 cont1 addrs1 bl1 cont2 addrs2 bl2 ->
  wrote off (bs1 ++ bs2) (c1 + c2) cont addrs bl cont2 addrs2 bl2.
Proof.
  intros [A1 A2 A3 A4 A5 A6 A7 A8 A9] [B1 B2 B3 B4 B5 B6 B7 B8 B9].
  assert (forall l, is_slot l -> fslot cont1 addrs1 l <> 0 -> fslot cont2 addrs2 l = fslot cont1 addrs1 l) as Hs by (intros; apply B3; auto).
  split; try done; rewrite ?length_app, ?Nat2Z.inj_add.
  - intros l Hl Hc. assert (fslot cont1 addrs1 l = fslot cont addrs l) as E1.
    { apply A3; [done|]. destruct Hc as [?|Hu]; [by left|right]. revert Hu. apply untouched_sub. unfold touches. intros. lia. }
    rewrite <- E1. apply B3; [done|]. rewrite E1. destruct Hc as [?|Hu]; [by left|right]. revert Hu. apply untouched_sub. unfold touches. intros. lia.
  - intros k (Hk & H0 & H1 & H2). destruct (decide (0 < Z.of_nat (length bs1) /\ k * BSIZE < off + Z.of_nat (length bs1))) as [Hlt|Hge].
    + assert (fslot cont1 addrs1 k <> 0) as Hne by (apply A4; unfold touches; lia). rewrite Hs by (done || by apply data_is_slot). done.
    + apply B4. unfold touches. fsc. lia.
  - intros o Ho. rewrite B5, A5 by done. repeat case_decide; try lia; try done.
    + rewrite app_nth2 by lia. f_equal. lia.
    + by rewrite app_nth1 by lia.
  - intros m Hm Hb Hi. rewrite B6; [apply A6| |..]; try done.
    + destruct Hi as [?|Hi]; [by left|]. destruct (decide (m = 0)) as [|Hm0]; [by left|right]. intros l Hl E.
      apply (Hi l Hl). rewrite Hs by congruence. done.
    + intros Hr. destruct (is_free cont1 m) eqn:E; [|done]. apply A7 in E; [|done]. by rewrite Hm in E.
  - intros m Hm Hf. by apply A7, B7.
  - lia.
  - intros m [Hm|[Hm|(Hm0 & Hm)]]%B9; [|by right; left|right; right].
    + destruct (A9 m Hm) as [?|[?|(Hm0 & Hc)]]; [by left|by right; left|right; right]. split; [done|].
      destruct Hc as [->|(k & (Hk & H0 & H1 & H2) & ->)]; [left; symmetry; by apply Hs; [apply minus_is_slot|]|right].
      exists k. split; [split_and!; lia|]. symmetry. by apply Hs; [apply data_is_slot|].
    + split; [done|]. destruct Hm as [?|(k & (Hk & H0 & H1 & H2) & ->)]; [by left|right]. exists k. split; [|done]. split_and!; lia.
Qed.

(** A file block is overwritten. *)
Lemma fslot_write cont addrs k d l : file_ok cont addrs -> 0 <= k < MAXFILE -> is_slot l -> fslot cont addrs k <> 0 ->
  fslot (upd cont (fslot cont addrs k) d) addrs l = fslot cont addrs l.
Proof.
  intros Hf Hk Hl H0. unfold fslot at 1. destruct (l =? -1) eqn:E1; [by apply Z.eqb_eq in E1; subst|].
  destruct (l <? NDIRECT) eqn:E2; [unfold fslot; by rewrite E1, E2|]. destruct (addrs NDIRECT =? 0) eqn:E3; [unfold fslot; by rewrite E1, E2, E3|].
  bool_to_prop. rewrite upd_ne.
  - unfold fslot. by rewrite (proj2 (Z.eqb_neq l (-1))), (proj2 (Z.ltb_ge l NDIRECT)), (proj2 (Z.eqb_neq (addrs NDIRECT) 0)) by lia.
  - intros E. assert (k = -1); [|lia]. apply (fo_inj _ _ _ Hf); [by apply data_is_slot|apply minus_is_slot|done|done].
Qed.

Lemma file_ok_write cont addrs k d : file_ok cont addrs -> 0 <= k < MAXFILE -> fslot cont addrs k <> 0 ->
  file_ok (upd cont (fslot cont addrs k) d) addrs.
Proof.
  intros Hf Hk H0. destruct (fo_data _ _ _ Hf k (data_is_slot k Hk)) as [?|Hd]; [done|]. split.
  - intros l Hl. rewrite fslot_write by done. destruct (fo_data _ _ _ Hf l Hl) as [?|?]; [by left|right].
    apply data_block_other; [apply Hd|done].
  - intros l m Hl Hm. rewrite !fslot_write by done. by apply Hf.
Qed.

(** bmap and a write within the block. *)
Lemma wrote_block off bs c cont addrs bl cont1 addrs1 bl1 : let k := off / BSIZE in let n := fslot cont1 addrs1 k in
  0 <= off < MAXFILE * BSIZE -> bs <> [] -> off mod BSIZE + Z.of_nat (length bs) <= BSIZE ->
  extends f0 k c cont addrs bl cont1 addrs1 bl1 -> n <> 0 -> (k < NDIRECT -> addrs1 NDIRECT = addrs NDIRECT) ->
  wrote off bs c cont addrs bl (upd cont1 n (blit (cont1 n) (off mod BSIZE) bs)) addrs1 (add_block bl1 n).
Proof.
  intros k n Hoff Hbs Hlen [E1 E2 E3 E4 E5 E6 E7 E8] Hn Hdir. set (cont2 := upd cont1 n _).
  assert (0 <= k < MAXFILE) as Hk by (subst k; fsc; Z.div_mod_to_equations; lia). pose proof (data_is_slot k Hk) as Hks.
  destruct (fo_data _ _ _ E2 k Hks) as [?|Hd]; [done|]. fold n in Hd. pose proof (db_bitmap _ _ _ Hd) as Hnb.
  assert (forall l, is_slot l -> fslot cont2 addrs1 l = fslot cont1 addrs1 l) as Hs by (intros l Hl; by apply fslot_write).
  assert (0 < Z.of_nat (length bs)) as Hpos by (destruct bs; [done|simpl; lia]).
  assert (forall j, touches off (Z.of_nat (length bs)) j <-> j = k) as Htouch.
  { intros j. unfold touches. subst k. split; [intros (H1 & H2 & H3 & H4)|intros ->]; fsc; Z.div_mod_to_equations; lia. }
  split.
  - by apply disk_ok_other.
  - by apply file_ok_write.
  - intros l Hl Hc. rewrite Hs by done. destruct Hc as [?|Hu]; [by apply E3; [|left]|]. unfold untouched in Hu. destruct (l =? -1) eqn:El; bool_to_prop.
    + subst l. rewrite !fslot_minus. apply Hdir. by apply Hu, Htouch.
    + apply E3; [done|]. right. split; [|done]. intros ->. by apply Hu, Htouch.
  - intros j ->%Htouch. by rewrite Hs.
  - intros o Ho. rewrite <- E4 by done. unfold content. assert (0 <= o / BSIZE < MAXFILE) as Hj by (fsc; Z.div_mod_to_equations; lia).
    rewrite Hs by (by apply data_is_slot). destruct (decide (o / BSIZE = k)) as [Ek|Ek].
    + rewrite Ek. fold n. rewrite (proj2 (Z.eqb_neq n 0)) by done. unfold cont2. rewrite upd_eq. unfold blit. subst k.
      destruct (decide (off <= o < _)) as [Hin|Hout].
      * rewrite decide_True by (fsc; Z.div_mod_to_equations; lia). f_equal. fsc. Z.div_mod_to_equations. lia.
      * rewrite decide_False by (fsc; Z.div_mod_to_equations; lia). done.
    + rewrite decide_False by (subst k; fsc; Z.div_mod_to_equations; lia). destruct (_ =? 0) eqn:E0; [done|]. bool_to_prop.
      unfold cont2. rewrite upd_ne; [done|]. intros E. apply Ek. symmetry. apply (fo_inj _ _ _ E2); auto using data_is_slot.
  - intros m Hm Hb Hi. assert (m <> n) as Hmn.
    { pose proof (db_range _ _ _ Hd). destruct Hi as [->|Hi]; [lia|]. intros ->. apply (Hi k Hks). by rewrite Hs. }
    unfold cont2. rewrite upd_ne by done. apply E5; [done|done|]. destruct Hi as [?|Hi]; [by left|right]. intros ->.
    apply (Hi (-1) minus_is_slot). by rewrite Hs by apply minus_is_slot.
  - intros m Hm. unfold cont2. rewrite is_free_other by done. by apply E6.
  - unfold cont2. rewrite (nfree_ext f0 cont1) by (intros; by rewrite is_free_other). done.
  - pose proof minus_is_slot. intros m [Hm| ->]%add_block_in.
    + destruct (E8 m Hm) as [?|[?|(Hm0 & Hc)]]; [by left|by right; left|right; right]. split; [done|]. rewrite Hs by done.
      destruct Hc as [?|?]; [by left|right]. exists k. split; [by apply Htouch|]. by rewrite Hs.
    + right; right. split; [done|]. right. exists k. split; [by apply Htouch|]. by rewrite Hs.
Qed.
End wrote.

(** ** Counting blocks *)

(** The number of file blocks that [n] bytes at [off] touch. *)
Definition nblk (off n : Z) : Z := if n =? 0 then 0 else (off mod BSIZE + n + BSIZE - 1) / BSIZE.

Lemma nblk_mono off m n : 0 <= off -> 0 <= m <= n -> nblk off m <= nblk off n.
Proof. intros Ho Hm. unfold nblk. destruct (m =? 0) eqn:E1, (n =? 0) eqn:E2; bool_to_prop; fsc; Z.div_mod_to_equations; lia. Qed.
Lemma nblk_turn off n : 0 <= off -> 0 < n -> let m := Z.min n (BSIZE - off mod BSIZE) in nblk (off + m) (n - m) = nblk off n - 1.
Proof. intros Ho Hn m. unfold nblk. destruct (n - m =? 0) eqn:E1, (n =? 0) eqn:E2; bool_to_prop; subst m; fsc; Z.div_mod_to_equations; lia. Qed.

Lemma touches_nblk off n k : 0 <= off -> touches off n k -> k ∈ seqZ (off / BSIZE) (nblk off n).
Proof.
  intros Ho (Hk & H0 & H1 & H2). rewrite elem_of_seqZ. unfold nblk. rewrite (proj2 (Z.eqb_neq n 0)) by lia. fsc. Z.div_mod_to_equations. lia.
Qed.

(** One block of the bitmap covers the disk. *)
Lemma on_bitmap_one f m : sb_size (l_sb (fs_low f)) <= BPB -> on_bitmap f m -> m = BBLOCK 0 (l_sb (fs_low f)).
Proof.
  intros Hs (n & Hn & <-). unfold BBLOCK. by rewrite (Z.div_small n), (Z.div_small 0) by (unfold BPB, BSIZE in *; lia).
Qed.

Lemma wrote_length f0 off bs c cont addrs bl cont' addrs' bl' : sb_size (l_sb (fs_low f0)) <= BPB -> 0 <= off -> NoDup bl' ->
  wrote f0 off bs c cont addrs bl cont' addrs' bl' -> Z.of_nat (length bl') <= Z.of_nat (length bl) + 2 + nblk off (Z.of_nat (length bs)).
Proof.
  intros Hsb Ho Hnd Hw. set (N := nblk off (Z.of_nat (length bs))).
  assert (0 <= N) as HN by (unfold N, nblk; destruct (_ =? 0); fsc; Z.div_mod_to_equations; lia).
  set (l := bl ++ [BBLOCK 0 (l_sb (fs_low f0)); fslot cont' addrs' (-1)] ++ (fslot cont' addrs' <$> seqZ (off / BSIZE) N)).
  assert (length bl' <= length l)%nat as Hlen.
  { apply submseteq_length, NoDup_submseteq; [done|]. intros m Hm. unfold l. rewrite !elem_of_app, !elem_of_cons.
    destruct (wr_bl _ _ _ _ _ _ _ _ _ _ Hw m Hm) as [?|[Hb|(_ & [->|(k & Hk & ->)])]]; [by left| |by auto|].
    - right; left; left. by apply on_bitmap_one.
    - right; right. apply list_elem_of_fmap. exists k. split; [done|]. by apply touches_nblk. }
  unfold l in Hlen. rewrite !length_app, length_fmap, length_seqZ in Hlen. simpl in Hlen. lia.
Qed.

(** ** The loop *)

Section writei.
Context (p : nat) (pid : Z) `{Symbols} `{DiskOk} `{DevSw} (f0 : fstate low).
Local Notation sb := (l_sb (fs_low f0)).
Local Notation lg := (l_log (fs_low f0)).
Hypothesis Hsb : sb_size sb <= BPB.

Lemma nblocks_small f cont bl held : in_txh pid held f cont bl -> nblocks f < 2 ^ 31.
Proof. intros [_ Hl _]. apply Hl. Qed.

(** One turn: a part of the bytes goes into one block. *)
Lemma runs_turn f cont bl ip off bs rest (Q : unit -> fstate low -> Prop) : let x := l_inode (fs_low f) ip in let k := off / BSIZE in
  let m := Z.of_nat (length bs) in
  tx_step f0 f -> in_tx pid f cont bl -> i_dev x = 1 -> disk_ok f0 cont -> file_ok f0 cont (i_addrs x) -> 0 <= off < MAXFILE * BSIZE ->
  bs <> [] -> off mod BSIZE + m <= BSIZE -> Z.of_nat (length bl) < lg_size lg - 6 -> (needs cont (i_addrs x) k <= nfree f0 cont)%nat ->
  (forall cont' addrs' bl' f', in_tx pid f' cont' bl' -> tx_step f f' ->
     l_inode (fs_low f') = upd (l_inode (fs_low f)) ip (set_i_addrs addrs' x) ->
     wrote f0 off bs (needs cont (i_addrs x) k) cont (i_addrs x) bl cont' addrs' bl' ->
     (k < NDIRECT -> addrs' NDIRECT = i_addrs x NDIRECT) -> (NDIRECT <= k -> addrs' NDIRECT <> 0) -> Q tt f') ->
  runs p pid (let* addr := bmap ip k in
    let* bp := bread 1 addr in
    let* r := fetch_local (bs ++ rest) m in
    buf_upd bp (fun x => set_b_data (blit (b_data x) (off mod BSIZE) r.1) x) ;;; log_write bp ;;; brelse bp) Q f.
Proof.
  intros x k m S Ht Hdev Hd Hf Hoff Hbs Hm Hroom Hnf HQ. assert (0 <= k < MAXFILE) as Hk by (subst k; fsc; Z.div_mod_to_equations; lia).
  eapply runs_bind, (runs_bmap_tx p pid f0 f cont bl ip k); try done; [lia|]. fold x.
  intros cont1 addrs1 bl1 f1 Ht1 S1 Ei1 Hex Hne Hind Hlen. set (n := fslot cont1 addrs1 k) in *.
  assert (tx_step f0 f1) as S01 by by etransitivity.
  destruct (fo_data _ _ _ (ex_file _ _ _ _ _ _ _ _ _ Hex) k (data_is_slot k Hk)) as [?|Hdb]; [done|]. fold n in Hdb.
  pose proof (db_range _ _ _ Hdb) as Hnr. pose proof (bk_size _ _ (dk_bitmap _ _ Hd)) as Hsz.
  assert (Z.of_nat (length bl1) < lg_size (l_log (fs_low f1)) - 1) as Hroom1 by (rewrite (ts_lsize _ _ S01); lia).
  eapply runs_bind, (runs_txh_bread p pid [] f1 cont1 bl1 n); [done|rewrite (tx_nblocks _ _ S01); lia|apply not_held_nil|by eapply held_room; [done|simpl; lia|]|].
  intros b f2 G2 _. unfold fetch_local. eapply runs_bind, runs_ret. cbn [fst].
  rewrite (take_app_length' bs rest) by (unfold m; lia).
  eapply (runs_changeh p pid [] f1 cont1 bl1 n (fun d => blit d (off mod BSIZE) bs)); [done| |done|done|].
  { rewrite (tx_in_log _ _ _ S01). apply Hdb. }
  intros f3 Ht3 S3 _. destruct (tx_step_log _ _ S3) as [S3' Ei3]. eapply HQ; [exact Ht3|by etransitivity|rewrite Ei3; exact Ei1| |done|].
  - by apply wrote_block.
  - intros Hge. by apply (fslot_block cont1 addrs1 k Hk Hne).
Qed.

Lemma writei_loop_turn fuel src ip off n tot w : tot < n -> let m := Z.min (n - tot) (BSIZE - off mod BSIZE) in
  writei_loop (S fuel) fetch_local src ip off n tot w =
  (let* i := ino_get ip in
   (let* addr := bmap ip (off / BSIZE) in
    let* bp := bread (i_dev i) addr in
    let* r := fetch_local src m in
    buf_upd bp (fun x => set_b_data (blit (b_data x) (off mod BSIZE) r.1) x) ;;; log_write bp ;;; brelse bp) ;;;
   writei_loop fuel fetch_local (drop (Z.to_nat m) src) ip (off + m) n (tot + m)) w.
Proof.
  intros Hlt m. cbn [writei_loop]. rewrite (proj2 (Z.ltb_lt tot n)) by done. apply bind_ext. intros i s1. symmetry. rewrite bind_assoc.
  apply bind_ext. intros addr s2. rewrite bind_assoc. apply bind_ext. intros bp s3. fold m. set (K := writei_loop fuel fetch_local).
  unfold fetch_local. rewrite bind_assoc, !bind_ret_l. cbn [fst snd]. rewrite bind_assoc. apply bind_ext. intros u s5. by rewrite bind_assoc.
Qed.

(** The loop, which has written [old] and still has [src] to write. *)
Section loop.
Context (ip : nat) (x0 : inode) (I0 : nat -> inode) (cont0 : Z -> block) (bl0 : list Z) (off0 : Z) (bs : list Z).
Local Notation n := (Z.of_nat (length bs)).
Hypothesis Hdev : i_dev x0 = 1.
Hypothesis Hoff : 0 <= off0.
Hypothesis Hmax : off0 + n <= MAXFILE * BSIZE.
Hypothesis Hroom : Z.of_nat (length bl0) + 2 + nblk off0 n < lg_size lg - 6.

Lemma runs_writei_loop fuel : forall f cont addrs bl old src c (Q : Z * list Z -> fstate low -> Prop),
  let tot := Z.of_nat (length old) in let off := off0 + tot in
  bs = old ++ src -> l_inode (fs_low f) = upd I0 ip (set_i_addrs addrs x0) -> tx_step f0 f -> in_tx pid f cont bl ->
  wrote f0 off0 old c cont0 (i_addrs x0) bl0 cont addrs bl ->
  (0 < fuel)%nat -> (tot < n -> off mod BSIZE + (n - tot) <= (Z.of_nat fuel - 1) * BSIZE) ->
  nblk off (n - tot) + Z.of_nat (takes (addrs NDIRECT)) <= Z.of_nat (nfree f0 cont) ->
  (forall c' cont' addrs' bl' f', in_tx pid f' cont' bl' -> tx_step f f' -> l_inode (fs_low f') = upd I0 ip (set_i_addrs addrs' x0) ->
     wrote f0 off0 bs c' cont0 (i_addrs x0) bl0 cont' addrs' bl' -> Q (off0 + n, []) f') ->
  runs p pid (writei_loop fuel fetch_local src ip off n tot) Q f.
Proof.
  induction fuel as [|fuel IH]; intros f cont addrs bl old src c Q tot off Hbs Ei S Ht Hw Hpos Hfuel Hnf HQ; [lia|].
  assert (n = tot + Z.of_nat (length src)) as Hn by (rewrite Hbs, length_app; unfold tot; lia).
  destruct (decide (tot < n)) as [Hlt|Hge].
  2: { cbn [writei_loop]. rewrite (proj2 (Z.ltb_ge tot n)) by lia. apply runs_ret. assert (src = []) as -> by (destruct src; [done|simpl in *; lia]).
       rewrite app_nil_r in Hbs. rewrite <- Hbs in Hw. unfold off. replace tot with n by lia. by eapply HQ. }
  eapply runs_ext; [intros w; by apply writei_loop_turn|]. set (m := Z.min _ _).
  eapply runs_bind, runs_ino_get. rewrite Ei, upd_eq. cbn [i_dev set_i_addrs]. rewrite Hdev.
  set (x := set_i_addrs addrs x0) in *. assert (l_inode (fs_low f) ip = x) as Ex by (rewrite Ei; apply upd_eq).
  assert (0 < m <= n - tot /\ off mod BSIZE + m <= BSIZE) as [Hm Hmb] by (subst m; unfold BSIZE in *; Z.div_mod_to_equations; lia).
  set (b1 := take (Z.to_nat m) src). set (b2 := drop (Z.to_nat m) src). assert (src = b1 ++ b2) as Es by (symmetry; apply take_drop).
  assert (Z.of_nat (length b1) = m) as Hb1 by (unfold b1; rewrite length_take; lia).
  pose proof (wrote_length f0 _ _ _ _ _ _ _ _ _ Hsb Hoff (lo_nodup _ _ _ (it_log _ _ _ _ _ Ht)) Hw) as Hlen. fold tot in Hlen.
  pose proof (nblk_mono off0 tot n Hoff ltac:(lia)) as Hmono. pose proof (nblk_turn off (n - tot) ltac:(lia) ltac:(lia)) as Hturn. cbv zeta in Hturn. fold m in Hturn.
  assert (0 <= nblk (off + m) (n - tot - m)) as Hpn by (unfold nblk; destruct (_ =? 0); fsc; Z.div_mod_to_equations; lia).
  pose proof (runs_turn f cont bl ip off b1 b2) as Hrun. cbv zeta in Hrun. rewrite Ex, Hb1, <- Es in Hrun. cbn [i_addrs x set_i_addrs] in Hrun.
  assert (Z.of_nat (needs cont addrs (off / BSIZE)) <= 1 + if off / BSIZE <? NDIRECT then 0 else Z.of_nat (takes (addrs NDIRECT))) as Hneed.
  { unfold needs. assert (takes (fslot cont addrs (off / BSIZE)) <= 1)%nat by (unfold takes; destruct (_ =? 0); lia). destruct (_ <? NDIRECT); lia. }
  eapply runs_bind, Hrun; try done; try apply Hw; try lia.
  { intros E. rewrite E in Hb1. simpl in Hb1. lia. }
  { revert Hneed. destruct (_ <? NDIRECT); lia. }
  intros cont1 addrs1 bl1 f1 Ht1 S1 Ei1 Hw1 Hd1 Hi1. unfold off in Hw1. pose proof (wrote_trans _ _ _ _ _ _ _ _ _ _ _ _ _ _ _ Hw Hw1) as Hw2.
  fold off. pose proof (IH f1 cont1 addrs1 bl1 (old ++ b1) b2) as IH1. cbv zeta in IH1.
  rewrite length_app, Nat2Z.inj_add, Hb1 in IH1. fold tot in IH1. replace (off0 + (tot + m)) with (off + m) in IH1 by (unfold off; lia).
  eapply IH1; try done.
  - by rewrite <- app_assoc, <- Es.
  - rewrite Ei1, Ei. by rewrite upd_upd.
  - by etransitivity.
  - specialize (Hfuel Hlt). pose proof (Z.mod_pos_bound off BSIZE ltac:(fsc; lia)). unfold BSIZE in *. lia.
  - intros Hlt2. specialize (Hfuel Hlt). unfold m in *. unfold BSIZE in *. Z.div_mod_to_equations. lia.
  - pose proof (wr_count _ _ _ _ _ _ _ _ _ _ Hw1) as Hc. fold off in Hc. replace (n - (tot + m)) with (n - tot - m) by lia.
    revert Hneed. destruct (off / BSIZE <? NDIRECT) eqn:Ek; intros Hneed; bool_to_prop.
    + rewrite Hd1 by done. lia.
    + unfold takes at 1. rewrite (proj2 (Z.eqb_neq (addrs1 NDIRECT) 0)) by (apply Hi1; lia). lia.
  - intros c' cont' addrs' bl' f' Ht' S' Ei' Hw'. eapply HQ; [exact Ht'|by etransitivity|exact Ei'|exact Hw'].
Qed.
End loop.

(** ** The inode on the disk *)

Definition dinode_of (x : inode) : dinode := mkDinode (i_type x) (i_major x) (i_minor x) (i_nlink x) (i_size x) (i_addrs x).

Lemma runs_iupdate f cont bl ip (Q : unit -> fstate low -> Prop) : let x := l_inode (fs_low f) ip in let b := IBLOCK (i_inum x) (l_sb (fs_low f)) in
  in_tx pid f cont bl -> i_dev x = 1 -> 0 <= b < nblocks f -> ~ in_log (l_log (fs_low f)) b ->
  Z.of_nat (length bl) < lg_size (l_log (fs_low f)) - 1 ->
  (forall f', in_tx pid f' (updated cont (b, fun d => store_dinode d (64 * (i_inum x mod IPB)) (dinode_of x))) (add_block bl b) -> log_step f f' -> Q tt f') ->
  runs p pid (iupdate ip) Q f.
Proof.
  intros x b Ht Hdev Hb Hlog Hr HQ. unfold iupdate. eapply runs_bind, runs_ino_get. fold x. eapply runs_bind, runs_sb_get. fold b. rewrite Hdev.
  eapply runs_bind, (runs_txh_bread p pid [] f cont bl b); [done|done|apply not_held_nil|by eapply held_room; [done|simpl; lia|]|].
  intros bp f1 G1 _. destruct (got_txh pid [] _ _ _ _ _ _ Ht G1) as (_ & S1 & _). destruct (tx_step_log _ _ S1) as [_ Ei1].
  eapply runs_bind, runs_ino_get. rewrite Ei1. fold x.
  eapply (runs_changeh p pid [] f cont bl b (fun d => store_dinode d (64 * (i_inum x mod IPB)) (dinode_of x))); [done..|]. auto.
Qed.
End writei.

(** Changing the block of an inode leaves the blocks of files alone. *)
Section inode_block.
Context (f0 : fstate low) (cont : Z -> block) (addrs : Z -> Z) (i : Z) (d : block).
Local Notation b := (IBLOCK i (l_sb (fs_low f0))).
Hypothesis Hi : is_inum f0 i.
Hypothesis Hb : ~ on_bitmap f0 b.
Hypothesis Hf : file_ok f0 cont addrs.

Lemma own_not_inode l : is_slot l -> fslot cont addrs l <> 0 -> fslot cont addrs l <> b.
Proof. intros Hl H0. destruct (fo_data _ _ _ Hf l Hl) as [?|Hd]; [done|]. intros E. by apply (db_inode _ _ _ Hd i). Qed.
Lemma inode_slots l : is_slot l -> fslot (upd cont b d) addrs l = fslot cont addrs l.
Proof.
  intros Hl. unfold fslot. destruct (l =? -1); [done|]. destruct (l <? NDIRECT); [done|]. destruct (addrs NDIRECT =? 0) eqn:E; [done|]. bool_to_prop.
  rewrite upd_ne; [done|]. intros Eb. by apply (own_not_inode (-1) minus_is_slot).
Qed.
Lemma inode_file : file_ok f0 (upd cont b d) addrs.
Proof.
  split.
  - intros l Hl. rewrite inode_slots by done. destruct (fo_data _ _ _ Hf l Hl) as [?|?]; [by left|right]. by apply data_block_other.
  - intros l m Hl Hm. rewrite !inode_slots by done. by apply Hf.
Qed.
Lemma inode_content o : 0 <= o < MAXFILE * BSIZE -> content (upd cont b d) addrs o = content cont addrs o.
Proof.
  intros Ho. assert (is_slot (o / BSIZE)) as Hs by (unfold is_slot; fsc; Z.div_mod_to_equations; lia).
  unfold content. rewrite inode_slots by done. destruct (_ =? 0) eqn:E; [done|]. bool_to_prop. rewrite upd_ne; [done|].
  intros Eb. by apply (own_not_inode (o / BSIZE) Hs).
Qed.
End inode_block.

(** ** The bytes of the file *)

Lemma content_byte cont addrs o : 0 <= o < MAXFILE * BSIZE -> fslot cont addrs (o / BSIZE) <> 0 -> file_byte cont addrs o = u8 (content cont addrs o).
Proof.
  intros Ho H0. assert (0 <= o / BSIZE < MAXFILE) as Hk by (fsc; Z.div_mod_to_equations; lia).
  unfold file_byte, content. by rewrite (proj1 (fslot_block _ _ _ Hk H0)), (proj2 (Z.eqb_neq _ _) H0).
Qed.

Lemma file_bytes_ext cont addrs cont' addrs' off n : (forall o, off <= o < off + n -> file_byte cont addrs o = file_byte cont' addrs' o) ->
  file_bytes cont addrs off n = file_bytes cont' addrs' off n.
Proof. intros He. unfold file_bytes. apply list_fmap_ext. intros i o Ho%list_elem_of_lookup_2%elem_of_seqZ. apply He. lia. Qed.

Lemma drop_file_bytes cont addrs m n : 0 <= m -> drop (Z.to_nat m) (file_bytes cont addrs 0 n) = file_bytes cont addrs m (n - m).
Proof.
  intros Hm. destruct (decide (m <= n)).
  - replace n with (m + (n - m)) at 1 by lia. rewrite file_bytes_app by lia. apply drop_app_length'. by rewrite length_file_bytes.
  - unfold file_bytes. rewrite (seqZ_nil m) by lia. apply drop_ge. rewrite length_fmap, length_seqZ. lia.
Qed.

(** All blocks of the file exist. *)
Definition filled (cont : Z -> block) (x : inode) : Prop := forall k, 0 <= k -> k * BSIZE < i_size x -> fslot cont (i_addrs x) k <> 0.

(** The file of inode [x] is intact: its inode is on the disk, and its blocks exist and are its own. *)
Record file_inv (f : fstate low) (cont : Z -> block) (x : inode) : Prop := {
  fi_dev : i_dev x = 1;
  fi_type : i_type x <> T_DEV;
  fi_inum : is_inum f (i_inum x);
  fi_words : - 2 ^ 15 <= i_type x < 2 ^ 15 /\ - 2 ^ 15 <= i_major x < 2 ^ 15 /\ - 2 ^ 15 <= i_minor x < 2 ^ 15 /\ - 2 ^ 15 <= i_nlink x < 2 ^ 15;
  fi_size : 0 <= i_size x <= MAXFILE * BSIZE;
  fi_file : file_ok f cont (i_addrs x);
  fi_filled : filled cont x;
  fi_disk : deq (disk_inode f cont (i_inum x)) (dinode_of x);
}.

(** What writing [bs] at [off] does to the file and to the rest of the disk. *)
Record written (f : fstate low) (x : inode) (off : Z) (bs : list Z) (cont cont' : Z -> block) (x' : inode) : Prop := {
  wn_inode : x' = set_i_size (Z.max (i_size x) (off + Z.of_nat (length bs))) (set_i_addrs (i_addrs x') x);
  wn_bytes : let old := file_bytes cont (i_addrs x) 0 (i_size x) in
    file_bytes cont' (i_addrs x') 0 (i_size x') = take (Z.to_nat off) old ++ bs ++ drop (Z.to_nat (off + Z.of_nat (length bs))) old;
  wn_same m : (0 <= m < sb_size (l_sb (fs_low f)) -> is_free (l_sb (fs_low f)) cont m = false) -> ~ on_bitmap f m ->
    (forall l, is_slot l -> fslot cont' (i_addrs x') l <> 0 -> m <> fslot cont' (i_addrs x') l) -> m <> IBLOCK (i_inum x) (l_sb (fs_low f)) ->
    cont' m = cont m;
  wn_inodes i : is_inum f i -> i <> i_inum x -> deq (disk_inode f cont' i) (disk_inode f cont i);
}.

Lemma inode_not_free f cont i : disk_ok f cont -> is_inum f i -> let b := IBLOCK i (l_sb (fs_low f)) in
  0 <= b < sb_size (l_sb (fs_low f)) -> is_free (l_sb (fs_low f)) cont b = false.
Proof. intros Hd Hi b Hb. destruct (is_free _ cont b) eqn:E; [|done]. by destruct (dk_free _ _ Hd b Hb E) as [_ ?%(fun H => H i Hi)]. Qed.

(** The blocks of two inodes are the same only for inodes with different places in the block. *)
Lemma inode_spots f i j : sb_ninodes (l_sb (fs_low f)) <= 2 ^ 32 -> is_inum f i -> is_inum f j -> i <> j ->
  IBLOCK i (l_sb (fs_low f)) = IBLOCK j (l_sb (fs_low f)) -> i mod IPB <> j mod IPB.
Proof.
  unfold is_inum, IBLOCK, u32. change IPB with 8. set (s := sb_inodestart _). intros Hn Hi Hj Hne E Em. Z.div_mod_to_equations. lia.
Qed.

Section written.
Context (f : fstate low) (x : inode) (off : Z) (bs : list Z) (c : nat) (cont : Z -> block) (bl : list Z).
Context (cont1 : Z -> block) (addrs1 : Z -> Z) (bl1 : list Z) (cont2 : Z -> block).
Local Notation sb := (l_sb (fs_low f)).
Local Notation n := (Z.of_nat (length bs)).
Local Notation size2 := (Z.max (i_size x) (off + n)).
Local Notation x2 := (set_i_size size2 (set_i_addrs addrs1 x)).
Hypothesis Hw : wrote f off bs c cont (i_addrs x) bl cont1 addrs1 bl1.
Hypothesis Hx : file_inv f cont x.
Hypothesis Hd : disk_ok f cont.
Hypothesis Hoff : 0 <= off <= i_size x.
Hypothesis Hmax : off + n <= MAXFILE * BSIZE.
Hypothesis Hbytes : Forall (fun b => 0 <= b < 256) bs.
Hypothesis Hslots : forall l, is_slot l -> fslot cont2 addrs1 l = fslot cont1 addrs1 l.
Hypothesis Hcont : forall o, 0 <= o < MAXFILE * BSIZE -> content cont2 addrs1 o = content cont1 addrs1 o.

Lemma written_filled : filled cont2 x2.
Proof.
  intros k Hk. cbn [i_size i_addrs set_i_size set_i_addrs]. intros Hlt. assert (0 <= k < MAXFILE) as Hr by (pose proof (fi_size _ _ _ Hx); fsc; lia).
  rewrite Hslots by (by apply data_is_slot). destruct (decide (k * BSIZE < i_size x)) as [Hin|Hout].
  - pose proof (fi_filled _ _ _ Hx k Hk Hin) as H0. rewrite (wr_slots _ _ _ _ _ _ _ _ _ _ Hw) by (auto using data_is_slot). done.
  - apply (wr_has _ _ _ _ _ _ _ _ _ _ Hw). split_and!; try done; fsc; lia.
Qed.

Lemma written_byte o : 0 <= o < size2 -> file_byte cont2 addrs1 o =
  if decide (off <= o < off + n) then nth (Z.to_nat (o - off)) bs 0 else file_byte cont (i_addrs x) o.
Proof.
  intros Ho. pose proof (fi_size _ _ _ Hx) as Hs. rewrite content_byte; [|lia|].
  2: { apply written_filled; cbn [i_size set_i_size]; fsc; Z.div_mod_to_equations; lia. }
  rewrite Hcont, (wr_content _ _ _ _ _ _ _ _ _ _ Hw) by lia. case_decide as Hin.
  - unfold u8. apply Z.mod_small. rewrite Forall_forall in Hbytes. apply Hbytes, list_elem_of_In, nth_In. lia.
  - symmetry. apply content_byte; [lia|]. apply (fi_filled _ _ _ Hx); fsc; Z.div_mod_to_equations; lia.
Qed.

Lemma written_bytes : let old := file_bytes cont (i_addrs x) 0 (i_size x) in
  file_bytes cont2 addrs1 0 size2 = take (Z.to_nat off) old ++ bs ++ drop (Z.to_nat (off + n)) old.
Proof.
  intros old. unfold old. rewrite take_file_bytes, drop_file_bytes by lia.
  replace size2 with (off + (n + (size2 - (off + n)))) at 1 by lia. rewrite !file_bytes_app, Z.add_0_l by lia. f_equal; [|f_equal].
  - apply file_bytes_ext. intros o Ho. rewrite written_byte, decide_False by lia. done.
  - unfold file_bytes. apply list_eq. intros i. rewrite list_lookup_fmap. destruct (decide (Z.of_nat i < n)) as [Hi|Hi].
    + rewrite lookup_seqZ_lt by lia. cbn. rewrite written_byte, decide_True by lia. replace (off + Z.of_nat i - off) with (Z.of_nat i) by lia. rewrite Nat2Z.id.
      destruct (lookup_lt_is_Some_2 bs i ltac:(lia)) as [b Eb]. by rewrite (nth_lookup_Some bs i 0 b Eb), Eb.
    + rewrite lookup_seqZ_ge, lookup_ge_None_2 by lia. done.
  - destruct (decide (off + n <= i_size x)).
    + replace (size2 - (off + n)) with (i_size x - (off + n)) by lia. apply file_bytes_ext. intros o Ho. rewrite written_byte, decide_False by lia. done.
    + unfold file_bytes. by rewrite !seqZ_nil by lia.
Qed.

Lemma written_inode_block i : is_inum f i -> cont1 (IBLOCK i sb) = cont (IBLOCK i sb).
Proof.
  intros Hi. apply (wr_same _ _ _ _ _ _ _ _ _ _ Hw); [by apply inode_not_free|by apply (dk_inode _ _ Hd)|].
  destruct (decide (IBLOCK i sb = 0)) as [|H0]; [by left|right]. intros l Hl E. symmetry in E. revert E.
  destruct (decide (fslot cont1 addrs1 l = 0)) as [->|Hl0]; [congruence|]. by apply (own_not_inode f); [|apply Hw|..].
Qed.

(** A write within the file adds no blocks. *)
Lemma written_no_growth a : off + n <= i_size x -> 0 <= a <= NDIRECT -> addrs1 a = i_addrs x a.
Proof.
  intros Hin Ha. pose proof (addr_slot_ok a Ha) as Hs. rewrite <- (fslot_addr cont1 addrs1), <- (fslot_addr cont (i_addrs x)) by done.
  apply (wr_slots _ _ _ _ _ _ _ _ _ _ Hw); [done|].
  assert (forall k, touches off n k -> fslot cont (i_addrs x) k <> 0) as Ht by (intros k (? & ? & ? & ?); apply (fi_filled _ _ _ Hx); fsc; lia).
  destruct (decide (fslot cont (i_addrs x) (addr_slot a) = 0)) as [E0|]; [right|by left]. unfold untouched. destruct (addr_slot a =? -1) eqn:E; bool_to_prop.
  - rewrite E in E0. intros k Hk. destruct (decide (k < NDIRECT)); [done|]. exfalso. apply (Ht k Hk). apply fslot_no_entry; [lia|done].
  - intros Hk. by apply (Ht _ Hk).
Qed.

Hypothesis Hsame : forall m, m <> IBLOCK (i_inum x) sb -> cont2 m = cont1 m.
Hypothesis Hout : forall o, o < 64 * (i_inum x mod IPB) \/ 64 * (i_inum x mod IPB) + 64 <= o -> cont2 (IBLOCK (i_inum x) sb) o = cont1 (IBLOCK (i_inum x) sb) o.
Hypothesis Hdisk : deq (disk_inode f cont2 (i_inum x)) (dinode_of x2).
Hypothesis Hfile : file_ok f cont2 addrs1.
Hypothesis Hninodes : sb_ninodes sb <= 2 ^ 32.

Lemma written_inv : file_inv f cont2 x2.
Proof. destruct Hx. split; simpl; try done; [lia|]. apply written_filled. Qed.

Lemma written_ok : written f x off bs cont cont2 x2.
Proof.
  split; cbn [i_size i_addrs set_i_size set_i_addrs].
  - done.
  - apply written_bytes.
  - intros m Hm Hb Hown Hi. rewrite Hsame by done. apply (wr_same _ _ _ _ _ _ _ _ _ _ Hw); [done..|].
    destruct (decide (m = 0)) as [|H0]; [by left|right]. intros l Hl E. apply (Hown l Hl); rewrite Hslots by done; congruence.
  - intros i Hi Hne. unfold disk_inode. rewrite <- (written_inode_block i Hi). pose proof (fi_inum _ _ _ Hx) as Hix.
    destruct (decide (IBLOCK i sb = IBLOCK (i_inum x) sb)) as [E|E]; [|by rewrite Hsame].
    apply load_dinode_ext. intros o Ho. rewrite E. apply Hout. pose proof (inode_spots f i (i_inum x) Hninodes Hi Hix Hne E). lia.
Qed.
End written.

(** ** writei *)

Section writes.
Context (p : nat) (pid : Z) `{Symbols} `{DiskOk} `{DevSw} (f : fstate low) (cont : Z -> block) (bl : list Z) (ip : nat) (off : Z) (bs : list Z).
Local Notation sb := (l_sb (fs_low f)).
Local Notation x := (l_inode (fs_low f) ip).
Local Notation n := (Z.of_nat (length bs)).
Hypothesis Hsb : sb_size sb <= BPB.
Hypothesis Hninodes : sb_ninodes sb <= 2 ^ 32.
Hypothesis Ht : in_tx pid f cont bl.
Hypothesis Hd : disk_ok f cont.
Hypothesis Hx : file_inv f cont x.
Hypothesis Hoff : 0 <= off <= i_size x.
Hypothesis Hmax : off + n <= MAXFILE * BSIZE.
Hypothesis Hbytes : Forall (fun b => 0 <= b < 256) bs.
Hypothesis Hroom : Z.of_nat (length bl) + 2 + nblk off n < lg_size (l_log (fs_low f)) - 6.
Hypothesis Hfree : nblk off n + Z.of_nat (takes (i_addrs x NDIRECT)) <= Z.of_nat (nfree f cont).

(** The whole result of writing. *)
Definition writei_post (r : Z * list Z) (f' : fstate low) : Prop := exists cont' bl' x',
  r = (n, []) /\ in_tx pid f' cont' bl' /\ tx_step f f' /\ l_inode (fs_low f') = upd (l_inode (fs_low f)) ip x' /\
  disk_ok f cont' /\ file_inv f cont' x' /\ written f x off bs cont cont' x' /\
  Z.of_nat (length bl') <= Z.of_nat (length bl) + nblk off n + 3.

(** The end of writei, which writes the inode when the file has grown. *)
Lemma runs_writei_end c cont1 addrs1 bl1 f1 : in_tx pid f1 cont1 bl1 -> tx_step f f1 ->
  l_inode (fs_low f1) = upd (l_inode (fs_low f)) ip (set_i_addrs addrs1 x) -> wrote f off bs c cont (i_addrs x) bl cont1 addrs1 bl1 ->
  runs p pid (let* i := ino_get ip in
    when ((n >? 0) && (off + n >? i_size i)) (ino_upd ip (set_i_size (off + n)) ;;; iupdate ip) ;;;
    ret (s32 n, @nil Z)) writei_post f1.
Proof.
  intros Ht1 S1 Ei1 Hw. eapply runs_bind, runs_ino_get. rewrite Ei1, upd_eq. cbn [i_size set_i_addrs].
  assert (s32 n = n) as -> by (apply s32_small; fsc; lia). pose proof (fi_inum _ _ _ Hx) as Hix. pose proof (fi_size _ _ _ Hx) as Hsz.
  destruct (dk_inode _ _ Hd _ Hix) as (Hib & Hil & Him). destruct (fi_words _ _ _ Hx) as (W1 & W2 & W3 & W4).
  pose proof (wrote_length f _ _ _ _ _ _ _ _ _ Hsb (proj1 Hoff) (lo_nodup _ _ _ (it_log _ _ _ _ _ Ht1)) Hw) as Hlen.
  set (x2 := set_i_size (Z.max (i_size x) (off + n)) (set_i_addrs addrs1 x)). pose proof (wr_file _ _ _ _ _ _ _ _ _ _ Hw) as Hf1.
  destruct ((n >? 0) && (off + n >? i_size x)) eqn:Eg; cbn [when].
  - apply andb_true_iff in Eg as [_ Eg]. bool_to_prop. assert (set_i_size (off + n) (set_i_addrs addrs1 x) = x2) as Ex by (unfold x2; by rewrite Z.max_r by lia).
    eapply runs_bind, runs_bind, runs_ino_upd. rewrite Ei1, upd_eq, Ex.
    set (f2 := put_inode f1 ip x2). assert (tx_step f f2) as S2 by (etransitivity; [exact S1|apply tx_step_inode]).
    assert (l_inode (fs_low f2) ip = x2) as Ex2 by (simpl; apply upd_eq). pose proof (runs_iupdate p pid f2 cont1 bl1 ip) as Hup. rewrite Ex2 in Hup.
    cbv zeta in Hup. change (i_inum x2) with (i_inum x) in Hup. rewrite (ts_sb _ _ S2), (tx_nblocks _ _ S2), (ts_lsize _ _ S2) in Hup.
    apply Hup; try done; [by apply in_txh_inode|apply Hx|by rewrite (tx_in_log _ _ _ S2)|lia|]. intros f3 Ht3 S3. apply runs_ret. destruct (tx_step_log _ _ S3) as [S3' Ei3].
    set (b := IBLOCK (i_inum x) sb) in *. set (d := store_dinode (cont1 b) (64 * (i_inum x mod IPB)) (dinode_of x2)). set (cont3 := updated _ _) in Ht3.
    assert (cont3 = upd cont1 b d) as E3 by done. clearbody cont3. subst cont3.
    assert (din_range (dinode_of x2)) as Hdr.
    { unfold din_range, x2. cbn. split_and!; try lia; [fsc; lia|]. intros a Ha. rewrite <- (fslot_addr cont1 addrs1 a Ha).
      pose proof (lo_geom _ _ _ (it_log _ _ _ _ _ Ht)). pose proof (bk_size _ _ (dk_bitmap _ _ Hd)).
      destruct (fo_data _ _ _ Hf1 _ (addr_slot_ok a Ha)) as [->|Hb%db_range]; lia. }
    assert (deq (disk_inode f (upd cont1 b d) (i_inum x)) (dinode_of x2)) as Hdq by (unfold disk_inode; fold b; rewrite upd_eq; by apply load_store_dinode).
    eexists _, _, x2. split_and!; [done|exact Ht3|by etransitivity| | |eapply written_inv|eapply written_ok|pose proof (add_block_length bl1 b); lia]; try done.
    + rewrite Ei3. simpl. by rewrite Ei1, upd_upd.
    + apply disk_ok_other; [done|apply Hw].
    + intros l Hl. by apply inode_slots.
    + by apply inode_file.
    + intros l Hl. by apply inode_slots.
    + intros o Ho. by apply (inode_content f).
    + intros m Hm. by rewrite upd_ne.
    + intros o Ho. fold b. rewrite upd_eq. by apply store_dinode_outside.
  - assert (off + n <= i_size x) as Hin by (apply andb_false_iff in Eg; bool_to_prop; lia). eapply runs_bind, runs_ret, runs_ret.
    assert (set_i_addrs addrs1 x = x2) as Ex by (unfold x2; rewrite Z.max_l by lia; by destruct x).
    pose proof (written_inode_block f x off bs c cont bl cont1 addrs1 bl1 Hw Hd _ Hix) as Hblk.
    eexists cont1, bl1, x2. split_and!; [done|exact Ht1|done|by rewrite <- Ex|apply Hw|eapply written_inv|eapply written_ok|lia]; try done.
    unfold disk_inode. rewrite Hblk. etransitivity; [apply (fi_disk _ _ _ Hx)|]. split_and!; try done; cbn; [lia|].
    intros a Ha. symmetry. by eapply written_no_growth.
Qed.

(** C6. Writing to a file: in an operation of the log, writei puts the given bytes in the
    file at the offset, extends it when they reach past its end, and reports all of them
    written.  The other bytes of the file, the blocks of other files and the other inodes
    keep their contents; the file's inode agrees with its copy on the disk, its blocks exist
    and belong to no other file; and the operation gains at most one block of the log per
    block written and three more. *)
Theorem writei_writes_file : runs p pid (writei fetch_local bs ip off n) writei_post f.
Proof.
  pose proof (fi_size _ _ _ Hx) as Hsz. unfold writei. eapply runs_bind, runs_ino_get.
  rewrite (proj2 (Z.eqb_neq _ _) (fi_type _ _ _ Hx)). rewrite u32_small by (fsc; lia).
  assert ((off >? i_size x) || (off + n <? off) = false) as -> by (apply orb_false_iff; split; [rewrite Z.gtb_ltb|]; apply Z.ltb_ge; lia).
  assert (off + n >? MAXFILE * BSIZE = false) as -> by (rewrite Z.gtb_ltb; apply Z.ltb_ge; lia).
  assert (set_i_addrs (i_addrs x) x = x) as Ex by by destruct x.
  pose proof (runs_writei_loop p pid f Hsb ip x (l_inode (fs_low f)) cont bl off bs (fi_dev _ _ _ Hx) (proj1 Hoff) Hmax Hroom
    (Z.to_nat (n / BSIZE) + 3) f cont (i_addrs x) bl [] bs 0) as Hrun. cbv zeta in Hrun. simpl (length []) in Hrun. rewrite Z.add_0_r, Z.sub_0_r in Hrun.
  eapply runs_bind, Hrun; try done.
  - by rewrite Ex, upd_id.
  - apply wrote_nil; [done|apply Hx].
  - lia.
  - intros Hn. fsc. Z.div_mod_to_equations. lia.
  - intros c cont1 addrs1 bl1 f1 Ht1 S1 Ei1 Hw. cbn [fst snd]. by eapply runs_writei_end.
Qed.
End writes.
