(* ===== verification/FileRef.v ===== *)
(** * Reference counts of open files

    The file table under any interleaving of calls: the count of an entry is the
    number of references that filealloc and filedup handed out and fileclose has
    not taken back. *)
From S2P Require Import Prelude Machine ProcQueue StringC Spinlock Kalloc Vm VmFrame Proc RunQueue ProcRun Sched UserMem Trap FsState Pipe Sleeplock Disk Bio Log Fs File.

Section refs.

Definition put_file (f : fstate low) (i : nat) (x : file) : fstate low := set_fs_file (upd (fs_file f) i x) f.

(** ** What the calls do when they return *)

Lemma wacquire_inv lk (w w' : W) : wacquire lk w = Ret tt w' -> w'.2 = w.2.
Proof. by intros [_ ?]%onk_inv. Qed.
Lemma wrelease_inv lk (w w' : W) : wrelease lk w = Ret tt w' -> w'.2 = w.2.
Proof. by intros [_ ?]%onk_inv. Qed.

Lemma filealloc_inv w r w' : filealloc w = Ret r w' ->
  match r with
  | Some i => i ∈ files /\ f_ref (fs_file w.2 i) = 0 /\ w'.2 = put_file w.2 i (set_f_ref 1 (fs_file w.2 i))
  | None => (forall i, i ∈ files -> f_ref (fs_file w.2 i) <> 0) /\ w'.2 = w.2
  end.
Proof.
  unfold filealloc. intros ([] & [k1 f1] & E1%wacquire_inv & E)%bind_inv. simpl in E1. subst f1.
  apply bind_inv in E as (s & w2 & Eg & E). injection Eg as <- <-. cbn [snd] in E.
  destruct (find_first _ files) as [i|] eqn:Ef.
  - apply find_first_elem in Ef as [Hi Hz%Z.eqb_eq]. apply bind_inv in E as ([] & w3 & [= <-] & E).
    apply bind_inv in E as ([] & w4 & E4%wrelease_inv & E). unfold ret in E. injection E as <- <-. split_and!; [done..|]. by rewrite E4.
  - rewrite find_first_None in Ef. apply bind_inv in E as ([] & w4 & E4%wrelease_inv & E). unfold ret in E. injection E as <- <-.
    split; [|by rewrite E4]. intros i Hi Hz. specialize (Ef i Hi). simpl in Ef. by rewrite Hz in Ef.
Qed.

Lemma filedup_inv i w r w' : filedup i w = Ret r w' ->
  r = i /\ 1 <= f_ref (fs_file w.2 i) /\
  w'.2 = put_file w.2 i (set_f_ref (s32 (f_ref (fs_file w.2 i) + 1)) (fs_file w.2 i)).
Proof.
  unfold filedup. intros ([] & [k1 f1] & E1%wacquire_inv & E)%bind_inv. simpl in E1. subst f1.
  apply bind_inv in E as (x & w2 & [= <- <-] & E). simpl in E.
  destruct (Z.ltb_spec (f_ref (fs_file w.2 i)) 1) as [|Hr]; [done|].
  apply bind_inv in E as ([] & w3 & [= <-] & E). apply bind_inv in E as ([] & w4 & E4%wrelease_inv & E).
  unfold ret in E. injection E as <- <-. split_and!; [done..|]. by rewrite E4.
Qed.

Lemma fileclose_ref_inv i w r w' : fileclose_ref i w = Ret r w' ->
  let x := set_f_ref (f_ref (fs_file w.2 i) - 1) (fs_file w.2 i) in
  1 <= f_ref (fs_file w.2 i) /\
  (1 < f_ref (fs_file w.2 i) /\ r = None /\ w'.2 = put_file w.2 i x \/
   f_ref (fs_file w.2 i) = 1 /\ r = Some x /\ w'.2 = put_file w.2 i (set_f_type FD_NONE (set_f_ref 0 x))).
Proof.
  intros E x. revert E. unfold fileclose_ref. intros ([] & [k1 f1] & E1%wacquire_inv & E)%bind_inv. simpl in E1. subst f1.
  apply bind_inv in E as (y & w2 & [= <- <-] & E). simpl in E.
  destruct (Z.ltb_spec (f_ref (fs_file w.2 i)) 1) as [|Hr]; [done|]. split; [done|].
  apply bind_inv in E as ([] & w3 & [= <-] & E). apply bind_inv in E as (y & w4 & [= <- <-] & E). simpl in E. rewrite upd_eq in E. simpl in E.
  rewrite Z.gtb_ltb in E. destruct (Z.ltb_spec 0 (f_ref (fs_file w.2 i) - 1)) as [Hp|Hp].
  - apply bind_inv in E as ([] & w5 & E5%wrelease_inv & E). unfold ret in E. injection E as <- <-. left. split_and!; [lia|done|]. by rewrite E5.
  - apply bind_inv in E as ([] & w5 & [= <-] & E). apply bind_inv in E as ([] & w6 & [= <-] & E).
    apply bind_inv in E as ([] & w7 & E7%wrelease_inv & E). unfold ret in E. injection E as <- <-. right. split_and!; [lia|done|].
    rewrite E7. unfold put_file. simpl. by rewrite !upd_eq, !upd_upd.
Qed.

(** ** Interleavings *)

(** The references handed out; a system has far fewer than 2^31. *)
Record ftsys := mkFt { ft_w : W; ft_refs : list nat }.

Inductive ft_step : ftsys -> ftsys -> Prop :=
  | FT_alloc w w' i h : filealloc w = Ret (Some i) w' -> ft_step (mkFt w h) (mkFt w' (i :: h))
  | FT_alloc_fails w w' h : filealloc w = Ret None w' -> ft_step (mkFt w h) (mkFt w' h)
  | FT_dup w w' i r h : i ∈ h -> Z.of_nat (length h) < 2 ^ 31 - 1 -> filedup i w = Ret r w' ->
      ft_step (mkFt w h) (mkFt w' (i :: h))
  | FT_close w w' i r h1 h2 : fileclose_ref i w = Ret r w' -> ft_step (mkFt w (h1 ++ i :: h2)) (mkFt w' (h1 ++ h2))
  | FT_other w w' h : (forall i, f_ref (fs_file w'.2 i) = f_ref (fs_file w.2 i)) -> ft_step (mkFt w h) (mkFt w' h).

Definition uses (i : nat) (h : list nat) : Z := Z.of_nat (length (filter (fun j => j = i) h)).

Definition ft_inv (y : ftsys) : Prop :=
  (forall i, i ∈ ft_refs y -> i ∈ files) /\ forall i, i ∈ files -> f_ref (fs_file (ft_w y).2 i) = uses i (ft_refs y).

Lemma uses_cons i j h : uses i (j :: h) = uses i h + (if decide (j = i) then 1 else 0).
Proof. unfold uses. rewrite filter_cons. case_decide; simpl; lia. Qed.
Lemma uses_app i h1 h2 : uses i (h1 ++ h2) = uses i h1 + uses i h2.
Proof. unfold uses. rewrite filter_app, length_app. lia. Qed.
Lemma uses_le i h : uses i h <= Z.of_nat (length h).
Proof. unfold uses. pose proof (length_filter (fun j => j = i) h). lia. Qed.
Lemma uses_pos i h : i ∈ h <-> 1 <= uses i h.
Proof.
  unfold uses. split.
  - intros Hi. assert (i ∈ filter (fun j => j = i) h) as Hf by by apply list_elem_of_filter.
    destruct (filter _ h); [by apply elem_of_nil in Hf|simpl; lia].
  - intros Hl. destruct (filter (fun j => j = i) h) as [|j l] eqn:E; [simpl in Hl; lia|].
    assert (j ∈ filter (fun j => j = i) h) as [-> Hj]%list_elem_of_filter by (rewrite E; by left). done.
Qed.

Lemma ft_step_inv y y' : ft_inv y -> ft_step y y' -> ft_inv y'.
Proof.
  intros [Hin Hu] Hs. destruct Hs as [w w' i h E|w w' h E|w w' i r h Hi Hn E|w w' i r h1 h2 E|w w' h E]; simpl in *.
  - apply filealloc_inv in E as (Hi & Hz & E). split; simpl.
    + intros j [->|Hj]%elem_of_cons; auto.
    + intros j Hj. rewrite E, uses_cons. simpl. rewrite upd_case. repeat case_decide; subst; simpl; try done.
      * rewrite <- Hu, Hz by done. lia.
      * rewrite Hu by done. lia.
  - apply filealloc_inv in E as [_ E]. split; [done|]. simpl. rewrite E. auto.
  - apply filedup_inv in E as (_ & _ & E). split; simpl.
    + intros j [->|Hj]%elem_of_cons; auto.
    + intros j Hj. rewrite E, uses_cons. simpl. rewrite upd_case. repeat case_decide; subst; simpl; try done.
      * rewrite <- Hu by done. apply s32_small. pose proof (uses_le j h). rewrite Hu by done. unfold uses in *. lia.
      * rewrite Hu by done. lia.
  - apply fileclose_ref_inv in E as [Hr E]. split; simpl.
    + intros j Hj. apply Hin. apply elem_of_app in Hj as [Hj|Hj]; apply elem_of_app; [by left|right; by right].
    + intros j Hj. specialize (Hu j Hj). rewrite uses_app, uses_cons in Hu. rewrite uses_app.
      destruct E as [(H1 & _ & ->)|(H1 & _ & ->)]; simpl; rewrite upd_case; repeat case_decide; subst; simpl; try done; lia.
  - split; [done|]. simpl. intros i Hi. rewrite E. auto.
Qed.

(** C31. Reference counts of the file table: from an empty table, whatever the
    interleaving of calls, the count of an entry is the number of its references;
    so an entry with a reference is never handed out again, filealloc fails only
    when every entry has a reference, and fileclose gives the entry back exactly
    with its last reference. *)
Theorem file_refcounts y0 y : ft_refs y0 = [] -> (forall i, f_ref (fs_file (ft_w y0).2 i) = 0) -> rtc ft_step y0 y ->
  (forall i, i ∈ files -> f_ref (fs_file (ft_w y).2 i) = uses i (ft_refs y)) /\
  (forall i w', filealloc (ft_w y) = Ret (Some i) w' -> i ∈ files /\ i ∉ ft_refs y) /\
  (forall w', filealloc (ft_w y) = Ret None w' -> forall i, i ∈ files -> i ∈ ft_refs y) /\
  (forall i r w', i ∈ ft_refs y -> fileclose_ref i (ft_w y) = Ret r w' -> r <> None <-> uses i (ft_refs y) = 1).
Proof.
  intros H0 Hz Hs. assert (ft_inv y0) as Hi0.
  { split; rewrite H0; [by intros i ?%elem_of_nil|]. intros i _. by rewrite Hz. }
  assert (ft_inv y) as [Hin Hu] by (clear H0 Hz; induction Hs; eauto using ft_step_inv). split_and!; [done|..].
  - intros i w' (Hi & Hr & _)%filealloc_inv. split; [done|]. rewrite Hu in Hr by done. rewrite uses_pos. lia.
  - intros w' [Hr _]%filealloc_inv i Hi. specialize (Hr i Hi). rewrite Hu in Hr by done. apply uses_pos. unfold uses in *. lia.
  - intros i r w' Hi [_ E]%fileclose_ref_inv. rewrite <- Hu by auto. destruct E as [(H1 & -> & _)|(H1 & -> & _)]; split; try done; lia.
Qed.
End refs.
