(* ===== verification/ConsoleSpec.v ===== *)
(** * What the console promises

    The line discipline: typed characters are edited in a line; a complete line
    becomes ready for reading.  [shows i l]: the ring buffer [i] represents the
    lines [l]. *)
From S2P Require Import Prelude Machine ProcQueue StringC Spinlock Kalloc Vm VmFrame Proc RunQueue ProcRun Sched UserMem Trap FsState Sleeplock Disk Bio Log Fs FsLogic Console.

(** ** The abstract line editor *)

Record lines := mkLines { ln_ready : list Z; ln_edit : list Z }.

Definition ends_line (c : Z) : bool := (c =? newline) || (c =? C_D).

Definition key (c : Z) (l : lines) : lines :=
  if c =? C_P then l
  else if c =? C_U then mkLines (ln_ready l) []
  else if (c =? C_H) || (c =? 0x7f) then mkLines (ln_ready l) (removelast (ln_edit l))
  else if (c =? 0) || bool_decide (length (ln_ready l ++ ln_edit l) = Z.to_nat INPUT_BUF) then l
  else
    let c := if c =? 13 then newline else c in
    let e := ln_edit l ++ [c] in
    if ends_line c || bool_decide (length (ln_ready l ++ e) = Z.to_nat INPUT_BUF)
    then mkLines (ln_ready l ++ e) [] else mkLines (ln_ready l) e.

(** The bytes a read of at most [n] returns and what stays ready; None: it has to
    wait for more.  [got]: the read has some bytes already. *)
Fixpoint read_line (n : nat) (got : bool) (ready : list Z) : option (list Z * list Z) :=
  match n, ready with
  | O, _ => Some ([], ready)
  | S _, [] => None
  | S n', c :: rest =>
    if c =? C_D then Some ([], if got then ready else rest)
    else if c =? newline then Some ([c], rest)
    else match read_line n' true rest with Some (bs, rest') => Some (c :: bs, rest') | None => None end
  end.

Lemma read_line_length n g ready bs rest : read_line n g ready = Some (bs, rest) -> (length bs <= n)%nat.
Proof.
  revert g ready bs. induction n as [|n IH]; intros g ready bs Hr; simpl in Hr; [by injection Hr as <- <-|].
  destruct ready as [|c ready]; [done|]. destruct (c =? C_D); [injection Hr as <- <-; simpl; lia|].
  destruct (c =? newline); [injection Hr as <- <-; simpl; lia|].
  destruct (read_line n true ready) as [[bs' rest']|] eqn:E; [|done]. injection Hr as <- <-. apply IH in E. simpl. lia.
Qed.

(** ** The ring buffer *)

Record shows (i : input) (l : lines) : Prop := {
  sh_r : 0 <= in_r i < 2 ^ 32;
  sh_w : in_w i = u32 (in_r i + Z.of_nat (length (ln_ready l)));
  sh_e : in_e i = u32 (in_r i + Z.of_nat (length (ln_ready l ++ ln_edit l)));
  sh_len : Z.of_nat (length (ln_ready l ++ ln_edit l)) <= INPUT_BUF;
  sh_buf j c : (ln_ready l ++ ln_edit l) !! j = Some c -> in_buf i ((in_r i + Z.of_nat j) mod INPUT_BUF) = c;
}.

Lemma u32_mod_buf z : u32 z mod INPUT_BUF = z mod INPUT_BUF.
Proof. unfold u32, INPUT_BUF. symmetry. apply Znumtheory.Zmod_div_mod; [done..|by exists (2 ^ 25)]. Qed.
Lemma u32_add a b : u32 (u32 a + b) = u32 (a + b).
Proof. unfold u32. by rewrite Zplus_mod_idemp_l. Qed.
Lemma u32_sub a b : u32 (u32 a - b) = u32 (a - b).
Proof. unfold u32. by rewrite Zminus_mod_idemp_l. Qed.
Lemma mod_buf_inj r a b : (r + a) mod INPUT_BUF = (r + b) mod INPUT_BUF -> 0 <= a < INPUT_BUF -> 0 <= b < INPUT_BUF -> a = b.
Proof. unfold INPUT_BUF. intros E Ha Hb. Z.div_mod_to_equations. lia. Qed.

Section input.
Context (i : input) (ready edit : list Z).
Hypothesis Hs : shows i (mkLines ready edit).

Lemma shows_used : u32 (in_e i - in_r i) = Z.of_nat (length (ready ++ edit)).
Proof. pose proof (sh_len _ _ Hs). simpl in *. unfold INPUT_BUF in *. rewrite (sh_e _ _ Hs), u32_sub. simpl. rewrite u32_small; lia. Qed.
Lemma shows_typed : u32 (in_e i - in_w i) = Z.of_nat (length edit).
Proof.
  pose proof (sh_len _ _ Hs). pose proof (sh_r _ _ Hs). rewrite (sh_e _ _ Hs), (sh_w _ _ Hs). simpl in *. rewrite length_app in *. unfold INPUT_BUF, u32 in *.
  rewrite <- Zminus_mod. rewrite Z.mod_small; lia.
Qed.
Lemma shows_no_edit : (in_e i =? in_w i) = bool_decide (edit = []).
Proof.
  pose proof shows_typed as Ht. pose proof (sh_len _ _ Hs) as Hl. simpl in Hl. rewrite length_app in Hl. unfold INPUT_BUF in Hl.
  pose proof (u32_range (in_r i + Z.of_nat (length (ready ++ edit)))) as H1. change (ready ++ edit) with (ln_ready (mkLines ready edit) ++ ln_edit (mkLines ready edit)) in H1.
  rewrite <- (sh_e _ _ Hs) in H1. pose proof (u32_range (in_r i + Z.of_nat (length (ln_ready (mkLines ready edit))))) as H2.
  rewrite <- (sh_w _ _ Hs) in H2.
  destruct (Z.eqb_spec (in_e i) (in_w i)) as [E|E].
  - rewrite E, Z.sub_diag in Ht. symmetry. apply bool_decide_eq_true. destruct edit; [done|]. change (u32 0) with 0 in Ht. cbn [length] in Ht. lia.
  - symmetry. apply bool_decide_eq_false. intros He. subst edit. simpl in Ht. apply E. unfold u32 in *. Z.div_mod_to_equations. lia.
Qed.
Lemma shows_no_ready : (in_r i =? in_w i) = bool_decide (ready = []).
Proof.
  pose proof (sh_len _ _ Hs) as Hl. pose proof (sh_r _ _ Hs) as Hr. simpl in Hl. rewrite length_app in Hl. unfold INPUT_BUF in Hl.
  rewrite (sh_w _ _ Hs). simpl. destruct ready as [|c l]; simpl in *.
  - rewrite Z.add_0_r, u32_small, Z.eqb_refl by done. done.
  - apply Z.eqb_neq. intros E. unfold u32 in E. Z.div_mod_to_equations. lia.
Qed.
Lemma shows_full : (in_e i =? u32 (in_r i + INPUT_BUF)) = bool_decide (length (ready ++ edit) = Z.to_nat INPUT_BUF).
Proof.
  pose proof (sh_len _ _ Hs) as Hl. simpl in Hl. rewrite (sh_e _ _ Hs). simpl. unfold INPUT_BUF, u32 in *.
  destruct (Z.eqb_spec ((in_r i + Z.of_nat (length (ready ++ edit))) mod 2 ^ 32) ((in_r i + 128) mod 2 ^ 32)) as [E|E]; symmetry.
  - apply bool_decide_eq_true. Z.div_mod_to_equations. lia.
  - apply bool_decide_eq_false. intros He. apply E. rewrite He. done.
Qed.

Lemma shows_push c : Z.of_nat (length (ready ++ edit)) < INPUT_BUF ->
  shows (set_in_e (u32 (in_e i + 1)) (set_in_buf (upd (in_buf i) (in_e i mod INPUT_BUF) c) i)) (mkLines ready (edit ++ [c])).
Proof.
  intros Hl. destruct Hs as [H1 H2 H3 H4 H5]. simpl in *. split; simpl; try done.
  - rewrite H3, u32_add, app_assoc, (length_app (ready ++ edit)). simpl. f_equal. lia.
  - rewrite app_assoc, (length_app (ready ++ edit)). simpl. lia.
  - intros j x Hj. rewrite H3, u32_mod_buf, upd_case. rewrite app_assoc in Hj. apply lookup_app_Some in Hj as [Hj|[Hle Hj]].
    + pose proof (lookup_lt_Some _ _ _ Hj). case_decide as E; [|auto]. apply mod_buf_inj in E; lia.
    + apply list_lookup_singleton_Some in Hj as [Hj ->]. assert (j = length (ready ++ edit)) as -> by lia. by rewrite decide_True.
Qed.

Lemma shows_commit : shows (set_in_w (in_e i) i) (mkLines (ready ++ edit) []).
Proof. destruct Hs as [H1 H2 H3 H4 H5]. simpl in *. split; simpl; rewrite ?app_nil_r; done. Qed.

Lemma shows_take c rest : ready = c :: rest ->
  in_buf i (in_r i mod INPUT_BUF) = c /\ shows (set_in_r (u32 (in_r i + 1)) i) (mkLines rest edit).
Proof.
  intros ->. destruct Hs as [H1 H2 H3 H4 H5]. simpl in *. split.
  - specialize (H5 0%nat c eq_refl). by rewrite Z.add_0_r in H5.
  - split; simpl; [apply u32_range|..].
    + rewrite H2, u32_add. f_equal. lia.
    + rewrite H3, u32_add. f_equal. lia.
    + lia.
    + intros j x Hj. specialize (H5 (S j) x Hj). rewrite Zplus_mod, u32_mod_buf, <- Zplus_mod.
      rewrite <- H5. f_equal. f_equal. lia.
Qed.
End input.

Lemma shows_back i ready edit c : shows i (mkLines ready (edit ++ [c])) ->
  in_buf i (u32 (in_e i - 1) mod INPUT_BUF) = c /\ shows (set_in_e (u32 (in_e i - 1)) i) (mkLines ready edit).
Proof.
  intros [H1 H2 H3 H4 H5]. simpl in *. rewrite app_assoc, (length_app (ready ++ edit)) in H3, H4. simpl in *.
  assert (u32 (in_e i - 1) = u32 (in_r i + Z.of_nat (length (ready ++ edit)))) as E by (rewrite H3, u32_sub; f_equal; lia). split.
  - rewrite E, u32_mod_buf. apply H5. rewrite app_assoc. by apply list_lookup_middle.
  - split; simpl; try done; [lia|]. intros j x Hj. apply H5. rewrite app_assoc. by apply lookup_app_l_Some.
Qed.

(** ** Output does not touch the input *)

(** The register of the CRT controller that is selected after the accesses [d] to devices, and the
    contents of register [r], at first those of [r0]. *)
Fixpoint crt_sel (d : list event) : Z :=
  match d with
  | [] => 0
  | EvOut a v :: d' => if a =? CRTPORT then u8 v else crt_sel d'
  | _ :: d' => crt_sel d'
  end.
Fixpoint crt_reg (r0 : Z -> Z) (r : Z) (d : list event) : Z :=
  match d with
  | [] => r0 r
  | EvOut a v :: d' => if (a =? CRTPORT + 1) && (crt_sel d' =? r) then u8 v else crt_reg r0 r d'
  | _ :: d' => crt_reg r0 r d'
  end.

Definition dev_of (f : fstate low) : list event := l_dev (fs_low f).

(** What the code relies on of ports: every access is answered and is recorded, and changes nothing of the
    kernel besides; the data port of the CRT controller reads the selected register.
    [crt0] are the registers as the firmware left them. *)
Class PortsOk `{Ports} := {
  crt0 : Z -> Z;
  inb_ok a (w : W) : exists v, inb a w = Ret v (note (EvIn a v) w) /\ 0 <= v < 256;
  outb_ok a v (w : W) : outb a v w = Ret tt (note (EvOut a v) w);
  inb_crt (w w' : W) v : inb (CRTPORT + 1) w = Ret v w' -> v = crt_reg crt0 (crt_sel (dev_of w.2)) (dev_of w.2);
}.

(** The position of the cursor: registers 14 and 15. *)
Definition cursor `{PortsOk} (d : list event) : Z := Z.lor (Z.shiftl (crt_reg crt0 14 d) 8) (crt_reg crt0 15 d).

Section run.
Context (p : nat) (pid : Z) `{PortsOk}.

Definition cons_of (f : fstate low) : consst := l_cons (fs_low f).
Definition put_cons (f : fstate low) (c : consst) : fstate low := set_fs_low (set_l_cons c (fs_low f)) f.
Definition put_dev (f : fstate low) (d : list event) : fstate low := set_fs_low (set_l_dev d (fs_low f)) f.

(** The cursor is on the first 24 lines of the screen. *)
Definition on_screen (d : list event) : Prop := 0 <= cursor d < 24 * 80.

Lemma cursor_in a v d : cursor (EvIn a v :: d) = cursor d.
Proof. done. Qed.
Lemma cursor_out a v d : a <> CRTPORT + 1 -> cursor (EvOut a v :: d) = cursor d.
Proof. intros Ha. unfold cursor. simpl. by rewrite (proj2 (Z.eqb_neq _ _) Ha). Qed.

(** The cursor is where cgaputc puts it. *)
Lemma cursor_set pos d : 0 <= pos < 24 * 80 ->
  cursor (EvOut (CRTPORT + 1) (u8 pos) :: EvOut CRTPORT 15 :: EvOut (CRTPORT + 1) (u8 (Z.shiftr pos 8)) :: EvOut CRTPORT 14 :: d) = pos.
Proof.
  intros Hp. unfold cursor. simpl. change (u8 15) with 15. change (u8 14) with 14. simpl.
  rewrite Z.shiftr_div_pow2, Z.shiftl_mul_pow2 by lia. unfold u8. rewrite !Zmod_mod.
  rewrite (Z.mod_small (pos / 2 ^ 8)) by (Z.div_mod_to_equations; lia).
  rewrite (lor_add_low _ _ 8); [|lia|apply Z_mod_mult|apply Z.mod_pos_bound; lia]. Z.div_mod_to_equations. lia.
Qed.

Lemma runs_inb h a (Q : Z -> fstate low -> Prop) f :
  (forall v, 0 <= v < 256 -> (a = CRTPORT + 1 -> v = crt_reg crt0 (crt_sel (dev_of f)) (dev_of f)) -> Q v (put_dev f (EvIn a v :: dev_of f))) ->
  runs_in p pid h h (inb a) Q f.
Proof.
  intros HQ k Hk. destruct (inb_ok a (k, f)) as (v & E & Hv). eexists v, k, _. split; [exact E|]. split; [done|].
  apply HQ; [done|]. intros ->. by apply (inb_crt _ _ _ E).
Qed.
Lemma runs_outb h a v (Q : unit -> fstate low -> Prop) f : Q tt (put_dev f (EvOut a v :: dev_of f)) -> runs_in p pid h h (outb a v) Q f.
Proof. intros HQ k Hk. eexists tt, k, _. split; [apply outb_ok|done]. Qed.
Lemma runs_cons_get h (Q : consst -> fstate low -> Prop) f : Q (cons_of f) f -> runs_in p pid h h cons_get Q f.
Proof. apply (runs_low_get p pid h l_cons). Qed.
Lemma runs_cons_upd h g (Q : unit -> fstate low -> Prop) f : Q tt (put_cons f (g (cons_of f))) -> runs_in p pid h h (cons_upd g) Q f.
Proof. apply (runs_low_modify p pid h (fun l => set_l_cons (g (l_cons l)) l)). Qed.

(** Devices were used, but not the screen. *)
Definition polled (f f' : fstate low) : Prop := exists d, f' = put_dev f d /\ cursor d = cursor (dev_of f).

Lemma polled_self f : polled f f.
Proof. exists (dev_of f). by destruct f as [? ? ? []]. Qed.
Lemma polled_trans f1 f2 f3 : polled f1 f2 -> polled f2 f3 -> polled f1 f3.
Proof. intros (d & -> & E) (d' & -> & E'). exists d'. split; [done|]. by rewrite E', <- E. Qed.
Lemma polled_in f a v : polled f (put_dev f (EvIn a v :: dev_of f)).
Proof. by eexists. Qed.
Lemma polled_out f a v : a <> CRTPORT + 1 -> polled f (put_dev f (EvOut a v :: dev_of f)).
Proof. intros Ha. eexists. split; [done|]. by apply cursor_out. Qed.

Lemma runs_uartputc h c (Q : unit -> fstate low -> Prop) f : (forall f', polled f f' -> Q tt f') -> runs_in p pid h h (uartputc c) Q f.
Proof.
  intros HQ. unfold uartputc. eapply runs_bind, runs_cons_get. destruct (cn_uart _); cbn [negb]; [|apply runs_ret, HQ, polled_self].
  eapply runs_bind, (runs_mono _ _ _ _ _ (fun _ => polled f)).
  2: { intros _ f' Hf. apply runs_outb, HQ. eapply polled_trans; [done|by apply polled_out]. }
  assert (forall f', polled f f' -> runs_in p pid h h (for_some (seq 0 128) (fun _ : nat =>
    let* st := inb (COM1 + 5) in ret (if has st 32 then Some tt else None))) (fun _ => polled f) f') as Hl; [|apply Hl, polled_self].
  generalize (seq 0 128). intros l. induction l as [|n l IH]; intros f' Hf; simpl; [by apply runs_ret|].
  eapply runs_bind, runs_bind, runs_inb. intros v _ _. apply runs_ret. pose proof (polled_trans _ _ _ Hf (polled_in f' (COM1 + 5) v)).
  destruct (has v 32); [by apply runs_ret|by apply IH].
Qed.

(** The screen changed, with its cursor, and nothing else. *)
Definition drew (f f' : fstate low) : Prop :=
  exists crt d, f' = put_dev (put_cons f (set_cn_crt crt (cons_of f))) d /\ on_screen d.

Lemma drew_self f : on_screen (dev_of f) -> drew f f.
Proof.
  intros Ho. exists (cn_crt (cons_of f)), (dev_of f). split; [|done]. unfold put_dev, put_cons, cons_of, set_cn_crt, dev_of.
  by destruct f as [? ? ? [? ? ? ? ? ? ? ? ? [] ?]].
Qed.

(** The cursor after a character, before and after scrolling. *)
Definition advanced (c pos : Z) : Z :=
  if c =? newline then pos + (80 - pos mod 80) else if c =? BACKSPACE then if pos >? 0 then pos - 1 else pos else pos + 1.
Definition scrolled (pos : Z) : Z := if pos / 80 >=? 24 then pos - 80 else pos.

Lemma advanced_range c pos : 0 <= pos < 24 * 80 -> 0 <= advanced c pos <= 24 * 80.
Proof. intros Hp. unfold advanced. repeat case_match; bool_to_prop; Z.div_mod_to_equations; lia. Qed.
Lemma scrolled_range pos : 0 <= pos <= 24 * 80 -> 0 <= scrolled pos < 24 * 80.
Proof.
  intros Hp. unfold scrolled. destruct (pos / 80 >=? 24) eqn:E; rewrite Z.geb_leb in E; bool_to_prop; Z.div_mod_to_equations; lia.
Qed.

Lemma runs_cgaputc h c (Q : unit -> fstate low -> Prop) f : on_screen (dev_of f) -> (forall f', drew f f' -> Q tt f') ->
  runs_in p pid h h (cgaputc c) Q f.
Proof.
  intros Ho HQ. unfold cgaputc. eapply runs_bind, runs_outb, runs_bind, runs_inb. intros hi _ Ehi. specialize (Ehi eq_refl).
  eapply runs_bind, runs_outb, runs_bind, runs_inb. intros lo _ Elo. specialize (Elo eq_refl).
  assert (Z.lor (Z.shiftl hi 8) lo = cursor (dev_of f)) as -> by by rewrite Ehi, Elo.
  set (f1 := put_dev _ (EvIn _ lo :: _)). clear Ehi Elo. set (pos := cursor (dev_of f)).
  assert (exists d, f1 = put_dev (put_cons f (set_cn_crt (cn_crt (cons_of f)) (cons_of f))) d) as [d1 E1].
  { eexists. unfold f1, put_cons, put_dev, cons_of, set_cn_crt. destruct f as [? ? ? [? ? ? ? ? ? ? ? ? [] ?]]. reflexivity. }
  clearbody f1. pose proof (advanced_range c pos Ho) as Ha. pose proof (scrolled_range _ Ha) as Hs.
  eapply runs_bind, (runs_mono _ _ _ _ _ (fun pos' f' => pos' = advanced c pos /\ exists crt, f' = put_dev (put_cons f (set_cn_crt crt (cons_of f))) d1)).
  { unfold advanced. destruct (c =? newline); [|destruct (c =? BACKSPACE)]; [apply runs_ret; eauto..|].
    eapply runs_bind, runs_cons_upd, runs_ret. split; [done|]. rewrite E1. by eexists. }
  intros pos' f2 [-> [crt2 ->]]. rewrite (proj2 (Z.ltb_ge _ _)), Z.gtb_ltb, (proj2 (Z.ltb_ge _ _)) by lia. cbn [orb].
  eapply runs_bind, (runs_mono _ _ _ _ _ (fun pos' f' => pos' = scrolled (advanced c pos) /\ exists crt, f' = put_dev (put_cons f (set_cn_crt crt (cons_of f))) d1)).
  { unfold scrolled. destruct (_ >=? _); [|apply runs_ret; eauto]. eapply runs_bind, runs_cons_upd, runs_ret. split; [done|]. by eexists. }
  intros pos' f3 [-> [crt3 ->]]. do 4 (eapply runs_bind, runs_outb). apply runs_cons_upd, HQ. eexists _, _. split; [reflexivity|].
  pose proof (cursor_set _ d1 Hs) as Ec. unfold on_screen. by rewrite <- Ec in Hs at 1 2.
Qed.

Lemma runs_consputc h c (Q : unit -> fstate low -> Prop) f : cn_panicked (cons_of f) = false -> on_screen (dev_of f) ->
  (forall f', drew f f' -> Q tt f') -> runs_in p pid h h (consputc c) Q f.
Proof.
  intros Hp Ho HQ. unfold consputc. eapply runs_bind, runs_cons_get. rewrite Hp.
  eapply runs_bind, (runs_mono _ _ _ _ _ (fun _ => polled f)).
  - destruct (c =? BACKSPACE); [|by apply runs_uartputc]. eapply runs_bind, runs_uartputc. intros f1 H1.
    eapply runs_bind, runs_uartputc. intros f2 H2. apply runs_uartputc. eauto using polled_trans.
  - intros _ f1 (d & -> & E). apply runs_cgaputc; [unfold on_screen; change (dev_of (put_dev f d)) with d; by rewrite E|].
    intros f' (crt & d' & -> & Hd). apply HQ. exists crt, d'. done.
Qed.

(** ** Keys *)

(** The input buffer is [i] now; the rest is as in [f], but for the screen. *)
Definition typed (f : fstate low) (i : input) (f' : fstate low) : Prop :=
  exists crt d, f' = put_dev (put_cons f (set_cn_crt crt (set_cn_input i (cons_of f)))) d /\ on_screen d.

Lemma typed_drew f i f1 f2 : typed f i f1 -> drew f1 f2 -> typed f i f2.
Proof. intros (crt1 & d1 & -> & _) (crt2 & d2 & -> & Hd). by exists crt2, d2. Qed.
Lemma typed_set f i f1 g : typed f i f1 -> typed f (g i) (put_cons f1 (set_input g (cons_of f1))).
Proof. intros (crt & d & -> & Hd). by exists crt, d. Qed.
Lemma typed_self f : on_screen (dev_of f) -> typed f (cn_input (cons_of f)) f.
Proof. intros (crt & d & E & Hd)%drew_self. exists crt, d. split; [|done]. etransitivity; [exact E|]. reflexivity. Qed.
Lemma typed_input f i f' : typed f i f' -> cn_input (cons_of f') = i /\ cn_panicked (cons_of f') = cn_panicked (cons_of f).
Proof. by intros (crt & d & -> & _). Qed.
Lemma typed_screen f i f' : typed f i f' -> on_screen (dev_of f').
Proof. by intros (crt & d & -> & Hd). Qed.

Notation lk := (Some Lcons).

(** Erasing the line. *)
Lemma runs_kill_line f ready : cn_panicked (cons_of f) = false -> forall edit f1 i, typed f i f1 ->
  shows i (mkLines ready edit) -> newline ∉ edit ->
  runs_in p pid lk lk (kill_line (S (length edit))) (fun _ f' => exists i', typed f i' f' /\ shows i' (mkLines ready [])) f1.
Proof.
  intros Hp. induction edit as [|c edit IH] using rev_ind; intros f1 i Ht Hs Hn; destruct (typed_input _ _ _ Ht) as [Ei Ep].
  - cbn [length kill_line]. eapply runs_bind, runs_cons_get. rewrite Ei, (shows_no_edit _ _ _ Hs). apply runs_ret. by exists i.
  - rewrite length_app, Nat.add_1_r. cbn [kill_line]. eapply runs_bind, runs_cons_get. rewrite Ei, (shows_no_edit _ _ _ Hs).
    destruct (shows_back _ _ _ _ Hs) as [Eb Hs']. rewrite bool_decide_eq_false_2 by (by destruct edit). rewrite Eb.
    rewrite (proj2 (Z.eqb_neq c newline)) by (intros ->; apply Hn, elem_of_app; right; by left). cbn [negb andb].
    eapply runs_bind, runs_cons_upd. pose proof (typed_set _ _ _ (fun i => set_in_e (u32 (in_e i - 1)) i) Ht) as Ht1. simpl in Ht1.
    eapply runs_bind, runs_consputc; [by rewrite (proj2 (typed_input _ _ _ Ht1)), Hp|by eapply typed_screen|]. intros f2 Hd.
    eapply IH; [by eapply typed_drew|exact Hs'|]. intros Hx. apply Hn, elem_of_app. by left.
Qed.

(** The state after the keys so far. *)
Definition shown (f : fstate low) (l : lines) (f' : fstate low) : Prop :=
  newline ∉ ln_edit l /\ exists i, typed f i f' /\ shows i l.

(** A character that is put into the line. *)
Lemma runs_type f x ready edit i f1 : cn_panicked (cons_of f) = false -> u8 x = x -> typed f i f1 ->
  shows i (mkLines ready edit) -> newline ∉ edit -> Z.of_nat (length (ready ++ edit)) < INPUT_BUF ->
  runs_in p pid lk lk
    (cons_upd (set_input (fun i =>
       set_in_e (u32 (in_e i + 1)) (set_in_buf (upd (in_buf i) (in_e i mod INPUT_BUF) (u8 x)) i))) ;;;
     consputc x ;;;
     let* s := cons_get in
     when ((x =? newline) || (x =? C_D) || (in_e (cn_input s) =? u32 (in_r (cn_input s) + INPUT_BUF)))
       (cons_upd (set_input (fun i => set_in_w (in_e i) i)) ;;;
        onk (wakeup (Some ChInput))))
    (fun _ => shown f (if ends_line x || bool_decide (length (ready ++ edit ++ [x]) = Z.to_nat INPUT_BUF)
                       then mkLines (ready ++ edit ++ [x]) [] else mkLines ready (edit ++ [x]))) f1.
Proof.
  intros Hp Ex Ht Hs Hn Hlt. eapply runs_bind, runs_cons_upd. rewrite Ex.
  pose proof (typed_set _ _ _ (fun i => set_in_e (u32 (in_e i + 1)) (set_in_buf (upd (in_buf i) (in_e i mod INPUT_BUF) x) i)) Ht) as Ht1.
  simpl in Ht1. pose proof (shows_push _ _ _ Hs x Hlt) as Hs1. set (i1 := set_in_e _ (set_in_buf _ i)) in *.
  eapply runs_bind, runs_consputc; [by rewrite (proj2 (typed_input _ _ _ Ht1)), Hp|by eapply typed_screen|]. intros f2 Hd.
  pose proof (typed_drew _ _ _ _ Ht1 Hd) as Ht2. destruct (typed_input _ _ _ Ht2) as [Ei2 _].
  eapply runs_bind, runs_cons_get. rewrite Ei2, (shows_full _ _ _ Hs1). fold (ends_line x).
  destruct (ends_line x || _) eqn:El; cbn [when].
  - eapply runs_bind, runs_cons_upd. pose proof (typed_set _ _ _ (fun i => set_in_w (in_e i) i) Ht2) as Ht3. simpl in Ht3.
    apply runs_wakeup; [done|]. split; [apply not_elem_of_nil|].
    exists (set_in_w (in_e i1) i1). split; [done|]. apply (shows_commit _ _ _ Hs1).
  - apply runs_ret. split; [|by exists i1]. simpl.
    apply orb_false_iff in El as [El _]. unfold ends_line in El. apply orb_false_iff in El as [El _]. apply Z.eqb_neq in El.
    intros [Hx|Hx%list_elem_of_singleton]%elem_of_app; [done|congruence].
Qed.

Lemma runs_char f c l f1 : cn_panicked (cons_of f) = false -> 0 <= c < 256 -> shown f l f1 ->
  runs_in p pid lk lk (consoleintr_char c) (fun _ => shown f (key c l)) f1.
Proof.
  intros Hp Hc (Hn & i & Ht & Hs). destruct (typed_input _ _ _ Ht) as [Ei Ep]. destruct l as [ready edit]. simpl in Hn.
  unfold consoleintr_char, key. cbn [ln_ready ln_edit].
  destruct (c =? C_P). { apply runs_ret. by split; [|exists i]. }
  destruct (c =? C_U).
  { eapply runs_bind, runs_cons_get. rewrite Ei, (shows_typed _ _ _ Hs), Nat2Z.id. eapply runs_bind, runs_mono;
      [by apply (runs_kill_line f ready Hp edit f1 i)|]. intros u f2 (i' & Ht' & Hs'). apply runs_ret.
    split; [apply not_elem_of_nil|by exists i']. }
  destruct ((c =? C_H) || (c =? 127)).
  { eapply runs_bind, runs_cons_get. rewrite Ei, (shows_no_edit _ _ _ Hs). destruct edit as [|x edit _] using rev_ind.
    { eapply runs_bind, runs_ret, runs_ret. by split; [|exists i]. }
    rewrite bool_decide_eq_false_2 by (by destruct edit). rewrite removelast_last. destruct (shows_back _ _ _ _ Hs) as [_ Hs'].
    eapply runs_bind, runs_bind, runs_cons_upd. pose proof (typed_set _ _ _ (fun i => set_in_e (u32 (in_e i - 1)) i) Ht) as Ht1. simpl in Ht1.
    eapply runs_consputc; [by rewrite (proj2 (typed_input _ _ _ Ht1)), Hp|by eapply typed_screen|]. intros f2 Hd. apply runs_ret.
    split; [intros Hx; apply Hn, elem_of_app; by left|]. eexists. split; [by eapply typed_drew|done]. }
  eapply runs_bind, runs_cons_get. rewrite Ei, (shows_used _ _ _ Hs). pose proof (sh_len _ _ Hs) as Hlen. simpl in Hlen.
  assert ((negb (c =? 0) && (Z.of_nat (length (ready ++ edit)) <? INPUT_BUF)) =
    negb ((c =? 0) || bool_decide (length (ready ++ edit) = Z.to_nat INPUT_BUF))) as ->.
  { rewrite negb_orb. f_equal. destruct (Z.ltb_spec (Z.of_nat (length (ready ++ edit))) INPUT_BUF); symmetry.
    - rewrite negb_true_iff, bool_decide_eq_false. unfold INPUT_BUF in *. lia.
    - rewrite negb_false_iff, bool_decide_eq_true. unfold INPUT_BUF in *. lia. }
  destruct ((c =? 0) || _) eqn:Ef; cbn [negb].
  { eapply runs_bind, runs_ret, runs_ret. by split; [|exists i]. }
  apply orb_false_iff in Ef as [_ Ef]. apply bool_decide_eq_false in Ef.
  assert (Z.of_nat (length (ready ++ edit)) < INPUT_BUF) as Hlt by (unfold INPUT_BUF in *; lia).
  set (x := if c =? 13 then newline else c). assert (u8 x = x) as Ex.
  { apply u8_small. unfold x, newline. destruct (c =? 13); lia. }
  cbn [when]. eapply runs_bind, runs_mono; [by apply (runs_type f x ready edit i)|]. intros u f2 Hsh. by apply runs_ret.
Qed.

Lemma runs_keys f cs : cn_panicked (cons_of f) = false -> forall l f1, Forall (fun c => 0 <= c < 256) cs -> shown f l f1 ->
  runs_in p pid lk lk (foreach cs (fun c => consoleintr_char c ;;; ret tt)) (fun _ => shown f (foldl (fun l c => key c l) l cs)) f1.
Proof.
  intros Hp. induction cs as [|c cs IH]; intros l f1 Hcs Hl; simpl; [by apply runs_ret|].
  apply Forall_cons in Hcs as [Hc Hcs]. eapply runs_bind, runs_bind, runs_mono; [by apply (runs_char f)|].
  intros u f2 Hl2. apply runs_ret. by apply IH.
Qed.

(** ** Reading *)

Section read.
Context `{Symbols} `{BlockDev} (ip : nat).

Definition ino_of (f : fstate low) : inode := l_inode (fs_low f) ip.

Lemma runs_ino_of h (Q : inode -> fstate low -> Prop) f : Q (ino_of f) f -> runs_in p pid h h (ino_get ip) Q f.
Proof. apply (runs_low_get p pid h (fun l => l_inode l ip)). Qed.

Lemma runs_iunlock_held f (Q : unit -> fstate low -> Prop) : fs_sleep f (SLinode ip) = mkSleep true pid -> 1 <= i_ref (ino_of f) ->
  Q tt (put_sleep f (SLinode ip) (mkSleep false 0)) -> runs p pid (iunlock (Some ip)) Q f.
Proof.
  intros Hs Hr HQ. unfold iunlock. eapply runs_bind, runs_holdingsleep; [done|]. cbn [negb]. eapply runs_bind, runs_ino_of.
  rewrite (proj2 (Z.ltb_ge _ _)) by done. by apply runs_releasesleep.
Qed.

Lemma runs_ilock_valid f (Q : unit -> fstate low -> Prop) : sl_locked (fs_sleep f (SLinode ip)) = false -> 1 <= i_ref (ino_of f) ->
  i_valid (ino_of f) = true -> Q tt (put_sleep f (SLinode ip) (mkSleep true pid)) -> runs p pid (ilock (Some ip)) Q f.
Proof.
  intros Hs Hr Hv HQ. unfold ilock. eapply runs_bind, runs_ino_of. rewrite (proj2 (Z.ltb_ge _ _)) by done.
  eapply runs_bind, runs_acquiresleep; [done|]. eapply runs_bind, runs_ino_of. change (ino_of (put_sleep f _ _)) with (ino_of f).
  rewrite Hv. by apply runs_ret.
Qed.

(** The inode is unlocked; it can be locked again at once. *)
Record idle_inode (f : fstate low) : Prop := {
  id_lock : sl_locked (fs_sleep f (SLinode ip)) = false;
  id_ref : 1 <= i_ref (ino_of f);
  id_valid : i_valid (ino_of f) = true;
}.

Definition append (dst bs : list Z) : M W (list Z) := ret (dst ++ bs).

Definition read_post (d : list event) (dst bs rest edit : list Z) (left target : Z) (r : Z * list Z) (f' : fstate low) : Prop :=
  r = (s32 (target - left), dst ++ bs) /\ shows (cn_input (cons_of f')) (mkLines rest edit) /\ dev_of f' = d.

Lemma runs_read_end f d dst n target rest edit : dev_of f = d -> idle_inode f -> shows (cn_input (cons_of f)) (mkLines rest edit) ->
  runs_in p pid lk None (consoleread_end ip dst n target) (read_post d dst [] rest edit n target) f.
Proof.
  intros Hd [Hi1 Hi2 Hi3] Hs. unfold consoleread_end. eapply runs_bind, runs_wrelease, runs_bind, runs_ilock_valid; [done..|].
  apply runs_ret. split; [by rewrite app_nil_r|done].
Qed.

Lemma runs_read_loop n0 edit bs rest : forall n ready f dst, idle_inode f -> shows (cn_input (cons_of f)) (mkLines ready edit) ->
  (n <= n0)%nat -> Z.of_nat n0 < 2 ^ 31 -> read_line n (bool_decide (n < n0)%nat) ready = Some (bs, rest) ->
  runs_in p pid lk None (consoleread_loop append (S n) ip dst (Z.of_nat n) (Z.of_nat n0))
    (read_post (dev_of f) dst bs rest edit (Z.of_nat n - Z.of_nat (length bs)) (Z.of_nat n0)) f.
Proof.
  revert bs. intros bs n. revert bs. induction n as [|n IH]; intros bs ready f dst Hi Hs Hle Hn0 Hr.
  - simpl in Hr. injection Hr as <- <-. by apply runs_read_end.
  - cbn [consoleread_loop]. rewrite (proj2 (Z.gtb_lt _ _)) by lia. eapply runs_bind, runs_cons_get. rewrite (shows_no_ready _ _ _ Hs).
    destruct ready as [|c ready]; [done|]. rewrite bool_decide_eq_false_2 by done.
    destruct (shows_take _ _ _ Hs c ready eq_refl) as [Ec Hs1]. rewrite Ec. eapply runs_bind, runs_cons_upd.
    set (f1 := put_cons f _). assert (idle_inode f1) as Hi1 by (by destruct Hi). simpl in Hr. destruct (c =? C_D).
    + injection Hr as <- <-. eapply runs_bind. rewrite u32_small by lia.
      destruct (Z.ltb_spec (Z.of_nat (S n)) (Z.of_nat n0)) as [Hlt|Hge].
      * rewrite bool_decide_eq_true_2 by lia. apply runs_cons_upd, runs_read_end; [done|by destruct Hi|].
        unfold f1, set_input, cons_of, put_cons. simpl. unfold cons_of in Hs. set (i := cn_input (l_cons (fs_low f))) in *.
        pose proof (sh_r _ _ Hs). rewrite u32_sub, Z.add_simpl_r, u32_small by done. by destruct i.
      * rewrite bool_decide_eq_false_2 by lia. apply runs_ret, runs_read_end; done.
    + eapply runs_bind, runs_ret. destruct (c =? newline).
      * injection Hr as <- <-. replace (Z.of_nat (S n) - Z.of_nat (length [c])) with (Z.of_nat (S n) - 1) by (simpl; lia).
        eapply runs_mono; [by apply (runs_read_end f1 (dev_of f))|]. intros r f' (-> & Hs' & Hd). split; [by rewrite app_nil_r|done].
      * destruct (read_line n true ready) as [[bs' rest']|] eqn:Er; [|done]. injection Hr as <- <-.
        replace (Z.of_nat (S n) - 1) with (Z.of_nat n) by lia. eapply runs_mono.
        { apply (IH bs' ready f1); try done; [lia|]. by rewrite bool_decide_eq_true_2 by lia. }
        intros r f' (-> & Hs' & Hd). split; [|done]. rewrite <- app_assoc. simpl. do 2 f_equal. lia.
Qed.

(** C29. The line discipline of the console: whatever keys are typed, with
    backspace and kill line, and whatever the indices of the ring buffer, the interrupt and a read
    of the console return, and the read gives the bytes that the abstract line editor has ready, up to
    a line end, an end of file or the number asked for, and leaves the rest.  If the cursor of the screen
    is on its first 24 lines, it stays there, so the screen does not panic. *)
Theorem console_line_discipline f l cs n bs rest : let l' := foldl (fun l c => key c l) l cs in
  cn_panicked (cons_of f) = false -> on_screen (dev_of f) -> shows (cn_input (cons_of f)) l -> newline ∉ ln_edit l ->
  Forall (fun c => 0 <= c < 256) cs ->
  fs_sleep f (SLinode ip) = mkSleep true pid -> 1 <= i_ref (ino_of f) -> i_valid (ino_of f) = true ->
  Z.of_nat n < 2 ^ 31 -> read_line n false (ln_ready l') = Some (bs, rest) ->
  runs_in p pid None None
    (wacquire Lcons ;;; foreach cs (fun c => consoleintr_char c ;;; ret tt) ;;; wrelease Lcons ;;;
     consoleread append [] ip (Z.of_nat n))
    (fun r f' => r = (Z.of_nat (length bs), bs) /\ shows (cn_input (cons_of f')) (mkLines rest (ln_edit l')) /\ on_screen (dev_of f')) f.
Proof.
  intros l' Hp Ho Hs Hn Hcs Hl Hr Hv Hn31 Hread. eapply runs_bind, runs_wacquire, runs_bind, runs_mono.
  { apply (runs_keys f cs Hp l f Hcs). split; [done|]. eexists. split; [by apply typed_self|done]. }
  intros u f1 (_ & i & Ht & Hs1). fold l' in Hs1. destruct (typed_input _ _ _ Ht) as [Ei _].
  assert (fs_sleep f1 = fs_sleep f /\ ino_of f1 = ino_of f) as [Esl Ein] by (by destruct Ht as (crt & d & -> & _)).
  pose proof (typed_screen _ _ _ Ht) as Ho1.
  eapply runs_bind, runs_wrelease. unfold consoleread. eapply runs_bind, runs_iunlock_held; [by rewrite Esl|by rewrite Ein|].
  eapply runs_bind, runs_wacquire. rewrite Nat2Z.id, u32_small by lia.
  set (f2 := put_sleep _ _ _). assert (idle_inode f2) as Hid.
  { split; [simpl; by rewrite upd_eq|by change (ino_of f2) with (ino_of f1); rewrite Ein..]. }
  destruct l' as [ready edit]. rewrite <- Ei in Hs1.
  pose proof (read_line_length _ _ _ _ _ Hread) as Hb.
  eapply runs_mono; [apply (runs_read_loop n edit bs rest n ready f2 [] Hid); try done|].
  - by rewrite bool_decide_eq_false_2 by lia.
  - intros r f' (-> & Hs' & Hd). split_and!; [simpl; f_equal; rewrite s32_small; lia|done|]. unfold on_screen. rewrite Hd. exact Ho1.
Qed.
End read.
End run.
