(* ===== verification/Umalloc.v ===== *)
(** * The memory allocator of user programs (user/umalloc.c)

    malloc and free of Kernighan and Ritchie: a circular list of free blocks
    ordered by address, with its headers in the memory of the process.  The memory
    is the byte memory below the break [h_sz]; an access at or above the break is a fault: the
    kernel kills the process for it, unless it happens to meet the rest of the last page.  [base] is the address of the static header. *)
From S2P Require Import Prelude Machine StringC.

(** The memory of the process, the static variable freep, and the break. *)
Record uheap := mkHeap {
  h_mem : mem;
  h_freep : Z;
  h_sz : Z;
}.
Definition set_h_mem (v : mem) (s : uheap) : uheap := mkHeap v (h_freep s) (h_sz s).
Definition set_h_freep (v : Z) (s : uheap) : uheap := mkHeap (h_mem s) v (h_sz s).
Definition set_h_sz (v : Z) (s : uheap) : uheap := mkHeap (h_mem s) (h_freep s) v.

(** A header is the pointer to the next block and the size in units of a header. *)
Definition sizeof_Header : Z := 8.

Definition hld (p : Z) : M uheap Z := fun s =>
  if (0 <=? p) && (p + 4 <=? h_sz s) then Ret (load32 (h_mem s) p) s else Fault.
Definition hst (p v : Z) : M uheap unit := fun s =>
  if (0 <=? p) && (p + 4 <=? h_sz s) then Ret tt (set_h_mem (store32 (h_mem s) p v) s) else Fault.
Definition hptr (p : Z) : M uheap Z := hld p.
Definition hsize (p : Z) : M uheap Z := hld (p + 4).
Definition set_hptr (p v : Z) : M uheap unit := hst p v.
Definition set_hsize (p v : Z) : M uheap unit := hst (p + 4) v.

(** sbrk as sys_sbrk answers it.  For a negative [n] deallocuvm returns the new
    size, or the old one when the sum wraps around.  At size 0 every page of the program is
    gone when growproc fails, its code with them: the program ends there. *)
Definition sbrk (n : Z) : M uheap Z :=
  let* sz := gets h_sz in
  let new := u32 (sz + s32 n) in
  if s32 n >=? 0 then
    if new >=? KERNBASE then ret (u32 (-1)) else modify (set_h_sz new) ;;; ret sz
  else
    let new := if new >=? sz then sz else new in
    if new =? 0 then fault else modify (set_h_sz new) ;;; ret sz.

(** The number of blocks in the list is at most the number of headers below the break. *)
Definition list_fuel (s : uheap) : nat := S (Z.to_nat (h_sz s / sizeof_Header)).

Fixpoint free_scan (fuel : nat) (bp p : Z) : M uheap Z :=
  match fuel with
  | O => out_of_fuel
  | S f =>
    let* nx := hptr p in
    if (bp >? p) && (bp <? nx) then ret p else
    if (p >=? nx) && ((bp >? p) || (bp <? nx)) then ret p else
    free_scan f bp nx
  end.

Definition free (ap : Z) : M uheap unit :=
  let bp := u32 (ap - sizeof_Header) in
  let* p0 := gets h_freep in
  let* fuel := gets list_fuel in
  let* p := free_scan fuel bp p0 in
  let* bs := hsize bp in
  let* nx := hptr p in
  (if u32 (bp + sizeof_Header * bs) =? nx then
     let* ns := hsize nx in
     set_hsize bp (u32 (bs + ns)) ;;;
     let* nn := hptr nx in
     set_hptr bp nn
   else set_hptr bp nx) ;;;
  let* ps := hsize p in
  (if u32 (p + sizeof_Header * ps) =? bp then
     let* bs := hsize bp in
     set_hsize p (u32 (ps + bs)) ;;;
     let* bn := hptr bp in
     set_hptr p bn
   else set_hptr p bp) ;;;
  modify (set_h_freep p).

Definition morecore (nu : Z) : M uheap Z :=
  let nu := if nu <? 4096 then 4096 else nu in
  let* p := sbrk (u32 (nu * sizeof_Header)) in
  if p =? u32 (-1) then ret 0 else
  set_hsize p nu ;;;
  free (u32 (p + sizeof_Header)) ;;;
  gets h_freep.

(** The body of the test [p->s.size >= nunits]: unlink the block or cut its tail off. *)
Definition take_block (nunits prevp p n : Z) : M uheap Z :=
  let* r := (if n =? nunits then
               let* nx := hptr p in set_hptr prevp nx ;;; ret p
             else
               set_hsize p (u32 (n - nunits)) ;;;
               let* n' := hsize p in
               let p := u32 (p + sizeof_Header * n') in
               set_hsize p nunits ;;; ret p) in
  modify (set_h_freep prevp) ;;;
  ret (u32 (r + sizeof_Header)).

Fixpoint malloc_loop (fuel : nat) (nunits prevp p : Z) : M uheap Z :=
  match fuel with
  | O => out_of_fuel
  | S f =>
    let* n := hsize p in
    if n >=? nunits then take_block nunits prevp p n else
    let* fp := gets h_freep in
    if p =? fp then
      let* p := morecore nunits in
      if p =? 0 then ret 0 else
      let* nx := hptr p in
      malloc_loop f nunits p nx
    else
      let* nx := hptr p in
      malloc_loop f nunits p nx
  end.

Definition nunits_of (nbytes : Z) : Z :=
  u32 (u32 (u32 (nbytes + sizeof_Header) - 1) / sizeof_Header + 1).

Section umalloc.
Context (base : Z).

(** The list is searched at most twice: before and after morecore adds one block. *)
Definition malloc (nbytes : Z) : M uheap Z :=
  let nunits := nunits_of nbytes in
  let* fp := gets h_freep in
  when (fp =? 0)
    (modify (set_h_freep base) ;;;
     set_hptr base base ;;;
     set_hsize base 0) ;;;
  let* prevp := gets h_freep in
  let* p := hptr prevp in
  let* fuel := gets list_fuel in
  malloc_loop (fuel + S fuel) nunits prevp p.
End umalloc.
