(* ===== verification/UmallocSpec.v ===== *)
(** * What malloc and free promise

    The free blocks form a ring in address order that starts at the static header;
    the blocks handed out are a map from the address of their header to their
    units.  Each operation is shown to return, to keep the blocks disjoint and to
    leave the contents of all other blocks alone. *)
From S2P Require Import Prelude Machine StringC Umalloc.

(** A block: the address of its header and its size in units. *)
Notation blk := (Z * Z)%type.

(** The bytes of a block; the static header has size 0 but occupies a header. *)
Definition ext (n : Z) : Z := Z.max 8 (8 * n).

Definition nx (l : list blk) (e : Z) : Z := match l with [] => e | (a, _) :: _ => a end.

(** The headers of [l] in memory, each pointing to the next, the last to [e]. *)
Fixpoint ring (m : mem) (l : list blk) (e : Z) : Prop :=
  match l with
  | [] => True
  | (a, n) :: l' => load32 m a = nx l' e /\ load32 m (a + 4) = n /\ ring m l' e
  end.

(** Blocks in ascending order between [lo] and [hi], no two adjacent. *)
Fixpoint asc (lo : Z) (l : list blk) (hi : Z) : Prop :=
  match l with
  | [] => lo <= hi
  | (a, n) :: l' => lo < a /\ 0 <= n /\ asc (a + ext n) l' hi
  end.

(** Two blocks do not overlap. *)
Definition apart (b1 b2 : blk) : Prop := b1.1 + ext b1.2 <= b2.1 \/ b2.1 + ext b2.2 <= b1.1.

Lemma apart_comm b1 b2 : apart b1 b2 -> apart b2 b1.
Proof. unfold apart. tauto. Qed.

Section lists.
Implicit Types (l : list blk) (m : mem).

Lemma ext_ge n : 8 <= ext n.
Proof. unfold ext. lia. Qed.

Lemma nx_app l1 l2 e : nx (l1 ++ l2) e = nx l1 (nx l2 e).
Proof. by destruct l1 as [|[]]. Qed.

Lemma ring_app m l1 l2 e : ring m (l1 ++ l2) e <-> ring m l1 (nx l2 e) /\ ring m l2 e.
Proof.
  induction l1 as [|[a n] l1 IH]; simpl; [tauto|]. rewrite IH, nx_app. tauto.
Qed.

Lemma ring_ext m m' l e :
  (forall a n b, (a, n) ∈ l -> a <= b < a + 8 -> m' b = m b) -> ring m l e -> ring m' l e.
Proof.
  induction l as [|[a n] l IH]; intros Hm; simpl; [done|]. intros (H1 & H2 & Hl).
  rewrite !(load32_ext m' m) by (intros; eapply Hm; [left|lia]).
  split_and!; [done..|]. apply IH; [|done]. intros. eapply Hm; [by right|done].
Qed.

Lemma asc_lo lo lo' l hi : asc lo l hi -> lo' <= lo -> asc lo' l hi.
Proof. destruct l as [|[a n] l]; simpl; [lia|]. intros (?&?&?) ?. split_and!; [lia|done|done]. Qed.

Lemma asc_hi lo l hi hi' : asc lo l hi -> hi <= hi' -> asc lo l hi'.
Proof. revert lo. induction l as [|[a n] l IH]; intros lo; simpl; [lia|]. intros (?&?&?) ?. eauto. Qed.

Lemma asc_le lo l hi : asc lo l hi -> lo <= hi.
Proof.
  revert lo. induction l as [|[a n] l IH]; intros lo; simpl; [done|].
  intros (?&?&H%IH). pose proof (ext_ge n). lia.
Qed.

Lemma asc_app lo l1 l2 hi : asc lo (l1 ++ l2) hi <-> exists mid, asc lo l1 mid /\ asc mid l2 hi.
Proof.
  revert lo. induction l1 as [|[a n] l1 IH]; intros lo; simpl.
  - split; [by exists lo|]. intros (mid & ? & H). by eapply asc_lo.
  - rewrite IH. naive_solver.
Qed.

Lemma asc_elem lo l hi a n : asc lo l hi -> (a, n) ∈ l -> lo < a /\ 0 <= n /\ a + ext n <= hi.
Proof.
  intros H (l1 & l2 & ->)%list_elem_of_split. apply asc_app in H as (mid & H1%asc_le & ? & ? & H2%asc_le). lia.
Qed.

Lemma asc_apart lo l1 b1 l2 hi b : asc lo (l1 ++ b1 :: l2) hi -> b ∈ l1 ++ l2 -> apart b1 b.
Proof.
  destruct b1 as [a1 n1], b as [a n]. unfold apart; simpl. intros (mid & H1 & Ha & _ & H2)%asc_app [Hb|Hb]%elem_of_app.
  - destruct (asc_elem _ _ _ _ _ H1 Hb). lia.
  - destruct (asc_elem _ _ _ _ _ H2 Hb). lia.
Qed.

Lemma asc_length lo l hi : asc lo l hi -> 8 * Z.of_nat (length l) <= hi - lo.
Proof.
  revert lo. induction l as [|[a n] l IH]; intros lo; simpl; [lia|].
  intros (?&?&H%IH). pose proof (ext_ge n). lia.
Qed.

(** A block is in the list at one place only. *)
Lemma asc_unique lo l1 a n l2 k1 n' k2 hi : asc lo (l1 ++ (a, n) :: l2) hi ->
  l1 ++ (a, n) :: l2 = k1 ++ (a, n') :: k2 -> l1 = k1 /\ n = n' /\ l2 = k2.
Proof.
  revert lo k1. induction l1 as [|[b bn] l1 IH]; intros lo [|[c cn] k1] Hasc Heq; simplify_eq/=; [done|..].
  - destruct Hasc as (_ & _ & H). exfalso. apply asc_app in H as (mid & H1%asc_le & ? & _).
    unfold ext in *. lia.
  - destruct Hasc as (_ & _ & H'). exfalso. apply asc_app in H' as (mid & H1%asc_le & ? & _).
    unfold ext in *. lia.
  - edestruct IH as (-> & -> & ->); [apply Hasc|eassumption|done].
Qed.

(** The place of a new block in the list. *)
Lemma asc_place lo l hi a n : asc lo l hi -> (forall b, b ∈ l -> apart b (a, n)) ->
  exists l1 l2, l = l1 ++ l2 /\ (forall c k, (c, k) ∈ l1 -> c + ext k <= a) /\
    (forall c k, (c, k) ∈ l2 -> a + ext n <= c).
Proof.
  revert lo. induction l as [|[c k] l IH]; intros lo Hasc Hap.
  { exists [], []. split_and!; [done|set_solver..]. }
  destruct Hasc as (Hlo & Hk & Hasc). destruct (Hap (c, k)) as [H|H]; [left|..]; simpl in H.
  - destruct (IH _ Hasc) as (l1 & l2 & -> & H1 & H2); [intros; apply Hap; by right|].
    exists ((c, k) :: l1), l2. split_and!; [done| |done]. intros c' k' [[= -> ->]|?]%elem_of_cons; eauto.
  - exists [], ((c, k) :: l). split_and!; [done|set_solver|]. intros c' k' [[= -> ->]|Hc]%elem_of_cons; [done|].
    destruct (asc_elem _ _ _ _ _ Hasc Hc). pose proof (ext_ge k). lia.
Qed.
End lists.

(** ** Accesses to headers *)

Definition in_heap (s : uheap) (p : Z) : Prop := 0 <= p /\ p + 8 <= h_sz s.

Section access.
Implicit Types (s : uheap) (p v : Z).

Lemma hptr_run s p : in_heap s p -> hptr p s = Ret (load32 (h_mem s) p) s.
Proof. intros [? ?]. unfold hptr, hld. by rewrite !(proj2 (Z.leb_le _ _)) by lia. Qed.

Lemma hsize_run s p : in_heap s p -> hsize p s = Ret (load32 (h_mem s) (p + 4)) s.
Proof. intros [? ?]. unfold hsize, hld. by rewrite !(proj2 (Z.leb_le _ _)) by lia. Qed.

Lemma set_hptr_run s p v : in_heap s p -> set_hptr p v s = Ret tt (set_h_mem (store32 (h_mem s) p v) s).
Proof. intros [? ?]. unfold set_hptr, hst. by rewrite !(proj2 (Z.leb_le _ _)) by lia. Qed.

Lemma set_hsize_run s p v :
  in_heap s p -> set_hsize p v s = Ret tt (set_h_mem (store32 (h_mem s) (p + 4) v) s).
Proof. intros [? ?]. unfold set_hsize, hst. by rewrite !(proj2 (Z.leb_le _ _)) by lia. Qed.
End access.

(** Writing a header: only its eight bytes change. *)
Record header_set (m m' : mem) (p nxt n : Z) : Prop := {
  hs_ptr : load32 m' p = nxt;
  hs_size : load32 m' (p + 4) = n;
  hs_other b : b < p \/ p + 8 <= b -> m' b = m b;
}.

Lemma header_set_load m m' p nxt n q : header_set m m' p nxt n -> q + 8 <= p \/ p + 8 <= q ->
  load32 m' q = load32 m q /\ load32 m' (q + 4) = load32 m (q + 4).
Proof. intros [_ _ H] Hq. split; apply load32_ext; intros; apply H; lia. Qed.

Lemma header_set_ptr m p v : 0 <= v < 2 ^ 32 ->
  header_set m (store32 m p v) p v (load32 m (p + 4)).
Proof.
  intros. split; [by rewrite load32_store32_eq, u32_small|rewrite load32_store32_ne by lia; done|].
  intros. apply store32_ne. lia.
Qed.

Lemma header_set_both m p v n : 0 <= v < 2 ^ 32 -> 0 <= n < 2 ^ 32 ->
  header_set m (store32 (store32 m (p + 4) n) p v) p v n.
Proof.
  intros. split.
  - by rewrite load32_store32_eq, u32_small.
  - by rewrite load32_store32_ne, load32_store32_eq, u32_small by lia.
  - intros. rewrite !store32_ne by lia. done.
Qed.

Lemma ring_header m m' p nxt n l e : header_set m m' p nxt n ->
  (forall a k, (a, k) ∈ l -> a + 8 <= p \/ p + 8 <= a) -> ring m l e -> ring m' l e.
Proof. intros [_ _ H] Hl. apply ring_ext. intros a k b Ha Hb. apply H. destruct (Hl a k Ha); lia. Qed.

(** ** Joining blocks *)

(** What follows the freed block: it swallows an adjacent successor. *)
Definition join_right (bp n : Z) (post : list blk) : Z * list blk :=
  match post with
  | (a, k) :: post' => if bp + 8 * n =? a then (n + k, post') else (n, post)
  | [] => (n, [])
  end.

(** And an adjacent predecessor swallows it. *)
Definition join_left (p pn bp k : Z) : list blk :=
  if p + 8 * pn =? bp then [(p, pn + k)] else [(p, pn); (bp, k)].

Definition units (l : list blk) : Z := foldr (fun b z => b.2 + z) 0 l.

Lemma units_app l1 l2 : units (l1 ++ l2) = units l1 + units l2.
Proof. induction l1 as [|b l1 IH]; simpl; [done|]. rewrite IH. lia. Qed.

Lemma join_right_spec lo bp n post hi : 1 <= n -> lo < bp -> asc lo post hi -> bp + 8 * n <= hi ->
  (forall c k, (c, k) ∈ post -> bp + ext n <= c) ->
  let k := (join_right bp n post).1 in let post' := (join_right bp n post).2 in
  n <= k /\ asc (bp + ext k) post' hi /\ k + units post' = n + units post /\
  (length post' <= length post)%nat /\ forall b, b ∈ post' -> b ∈ post.
Proof.
  intros Hn Hlo Hasc Hhi Hpost. unfold join_right. destruct post as [|[a k] post]; simpl in *.
  - split_and!; [lia|unfold ext; lia|lia|lia|done].
  - destruct Hasc as (Ha & Hk & Hasc). specialize (Hpost a k ltac:(left)).
    destruct (bp + 8 * n =? a) eqn:E; bool_to_prop; simpl.
    + split_and!; [lia| |lia|lia|intros; by right].
      eapply asc_lo; [done|]. unfold ext in *. lia.
    + split_and!; [lia|unfold ext in *; lia|done|done|lia|lia|done].
Qed.

Section spec.
Context (base : Z).
Implicit Types (s : uheap) (fr : list blk) (al : gmap Z Z).

Definition free_list (fr : list blk) : list blk := (base, 0) :: fr.

(** The heap after the first malloc. *)
Record heap_ok s fr al : Prop := {
  ho_ring : ring (h_mem s) (free_list fr) base;
  ho_pos b : b ∈ fr -> 1 <= b.2;
  ho_asc : asc (base - 1) (free_list fr) (h_sz s);
  ho_freep : h_freep s ∈ (free_list fr).*1;
  ho_size a n : al !! a = Some n -> 1 <= n /\ base + 8 < a /\ a + 8 * n <= h_sz s /\
    load32 (h_mem s) (a + 4) = n;
  ho_free a n b : al !! a = Some n -> b ∈ free_list fr -> apart b (a, n);
  ho_live a n a' n' : al !! a = Some n -> al !! a' = Some n' -> a <> a' -> apart (a, n) (a', n');
  ho_base : 0 < base;
  ho_top : base + 8 < h_sz s < KERNBASE;
}.

(** ** The search for the place of a block *)

Lemma asc_in_heap lo l s a n : asc lo l (h_sz s) -> 0 <= lo + 1 -> (a, n) ∈ l -> in_heap s a.
Proof. intros H Hlo Ha. destruct (asc_elem _ _ _ _ _ H Ha). pose proof (ext_ge n). split; lia. Qed.

(** From a block before the place: the search goes on to the last block below [bp]. *)
Lemma scan_below s bp fuel : forall seg p pn post lo,
  0 <= lo + 1 -> base <= lo + 1 -> ring (h_mem s) (seg ++ (p, pn) :: post) base ->
  asc lo (seg ++ (p, pn) :: post) (h_sz s) ->
  p < bp -> base < bp -> (forall c k, (c, k) ∈ post -> bp < c) -> (length seg < fuel)%nat ->
  free_scan fuel bp (nx (seg ++ [(p, pn)]) 0) s = Ret p s.
Proof.
  induction fuel as [|fuel IH]; intros seg p pn post lo Hlo Hb Hr Ha Hp Hbb Hpost Hf; [lia|].
  destruct seg as [|[x xn] seg]; simpl in *.
  - destruct Hr as (Hnx & _). rewrite (bind_Ret _ _ s _ s (hptr_run s p (asc_in_heap _ ((p, pn) :: post) s p pn Ha Hlo ltac:(left)))).
    rewrite Hnx. destruct post as [|[c k] post]; simpl.
    + assert (bp <? base = false) as -> by (apply Z.ltb_ge; lia).
      assert (bp >? p = true) as -> by (apply Z.gtb_lt; lia).
      assert (p >=? base = true) as -> by (apply Z.geb_le; lia). done.
    + specialize (Hpost c k ltac:(left)). assert (bp >? p = true) as -> by (apply Z.gtb_lt; lia).
      by assert (bp <? c = true) as -> by (apply Z.ltb_lt; lia).
  - destruct Hr as (Hnx & _ & Hr). pose proof Ha as (Hx & Hxn & Ha').
    rewrite (bind_Ret _ _ s _ s (hptr_run s x (asc_in_heap _ ((x, xn) :: _) s x xn Ha Hlo ltac:(left)))).
    assert (x < nx (seg ++ [(p, pn)]) 0 <= p) as Hy.
    { pose proof (ext_ge xn). destruct seg as [|[y yn] seg]; simpl in *; [lia|].
      destruct Ha' as (? & ? & (mid & ?%asc_le & ? & _)%asc_app). pose proof (ext_ge yn). lia. }
    rewrite Hnx. assert (nx (seg ++ (p, pn) :: post) base = nx (seg ++ [(p, pn)]) 0) as -> by by destruct seg as [|[]].
    assert (bp <? nx (seg ++ [(p, pn)]) 0 = false) as -> by (apply Z.ltb_ge; lia).
    assert (x >=? nx (seg ++ [(p, pn)]) 0 = false) as -> by (rewrite Z.geb_leb; apply Z.leb_gt; lia).
    rewrite andb_false_r. simpl. pose proof (ext_ge xn).
    eapply (IH seg p pn post (x + ext xn)); eauto; lia.
Qed.

(** From a block after the place: the search reaches the end of the list and wraps around. *)
Lemma scan_above s bp fuel : forall seg x xn lo,
  0 <= lo + 1 -> base <= lo -> ring (h_mem s) ((x, xn) :: seg) base ->
  asc lo ((x, xn) :: seg) (h_sz s) -> bp <= lo -> base < bp -> (length seg < fuel)%nat ->
  free_scan fuel bp x s = free_scan (fuel - S (length seg)) bp base s.
Proof.
  induction fuel as [|fuel IH]; intros seg x xn lo Hlo Hb Hr Ha Hbp Hbb Hf; [lia|]. simpl.
  destruct Hr as (Hnx & _ & Hr). pose proof Ha as (Hx & Hxn & Ha').
  rewrite (bind_Ret _ _ s _ s (hptr_run s x (asc_in_heap _ ((x, xn) :: _) s x xn Ha Hlo ltac:(left)))).
  assert (bp >? x = false) as -> by (rewrite Z.gtb_ltb; apply Z.ltb_ge; lia). simpl. rewrite Hnx.
  pose proof (ext_ge xn). destruct seg as [|[y yn] seg]; simpl in *.
  - assert (bp <? base = false) as -> by (apply Z.ltb_ge; lia). rewrite andb_false_r. by rewrite Nat.sub_0_r.
  - assert (x >=? y = false) as -> by (rewrite Z.geb_leb; apply Z.leb_gt; lia). simpl.
    eapply (IH seg y yn (x + ext xn)); [lia..|done|done|lia|lia|lia].
Qed.

Lemma free_scan_run s fr al bp pre p pn post fuel :
  heap_ok s fr al -> free_list fr = pre ++ (p, pn) :: post -> p < bp -> base < bp ->
  (forall c k, (c, k) ∈ post -> bp < c) -> (length (free_list fr) <= fuel)%nat ->
  free_scan fuel bp (h_freep s) s = Ret p s.
Proof.
  intros Hok HL Hp Hb Hpost Hfuel. pose proof (ho_base _ _ _ Hok) as H0.
  destruct Hok as [Hr _ Ha Hfp _ _ _ _ _]. rewrite HL in *.
  apply list_elem_of_fmap in Hfp as ([x xn] & -> & Hx). rewrite length_app in Hfuel; simpl in *.
  assert (nx (pre ++ [(p, pn)]) 0 = base) as Hbase.
  { unfold free_list in HL. destruct pre as [|[c k] pre]; simpl in *; congruence. }
  assert (forall f, (length pre < f)%nat -> free_scan f bp base s = Ret p s) as Hfrom.
  { intros f Hf. rewrite <- Hbase. eapply (scan_below s bp f pre p pn post (base - 1)); eauto; lia. }
  rewrite (cons_middle (p, pn) pre post), app_assoc in Hx, Hr, Ha.
  apply elem_of_app in Hx as [Hx|Hx].
  - assert (exists seg1 seg2, pre ++ [(p, pn)] = seg1 ++ seg2 ++ [(p, pn)] /\
      nx (seg2 ++ [(p, pn)]) 0 = x) as (seg1 & seg2 & Heq & Hnx).
    { apply elem_of_app in Hx as [(l1 & l2 & ->)%list_elem_of_split|[= -> ->]%list_elem_of_singleton].
      - exists l1, ((x, xn) :: l2). by rewrite <- app_assoc.
      - by exists pre, []. }
    rewrite <- Hnx. rewrite Heq, <- !app_assoc in Hr, Ha. apply ring_app in Hr as [_ Hr].
    apply asc_app in Ha as (mid & Hm%asc_le & Ha). simpl in *.
    eapply (scan_below s bp fuel seg2 p pn post mid); eauto; [lia..|].
    apply (f_equal length) in Heq. rewrite !length_app in Heq. simpl in Heq. lia.
  - apply list_elem_of_split in Hx as (l1 & l2 & ->). rewrite app_assoc in Hr, Ha.
    apply ring_app in Hr as [_ Hr]. rewrite <- app_assoc in Ha.
    apply asc_app in Ha as (mid & Hm & Ha). pose proof (asc_le _ _ _ Hm) as Hm'.
    apply asc_app in Ha as (mid2 & Hm2%asc_le & Ha). simpl in Ha.
    rewrite length_app in Hfuel; simpl in Hfuel.
    rewrite (scan_above s bp fuel l2 x xn (Z.max mid2 bp)); try done; [apply Hfrom; lia|..|lia].
    + lia.
    + lia.
    + simpl. destruct Ha as (?&?&?). split_and!; [|done|done].
      specialize (Hpost x xn). rewrite elem_of_app in Hpost. specialize (Hpost ltac:(right; left)). lia.
    + lia.
Qed.
(** ** free *)

Lemma right_run s bp n lo post : 1 <= n -> base < bp -> in_heap s bp -> bp + 8 * n <= h_sz s ->
  0 <= base -> 0 <= lo -> h_sz s < KERNBASE ->
  load32 (h_mem s) (bp + 4) = n -> ring (h_mem s) post base -> asc lo post (h_sz s) ->
  (forall c k, (c, k) ∈ post -> bp + ext n <= c) ->
  exists m1, (if u32 (bp + sizeof_Header * n) =? nx post base then
      let* ns := hsize (nx post base) in
      set_hsize bp (u32 (n + ns)) ;;;
      let* nn := hptr (nx post base) in set_hptr bp nn
    else set_hptr bp (nx post base)) s = Ret tt (set_h_mem m1 s) /\
    header_set (h_mem s) m1 bp (nx (join_right bp n post).2 base) (join_right bp n post).1.
Proof.
  intros Hn Hbp Hin Hend Hb0 Hlo Htop Hsz Hr Ha Hpost. unfold sizeof_Header, KERNBASE in *.
  rewrite u32_small by (destruct Hin; lia). unfold join_right.
  destruct post as [|[a k] post]; simpl.
  { rewrite (proj2 (Z.eqb_neq _ _)) by lia. rewrite set_hptr_run by done. eexists. split; [done|].
    rewrite <- Hsz. apply header_set_ptr. destruct Hin; lia. }
  destruct Hr as (Hnx & Hk & Hr). pose proof Ha as (Hlt & Hk0 & Ha').
  pose proof (asc_in_heap lo ((a, k) :: post) s a k Ha ltac:(lia) ltac:(left)) as Hain.
  pose proof (asc_le _ _ _ Ha') as Hle. pose proof (ext_ge k).
  destruct (bp + 8 * n =? a) eqn:E; bool_to_prop; simpl.
  - step (hsize_run s a Hain). rewrite Hk, u32_small by (unfold ext in *; lia).
    step (set_hsize_run s bp (n + k) Hin).
    set (s1 := set_h_mem _ s). assert (in_heap s1 a) as Hain1 by done. step (hptr_run s1 a Hain1).
    rewrite (set_hptr_run s1 bp _ Hin). eexists. split; [done|]. unfold s1. simpl.
    specialize (Hpost a k ltac:(left)). rewrite load32_store32_ne by (unfold ext in *; lia). rewrite Hnx.
    apply header_set_both; [|unfold ext in *; lia]. rewrite <- Hnx. apply load32_range.
  - rewrite set_hptr_run by done. eexists. split; [done|]. rewrite <- Hsz. apply header_set_ptr. lia.
Qed.

Lemma left_run s bp k p pn nxt : 0 <= k -> 0 <= pn -> in_heap s p -> in_heap s bp -> p + ext pn <= bp ->
  bp + 8 * k <= h_sz s -> h_sz s < KERNBASE -> load32 (h_mem s) p = nxt -> load32 (h_mem s) (p + 4) = pn ->
  load32 (h_mem s) (bp + 4) = k ->
  exists m2, (if u32 (p + sizeof_Header * pn) =? bp then
      let* bs := hsize bp in
      set_hsize p (u32 (pn + bs)) ;;;
      let* bn := hptr bp in set_hptr p bn
    else set_hptr p bp) s = Ret tt (set_h_mem m2 s) /\
    if p + 8 * pn =? bp then header_set (h_mem s) m2 p (load32 (h_mem s) bp) (pn + k)
    else header_set (h_mem s) m2 p bp pn.
Proof.
  intros Hk Hpn Hp Hb Hpb Hend Htop _ Hpsz Hbsz. unfold sizeof_Header, KERNBASE in *. pose proof Hp as [? ?].
  rewrite u32_small by (unfold ext in *; lia).
  destruct (p + 8 * pn =? bp) eqn:E; bool_to_prop.
  - step (hsize_run s bp Hb). rewrite Hbsz, u32_small by lia. step (set_hsize_run s p (pn + k) Hp).
    set (s1 := set_h_mem _ s). assert (in_heap s1 bp) as Hb1 by done. step (hptr_run s1 bp Hb1).
    rewrite (set_hptr_run s1 p _ Hp). eexists. split; [done|]. unfold s1. simpl.
    rewrite load32_store32_ne by (unfold ext in *; lia).
    apply header_set_both; [apply load32_range|lia].
  - rewrite set_hptr_run by done. eexists. split; [done|]. rewrite <- Hpsz. apply header_set_ptr.
    destruct Hb; lia.
Qed.

(** A block whose header was written and that belongs to nobody. *)
Record fresh s fr al (bp n : Z) : Prop := {
  fs_units : 1 <= n;
  fs_lo : base + 8 < bp;
  fs_hi : bp + 8 * n <= h_sz s;
  fs_size : load32 (h_mem s) (bp + 4) = n;
  fs_free b : b ∈ free_list fr -> apart b (bp, n);
  fs_live a k : al !! a = Some k -> apart (a, k) (bp, n);
}.

(** The bytes outside the headers of the free blocks and of [extra] are the same. *)
Definition keeps_data (l : list blk) (m m' : mem) : Prop :=
  forall b, (forall a n, (a, n) ∈ l -> b < a \/ a + 8 <= b) -> m' b = m b.

Lemma apart_join x n1 n2 b : 1 <= n1 -> 0 <= n2 ->
  apart (x, n1) b -> apart (x + 8 * n1, n2) b -> apart (x, n1 + n2) b.
Proof. unfold apart, ext. destruct b as [a n]. simpl. lia. Qed.

Lemma join_right_apart lo bp n post hi b : 1 <= n -> asc lo post hi -> apart (bp, n) b ->
  (forall c, c ∈ post -> apart c b) -> apart (bp, (join_right bp n post).1) b.
Proof.
  intros Hn Ha Hb Hp. unfold join_right. destruct post as [|[a k] post]; [done|].
  destruct (_ =? a) eqn:E; bool_to_prop; [|done]. simpl. destruct Ha as (_ & Hk & _).
  apply apart_join; [done|done|done|]. rewrite E. apply Hp. left.
Qed.

Lemma join_left_apart p pn bp k b c : 1 <= k -> 0 <= pn -> p + ext pn <= bp ->
  apart (p, pn) b -> apart (bp, k) b -> c ∈ join_left p pn bp k -> apart c b.
Proof.
  intros Hk Hpn Hle H1 H2 Hc. unfold join_left in Hc. destruct (_ =? bp) eqn:E; bool_to_prop; [|set_solver].
  apply list_elem_of_singleton in Hc as ->. apply apart_join; [unfold ext in *; lia|lia|done|by rewrite E].
Qed.

Lemma join_left_asc mid p pn bp k post hi : mid < p -> 0 <= pn -> p + ext pn <= bp -> 1 <= k ->
  p + 8 * pn = bp \/ p + ext pn < bp ->
  asc (bp + ext k) post hi -> asc mid (join_left p pn bp k ++ post) hi.
Proof.
  intros Hm Hpn Hle Hk Hst Ha. unfold join_left. destruct (_ =? bp) eqn:E; bool_to_prop; simpl.
  - split_and!; [done|lia|]. eapply asc_lo; [done|]. unfold ext in *. lia.
  - split_and!; [done|done|unfold ext in *; lia|lia|done].
Qed.

Lemma join_left_units p pn bp k : units (join_left p pn bp k) = pn + k.
Proof. unfold join_left. destruct (_ =? bp); simpl; lia. Qed.

(** The headers after free. *)
Lemma join_ring m m1 m2 pre p pn post bp n lo hi : 0 < base ->
  let k := (join_right bp n post).1 in let post' := (join_right bp n post).2 in
  ring m (pre ++ (p, pn) :: post) base -> asc lo (pre ++ (p, pn) :: post) hi -> 1 <= n ->
  p + ext pn <= bp -> (forall c i, (c, i) ∈ post -> bp + ext n <= c) ->
  header_set m m1 bp (nx post' base) k ->
  (if p + 8 * pn =? bp then header_set m1 m2 p (load32 m1 bp) (pn + k) else header_set m1 m2 p bp pn) ->
  ring m2 (pre ++ join_left p pn bp k ++ post') base.
Proof.
  intros Hb0 k post' Hr Ha Hn Hle Hpost H1 H2. pose proof (ext_ge pn).
  apply ring_app in Hr as [Hpre (_ & Hpn & Hr)]. simpl in Hpre.
  apply asc_app in Ha as (mid & Hapre & Hmid & Hpn0 & Ha).
  assert (exists nxt sz, header_set m1 m2 p nxt sz) as (nxt & sz & H2').
  { destruct (_ =? bp); eauto. }
  assert (forall l e, (forall c i, (c, i) ∈ l -> c + 8 <= p \/ bp + 8 <= c) -> ring m l e -> ring m2 l e) as Hkeep.
  { intros l e Hl Hr'. eapply ring_header; [done| |].
    - intros c i Hc. destruct (Hl c i Hc); lia.
    - eapply ring_header; [exact H1| |exact Hr']. intros c i Hc. destruct (Hl c i Hc); lia. }
  assert (ring m2 pre p) as Hpre2.
  { apply Hkeep; [|done]. intros c i Hc. destruct (asc_elem _ _ _ _ _ Hapre Hc). pose proof (ext_ge i). lia. }
  assert (ring m2 post' base) as Hpost2.
  { apply Hkeep.
    - intros c i Hc. assert ((c, i) ∈ post) as Hc'.
      { revert Hc. unfold post', join_right. destruct post as [|[a ak] post0]; [done|].
        destruct (_ =? a); [|done]. simpl. by right. }
      specialize (Hpost c i Hc'). pose proof (ext_ge n). lia.
    - unfold post', join_right. destruct post as [|[a ak] post0]; [done|].
      destruct (_ =? a); [|done]. apply Hr. }
  destruct H1 as [B1 B2 B3]. apply ring_app. unfold join_left.
  destruct (p + 8 * pn =? bp) eqn:E; bool_to_prop; (split; [done|]); simpl.
  - destruct H2 as [P1 P2 _]. rewrite B1 in P1. done.
  - destruct (header_set_load _ _ _ _ _ bp H2 ltac:(lia)) as [-> ->]. destruct H2 as [P1 P2 _]. by split_and!.
Qed.
Lemma fresh_place s fr al bp n : heap_ok s fr al -> fresh s fr al bp n ->
  exists pre p pn post, free_list fr = pre ++ (p, pn) :: post /\ p + ext pn <= bp /\
    (p + 8 * pn = bp \/ p + ext pn < bp) /\ (forall c k, (c, k) ∈ post -> bp + ext n <= c).
Proof.
  intros Hok Hf. destruct (asc_place _ _ _ bp n (ho_asc _ _ _ Hok) (fs_free _ _ _ _ _ Hf))
    as (l1 & post & HL & H1 & H2).
  pose proof (fs_lo _ _ _ _ _ Hf) as Hlo. destruct l1 as [|b l1 _] using rev_ind.
  { destruct post as [|b post]; [done|]. specialize (H2 base 0). simpl in HL. rewrite <- HL in H2.
    specialize (H2 ltac:(left)). pose proof (ext_ge n). lia. }
  destruct b as [p pn]. exists l1, p, pn, post. rewrite <- app_assoc in HL. simpl in HL.
  assert (p + ext pn <= bp) as Hle by (apply H1; set_solver). split_and!; [done|done| |done].
  assert ((p, pn) ∈ free_list fr) as Hp by (rewrite HL; set_solver).
  apply elem_of_cons in Hp as [[= -> ->]|Hp]; [right; unfold ext; simpl; lia|].
  apply (ho_pos _ _ _ Hok) in Hp. simpl in Hp. unfold ext in *. lia.
Qed.

Definition joined pre p pn post bp n : list blk :=
  pre ++ join_left p pn bp (join_right bp n post).1 ++ (join_right bp n post).2.

Lemma joined_elem pre p pn post bp n b : b ∈ joined pre p pn post bp n ->
  b ∈ pre \/ b ∈ join_left p pn bp (join_right bp n post).1 \/ b ∈ post.
Proof.
  unfold joined. rewrite !elem_of_app. intros [?|[?|H]]; [tauto..|]. right; right. revert H.
  unfold join_right. destruct post as [|[a k] post]; [done|]. destruct (_ =? a); [|done]. by right.
Qed.

(** A block apart from the freed block and the free list is apart from the new free list. *)
Lemma joined_apart lo pre p pn post bp n hi b c : 1 <= n -> asc lo (pre ++ (p, pn) :: post) hi ->
  p + ext pn <= bp -> (forall d, d ∈ pre ++ (p, pn) :: post -> apart d c) -> apart (bp, n) c ->
  b ∈ joined pre p pn post bp n -> apart b c.
Proof.
  intros Hn Ha Hle Hall Hc. apply asc_app in Ha as (mid & _ & _ & Hpn & Ha).
  intros [Hb|[Hb|Hb]]%joined_elem; [apply Hall; set_solver| |apply Hall; set_solver].
  assert (1 <= (join_right bp n post).1) as Hk.
  { unfold join_right. destruct post as [|[a k] post]; [done|]. destruct Ha as (_ & ? & _).
    destruct (_ =? a); simpl; lia. }
  eapply join_left_apart; [exact Hk|exact Hpn|exact Hle|apply Hall; set_solver| |exact Hb].
  eapply join_right_apart; [done|done|done|]. intros d Hd. apply Hall. set_solver.
Qed.

Lemma joined_head pre p pn post bp n fr : free_list fr = pre ++ (p, pn) :: post -> base + 8 < bp ->
  exists fr', joined pre p pn post bp n = free_list fr'.
Proof.
  intros HL Hb. unfold joined. destruct pre as [|b pre]; simpl in *.
  - injection HL as <- <- _. unfold join_left. rewrite (proj2 (Z.eqb_neq _ _)) by lia. by eexists.
  - injection HL as <- _. by eexists.
Qed.

Lemma joined_freep pre p pn post bp n : p ∈ (joined pre p pn post bp n).*1.
Proof.
  unfold joined, join_left. destruct (_ =? bp); rewrite !fmap_app; simpl; set_solver.
Qed.

(** The free list after free, and what it holds. *)
Lemma joined_asc pre p pn post bp n lo hi : 1 <= n -> asc lo (pre ++ (p, pn) :: post) hi ->
  p + ext pn <= bp -> p + 8 * pn = bp \/ p + ext pn < bp ->
  (forall c k, (c, k) ∈ post -> bp + ext n <= c) -> bp + 8 * n <= hi ->
  asc lo (joined pre p pn post bp n) hi /\
  units (joined pre p pn post bp n) = units (pre ++ (p, pn) :: post) + n /\
  (length (joined pre p pn post bp n) <= S (length (pre ++ (p, pn) :: post)))%nat /\
  exists a k, (a, k) ∈ joined pre p pn post bp n /\ n <= k.
Proof.
  intros Hn Ha Hle Hst Hpost Hhi. apply asc_app in Ha as (mid & Hpre & Hmid & Hpn & Ha).
  pose proof (ext_ge pn).
  destruct (join_right_spec (p + ext pn - 1) bp n post hi) as (Hk & Hr & Hu & Hlen & _);
    [done|lia|eapply asc_lo; [done|lia]|done|done|]. unfold joined. split_and!.
  - apply asc_app. exists mid. split; [done|]. apply join_left_asc; try done. lia.
  - rewrite !units_app, join_left_units. simpl. lia.
  - rewrite !length_app. unfold join_left. destruct (_ =? bp); simpl; lia.
  - unfold join_left. destruct (_ =? bp); [exists p, (pn + (join_right bp n post).1)|exists bp, (join_right bp n post).1];
      (split; [rewrite !elem_of_app; set_solver|lia]).
Qed.
Lemma free_list_pos fr hi b : asc (base - 1) (free_list fr) hi -> b ∈ fr -> base + 8 < b.1.
Proof. destruct b as [a n]. intros (_ & _ & Ha) Hb. destruct (asc_elem _ _ _ _ _ Ha Hb). unfold ext in *. simpl. lia. Qed.

Lemma joined_pos s fr al bp n pre p pn post fr' b :
  heap_ok s fr al -> 1 <= n -> free_list fr = pre ++ (p, pn) :: post ->
  joined pre p pn post bp n = free_list fr' -> asc (base - 1) (free_list fr') (h_sz s) ->
  b ∈ fr' -> 1 <= b.2.
Proof.
  intros Hok Hn HL HJ Ha Hb. pose proof (free_list_pos _ _ _ Ha Hb) as Hpos.
  assert (b ∈ joined pre p pn post bp n) as HbJ by (rewrite HJ; by right).
  assert (b ∈ free_list fr -> 1 <= b.2) as Hin.
  { intros [->|Hin]%elem_of_cons; [simpl in Hpos; lia|]. by eapply ho_pos. }
  assert (0 <= pn /\ forall c k, (c, k) ∈ post -> 0 <= k) as [Hpn Hpost].
  { pose proof (ho_asc _ _ _ Hok) as HA. rewrite HL in HA. split; [|intros c k Hc].
    - apply (asc_elem _ _ _ p pn HA). set_solver.
    - apply (asc_elem _ _ _ c k HA). set_solver. }
  apply joined_elem in HbJ as [H|[H|H]]; [apply Hin; rewrite HL; set_solver| |apply Hin; rewrite HL; set_solver].
  assert (1 <= (join_right bp n post).1) as Hk.
  { unfold join_right. destruct post as [|[a k] post']; [done|]. specialize (Hpost a k ltac:(left)).
    destruct (_ =? a); simpl; lia. }
  unfold join_left in H. destruct (_ =? bp); [apply list_elem_of_singleton in H as ->; simpl; lia|].
  apply elem_of_cons in H as [->|H]; [apply Hin; rewrite HL; set_solver|]. apply list_elem_of_singleton in H as ->. done.
Qed.

Lemma list_fuel_enough s fr al : heap_ok s fr al -> (length (free_list fr) <= list_fuel s)%nat.
Proof.
  intros Hok. pose proof (asc_length _ _ _ (ho_asc _ _ _ Hok)). pose proof (ho_base _ _ _ Hok).
  unfold list_fuel, sizeof_Header. Z.div_mod_to_equations. lia.
Qed.

(** The code of free, up to the two headers it writes. *)
Lemma free_headers s fr al bp n pre p pn post : heap_ok s fr al -> fresh s fr al bp n ->
  free_list fr = pre ++ (p, pn) :: post -> p + ext pn <= bp ->
  (forall c k, (c, k) ∈ post -> bp + ext n <= c) ->
  exists m1 m2, free (bp + 8) s = Ret tt (set_h_freep p (set_h_mem m2 s)) /\
    header_set (h_mem s) m1 bp (nx (join_right bp n post).2 base) (join_right bp n post).1 /\
    if p + 8 * pn =? bp then header_set m1 m2 p (load32 m1 bp) (pn + (join_right bp n post).1)
    else header_set m1 m2 p bp pn.
Proof.
  intros Hok Hf HL Hle Hpost. pose proof Hok as [Hr Hps Ha _ _ _ _ Hb0 [Hroom Htop]]. pose proof Hf as [Hn Hlo Hhi Hsz _ _].
  pose proof (ext_ge pn). pose proof (ext_ge n). rewrite HL in Hr, Ha.
  pose proof Ha as (mid & Hpre & Hmid & Hpn & Hap)%asc_app. pose proof Hr as (_ & Hpx & Hpsz & Hrp)%ring_app.
  pose proof (asc_in_heap (base - 1) _ s p pn Ha ltac:(lia) ltac:(set_solver)) as Hinp.
  assert (in_heap s bp) as Hinb by (split; lia).
  unfold free, sizeof_Header. replace (bp + 8 - 8) with bp by lia.
  rewrite u32_small by (unfold KERNBASE in *; lia).
  rewrite (bind_Ret (gets h_freep) _ s _ s eq_refl), (bind_Ret (gets list_fuel) _ s _ s eq_refl).
  assert (forall c k, (c, k) ∈ post -> bp < c) as Hpost' by (intros c k Hc; specialize (Hpost c k Hc); lia).
  step (free_scan_run s fr al bp pre p pn post _ Hok HL ltac:(lia) ltac:(lia) Hpost' (list_fuel_enough _ _ _ Hok)).
  step (hsize_run s bp Hinb). step (hptr_run s p Hinp). rewrite Hsz, Hpx.
  destruct (right_run s bp n (p + ext pn) post) as (m1 & E1 & H1); try done; try lia.
  { destruct Hinp; lia. }
  step E1. set (s1 := set_h_mem m1 s). assert (in_heap s1 p) as Hinp1 by done. step (hsize_run s1 p Hinp1).
  destruct (header_set_load _ _ _ _ _ p H1 ltac:(lia)) as [Hq1 Hq2]. unfold s1 at 1. simpl. rewrite Hq2, Hpsz.
  destruct (join_right_spec (p + ext pn - 1) bp n post (h_sz s)) as (Hk & Hrr & _);
    [done|lia|eapply asc_lo; [done|lia]|done|done|]. apply asc_le in Hrr.
  destruct (left_run s1 bp (join_right bp n post).1 p pn (nx post base)) as (m2 & E2 & H2);
    try done; [lia|unfold s1, ext in *; simpl; lia|unfold s1; simpl; congruence|unfold s1; simpl; congruence|apply H1|].
  step E2. exists m1, m2. by split_and!.
Qed.

Lemma free_run s fr al bp n : heap_ok s fr al -> fresh s fr al bp n ->
  exists s' fr', free (bp + 8) s = Ret tt s' /\ heap_ok s' fr' al /\ h_sz s' = h_sz s /\
    keeps_data ((bp, n) :: free_list fr) (h_mem s) (h_mem s') /\ units fr' = units fr + n /\
    (length fr' <= S (length fr))%nat /\ exists a k, (a, k) ∈ free_list fr' /\ n <= k.
Proof.
  intros Hok Hf. destruct (fresh_place _ _ _ _ _ Hok Hf) as (pre & p & pn & post & HL & Hle & Hst & Hpost).
  destruct (free_headers _ _ _ _ _ _ _ _ _ Hok Hf HL Hle Hpost) as (m1 & m2 & E & H1 & H2).
  destruct (joined_head pre p pn post bp n fr HL (fs_lo _ _ _ _ _ Hf)) as (fr' & HJ).
  pose proof Hok as [Hr Hps Ha _ Hal Hfa Hll Hb0 [Hroom Htop]]. pose proof Hf as [Hn Hlo Hhi Hsz _ Hlv]. rewrite HL in Hr, Ha.
  destruct (joined_asc pre p pn post bp n _ _ Hn Ha Hle Hst Hpost Hhi) as (HJa & HJu & HJl & HJk).
  pose proof (join_ring _ _ _ _ _ _ _ _ _ _ _ Hb0 Hr Ha Hn Hle Hpost H1 H2) as HJr.
  fold (joined pre p pn post bp n) in HJr. rewrite HJ in HJr, HJa, HJu, HJl, HJk. rewrite <- HL in HJu, HJl.
  assert (forall b, (b < bp \/ bp + 8 <= b) -> (b < p \/ p + 8 <= b) -> m2 b = h_mem s b) as Hm.
  { intros b Hb1 Hb2. rewrite <- (hs_other _ _ _ _ _ H1 b Hb1). destruct (_ =? bp); by apply H2. }
  exists (set_h_freep p (set_h_mem m2 s)), fr'. split_and!; [done| |done| | | |done].
  - split; try done.
    + intros b. by eapply joined_pos.
    + rewrite <- HJ. apply joined_freep.
    + intros a k Hak. destruct (Hal a k Hak) as (? & ? & ? & Hs). split_and!; [done..|].
      simpl. rewrite <- Hs. apply load32_ext. intros b Hb.
      pose proof (Hlv a k Hak) as Hap1. pose proof (Hfa a k (p, pn) Hak ltac:(rewrite HL; set_solver)) as Hap2.
      unfold apart, ext in *. simpl in *. apply Hm; lia.
    + intros a k b Hak Hb. rewrite <- HJ in Hb. eapply joined_apart; [exact Hn|exact Ha|exact Hle| | |exact Hb].
      * intros d Hd. apply Hfa; [done|]. by rewrite HL.
      * apply apart_comm. by apply Hlv.
  - intros b Hb. simpl. apply Hm; [apply (Hb bp n); left|apply (Hb p pn); rewrite HL; set_solver].
  - unfold free_list in HJu. simpl in HJu. lia.
  - simpl in HJl. lia.
Qed.
(** ** malloc *)

Definition keeps_live al (m m' : mem) : Prop :=
  forall a n b, al !! a = Some n -> a <= b < a + 8 * n -> m' b = m b.

Definition inside (b' b : blk) : Prop := b.1 <= b'.1 /\ b'.1 + ext b'.2 <= b.1 + ext b.2.

Lemma inside_apart b' b c : inside b' b -> apart b c -> apart b' c.
Proof. unfold inside, apart. lia. Qed.

(** A block cut out of the free list. *)
Lemma heap_ok_carve s fr al s' fr' r nu :
  heap_ok s fr al -> h_sz s' = h_sz s -> 1 <= nu ->
  ring (h_mem s') (free_list fr') base -> asc (base - 1) (free_list fr') (h_sz s) ->
  h_freep s' ∈ (free_list fr').*1 -> (forall b, b ∈ fr' -> 1 <= b.2) ->
  (forall b', b' ∈ free_list fr' -> exists b, b ∈ free_list fr /\ inside b' b) ->
  (exists b, b ∈ fr /\ inside (r, nu) b) -> (forall b, b ∈ free_list fr' -> apart b (r, nu)) ->
  load32 (h_mem s') (r + 4) = nu ->
  (forall b, (forall a k, (a, k) ∈ free_list fr -> b < a \/ a + ext k <= b) -> h_mem s' b = h_mem s b) ->
  heap_ok s' fr' (<[r := nu]> al) /\ al !! r = None /\ keeps_live al (h_mem s) (h_mem s').
Proof.
  intros [Hr Hps Ha _ Hal Hfa Hll Hb0 [Hroom Htop]] Hsz Hnu Hr' Ha' Hfp Hps' Hin (b & Hb & Hrb) Hap Hrs Hm.
  assert (keeps_live al (h_mem s) (h_mem s')) as Hlive.
  { intros a n c Hal' Hc. apply Hm. intros a' k Hk. pose proof (Hfa a n _ Hal' Hk) as Hx.
    destruct (Hal a n Hal'). unfold apart, ext in *. simpl in *. lia. }
  assert (forall a n, al !! a = Some n -> apart (r, nu) (a, n)) as Hra.
  { intros a n Han. eapply inside_apart; [done|]. apply Hfa; [done|]. by right. }
  assert (al !! r = None) as Hnone.
  { destruct (al !! r) as [n|] eqn:E; [|done]. apply Hra in E. unfold apart, ext in *. simpl in *. lia. }
  split_and!; [|done|done]. split; rewrite ?Hsz; try done.
  - intros a n [[<- <-]|[? Han]]%lookup_insert_Some.
    + pose proof (free_list_pos _ _ _ Ha Hb). destruct b as [c k].
      destruct (asc_elem _ _ _ c k Ha ltac:(by right)). unfold inside, ext in *. simpl in *. split_and!; [done|lia|lia|done].
    + destruct (Hal a n Han) as (? & ? & ? & Hs). split_and!; [done..|]. rewrite <- Hs. apply load32_ext.
      intros b' Hb'. apply (Hlive a n); [done|lia].
  - intros a n b' [[<- <-]|[? Han]]%lookup_insert_Some Hb'; [by apply Hap|].
    destruct (Hin b' Hb') as (b0 & Hb0' & Hi). eapply inside_apart; [done|]. by apply Hfa.
  - intros a n a' n' [[<- <-]|[? H1]]%lookup_insert_Some [[<- <-]|[? H2]]%lookup_insert_Some Hne;
      [done|by apply Hra|apply apart_comm; by apply Hra|by apply Hll].
Qed.

(** Memory below the break and the break may grow under the allocator's feet. *)
Lemma heap_ok_grow s fr al m' sz' : heap_ok s fr al -> (forall b, b < h_sz s -> m' b = h_mem s b) ->
  h_sz s <= sz' < KERNBASE -> heap_ok (mkHeap m' (h_freep s) sz') fr al.
Proof.
  intros [Hr Hps Ha Hfp Hal Hfa Hll Hb0 [Hroom Htop]] Hm Hsz. split; try done; cbn [h_mem h_sz h_freep].
  - eapply ring_ext; [|done]. intros a n b Hn Hb. apply Hm.
    destruct (asc_elem _ _ _ _ _ Ha Hn). pose proof (ext_ge n). lia.
  - eapply asc_hi; [done|lia].
  - intros a n Han. destruct (Hal a n Han) as (? & ? & ? & Hs). split_and!; [done..|lia|].
    rewrite <- Hs. apply load32_ext. intros b Hb. apply Hm. lia.
  - lia.
Qed.

Lemma freep_nonzero s fr al : heap_ok s fr al -> h_freep s <> 0.
Proof.
  intros [_ _ Ha ([a n] & E & Hp)%list_elem_of_fmap _ _ _ Hb _] E0. destruct (asc_elem _ _ _ _ _ Ha Hp). simpl in *. lia.
Qed.

Lemma freep_in_heap s fr al : heap_ok s fr al -> in_heap s (h_freep s).
Proof.
  intros [_ _ Ha ([p k] & -> & Hp)%list_elem_of_fmap _ _ _ Hb _]. eapply asc_in_heap; [exact Ha|lia|done].
Qed.

Lemma morecore_run s fr al nu : heap_ok s fr al -> 1 <= nu < 2 ^ 28 ->
  let n := Z.max 4096 nu in
  if h_sz s + 8 * n <? KERNBASE then
    exists s' fr', morecore nu s = Ret (h_freep s') s' /\ heap_ok s' fr' al /\
      h_sz s' = h_sz s + 8 * n /\ keeps_live al (h_mem s) (h_mem s') /\ units fr' = units fr + n /\
      (length fr' <= S (length fr))%nat /\ exists a k, (a, k) ∈ free_list fr' /\ nu <= k
  else morecore nu s = Ret 0 s.
Proof.
  intros Hok Hnu n. pose proof Hok as [Hr Hps Ha Hfp Hal Hfa Hll Hb0 [Hroom Htop]].
  unfold morecore, sbrk. assert ((if nu <? 4096 then 4096 else nu) = n) as ->.
  { unfold n. destruct (nu <? 4096) eqn:E; bool_to_prop; lia. }
  assert (4096 <= n < 2 ^ 28) as Hn by lia. unfold sizeof_Header. rewrite (u32_small (n * 8)) by lia.
  rewrite (s32_small (n * 8)) by lia. rewrite bind_assoc, (bind_Ret (gets h_sz) _ s _ s eq_refl).
  rewrite (u32_small (h_sz s + n * 8)) by (unfold KERNBASE in *; lia).
  rewrite (Z.geb_leb (n * 8)), (proj2 (Z.leb_le 0 _)) by lia. rewrite Z.geb_leb, Z.leb_antisym.
  replace (n * 8) with (8 * n) by lia. destruct (h_sz s + 8 * n <? KERNBASE) eqn:E; bool_to_prop; [|done]. simpl.
  rewrite bind_assoc, (bind_Ret (modify _) _ s _ _ eq_refl), (bind_Ret (ret _) _ _ _ _ eq_refl).
  rewrite (proj2 (Z.eqb_neq (h_sz s) _)) by (change (u32 (-1)) with 4294967295; unfold KERNBASE in *; lia).
  set (s1 := set_h_sz _ s). assert (in_heap s1 (h_sz s)) as Hin by (split; simpl; lia).
  step (set_hsize_run s1 (h_sz s) n Hin). set (m1 := store32 _ _ _).
  assert (heap_ok (set_h_mem m1 s1) fr al) as Hok1.
  { apply (heap_ok_grow s fr al m1); [done| |simpl; lia]. intros b Hb. unfold m1. apply store32_ne. lia. }
  rewrite u32_small by (unfold KERNBASE in *; lia).
  destruct (free_run _ fr al (h_sz s) n Hok1) as (s' & fr' & E' & Hok' & Hsz' & Hk & Hu & Hl & Ha'').
  { split; simpl; [lia|lia|lia|unfold m1; by rewrite load32_store32_eq, u32_small by lia|..].
    - intros [c k] Hc. destruct (asc_elem _ _ _ _ _ Ha Hc). left. simpl. lia.
    - intros a k Hak. destruct (Hal a k Hak). left. simpl. unfold ext. lia. }
  step E'. exists s', fr'. split_and!; [done|done|by rewrite Hsz'| |lia|done|].
  - intros a k b Hak Hb. destruct (Hal a k Hak) as (? & ? & ? & _). rewrite Hk.
    + simpl. unfold m1. apply store32_ne. lia.
    + intros c i [[= -> ->]|Hc]%elem_of_cons; [lia|]. pose proof (Hfa a k _ Hak Hc). unfold apart, ext in *. simpl in *. lia.
  - destruct Ha'' as (a & k & ? & ?). exists a, k. split; [done|lia].
Qed.
(** The blocks in the order in which malloc looks at them. *)
Fixpoint path (m : mem) (prev : Z) (l : list blk) : Prop :=
  match l with
  | [] => True
  | (a, n) :: l' => load32 m prev = a /\ load32 m (a + 4) = n /\ path m a l'
  end.

Lemma ring_path m l e prev v : load32 m prev = nx l e -> ring m l e ->
  (forall q, load32 m q = e -> path m q v) -> path m prev (l ++ v).
Proof.
  revert prev. induction l as [|[a n] l IH]; intros prev Hp Hr Hv; simpl in *; [by apply Hv|].
  destruct Hr as (H1 & H2 & Hr). split_and!; [done|done|]. by apply IH.
Qed.

Lemma heap_path s fr al : heap_ok s fr al -> exists v fn,
  path (h_mem s) (h_freep s) (v ++ [(h_freep s, fn)]) /\ v ++ [(h_freep s, fn)] ≡ₚ free_list fr /\
  forall a n, (a, n) ∈ v -> a <> h_freep s.
Proof.
  intros [Hr _ Ha Hfp _ _ _ _ _]. apply list_elem_of_fmap in Hfp as ([p n] & Hp & Hin). simpl in Hp. rewrite Hp.
  apply list_elem_of_split in Hin as (l1 & l2 & HL). rewrite HL in *. exists (l2 ++ l1), n. split_and!.
  - apply ring_app in Hr as [H1 (Hx & Hn & H2)]. rewrite <- app_assoc. apply (ring_path _ _ base); [done|done|].
    intros q Hq. apply (ring_path _ _ p); [|done|by intros].
    rewrite Hq. unfold free_list in HL. destruct l1 as [|[c k] l1]; simpl in *; congruence.
  - by rewrite <- app_assoc, (Permutation_app_comm l2), <- app_assoc.
  - intros a k Hak ->. pose proof (asc_apart _ _ _ _ _ (p, k) Ha) as Hap.
    specialize (Hap ltac:(set_solver)). unfold apart in Hap. simpl in Hap. pose proof (ext_ge n). pose proof (ext_ge k). lia.
Qed.

(** The search ends at the first block that is large enough, or at freep without one. *)
Lemma malloc_scan s nu fn v : forall prev fuel,
  path (h_mem s) prev (v ++ [(h_freep s, fn)]) ->
  (forall a n, (a, n) ∈ v ++ [(h_freep s, fn)] -> in_heap s a) ->
  (forall a n, (a, n) ∈ v -> a <> h_freep s) -> (length v < fuel)%nat ->
  (exists prev' a n, (a, n) ∈ v ++ [(h_freep s, fn)] /\ nu <= n /\ load32 (h_mem s) prev' = a /\
     (prev' = prev \/ prev' ∈ (v ++ [(h_freep s, fn)]).*1) /\
     malloc_loop fuel nu prev (nx (v ++ [(h_freep s, fn)]) 0) s = take_block nu prev' a n s) \/
  ((forall a n, (a, n) ∈ v ++ [(h_freep s, fn)] -> n < nu) /\
   malloc_loop fuel nu prev (nx (v ++ [(h_freep s, fn)]) 0) s =
     (let* p := morecore nu in
      if p =? 0 then ret 0 else
      let* nx := hptr p in malloc_loop (fuel - S (length v)) nu p nx) s).
Proof.
  induction v as [|[a n] v IH]; intros prev fuel Hp Hin Hne Hf; (destruct fuel as [|fuel]; [simpl in Hf; lia|]); simpl in *.
  - destruct Hp as (Hp & Hn & _). step (hsize_run s (h_freep s) (Hin _ fn ltac:(left))). rewrite Hn.
    rewrite Z.geb_leb. destruct (nu <=? fn) eqn:E; bool_to_prop.
    + left. exists prev, (h_freep s), fn. split_and!; [left|done|done|by left|done].
    + right. split; [intros ? ? [= -> ->]%list_elem_of_singleton; done|].
      rewrite (bind_Ret (gets _) _ s _ s eq_refl), Z.eqb_refl, Nat.sub_0_r. done.
  - destruct Hp as (Hp & Hn & Hpath). step (hsize_run s a (Hin a n ltac:(left))). rewrite Hn.
    rewrite Z.geb_leb. destruct (nu <=? n) eqn:E; bool_to_prop.
    + left. exists prev, a, n. split_and!; [left|done|done|by left|done].
    + rewrite (bind_Ret (gets _) _ s _ s eq_refl), (proj2 (Z.eqb_neq _ _)) by by eapply (Hne a n); left.
      step (hptr_run s a (Hin a n ltac:(left))).
      assert (load32 (h_mem s) a = nx (v ++ [(h_freep s, fn)]) 0) as ->.
      { destruct v as [|[c k] v]; simpl in *; apply Hpath. }
      destruct (IH a fuel Hpath) as [(prev' & a' & n' & H1 & H2 & H3 & H4 & H5)|[H1 H2]];
        [intros; eapply Hin; by right|intros; eapply Hne; by right|lia| |].
      * left. exists prev', a', n'. split_and!; [by right|done|done| |done].
        right. destruct H4 as [->|H4]; [left|by right].
      * right. split; [|done]. intros ? ? [[= -> ->]|H]%elem_of_cons; [done|eauto].
Qed.

(** Only the block before it points to a block of the list. *)
Lemma ring_pred m l lo hi x p n pre post : ring m l base -> asc lo l hi -> x ∈ l.*1 ->
  l = pre ++ (p, n) :: post -> p <> base -> load32 m x = p -> exists pre' xn, pre = pre' ++ [(x, xn)].
Proof.
  intros Hr Ha ([y xn] & -> & (l1 & l2 & Hl)%list_elem_of_split)%list_elem_of_fmap Heq Hp Hx. simpl in *.
  rewrite Hl in Hr. apply ring_app in Hr as [_ (Hy & _ & _)]. rewrite Hx in Hy.
  destruct l2 as [|[c k] l2]; simpl in Hy; [done|]. subst c.
  exists l1, xn. rewrite Heq in Ha, Hl. 
  replace (l1 ++ (y, xn) :: (p, k) :: l2) with ((l1 ++ [(y, xn)]) ++ (p, k) :: l2) in Hl by (by rewrite <- app_assoc).
  by apply (asc_unique _ _ _ _ _ _ _ _ _ Ha) in Hl as (-> & _).
Qed.
Lemma free_list_drop fr pre x y post : free_list fr = pre ++ x :: y :: post ->
  exists fr', pre ++ x :: post = free_list fr' /\ forall b, b ∈ fr' -> b ∈ fr.
Proof.
  unfold free_list. destruct pre as [|b pre]; simpl; intros [= <- ->]; eexists; (split; [done|]); set_solver.
Qed.

(** The block has exactly the size wanted: it leaves the list. *)
Lemma take_exact s fr al prev p n : heap_ok s fr al -> (p, n) ∈ free_list fr -> 1 <= n ->
  prev ∈ (free_list fr).*1 -> load32 (h_mem s) prev = p ->
  exists s' fr', take_block n prev p n s = Ret (p + 8) s' /\ heap_ok s' fr' (<[p := n]> al) /\
    al !! p = None /\ keeps_live al (h_mem s) (h_mem s') /\ h_sz s' = h_sz s /\ units fr' = units fr - n.
Proof.
  intros Hok Hp Hn Hprev Hx. pose proof Hok as [Hr Hps Ha _ _ _ _ Hb0 [Hroom Htop]].
  assert ((p, n) ∈ fr) as Hpf by (apply elem_of_cons in Hp as [[= -> ->]|?]; [lia|done]).
  pose proof (free_list_pos _ _ _ Ha Hpf) as Hpos. simpl in Hpos.
  pose proof (asc_in_heap _ _ s p n Ha ltac:(lia) Hp) as Hinp.
  apply list_elem_of_split in Hp as (pre & post & HL).
  destruct (ring_pred _ _ _ _ _ _ _ _ _ Hr Ha Hprev HL ltac:(lia) Hx) as (pre' & xn & ->).
  assert ((prev, xn) ∈ free_list fr) as Hxin by (rewrite HL; set_solver).
  pose proof (asc_in_heap _ _ s prev xn Ha ltac:(lia) Hxin) as Hinx.
  unfold take_block. rewrite Z.eqb_refl, bind_assoc. step (hptr_run s p Hinp). rewrite bind_assoc.
  step (set_hptr_run s prev (load32 (h_mem s) p) Hinx). rewrite <- app_assoc in HL. simpl in HL. rewrite HL in Hr, Ha.
  apply ring_app in Hr as [Hr1 (_ & Hxn & Hpx & Hpn & Hr2)].
  pose proof (header_set_ptr (h_mem s) prev (load32 (h_mem s) p) (load32_range _ _)) as Hset.
  rewrite Hxn, Hpx in Hset. rewrite Hpx. set (m' := store32 _ _ _) in *.
  apply asc_app in Ha as (mid & Ha1 & Hmid & Hxn0 & Hpa & _ & Ha2).
  destruct (free_list_drop _ _ _ _ _ HL) as (fr' & HL' & Hsub).
  eexists _, fr'. split.
  { rewrite (bind_Ret (ret p) _ _ _ _ eq_refl), (bind_Ret (modify _) _ _ _ _ eq_refl). unfold ret.
    rewrite u32_small by (destruct Hinp; unfold sizeof_Header, KERNBASE in *; lia). done. }
  destruct (asc_elem _ _ _ p n (ho_asc _ _ _ Hok)) as (_ & _ & Hend); [rewrite HL; set_solver|].
  pose proof (ext_ge xn). pose proof (ext_ge n).
  destruct (heap_ok_carve s fr al (set_h_freep prev (set_h_mem m' s)) fr' p n) as (G1 & G2 & G3); try done.
  - rewrite <- HL'. cbn [h_mem set_h_mem set_h_freep]. apply ring_app. split.
    + eapply ring_header; [done| |done]. intros a k Hak. destruct (asc_elem _ _ _ _ _ Ha1 Hak). pose proof (ext_ge k). lia.
    + destruct Hset as [S1 S2 S3]. split_and!; [done|done|]. apply (ring_ext (h_mem s)); [|done].
      intros a k b Hak Hb. apply S3. destruct (asc_elem _ _ _ _ _ Ha2 Hak). lia.
  - rewrite <- HL'. apply asc_app. exists mid. split_and!; [done|]. simpl. split_and!; [done|done|].
    eapply asc_lo; [done|lia].
  - change (prev ∈ (free_list fr').*1). rewrite <- HL', fmap_app. set_solver.
  - intros b Hb. by apply Hps, Hsub.
  - intros b [->|Hb]%elem_of_cons; [exists (base, 0)|exists b]; (split; [|unfold inside; lia]); [left|by right; apply Hsub].
  - exists (p, n). split; [done|unfold inside; lia].
  - intros b Hb. rewrite <- HL' in Hb. apply apart_comm. pose proof (ho_asc _ _ _ Hok) as Ha. rewrite HL in Ha.
    replace (pre' ++ (prev, xn) :: (p, n) :: post) with ((pre' ++ [(prev, xn)]) ++ (p, n) :: post) in Ha by (by rewrite <- app_assoc).
    eapply asc_apart; [exact Ha|]. rewrite <- app_assoc. done.
  - simpl. rewrite <- Hpn. apply load32_ext. intros b Hb. apply Hset. lia.
  - intros b Hb. apply Hset. specialize (Hb prev xn Hxin). lia.
  - split_and!; try done. apply (f_equal units) in HL, HL'. unfold free_list in HL, HL'. rewrite units_app in HL, HL'. simpl in *. lia.
Qed.
Lemma free_list_resize fr pre p n k post : free_list fr = pre ++ (p, n) :: post -> p <> base ->
  exists fr', pre ++ (p, k) :: post = free_list fr' /\
    forall b, b ∈ fr' -> b ∈ fr \/ b = (p, k).
Proof.
  unfold free_list. destruct pre as [|b pre]; simpl; intros [= <- ->] Hp; [done|]. eexists. split; [done|]. set_solver.
Qed.

(** The block is larger: its tail is cut off. *)
Lemma take_split s fr al prev p n nu : heap_ok s fr al -> (p, n) ∈ free_list fr -> 1 <= nu < n ->
  prev ∈ (free_list fr).*1 ->
  let r := p + 8 * (n - nu) in
  exists s' fr', take_block nu prev p n s = Ret (r + 8) s' /\ heap_ok s' fr' (<[r := nu]> al) /\
    al !! r = None /\ keeps_live al (h_mem s) (h_mem s') /\ h_sz s' = h_sz s /\ units fr' = units fr - nu.
Proof.
  intros Hok Hp Hn Hprev r. pose proof Hok as [Hr Hps Ha _ _ _ _ Hb0 [Hroom Htop]].
  assert ((p, n) ∈ fr) as Hpf by (apply elem_of_cons in Hp as [[= -> ->]|?]; [lia|done]).
  pose proof (free_list_pos _ _ _ Ha Hpf) as Hpos. simpl in Hpos.
  pose proof (asc_in_heap _ _ s p n Ha ltac:(lia) Hp) as Hinp.
  destruct (asc_elem _ _ _ p n Ha Hp) as (_ & _ & Hend).
  pose proof Hp as (pre & post & HL)%list_elem_of_split.
  destruct (free_list_resize fr pre p n (n - nu) post HL ltac:(lia)) as (fr' & HL' & Hsub).
  assert (in_heap s r) as Hinr by (unfold r, ext in *; split; lia).
  unfold take_block, sizeof_Header. rewrite (proj2 (Z.eqb_neq n nu)) by lia.
  rewrite (u32_small (n - nu)) by (unfold ext, KERNBASE in *; lia).
  rewrite bind_assoc. step (set_hsize_run s p (n - nu) Hinp). set (m1 := store32 _ _ _). set (s1 := set_h_mem m1 s).
  assert (in_heap s1 p) as Hinp1 by done. rewrite bind_assoc. step (hsize_run s1 p Hinp1).
  assert (load32 (h_mem s1) (p + 4) = n - nu) as ->.
  { simpl. unfold m1. rewrite load32_store32_eq, u32_small by (unfold ext, KERNBASE in *; lia). done. }
  fold r. cbv zeta. rewrite (u32_small r) by (destruct Hinr; unfold KERNBASE in *; lia).
  assert (in_heap s1 r) as Hinr1 by done. rewrite bind_assoc. step (set_hsize_run s1 r nu Hinr1).
  set (m2 := store32 _ _ _). rewrite (bind_Ret (ret r) _ _ _ _ eq_refl), (bind_Ret (modify _) _ _ _ _ eq_refl).
  rewrite HL in Hr, Ha. apply ring_app in Hr as [Hr1 (Hpx & Hpn & Hr2)].
  apply asc_app in Ha as (mid & Ha1 & Hmid & _ & Ha2).
  assert (forall b, b < p + 4 \/ p + ext n <= b -> m2 b = h_mem s b) as Hm.
  { intros b Hb. unfold m2, s1. simpl. unfold m1. rewrite !store32_ne; [done|..]; unfold r, ext in *; lia. }
  eexists _, fr'. split.
  { unfold ret. rewrite u32_small by (destruct Hinr; unfold KERNBASE in *; lia). done. }
  destruct (heap_ok_carve s fr al (set_h_freep prev (set_h_mem m2 s1)) fr' r nu) as (G1 & G2 & G3); try done.
  - lia.
  - rewrite <- HL'. cbn [h_mem set_h_mem set_h_freep]. apply ring_app. split; [|cbn [ring]; split_and!].
    + apply (ring_ext (h_mem s)); [|done]. intros a k b Hak Hb. apply Hm.
      destruct (asc_elem _ _ _ _ _ Ha1 Hak). pose proof (ext_ge k). lia.
    + rewrite <- Hpx. cbn [nx]. apply load32_ext. intros b Hb. apply Hm. lia.
    + unfold m2. rewrite load32_store32_ne by (unfold r; lia). unfold s1, m1. simpl.
      rewrite load32_store32_eq, u32_small by (unfold ext, KERNBASE in *; lia). done.
    + apply (ring_ext (h_mem s)); [|done]. intros a k b Hak Hb. apply Hm. destruct (asc_elem _ _ _ _ _ Ha2 Hak). lia.
  - rewrite <- HL'. apply asc_app. exists mid. split_and!; [done|]. simpl. split_and!; [done|lia|].
    eapply asc_lo; [done|]. unfold ext. lia.
  - change (prev ∈ (free_list fr').*1). rewrite <- HL', fmap_app. rewrite HL, fmap_app in Hprev. done.
  - intros b [Hb| ->]%Hsub; [by apply Hps|simpl; lia].
  - intros b [->|[Hb| ->]%Hsub]%elem_of_cons; [exists (base, 0)|exists b|exists (p, n)];
      (split; [|unfold inside, ext; simpl; lia]); [left|by right|done].
  - exists (p, n). split; [done|unfold inside, r, ext in *; simpl; lia].
  - intros b Hb. rewrite <- HL' in Hb. apply elem_of_app in Hb as [Hb|[->|Hb]%elem_of_cons];
      [left|left|right]; unfold r, ext in *; simpl; try lia; destruct b as [c k].
    + destruct (asc_elem _ _ _ _ _ Ha1 Hb). unfold ext in *. simpl. lia.
    + destruct (asc_elem _ _ _ _ _ Ha2 Hb). unfold ext in *. simpl. lia.
  - simpl. unfold m2. rewrite load32_store32_eq, u32_small by (unfold ext, KERNBASE in *; lia). done.
  - intros b Hb. simpl. apply Hm. specialize (Hb p n Hp). lia.
  - split_and!; try done. apply (f_equal units) in HL, HL'. unfold free_list in HL, HL'. rewrite units_app in HL, HL'. simpl in *. lia.
Qed.
(** A successful malloc: a new block, the others untouched, and no memory lost. *)
Definition handed_out s fr al nu (o : outcome uheap Z) : Prop := exists r s' fr',
  o = Ret (r + 8) s' /\ heap_ok s' fr' (<[r := nu]> al) /\ al !! r = None /\
  keeps_live al (h_mem s) (h_mem s') /\ 8 * (units fr' + nu) - h_sz s' = 8 * units fr - h_sz s.

Lemma take_run s fr al prev p n nu : heap_ok s fr al -> (p, n) ∈ free_list fr -> 1 <= nu <= n ->
  prev ∈ (free_list fr).*1 -> load32 (h_mem s) prev = p -> handed_out s fr al nu (take_block nu prev p n s).
Proof.
  intros Hok Hp Hn Hprev Hx. destruct (decide (n = nu)) as [->|Hne].
  - destruct (take_exact s fr al prev p nu Hok Hp ltac:(lia) Hprev Hx) as (s' & fr' & ? & ? & ? & ? & ? & ?).
    exists p, s', fr'. split_and!; [done..|lia].
  - destruct (take_split s fr al prev p n nu Hok Hp ltac:(lia) Hprev) as (s' & fr' & ? & ? & ? & ? & ? & ?).
    eexists _, s', fr'. split_and!; [done..|lia].
Qed.

(** One round through the list. *)
Lemma malloc_round s fr al nu fuel : heap_ok s fr al -> 1 <= nu -> (length (free_list fr) <= fuel)%nat ->
  handed_out s fr al nu (malloc_loop fuel nu (h_freep s) (load32 (h_mem s) (h_freep s)) s) \/
  ((forall a n, (a, n) ∈ free_list fr -> n < nu) /\
   malloc_loop fuel nu (h_freep s) (load32 (h_mem s) (h_freep s)) s =
     (let* p := morecore nu in
      if p =? 0 then ret 0 else
      let* nx := hptr p in malloc_loop (fuel - length (free_list fr)) nu p nx) s).
Proof.
  intros Hok Hnu Hf. destruct (heap_path s fr al Hok) as (v & fn & Hp & Hperm & Hne).
  assert (load32 (h_mem s) (h_freep s) = nx (v ++ [(h_freep s, fn)]) 0) as ->.
  { destruct v as [|[a n] v]; apply Hp. }
  pose proof (Permutation_length Hperm) as Hlen. rewrite length_app, Nat.add_1_r in Hlen. rewrite <- Hlen.
  destruct (malloc_scan s nu fn v (h_freep s) fuel Hp) as [(prev & a & n & H1 & H2 & H3 & H4 & ->)|[H1 ->]]; [|done|lia|..].
  - intros a n Hin. rewrite Hperm in Hin. pose proof (ho_base _ _ _ Hok).
    eapply asc_in_heap; [apply (ho_asc _ _ _ Hok)|lia|done].
  - left. rewrite Hperm in H1. apply take_run; try done. destruct H4 as [->|H4]; [apply Hok|]. by rewrite <- Hperm.
  - right. split; [|done]. intros a n. rewrite <- Hperm. apply H1.
Qed.

(** malloc after the list exists: a block, or no memory left. *)
Lemma malloc_loop_run s fr al nu : heap_ok s fr al -> 1 <= nu < 2 ^ 28 ->
  let o := malloc_loop (list_fuel s + S (list_fuel s)) nu (h_freep s) (load32 (h_mem s) (h_freep s)) s in
  handed_out s fr al nu o \/
  (o = Ret 0 s /\ (forall a n, (a, n) ∈ fr -> n < nu) /\ KERNBASE <= h_sz s + 8 * Z.max 4096 nu).
Proof.
  intros Hok Hnu o. unfold o. clear o. pose proof (list_fuel_enough _ _ _ Hok) as Hfl.
  destruct (malloc_round s fr al nu (list_fuel s + S (list_fuel s)) Hok ltac:(lia) ltac:(lia)) as [H|[Hsm ->]]; [by left|].
  pose proof (morecore_run s fr al nu Hok Hnu) as Hm. cbv zeta in Hm.
  destruct (h_sz s + 8 * Z.max 4096 nu <? KERNBASE) eqn:E; bool_to_prop.
  - destruct Hm as (s1 & fr1 & E1 & Hok1 & Hsz1 & Hk1 & Hu1 & Hl1 & a & n & Ha & Hn).
    step E1. rewrite (proj2 (Z.eqb_neq _ 0)) by by eapply freep_nonzero.
    step (hptr_run s1 _ (freep_in_heap _ _ _ Hok1)).
    destruct (malloc_round s1 fr1 al nu (list_fuel s + S (list_fuel s) - length (free_list fr)) Hok1 ltac:(lia))
      as [(r & s2 & fr2 & -> & Hok2 & Hnone & Hk2 & Hu2)|[Hsm1 _]];
      [unfold free_list in *; cbn [length] in *; lia| |].
    + left. exists r, s2, fr2. split_and!; [done..| |lia]. intros c k b Hc Hb. rewrite (Hk2 c k) by done. by apply (Hk1 c k).
    + specialize (Hsm1 a n Ha). lia.
  - right. step Hm. split_and!; [done| |done]. intros a n Ha. apply (Hsm a n). by right.
Qed.

(** The state of a program before and after its first malloc. *)
Definition heap_inv s fr al : Prop :=
  (h_freep s = 0 /\ fr = [] /\ al = ∅ /\ 0 < base /\ base + 8 < h_sz s < KERNBASE) \/ heap_ok s fr al.

Lemma nunits_of_small nb : 0 <= nb <= 2 ^ 31 - 16 ->
  nunits_of nb = (nb + 7) / 8 + 1 /\ 1 <= nunits_of nb < 2 ^ 28 /\ nb <= 8 * nunits_of nb - 8.
Proof.
  intros Hnb. assert (nunits_of nb = (nb + 7) / 8 + 1) as ->; [|split_and!; [done|Z.div_mod_to_equations; lia..]].
  unfold nunits_of, sizeof_Header. rewrite (u32_small (nb + 8)) by lia. rewrite (u32_small (nb + 8 - 1)) by lia.
  rewrite u32_small by (Z.div_mod_to_equations; lia). do 2 f_equal. lia.
Qed.

Lemma nunits_of_range nb : 0 <= nb <= 2 ^ 31 - 16 -> 1 <= nunits_of nb < 2 ^ 28.
Proof. intros H. apply (nunits_of_small nb H). Qed.

(** The static header becomes the list of free blocks at the first call. *)
Lemma malloc_init s fr al : heap_inv s fr al ->
  exists s1, when (h_freep s =? 0) (modify (set_h_freep base) ;;; set_hptr base base ;;; set_hsize base 0) s = Ret tt s1 /\
    heap_ok s1 fr al /\ keeps_live al (h_mem s) (h_mem s1) /\ h_sz s1 = h_sz s.
Proof.
  intros [(-> & -> & -> & Hb & Hsz)|Hok].
  - simpl. set (s0 := set_h_freep base s). assert (in_heap s0 base) as Hin by (split; simpl; lia).
    rewrite (bind_Ret (modify (set_h_freep base)) _ s tt s0 eq_refl). step (set_hptr_run s0 base base Hin).
    rewrite set_hsize_run by done. eexists. split; [done|]. split_and!; [|by intros ?|done]. simpl.
    split; simpl; try done; try (intros; set_solver).
    + split_and!; [|by rewrite load32_store32_eq|done].
      rewrite load32_store32_ne, load32_store32_eq, u32_small by (unfold KERNBASE in *; lia). done.
    + unfold ext. split_and!; lia.
  - rewrite (proj2 (Z.eqb_neq _ 0)) by by eapply freep_nonzero. exists s. by split_and!.
Qed.

Lemma malloc_run s fr al nb : heap_inv s fr al -> 1 <= nunits_of nb < 2 ^ 28 ->
  handed_out s fr al (nunits_of nb) (malloc base nb s) \/
  exists s', malloc base nb s = Ret 0 s' /\ heap_inv s' fr al /\ keeps_live al (h_mem s) (h_mem s') /\
    h_sz s' = h_sz s /\ (forall a n, (a, n) ∈ fr -> n < nunits_of nb) /\
    KERNBASE <= h_sz s + 8 * Z.max 4096 (nunits_of nb).
Proof.
  intros Hinv Hnu. unfold malloc.
  rewrite (bind_Ret (gets _) _ s _ s eq_refl).
  destruct (malloc_init s fr al Hinv) as (s1 & E1 & Hok & Hk & Hsz).
  step E1. rewrite (bind_Ret (gets _) _ s1 _ s1 eq_refl).
  step (hptr_run s1 _ (freep_in_heap _ _ _ Hok)). rewrite (bind_Ret (gets _) _ s1 _ s1 eq_refl).
  destruct (malloc_loop_run s1 fr al (nunits_of nb) Hok Hnu) as [(r & s2 & fr2 & -> & H1 & H2 & H3 & H4)|(-> & H1 & H2)].
  - left. exists r, s2, fr2. split_and!; [done..| |lia]. intros a n b Ha Hb. rewrite (H3 a n) by done. by apply (Hk a n).
  - right. exists s1. split_and!; [done|by right|done|done|done|lia].
Qed.

(** ** Sizes of 2^31 bytes and more *)

Lemma nunits_of_huge nb : 2 ^ 31 - 16 < nb <= 2 ^ 32 - 8 -> 2 ^ 28 <= nunits_of nb <= 2 ^ 29.
Proof.
  intros Hnb. unfold nunits_of, sizeof_Header. assert (u32 (u32 (nb + 8) - 1) = nb + 7) as ->.
  { unfold u32. rewrite Zminus_mod_idemp_l. rewrite Z.mod_small; lia. }
  rewrite u32_small; Z.div_mod_to_equations; lia.
Qed.

Lemma nunits_of_top nb : 2 ^ 32 - 7 <= nb < 2 ^ 32 -> nunits_of nb = 1.
Proof.
  intros Hnb. unfold nunits_of, sizeof_Header. assert (u32 (nb + 8) = nb + 8 - 2 ^ 32) as ->.
  { unfold u32. rewrite <- (Z_mod_plus_full _ (-1)). rewrite Z.mod_small; lia. }
  rewrite (u32_small (_ - 1)) by lia. rewrite u32_small; Z.div_mod_to_equations; lia.
Qed.

(** The break does not go up, and the header is stored above it. *)
Lemma morecore_huge s nu : 0 < h_sz s < KERNBASE -> 2 ^ 28 <= nu <= 2 ^ 29 -> morecore nu s = Fault.
Proof.
  intros Hsz Hnu. unfold KERNBASE in *. unfold morecore, sizeof_Header. rewrite (proj2 (Z.ltb_ge nu 4096)) by lia.
  assert (sbrk (u32 (nu * 8)) s = Fault \/ exists s', sbrk (u32 (nu * 8)) s = Ret (h_sz s) s' /\ h_sz s' <= h_sz s) as [E|(s' & E & Hle)].
  { unfold sbrk. rewrite (bind_Ret (gets _) _ s _ s eq_refl). rewrite s32_u32.
    destruct (decide (nu = 2 ^ 29)) as [->|Hne].
    - right. change (s32 (2 ^ 29 * 8)) with 0. rewrite Z.add_0_r, u32_small by lia. cbn [Z.geb Z.compare].
      rewrite Z.geb_leb, (proj2 (Z.leb_gt _ _)) by (unfold KERNBASE; lia). eexists. split; [done|simpl; lia].
    - assert (s32 (nu * 8) = nu * 8 - 2 ^ 32) as ->.
      { unfold s32. replace ((nu * 8 + 2 ^ 31) mod 2 ^ 32) with (nu * 8 + 2 ^ 31 - 2 ^ 32); [lia|].
        symmetry. rewrite <- (Z_mod_plus_full _ (-1)). rewrite Z.mod_small; lia. }
      rewrite (Z.geb_leb _ 0), (proj2 (Z.leb_gt 0 _)) by lia. destruct (u32 _ >=? h_sz s) eqn:Eg; [right|].
      + rewrite (proj2 (Z.eqb_neq _ 0)) by lia. eexists. split; [done|simpl; lia].
      + rewrite Z.geb_leb in Eg. apply Z.leb_gt in Eg. destruct (u32 _ =? 0); [by left|right].
        eexists. split; [done|simpl; lia]. }
  - unfold bind. by rewrite E.
  - rewrite (bind_Ret _ _ _ _ _ E). rewrite (proj2 (Z.eqb_neq _ _)) by (change (u32 (-1)) with (2 ^ 32 - 1); lia).
    unfold bind at 1, set_hsize, hst. rewrite (proj2 (Z.leb_gt _ (h_sz s'))), andb_false_r by lia. done.
Qed.

Lemma malloc_huge s fr al nb : heap_inv s fr al -> 2 ^ 31 - 16 < nb <= 2 ^ 32 - 8 -> malloc base nb s = Fault.
Proof.
  intros Hinv Hnb. pose proof (nunits_of_huge nb Hnb) as Hnu. unfold malloc.
  rewrite (bind_Ret (gets _) _ s _ s eq_refl).
  destruct (malloc_init s fr al Hinv) as (s1 & E1 & Hok & Hk & Hsz).
  step E1. rewrite (bind_Ret (gets _) _ s1 _ s1 eq_refl).
  step (hptr_run s1 _ (freep_in_heap _ _ _ Hok)). rewrite (bind_Ret (gets _) _ s1 _ s1 eq_refl).
  pose proof (list_fuel_enough _ _ _ Hok) as Hfl. pose proof (ho_base _ _ _ Hok) as Hb. pose proof (ho_top _ _ _ Hok) as Ht.
  destruct (malloc_round s1 fr al (nunits_of nb) (list_fuel s1 + S (list_fuel s1)) Hok ltac:(lia) ltac:(lia))
    as [(r & s2 & fr2 & -> & Hok2 & _)|[_ ->]].
  - destruct (ho_size _ _ _ Hok2 r _ (lookup_insert_eq _ _ _)) as (_ & ? & ? & _).
    pose proof (ho_top _ _ _ Hok2). unfold KERNBASE in *. lia.
  - unfold bind. by rewrite morecore_huge by (unfold KERNBASE in *; lia).
Qed.

Lemma malloc_Ret_range s fr al nb r s' : heap_inv s fr al -> 0 <= nb < 2 ^ 32 -> malloc base nb s = Ret r s' ->
  1 <= nunits_of nb < 2 ^ 28.
Proof.
  intros Hinv Hnb E. destruct (decide (nb <= 2 ^ 31 - 16)); [apply nunits_of_range; lia|].
  destruct (decide (nb <= 2 ^ 32 - 8)); [|rewrite nunits_of_top; lia].
  rewrite (malloc_huge s fr al nb Hinv) in E by lia. done.
Qed.

(** ** Programs

    The live blocks of a program are the map [al] of its blocks that malloc
    returned and free did not take back.  Between the calls the program writes to
    the bytes it was given and moves the break up on its own. *)
Definition payload al (b : Z) : Prop := exists a n, al !! a = Some n /\ a + 8 <= b < a + 8 * n.

Inductive hstep : uheap * gmap Z Z -> uheap * gmap Z Z -> Prop :=
| h_malloc s s' al nb ap : 0 <= nb < 2 ^ 32 -> malloc base nb s = Ret ap s' -> ap <> 0 ->
    hstep (s, al) (s', <[ap - 8 := nunits_of nb]> al)
| h_malloc_fail s s' al nb : 0 <= nb < 2 ^ 32 -> malloc base nb s = Ret 0 s' -> hstep (s, al) (s', al)
| h_free s s' al a n : al !! a = Some n -> free (a + 8) s = Ret tt s' -> hstep (s, al) (s', delete a al)
| h_write s al m' : (forall b, ~ payload al b -> m' b = h_mem s b) -> hstep (s, al) (set_h_mem m' s, al)
| h_sbrk s s' al n r : 0 <= n < 2 ^ 31 -> sbrk n s = Ret r s' -> hstep (s, al) (s', al).

(** A live block that is given back. *)
Lemma heap_ok_release s fr al a n : heap_ok s fr al -> al !! a = Some n ->
  heap_ok s fr (delete a al) /\ fresh s fr (delete a al) a n.
Proof.
  intros [Hr Hps Ha Hfp Hal Hfa Hll Hb0 Htop] Han. destruct (Hal a n Han) as (? & ? & ? & ?). split.
  - split; try done.
    + intros c k [_ Hc]%lookup_delete_Some. by apply Hal.
    + intros c k b [_ Hc]%lookup_delete_Some. by apply Hfa.
    + intros c k c' k' [_ G1]%lookup_delete_Some [_ G2]%lookup_delete_Some. by apply Hll.
  - split; try done; [by intros; apply Hfa|]. intros c k [Hne Hc]%lookup_delete_Some. by apply Hll.
Qed.

Lemma free_live s fr al a n : heap_inv s fr al -> al !! a = Some n ->
  exists s' fr', free (a + 8) s = Ret tt s' /\ heap_inv s' fr' (delete a al) /\
    keeps_live (delete a al) (h_mem s) (h_mem s') /\ units fr' = units fr + n /\ h_sz s' = h_sz s.
Proof.
  intros [(_ & _ & -> & _)|Hok] Han; [set_solver|].
  destruct (heap_ok_release _ _ _ _ _ Hok Han) as [Hok' Hf].
  destruct (free_run _ _ _ _ _ Hok' Hf) as (s' & fr' & E & Hi & Hsz & Hk & Hu & _).
  exists s', fr'. split_and!; [done|by right| |done|done]. intros c k b [Hne Hc]%lookup_delete_Some Hb. apply Hk.
  pose proof (ho_size _ _ _ Hok c k Hc) as (? & _).
  intros d i [[= -> ->]|Hd]%elem_of_cons.
  - pose proof (ho_live _ _ _ Hok c k a n Hc Han ltac:(done)). unfold apart, ext in *. simpl in *. lia.
  - pose proof (ho_free _ _ _ Hok c k _ Hc Hd). unfold apart, ext in *. simpl in *. lia.
Qed.

Lemma heap_inv_write s fr al m' : heap_inv s fr al -> (forall b, ~ payload al b -> m' b = h_mem s b) ->
  heap_inv (set_h_mem m' s) fr al.
Proof.
  intros [H|[Hr Hps Ha Hfp Hal Hfa Hll Hb0 Htop]] Hm; [by left|right]. split; try done; cbn [h_mem set_h_mem].
  - apply (ring_ext (h_mem s)); [|done]. intros a n b Hn Hb. apply Hm. intros (c & k & Hc & Hcb).
    pose proof (Hfa c k _ Hc Hn). destruct (Hal c k Hc). unfold apart, ext in *. simpl in *. lia.
  - intros a n Han. destruct (Hal a n Han) as (? & ? & ? & <-). split_and!; try done. apply load32_ext.
    intros b Hb. apply Hm. intros (c & k & Hc & Hcb). destruct (decide (a = c)) as [<-|Hne].
    + lia.
    + pose proof (Hll a _ c k Han Hc Hne). destruct (Hal c k Hc). unfold apart, ext in *. simpl in *. lia.
Qed.

Lemma heap_inv_sbrk s fr al n r s' : heap_inv s fr al -> 0 <= n < 2 ^ 31 -> sbrk n s = Ret r s' -> heap_inv s' fr al.
Proof.
  intros Hinv Hn E.
  assert (h_sz s < KERNBASE /\ 0 <= h_sz s) as [Htop H0].
  { destruct Hinv as [(_ & _ & _ & ? & ?)|[_ _ _ _ _ _ _ ? [? ?]]]; lia. }
  unfold sbrk in E. rewrite (bind_Ret (gets _) _ s _ s eq_refl), (s32_small n) in E by lia.
  rewrite u32_small in E by (unfold KERNBASE in *; lia). rewrite (Z.geb_leb n), (proj2 (Z.leb_le 0 n)), Z.geb_leb in E by lia.
  destruct (KERNBASE <=? h_sz s + n) eqn:Et; bool_to_prop; [by injection E as <- <-|]. injection E as <- <-.
  destruct Hinv as [(? & ? & ? & ? & ?)|Hok]; [left; simpl; split_and!; try done; lia|right].
  apply (heap_ok_grow s fr al (h_mem s)); [done|done|lia].
Qed.

Lemma hstep_inv st st' fr : heap_inv st.1 fr st.2 -> hstep st st' -> exists fr', heap_inv st'.1 fr' st'.2.
Proof.
  intros Hinv Hstep. destruct Hstep as [s s' al nb ap Hnb E Hap|s s' al nb Hnb E|s s' al a n Han E|s al m' Hm|s s' al n r Hn E]; simpl in *.
  - destruct (malloc_run s fr al nb Hinv (malloc_Ret_range _ _ _ _ _ _ Hinv Hnb E)) as [(r & s1 & fr1 & E1 & Hok & _)|(s1 & E1 & _)]; rewrite E1 in E; simplify_eq.
    replace (r + 8 - 8) with r by lia. exists fr1. by right.
  - destruct (malloc_run s fr al nb Hinv (malloc_Ret_range _ _ _ _ _ _ Hinv Hnb E)) as [(r & s1 & fr1 & E1 & Hok & _)|(s1 & E1 & Hi & _)]; rewrite E1 in E.
    + injection E as E <-. destruct (ho_size _ _ _ Hok r _ (lookup_insert_eq _ _ _)) as (_ & ? & _). pose proof (ho_base _ _ _ Hok). lia.
    + injection E as <-. by exists fr.
  - destruct (free_live s fr al a n Hinv Han) as (s1 & fr1 & E1 & Hi & _). rewrite E1 in E. injection E as <-. by exists fr1.
  - exists fr. by apply heap_inv_write.
  - exists fr. by eapply heap_inv_sbrk.
Qed.

Lemma rtc_inv st st' : rtc hstep st st' -> (exists fr, heap_inv st.1 fr st.2) -> exists fr, heap_inv st'.1 fr st'.2.
Proof.
  induction 1 as [|st1 st2 st3 Hs _ IH]; [done|]. intros [fr Hi]. apply IH. by eapply hstep_inv.
Qed.

Lemma hsteps_inv s0 s al : h_freep s0 = 0 -> 0 < base -> base + 8 < h_sz s0 < KERNBASE ->
  rtc hstep (s0, ∅) (s, al) -> exists fr, heap_inv s fr al.
Proof.
  intros H0 Hb Hsz Hsteps.
  assert (exists fr, heap_inv s0 fr ∅) as Hinit by (exists []; left; tauto).
  apply (rtc_inv (s0, ∅) (s, al) Hsteps Hinit).
Qed.

(** C11. Safety of malloc and free: take a program that starts with an empty free list and
    calls malloc with any sizes and free in any order, writes to the memory it was given and
    moves the break up.  For a size of at most 2^31 - 16 bytes malloc always answers.  The answer is 0 only when
    the break cannot be raised any more; otherwise it is the address of [nb] bytes
    below the break that overlap no live block nor its header.  The contents of
    all live blocks stay as they were.  Freeing a live block succeeds and leaves the
    other blocks as they were.  For every larger size up to 2^32 - 8 malloc does not answer: sbrk gets the number of
    bytes as a negative int or as 0, the break does not go up, and malloc
    accesses memory beyond it.  (The seven sizes above 2^32 - 8 wrap around to a block of one unit.) *)
Theorem malloc_free_safe s0 s al : h_freep s0 = 0 -> 0 < base -> base + 8 < h_sz s0 < KERNBASE ->
  rtc hstep (s0, ∅) (s, al) ->
  (forall nb, 0 <= nb <= 2 ^ 31 - 16 -> exists ap s', malloc base nb s = Ret ap s' /\
     keeps_live al (h_mem s) (h_mem s') /\
     (ap = 0 /\ KERNBASE <= h_sz s + 8 * Z.max 4096 (nunits_of nb) \/
      base + 16 < ap /\ ap + nb <= h_sz s' /\
      forall a n, al !! a = Some n -> a + 8 * n <= ap - 8 \/ ap + nb <= a)) /\
  (forall a n, al !! a = Some n -> exists s', free (a + 8) s = Ret tt s' /\
     keeps_live (delete a al) (h_mem s) (h_mem s')) /\
  (forall nb, 2 ^ 31 - 16 < nb <= 2 ^ 32 - 8 -> malloc base nb s = Fault).
Proof.
  intros H0 Hb Hsz Hsteps. destruct (hsteps_inv _ _ _ H0 Hb Hsz Hsteps) as [fr Hinv]. split_and!;
    [| |intros nb; by apply malloc_huge with fr al].
  - intros nb Hnb. destruct (nunits_of_small nb Hnb) as (_ & _ & Hfit).
    destruct (malloc_run s fr al nb Hinv (nunits_of_range nb Hnb)) as [(r & s1 & fr1 & E1 & Hok & Hnone & Hk & _)|(s1 & E1 & _ & Hk & _ & _ & Hfull)].
    + exists (r + 8), s1. split_and!; [done|done|right].
      destruct (ho_size _ _ _ Hok r _ (lookup_insert_eq _ _ _)) as (? & ? & ? & _).
      split_and!; [lia|lia|]. intros a n Han. assert (r <> a) as Hne by congruence.
      pose proof (ho_live _ _ _ Hok a n r (nunits_of nb)) as Hap.
      rewrite lookup_insert_ne, lookup_insert_eq in Hap by done. specialize (Hap Han eq_refl ltac:(done)).
      unfold apart, ext in Hap. simpl in Hap. lia.
    + exists 0, s1. split_and!; [done|done|]. by left.
  - intros a n Han. destruct (free_live s fr al a n Hinv Han) as (s1 & fr1 & E1 & _ & Hk & _). by exists s1.
Qed.
(** C35. The size computation of malloc wraps around: asked for one of the seven largest
    sizes of a uint, malloc hands out a block of one unit, a header without
    a single byte for the caller, instead of failing. *)
Theorem malloc_size_overflow s0 s al nb : h_freep s0 = 0 -> 0 < base -> base + 8 < h_sz s0 < KERNBASE ->
  rtc hstep (s0, ∅) (s, al) -> 2 ^ 32 - 7 <= nb < 2 ^ 32 -> h_sz s + 8 * 4096 < KERNBASE ->
  exists ap s', malloc base nb s = Ret ap s' /\ ap <> 0 /\ load32 (h_mem s') (ap - 4) = 1.
Proof.
  intros H0 Hb Hsz Hsteps Hnb Hroom. destruct (hsteps_inv _ _ _ H0 Hb Hsz Hsteps) as [fr Hinv].
  pose proof (nunits_of_top nb Hnb) as Hnu.
  destruct (malloc_run s fr al nb Hinv ltac:(lia)) as [(r & s1 & fr1 & E1 & Hok & _)|(s1 & _ & _ & _ & _ & _ & Hfull)];
    [|rewrite Hnu in Hfull; lia].
  destruct (ho_size _ _ _ Hok r _ (lookup_insert_eq _ _ _)) as (_ & ? & _ & Hs). exists (r + 8), s1.
  split_and!; [done|lia|]. replace (r + 8 - 4) with (r + 4) by lia. by rewrite Hs.
Qed.
End spec.
