(* ===== verification/User.v ===== *)
(** * User programs: effects, files, the library (user/ulib.c, user/printf.c)

    A user program runs in the monad [U]: it returns, exits with a code, does not
    end, or faults.  The kernel is seen through the system calls: [uio] is what the
    descriptors of a process deliver and receive.  A descriptor delivers its bytes in
    pieces, since a read may return fewer bytes than asked for; every behaviour of
    read on a file, a pipe or the console is a list of pieces.

    A [char*] that is only read is the list of the characters it points to, without
    the terminator; a pointer into the same string is a suffix of it. *)
From Stdlib Require Import Ascii String.
From S2P Require Import Prelude Machine StringC.

(** ** Effects *)

Inductive uout (S A : Type) : Type :=
| URet (a : A) (s : S)
| UExit (code : Z) (s : S)
| USpin
| UFault.
Arguments URet {S A} a s.
Arguments UExit {S A} code s.
Arguments USpin {S A}.
Arguments UFault {S A}.

Definition U (S A : Type) : Type := S -> uout S A.

Definition uret {S A} (a : A) : U S A := fun s => URet a s.
Definition ubind {S A B} (m : U S A) (k : A -> U S B) : U S B := fun s =>
  match m s with
  | URet a s' => k a s'
  | UExit c s' => UExit c s'
  | USpin => USpin
  | UFault => UFault
  end.
Definition exit {S A} (code : Z) : U S A := fun s => UExit code s.
Definition uspin {S A} : U S A := fun _ => USpin.
Definition ufault {S A} : U S A := fun _ => UFault.
Definition ugets {S A} (f : S -> A) : U S A := fun s => URet (f s) s.
Definition umodify {S} (f : S -> S) : U S unit := fun s => URet tt (f s).

Declare Scope user_scope.
Delimit Scope user_scope with user.
Notation "'do' x '<-' m ';' k" := (ubind m (fun x => k))
  (at level 200, x name, m at level 100, k at level 200, right associativity) : user_scope.
Notation "m ';;' k" := (ubind m (fun _ => k))
  (at level 100, k at level 200, right associativity) : user_scope.
Open Scope user_scope.

Fixpoint uforeach {S A} (l : list A) (f : A -> U S unit) : U S unit :=
  match l with
  | [] => uret tt
  | x :: l' => f x ;; uforeach l' f
  end.

Lemma ubind_Ret {S A B} (m : U S A) (k : A -> U S B) s a s' : m s = URet a s' -> ubind m k s = k a s'.
Proof. unfold ubind. by intros ->. Qed.

Lemma ubind_assoc {S A B C} (m : U S A) (f : A -> U S B) (g : B -> U S C) s :
  ubind (ubind m f) g s = ubind m (fun x => ubind (f x) g) s.
Proof. unfold ubind. by destruct (m s). Qed.

Ltac ustep E := rewrite (ubind_Ret _ _ _ _ _ E).

(** ** Strings *)

(** The characters of a literal. *)
Definition str (s : string) : list Z := (fun c => Z.of_N (N_of_ascii c)) <$> list_ascii_of_string s.

(** The character a pointer points to. *)
Definition ch (s : list Z) : Z := match s with [] => 0 | c :: _ => c end.

Definition EXIT_SUCCESS : Z := 0.
Definition EXIT_FAILURE : Z := 1.

(** ** Files *)

Record stream := mkStream {
  s_data : list (list Z);   (* the pieces still to come *)
  s_err : bool;             (* what follows them: an error or the end *)
}.

Record uio := mkUio {
  u_in : Z -> stream;
  u_out : Z -> list Z;
  u_full : Z -> bool;               (* descriptors that reject writes *)
  u_files : list Z -> option stream;
  u_next : Z;                       (* the descriptor open returns *)
}.
Definition set_u_in (v : Z -> stream) (s : uio) := mkUio v (u_out s) (u_full s) (u_files s) (u_next s).
Definition set_u_out (v : Z -> list Z) (s : uio) := mkUio (u_in s) v (u_full s) (u_files s) (u_next s).
Definition set_u_next (v : Z) (s : uio) := mkUio (u_in s) (u_out s) (u_full s) (u_files s) v.

(** One read of at most [n] bytes: the count and the bytes. *)
Definition next_piece (n : nat) (w : stream) : Z * list Z * stream :=
  match s_data w with
  | [] => (if s_err w then -1 else 0, [], w)
  | c :: d =>
    if decide (length c <= n)%nat then (Z.of_nat (length c), c, mkStream d (s_err w))
    else (Z.of_nat n, take n c, mkStream (drop n c :: d) (s_err w))
  end.

Definition read (fd : Z) (n : nat) : U uio (Z * list Z) :=
  do w <- ugets (fun s => u_in s fd);
  let '(r, bs, w') := next_piece n w in
  umodify (fun s => set_u_in (upd (u_in s) fd w') s) ;;
  uret (r, bs).

Definition write (fd : Z) (bs : list Z) : U uio Z :=
  do full <- ugets (fun s => u_full s fd);
  if full then uret (-1) else
  umodify (fun s => set_u_out (upd (u_out s) fd (u_out s fd ++ bs)) s) ;;
  uret (Z.of_nat (length bs)).

Definition open (path : list Z) : U uio Z :=
  do f <- ugets (fun s => u_files s path);
  match f with
  | None => uret (-1)
  | Some w =>
    do fd <- ugets u_next;
    umodify (fun s => set_u_next (fd + 1) (set_u_in (upd (u_in s) fd w) s)) ;;
    uret fd
  end.

Definition close (fd : Z) : U uio Z :=
  umodify (fun s => set_u_in (upd (u_in s) fd (mkStream [] true)) s) ;; uret 0.

(** The bytes a stream delivers up to its first end. *)
Definition s_bytes (w : stream) : list Z := concat (s_data w).

(** All pieces carry bytes: read returns 0 or -1 only at the end. *)
Definition solid (w : stream) : Prop := Forall (fun c => c <> []) (s_data w).

Lemma next_piece_spec n w : solid w -> (0 < n)%nat ->
  let '(r, bs, w') := next_piece n w in
  solid w' /\ s_err w' = s_err w /\ s_bytes w = bs ++ s_bytes w' /\ (length bs <= n)%nat /\
  (bs = [] -> s_bytes w = [] /\ w' = w /\ r = if s_err w then -1 else 0) /\
  (bs <> [] -> r = Z.of_nat (length bs)).
Proof.
  destruct w as [[|c d] e]; unfold next_piece, solid, s_bytes; simpl; intros Hs Hn; [by split_and!; try lia|].
  apply Forall_cons in Hs as [Hc Hd]. case_decide as Hl; simpl; split_and!; try done; try lia.
  - constructor; [|done]. intros E. apply (f_equal length) in E. rewrite length_drop in E. simpl in E. lia.
  - by rewrite app_assoc, take_drop.
  - rewrite length_take. lia.
  - intros E. apply (f_equal length) in E. rewrite length_take in E. simpl in E. lia.
  - intros _. rewrite length_take. lia.
Qed.

(** ** ulib.c *)

Fixpoint strcmp (p q : list Z) : Z :=
  match p with
  | [] => 0 - u8 (ch q)
  | a :: p' => if a =? ch q then strcmp p' (tail q) else u8 a - u8 (ch q)
  end.

Definition strlen (s : list Z) : Z := Z.of_nat (length s).

(** The suffix that starts with the first [c]; a search for 0 finds nothing. *)
Fixpoint strchr (s : list Z) (c : Z) : option (list Z) :=
  match s with
  | [] => None
  | x :: s' => if x =? 0 then None else if x =? c then Some s else strchr s' c
  end.

Fixpoint atoi_loop (n : Z) (s : list Z) : Z :=
  match s with
  | [] => n
  | c :: s' => if (48 <=? c) && (c <=? 57) then atoi_loop (s32 (n * 10 + c - 48)) s' else n
  end.
Definition atoi (s : list Z) : Z := atoi_loop 0 s.

(** strcpy, memmove and memset write; [fuel] bounds the length of the source of strcpy. *)
Fixpoint strcpy (fuel : nat) (s t : Z) (m : mem) : option mem :=
  match fuel with
  | O => None
  | S f => let m := upd m s (m t) in if m t =? 0 then Some m else strcpy f (s + 1) (t + 1) m
  end.
Fixpoint memmove_loop (dst src : Z) (n : nat) (m : mem) : mem :=
  match n with O => m | S n' => memmove_loop (dst + 1) (src + 1) n' (upd m dst (m src)) end.
Definition memmove (dst src n : Z) (m : mem) : mem := memmove_loop dst src (Z.to_nat n) m.
Definition memset (dst c n : Z) (m : mem) : mem := stosb dst c n m.

(** gets reads one character at a time; the result is the string in the buffer. *)
Fixpoint gets_loop (room : nat) : U uio (list Z) :=
  match room with
  | O => uret []
  | S r =>
    do r1 <- read 0 1;
    if r1.1 <? 1 then uret [] else
    let c := ch r1.2 in
    if (c =? 10) || (c =? 13) then uret [c] else
    do rest <- gets_loop r; uret (c :: rest)
  end.
Definition gets (max : Z) : U uio (list Z) := gets_loop (Z.to_nat (max - 1)).

(** ** printf.c *)

Definition putc (fd c : Z) : U uio unit := write fd [u8 c] ;; uret tt.

Definition digits : list Z := str "0123456789ABCDEF".

(** The digits of [x], the last one first; a uint has at most 32 of them. *)
Fixpoint digits_loop (fuel : nat) (base x : Z) : list Z :=
  match fuel with
  | O => []
  | S f => nth (Z.to_nat (x mod base)) digits 0 ::
           if x / base =? 0 then [] else digits_loop f base (x / base)
  end.

Definition printint (fd xx base : Z) (sgn : bool) : U uio unit :=
  let neg := sgn && (s32 xx <? 0) in
  let x := if neg then u32 (- s32 xx) else u32 xx in
  let buf := digits_loop 32 base x ++ (if neg then [45] else []) in
  uforeach (reverse buf) (putc fd).

(** The arguments after the format: words and strings. *)
Inductive parg := PInt (z : Z) | PStr (s : list Z) | PNull.

Fixpoint printf_loop (fd : Z) (pct : bool) (fmt : list Z) (ap : list parg) : U uio unit :=
  match fmt with
  | [] => uret tt
  | c :: fmt' =>
    if negb pct then
      if c =? 37 then printf_loop fd true fmt' ap
      else putc fd c ;; printf_loop fd false fmt' ap
    else if c =? 100 then
      match ap with
      | PInt z :: ap' => printint fd z 10 true ;; printf_loop fd false fmt' ap'
      | _ => ufault
      end
    else if (c =? 120) || (c =? 112) then
      match ap with
      | PInt z :: ap' => printint fd z 16 false ;; printf_loop fd false fmt' ap'
      | _ => ufault
      end
    else if c =? 115 then
      match ap with
      | PStr s :: ap' => uforeach s (putc fd) ;; printf_loop fd false fmt' ap'
      | PNull :: ap' => uforeach (str "(null)") (putc fd) ;; printf_loop fd false fmt' ap'
      | _ => ufault
      end
    else if c =? 99 then
      match ap with
      | PInt z :: ap' => putc fd z ;; printf_loop fd false fmt' ap'
      | _ => ufault
      end
    else if c =? 37 then putc fd c ;; printf_loop fd false fmt' ap
    else putc fd 37 ;; putc fd c ;; printf_loop fd false fmt' ap
  end.
Definition printf (fd : Z) (fmt : string) (ap : list parg) : U uio unit :=
  printf_loop fd false (str fmt) ap.

(** ** Output *)

Definition emit (fd : Z) (bs : list Z) (s : uio) : uio :=
  set_u_out (upd (u_out s) fd (u_out s fd ++ bs)) s.

(** [prints m fd bs]: [m] writes [bs] to a descriptor that accepts it, and nothing else. *)
Definition prints (m : U uio unit) (fd : Z) (bs : list Z) : Prop := forall s, u_full s fd = false ->
  m s = URet tt (emit fd bs s).

Lemma emit_nil fd s : emit fd [] s = s.
Proof. unfold emit. rewrite app_nil_r, upd_id by done. by destruct s. Qed.

Lemma emit_emit fd b1 b2 s : emit fd b2 (emit fd b1 s) = emit fd (b1 ++ b2) s.
Proof. unfold emit. simpl. by rewrite upd_eq, upd_upd, app_assoc. Qed.

Lemma write_run fd bs s : u_full s fd = false -> write fd bs s = URet (Z.of_nat (length bs)) (emit fd bs s).
Proof. intros Hf. unfold write, ugets, ubind at 1. by rewrite Hf. Qed.

Lemma prints_ret fd : prints (uret tt) fd [].
Proof. intros s _. by rewrite emit_nil. Qed.

Lemma prints_bind m k fd b1 b2 : prints m fd b1 -> prints k fd b2 -> prints (m ;; k) fd (b1 ++ b2).
Proof. intros Hm Hk s Hs. ustep (Hm s Hs). rewrite Hk by done. by rewrite emit_emit. Qed.

Lemma prints_putc fd c : 0 <= c < 256 -> prints (putc fd c) fd [c].
Proof. intros Hc s Hs. unfold putc. rewrite u8_small by done. by ustep (write_run fd [c] s Hs). Qed.

Lemma prints_chars fd bs : Forall (fun c => 0 <= c < 256) bs -> prints (uforeach bs (putc fd)) fd bs.
Proof.
  induction 1 as [|c bs Hc _ IH]; simpl; [apply prints_ret|]. apply (prints_bind _ _ _ [c]); [by apply prints_putc|done].
Qed.

(** ** Input *)

Lemma next_piece_size n w : 0 < (next_piece n w).1.1 ->
  (length (s_bytes (next_piece n w).2) < length (s_bytes w))%nat.
Proof.
  destruct w as [[|c d] e]; unfold next_piece, s_bytes; simpl; [by destruct e|]. case_decide; simpl; intros H'.
  - rewrite length_app. lia.
  - rewrite !length_app, length_drop. lia.
Qed.

Lemma read_run fd n s : read fd n s =
  URet (next_piece n (u_in s fd)).1 (set_u_in (upd (u_in s) fd (next_piece n (u_in s fd)).2) s).
Proof. unfold read, ugets, ubind at 1. by destruct (next_piece n (u_in s fd)) as [[r bs] w]. Qed.

(** Printing leaves the input alone. *)
Lemma write_in fd bs s r s' : write fd bs s = URet r s' -> u_in s' = u_in s.
Proof. unfold write, ubind, ugets, umodify, uret. by destruct (u_full s fd); intros [= _ <-]. Qed.

(** ** Numbers *)

(** The decimal digits of [x]. *)
Definition decimal (x : Z) : list Z := reverse (digits_loop 32 10 x).

Lemma digit_range i : 0 <= i < 10 -> nth (Z.to_nat i) digits 0 = 48 + i.
Proof.
  intros Hi. assert (i = 0 \/ i = 1 \/ i = 2 \/ i = 3 \/ i = 4 \/ i = 5 \/ i = 6 \/ i = 7 \/ i = 8 \/ i = 9) as H by lia.
  by repeat destruct H as [->|H]; try subst i.
Qed.

Lemma digits_chars fuel x : 0 <= x -> Forall (fun c => 48 <= c <= 57) (digits_loop fuel 10 x).
Proof.
  revert x. induction fuel as [|f IH]; intros x Hx; cbn [digits_loop]; constructor.
  - rewrite digit_range; Z.div_mod_to_equations; lia.
  - destruct (_ =? 0); [done|]. apply IH. Z.div_mod_to_equations. lia.
Qed.

Lemma atoi_app n l c : Forall (fun c => 48 <= c <= 57) l ->
  atoi_loop n (l ++ c) = atoi_loop (atoi_loop n l) c.
Proof.
  intros Hl. revert n. induction Hl as [|d l Hd _ IH]; intros n; simpl; [done|].
  rewrite !(proj2 (Z.leb_le _ _)) by lia. simpl. apply IH.
Qed.

Lemma atoi_digits fuel x : 0 <= x < 2 ^ 31 -> x < 10 ^ Z.of_nat fuel -> (0 < fuel)%nat ->
  atoi (reverse (digits_loop fuel 10 x)) = x.
Proof.
  unfold atoi. revert x. induction fuel as [|f IH]; intros x Hx Hf Hpos; [lia|]. cbn [digits_loop].
  assert (0 <= x / 10 < 2 ^ 31) as Hq by (Z.div_mod_to_equations; lia).
  rewrite reverse_cons, atoi_app.
  2: { apply Forall_reverse. destruct (_ =? 0); [done|]. apply digits_chars. lia. }
  assert (atoi_loop 0 (reverse (if x / 10 =? 0 then [] else digits_loop f 10 (x / 10))) = x / 10) as ->.
  { destruct (x / 10 =? 0) eqn:E; bool_to_prop; [by rewrite E|]. destruct f as [|f].
    - simpl in Hf. exfalso. Z.div_mod_to_equations. lia.
    - apply IH; [done| |lia]. rewrite Nat2Z.inj_succ, Z.pow_succ_r in Hf by lia. Z.div_mod_to_equations. lia. }
  cbn [atoi_loop]. rewrite digit_range by (Z.div_mod_to_equations; lia).
  rewrite !(proj2 (Z.leb_le _ _)) by (Z.div_mod_to_equations; lia). simpl.
  rewrite s32_small; Z.div_mod_to_equations; lia.
Qed.

Lemma atoi_decimal x : 0 <= x < 2 ^ 31 -> atoi (decimal x) = x.
Proof. intros Hx. assert (2 ^ 31 < 10 ^ Z.of_nat 32) by done. apply atoi_digits; lia. Qed.

Lemma prints_decimal fd x : 0 <= x < 2 ^ 31 -> prints (printint fd x 10 true) fd (decimal x).
Proof.
  intros Hx. unfold printint, decimal. rewrite s32_small by lia. rewrite (proj2 (Z.ltb_ge x 0)) by lia. simpl andb.
  cbv iota. rewrite (u32_small x) by lia. rewrite app_nil_r. apply prints_chars, Forall_reverse.
  eapply Forall_impl; [apply digits_chars; lia|]. intros; simpl in *; lia.
Qed.

(** Numbers survive printing: printf with [%d] writes the decimal digits of an int that
    is not negative, and atoi reads the same number back from them. *)
Theorem printf_atoi_roundtrip fd x s : 0 <= x < 2 ^ 31 -> u_full s fd = false ->
  exists bs, printf fd "%d" [PInt x] s = URet tt (emit fd bs s) /\ atoi bs = x.
Proof.
  intros Hx Hs. exists (decimal x). split; [|by apply atoi_decimal]. unfold printf. simpl.
  rewrite <- (app_nil_r (decimal x)). apply prints_bind; [by apply prints_decimal|apply prints_ret|done].
Qed.
