(* ===== verification/Grep.v ===== *)
(** * grep (user/grep.c)

    The matcher of Kernighan and Pike against a declarative reading of its patterns,
    and the loop that splits the input into lines. *)
From Stdlib Require Import String.
From S2P Require Import Prelude Machine StringC User.

(** ** The matcher *)

(** matchstar with the continuation [matchhere(re, _)]; the loop goes over the text. *)
Fixpoint matchstar (mh : list Z -> bool) (c : Z) (text : list Z) : bool :=
  if mh text then true else
  match text with
  | [] => false
  | t :: text' => if (t =? c) || (c =? 46) then matchstar mh c text' else false
  end.

Fixpoint matchhere (re text : list Z) : bool :=
  match re with
  | [] => true
  | r0 :: re1 =>
    let one :=
      if (r0 =? 36) && (ch re1 =? 0) then ch text =? 0 else
      match text with
      | [] => false
      | t :: text' => if (r0 =? 46) || (r0 =? t) then matchhere re1 text' else false
      end in
    match re1 with
    | r1 :: re2 => if r1 =? 42 then matchstar (matchhere re2) r0 text else one
    | [] => one
    end
  end.

Fixpoint match_loop (re text : list Z) : bool :=
  if matchhere re text then true else
  match text with [] => false | _ :: text' => match_loop re text' end.

(** match *)
Definition re_match (re text : list Z) : bool :=
  if ch re =? 94 then matchhere (tail re) text else match_loop re text.

(** ** The loop over the input *)

(** The complete lines of the buffer from [p] on: what is left and what is written. *)
Fixpoint grep_lines (fuel : nat) (pattern p : list Z) : U uio (list Z) :=
  match fuel with
  | O => uspin
  | S f =>
    match strchr p 10 with
    | None => uret p
    | Some q =>
      let line := take (length p - length q) p in
      (if re_match pattern line then write 1 (line ++ [10]) ;; uret tt else uret tt) ;;
      grep_lines f pattern (tail q)
    end
  end.

(** [m] holds the bytes kept at the start of the buffer of 1024 bytes. *)
Fixpoint grep_loop (fuel : nat) (pattern : list Z) (fd : Z) (m : list Z) : U uio unit :=
  match fuel with
  | O => uspin
  | S f =>
    do r <- read fd (1024 - length m - 1);
    if r.1 <=? 0 then uret tt else
    let buf := m ++ r.2 in
    do p <- grep_lines (S (length buf)) pattern buf;
    grep_loop f pattern fd (if (length p =? length buf)%nat then [] else p)
  end.

(** Each read before the last delivers a byte. *)
Definition grep (pattern : list Z) (fd : Z) : U uio unit :=
  do n <- ugets (fun s => length (s_bytes (u_in s fd)));
  grep_loop (S n) pattern fd [].

Fixpoint grep_files (pattern : list Z) (files : list (list Z)) : U uio unit :=
  match files with
  | [] => exit EXIT_SUCCESS
  | f :: files' =>
    do fd <- open f;
    if fd <? 0 then printf 1 "grep: cannot open %s
" [PStr f] ;; exit EXIT_FAILURE else
    grep pattern fd ;;
    close fd ;;
    grep_files pattern files'
  end.

Definition grep_main (argv : list (list Z)) : U uio unit :=
  match argv with
  | _ :: pattern :: files =>
    match files with
    | [] => grep pattern 0 ;; exit EXIT_SUCCESS
    | _ => grep_files pattern files
    end
  | _ => printf 2 "usage: grep pattern [file ...]
" [] ;; exit EXIT_FAILURE
  end.

(** ** What patterns mean *)

(** A pattern is a sequence of characters, [.] for any character, each possibly with a
    star, and [$] at the end for the end of the text. *)
Inductive atom := One (c : Z) | Many (c : Z).

Fixpoint atoms (re : list Z) : list atom * bool :=
  match re with
  | [] => ([], false)
  | c :: re1 =>
    match re1 with
    | r1 :: re2 =>
      if r1 =? 42 then (Many c :: (atoms re2).1, (atoms re2).2)
      else (One c :: (atoms re1).1, (atoms re1).2)
    | [] => if c =? 36 then ([], true) else ([One c], false)
    end
  end.

(** [.] stands for any character, another character for itself. *)
Definition stands (c t : Z) : Prop := c = 46 \/ c = t.

(** The texts an atom, and a sequence of atoms, describe. *)
Definition atom_lang (a : atom) (w : list Z) : Prop :=
  match a with
  | One c => exists t, w = [t] /\ stands c t
  | Many c => Forall (stands c) w
  end.
Fixpoint seq_lang (l : list atom) (w : list Z) : Prop :=
  match l with
  | [] => w = []
  | a :: l' => exists w1 w2, w = w1 ++ w2 /\ atom_lang a w1 /\ seq_lang l' w2
  end.

(** [re] describes a prefix of the text, all of it if the pattern ends in [$]. *)
Definition here_lang (re text : list Z) : Prop :=
  exists w rest, text = w ++ rest /\ seq_lang (atoms re).1 w /\ ((atoms re).2 = true -> rest = []).

Definition text_lang (re text : list Z) : Prop :=
  if ch re =? 94 then here_lang (tail re) text
  else exists pre text', text = pre ++ text' /\ here_lang re text'.

Notation chars := (Forall (fun c => c <> 0)).

Lemma matchstar_spec mh c text : matchstar mh c text = true <->
  exists w rest, text = w ++ rest /\ Forall (stands c) w /\ mh rest = true.
Proof.
  induction text as [|t text IH]; cbn [matchstar].
  - destruct (mh []) eqn:E; (split; [|done || (intros ([|] & rest & ? & _ & ?); simplify_eq/=; congruence)]); [|done].
    intros _. by exists [], [].
  - destruct (mh (t :: text)) eqn:E.
    { split; [|done]. intros _. by exists [], (t :: text). }
    destruct ((t =? c) || (c =? 46)) eqn:Ec.
    + rewrite IH. split.
      * intros (w & rest & -> & Hw & Hm). exists (t :: w), rest. split_and!; [done| |done]. constructor; [|done].
        bool_to_prop. destruct Ec; bool_to_prop; [right|left]; congruence.
      * intros ([|t' w] & rest & Heq & Hw & Hm); simplify_eq/=; [congruence|].
        apply Forall_cons in Hw as [_ Hw]. eauto.
    + split; [done|]. intros ([|t' w] & rest & Heq & Hw & Hm); simplify_eq/=; [congruence|].
      apply Forall_cons in Hw as [Hs _]. bool_to_prop. unfold stands in Hs. lia.
Qed.

(** What one turn of matchhere means for the language. *)
Lemma here_many c re text : here_lang (c :: 42 :: re) text <->
  exists w rest, text = w ++ rest /\ Forall (stands c) w /\ here_lang re rest.
Proof.
  unfold here_lang. simpl. split.
  - intros (w & rest & -> & (w1 & w2 & -> & H1 & H2) & He). exists w1, (w2 ++ rest). rewrite app_assoc. eauto 8.
  - intros (w1 & rest' & -> & H1 & w2 & rest & -> & H2 & He). exists (w1 ++ w2), rest. rewrite <- app_assoc. eauto 10.
Qed.

Lemma here_one c re text : ch re <> 42 -> ~ (c = 36 /\ re = []) ->
  here_lang (c :: re) text <-> exists t text', text = t :: text' /\ stands c t /\ here_lang re text'.
Proof.
  intros Hre Hc.
  assert (atoms (c :: re) = (One c :: (atoms re).1, (atoms re).2)) as Ha.
  { destruct re as [|r1 re]; simpl.
    - destruct (c =? 36) eqn:E; bool_to_prop; naive_solver.
    - simpl in Hre. rewrite (proj2 (Z.eqb_neq r1 42)) by done. done. }
  unfold here_lang. rewrite Ha. simpl. split.
  - intros (w & rest & -> & (w1 & w2 & -> & (t & -> & Ht) & H2) & He). exists t, (w2 ++ rest). split_and!; [done|done|]. eauto.
  - intros (t & text' & -> & Ht & w & rest & -> & Hw & He). exists (t :: w), rest. split_and!; [done| |done].
    exists [t], w. split_and!; [done| |done]. eauto.
Qed.

Lemma matchhere_spec re text : chars re -> chars text -> matchhere re text = true <-> here_lang re text.
Proof.
  remember (length re) as n eqn:Hn. revert re text Hn.
  induction n as [n IH] using lt_wf_ind. intros re text -> Hre Htext.
  destruct re as [|c re1].
  { split; [|done]. intros _. exists [], text. by split_and!. }
  apply Forall_cons in Hre as [Hc Hre1].
  destruct (decide (ch re1 = 42)) as [Hstar|Hstar].
  - destruct re1 as [|r1 re2]; [done|]. simpl in Hstar. subst r1. apply Forall_cons in Hre1 as [_ Hre2].
    rewrite here_many. change (matchhere (c :: 42 :: re2) text) with (matchstar (matchhere re2) c text).
    rewrite matchstar_spec. split; intros (w & rest & -> & Hw & Hm); exists w, rest;
      (split_and!; [done|done|]); apply Forall_app in Htext as [_ Hrest];
      apply (IH (length re2) ltac:(simpl; lia) re2 rest eq_refl Hre2 Hrest), Hm.
  - assert (matchhere (c :: re1) text = if (c =? 36) && (ch re1 =? 0) then ch text =? 0 else
      match text with [] => false | t :: text' => if (c =? 46) || (c =? t) then matchhere re1 text' else false end) as ->.
    { destruct re1 as [|r1 re2]; [done|]. simpl in Hstar. cbn [matchhere]. by rewrite (proj2 (Z.eqb_neq r1 42)). }
    destruct ((c =? 36) && (ch re1 =? 0)) eqn:Eend; bool_to_prop.
    + assert (re1 = []) as ->. { destruct re1 as [|r1 re1]; [done|]. apply Forall_cons in Hre1 as [? _]. done. }
      subst c. unfold here_lang. simpl. rewrite Z.eqb_eq. split.
      * intros Ht. exists [], []. split_and!; [|done|done]. destruct text; [done|]. apply Forall_cons in Htext as [? _]. done.
      * intros (w & rest & -> & -> & He). by rewrite He.
    + rewrite here_one; [|done|].
      2: { intros [-> ->]. simpl in Eend. destruct Eend; done. }
      destruct text as [|t text']; [split; [done|]; intros (? & ? & ? & _); done|].
      apply Forall_cons in Htext as [_ Htext].
      pose proof (IH (length re1) ltac:(simpl; lia) re1 text' eq_refl Hre1 Htext) as Hsub.
      destruct ((c =? 46) || (c =? t)) eqn:Ec.
      * rewrite Hsub. split.
        -- intros Hh. exists t, text'. split_and!; [done| |done]. bool_to_prop. destruct Ec; bool_to_prop; [by left|by right].
        -- intros (t' & text'' & [= <- <-] & _ & Hh). done.
      * split; [done|]. intros (t' & text'' & [= <- <-] & [Hs|Hs] & _); bool_to_prop; congruence.
Qed.

Lemma match_loop_spec re text : chars re -> chars text ->
  match_loop re text = true <-> exists pre text', text = pre ++ text' /\ here_lang re text'.
Proof.
  intros Hre. induction text as [|t text IH]; intros Ht; cbn [match_loop].
  - destruct (matchhere re []) eqn:E.
    + split; [|done]. intros _. exists [], []. split; [done|]. by apply matchhere_spec.
    + split; [done|]. intros ([|] & text' & ? & Hh); simplify_eq/=. apply matchhere_spec in Hh; [congruence|done..].
  - destruct (matchhere re (t :: text)) eqn:E.
    + split; [|done]. intros _. exists [], (t :: text). split; [done|]. by apply matchhere_spec.
    + pose proof Ht as [_ Ht']%Forall_cons. rewrite IH by done. split.
      * intros (pre & text' & -> & Hh). by exists (t :: pre), text'.
      * intros ([|t' pre] & text' & ? & Hh); simplify_eq/=; [|eauto].
        apply matchhere_spec in Hh; [congruence|done..].
Qed.

(** C23. The matcher decides the meaning of its patterns: match returns 1 exactly when the
    text has a part, anchored by [^] and [$], that the sequence of characters, dots
    and stars of the pattern describes. *)
Theorem match_correct re text : chars re -> chars text -> re_match re text = true <-> text_lang re text.
Proof.
  intros Hre Ht. unfold re_match, text_lang. destruct (ch re =? 94) eqn:E.
  - apply matchhere_spec; [|done]. destruct re; [done|]. by apply Forall_cons in Hre as [_ ?].
  - by apply match_loop_spec.
Qed.

(** ** The lines *)

(** The complete lines of the text that match; [acc] is the line read so far. *)
Fixpoint select (pattern acc text : list Z) : list Z :=
  match text with
  | [] => []
  | c :: t =>
    if c =? 10 then (if re_match pattern acc then acc ++ [10] else []) ++ select pattern [] t
    else select pattern (acc ++ [c]) t
  end.

(** The line that the text leaves incomplete. *)
Fixpoint unfinished (acc text : list Z) : list Z :=
  match text with
  | [] => acc
  | c :: t => if c =? 10 then unfinished [] t else unfinished (acc ++ [c]) t
  end.

Lemma select_app pattern acc t1 t2 :
  select pattern acc (t1 ++ t2) = select pattern acc t1 ++ select pattern (unfinished acc t1) t2.
Proof.
  revert acc. induction t1 as [|c t1 IH]; intros acc; simpl; [done|].
  destruct (c =? 10); rewrite IH; [by rewrite app_assoc|done].
Qed.

Lemma select_line pattern acc l : 10 ∉ l -> select pattern acc l = [] /\ unfinished acc l = acc ++ l.
Proof.
  revert acc. induction l as [|c l IH]; intros acc Hl; simpl; [by rewrite app_nil_r|].
  apply not_elem_of_cons in Hl as [Hc Hl]. rewrite (proj2 (Z.eqb_neq c 10)) by congruence.
  destruct (IH (acc ++ [c]) Hl) as [-> ->]. by rewrite <- app_assoc.
Qed.

Lemma strchr_newline p : chars p ->
  match strchr p 10 with
  | None => 10 ∉ p
  | Some q => exists line rest, q = 10 :: rest /\ p = line ++ q /\ 10 ∉ line
  end.
Proof.
  induction 1 as [|c p Hc _ IH]; simpl; [apply not_elem_of_nil|]. rewrite (proj2 (Z.eqb_neq c 0)) by done.
  destruct (c =? 10) eqn:E; bool_to_prop.
  - subst c. exists [], p. split_and!; [done..|apply not_elem_of_nil].
  - destruct (strchr p 10) as [q|].
    + destruct IH as (line & rest & -> & -> & Hl). exists (c :: line), rest. split_and!; [done..|].
      apply not_elem_of_cons. split; [congruence|done].
    + apply not_elem_of_cons. split; [congruence|done].
Qed.

Lemma grep_lines_run pattern fuel : forall p s, chars p -> (length p < fuel)%nat -> u_full s 1 = false ->
  grep_lines fuel pattern p s = URet (unfinished [] p) (emit 1 (select pattern [] p) s).
Proof.
  induction fuel as [|f IH]; intros p s Hp Hf Hs; [lia|]. cbn [grep_lines].
  pose proof (strchr_newline p Hp) as Hq. destruct (strchr p 10) as [q|].
  - destruct Hq as (line & rest & -> & -> & Hl). rewrite length_app. replace (_ - _)%nat with (length line) by lia.
    rewrite take_app_length. apply Forall_app in Hp as [_ [_ Hrest]%Forall_cons]. rewrite length_app in Hf. simpl in Hf.
    rewrite select_app. destruct (select_line pattern [] line Hl) as [-> Hu]. cbn [tail].
    assert (unfinished [] (line ++ 10 :: rest) = unfinished [] rest) as ->.
    { clear -Hl. generalize (@nil Z) at 1 as acc. induction line as [|c l IH]; intros acc; simpl; [done|].
      apply not_elem_of_cons in Hl as [Hc Hl]. rewrite (proj2 (Z.eqb_neq c 10)) by congruence. by apply IH. }
    rewrite Hu. cbn [app select Z.eqb Pos.eqb]. rewrite <- emit_emit.
    destruct (re_match pattern line).
    + rewrite (ubind_Ret _ _ s tt (emit 1 (line ++ [10]) s)) by by rewrite (ubind_Ret _ _ _ _ _ (write_run 1 (line ++ [10]) s Hs)).
      rewrite IH; [done|done|lia|done].
    + rewrite (ubind_Ret _ _ s tt s) by done. rewrite IH; [by rewrite emit_nil|done|lia|done].
  - destruct (select_line pattern [] p Hq) as [-> ->]. by rewrite emit_nil.
Qed.

(** ** Termination *)

Lemma grep_lines_in pattern fuel : forall p s q s', grep_lines fuel pattern p s = URet q s' -> u_in s' = u_in s.
Proof.
  induction fuel as [|f IH]; intros p s q s'; simpl; [done|]. destruct (strchr p 10) as [r|].
  - unfold ubind. destruct (re_match _ _); [|by intros ?%IH].
    destruct (write _ _ s) as [r1 s1| | |] eqn:E; try done. intros ->%IH. by eapply write_in.
  - by intros [= _ <-].
Qed.

(** The bound on the number of reads is enough: any larger one gives the same result. *)
Lemma grep_loop_fuel pattern fd f1 : forall f2 m s,
  (length (s_bytes (u_in s fd)) < f1)%nat -> (length (s_bytes (u_in s fd)) < f2)%nat ->
  grep_loop f1 pattern fd m s = grep_loop f2 pattern fd m s.
Proof.
  induction f1 as [|f1 IH]; intros [|f2] m s H1 H2; try lia. cbn [grep_loop].
  set (n := (1024 - length m - 1)%nat). ustep (read_run fd n s). ustep (read_run fd n s).
  pose proof (next_piece_size n (u_in s fd)) as Hlt. destruct (next_piece n (u_in s fd)) as [[r bs] w]. cbn [fst snd] in *.
  destruct (r <=? 0) eqn:E; bool_to_prop; [done|]. set (s1 := set_u_in _ s). unfold ubind.
  destruct (grep_lines _ _ _ s1) as [p s2| | |] eqn:El; try done. apply grep_lines_in in El.
  apply IH; rewrite El; unfold s1; simpl; rewrite upd_eq; lia.
Qed.

(** ** What grep writes *)

Lemma strchr_none p : 10 ∉ p -> strchr p 10 = None.
Proof.
  induction p as [|c p IH]; simpl; [done|]. intros [Hc Hp]%not_elem_of_cons.
  destruct (c =? 0); [done|]. rewrite (proj2 (Z.eqb_neq c 10)) by congruence. by apply IH.
Qed.

(** A piece without a newline is lost: when read delivers less than a line, grep behaves
    as if these bytes had never been in the input, although the rest of the line
    follows. *)
Theorem grep_loses_partial_line pattern fd s c d e : u_in s fd = mkStream (c :: d) e ->
  c <> [] -> 10 ∉ c -> (length c <= 1023)%nat ->
  grep pattern fd s = grep pattern fd (set_u_in (upd (u_in s) fd (mkStream d e)) s).
Proof.
  intros Hin Hc Hnl Hlen. unfold grep, ugets, ubind. rewrite Hin. cbn [u_in set_u_in]. rewrite upd_eq.
  assert (0 < length c)%nat as Hpos by (destruct c; [done|simpl; lia]).
  set (n := length (s_bytes (mkStream (c :: d) e))).
  assert (length (s_bytes (mkStream d e)) < n)%nat as Hn by (unfold n, s_bytes; simpl; rewrite length_app; lia).
  change (grep_loop (S n) pattern fd [] s) with
    (ubind (read fd 1023) (fun r => if r.1 <=? 0 then uret tt else
      do p <- grep_lines (S (length r.2)) pattern r.2;
      grep_loop n pattern fd (if (length p =? length r.2)%nat then [] else p)) s).
  ustep (read_run fd 1023 s). rewrite Hin. unfold next_piece. cbn [s_data s_err]. rewrite decide_True by done. cbn [fst snd].
  rewrite (proj2 (Z.leb_gt _ 0)) by lia. cbn [grep_lines]. rewrite strchr_none by done.
  rewrite (ubind_Ret (uret c) _ _ _ _ eq_refl), Nat.eqb_refl. apply grep_loop_fuel; cbn [u_in set_u_in]; rewrite upd_eq; lia.
Qed.

(** Every line fits into the buffer: any 1023 bytes in a row have a newline. *)
Definition short_lines (text : list Z) : Prop :=
  forall pre seg post, text = pre ++ seg ++ post -> length seg = 1023%nat -> 10 ∈ seg.

Lemma short_lines_suffix t1 t2 : short_lines (t1 ++ t2) -> short_lines t2.
Proof. intros H pre seg post ->. apply (H (t1 ++ pre) seg post). by rewrite <- app_assoc. Qed.

Lemma unfinished_suffix acc text : exists pre, acc ++ text = pre ++ unfinished acc text /\ 10 ∉ unfinished acc text \/ 10 ∈ acc.
Proof.
  revert acc. induction text as [|c t IH]; intros acc; simpl.
  - rewrite app_nil_r. destruct (decide (10 ∈ acc)); [by exists []; right|]. exists []. by left.
  - destruct (c =? 10) eqn:E; bool_to_prop.
    + destruct (IH []) as (pre & [[H1 H2]|H]); [|set_solver]. simpl in H1.
      destruct (decide (10 ∈ acc)); [by exists []; right|]. exists (acc ++ c :: pre). left.
      rewrite <- app_assoc. simpl. by rewrite <- H1.
    + destruct (IH (acc ++ [c])) as (pre & [[H1 H2]|H]).
      * exists pre. left. rewrite <- app_assoc in H1. done.
      * exists []. right. set_solver.
Qed.

(** A read of a file: the bytes asked for, or all that are left. *)
Lemma file_piece n rest e : rest <> [] -> (0 < n)%nat -> exists bs rest' d',
  next_piece n (mkStream [rest] e) = (Z.of_nat (length bs), bs, mkStream d' e) /\
  bs <> [] /\ rest = bs ++ rest' /\ (d' = [rest'] \/ d' = [] /\ rest' = []) /\
  (length bs <= n)%nat /\ (rest' <> [] -> length bs = n).
Proof.
  intros Hne Hn. unfold next_piece. cbn [s_data s_err]. case_decide as Hc.
  - exists rest, [], []. rewrite app_nil_r. split_and!; try done. by right.
  - exists (take n rest), (drop n rest), [drop n rest]. rewrite take_drop, length_take. split_and!; try done; try lia.
    + do 3 f_equal. lia.
    + intros E%(f_equal length). rewrite length_take in E. simpl in E. lia.
    + by left.
Qed.

Lemma grep_loop_run pattern fd fuel : forall m rest d e s, u_in s fd = mkStream d e ->
  (d = [rest] \/ d = [] /\ rest = []) -> u_full s 1 = false -> chars (m ++ rest) -> 10 ∉ m ->
  (length m < 1023)%nat -> short_lines (m ++ rest) -> (length rest < fuel)%nat ->
  exists s', grep_loop fuel pattern fd m s = URet tt s' /\ u_out s' = u_out (emit 1 (select pattern m rest) s).
Proof.
  induction fuel as [|f IH]; intros m rest d e s Hin Hd Hs Hch Hm Hlm Hsh Hf; [lia|]. cbn [grep_loop].
  set (n := (1024 - length m - 1)%nat). ustep (read_run fd n s). rewrite Hin.
  destruct (decide (rest = [])) as [->|Hne].
  { assert ((next_piece n (mkStream d e)).1.1 <= 0) as Hr.
    { destruct Hd as [->|[-> _]]; unfold next_piece; cbn [s_data s_err]; [|by destruct e].
      case_decide; [done|simpl in *; lia]. }
    apply Z.leb_le in Hr. rewrite Hr. eexists. split; [done|]. cbn [select]. by rewrite emit_nil. }
  destruct Hd as [->|[_ ->]]; [|done].
  destruct (file_piece n rest e Hne ltac:(lia)) as (bs & rest' & d' & -> & Hbs & -> & Hd' & Hle & Hfull).
  assert (length (m ++ bs) <= 1023)%nat as Hle' by (rewrite length_app; unfold n in *; lia).
  cbn [fst snd]. assert (0 < length bs)%nat as Hpos by (destruct bs; [done|simpl; lia]).
  rewrite (proj2 (Z.leb_gt _ 0)) by lia. set (s1 := set_u_in _ s). rewrite app_assoc in Hch, Hsh.
  apply Forall_app in Hch as [Hch1 Hch2].
  ustep (grep_lines_run pattern (S (length (m ++ bs))) (m ++ bs) s1 Hch1 ltac:(lia) Hs).
  destruct (select_line pattern [] m Hm) as [Hsel Hun].
  assert (select pattern m (bs ++ rest') = select pattern [] (m ++ bs) ++ select pattern (unfinished [] (m ++ bs)) rest') as Hsplit.
  { rewrite <- select_app, <- app_assoc, (select_app _ _ m), Hsel, Hun. done. }
  rewrite Hsplit. destruct (unfinished_suffix [] (m ++ bs)) as (pre & [[Hu1 Hu2]|?]); [|set_solver]. simpl in Hu1.
  set (u := unfinished [] (m ++ bs)) in *. set (m' := if (length u =? length (m ++ bs))%nat then [] else u).
  assert ((length m' < 1023)%nat /\ 10 ∉ m' /\ chars m' /\ short_lines (m' ++ rest') /\
    select pattern m' rest' = select pattern u rest') as (Hm1 & Hm2 & Hm3 & Hm4 & <-).
  { unfold m'. pose proof (f_equal length Hu1) as Hlu. rewrite (length_app pre) in Hlu. destruct (Nat.eqb_spec (length u) (length (m ++ bs))) as [El|El].
    - assert (rest' = []) as ->.
      { destruct (decide (rest' = [])) as [|Hr]; [done|]. exfalso. apply Hfull in Hr.
        assert (length (m ++ bs) = 1023%nat) as Hr' by (rewrite length_app; unfold n in *; lia).
        specialize (Hsh [] (m ++ bs) rest' eq_refl Hr'). destruct pre; [|simpl in *; lia]. simpl in Hu1. by rewrite Hu1 in Hsh. }
      simpl. split_and!; [lia|apply not_elem_of_nil|done| |done].
      intros [|] [|] [|] E El'; simplify_eq/=; done.
    - rewrite Hu1 in Hch1, Hsh. apply Forall_app in Hch1 as [_ Hch1]. rewrite <- app_assoc in Hsh.
      split_and!; [lia|done|done|by eapply short_lines_suffix|done]. }
  destruct (IH m' rest' d' e (emit 1 (select pattern [] (m ++ bs)) s1)) as (s' & E & Ho); try done.
  - cbn [u_in emit set_u_out]. unfold s1. cbn [u_in set_u_in]. by rewrite upd_eq.
  - by apply Forall_app.
  - rewrite length_app in Hf. lia.
  - exists s'. split; [done|]. rewrite Ho, emit_emit. done.
Qed.

(** grep of a file whose lines fit into the buffer writes exactly the lines that match,
    in order and unchanged; an incomplete last line is ignored. *)
Theorem grep_selects pattern fd text e s : u_in s fd = mkStream [text] e -> u_full s 1 = false ->
  chars text -> short_lines text ->
  exists s', grep pattern fd s = URet tt s' /\ u_out s' = upd (u_out s) 1 (u_out s 1 ++ select pattern [] text).
Proof.
  intros Hin Hs Hch Hsh. unfold grep, ugets, ubind. rewrite Hin.
  destruct (grep_loop_run pattern fd (S (length (s_bytes (mkStream [text] e)))) [] text [text] e s)
    as (s' & E & Ho); try done; [by left|apply not_elem_of_nil|simpl; lia|unfold s_bytes; simpl; rewrite app_nil_r; lia|].
  exists s'. split; [exact E|]. by rewrite Ho.
Qed.
