(* ===== verification/Utils.v ===== *)
(** * wc, cat and echo (user/wc.c, user/cat.c, user/echo.c) *)
From Stdlib Require Import String.
From S2P Require Import Prelude Machine StringC User.

(** ** wc *)

(** The counters l, w, c and inword. *)
Record wcst := mkWc { wc_l : Z; wc_w : Z; wc_c : Z; wc_inword : bool }.

Definition blanks : list Z := [32; 13; 9; 10; 11].

(** The body of the for loop. *)
Definition wc_char (st : wcst) (b : Z) : wcst :=
  let c := s32 (wc_c st + 1) in
  let l := if b =? 10 then s32 (wc_l st + 1) else wc_l st in
  match strchr blanks b with
  | Some _ => mkWc l (wc_w st) c false
  | None => if wc_inword st then mkWc l (wc_w st) c true else mkWc l (s32 (wc_w st + 1)) c true
  end.

Fixpoint wc_loop (fuel : nat) (fd : Z) (st : wcst) : U uio (Z * wcst) :=
  match fuel with
  | O => uspin
  | S f =>
    do r <- read fd 512;
    if r.1 <=? 0 then uret (r.1, st) else wc_loop f fd (foldl wc_char st r.2)
  end.

(** Each read before the last delivers a byte. *)
Definition wc (fd : Z) (name : list Z) : U uio unit :=
  do n <- ugets (fun s => length (s_bytes (u_in s fd)));
  do r <- wc_loop (S n) fd (mkWc 0 0 0 false);
  if r.1 <? 0 then printf 1 "wc: read error
" [] ;; exit EXIT_FAILURE else
  printf 1 "%d %d %d %s
" [PInt (wc_l r.2); PInt (wc_w r.2); PInt (wc_c r.2); PStr name].

Fixpoint wc_files (files : list (list Z)) : U uio unit :=
  match files with
  | [] => exit EXIT_SUCCESS
  | f :: files' =>
    do fd <- open f;
    if fd <? 0 then printf 1 "wc: cannot open %s
" [PStr f] ;; exit EXIT_FAILURE else
    wc fd f ;; close fd ;; wc_files files'
  end.

Definition wc_main (argv : list (list Z)) : U uio unit :=
  match argv with
  | _ :: ((_ :: _) as files) => wc_files files
  | _ => wc 0 [] ;; exit EXIT_SUCCESS
  end.

(** ** cat *)

Fixpoint cat_loop (fuel : nat) (fd : Z) : U uio Z :=
  match fuel with
  | O => uspin
  | S f =>
    do r <- read fd 512;
    if r.1 <=? 0 then uret r.1 else
    do n <- write 1 r.2;
    if negb (n =? r.1) then printf 1 "cat: write error
" [] ;; exit EXIT_FAILURE else
    cat_loop f fd
  end.

Definition cat (fd : Z) : U uio unit :=
  do n <- ugets (fun s => length (s_bytes (u_in s fd)));
  do r <- cat_loop (S n) fd;
  if r <? 0 then printf 1 "cat: read error
" [] ;; exit EXIT_FAILURE else uret tt.

Fixpoint cat_files (files : list (list Z)) : U uio unit :=
  match files with
  | [] => exit EXIT_SUCCESS
  | f :: files' =>
    do fd <- open f;
    if fd <? 0 then printf 1 "cat: cannot open %s
" [PStr f] ;; exit EXIT_FAILURE else
    cat fd ;; close fd ;; cat_files files'
  end.

Definition cat_main (argv : list (list Z)) : U uio unit :=
  match argv with
  | _ :: ((_ :: _) as files) => cat_files files
  | _ => cat 0 ;; exit EXIT_SUCCESS
  end.

(** ** echo *)

Fixpoint echo_args (args : list (list Z)) : U uio unit :=
  match args with
  | [] => exit EXIT_SUCCESS
  | a :: args' =>
    printf 1 "%s%s" [PStr a; PStr (match args' with [] => [10] | _ => [32] end)] ;;
    echo_args args'
  end.
Definition echo_main (argv : list (list Z)) : U uio unit := echo_args (tail argv).

(** ** What they compute *)

Definition blank (b : Z) : bool := bool_decide (b ∈ blanks).

(** The number of bytes that start a word: not blank, at the start or after a blank. *)
Fixpoint word_starts (prev : bool) (text : list Z) : Z :=
  match text with
  | [] => 0
  | b :: t => (if prev && negb (blank b) then 1 else 0) + word_starts (blank b) t
  end.
Definition words (text : list Z) : Z := word_starts true text.
Definition newlines (text : list Z) : Z := Z.of_nat (length (filter (fun b => b = 10) text)).

Lemma strchr_blank b : strchr blanks b = None <-> blank b = false.
Proof.
  unfold blank. rewrite bool_decide_eq_false. unfold blanks. cbn [strchr].
  repeat match goal with |- context [?x =? 0] => change (x =? 0) with false; cbv iota end.
  repeat match goal with |- context [?x =? b] => destruct (Z.eqb_spec x b); [subst b; split; [done|intros []; set_solver]|] end.
  split; [intros _; set_solver|done].
Qed.

Lemma word_starts_range p text : 0 <= word_starts p text <= Z.of_nat (length text).
Proof. revert p. induction text as [|b t IH]; intros p; simpl; [lia|]. specialize (IH (blank b)). destruct (_ && _); lia. Qed.

(** The loop adds the counts of the bytes it sees. *)
Lemma wc_chars st text : 0 <= wc_l st -> 0 <= wc_w st -> 0 <= wc_c st ->
  wc_l st + Z.of_nat (length text) < 2 ^ 31 -> wc_w st + Z.of_nat (length text) < 2 ^ 31 ->
  wc_c st + Z.of_nat (length text) < 2 ^ 31 ->
  foldl wc_char st text =
    mkWc (wc_l st + newlines text) (wc_w st + word_starts (negb (wc_inword st)) text)
         (wc_c st + Z.of_nat (length text)) (wc_inword (foldl wc_char st text)).
Proof.
  revert st. induction text as [|b t IH]; intros [l w c i] Hl Hw Hc HL HW HC; simpl in *.
  { unfold newlines. simpl. by rewrite !Z.add_0_r. }
  assert (wc_char (mkWc l w c i) b =
    mkWc (l + if decide (b = 10) then 1 else 0) (w + if negb i && negb (blank b) then 1 else 0) (c + 1) (negb (blank b))) as ->.
  { unfold wc_char. cbn [wc_l wc_w wc_c wc_inword]. rewrite (s32_small (c + 1)) by lia.
    assert ((if b =? 10 then s32 (l + 1) else l) = l + if decide (b = 10) then 1 else 0) as ->.
    { destruct (Z.eqb_spec b 10); case_decide; try done; [rewrite s32_small; lia|lia]. }
    destruct (strchr blanks b) eqn:E.
    - destruct (blank b) eqn:Eb; [|apply strchr_blank in Eb; congruence]. simpl. by rewrite andb_false_r, (Z.add_0_r w).
    - apply strchr_blank in E. rewrite E. simpl. rewrite andb_true_r.
      destruct i; simpl; [by rewrite Z.add_0_r|rewrite s32_small by lia; done]. }
  rewrite IH; simpl; try solve [repeat case_decide; lia|destruct (_ && _); lia|lia].
  f_equal.
  - unfold newlines. rewrite filter_cons. case_decide; simpl; lia.
  - rewrite negb_involutive. lia.
  - lia.
Qed.

Lemma wc_loop_run fd fuel : forall st s, solid (u_in s fd) ->
  (length (s_bytes (u_in s fd)) < fuel)%nat ->
  exists s', wc_loop fuel fd st s = URet (if s_err (u_in s fd) then -1 else 0, foldl wc_char st (s_bytes (u_in s fd))) s' /\
    u_out s' = u_out s /\ u_full s' = u_full s.
Proof.
  induction fuel as [|f IH]; intros st s Hs Hf; [lia|]. cbn [wc_loop]. ustep (read_run fd 512 s).
  pose proof (next_piece_spec 512 (u_in s fd) Hs ltac:(lia)) as Hp.
  destruct (next_piece 512 (u_in s fd)) as [[r bs] w]. destruct Hp as (Hw & He & Hb & Hlen & H0 & H1).
  destruct (decide (bs = [])) as [->|Hne]; cbn [fst snd].
  - destruct (H0 eq_refl) as (-> & -> & ->). eexists. split; [destruct (s_err (u_in s fd)); done|done].
  - rewrite (H1 Hne). assert (0 < length bs)%nat by (destruct bs; [done|simpl; lia]).
    rewrite (proj2 (Z.leb_gt _ 0)) by lia. set (s1 := set_u_in _ s).
    assert (u_in s1 fd = w) as Hw1 by (unfold s1; simpl; by rewrite upd_eq).
    destruct (IH (foldl wc_char st bs) s1) as (s' & E & Ho & Hfl); [by rewrite Hw1|rewrite Hw1, Hb, length_app in *; lia|].
    exists s'. rewrite E, Hw1, He, Hb, foldl_app. by split_and!.
Qed.

(** Wc prints the number of newlines, of words and of bytes of the input, whatever the pieces
    in which the input arrives: a word starts at a byte that is not blank at the
    beginning or after a blank. *)
Theorem wc_counts fd name s : let text := s_bytes (u_in s fd) in
  solid (u_in s fd) -> s_err (u_in s fd) = false -> u_full s 1 = false ->
  Z.of_nat (length text) < 2 ^ 31 -> Forall (fun c => 0 <= c < 256) name ->
  exists s', wc fd name s = URet tt s' /\
    u_out s' = upd (u_out s) 1 (u_out s 1 ++ decimal (newlines text) ++ [32] ++ decimal (words text) ++ [32] ++
                                decimal (Z.of_nat (length text)) ++ [32] ++ name ++ [10]).
Proof.
  intros text Hs He Hf Hlen Hname. unfold wc. rewrite (ubind_Ret (ugets _) _ s _ s eq_refl).
  destruct (wc_loop_run fd (S (length text)) (mkWc 0 0 0 false) s Hs ltac:(unfold text; lia)) as (s' & E & Ho & Hfl).
  ustep E. rewrite He. cbn [fst snd]. change (0 <? 0) with false. cbv iota.
  rewrite wc_chars by (simpl; unfold text in *; lia). cbn [wc_l wc_w wc_c wc_inword negb]. fold text.
  assert (0 <= newlines text < 2 ^ 31) as Hn.
  { unfold newlines. pose proof (length_filter (fun b => b = 10) text). lia. }
  pose proof (word_starts_range true text) as Hw. rewrite !Z.add_0_l.
  assert (prints (printf 1 "%d %d %d %s
" [PInt (newlines text); PInt (words text); PInt (Z.of_nat (length text)); PStr name]) 1
    (decimal (newlines text) ++ [32] ++ decimal (words text) ++ [32] ++ decimal (Z.of_nat (length text)) ++ [32] ++ name ++ [10])) as Hp.
  { unfold printf. cbn -[decimal printint putc uforeach].
    apply (prints_bind _ _ _ (decimal (newlines text))); [by apply prints_decimal|].
    apply (prints_bind _ _ _ [32]); [by apply prints_putc|].
    apply (prints_bind _ _ _ (decimal (words text))); [apply prints_decimal; unfold words; lia|].
    apply (prints_bind _ _ _ [32]); [by apply prints_putc|].
    apply (prints_bind _ _ _ (decimal (Z.of_nat (length text)))); [apply prints_decimal; lia|].
    apply (prints_bind _ _ _ [32]); [by apply prints_putc|].
    apply prints_bind; [by apply prints_chars|].
    apply (prints_bind _ _ _ [10] []); [by apply prints_putc|apply prints_ret]. }
  eexists. split; [apply Hp; by rewrite Hfl|]. unfold emit. cbn [u_out set_u_out]. by rewrite Ho.
Qed.

Lemma cat_loop_run fd fuel : forall s, solid (u_in s fd) -> (length (s_bytes (u_in s fd)) < fuel)%nat ->
  u_full s 1 = false ->
  exists s', cat_loop fuel fd s = URet (if s_err (u_in s fd) then -1 else 0) s' /\
    u_out s' = u_out (emit 1 (s_bytes (u_in s fd)) s).
Proof.
  induction fuel as [|f IH]; intros s Hs Hf Hfull; [lia|]. cbn [cat_loop]. ustep (read_run fd 512 s).
  pose proof (next_piece_spec 512 (u_in s fd) Hs ltac:(lia)) as Hp.
  destruct (next_piece 512 (u_in s fd)) as [[r bs] w]. destruct Hp as (Hw & He & Hb & Hlen & H0 & H1).
  destruct (decide (bs = [])) as [->|Hne]; cbn [fst snd].
  - destruct (H0 eq_refl) as (-> & -> & ->). eexists. split; [by destruct (s_err (u_in s fd))|].
    by rewrite emit_nil.
  - rewrite (H1 Hne). assert (0 < length bs)%nat by (destruct bs; [done|simpl; lia]).
    rewrite (proj2 (Z.leb_gt _ 0)) by lia. set (s1 := set_u_in _ s).
    ustep (write_run 1 bs s1 Hfull). rewrite Z.eqb_refl. cbn [negb].
    assert (u_in (emit 1 bs s1) fd = w) as Hw1 by (unfold s1; simpl; by rewrite upd_eq).
    destruct (IH (emit 1 bs s1)) as (s' & E & Ho); [by rewrite Hw1|rewrite Hw1, Hb, length_app in *; lia|done|].
    exists s'. rewrite E, Hw1, He, Hb, Ho, Hw1, emit_emit. done.
Qed.

(** cat copies its input to the standard output, byte by byte in order. *)
Lemma cat_copies fd s : solid (u_in s fd) -> s_err (u_in s fd) = false -> u_full s 1 = false ->
  exists s', cat fd s = URet tt s' /\ u_out s' = upd (u_out s) 1 (u_out s 1 ++ s_bytes (u_in s fd)).
Proof.
  intros Hs He Hf. unfold cat. rewrite (ubind_Ret (ugets _) _ s _ s eq_refl).
  destruct (cat_loop_run fd (S (length (s_bytes (u_in s fd)))) s Hs ltac:(lia) Hf) as (s' & E & Ho).
  ustep E. rewrite He. exists s'. by rewrite Ho.
Qed.
