(* ===== verification/Sh.v ===== *)
(** * The shell (user/sh.c): parser and execution of commands

    A [char*] into the command line is the rest of the line from there on, so [es] is
    the empty list.  The parser either returns, or panics: the shell then prints the
    message on descriptor 2 and the process exits.  The structs of the commands come from
    malloc, whose failure the code does not handle.  Execution is a tree of the system
    calls the processes make. *)
From Stdlib Require Import String.
From S2P Require Import Prelude Machine StringC Trap User.

(** A word of the line: the pointers q and eq to its start and behind its end. *)
Definition slice : Type := list Z * list Z.

Inductive cmd :=
| EXEC (argv : list slice)
| REDIR (c : cmd) (file : slice) (mode fd : Z)
| PIPE (left right : cmd)
| LIST (left right : cmd)
| BACK (c : cmd).

Definition MAXARGS : nat := 10.
Definition O_RDONLY : Z := 0.
Definition O_WRONLY : Z := 1.
Definition O_RDWR : Z := 2.
Definition O_CREATE : Z := 0x200.

(** ** Outcomes of the parser *)
Inductive pres (A : Type) := POk (a : A) | PFail (msg : list Z) | PSpin.
Arguments POk {A} a.
Arguments PFail {A} msg.
Arguments PSpin {A}.
Definition pbind {A B} (m : pres A) (k : A -> pres B) : pres B :=
  match m with POk a => k a | PFail msg => PFail msg | PSpin => PSpin end.
Notation "'try' x '<-' m ';' k" := (pbind m (fun x => k))
  (at level 200, x name, m at level 100, k at level 200, right associativity) : user_scope.
Definition panic {A} (s : string) : pres A := PFail (str s ++ [10]).

(** ** Tokens *)

Definition whitespace : list Z := [32; 9; 13; 10; 11].
Definition symbols : list Z := [60; 124; 62; 38; 59; 40; 41].
Definition in_set (l : list Z) (c : Z) : bool := match strchr l c with Some _ => true | None => false end.

Fixpoint skip_ws (s : list Z) : list Z :=
  match s with
  | [] => []
  | c :: s' => if in_set whitespace c then skip_ws s' else s
  end.

Fixpoint skip_word (s : list Z) : list Z :=
  match s with
  | [] => []
  | c :: s' => if negb (in_set whitespace c) && negb (in_set symbols c) then skip_word s' else s
  end.

(** The token, the pointers q and eq, and the rest of the line. *)
Definition gettoken (ps : list Z) : Z * slice * list Z :=
  let s := skip_ws ps in
  let q := s in
  let c := ch s in
  let '(ret, s) :=
    if c =? 0 then (c, s)
    else if (c =? 124) || (c =? 40) || (c =? 41) || (c =? 59) || (c =? 38) || (c =? 60) then (c, tail s)
    else if c =? 62 then
      let s := tail s in
      if ch s =? 62 then (43, tail s) else (c, s)
    else (97, skip_word s) in
  (ret, (q, s), skip_ws s).

(** The answer of peek and the rest of the line. *)
Definition peek (ps toks : list Z) : bool * list Z :=
  let s := skip_ws ps in
  (negb (ch s =? 0) && in_set toks (ch s), s).

(** ** Parsing *)

(** Each turn of the loops and each call takes a character; [length] bounds them all. *)
Fixpoint parseredirs (fuel : nat) (c : cmd) (ps : list Z) : pres (cmd * list Z) :=
  match fuel with
  | O => PSpin
  | S f =>
    let '(b, ps) := peek ps [60; 62] in
    if negb b then POk (c, ps) else
    let '(tok, _, ps) := gettoken ps in
    let '(t2, w, ps) := gettoken ps in
    if negb (t2 =? 97) then panic "missing file for redirection" else
    let c := if tok =? 60 then REDIR c w O_RDONLY 0
             else if tok =? 62 then REDIR c w (Z.lor O_WRONLY O_CREATE) 1
             else if tok =? 43 then REDIR c w (Z.lor O_WRONLY O_CREATE) 1
             else c in
    parseredirs f c ps
  end.

(** [cmd->argv[argc] = q] where cmd is the execcmd below the redirections. *)
Fixpoint add_arg (ret : cmd) (w : slice) : cmd :=
  match ret with
  | EXEC l => EXEC (l ++ [w])
  | REDIR c f m d => REDIR (add_arg c w) f m d
  | _ => ret
  end.

Fixpoint parseargs (fuel : nat) (ret : cmd) (argc : nat) (ps : list Z) : pres (cmd * list Z) :=
  match fuel with
  | O => PSpin
  | S f =>
    let '(b, ps) := peek ps [124; 41; 38; 59] in
    if b then POk (ret, ps) else
    let '(tok, w, ps) := gettoken ps in
    if tok =? 0 then POk (ret, ps) else
    if negb (tok =? 97) then panic "syntax" else
    let ret := add_arg ret w in
    let argc := S argc in
    if (MAXARGS <=? argc)%nat then panic "too many args" else
    try r <- parseredirs (S (length ps)) ret ps;
    parseargs f r.1 argc r.2
  end.

(** [while(peek(ps, es, "&"))] in parseline. *)
Fixpoint parseback (fuel : nat) (c : cmd) (ps : list Z) : pres (cmd * list Z) :=
  match fuel with
  | O => PSpin
  | S f =>
    let '(b, ps) := peek ps [38] in
    if negb b then POk (c, ps) else
    let '(_, _, ps) := gettoken ps in
    parseback f (BACK c) ps
  end.

Fixpoint parseline (fuel : nat) (ps : list Z) : pres (cmd * list Z) :=
  match fuel with
  | O => PSpin
  | S f =>
    try r <- parsepipe f ps;
    try r <- parseback (S (length r.2)) r.1 r.2;
    let '(b, ps) := peek r.2 [59] in
    if b then
      let '(_, _, ps) := gettoken ps in
      try r' <- parseline f ps;
      POk (LIST r.1 r'.1, r'.2)
    else POk (r.1, ps)
  end
with parsepipe (fuel : nat) (ps : list Z) : pres (cmd * list Z) :=
  match fuel with
  | O => PSpin
  | S f =>
    try r <- parseexec f ps;
    let '(b, ps) := peek r.2 [124] in
    if b then
      let '(_, _, ps) := gettoken ps in
      try r' <- parsepipe f ps;
      POk (PIPE r.1 r'.1, r'.2)
    else POk (r.1, ps)
  end
with parseblock (fuel : nat) (ps : list Z) : pres (cmd * list Z) :=
  match fuel with
  | O => PSpin
  | S f =>
    let '(b, ps) := peek ps [40] in
    if negb b then panic "parseblock" else
    let '(_, _, ps) := gettoken ps in
    try r <- parseline f ps;
    let '(b, ps) := peek r.2 [41] in
    if negb b then panic "syntax - missing )" else
    let '(_, _, ps) := gettoken ps in
    parseredirs (S (length ps)) r.1 ps
  end
with parseexec (fuel : nat) (ps : list Z) : pres (cmd * list Z) :=
  match fuel with
  | O => PSpin
  | S f =>
    let '(b, ps) := peek ps [40] in
    if b then parseblock f ps else
    try r <- parseredirs (S (length ps)) (EXEC []) ps;
    parseargs (S (length r.2)) r.1 0 r.2
  end.

(** NUL-terminate all the counted strings: [n] is the length of the line. *)
Fixpoint nulterminate (n : nat) (c : cmd) (buf : list Z) : list Z :=
  let end_word (w : slice) (buf : list Z) := <[(n - length w.2)%nat := 0]> buf in
  match c with
  | EXEC argv => foldl (fun b w => end_word w b) buf argv
  | REDIR c file _ _ => end_word file (nulterminate n c buf)
  | PIPE l r | LIST l r => nulterminate n r (nulterminate n l buf)
  | BACK c => nulterminate n c buf
  end.

(** The command and the buffer with its terminators. *)
Definition parsecmd (s : list Z) : pres (cmd * list Z) :=
  try r <- parseline (4 * length s + 4) s;
  let '(_, ps) := peek r.2 [] in
  if negb (length ps =? 0)%nat then PFail (str "leftovers: " ++ ps ++ [10] ++ str "syntax" ++ [10]) else
  POk (r.1, nulterminate (length s) r.1 (s ++ [0])).

(** ** Execution *)

(** What a process does: its system calls in order, with the process it forks, and what
    follows for each answer of the kernel. *)
Inductive prog :=
| Exit (code : Z)
| Exec (path : list Z) (argv : list (list Z)) (failed : prog)
| Close (fd : Z) (k : prog)
| Open (path : list Z) (mode : Z) (k : Z -> prog)
| Pipe (k : Z -> Z -> Z -> prog)          (* the result and p[0], p[1] *)
| Dup2 (old new : Z) (k : prog)
| Fork (child : prog) (k : Z -> prog)     (* the result in the parent *)
| Wait (k : Z -> prog)                    (* the status *)
| Chdir (path : list Z) (k : Z -> prog)
| Write (fd : Z) (bytes : list Z) (k : prog).

Definition sh_panic (s : string) : prog := Write 2 (str s ++ [10]) (Exit EXIT_FAILURE).

(** [if(fork1() == 0) child; k] *)
Definition fork1 (child k : prog) : prog :=
  Fork child (fun pid => if pid =? -1 then sh_panic "fork" else k).

Section run.
(** The C string at a word after nulterminate. *)
Context (text : slice -> list Z).

Fixpoint runcmd (c : cmd) : prog :=
  match c with
  | EXEC argv =>
    match argv with
    | [] => Exit EXIT_SUCCESS
    | w :: _ => Exec (text w) (text <$> argv)
                  (Write 2 (str "exec " ++ text w ++ str " failed" ++ [10]) (Exit EXIT_SUCCESS))
    end
  | REDIR c file mode fd =>
    Close fd (Open (text file) mode (fun r =>
      if r <? 0 then Write 2 (str "open " ++ text file ++ str " failed" ++ [10]) (Exit EXIT_FAILURE)
      else runcmd c))
  | LIST l r => fork1 (runcmd l) (Wait (fun _ => runcmd r))
  | PIPE l r =>
    Pipe (fun res p0 p1 =>
      if res <? 0 then sh_panic "pipe" else
      fork1 (Dup2 p1 1 (Close p0 (Close p1 (runcmd l))))
        (fork1 (Dup2 p0 0 (Close p0 (Close p1 (runcmd r))))
          (Close p0 (Close p1 (Wait (fun _ => Wait (fun _ => Exit EXIT_SUCCESS)))))))
  | BACK c => fork1 (runcmd c) (Exit EXIT_SUCCESS)
  end.
End run.

(** The string that starts [i] characters into a buffer. *)
Fixpoint cstring (b : list Z) : list Z :=
  match b with [] => [] | c :: b' => if c =? 0 then [] else c :: cstring b' end.

Definition word_text (n : nat) (buf : list Z) (w : slice) : list Z := cstring (drop (n - length w.1) buf).

(** getcmd: the prompt and a line; [None] at the end of the input. *)
Definition getcmd (nbuf : Z) : U uio (option (list Z)) :=
  printf 2 "$ " [] ;;
  do buf <- gets nbuf;
  uret (if ch buf =? 0 then None else Some buf).

(** One turn of the loop of main, up to the next call of getcmd. *)
Definition sh_turn (buf : list Z) (next : prog) : prog :=
  if (ch buf =? 99) && (ch (tail buf) =? 100) && (ch (tail (tail buf)) =? 32) then
    let dir := drop 3 (take (length buf - 1) buf) in
    Chdir dir (fun r => if r <? 0 then Write 2 (str "cannot cd " ++ dir ++ [10]) next else next)
  else
    fork1 (match parsecmd buf with
           | POk (c, b) => runcmd (word_text (length buf) b) c
           | PFail msg => Write 2 msg (Exit EXIT_FAILURE)
           | PSpin => Exit EXIT_FAILURE
           end)
      (Wait (fun status =>
         if WIFEXITED status then Write 1 (str "Output code: " ++ decimal (WEXITSTATUS status) ++ [10]) next
         else if WIFSIGNALED status then Write 2 (str "Failed. Trap code: " ++ decimal (WEXITTRAP status) ++ [10]) next
         else next)).

(** The first loop of main: descriptors until the third is open.  open returns the lowest free
    descriptor, so four turns are enough. *)
Fixpoint sh_console (turns : nat) (next : prog) : prog :=
  match turns with
  | O => next
  | S t => Open (str "console") O_RDWR (fun fd =>
      if fd <? 0 then next else if fd >=? 3 then Close fd next else sh_console t next)
  end.

(** main on the lines that getcmd returns before the end of the input. *)
Definition sh_main (input : list (list Z)) : prog :=
  sh_console 4 (foldr sh_turn (Exit EXIT_SUCCESS) input).
