(* ===== verification/ShSpec.v ===== *)
(** * What the parser of the shell promises

    It always ends; the commands it returns are well formed, each word a nonempty part of
    the line up to a delimiter, so that nulterminate makes every word a string of its
    own; and it reads back every command that is written out. *)
From Stdlib Require Import String.
From S2P Require Import Prelude Machine StringC User Sh.

(** ** Characters *)

Lemma in_set_elem l c : Forall (fun x => x <> 0) l -> in_set l c = true <-> c ∈ l.
Proof.
  unfold in_set. induction 1 as [|x l Hx _ IH]; simpl; [set_solver|]. rewrite (proj2 (Z.eqb_neq x 0)) by done.
  destruct (Z.eqb_spec x c) as [->|Hne]; [set_solver|]. rewrite IH. set_solver.
Qed.

(** White space and symbols end a word. *)
Definition delim (c : Z) : bool := in_set whitespace c || in_set symbols c.
Definition is_ws (c : Z) : bool := in_set whitespace c.

Lemma is_ws_elem c : is_ws c = true <-> c ∈ whitespace.
Proof. apply in_set_elem. unfold whitespace. repeat constructor; done. Qed.

Lemma symbols_elem c : in_set symbols c = true <-> c ∈ symbols.
Proof. apply in_set_elem. unfold symbols. repeat constructor; done. Qed.

Lemma skip_ws_spec s : exists w, s = w ++ skip_ws s /\ Forall (fun c => is_ws c = true) w /\
  is_ws (ch (skip_ws s)) = false.
Proof.
  induction s as [|c s (w & Hs & Hw & He)]; simpl.
  - exists []. by split_and!.
  - fold (is_ws c). destruct (is_ws c) eqn:E.
    + exists (c :: w). split_and!; [simpl; by f_equal|by constructor|done].
    + exists []. by split_and!.
Qed.

Lemma skip_ws_length s : (length (skip_ws s) <= length s)%nat.
Proof. destruct (skip_ws_spec s) as (w & E & _). rewrite E at 2. rewrite length_app. lia. Qed.

Lemma skip_ws_id s : is_ws (ch s) = false -> skip_ws s = s.
Proof. destruct s as [|c s]; simpl; [done|]. unfold is_ws. by intros ->. Qed.

Lemma skip_ws_idemp s : skip_ws (skip_ws s) = skip_ws s.
Proof. apply skip_ws_id. by destruct (skip_ws_spec s) as (_ & _ & _ & ?). Qed.

Lemma skip_word_spec s : exists w, s = w ++ skip_word s /\ Forall (fun c => delim c = false) w /\
  (skip_word s = [] \/ delim (ch (skip_word s)) = true).
Proof.
  induction s as [|c s (w & Hs & Hw & He)]; simpl.
  - exists []. split_and!; [done..|by left].
  - rewrite <- negb_orb. fold (delim c). destruct (delim c) eqn:E; simpl.
    + exists []. split_and!; [done..|]. by right.
    + exists (c :: w). split_and!; [simpl; by f_equal|by constructor|done].
Qed.

(** ** Tokens *)

(** A word of the line [line]: a nonempty part of it that reaches to the next delimiter. *)
Record wf_slice (line : list Z) (w : slice) : Prop := {
  wf_text : exists t, w.1 = t ++ w.2 /\ t <> [] /\ Forall (fun c => delim c = false) t;
  wf_end : w.2 = [] \/ delim (ch w.2) = true;
  wf_in : w.1 `suffix_of` line;
}.

Definition chars := Forall (fun c : Z => c <> 0).

Lemma gettoken_spec ps : chars ps ->
  let '(tok, w, rest) := gettoken ps in
  rest `suffix_of` ps /\ (tok <> 0 -> (length rest < length ps)%nat) /\
  (tok = 97 -> wf_slice ps w) /\ (tok = 0 -> rest = []) /\
  (tok <> 0 -> ch (skip_ws ps) <> 0).
Proof.
  intros Hch. unfold gettoken. destruct (skip_ws_spec ps) as (w0 & Hps & _ & Hws).
  set (s := skip_ws ps) in *.
  assert (s `suffix_of` ps) as Hsuf by by exists w0.
  assert (forall t, t `suffix_of` s -> (length t < length s)%nat ->
    skip_ws t `suffix_of` ps /\ (length (skip_ws t) < length ps)%nat) as Hafter.
  { intros t Ht Hl. destruct (skip_ws_spec t) as (w1 & Ht1 & _). split.
    - transitivity s; [|done]. transitivity t; [by exists w1|done].
    - pose proof (skip_ws_length t). apply suffix_length in Hsuf. lia. }
  destruct s as [|c s'] eqn:Es.
  { simpl. split_and!; try done; apply suffix_nil. }
  assert (c <> 0) as Hc.
  { rewrite Hps in Hch. apply Forall_app in Hch as [_ Hch]. by apply Forall_cons in Hch as [? _]. }
  cbn [ch tail]. rewrite (proj2 (Z.eqb_neq c 0)) by done.
  destruct ((c =? 124) || (c =? 40) || (c =? 41) || (c =? 59) || (c =? 38) || (c =? 60)) eqn:Esym.
  { destruct (Hafter s') as [? ?]; [by apply suffix_cons_r|simpl; lia|]. split_and!; try done.
    intros ->. by compute in Esym. }
  destruct (c =? 62) eqn:Egt; bool_to_prop.
  { destruct (ch s' =? 62) eqn:E2.
    - destruct s' as [|c2 s2]; [done|]. destruct (Hafter s2) as [? ?]; [by apply suffix_cons_r, suffix_cons_r|simpl; lia|].
      by split_and!.
    - destruct (Hafter s') as [? ?]; [by apply suffix_cons_r|simpl; lia|]. split_and!; try done. intros ->. done. }
  destruct (skip_word_spec (c :: s')) as (t & Ht & Hdel & Hend).
  assert (delim c = false) as Hdc.
  { unfold delim. simpl in Hws. unfold is_ws in Hws. rewrite Hws. simpl. apply not_true_iff_false. rewrite symbols_elem.
    unfold symbols. set_solver by lia. }
  assert (t <> []) as Htn.
  { intros ->. cbn [app] in Ht. destruct Hend as [He|He]; rewrite <- Ht in He; cbn [ch] in He; congruence. }
  destruct (Hafter (skip_word (c :: s'))) as [? ?].
  { by exists t. }
  { rewrite Ht at 2. rewrite length_app. destruct t; [done|simpl; lia]. }
  split_and!; try done. intros _. split; cbn [fst snd]; [|done|done]. exists t. by split_and!.
Qed.

(** ** Well-formed commands *)

Fixpoint wf_cmd (line : list Z) (c : cmd) : Prop :=
  match c with
  | EXEC argv => (length argv < MAXARGS)%nat /\ Forall (wf_slice line) argv
  | REDIR c file mode fd => wf_cmd line c /\ wf_slice line file /\
      (mode = O_RDONLY /\ fd = 0 \/ mode = Z.lor O_WRONLY O_CREATE /\ fd = 1)
  | PIPE l r | LIST l r => wf_cmd line l /\ wf_cmd line r
  | BACK c => wf_cmd line c
  end.

(** The number of arguments of the command below the redirections. *)
Fixpoint arity (c : cmd) : option nat :=
  match c with EXEC argv => Some (length argv) | REDIR c _ _ _ => arity c | _ => None end.

(** A parser that ends, with a well-formed command, at a later place of the line. *)
Definition parses (line ps : list Z) (r : pres (cmd * list Z)) (Q : cmd -> Prop) : Prop :=
  match r with
  | POk (c, rest) => wf_cmd line c /\ rest `suffix_of` ps /\ Q c
  | PFail _ => True
  | PSpin => False
  end.

Lemma chars_suffix l k : k `suffix_of` l -> chars l -> chars k.
Proof. intros [w ->] H. by apply Forall_app in H as [_ ?]. Qed.

Lemma wf_slice_in line ps w : ps `suffix_of` line -> wf_slice ps w -> wf_slice line w.
Proof. intros H [? ? ?]. split; [done|done|]. by transitivity ps. Qed.

Lemma peek_spec ps toks : skip_ws ps `suffix_of` ps /\ (peek ps toks).2 = skip_ws ps /\
  ((peek ps toks).1 = true -> ch (skip_ws ps) <> 0).
Proof.
  destruct (skip_ws_spec ps) as (w & E & _). split_and!; [by exists w|done|]. unfold peek. simpl.
  intros [H _]%andb_true_iff. bool_to_prop. done.
Qed.

Lemma parses_bind line ps ps' r k (Q Q' : cmd -> Prop) : parses line ps' r Q -> ps' `suffix_of` ps ->
  (forall c rest, wf_cmd line c -> rest `suffix_of` ps' -> Q c -> parses line ps (k (c, rest)) Q') ->
  parses line ps (pbind r k) Q'.
Proof. intros Hr Hs Hk. destruct r as [[c rest]| |]; simpl in *; [|done|done]. destruct Hr as (? & ? & ?). by apply Hk. Qed.

Lemma parses_weaken line ps ps' r Q : parses line ps' r Q -> ps' `suffix_of` ps -> parses line ps r Q.
Proof. destruct r as [[c rest]| |]; simpl; [|done|done]. intros (? & ? & ?) ?. split_and!; [done|by etrans|done]. Qed.

(** gettoken after a positive peek takes a character. *)
Lemma peek_gettoken ps toks : chars ps -> (peek ps toks).1 = true ->
  let '(tok, w, rest) := gettoken (skip_ws ps) in
  rest `suffix_of` ps /\ (length rest < length ps)%nat /\ tok <> 0.
Proof.
  intros Hch Hp. destruct (peek_spec ps toks) as (Hs & _ & Hne). specialize (Hne Hp).
  pose proof (gettoken_spec (skip_ws ps) (chars_suffix _ _ Hs Hch)) as Hg.
  assert ((gettoken (skip_ws ps)).1.1 <> 0) as Htok.
  { unfold gettoken. rewrite skip_ws_idemp. rewrite (proj2 (Z.eqb_neq _ 0)) by done.
    destruct (_ || _); [done|]. destruct (_ =? 62); [|done]. by destruct (_ =? 62). }
  destruct (gettoken (skip_ws ps)) as [[tok w] rest]. simpl in Htok. destruct Hg as (H1 & H2 & _).
  specialize (H2 Htok). apply suffix_length in Hs as Hl. split_and!; [by etrans|lia|done].
Qed.

Lemma parseredirs_ok line f : forall c ps, chars line -> ps `suffix_of` line -> wf_cmd line c ->
  (length ps < f)%nat -> parses line ps (parseredirs f c ps) (fun c' => arity c' = arity c).
Proof.
  induction f as [|f IH]; intros c ps Hch Hps Hwf Hf; [lia|]. cbn [parseredirs].
  pose proof (chars_suffix _ _ Hps Hch) as Hchp. destruct (peek_spec ps [60; 62]) as (Hs & Hp2 & _).
  pose proof (peek_gettoken ps [60; 62] Hchp) as Hg1. destruct (peek ps [60; 62]) as [b ps1]. simpl in Hp2, Hg1. subst ps1.
  destruct b; simpl; [|by split_and!].
  specialize (Hg1 eq_refl). destruct (gettoken (skip_ws ps)) as [[tok w1] ps2]. destruct Hg1 as (Hs2 & Hl2 & _).
  pose proof (gettoken_spec ps2 (chars_suffix _ _ Hs2 Hchp)) as Hg2. destruct (gettoken ps2) as [[t2 w] ps3].
  destruct Hg2 as (Hs3 & Hl3 & Hw & _). destruct (t2 =? 97) eqn:E; bool_to_prop; simpl; [|done].
  specialize (Hw E). assert (wf_slice line w) as Hwl by (eapply wf_slice_in; [|done]; by etrans).
  assert (ps3 `suffix_of` ps) as Hs3' by by etrans.
  set (c' := if tok =? 60 then _ else _).
  assert (wf_cmd line c' /\ arity c' = arity c) as [Hwf' Har].
  { unfold c'. repeat destruct (_ =? _); simpl; try done; (split; [|done]); split_and!; try done; [by left|by right|by right]. }
  rewrite <- Har. eapply parses_weaken; [|exact Hs3']. apply IH; [done|by etrans|done|].
  apply suffix_length in Hs3. lia.
Qed.

Lemma add_arg_ok line c w n : wf_cmd line c -> wf_slice line w -> arity c = Some n -> (S n < MAXARGS)%nat ->
  wf_cmd line (add_arg c w) /\ arity (add_arg c w) = Some (S n).
Proof.
  intros Hc Hw. induction c as [l|c IH f m d| | |]; simpl in *; try done.
  - intros [= <-] Hn. destruct Hc as [_ Hl]. rewrite length_app, Nat.add_1_r. split; [|done]. split; [done|].
    apply Forall_app. split; [done|]. by constructor.
  - destruct Hc as (Hc & Hf & Hm). intros Ha Hn. destruct (IH Hc Ha Hn). by split_and!.
Qed.

Lemma parseargs_ok line f : forall c n ps, chars line -> ps `suffix_of` line -> wf_cmd line c -> arity c = Some n ->
  (length ps < f)%nat -> parses line ps (parseargs f c n ps) (fun _ => True).
Proof.
  induction f as [|f IH]; intros c n ps Hch Hps Hwf Ha Hf; [lia|]. cbn [parseargs].
  pose proof (chars_suffix _ _ Hps Hch) as Hchp. destruct (peek_spec ps [124; 41; 38; 59]) as (Hs & Hp2 & _).
  destruct (peek ps [124; 41; 38; 59]) as [b ps1]. simpl in Hp2. subst ps1. destruct b; [by split_and!|].
  pose proof (gettoken_spec (skip_ws ps) (chars_suffix _ _ Hs Hchp)) as Hg.
  destruct (gettoken (skip_ws ps)) as [[tok w] ps2]. destruct Hg as (Hs2 & Hl2 & Hw & _).
  assert (ps2 `suffix_of` ps) as Hs2' by by etrans.
  destruct (tok =? 0) eqn:E0; bool_to_prop; [by split_and!|].
  destruct (tok =? 97) eqn:E; bool_to_prop; cbn [negb]; [|done].
  destruct (MAXARGS <=? S n)%nat eqn:Em; [done|]. apply Nat.leb_gt in Em.
  destruct (add_arg_ok line c w n Hwf) as [Hwf' Ha']; [eapply wf_slice_in; [|by apply Hw]; by etrans|done|done|].
  pose proof (suffix_length _ _ Hs). specialize (Hl2 E0).
  eapply parses_bind; [apply parseredirs_ok; [done|by etrans|exact Hwf'|lia]|done|].
  intros c' rest Hwf'' Hrest Har. cbn [fst snd]. eapply parses_weaken; [|etrans; [exact Hrest|exact Hs2']].
  apply IH; [done|etrans; [exact Hrest|by etrans]|done|congruence|]. apply suffix_length in Hrest. lia.
Qed.

Lemma parseback_ok line f : forall c ps, chars line -> ps `suffix_of` line -> wf_cmd line c ->
  (length ps < f)%nat -> parses line ps (parseback f c ps) (fun _ => True).
Proof.
  induction f as [|f IH]; intros c ps Hch Hps Hwf Hf; [lia|]. cbn [parseback].
  pose proof (chars_suffix _ _ Hps Hch) as Hchp. destruct (peek_spec ps [38]) as (Hs & Hp2 & _).
  pose proof (peek_gettoken ps [38] Hchp) as Hg1. destruct (peek ps [38]) as [b ps1]. simpl in Hp2, Hg1. subst ps1.
  destruct b; simpl; [|by split_and!].
  specialize (Hg1 eq_refl). destruct (gettoken (skip_ws ps)) as [[tok w1] ps2]. destruct Hg1 as (Hs2 & Hl2 & _).
  eapply parses_weaken; [|exact Hs2]. apply IH; [done|by etrans|done|lia].
Qed.

(** [if(peek(ps, es, toks)) { gettoken(ps, es, 0, 0); ... } else ...] *)
Lemma parses_peek line ps toks (k1 k2 : list Z -> pres (cmd * list Z)) Q : chars line -> ps `suffix_of` line ->
  (forall rest, rest `suffix_of` ps -> (length rest < length ps)%nat -> parses line ps (k1 rest) Q) ->
  parses line ps (k2 (skip_ws ps)) Q ->
  parses line ps (let '(b, ps') := peek ps toks in
    if b then let '(_, _, rest) := gettoken ps' in k1 rest else k2 ps') Q.
Proof.
  intros Hch Hps H1 H2. pose proof (peek_gettoken ps toks (chars_suffix _ _ Hps Hch)) as Hg.
  destruct (peek_spec ps toks) as (Hs & Hp2 & _). destruct (peek ps toks) as [b ps1]. simpl in Hp2, Hg. subst ps1.
  destruct b; [|done]. specialize (Hg eq_refl). destruct (gettoken (skip_ws ps)) as [[tok w] rest].
  destruct Hg as (Hr & Hl & _). by apply H1.
Qed.

Lemma parse_ok line f : chars line -> forall ps, ps `suffix_of` line ->
  ((4 * length ps + 4 <= f)%nat -> parses line ps (parseline f ps) (fun _ => True)) /\
  ((4 * length ps + 3 <= f)%nat -> parses line ps (parsepipe f ps) (fun _ => True)) /\
  ((4 * length ps + 1 <= f)%nat -> parses line ps (parseblock f ps) (fun _ => True)) /\
  ((4 * length ps + 2 <= f)%nat -> parses line ps (parseexec f ps) (fun _ => True)).
Proof.
  intros Hch. induction f as [|f IH]; intros ps Hps; [split_and!; lia|].
  assert (forall k, k `suffix_of` ps -> k `suffix_of` line) as Htr by (intros; by etrans).
  split_and!; intros Hf; [cbn [parseline]|cbn [parsepipe]|cbn [parseblock]|cbn [parseexec]].
  - eapply parses_bind; [apply IH; [done|lia]|done|]. intros c1 r1 Hw1 Hr1 _. cbn [fst snd].
    eapply parses_bind; [apply parseback_ok; [done|by apply Htr|done|lia]|done|]. intros c2 r2 Hw2 Hr2 _. cbn [fst snd].
    assert (r2 `suffix_of` ps) as Hr2' by (by etrans). apply (parses_weaken _ _ r2); [|done].
    apply (parses_peek line r2 [59] (fun rest => pbind (parseline f rest) (fun r' => POk (LIST c2 r'.1, r'.2))) (fun ps => POk (c2, ps)));
      [done|by apply Htr| |].
    + intros rest Hr Hl. apply suffix_length in Hr2'. eapply parses_bind; [apply IH; [|lia]|done|].
      { apply Htr. etrans; [done|]. by etrans. }
      intros c3 r3 Hw3 Hr3 _. simpl. split_and!; [done|done|by etrans|done].
    + destruct (peek_spec r2 []) as (Hs & _). by split_and!.
  - eapply parses_bind; [apply IH; [done|lia]|done|]. intros c2 r2 Hw2 Hr2 _. cbn [fst snd].
    apply (parses_weaken _ _ r2); [|done].
    apply (parses_peek line r2 [124] (fun rest => pbind (parsepipe f rest) (fun r' => POk (PIPE c2 r'.1, r'.2))) (fun ps => POk (c2, ps)));
      [done|by apply Htr| |].
    + intros rest Hr Hl. apply suffix_length in Hr2 as Hl2. eapply parses_bind; [apply IH; [|lia]|done|].
      { apply Htr. by etrans. }
      intros c3 r3 Hw3 Hr3 _. simpl. split_and!; [done|done|by etrans|done].
    + destruct (peek_spec r2 []) as (Hs & _). by split_and!.
  - pose proof (peek_gettoken ps [40] (chars_suffix _ _ Hps Hch)) as Hg.
    destruct (peek_spec ps [40]) as (Hs & Hp2 & _). destruct (peek ps [40]) as [b ps1]. simpl in Hp2, Hg. subst ps1.
    destruct b; [|done]. specialize (Hg eq_refl). cbn [negb]. destruct (gettoken (skip_ws ps)) as [[tok w] ps2].
    destruct Hg as (Hr & Hl & _). eapply parses_bind; [apply IH; [by apply Htr|lia]|done|].
    intros c1 r1 Hw1 Hr1 _. cbn [fst snd]. assert (r1 `suffix_of` ps) as Hr1' by (by etrans).
    pose proof (peek_gettoken r1 [41] (chars_suffix _ _ (Htr _ Hr1') Hch)) as Hg.
    destruct (peek_spec r1 [41]) as (Hs' & Hp2 & _). destruct (peek r1 [41]) as [b ps1]. simpl in Hp2, Hg. subst ps1.
    destruct b; [|done]. specialize (Hg eq_refl). cbn [negb]. destruct (gettoken (skip_ws r1)) as [[tok' w'] ps3].
    destruct Hg as (Hr3 & Hl3 & _). assert (ps3 `suffix_of` ps) as Hr3' by (by etrans).
    eapply parses_weaken; [|exact Hr3']. pose proof (parseredirs_ok line (S (length ps3)) c1 ps3 Hch (Htr _ Hr3') Hw1 ltac:(lia)) as H.
    destruct (parseredirs _ _ _) as [[]| |]; simpl in *; tauto.
  - destruct (peek_spec ps [40]) as (Hs & Hp2 & _). destruct (peek ps [40]) as [b ps1]. simpl in Hp2. subst ps1.
    pose proof (suffix_length _ _ Hs) as Hsl. apply (parses_weaken _ _ (skip_ws ps)); [|done]. destruct b.
    + apply IH; [by apply Htr|lia].
    + eapply parses_bind; [apply parseredirs_ok; [done|by apply Htr|simpl; split; [unfold MAXARGS; lia|done]|lia]|done|].
      intros c1 r1 Hw1 Hr1 Har. cbn [fst snd] in *. simpl in Har. apply (parses_weaken _ _ r1); [|done].
      apply parseargs_ok; [done|apply Htr; by etrans|done|done|lia].
Qed.

(** parsecmd ends on every line. *)
Lemma parsecmd_total line : chars line -> parsecmd line <> PSpin.
Proof.
  intros Hch. destruct (parse_ok line (4 * length line + 4) Hch line) as (H & _); [done|]. specialize (H ltac:(lia)).
  unfold parsecmd, pbind. destruct (parseline _ line) as [[c rest]| |]; simpl in *; [|done|done]. by destruct (_ =? 0)%nat.
Qed.

Lemma parsecmd_wf line c b : chars line -> parsecmd line = POk (c, b) ->
  wf_cmd line c /\ b = nulterminate (length line) c (line ++ [0]).
Proof.
  intros Hch E. destruct (parse_ok line (4 * length line + 4) Hch line) as (H & _); [done|]. specialize (H ltac:(lia)).
  unfold parsecmd, pbind in E. destruct (parseline _ line) as [[c' rest]| |]; simpl in *; [|done|done].
  destruct (_ =? 0)%nat; [|done]. injection E as <- <-. tauto.
Qed.

(** ** nulterminate *)

Fixpoint words (c : cmd) : list slice :=
  match c with
  | EXEC argv => argv
  | REDIR c file _ _ => words c ++ [file]
  | PIPE l r | LIST l r => words l ++ words r
  | BACK c => words c
  end.

(** The characters of a word. *)
Definition stext (w : slice) : list Z := take (length w.1 - length w.2) w.1.

Definition cut (n : nat) (w : slice) : nat := (n - length w.2)%nat.

Lemma nulterminate_foldl n c buf :
  nulterminate n c buf = foldl (fun b w => <[cut n w := 0]> b) buf (words c).
Proof.
  revert buf. induction c as [argv|c IH f m d|l IHl r IHr|l IHl r IHr|c IH]; intros buf; simpl;
    rewrite ?foldl_app; simpl; by rewrite ?IH, ?IHl, ?IHr.
Qed.

Lemma cuts_lookup n l : forall buf i, (i < length buf)%nat ->
  foldl (fun b w => <[cut n w := 0]> b) buf l !! i =
    if decide (i ∈ cut n <$> l) then Some 0 else buf !! i.
Proof.
  induction l as [|w l IH]; intros buf i Hi; [done|]. cbn [foldl fmap list_fmap].
  rewrite IH by by rewrite length_insert. destruct (decide (i ∈ cut n <$> l)) as [H|H].
  - by rewrite decide_True by set_solver.
  - destruct (decide (i = cut n w)) as [->|Hne].
    + rewrite decide_True by set_solver. by rewrite list_lookup_insert_eq.
    + rewrite list_lookup_insert_ne by done. by rewrite decide_False by set_solver.
Qed.

Lemma cstring_drop b : forall t i, chars t -> (forall k, (k < length t)%nat -> b !! (i + k)%nat = t !! k) ->
  b !! (i + length t)%nat = Some 0 -> cstring (drop i b) = t.
Proof.
  induction t as [|c t IH]; intros i Ht Hk H0; simpl in *.
  - rewrite Nat.add_0_r in H0. by rewrite (drop_S b 0 i H0).
  - apply Forall_cons in Ht as [Hc Ht]. pose proof (Hk 0%nat ltac:(lia)) as H1. rewrite Nat.add_0_r in H1.
    rewrite (drop_S b c i H1). simpl. rewrite (proj2 (Z.eqb_neq c 0)) by done. f_equal. apply IH; [done| |].
    + intros k Hlt. pose proof (Hk (S k) ltac:(lia)) as E. change ((c :: t) !! S k) with (t !! k) in E. rewrite <- E. f_equal. lia.
    + rewrite <- H0. f_equal. lia.
Qed.

Lemma wf_cmd_words line c w : wf_cmd line c -> w ∈ words c -> wf_slice line w.
Proof.
  induction c as [argv|c IH f m d|l IHl r IHr|l IHl r IHr|c IH]; simpl; rewrite ?elem_of_app.
  - intros [_ H] Hw. rewrite Forall_forall in H. by apply H.
  - intros (Hc & Hf & _) [Hw| ->%list_elem_of_singleton]; [by apply IH|done].
  - naive_solver.
  - naive_solver.
  - done.
Qed.

(** No terminator falls into a word. *)
Lemma cut_outside line (w w' : slice) t pre k : chars line -> wf_slice line w' -> line = pre ++ t ++ w.2 ->
  Forall (fun c => delim c = false) t -> (k < length t)%nat -> cut (length line) w' <> (length pre + k)%nat.
Proof.
  intros Hch [(t0 & Hq & _) Hend [p Hin]] Hl Ht Hk Heq. destruct w' as [q e]. cbn [fst snd] in *. subst q.
  unfold cut in Heq. cbn [snd] in Heq.
  destruct (lookup_lt_is_Some_2 t k Hk) as [x Hx].
  assert (line !! (length pre + k)%nat = Some x) as Hat.
  { rewrite Hl, lookup_app_r by lia. rewrite lookup_app_l by lia. rewrite <- Hx. f_equal. lia. }
  rewrite Forall_forall in Ht. specialize (Ht x ltac:(by eapply list_elem_of_lookup_2)).
  destruct e as [|c e].
  - simpl in Heq. apply lookup_lt_Some in Hat. lia.
  - destruct Hend as [?|Hd]; [done|]. simpl in Hd. rewrite <- Heq, Hin, app_assoc, length_app in Hat.
    replace (_ + _ - _)%nat with (length (p ++ t0)) in Hat by lia. rewrite list_lookup_middle in Hat by done. congruence.
Qed.

Lemma word_text_ok line c w : chars line -> wf_cmd line c -> w ∈ words c ->
  word_text (length line) (nulterminate (length line) c (line ++ [0])) w = stext w.
Proof.
  intros Hch Hwf Hw. pose proof (wf_cmd_words _ _ _ Hwf Hw) as [(t & Hq & Htn & Hdel) Hend [pre Hin]].
  unfold word_text, stext. rewrite Hq, length_app, Nat.add_sub, take_app_length.
  rewrite Hq in Hin. rewrite nulterminate_foldl.
  assert (length line = length pre + (length t + length w.2))%nat as Hlen by (rewrite Hin, !length_app; done).
  replace (length line - _)%nat with (length pre) by lia. apply cstring_drop.
  - rewrite Hin in Hch. apply Forall_app in Hch as [_ Hch]. by apply Forall_app in Hch as [? _].
  - intros k Hk. rewrite cuts_lookup by (rewrite length_app; simpl; lia). rewrite decide_False.
    + rewrite lookup_app_l by lia. rewrite Hin, lookup_app_r by lia. rewrite lookup_app_l by lia. f_equal. lia.
    + intros (w' & Heq & Hw')%list_elem_of_fmap. symmetry in Heq. revert Heq.
      eapply cut_outside; [done|by eapply wf_cmd_words|done|done|done].
  - rewrite cuts_lookup by (rewrite length_app; simpl; lia). rewrite decide_True; [done|].
    apply list_elem_of_fmap. exists w. split; [|done]. unfold cut. lia.
Qed.

(** C22. Commands of the shell are well formed: parsecmd ends on every line, and a command it
    returns has fewer than MAXARGS arguments everywhere, redirections with the mode and
    the descriptor of their symbol, and words that are nonempty parts of the line without
    delimiters.  After nulterminate every argument and file name is a C string of its
    own, the characters of its word and no more. *)
Theorem parsecmd_well_formed line : chars line ->
  match parsecmd line with
  | POk (c, b) => wf_cmd line c /\ forall w, w ∈ words c -> word_text (length line) b w = stext w
  | PFail _ => True
  | PSpin => False
  end.
Proof.
  intros Hch. pose proof (parsecmd_total line Hch) as Ht. destruct (parsecmd line) as [[c b]| |] eqn:E; [|done|done].
  destruct (parsecmd_wf line c b Hch E) as [Hwf ->]. split; [done|]. intros w. by apply word_text_ok.
Qed.
