(* ===== verification/ShPrint.v ===== *)
(** * The parser of the shell reads back what is written out

    Commands as syntax trees with their words, a printer with the parentheses that the
    grammar needs, and the proof that parsecmd of the printed line returns the tree. *)
From Stdlib Require Import String.
From S2P Require Import Prelude Machine StringC User Sh ShSpec.

Inductive acmd :=
| AExec (args : list (list Z))
| ARedir (c : acmd) (out : bool) (file : list Z)
| APipe (left right : acmd)
| AList (left right : acmd)
| ABack (c : acmd).

(** The tree of a parsed command, its words read by [text]. *)
Fixpoint view (text : slice -> list Z) (c : cmd) : acmd :=
  match c with
  | EXEC argv => AExec (text <$> argv)
  | REDIR c w _ fd => ARedir (view text c) (fd =? 1) (text w)
  | PIPE l r => APipe (view text l) (view text r)
  | LIST l r => AList (view text l) (view text r)
  | BACK c => ABack (view text c)
  end.

Definition args_text (args : list (list Z)) : list Z := concat ((fun w => w ++ [32]) <$> args).
Definition redir_text (r : bool * list Z) : list Z := (if r.1 then 62 else 60) :: r.2 ++ [32].
Definition redirs_text (rs : list (bool * list Z)) : list Z := concat (redir_text <$> rs).

(** The printed form where the grammar expects an exec (0), a pipe (1), a pipe with [&] (2)
    or a line (3). *)
Fixpoint print (l : nat) (c : acmd) : list Z :=
  let paren (n : nat) (t : list Z) := if (l <? n)%nat then 40 :: t ++ [41] else t in
  match c with
  | AExec args => args_text args
  | ARedir c out file => print 0 c ++ redir_text (out, file)
  | APipe a b => paren 1%nat (print 0 a ++ 124 :: print 1 b)
  | ABack a => paren 2%nat (print 2 a ++ [38])
  | AList a b => paren 3%nat (print 2 a ++ 59 :: print 3 b)
  end.

(** A word that the parser can read. *)
Definition word (w : list Z) : Prop := w <> [] /\ Forall (fun c => c <> 0 /\ delim c = false) w.

Fixpoint valid (c : acmd) : Prop :=
  match c with
  | AExec args => (length args < MAXARGS)%nat /\ Forall word args
  | ARedir c _ file => valid c /\ word file
  | APipe l r | AList l r => valid l /\ valid r
  | ABack c => valid c
  end.

(** ** Tokens of printed lines *)

(** Membership of a literal in a literal list. *)
Ltac member := unfold symbols, whitespace; repeat first [apply list_elem_of_here|apply list_elem_of_further].

Lemma delim_ws c : delim c = false -> is_ws c = false /\ in_set symbols c = false.
Proof. unfold delim, is_ws. apply orb_false_iff. Qed.

Lemma delim_sym c : delim c = false -> c ∉ symbols.
Proof. intros [_ H]%delim_ws. rewrite <- symbols_elem. congruence. Qed.

Lemma skip_word_app w rest : Forall (fun c => c <> 0 /\ delim c = false) w -> rest = [] \/ delim (ch rest) = true ->
  skip_word (w ++ rest) = rest.
Proof.
  intros Hw Hr. induction Hw as [|c w [_ Hc] _ IH]; simpl.
  - destruct rest as [|c rest]; [done|]. destruct Hr as [?|Hr]; [done|]. simpl in Hr |- *.
    rewrite <- negb_orb. fold (delim c). by rewrite Hr.
  - rewrite <- negb_orb. fold (delim c). by rewrite Hc.
Qed.

Lemma word_ch w rest : word w -> exists c, ch (w ++ rest) = c /\ c <> 0 /\ delim c = false.
Proof. intros [Hn Hw]. destruct w as [|c w]; [done|]. apply Forall_cons in Hw as [[? ?] _]. by exists c. Qed.

Lemma gettoken_word w rest : word w -> is_ws (ch rest) = false ->
  exists sl, gettoken (w ++ 32 :: rest) = (97, sl, rest) /\ stext sl = w.
Proof.
  intros Hw Hr. destruct (word_ch w (32 :: rest) Hw) as (c & Hc & H0 & Hd).
  exists (w ++ 32 :: rest, 32 :: rest). unfold gettoken.
  rewrite skip_ws_id by (rewrite Hc; by apply delim_ws). rewrite Hc.
  apply delim_sym in Hd. rewrite (proj2 (Z.eqb_neq c 0)) by done.
  assert (forall x, x ∈ symbols -> (c =? x) = false) as Hsym by (intros x Hx; apply Z.eqb_neq; congruence).
  assert ((c =? 124) || (c =? 40) || (c =? 41) || (c =? 59) || (c =? 38) || (c =? 60) = false) as ->.
  { rewrite !(Hsym _); [done|member..]. }
  rewrite Hsym by member.
  rewrite skip_word_app; [|apply Hw|by right]. split.
  - simpl. rewrite skip_ws_id by done. done.
  - unfold stext. cbn [fst snd]. rewrite length_app, Nat.add_sub, take_app_length. done.
Qed.

Lemma gettoken_sym c rest : c ∈ [124; 40; 41; 59; 38; 60] -> is_ws (ch rest) = false ->
  exists sl, gettoken (c :: rest) = (c, sl, rest).
Proof.
  intros Hc Hr. eexists. unfold gettoken. 
  assert (skip_ws (c :: rest) = c :: rest) as ->.
  { apply skip_ws_id. repeat (apply elem_of_cons in Hc as [->|Hc]; [done|]). by apply elem_of_nil in Hc. }
  cbn [ch tail]. assert (c =? 0 = false) as ->.
  { repeat (apply elem_of_cons in Hc as [->|Hc]; [done|]). by apply elem_of_nil in Hc. }
  assert ((c =? 124) || (c =? 40) || (c =? 41) || (c =? 59) || (c =? 38) || (c =? 60) = true) as ->.
  { repeat (apply elem_of_cons in Hc as [->|Hc]; [done|]). by apply elem_of_nil in Hc. }
  by rewrite (skip_ws_id rest).
Qed.

Lemma gettoken_gt rest : is_ws (ch rest) = false -> ch rest <> 62 -> exists sl, gettoken (62 :: rest) = (62, sl, rest).
Proof.
  intros Hr H62. eexists. unfold gettoken. change (skip_ws (62 :: rest)) with (62 :: rest). cbn -[skip_ws].
  rewrite (proj2 (Z.eqb_neq (ch rest) 62)) by done. by rewrite (skip_ws_id rest).
Qed.

Lemma peek_ch s toks : is_ws (ch s) = false -> peek s toks = (negb (ch s =? 0) && in_set toks (ch s), s).
Proof. intros H. unfold peek. by rewrite skip_ws_id. Qed.

(** A literal that is not in a literal list. *)
Ltac not_member H := exfalso; repeat (apply elem_of_cons in H as [H|H]; [done|]); by apply elem_of_nil in H.

(** What may follow an exec: the end of the line or one of these symbols. *)
Definition follow (l : list Z) (rest : list Z) : Prop := rest = [] \/ ch rest ∈ l.
Definition stops : list Z := [124; 41; 38; 59].

Lemma peek_no s toks : is_ws (ch s) = false -> s = [] \/ ch s ∉ toks -> Forall (fun c => c <> 0) toks ->
  peek s toks = (false, s).
Proof.
  intros Hws Hs Ht. rewrite peek_ch by done. f_equal. destruct Hs as [->|Hs]; [done|].
  apply andb_false_iff. right. apply not_true_iff_false. by rewrite in_set_elem.
Qed.

Lemma peek_yes s toks : is_ws (ch s) = false -> ch s ∈ toks -> Forall (fun c => c <> 0) toks -> peek s toks = (true, s).
Proof.
  intros Hws Hs Ht. rewrite peek_ch by done. f_equal. rewrite (proj2 (in_set_elem _ _ Ht) Hs), andb_true_r.
  rewrite Forall_forall in Ht. apply Ht in Hs. by rewrite (proj2 (Z.eqb_neq _ 0)).
Qed.

(** ** Redirections and arguments *)

Definition wraps (rs : list (bool * list Z)) (a : acmd) : acmd :=
  foldl (fun c r => ARedir c r.1 r.2) a rs.

(** A line that neither starts with white space nor with a redirection. *)
Definition no_redir (rest : list Z) : Prop := is_ws (ch rest) = false /\ (rest = [] \/ ch rest ∉ [60; 62]).

Lemma follow_no_redir l rest : follow l rest -> (forall c, c ∈ l -> c ∈ stops) -> no_redir rest.
Proof.
  intros Hf Hl. split.
  - destruct Hf as [->|Hf]; [done|]. apply Hl in Hf. unfold stops in Hf.
    repeat (apply elem_of_cons in Hf as [->|Hf]; [done|]). by apply elem_of_nil in Hf.
  - destruct Hf as [->|Hf]; [by left|right]. apply Hl in Hf. unfold stops in Hf. intros Hc.
    repeat (apply elem_of_cons in Hc as [Hc|Hc]; [rewrite Hc in Hf; set_solver|]). by apply elem_of_nil in Hc.
Qed.

Lemma nonzero_list l : forallb (fun c => negb (c =? 0)) l = true -> Forall (fun c => c <> 0) l.
Proof. induction l as [|c l IH]; simpl; [done|]. intros [H1 H2]%andb_true_iff. bool_to_prop. constructor; auto. Qed.

Lemma redirs_ch rs rest : Forall word (snd <$> rs) -> rs <> [] ->
  ch (redirs_text rs ++ rest) ∈ [60; 62] /\ is_ws (ch (redirs_text rs ++ rest)) = false.
Proof. intros _ Hn. destruct rs as [|[[|] f] rs]; [done|..]; simpl; (split; [member|done]). Qed.

Lemma parseredirs_none f c rest : no_redir rest -> (0 < f)%nat -> parseredirs f c rest = POk (c, rest).
Proof.
  intros [H1 H2] Hf. destruct f as [|f]; [lia|]. cbn [parseredirs].
  rewrite peek_no; [done|done|done|by apply nonzero_list].
Qed.

Lemma parseredirs_print rs : forall f c rest, Forall word (snd <$> rs) -> no_redir rest ->
  (length (redirs_text rs ++ rest) < f)%nat ->
  exists c', parseredirs f c (redirs_text rs ++ rest) = POk (c', rest) /\ view stext c' = wraps rs (view stext c).
Proof.
  induction rs as [|[o w] rs IH]; intros f c rest Hw Hr Hf.
  - exists c. split; [|done]. apply parseredirs_none; [done|lia].
  - apply Forall_cons in Hw as [Hw Hws]. cbn [snd] in Hw. set (more := redirs_text rs ++ rest).
    assert (redirs_text ((o, w) :: rs) ++ rest = (if o then 62 else 60) :: w ++ 32 :: more) as Ht.
    { unfold redirs_text, redir_text, more. simpl. by rewrite <- !app_assoc. }
    rewrite Ht in *. destruct f as [|f]; [simpl in Hf; lia|]. cbn [parseredirs].
    assert (is_ws (ch more) = false) as Hm.
    { unfold more. destruct rs; [apply Hr|]. by apply redirs_ch. }
    assert (forall x, is_ws (ch (x :: w ++ 32 :: more)) = is_ws x) as Hx by done.
    rewrite peek_yes; [|by destruct o|destruct o; member|by apply nonzero_list]. cbn [negb].
    destruct (word_ch w (32 :: more) Hw) as (c0 & Hc0 & _ & Hd0).
    assert (exists sl, gettoken ((if o then 62 else 60) :: w ++ 32 :: more) = (if o then 62 else 60, sl, w ++ 32 :: more)) as [sl Eg].
    { destruct o.
      - apply gettoken_gt; rewrite Hc0; [by apply delim_ws|]. intros ->. apply delim_sym in Hd0. apply Hd0. member.
      - apply gettoken_sym; [member|]. rewrite Hc0. by apply delim_ws. }
    rewrite Eg. destruct (gettoken_word w more Hw Hm) as (sl2 & -> & Hs2). cbn [Z.eqb Pos.eqb negb].
    destruct (IH f (if o then REDIR c sl2 (Z.lor O_WRONLY O_CREATE) 1 else REDIR c sl2 O_RDONLY 0) rest Hws Hr) as (c' & E & Hv).
    { simpl in Hf. rewrite length_app in Hf. fold more. simpl in Hf. lia. }
    exists c'. split; [by destruct o|]. rewrite Hv. unfold wraps. simpl. by destruct o; simpl; rewrite Hs2.
Qed.

Lemma args_ch a args rest : word a -> exists c, ch (args_text (a :: args) ++ rest) = c /\ c <> 0 /\ delim c = false.
Proof.
  intros Ha. unfold args_text. simpl. rewrite <- !app_assoc. by apply word_ch.
Qed.

Lemma parseargs_end f c n rest : follow stops rest -> (0 < f)%nat -> parseargs f c n rest = POk (c, rest).
Proof.
  intros Hf Hpos. destruct f as [|f]; [lia|]. cbn [parseargs].
  destruct (follow_no_redir stops rest Hf ltac:(done)) as [Hws _]. destruct Hf as [->|Hf].
  - done.
  - rewrite peek_yes; [done|done|done|by apply nonzero_list].
Qed.

Lemma parseargs_print args : forall f l rs rest, Forall word args -> Forall word (snd <$> rs) -> follow stops rest ->
  args <> [] -> (length l + length args < MAXARGS)%nat ->
  (length (args_text args ++ redirs_text rs ++ rest) < f)%nat ->
  exists c, parseargs f (EXEC l) (length l) (args_text args ++ redirs_text rs ++ rest) = POk (c, rest) /\
    view stext c = wraps rs (AExec ((stext <$> l) ++ args)).
Proof.
  induction args as [|a args IH]; intros f l rs rest Ha Hrs Hf Hne Hn Hlen; [done|]. clear Hne.
  apply Forall_cons in Ha as [Ha Has]. set (more := args_text args ++ redirs_text rs ++ rest).
  assert (args_text (a :: args) ++ redirs_text rs ++ rest = a ++ 32 :: more) as Ht.
  { unfold args_text, more. simpl. by rewrite <- !app_assoc. }
  rewrite Ht in *. destruct f as [|f]; [lia|]. cbn [parseargs].
  pose proof (follow_no_redir stops rest Hf ltac:(done)) as Hnr.
  assert (is_ws (ch more) = false) as Hm.
  { unfold more. destruct args as [|a' args]; [destruct rs; [apply Hnr|by apply redirs_ch]|].
    apply Forall_cons in Has as [Ha' _]. destruct (args_ch a' args (redirs_text rs ++ rest) Ha') as (c & -> & _ & Hd). by apply delim_ws. }
  destruct (word_ch a (32 :: more) Ha) as (c & Hc & Hc0 & Hd).
  rewrite peek_no; [|rewrite Hc; by apply delim_ws|right; rewrite Hc; apply delim_sym in Hd; intros Hin; apply Hd|by apply nonzero_list].
  2: { unfold symbols. repeat (apply elem_of_cons in Hin as [->|Hin]; [member|]). by apply elem_of_nil in Hin. }
  destruct (gettoken_word a more Ha Hm) as (sl & -> & Hsl). cbn [Z.eqb Pos.eqb negb add_arg].
  simpl length in Hn. destruct (MAXARGS <=? S (length l))%nat eqn:Em; [apply Nat.leb_le in Em; lia|].
  rewrite length_app in Hlen. simpl in Hlen.
  assert (S (length l) = length (l ++ [sl])) as -> by (rewrite length_app; simpl; lia).
  destruct args as [|a' args].
  - destruct (parseredirs_print rs (S (length more)) (EXEC (l ++ [sl])) rest Hrs Hnr) as (c' & E & Hv).
    { unfold more. simpl. lia. }
    replace more with (redirs_text rs ++ rest) in * by done. rewrite E. cbn [pbind fst snd].
    rewrite parseargs_end by (done || lia). exists c'. split; [done|]. rewrite Hv. cbn [view]. rewrite fmap_app. cbn [fmap list_fmap]. by rewrite Hsl.
  - pose proof Has as [Ha' _]%Forall_cons.
    destruct (args_ch a' args (redirs_text rs ++ rest) Ha') as (c1 & Hc1 & _ & Hd1). fold more in Hc1.
    assert (no_redir more) as Hnm.
    { split; [done|right]. rewrite Hc1. apply delim_sym in Hd1. intros Hin. apply Hd1.
      repeat (apply elem_of_cons in Hin as [->|Hin]; [member|]). by apply elem_of_nil in Hin. }
    rewrite parseredirs_none by (done || lia).
    cbn [pbind fst snd].
    destruct (IH f (l ++ [sl]) rs rest Has Hrs Hf ltac:(done)) as (c2 & E2 & Hv2).
    { rewrite length_app. simpl in *. lia. }
    { fold more. lia. }
    exists c2. split; [done|]. rewrite Hv2, fmap_app. cbn [fmap list_fmap]. by rewrite Hsl, <- app_assoc.
Qed.

(** ** The levels of the grammar *)

Lemma follow_ws l rest : follow l rest -> (forall c, c ∈ l -> c ∈ stops) -> is_ws (ch rest) = false.
Proof. intros Hf Hl. by apply (follow_no_redir l rest). Qed.

(** Printed commands do not start with white space. *)
Lemma print_start a : forall l rest, valid a -> is_ws (ch rest) = false -> is_ws (ch (print l a ++ rest)) = false.
Proof.
  induction a as [args|a IH o w|a IHa b IHb|a IHa b IHb|a IH]; intros l rest Hv Hr; simpl in *.
  - destruct args as [|x args]; [done|]. destruct Hv as [_ [Hx _]%Forall_cons].
    destruct (args_ch x args rest Hx) as (c & -> & _ & Hd). by apply delim_ws.
  - rewrite <- app_assoc. apply IH; [apply Hv|]. by destruct o.
  - destruct (l <? 1)%nat; [done|]. rewrite <- app_assoc. apply IHa; [apply Hv|done].
  - destruct (l <? 3)%nat; [done|]. rewrite <- app_assoc. apply IHa; [apply Hv|done].
  - destruct (l <? 2)%nat; [done|]. rewrite <- app_assoc. apply IH; done.
Qed.

Definition rt_exec (a : acmd) : Prop := forall f rs rest, Forall word (snd <$> rs) -> follow stops rest ->
  (4 * length (print 0 a ++ redirs_text rs ++ rest) + 2 <= f)%nat ->
  exists c, parseexec f (print 0 a ++ redirs_text rs ++ rest) = POk (c, rest) /\ view stext c = wraps rs a.

Definition rt_pipe (a : acmd) : Prop := forall f rest, follow [41; 38; 59] rest ->
  (4 * length (print 1 a ++ rest) + 3 <= f)%nat ->
  exists c, parsepipe f (print 1 a ++ rest) = POk (c, rest) /\ view stext c = a.

Definition backs (k : nat) (a : acmd) : acmd := Nat.iter k ABack a.

Definition rt_back (a : acmd) : Prop := forall f k rest, follow [41; 59] rest ->
  (4 * length (print 2 a ++ replicate k 38%Z ++ rest) + 3 <= f)%nat ->
  exists c0 r0 c, parsepipe f (print 2 a ++ replicate k 38%Z ++ rest) = POk (c0, r0) /\
    (forall g, (length r0 < g)%nat -> parseback g c0 r0 = POk (c, rest)) /\ view stext c = backs k a.

Definition rt_line (a : acmd) : Prop := forall f rest, follow [41] rest ->
  (4 * length (print 3 a ++ rest) + 4 <= f)%nat ->
  exists c, parseline f (print 3 a ++ rest) = POk (c, rest) /\ view stext c = a.

Ltac sub_stops := intros ? ?; unfold stops in *; set_solver.

Lemma rt_exec_words args : valid (AExec args) -> rt_exec (AExec args).
Proof.
  intros [Hn Hw] f rs rest Hrs Hf Hlen. destruct f as [|f]; [lia|]. cbn [parseexec print] in *.
  pose proof (follow_no_redir stops rest Hf ltac:(done)) as Hnr.
  set (line := args_text args ++ redirs_text rs ++ rest) in *.
  assert (is_ws (ch line) = false /\ ch line <> 40) as [Hws H40].
  { unfold line. destruct args as [|a args].
    - destruct rs as [|r rs].
      + split; [apply Hnr|]. simpl. destruct Hf as [->|Hf]; [done|]. intros E. rewrite E in Hf. unfold stops in Hf. set_solver.
      + destruct (redirs_ch (r :: rs) rest Hrs ltac:(done)) as [H1 H2]. split; [done|].
        intros E. cbn [args_text fmap list_fmap concat app] in E. rewrite E in H1. set_solver.
    - apply Forall_cons in Hw as [Ha _]. destruct (args_ch a args (redirs_text rs ++ rest) Ha) as (c & -> & _ & Hd).
      split; [by apply delim_ws|]. intros ->. apply delim_sym in Hd. apply Hd. member. }
  rewrite peek_no; [|done|right; set_solver|by apply nonzero_list].
  destruct args as [|a args].
  - destruct (parseredirs_print rs (S (length line)) (EXEC []) rest Hrs Hnr) as (c & E & Hv); [unfold line; simpl; lia|].
    change line with (redirs_text rs ++ rest) in *. rewrite E. cbn [pbind fst snd].
    rewrite parseargs_end by (done || lia). by exists c.
  - rewrite parseredirs_none; [|split; [done|right]|lia].
    + cbn [pbind fst snd]. destruct (parseargs_print (a :: args) (S (length line)) [] rs rest Hw Hrs Hf) as (c & E & Hv);
        [done|simpl in *; lia|fold line; lia|]. exists c. by split.
    + pose proof Hw as [Ha _]%Forall_cons. unfold line. destruct (args_ch a args (redirs_text rs ++ rest) Ha) as (c & -> & _ & Hd).
      apply delim_sym in Hd. intros Hin. apply Hd.
      repeat (apply elem_of_cons in Hin as [->|Hin]; [member|]). by apply elem_of_nil in Hin.
Qed.

Lemma rt_exec_redir a o w : rt_exec a -> word w -> rt_exec (ARedir a o w).
Proof.
  intros Ha Hw f rs rest Hrs Hf Hlen. cbn [print] in *. rewrite <- app_assoc in *.
  replace (redir_text (o, w) ++ redirs_text rs ++ rest) with (redirs_text ((o, w) :: rs) ++ rest) in *.
  2: { unfold redirs_text. cbn [fmap list_fmap concat]. by rewrite <- app_assoc. }
  destruct (Ha f ((o, w) :: rs) rest) as (c & E & Hv); [by constructor|done|done|]. by exists c.
Qed.

(** A command in parentheses. *)
Lemma rt_exec_block a : valid a -> rt_line a -> print 0 a = 40 :: print 3 a ++ [41] -> rt_exec a.
Proof.
  intros Hv Ha Hp f rs rest Hrs Hf Hlen. rewrite Hp in *. pose proof (follow_no_redir stops rest Hf ltac:(done)) as Hnr.
  set (tail2 := redirs_text rs ++ rest) in *.
  assert ((40 :: print 3 a ++ [41]) ++ tail2 = 40 :: print 3 a ++ 41 :: tail2) as E by (simpl; by rewrite <- app_assoc).
  rewrite E in *. destruct f as [|[|f]]; [lia|lia|]. cbn [parseexec].
  rewrite peek_yes; [|done|member|by apply nonzero_list]. cbn [parseblock].
  rewrite peek_yes; [|done|member|by apply nonzero_list]. cbn [negb].
  destruct (gettoken_sym 40 (print 3 a ++ 41 :: tail2)) as [sl ->]; [member|by apply print_start|].
  destruct (Ha f (41 :: tail2)) as (c & -> & Hc); [right; member|simpl in Hlen; lia|]. cbn [pbind fst snd].
  assert (is_ws (ch tail2) = false) as Ht.
  { unfold tail2. destruct rs; [apply Hnr|]. by apply redirs_ch. }
  rewrite peek_yes; [|done|member|by apply nonzero_list]. cbn [negb].
  destruct (gettoken_sym 41 tail2) as [sl' ->]; [member|done|].
  destruct (parseredirs_print rs (S (length tail2)) c rest Hrs Hnr ltac:(unfold tail2; lia)) as (c' & E' & Hv').
  exists c'. split; [done|]. by rewrite Hv', Hc.
Qed.

Lemma rt_exec_pipe a : rt_exec a -> print 1 a = print 0 a -> rt_pipe a.
Proof.
  intros Ha Hp f rest Hf Hlen. rewrite Hp in *. destruct f as [|f]; [lia|]. cbn [parsepipe].
  destruct (Ha f [] rest) as (c & E & Hv); [constructor|destruct Hf as [|Hf]; [by left|right; unfold stops; set_solver]|simpl; lia|].
  cbn [redirs_text fmap list_fmap concat app] in E. rewrite E. cbn [pbind fst snd].
  rewrite peek_no; [by exists c|eapply follow_ws; [exact Hf|sub_stops]| |by apply nonzero_list].
  destruct Hf as [|Hf]; [by left|right]. intros Hc%list_elem_of_singleton. rewrite Hc in Hf. not_member Hf.
Qed.

Lemma rt_pipe_pipe a b : valid a -> valid b -> rt_exec a -> rt_pipe b -> rt_pipe (APipe a b).
Proof.
  intros Hva Hvb Ha Hb f rest Hf Hlen. cbn [print Nat.ltb Nat.leb] in *. rewrite <- app_assoc in *. cbn [app] in *.
  rewrite length_app in Hlen. simpl in Hlen. destruct f as [|f]; [lia|]. cbn [parsepipe].
  destruct (Ha f [] (124 :: print 1 b ++ rest)) as (c & E & Hv);
    [constructor|right; unfold stops; member|simpl; rewrite length_app; simpl; lia|].
  cbn [redirs_text fmap list_fmap concat app] in E. rewrite E. cbn [pbind fst snd].
  rewrite peek_yes; [|done|member|by apply nonzero_list].
  destruct (gettoken_sym 124 (print 1 b ++ rest)) as [sl ->];
    [member|apply print_start; [done|]; eapply follow_ws; [exact Hf|sub_stops]|].
  destruct (Hb f rest Hf) as (c' & -> & Hv'); [lia|]. cbn [pbind fst snd]. eexists. split; [done|]. simpl. by rewrite Hv, Hv'.
Qed.

Lemma view_backs k c : view stext (Nat.iter k BACK c) = backs k (view stext c).
Proof. induction k as [|k IH]; simpl; [done|]. by rewrite IH. Qed.

Lemma parseback_print k : forall g c rest, follow [41; 59] rest -> (length (replicate k 38%Z ++ rest) < g)%nat ->
  parseback g c (replicate k 38%Z ++ rest) = POk (Nat.iter k BACK c, rest).
Proof.
  induction k as [|k IH]; intros g c rest Hf Hg; (destruct g as [|g]; [lia|]); cbn [parseback replicate app].
  - rewrite peek_no; [done|eapply follow_ws; [exact Hf|sub_stops]| |by apply nonzero_list].
    destruct Hf as [|Hf]; [by left|right]. intros Hc%list_elem_of_singleton. rewrite Hc in Hf. not_member Hf.
  - rewrite peek_yes; [|done|member|by apply nonzero_list]. cbn [negb].
    destruct (gettoken_sym 38 (replicate k 38%Z ++ rest)) as [sl ->]; [member| |].
    { destruct k; [|done]. eapply follow_ws; [exact Hf|sub_stops]. }
    rewrite IH; [|done|simpl in Hg; lia]. by rewrite Nat.iter_succ_r.
Qed.

Lemma rt_pipe_back a : rt_pipe a -> print 2 a = print 1 a -> rt_back a.
Proof.
  intros Ha Hp f k rest Hf Hlen. rewrite Hp in *.
  destruct (Ha f (replicate k 38%Z ++ rest)) as (c & E & Hv); [|done|].
  { destruct k; [|right; simpl; member]. destruct Hf as [|Hf]; [by left|right; set_solver]. }
  exists c, (replicate k 38%Z ++ rest), (Nat.iter k BACK c). split_and!; [done| |by rewrite view_backs, Hv].
  intros g Hg. by apply parseback_print.
Qed.

Lemma rt_back_back a : rt_back a -> rt_back (ABack a).
Proof.
  intros Ha f k rest Hf Hlen. cbn [print Nat.ltb Nat.leb] in *. rewrite <- app_assoc in *.
  destruct (Ha f (S k) rest Hf Hlen) as (c0 & r0 & c & E & Hb & Hv). exists c0, r0, c. split_and!; [done|done|].
  rewrite Hv. unfold backs. by rewrite Nat.iter_succ_r.
Qed.

Lemma rt_back_line a : valid a -> rt_back a -> print 3 a = print 2 a -> rt_line a.
Proof.
  intros Hva Ha Hp f rest Hf Hlen. rewrite Hp in *. destruct f as [|f]; [lia|]. cbn [parseline].
  destruct (Ha f 0%nat rest) as (c0 & r0 & c & E & Hb & Hv); [destruct Hf as [|Hf]; [by left|right; set_solver]|simpl; lia|].
  cbn [replicate app] in E. rewrite E. cbn [pbind fst snd]. rewrite Hb by lia. cbn [pbind fst snd].
  rewrite peek_no; [by exists c|eapply follow_ws; [exact Hf|sub_stops]| |by apply nonzero_list].
  destruct Hf as [|Hf]; [by left|right]. intros Hc%list_elem_of_singleton. rewrite Hc in Hf. not_member Hf.
Qed.

Lemma rt_line_list a b : valid a -> valid b -> rt_back a -> rt_line b -> rt_line (AList a b).
Proof.
  intros Hva Hvb Ha Hb f rest Hf Hlen. cbn [print Nat.ltb Nat.leb] in *. rewrite <- app_assoc in *. cbn [app] in *.
  rewrite length_app in Hlen. simpl in Hlen. destruct f as [|f]; [lia|]. cbn [parseline].
  destruct (Ha f 0%nat (59 :: print 3 b ++ rest)) as (c0 & r0 & c & E & Hbk & Hv);
    [right; member|simpl; rewrite length_app; simpl; lia|].
  cbn [replicate app] in E. rewrite E. cbn [pbind fst snd]. rewrite Hbk by lia. cbn [pbind fst snd].
  rewrite peek_yes; [|done|member|by apply nonzero_list].
  destruct (gettoken_sym 59 (print 3 b ++ rest)) as [sl ->];
    [member|apply print_start; [done|]; eapply follow_ws; [exact Hf|sub_stops]|].
  destruct (Hb f rest Hf) as (c' & -> & Hv'); [lia|]. cbn [pbind fst snd]. eexists. split; [done|]. simpl. by rewrite Hv, Hv'.
Qed.

(** Every level of the grammar reads back every valid command. *)
Lemma print_parse a : valid a -> rt_exec a /\ rt_pipe a /\ rt_back a /\ rt_line a.
Proof.
  induction a as [args|a IH o w|a IHa b IHb|a IHa b IHb|a IH]; intros Hv.
  - assert (rt_exec (AExec args)) as H0 by by apply rt_exec_words. assert (rt_pipe (AExec args)) as H1 by by apply rt_exec_pipe.
    assert (rt_back (AExec args)) as H2 by by apply rt_pipe_back. split_and!; try done. by apply rt_back_line.
  - destruct Hv as [Hv Hw]. destruct (IH Hv) as (H & _). assert (rt_exec (ARedir a o w)) as H0 by by apply rt_exec_redir.
    assert (rt_pipe (ARedir a o w)) as H1 by by apply rt_exec_pipe. assert (rt_back (ARedir a o w)) as H2 by by apply rt_pipe_back.
    split_and!; try done. by apply rt_back_line.
  - destruct Hv as [Hva Hvb]. destruct (IHa Hva) as (Ha0 & _). destruct (IHb Hvb) as (_ & Hb1 & _).
    assert (rt_pipe (APipe a b)) as H1 by by apply rt_pipe_pipe. assert (rt_back (APipe a b)) as H2 by by apply rt_pipe_back.
    assert (rt_line (APipe a b)) as H3 by by apply rt_back_line. split_and!; try done. by apply rt_exec_block.
  - destruct Hv as [Hva Hvb]. destruct (IHa Hva) as (_ & _ & Ha2 & _). destruct (IHb Hvb) as (_ & _ & _ & Hb3).
    assert (rt_line (AList a b)) as H3 by by apply rt_line_list. assert (rt_exec (AList a b)) as H0 by by apply rt_exec_block.
    assert (rt_pipe (AList a b)) as H1 by by apply rt_exec_pipe. split_and!; try done. by apply rt_pipe_back.
  - destruct (IH Hv) as (_ & _ & Ha2 & _). assert (rt_back (ABack a)) as H2 by by apply rt_back_back.
    assert (rt_line (ABack a)) as H3 by by apply rt_back_line. assert (rt_exec (ABack a)) as H0 by by apply rt_exec_block.
    split_and!; try done. by apply rt_exec_pipe.
Qed.

Lemma word_chars w : word w -> chars w.
Proof. intros [_ H]. eapply Forall_impl; [exact H|]. naive_solver. Qed.

Lemma print_chars a : forall l, valid a -> chars (print l a).
Proof.
  assert (forall c, c <> 0 -> chars [c]) as H1 by (intros; by constructor).
  assert (forall l n t, chars t -> chars (if (l <? n)%nat then 40 :: t ++ [41] else t)) as Hpar.
  { intros l n t Ht. destruct (l <? n)%nat; [|done]. constructor; [done|]. apply Forall_app. split; [done|by apply H1]. }
  induction a as [args|a IH o w|a IHa b IHb|a IHa b IHb|a IH]; intros l Hv; cbn [print valid] in *.
  - destruct Hv as [_ Hv]. unfold args_text. induction Hv as [|w args Hw _ IH]; simpl; [constructor|].
    apply Forall_app. split; [|done]. apply Forall_app. split; [by apply word_chars|by apply H1].
  - apply Forall_app. split; [apply IH, Hv|]. constructor; [by destruct o|]. apply Forall_app.
    split; [apply word_chars, Hv|by apply H1].
  - apply Hpar, Forall_app. split; [apply IHa, Hv|]. constructor; [done|apply IHb, Hv].
  - apply Hpar, Forall_app. split; [apply IHa, Hv|]. constructor; [done|apply IHb, Hv].
  - apply Hpar, Forall_app. split; [by apply IH|by apply H1].
Qed.

Lemma view_ext t1 t2 c : (forall w, w ∈ words c -> t1 w = t2 w) -> view t1 c = view t2 c.
Proof.
  induction c as [argv|c IH f m d|l IHl r IHr|l IHl r IHr|c IH]; simpl; intros H.
  - f_equal. apply list_fmap_ext. intros i x Hx. apply H. by eapply list_elem_of_lookup_2.
  - f_equal; [apply IH|apply H]; [intros; apply H|]; set_solver.
  - f_equal; [apply IHl|apply IHr]; intros; apply H; set_solver.
  - f_equal; [apply IHl|apply IHr]; intros; apply H; set_solver.
  - f_equal. by apply IH.
Qed.

Lemma parse_printed a : valid a ->
  exists c b, parsecmd (print 3 a) = POk (c, b) /\ view (word_text (length (print 3 a)) b) c = a.
Proof.
  intros Hv. destruct (print_parse a Hv) as (_ & _ & _ & Hl). pose proof (print_chars a 3 Hv) as Hch.
  destruct (Hl (4 * length (print 3 a) + 4)%nat []) as (c & E & Hc); [by left|rewrite app_nil_r; lia|]. rewrite app_nil_r in E.
  assert (parsecmd (print 3 a) = POk (c, nulterminate (length (print 3 a)) c (print 3 a ++ [0]))) as Ep.
  { unfold parsecmd. by rewrite E. }
  exists c, (nulterminate (length (print 3 a)) c (print 3 a ++ [0])). split; [exact Ep|].
  transitivity (view stext c); [|done]. apply view_ext. intros w Hw. apply word_text_ok; [done| |done].
  by destruct (parsecmd_wf _ _ _ Hch Ep) as [? _].
Qed.

(** C13. Printing and parsing: a command with valid words, written out with parentheses where the
    grammar needs them, is parsed to the same command, and after nulterminate the strings
    in the buffer are its words. *)
Theorem print_parse_roundtrip a : valid a ->
  exists c b, parsecmd (print 3 a) = POk (c, b) /\ view (word_text (length (print 3 a)) b) c = a.
Proof. apply parse_printed. Qed.
