(* ===== verification/ShRun.v ===== *)
(** * How the shell wires the commands it runs

    The processes of runcmd under a kernel that grants every call: descriptors are
    handed out lowest first as fdalloc does, a forked process starts with a copy of the
    table, and the events of interest are the programs started and the waits, each with
    the table of descriptors of its process.  The specification reads the events off
    the command. *)
From Stdlib Require Import String.
From S2P Require Import Prelude Machine StringC User Sh ShSpec ShPrint.

(** What a descriptor refers to. *)
Inductive endp :=
| Inherited (i : Z)
| FileAt (path : list Z) (mode : Z)
| PipeRead (id : nat)
| PipeWrite (id : nat).

Notation fds := (gmap Z endp).

Inductive event :=
| Started (argv : list (list Z)) (F : fds)
| Waited (F : fds).

Definition NOFILES : nat := 16.

(** fdalloc: the first free descriptor. *)
Definition fdalloc (F : fds) : Z :=
  match find_first (fun i => match F !! Z.of_nat i with Some _ => false | None => true end) (seq 0 NOFILES) with
  | Some i => Z.of_nat i
  | None => -1
  end.

Definition fd_add (F : fds) (e : endp) : Z * fds :=
  let fd := fdalloc F in if fd <? 0 then (fd, F) else (fd, <[fd := e]> F).

(** The events of a process and its descendants, and the next unused pipe. *)
Fixpoint run (p : prog) (F : fds) (n : nat) : list event * nat :=
  match p with
  | Exit _ => ([], n)
  | Exec path argv _ => ([Started argv F], n)
  | Close fd k => run k (delete fd F) n
  | Open path mode k => let '(fd, F') := fd_add F (FileAt path mode) in run (k fd) F' n
  | Pipe k =>
    let '(r, F1) := fd_add F (PipeRead n) in
    let '(w, F2) := fd_add F1 (PipeWrite n) in
    if (r <? 0) || (w <? 0) then run (k (-1) 0 0) F n else run (k 0 r w) F2 (S n)
  | Dup2 old new k => run k (match F !! old with Some e => <[new := e]> F | None => F end) n
  | Fork child k =>
    let '(l1, n1) := run child F n in
    let '(l2, n2) := run (k 1) F n1 in
    (l1 ++ l2, n2)
  | Wait k => let '(l, n') := run (k 0) F n in (Waited F :: l, n')
  | Chdir _ k => run (k 0) F n
  | Write _ _ k => run k F n
  end.

(** What a command asks for. *)
Fixpoint spec (c : acmd) (F : fds) (n : nat) : list event * nat :=
  match c with
  | AExec [] => ([], n)
  | AExec args => ([Started args F], n)
  | ARedir c out file =>
    spec c (if out then <[1 := FileAt file (Z.lor O_WRONLY O_CREATE)]> F else <[0 := FileAt file O_RDONLY]> F) n
  | APipe l r =>
    let '(el, n1) := spec l (<[1 := PipeWrite n]> F) (S n) in
    let '(er, n2) := spec r (<[0 := PipeRead n]> F) n1 in
    (el ++ er ++ [Waited F; Waited F], n2)
  | AList l r =>
    let '(el, n1) := spec l F n in
    let '(er, n2) := spec r F n1 in
    (el ++ Waited F :: er, n2)
  | ABack c => spec c F n
  end.

(** The modes that the parser gives to redirections. *)
Fixpoint modes_ok (c : cmd) : Prop :=
  match c with
  | EXEC _ => True
  | REDIR c _ mode fd => modes_ok c /\ (mode = O_RDONLY /\ fd = 0 \/ mode = Z.lor O_WRONLY O_CREATE /\ fd = 1)
  | PIPE l r | LIST l r => modes_ok l /\ modes_ok r
  | BACK c => modes_ok c
  end.

(** The three standard descriptors are open and no others. *)
Definition standard (F : fds) : Prop := forall i, is_Some (F !! i) <-> i = 0 \/ i = 1 \/ i = 2.

Lemma standard_insert F i e : standard F -> i = 0 \/ i = 1 \/ i = 2 -> standard (<[i := e]> F).
Proof. intros HF Hi j. rewrite lookup_insert_is_Some', (HF j). intuition congruence. Qed.

Lemma standard_get F i : standard F -> i = 0 \/ i = 1 \/ i = 2 -> exists e, F !! i = Some e.
Proof. intros HF Hi. by apply HF. Qed.

Lemma standard_none F i : standard F -> 2 < i -> F !! i = None.
Proof. intros HF Hi. apply eq_None_not_Some. rewrite (HF i). lia. Qed.

(** A closed standard descriptor is the next one handed out. *)
Lemma fdalloc_closed F fd : standard F -> fd = 0 \/ fd = 1 -> fdalloc (delete fd F) = fd.
Proof.
  intros HF Hfd. unfold fdalloc. cbn [seq NOFILES find_first]. destruct Hfd as [->| ->].
  - change (Z.of_nat 0) with 0. by rewrite lookup_delete_eq.
  - change (Z.of_nat 0) with 0. rewrite lookup_delete_ne by done.
    destruct (standard_get F 0 HF) as [e ->]; [by left|]. change (Z.of_nat 1) with 1. by rewrite lookup_delete_eq.
Qed.

(** The first and second descriptor above the standard ones. *)
Lemma fdalloc_three F : standard F -> fdalloc F = 3.
Proof.
  intros HF. unfold fdalloc. cbn [seq NOFILES find_first].
  destruct (standard_get F 0 HF) as [e0 E0]; [lia|]. destruct (standard_get F 1 HF) as [e1 E1]; [lia|].
  destruct (standard_get F 2 HF) as [e2 E2]; [lia|].
  change (Z.of_nat 0) with 0. change (Z.of_nat 1) with 1. change (Z.of_nat 2) with 2. change (Z.of_nat 3) with 3.
  by rewrite E0, E1, E2, (standard_none F 3 HF).
Qed.

Lemma fdalloc_four F e : standard F -> fdalloc (<[3 := e]> F) = 4.
Proof.
  intros HF. unfold fdalloc. cbn [seq NOFILES find_first].
  destruct (standard_get F 0 HF) as [e0 E0]; [lia|]. destruct (standard_get F 1 HF) as [e1 E1]; [lia|].
  destruct (standard_get F 2 HF) as [e2 E2]; [lia|].
  change (Z.of_nat 0) with 0. change (Z.of_nat 1) with 1. change (Z.of_nat 2) with 2. change (Z.of_nat 3) with 3. change (Z.of_nat 4) with 4.
  rewrite (lookup_insert_ne F 3 0), (lookup_insert_ne F 3 1), (lookup_insert_ne F 3 2), (lookup_insert_ne F 3 4) by done.
  by rewrite E0, E1, E2, lookup_insert_eq, (standard_none F 4 HF).
Qed.

(** Closing both ends leaves the table with the one that was moved. *)
Lemma fds_closed F a b : standard F -> delete 4 (delete 3 (<[4 := b]> (<[3 := a]> F))) = F.
Proof.
  intros HF. apply map_eq. intros i. destruct (decide (i = 4)) as [->|H4]; [by rewrite lookup_delete_eq, (standard_none F 4 HF)|].
  rewrite lookup_delete_ne by done. destruct (decide (i = 3)) as [->|H3]; [by rewrite lookup_delete_eq, (standard_none F 3 HF)|].
  by rewrite lookup_delete_ne, !lookup_insert_ne by done.
Qed.

Lemma fds_moved F a b e i : standard F -> i = 0 \/ i = 1 ->
  delete 4 (delete 3 (<[i := e]> (<[4 := b]> (<[3 := a]> F)))) = <[i := e]> F.
Proof.
  intros HF Hi. rewrite !(insert_insert_ne _ i) by lia. apply fds_closed, standard_insert; [done|lia].
Qed.

Lemma run_spec text c : forall F n, modes_ok c -> standard F -> run (runcmd text c) F n = spec (view text c) F n.
Proof.
  induction c as [argv|c IH w mode fd|l IHl r IHr|l IHl r IHr|c IH]; intros F n Hm HF.
  - by destruct argv.
  - destruct Hm as [Hm Hfd]. cbn [runcmd run view spec]. unfold fd_add.
    assert (fd = 0 \/ fd = 1) as Hfd' by tauto. rewrite fdalloc_closed by done.
    rewrite (proj2 (Z.ltb_ge fd 0)) by lia. rewrite (proj2 (Z.ltb_ge fd 0)) by lia. rewrite insert_delete_eq.
    rewrite IH; [|done|apply standard_insert; [done|lia]].
    destruct Hfd as [[-> ->]|[-> ->]]; done.
  - destruct Hm as [Hl Hr]. cbn [runcmd run view spec]. unfold fd_add at 1. rewrite (fdalloc_three F HF). cbn [Z.ltb Z.compare].
    unfold fd_add. rewrite (fdalloc_four F _ HF). cbn [Z.ltb Z.compare orb]. unfold fork1. cbn [run Z.ltb Z.compare].
    rewrite lookup_insert_eq, (fds_moved F _ _ _ 1 HF) by lia. rewrite IHl; [|done|apply standard_insert; [done|lia]].
    destruct (spec (view text l) _ _) as [el n1]. cbn [Z.eqb]. cbn [run].
    rewrite (lookup_insert_ne _ 4 3) by done. rewrite lookup_insert_eq, (fds_moved F _ _ _ 0 HF) by lia.
    rewrite IHr; [|done|apply standard_insert; [done|lia]]. destruct (spec (view text r) _ _) as [er n2].
    cbn [Z.eqb run]. rewrite (fds_closed F _ _ HF). done.
  - destruct Hm as [Hl Hr]. cbn [runcmd]. unfold fork1. cbn [run view spec]. rewrite IHl by done.
    destruct (spec (view text l) _ _) as [el n1]. cbn [Z.eqb run]. rewrite IHr by done. by destruct (spec (view text r) _ _).
  - cbn [runcmd]. unfold fork1. cbn [run view spec]. rewrite IH by done. destruct (spec (view text c) F n) as [e n1].
    cbn [Z.eqb run]. by rewrite app_nil_r.
Qed.

Lemma wf_modes line c : wf_cmd line c -> modes_ok c.
Proof. induction c; simpl; naive_solver. Qed.

(** C12. The shell connects commands as their syntax says: when the system calls succeed, a line that
    denotes a command starts exactly its programs, in order, with its redirections and pipes
    on the standard descriptors.  No program and no waiting shell keeps another end of
    a pipe open, so that readers see the end of their input. *)
Theorem runcmd_wires a F n : valid a -> standard F ->
  exists c b, parsecmd (print 3 a) = POk (c, b) /\
    run (runcmd (word_text (length (print 3 a)) b) c) F n = spec a F n.
Proof.
  intros Hv HF. destruct (print_parse a Hv) as (_ & _ & _ & Hl). pose proof (print_chars a 3 Hv) as Hch.
  destruct (parse_printed a Hv) as (c & b & E & Hc). exists c, b. split; [done|].
  destruct (parsecmd_wf _ _ _ Hch E) as [Hwf _]. rewrite run_spec; [by rewrite Hc|by eapply wf_modes|done].
Qed.
