(* ===== verification/Posix.v ===== *)
(** * System calls of the programs in src/syscalls

    The programs run on a POSIX system, which is not part of the repository.  Its calls are
    modelled by what they document: read delivers between one and the requested number
    of bytes, or 0 at the end, or -1; write accepts between one and the offered number of
    bytes, or -1.  [x_in] is what the descriptors deliver, in pieces; [x_take] is how many
    bytes the next writes accept; [x_bad] are the descriptors whose writes fail. *)
From Stdlib Require Import String.
From S2P Require Import Prelude User.

Record px := mkPx {
  x_in : Z -> stream;
  x_out : Z -> list Z;
  x_take : Z -> list nat;
  x_bad : Z -> bool;
  x_cbad : Z -> bool;                 (* descriptors whose close fails *)
  x_files : list Z -> option stream;  (* what a path opened for reading delivers *)
  x_wok : list Z -> bool;             (* paths that open for writing *)
  x_fd : Z;                           (* the descriptor the next open returns *)
}.
Definition set_x_in (v : Z -> stream) (s : px) :=
  mkPx v (x_out s) (x_take s) (x_bad s) (x_cbad s) (x_files s) (x_wok s) (x_fd s).
Definition set_x_out (v : Z -> list Z) (s : px) :=
  mkPx (x_in s) v (x_take s) (x_bad s) (x_cbad s) (x_files s) (x_wok s) (x_fd s).
Definition set_x_take (v : Z -> list nat) (s : px) :=
  mkPx (x_in s) (x_out s) v (x_bad s) (x_cbad s) (x_files s) (x_wok s) (x_fd s).
Definition set_x_files (v : list Z -> option stream) (s : px) :=
  mkPx (x_in s) (x_out s) (x_take s) (x_bad s) (x_cbad s) v (x_wok s) (x_fd s).
Definition set_x_fd (v : Z) (s : px) :=
  mkPx (x_in s) (x_out s) (x_take s) (x_bad s) (x_cbad s) (x_files s) (x_wok s) v.

Definition STDIN_FILENO : Z := 0.
Definition STDOUT_FILENO : Z := 1.
Definition STDERR_FILENO : Z := 2.

Definition sys_read (fd : Z) (n : nat) : U px (Z * list Z) := fun s =>
  let '(r, bs, w) := next_piece n (x_in s fd) in URet (r, bs) (set_x_in (upd (x_in s) fd w) s).

(** The number of bytes the next write of [n] > 0 bytes accepts. *)
Definition accepted (n : nat) (l : list nat) : nat :=
  match l with [] => n | k :: _ => Nat.max 1 (Nat.min k n) end.

Definition sys_write (fd : Z) (bs : list Z) : U px Z := fun s =>
  if x_bad s fd then URet (-1) s else
  let k := accepted (length bs) (x_take s fd) in
  URet (Z.of_nat k) (set_x_take (upd (x_take s) fd (tail (x_take s fd)))
                      (set_x_out (upd (x_out s) fd (x_out s fd ++ take k bs)) s)).

(** open for reading; open for writing, which empties the file; close. *)
Definition sys_open_read (path : list Z) : U px Z := fun s =>
  match x_files s path with
  | None => URet (-1) s
  | Some w => URet (x_fd s) (set_x_fd (x_fd s + 1) (set_x_in (upd (x_in s) (x_fd s) w) s))
  end.
Definition sys_open_write (path : list Z) : U px Z := fun s =>
  if x_wok s path then
    URet (x_fd s) (set_x_fd (x_fd s + 1) (set_x_out (upd (x_out s) (x_fd s) [])
                    (set_x_files (fun p => if decide (p = path) then Some (mkStream [] false) else x_files s p) s)))
  else URet (-1) s.
Definition sys_close (fd : Z) : U px Z := fun s => URet (if x_cbad s fd then -1 else 0) s.

(** atoi of the C library: white space, a sign, digits.  It is undefined when the number
    does not fit an int: None. *)
Fixpoint c_digits (n : Z) (l : list Z) : Z :=
  match l with
  | [] => n
  | c :: l' => if (48 <=? c) && (c <=? 57) then c_digits (n * 10 + (c - 48)) l' else n
  end.
Definition c_isspace (c : Z) : bool := (c =? 32) || ((9 <=? c) && (c <=? 13)).
Fixpoint c_skipspace (l : list Z) : list Z :=
  match l with c :: l' => if c_isspace c then c_skipspace l' else l | [] => [] end.
Definition c_atoi (l : list Z) : option Z :=
  let l := c_skipspace l in
  let n := if ch l =? 43 then c_digits 0 (tail l) else if ch l =? 45 then - c_digits 0 (tail l) else c_digits 0 l in
  if (-2147483648 <=? n) && (n <=? 2147483647) then Some n else None.

(** The text of an error, and perror, which prints it after a message. *)
Class ErrText := errtext : list Z.

Definition fprint (fd : Z) (bs : list Z) : U px unit := fun s =>
  URet tt (set_x_out (upd (x_out s) fd (x_out s fd ++ bs)) s).
Definition perror `{ErrText} (msg : list Z) : U px unit := fprint STDERR_FILENO (msg ++ str ": " ++ errtext ++ [10]).

(** [fail msg]: [perror(msg); exit(EXIT_FAILURE);] *)
Definition fail `{ErrText} {A} (msg : list Z) : U px A := perror msg ;; exit EXIT_FAILURE.

(** A program with more state runs these calls on the part it shares with the system. *)
Class HasPx (S : Type) := { get_px : S -> px; put_px : px -> S -> S }.
Definition lift {S A} `{HasPx S} (m : U px A) : U S A := fun s =>
  match m (get_px s) with
  | URet a w => URet a (put_px w s)
  | UExit c w => UExit c (put_px w s)
  | USpin => USpin
  | UFault => UFault
  end.

(** What sprintf writes for %d. *)
Definition c_decimal (n : Z) : list Z := if n <? 0 then 45 :: decimal (- n) else decimal n.

(** ** Reading and writing everything *)

(** Read until [n] bytes are there or the input ends; each read delivers a byte. *)
Fixpoint read_all_loop (fuel : nat) (fd : Z) (n : nat) : U px (Z * list Z) :=
  match fuel with
  | O => uspin
  | S f =>
    if (n =? 0)%nat then uret (0, []) else
    do r <- sys_read fd n;
    if r.1 <=? 0 then uret (r.1, []) else
    do r2 <- read_all_loop f fd (n - length r.2);
    uret (r2.1, r.2 ++ r2.2)
  end.

(** read_all: the bytes read; an error ends the program. *)
Definition read_all `{ErrText} (msg : list Z) (fd : Z) (n : nat) : U px (list Z) :=
  do r <- read_all_loop (S n) fd n;
  if r.1 =? -1 then fail msg else uret r.2.

Fixpoint write_all_loop (fuel : nat) (fd : Z) (bs : list Z) : U px Z :=
  match fuel with
  | O => uspin
  | S f =>
    if (length bs =? 0)%nat then uret 0 else
    do r <- sys_write fd bs;
    if r <=? 0 then uret r else write_all_loop f fd (drop (Z.to_nat r) bs)
  end.

Definition write_all `{ErrText} (msg : list Z) (fd : Z) (bs : list Z) : U px unit :=
  do r <- write_all_loop (S (length bs)) fd bs;
  if r =? -1 then fail msg else uret tt.

(** ** What they do *)

Lemma ubind_inv {S A B} (m : U S A) (k : A -> U S B) s b s'' : ubind m k s = URet b s'' ->
  exists a s', m s = URet a s' /\ k a s' = URet b s''.
Proof. unfold ubind. destruct (m s) as [a s'| | |]; try done. intros E. by exists a, s'. Qed.

Definition px_emit (fd : Z) (bs : list Z) (s : px) : px := set_x_out (upd (x_out s) fd (x_out s fd ++ bs)) s.

(** Everything but the readiness to accept bytes is the same. *)
Definition px_same (s s' : px) : Prop := x_in s' = x_in s /\ x_out s' = x_out s /\ x_bad s' = x_bad s.

Lemma write_all_loop_run fd fuel : forall bs s, (length bs < fuel)%nat -> x_bad s fd = false ->
  exists r s', write_all_loop fuel fd bs s = URet r s' /\ 0 <= r /\ px_same (px_emit fd bs s) s'.
Proof.
  induction fuel as [|f IH]; intros bs s Hf Hb; [lia|]. cbn [write_all_loop].
  destruct (length bs =? 0)%nat eqn:E; [apply Nat.eqb_eq, nil_length_inv in E as ->|apply Nat.eqb_neq in E].
  { exists 0, s. split_and!; [done|done|]. unfold px_same, px_emit. simpl. by rewrite app_nil_r, upd_id. }
  unfold sys_write, ubind. rewrite Hb. set (k := accepted _ _).
  assert (0 < k <= length bs)%nat as Hk.
  { unfold k, accepted. destruct (x_take s fd); [lia|]. lia. }
  rewrite (proj2 (Z.leb_gt _ 0)) by lia. rewrite Nat2Z.id. set (s1 := set_x_take _ _).
  destruct (IH (drop k bs) s1) as (r & s' & E' & Hr & H1 & H2 & H3); [rewrite length_drop; lia|done|].
  exists r, s'. split_and!; [done|done|]. unfold px_same, px_emit in *. unfold s1 in *. simpl in *. split_and!; [done| |done].
  rewrite H2. by rewrite upd_upd, upd_eq, <- app_assoc, take_drop.
Qed.

Lemma write_all_run `{ErrText} msg fd bs s : x_bad s fd = false ->
  exists s', write_all msg fd bs s = URet tt s' /\ px_same (px_emit fd bs s) s'.
Proof.
  intros Hb. unfold write_all. destruct (write_all_loop_run fd (S (length bs)) bs s ltac:(lia) Hb) as (r & s' & E & Hr & Hs).
  exists s'. ustep E. rewrite (proj2 (Z.eqb_neq r (-1))) by lia. done.
Qed.

(** A stream without errors. *)
Definition clean (w : stream) : Prop := solid w /\ s_err w = false.

Lemma read_all_loop_run fd fuel : forall n s, (n < fuel)%nat -> clean (x_in s fd) ->
  exists r bs w, read_all_loop fuel fd n s = URet (r, bs) (set_x_in (upd (x_in s) fd w) s) /\ r <> -1 /\
    clean w /\ s_bytes (x_in s fd) = bs ++ s_bytes w /\ length bs = Nat.min n (length (s_bytes (x_in s fd))).
Proof.
  induction fuel as [|f IH]; intros n s Hf [Hs He]; [lia|]. cbn [read_all_loop].
  destruct (n =? 0)%nat eqn:E; [apply Nat.eqb_eq in E as ->|apply Nat.eqb_neq in E].
  { exists 0, [], (x_in s fd). rewrite upd_id by done. split_and!; [by destruct s|done|by split|done|done]. }
  unfold sys_read, ubind. pose proof (next_piece_spec n (x_in s fd) Hs ltac:(lia)) as Hp.
  destruct (next_piece n (x_in s fd)) as [[r bs] w]. destruct Hp as (Hw & He' & Hb & Hlen & H0 & H1).
  destruct (decide (bs = [])) as [->|Hne]; cbn [fst snd].
  - destruct (H0 eq_refl) as (Hb0 & -> & ->). rewrite He. simpl. exists 0, [], (x_in s fd). split_and!; try done.
    rewrite Hb0. simpl. lia.
  - rewrite (H1 Hne). assert (0 < length bs)%nat by (destruct bs; [done|simpl; lia]). rewrite (proj2 (Z.leb_gt _ 0)) by lia.
    set (s1 := set_x_in _ s). assert (x_in s1 fd = w) as Hw1 by (unfold s1; simpl; by rewrite upd_eq).
    destruct (IH (n - length bs)%nat s1) as (r' & bs' & w' & E' & Hr' & Hc' & Hb' & Hl'); [lia|rewrite Hw1; split; [done|congruence]|].
    rewrite E'. exists r', (bs ++ bs'), w'. rewrite Hw1 in *. split_and!; [|done|done| |].
    + unfold uret, s1. simpl. by rewrite upd_upd.
    + by rewrite Hb, Hb', app_assoc.
    + rewrite Hb, !length_app. rewrite Hl'. lia.
Qed.

(** read_all delivers the next [n] bytes, fewer only at the end. *)
Lemma read_all_run `{ErrText} msg fd n s : clean (x_in s fd) ->
  exists bs w, read_all msg fd n s = URet bs (set_x_in (upd (x_in s) fd w) s) /\
    clean w /\ s_bytes (x_in s fd) = bs ++ s_bytes w /\ length bs = Nat.min n (length (s_bytes (x_in s fd))).
Proof.
  intros Hc. unfold read_all. destruct (read_all_loop_run fd (S n) n s ltac:(lia) Hc) as (r & bs & w & E & Hr & H').
  exists bs, w. ustep E. rewrite (proj2 (Z.eqb_neq _ _)) by done. done.
Qed.

(** ** Numbers *)

Lemma c_digits_app n l k : Forall (fun c => 48 <= c <= 57) l -> c_digits n (l ++ k) = c_digits (c_digits n l) k.
Proof.
  intros Hl. revert n. induction Hl as [|d l Hd _ IH]; intros n; simpl; [done|].
  rewrite !(proj2 (Z.leb_le _ _)) by lia. simpl. apply IH.
Qed.

Lemma c_digits_loop fuel : forall x, 0 <= x < 10 ^ Z.of_nat fuel -> c_digits 0 (reverse (digits_loop fuel 10 x)) = x.
Proof.
  induction fuel as [|f IH]; intros x Hx; [simpl in *; lia|]. cbn [digits_loop].
  rewrite Nat2Z.inj_succ, Z.pow_succ_r in Hx by lia. assert (0 <= x / 10 < 10 ^ Z.of_nat f) as Hq by (Z.div_mod_to_equations; lia).
  rewrite reverse_cons, c_digits_app by (apply Forall_reverse; destruct (_ =? 0); [done|apply digits_chars; lia]).
  assert (c_digits 0 (reverse (if x / 10 =? 0 then [] else digits_loop f 10 (x / 10))) = x / 10) as ->.
  { destruct (x / 10 =? 0) eqn:E; bool_to_prop; [by rewrite E|by apply IH]. }
  cbn [c_digits]. rewrite digit_range by (Z.div_mod_to_equations; lia).
  rewrite !(proj2 (Z.leb_le _ _)) by (Z.div_mod_to_equations; lia). simpl. Z.div_mod_to_equations. lia.
Qed.

Lemma digits_length fuel : forall k x, 0 <= x < 10 ^ Z.of_nat k -> (0 < k)%nat -> (length (digits_loop fuel 10 x) <= k)%nat.
Proof.
  induction fuel as [|f IH]; intros k x Hx Hk; [simpl; lia|]. cbn [digits_loop length]. destruct (x / 10 =? 0) eqn:E; bool_to_prop; [simpl; lia|].
  destruct k as [|k]; [lia|]. rewrite Nat2Z.inj_succ, Z.pow_succ_r in Hx by lia.
  assert (0 < k)%nat by (destruct k; [|lia]; simpl in Hx; exfalso; apply E, Z.div_small; lia).
  assert (length (digits_loop f 10 (x / 10)) <= k)%nat by (apply IH; [Z.div_mod_to_equations; lia|done]). lia.
Qed.

(** A number that fits an int survives sprintf and atoi, and its text is short. *)
Lemma c_atoi_decimal n : -2147483648 <= n <= 2147483647 -> c_atoi (c_decimal n) = Some n /\ (length (c_decimal n) < 12)%nat.
Proof.
  assert (forall x, 0 <= x <= 2147483648 ->
    (exists d l, decimal x = d :: l /\ 48 <= d <= 57) /\ c_digits 0 (decimal x) = x /\ (length (decimal x) <= 10)%nat) as Hd.
  { intros x Hx. unfold decimal. split_and!.
    - pose proof (digits_chars 32 x ltac:(lia)) as Hc. apply Forall_reverse in Hc.
      destruct (reverse (digits_loop 32 10 x)) as [|d l] eqn:E; [|apply Forall_cons in Hc as [? _]; by exists d, l].
      apply (f_equal length) in E. by rewrite length_reverse in E.
    - apply c_digits_loop. assert (2147483648 < 10 ^ Z.of_nat 32) by done. lia.
    - rewrite length_reverse. apply digits_length; [|lia]. assert (2147483648 < 10 ^ Z.of_nat 10) by done. lia. }
  intros Hn. unfold c_decimal. destruct (n <? 0) eqn:E; bool_to_prop.
  - destruct (Hd (- n) ltac:(lia)) as (_ & Hv & Hl). split; [|simpl; lia]. unfold c_atoi. simpl. rewrite Hv, Z.opp_involutive.
    by rewrite !(proj2 (Z.leb_le _ _)) by lia.
  - destruct (Hd n ltac:(lia)) as ((d & l & Ed & Hr) & Hv & Hl). split; [|lia]. unfold c_atoi.
    assert (c_skipspace (decimal n) = decimal n) as Hs.
    { rewrite Ed. simpl. unfold c_isspace. rewrite (proj2 (Z.eqb_neq d 32)), (proj2 (Z.leb_gt d 13)) by lia. by rewrite andb_false_r. }
    rewrite Hs, Hv. assert (ch (decimal n) = d) as -> by (by rewrite Ed). rewrite (proj2 (Z.eqb_neq d 43)), (proj2 (Z.eqb_neq d 45)) by lia.
    by rewrite !(proj2 (Z.leb_le _ _)) by lia.
Qed.
