(* ===== verification/MergeFiles.v ===== *)
(** * merge_files (src/syscalls/merge_files.c)

    Merges up to sixteen files line by line, with buffers of a given size.  The options
    come from getopt, which is not part of the repository: [getopt_result] is what its calls
    return before the -1, and the operands that remain.  Memory is assumed to be granted. *)
From Stdlib Require Import String.
From S2P Require Import Prelude User Posix.

Inductive indicator := OK | READ_ENDING | READ_ENDED.
#[global] Instance indicator_eq_dec : EqDecision indicator.
Proof. solve_decision. Defined.

Definition NEW_LINE : Z := 10.
Definition EOF : Z := -1.
Definition MIN_BUFSIZE : Z := 1.
Definition DEFAULT_BUFSIZE : Z := 1024.
Definition MAX_BUFSIZE : Z := 134217728.
Definition MAX_INPUT_FILES : Z := 16.
Definition MIN_INPUT_FILES : Z := 1.

Record configuration := mkConf {
  cf_bufsize : Z;
  cf_output : option (list Z);      (* None: the standard output *)
  cf_inputs : list (list Z);
}.

Record file := mkFile {
  f_fd : Z;
  f_bufsize : nat;
  f_buffer_offset : nat;
  f_available : nat;
  f_buffer : list Z;
  f_name : list Z;
  f_status : indicator;
}.

Definition set_f_status (v : indicator) (f : file) :=
  mkFile (f_fd f) (f_bufsize f) (f_buffer_offset f) (f_available f) (f_buffer f) (f_name f) v.
Definition set_f_window (off avail : nat) (f : file) :=
  mkFile (f_fd f) (f_bufsize f) off avail (f_buffer f) (f_name f) (f_status f).
Definition set_f_buffer (v : list Z) (f : file) :=
  mkFile (f_fd f) (f_bufsize f) (f_buffer_offset f) (f_available f) v (f_name f) (f_status f).

Section merge.
Context `{ErrText}.

Definition ERR_READ : list Z := str "Error. Ha fallado la llamada read()".
Definition ERR_WRITE : list Z := str "Error. Ha fallado la llamada write()".

(** ** Options *)

(** What getopt returns: the option character with its argument; the operands. *)
Record getopt_result := mkGetopt { go_opts : list (Z * list Z); go_rest : list (list Z) }.

Definition USE_GUIDE (argv0 : list Z) : list Z :=
  str "Uso: " ++ argv0 ++ str " [-t BUFSIZE] [-o FILEOUT] FILEIN1 [FILEIN2 ... FILEINn]" ++ [10].
Definition MORE_INFO : list Z :=
  str "No admite lectura de la entrada estandar." ++ [10] ++
  str "-t BUFSIZE" ++ [9] ++ str "Tamaño de buffer donde 1 <= BUFSIZE <= 128MB" ++ [10] ++
  str "-o FILEOUT" ++ [9] ++ str "Usa FILEOUT en lugar de la salida estandar" ++ [10].
Definition usage (fd : Z) (argv0 : list Z) : U px unit := fprint fd (USE_GUIDE argv0) ;; fprint fd MORE_INFO.

Fixpoint parse_options (argv0 : list Z) (opts : list (Z * list Z)) (c : configuration) : U px configuration :=
  match opts with
  | [] => uret c
  | (o, arg) :: opts' =>
    if o =? 116 then
      match c_atoi arg with
      | None => ufault
      | Some n =>
        if (n <? MIN_BUFSIZE) || (n >? MAX_BUFSIZE) then
          fprint STDERR_FILENO (str "Error: Tamaño de buffer incorrecto." ++ [10]) ;;
          usage STDERR_FILENO argv0 ;; exit EXIT_FAILURE
        else parse_options argv0 opts' (mkConf n (cf_output c) (cf_inputs c))
      end
    else if o =? 111 then parse_options argv0 opts' (mkConf (cf_bufsize c) (Some arg) (cf_inputs c))
    else if o =? 104 then usage STDOUT_FILENO argv0 ;; exit EXIT_SUCCESS
    else usage STDERR_FILENO argv0 ;; exit EXIT_FAILURE
  end.

(** [readable], [exists_] and [writable] are the answers of access. *)
Definition validate_configuration_files (readable exists_ writable : list Z -> bool) (c : configuration) : U px configuration :=
  (match cf_output c with
   | Some f =>
     if exists_ f && negb (writable f) then
       fprint STDERR_FILENO (str "Error: El fichero de salida " ++ f ++ str " no ha podido ser accedido." ++ [10]) ;;
       fail (str "Ha fallado la llamada access()")
     else uret tt
   | None => uret tt
   end) ;;
  uforeach (cf_inputs c) (fun f =>
    if readable f then uret tt else
    fprint STDERR_FILENO (str "Aviso: No se puede abrir '" ++ f ++ str "': " ++ errtext ++ [10])) ;;
  let good := filter (fun f => readable f = true) (cf_inputs c) in
  if (length good =? 0)%nat then
    fprint STDERR_FILENO (str "Error: No es posible acceder a ninguno de los ficheros de entrada especificados." ++ [10]) ;;
    exit EXIT_FAILURE
  else uret (mkConf (cf_bufsize c) (cf_output c) good).

Definition init_configuration (readable exists_ writable : list Z -> bool) (argv0 : list Z) (g : getopt_result) : U px configuration :=
  do c <- parse_options argv0 (go_opts g) (mkConf DEFAULT_BUFSIZE None []);
  let n := Z.of_nat (length (go_rest g)) in
  if n <? MIN_INPUT_FILES then
    fprint STDERR_FILENO (str "Error: No hay ficheros de entrada." ++ [10]) ;; usage STDERR_FILENO argv0 ;; exit EXIT_FAILURE
  else if n >? MAX_INPUT_FILES then
    fprint STDERR_FILENO (str "Error: Demasiados ficheros de entrada. Máximo 16 ficheros." ++ [10]) ;;
    usage STDERR_FILENO argv0 ;; exit EXIT_FAILURE
  else validate_configuration_files readable exists_ writable (mkConf (cf_bufsize c) (cf_output c) (go_rest g)).

(** _init_file, with the descriptor and the name the caller stores. *)
Definition init_file (fd : Z) (name : list Z) (bufsize : nat) : file :=
  mkFile fd bufsize 0 0 (replicate bufsize 0) name OK.

(** ** Opening and closing *)

Definition CANT_OPEN (name : list Z) : list Z := str "Error. No es posible abrir el fichero " ++ name ++ str ". Abortando..." ++ [10].
Definition CANT_CLOSE (name : list Z) : list Z := str "Error. No es posible cerrar el fichero " ++ name ++ str ". Abortando..." ++ [10].
Definition ERR_OPEN : list Z := str "Ha fallado la llamada open()".
Definition ERR_CLOSE : list Z := str "Ha fallado la llamada close()".
Definition STDOUT_STR : list Z := str "stdout".

Definition init_output_file (c : configuration) : U px file :=
  match cf_output c with
  | Some name =>
    do fd <- sys_open_write name;
    if fd =? -1 then fprint STDERR_FILENO (CANT_OPEN name) ;; fail ERR_OPEN
    else uret (init_file fd name (Z.to_nat (cf_bufsize c)))
  | None => uret (init_file STDOUT_FILENO STDOUT_STR (Z.to_nat (cf_bufsize c)))
  end.

Fixpoint init_input_files (names : list (list Z)) (bufsize : nat) : U px (list file) :=
  match names with
  | [] => uret []
  | name :: names' =>
    do fd <- sys_open_read name;
    if fd =? -1 then fprint STDERR_FILENO (CANT_OPEN name) ;; fail ERR_OPEN
    else do fs <- init_input_files names' bufsize; uret (init_file fd name bufsize :: fs)
  end.

Definition free_file (f : file) : U px unit :=
  do r <- sys_close (f_fd f);
  if r =? -1 then fprint STDERR_FILENO (CANT_CLOSE (f_name f)) ;; fail ERR_CLOSE else uret tt.
Definition free_files (fs : list file) : U px unit := uforeach fs free_file.

(** ** Buffered input *)

Definition read_char (f : file) : U px (Z * file) :=
  if decide (f_status f = READ_ENDED) then uret (EOF, f) else
  do f <- (if decide (f_status f = OK /\ (f_available f <= 0)%nat) then
             do bs <- read_all ERR_READ (f_fd f) (f_bufsize f);
             let f := set_f_buffer (bs ++ drop (length bs) (f_buffer f)) (set_f_window 0 (length bs) f) in
             uret (if (length bs <? f_bufsize f)%nat then set_f_status READ_ENDING f else f)
           else uret f);
  if decide (f_status f = READ_ENDING /\ (f_available f <= 0)%nat) then uret (EOF, set_f_status READ_ENDED f) else
  let next_character := nth (f_buffer_offset f) (f_buffer f) 0 in
  uret (next_character, set_f_window (S (f_buffer_offset f)) (f_available f - 1) f).

(** ** Buffered output *)

Definition flush_file (f : file) : U px file :=
  write_all ERR_WRITE (f_fd f) (take (f_available f) (f_buffer f)) ;;
  uret (set_f_window 0 0 f).

Definition write_char (f : file) (c : Z) : U px file :=
  do f <- (if (f_bufsize f <=? f_available f)%nat then flush_file f else uret f);
  uret (set_f_buffer (<[f_buffer_offset f := c]> (f_buffer f))
         (set_f_window (S (f_buffer_offset f)) (S (f_available f)) f)).

(** ** Merging *)

(** The loop of copy_line; each turn reads a character or ends. *)
Fixpoint copy_line (fuel : nat) (source dest : file) : U px (file * file) :=
  match fuel with
  | O => uspin
  | S f =>
    do r <- read_char source;
    let source := r.2 in
    if decide (f_status source = READ_ENDED) then uret (source, dest) else
    do dest <- write_char dest r.1;
    if r.1 =? NEW_LINE then uret (source, dest) else copy_line f source dest
  end.

(** The bytes a file can still deliver; one more than their number bounds copy_line. *)
Definition copy_fuel (f : file) (s : px) : nat := S (f_available f + length (s_bytes (x_in s (f_fd f)))).

Fixpoint shuffle_loop (fuel : nat) (files : list file) (out : file) (remaining index : nat) : U px file :=
  match fuel with
  | O => uspin
  | S f =>
    if (remaining =? 0)%nat then uret out else
    match files !! index with
    | None => ufault
    | Some next_file =>
      let next_index := ((index + 1) mod length files)%nat in
      if decide (f_status next_file = READ_ENDED) then shuffle_loop f files out remaining next_index else
      do n <- ugets (copy_fuel next_file);
      do r <- copy_line n next_file out;
      let remaining := if decide (f_status r.1 = READ_ENDED) then (remaining - 1)%nat else remaining in
      shuffle_loop f (<[index := r.1]> files) r.2 remaining next_index
    end
  end.

Definition shuffle_lines (fuel : nat) (files : list file) (out : file) : U px file :=
  do out <- shuffle_loop fuel files out (length files) 0;
  flush_file out.

Definition merge_main (fuel : nat) (readable exists_ writable : list Z -> bool) (argv0 : list Z) (g : getopt_result) : U px unit :=
  do c <- init_configuration readable exists_ writable argv0 g;
  do out <- init_output_file c;
  do ins <- init_input_files (cf_inputs c) (Z.to_nat (cf_bufsize c));
  do out <- shuffle_lines fuel ins out;
  free_file out ;; free_files ins ;; exit EXIT_SUCCESS.
End merge.
