(* ===== verification/MergeSpec.v ===== *)
(** * What merge_files computes

    The buffers are transparent: reading characters delivers the bytes of the file and
    writing characters appends them to the output, whatever the sizes of the buffers, of
    the reads and of the writes.  The loop then is a round robin over the lines. *)
From Stdlib Require Import String.
From S2P Require Import Prelude User Posix MergeFiles.

(** ** Lines *)

(** The first line, with its newline, and what follows it; the last line has none. *)
Fixpoint split_line (r : list Z) : list Z * option (list Z) :=
  match r with
  | [] => ([], None)
  | c :: t => if c =? NEW_LINE then ([c], Some t) else (c :: (split_line t).1, (split_line t).2)
  end.

Fixpoint lines_from (acc r : list Z) : list (list Z) :=
  match r with
  | [] => [acc]
  | c :: t => if c =? NEW_LINE then (acc ++ [c]) :: lines_from [] t else lines_from (acc ++ [c]) t
  end.
Definition lines (r : list Z) : list (list Z) := lines_from [] r.

Lemma lines_split r :
  lines r = (split_line r).1 :: match (split_line r).2 with Some r' => lines r' | None => [] end.
Proof.
  assert (forall acc, lines_from acc r =
    (acc ++ (split_line r).1) :: match (split_line r).2 with Some r' => lines r' | None => [] end) as Hg; [|apply (Hg [])].
  induction r as [|c t IH]; intros acc; simpl; [by rewrite app_nil_r|].
  destruct (c =? NEW_LINE); simpl; [done|]. by rewrite IH, <- app_assoc.
Qed.

(** Round robin: the first lines of all files, then the second lines, and so on. *)
Fixpoint columns (n : nat) (ls : list (list (list Z))) : list Z :=
  match n with
  | O => []
  | S n' => concat (hd [] <$> ls) ++ columns n' (tail <$> ls)
  end.
Definition round_robin (files : list (list Z)) : list Z :=
  columns (max_list (length <$> (lines <$> files))) (lines <$> files).

(** The order in which the loop takes the lines. *)
Fixpoint rr (fuel idx : nat) (ls : list (list (list Z))) : option (list Z) :=
  match fuel with
  | O => None
  | S f =>
    if decide (Forall (fun l => l = []) ls) then Some [] else
    match ls !! idx with
    | None => None
    | Some [] => rr f ((idx + 1) mod length ls) ls
    | Some (l :: t) => (fun o => l ++ o) <$> rr f ((idx + 1) mod length ls) (<[idx := t]> ls)
    end
  end.

Lemma rr_done f idx ls : Forall (fun l => l = []) ls -> (0 < f)%nat -> rr f idx ls = Some [].
Proof. intros H Hf. destruct f; [lia|]. simpl. by rewrite decide_True. Qed.

Lemma all_empty_round ls : Forall (fun l : list (list Z) => l = []) ls -> concat (hd [] <$> ls) = [] /\ tail <$> ls = ls.
Proof. induction 1 as [|l ls -> _ [IH1 IH2]]; [done|]. rewrite !fmap_cons. cbn [hd concat app]. by rewrite IH1, IH2. Qed.

Lemma rr_round todo : forall pre f, todo <> [] -> (0 < f)%nat ->
  rr (length todo + f) (length pre) (pre ++ todo) =
    (fun o => concat (hd [] <$> todo) ++ o) <$> rr f 0 (pre ++ (tail <$> todo)).
Proof.
  induction todo as [|x todo IH]; intros pre f Hne Hf; [done|]. clear Hne. simpl length. cbn [Nat.add rr].
  destruct (decide (Forall (fun l => l = []) (pre ++ x :: todo))) as [Hall|Hall].
  { apply Forall_app in Hall as [Hd Ht]. destruct (all_empty_round _ Ht) as [-> ->].
    rewrite rr_done; [done|by apply Forall_app|done]. }
  rewrite list_lookup_middle by done.
  assert (length pre + 1 = length (pre ++ [tail x]))%nat as Hn by (rewrite length_app; simpl; lia).
  assert (forall y, pre ++ y :: todo = (pre ++ [y]) ++ todo) as Happ by (intros; by rewrite <- app_assoc).
  destruct todo as [|y todo].
  - assert ((length pre + 1) mod length (pre ++ [x]) = 0)%nat as ->.
    { rewrite length_app. simpl. apply Nat.Div0.mod_same. }
    destruct x as [|l t]; simpl.
    + by destruct (rr f 0 (pre ++ [[]])).
    + rewrite insert_app_r_alt, Nat.sub_diag by lia. simpl. by rewrite app_nil_r.
  - rewrite Nat.mod_small by (rewrite length_app; simpl; lia). rewrite Hn.
    destruct x as [|l t].
    + rewrite Happ. rewrite (IH (pre ++ [[]])) by done. simpl. by rewrite <- app_assoc.
    + rewrite insert_app_r_alt, Nat.sub_diag by lia. cbn [list_insert insert].
      change (<[0%nat:=t]> ((l :: t) :: y :: todo)) with (t :: y :: todo).
      rewrite Happ. change (tail (l :: t)) with t. rewrite (IH (pre ++ [t])) by done.
      rewrite <- app_assoc. rewrite (fmap_cons tail (l :: t)), (fmap_cons (hd []) (l :: t)). cbn [app concat hd tail].
      destruct (rr f 0 (pre ++ t :: (tail <$> y :: todo))); simpl; [|done]. by rewrite <- !app_assoc.
Qed.

Lemma rr_columns k : forall ls f, ls <> [] -> Forall (fun l => (length l <= k)%nat) ls -> (0 < f)%nat ->
  rr (k * length ls + f) 0 ls = Some (columns k ls).
Proof.
  induction k as [|k IH]; intros ls f Hne Hk Hf; simpl.
  - apply rr_done; [|done]. eapply Forall_impl; [exact Hk|]. intros l Hl. apply nil_length_inv. cbn beta in Hl. lia.
  - replace (length ls + k * length ls + f)%nat with (length ls + (k * length ls + f))%nat by lia.
    pose proof (rr_round ls [] (k * length ls + f) Hne ltac:(lia)) as E. cbn [app length] in E. rewrite E.
    rewrite <- (length_fmap tail ls) at 1. rewrite IH; [done|by destruct ls| |done].
    apply Forall_fmap. eapply Forall_impl; [exact Hk|]. intros [|] Hl; simpl in *; lia.
Qed.

(** ** Buffered input *)

Section spec.
Context `{ErrText}.
Implicit Types (f g : file) (s : px).

Definition rest f s : list Z :=
  take (f_available f) (drop (f_buffer_offset f) (f_buffer f)) ++
  (if decide (f_status f = OK) then s_bytes (x_in s (f_fd f)) else []).

Record in_ok f s : Prop := {
  io_size : (1 <= f_bufsize f)%nat;
  io_buf : length (f_buffer f) = f_bufsize f;
  io_window : (f_buffer_offset f + f_available f <= f_bufsize f)%nat;
  io_clean : clean (x_in s (f_fd f));
  io_live : f_status f <> READ_ENDED;
}.

(** Only the input of the file has advanced. *)
Definition advances f s s' : Prop := exists w, s' = set_x_in (upd (x_in s) (f_fd f) w) s.

Lemma advances_refl f s : advances f s s.
Proof. exists (x_in s (f_fd f)). rewrite upd_id by done. by destruct s. Qed.

(** A character out of a window that is not empty. *)
Lemma window_char f s : in_ok f s -> (0 < f_available f)%nat ->
  let f' := set_f_window (S (f_buffer_offset f)) (f_available f - 1) f in
  in_ok f' s /\ rest f s = nth (f_buffer_offset f) (f_buffer f) 0 :: rest f' s.
Proof.
  intros [H1 H2 H3 H4 H5] Ha. simpl. split; [split; simpl; try done; lia|].
  unfold rest. simpl. destruct (lookup_lt_is_Some_2 (f_buffer f) (f_buffer_offset f) ltac:(lia)) as [c Hc].
  rewrite (nth_lookup_Some _ _ _ _ Hc), (drop_S _ _ _ Hc).
  replace (f_available f) with (S (f_available f - 1)) at 1 by lia. done.
Qed.

(** Filling the buffer does not change what is left to read. *)
Lemma fill_run f s : in_ok f s -> exists f1 s1,
  (if decide (f_status f = OK /\ (f_available f <= 0)%nat) then
     do bs <- read_all ERR_READ (f_fd f) (f_bufsize f);
     let f := set_f_buffer (bs ++ drop (length bs) (f_buffer f)) (set_f_window 0 (length bs) f) in
     uret (if (length bs <? f_bufsize f)%nat then set_f_status READ_ENDING f else f)
   else uret f) s = URet f1 s1 /\ advances f s s1 /\ in_ok f1 s1 /\ f_fd f1 = f_fd f /\ rest f1 s1 = rest f s /\
  (f_available f1 = 0%nat -> f_status f1 = READ_ENDING).
Proof.
  intros [H1 H2 H3 H4 H5]. destruct (decide _) as [[Hok Ha]|Hno].
  2: { exists f, s. split_and!; try done; [apply advances_refl|]. intros Ha. destruct (f_status f); [|done|done].
       exfalso. apply Hno. split; [done|lia]. }
  destruct (read_all_run ERR_READ (f_fd f) (f_bufsize f) s H4) as (bs & w & E & Hc & Hb & Hl).
  ustep E. unfold uret. eexists _, _. split; [done|]. set (s1 := set_x_in _ s).
  assert (x_in s1 (f_fd f) = w) as Hw by (unfold s1; simpl; by rewrite upd_eq).
  assert (rest f s = bs ++ s_bytes w) as ->.
  { unfold rest. rewrite decide_True by done. replace (f_available f) with 0%nat by lia. done. }
  assert (take (length bs) (bs ++ drop (length bs) (f_buffer f)) = bs) as Htk by apply take_app_length.
  assert (length (bs ++ drop (length bs) (f_buffer f)) = f_bufsize f) as Hlen.
  { rewrite length_app, length_drop. lia. }
  cbn [f_bufsize set_f_buffer set_f_window].
  destruct (length bs <? f_bufsize f)%nat eqn:Et; [apply Nat.ltb_lt in Et|apply Nat.ltb_ge in Et].
  - assert (s_bytes w = []) as Hwe.
    { rewrite Hb, length_app in Hl. apply nil_length_inv. lia. }
    split_and!; try done; [by exists w|split; simpl; try done; try lia; by rewrite upd_eq|].
    unfold rest. simpl. rewrite drop_0, Htk, Hwe. done.
  - split_and!; try done; [by exists w|split; simpl; try done; try lia; by rewrite upd_eq| |simpl; lia].
    unfold rest. simpl. rewrite decide_True by done. by rewrite drop_0, Htk, upd_eq.
Qed.

Lemma read_char_run f s : in_ok f s -> exists c f' s', read_char f s = URet (c, f') s' /\
  advances f s s' /\ f_fd f' = f_fd f /\
  match rest f s with
  | [] => f_status f' = READ_ENDED
  | c' :: r => c = c' /\ in_ok f' s' /\ rest f' s' = r
  end.
Proof.
  intros Hin. unfold read_char. rewrite decide_False by apply Hin.
  destruct (fill_run f s Hin) as (f1 & s1 & E & Ha & Hin1 & Hfd & Hr & He). ustep E. rewrite <- Hr.
  destruct (decide (f_status f1 = READ_ENDING /\ (f_available f1 <= 0)%nat)) as [[Hs Hav]|Hno].
  - exists EOF, (set_f_status READ_ENDED f1), s1. split_and!; try done. unfold rest.
    rewrite decide_False by congruence. by replace (f_available f1) with 0%nat by lia.
  - assert (0 < f_available f1)%nat as Hpos.
    { destruct (f_available f1) eqn:E1; [|lia]. exfalso. apply Hno. split; [by apply He|lia]. }
    destruct (window_char f1 s1 Hin1 Hpos) as [Hin2 Hr2]. rewrite Hr2. eexists _, _, s1. split_and!; [done|done|done|done|done|done].
Qed.
(** ** Buffered output *)

Record out_ok g s : Prop := {
  oo_size : (1 <= f_bufsize g)%nat;
  oo_buf : length (f_buffer g) = f_bufsize g;
  oo_off : f_buffer_offset g = f_available g;
  oo_room : (f_available g <= f_bufsize g)%nat;
  oo_good : x_bad s (f_fd g) = false;
}.

(** Everything given to the file so far: written out or still in the buffer. *)
Definition sent g s : list Z := x_out s (f_fd g) ++ take (f_available g) (f_buffer g).

(** The input is untouched. *)
Definition keeps_in s s' : Prop := x_in s' = x_in s /\ x_bad s' = x_bad s.

Lemma flush_run g s : out_ok g s -> exists s', flush_file g s = URet (set_f_window 0 0 g) s' /\
  out_ok (set_f_window 0 0 g) s' /\ x_out s' (f_fd g) = sent g s /\ keeps_in s s'.
Proof.
  intros [H1 H2 H3 H4 H5]. unfold flush_file.
  destruct (write_all_run ERR_WRITE (f_fd g) (take (f_available g) (f_buffer g)) s H5) as (s' & E & Hi & Ho & Hb).
  ustep E. exists s'. split_and!; [done|split; simpl; try done; [lia|by rewrite Hb]| |done].
  rewrite Ho. unfold px_emit. simpl. by rewrite upd_eq.
Qed.

Lemma write_char_run g c s : out_ok g s -> exists g' s', write_char g c s = URet g' s' /\ out_ok g' s' /\
  f_fd g' = f_fd g /\ sent g' s' = sent g s ++ [c] /\ keeps_in s s'.
Proof.
  intros Hg. unfold write_char.
  assert (exists g1 s1, (if (f_bufsize g <=? f_available g)%nat then flush_file g else uret g) s = URet g1 s1 /\
    out_ok g1 s1 /\ (f_available g1 < f_bufsize g1)%nat /\ f_fd g1 = f_fd g /\ sent g1 s1 = sent g s /\ keeps_in s s1)
    as (g1 & s1 & E & [H1 H2 H3 H4 H5] & Hroom & Hfd & Hs & Hk).
  { destruct (f_bufsize g <=? f_available g)%nat eqn:E; [apply Nat.leb_le in E|apply Nat.leb_gt in E].
    - destruct (flush_run g s Hg) as (s1 & E1 & Ho1 & Hout & Hk). exists (set_f_window 0 0 g), s1. split_and!; try done.
      + simpl. destruct Hg. lia.
      + unfold sent at 1. simpl. by rewrite app_nil_r.
    - exists g, s. by split_and!. }
  ustep E. eexists _, s1. split; [done|]. rewrite <- Hs. split; [|split; [done|split; [|done]]].
  - split; simpl; try done; try lia; by rewrite ?length_insert.
  - unfold sent. simpl. rewrite <- app_assoc. f_equal. rewrite H3.
    rewrite (take_S_r _ _ c) by (apply list_lookup_insert_eq; lia). rewrite take_insert_ge by lia. done.
Qed.

(** ** Copying a line *)

Lemma in_ok_frame f s s' : in_ok f s -> x_in s' (f_fd f) = x_in s (f_fd f) -> in_ok f s'.
Proof. intros [H1 H2 H3 H4 H5] E. split; try done. by rewrite E. Qed.

Lemma rest_frame f s s' : x_in s' (f_fd f) = x_in s (f_fd f) -> rest f s' = rest f s.
Proof. intros E. unfold rest. by rewrite E. Qed.

Lemma copy_line_run fuel : forall f g s, in_ok f s -> out_ok g s -> (length (rest f s) < fuel)%nat ->
  exists f' g' s', copy_line fuel f g s = URet (f', g') s' /\ f_fd f' = f_fd f /\ f_fd g' = f_fd g /\
    out_ok g' s' /\ sent g' s' = sent g s ++ (split_line (rest f s)).1 /\
    (forall d, d <> f_fd f -> x_in s' d = x_in s d) /\
    match (split_line (rest f s)).2 with
    | Some r => in_ok f' s' /\ rest f' s' = r
    | None => f_status f' = READ_ENDED
    end.
Proof.
  induction fuel as [|fuel IH]; intros f g s Hf Hg Hfuel; [lia|]. cbn [copy_line].
  destruct (read_char_run f s Hf) as (c & f1 & s1 & E & [w Ha] & Hfd & Hm). ustep E. cbn [fst snd].
  assert (forall d, d <> f_fd f -> x_in s1 d = x_in s d) as Hfr.
  { intros d Hd. rewrite Ha. simpl. by rewrite upd_ne. }
  assert (x_bad s1 = x_bad s /\ x_out s1 = x_out s) as [Hb Ho] by by rewrite Ha.
  assert (out_ok g s1) as Hg1 by (destruct Hg; split; try done; by rewrite Hb).
  assert (sent g s1 = sent g s) as Hs1 by (unfold sent; by rewrite Ho).
  destruct (rest f s) as [|c' r].
  - rewrite decide_True by done. exists f1, g, s1. simpl. rewrite app_nil_r. by split_and!.
  - destruct Hm as (-> & Hf1 & Hr1). rewrite decide_False by apply Hf1.
    destruct (write_char_run g c' s1 Hg1) as (g2 & s2 & E2 & Hg2 & Hfd2 & Hs2 & Hi2 & Hb2). ustep E2.
    assert (in_ok f1 s2) as Hf2 by (apply (in_ok_frame f1 s1); [done|by rewrite Hi2]).
    assert (rest f1 s2 = r) as Hr2 by (rewrite (rest_frame f1 s1); [done|by rewrite Hi2]).
    cbn [split_line]. destruct (c' =? NEW_LINE).
    + exists f1, g2, s2. simpl. split_and!; try done; [by rewrite Hs2, Hs1|]. intros d Hd. rewrite Hi2. by apply Hfr.
    + destruct (IH f1 g2 s2 Hf2 Hg2) as (f3 & g3 & s3 & E3 & Hfd3 & Hgd3 & Hg3 & Hs3 & Hi3 & Hm3).
      { rewrite Hr2. simpl in Hfuel. lia. }
      rewrite Hr2 in Hs3, Hm3. exists f3, g3, s3. simpl. split_and!; try done; try congruence.
      * by rewrite Hs3, Hs2, Hs1, <- app_assoc.
      * intros d Hd. rewrite Hi3, Hi2 by congruence. by apply Hfr.
Qed.

Lemma copy_fuel_enough f s : in_ok f s -> (length (rest f s) < copy_fuel f s)%nat.
Proof.
  intros Hf. unfold rest, copy_fuel. rewrite length_app, length_take.
  destruct (decide _); simpl; lia.
Qed.

(** ** The loop *)

(** A file and the lines it has left. *)
Definition frel s f (l : list (list Z)) : Prop :=
  f_status f = READ_ENDED /\ l = [] \/ in_ok f s /\ l = lines (rest f s).

Lemma lines_nonempty r : lines r <> [].
Proof. by rewrite lines_split. Qed.

Lemma frel_ended s f l : frel s f l -> f_status f = READ_ENDED <-> l = [].
Proof.
  intros [[H1 H2]|[Hin ->]]; [tauto|]. split; [|by intros ?%lines_nonempty]. intros E. by destruct (io_live _ _ Hin).
Qed.

Lemma frel_frame s s' f l : frel s f l -> x_in s' (f_fd f) = x_in s (f_fd f) -> frel s' f l.
Proof.
  intros [H1|[Hin ->]] E; [by left|right]. split; [by eapply in_ok_frame|]. by rewrite (rest_frame f s s').
Qed.

Definition live (ls : list (list (list Z))) : nat := length (filter (fun l => l <> []) ls).

Lemma live_zero ls : live ls = 0%nat <-> Forall (fun l => l = []) ls.
Proof.
  unfold live. induction ls as [|l ls IH]; [done|]. rewrite filter_cons, Forall_cons, <- IH. case_decide as E; simpl.
  - split; [lia|tauto].
  - tauto.
Qed.

Lemma live_all ls : Forall (fun l => l <> []) ls -> live ls = length ls.
Proof. unfold live. induction 1; [done|]. rewrite filter_cons_True by done. simpl. congruence. Qed.

Lemma live_insert ls i l t : ls !! i = Some l -> l <> [] ->
  live (<[i := t]> ls) = if decide (t = []) then (live ls - 1)%nat else live ls.
Proof.
  intros Hi Hl. apply list_elem_of_split_length in Hi as (l1 & l2 & -> & ->). rewrite insert_app_r_alt, Nat.sub_diag by lia.
  simpl. unfold live. rewrite !filter_app, !filter_cons, !length_app, (decide_True (P := l <> [])) by done.
  destruct (decide (t <> [])); destruct (decide (t = [])); simpl; try lia; tauto.
Qed.
(** One line of one file. *)
Lemma shuffle_step files ls g s idx f l t : Forall2 (frel s) files ls -> NoDup (f_fd <$> files) -> out_ok g s ->
  files !! idx = Some f -> ls !! idx = Some (l :: t) ->
  exists f' g' s', copy_line (copy_fuel f s) f g s = URet (f', g') s' /\ f_fd g' = f_fd g /\ out_ok g' s' /\
    sent g' s' = sent g s ++ l /\ Forall2 (frel s') (<[idx := f']> files) (<[idx := t]> ls) /\
    f_fd <$> <[idx := f']> files = f_fd <$> files /\ (f_status f' = READ_ENDED <-> t = []).
Proof.
  intros Hrel Hnd Hg Hf Hl. pose proof (Forall2_lookup_lr _ _ _ _ _ _ Hrel Hf Hl) as [[_ ?]|[Hin Hlines]]; [done|].
  destruct (copy_line_run _ f g s Hin Hg (copy_fuel_enough f s Hin)) as (f' & g' & s' & E & Hfd & Hgd & Hg' & Hs & Hfr & Hm).
  rewrite lines_split in Hlines. injection Hlines as Hl1 Ht.
  assert (frel s' f' t) as Hf'.
  { rewrite Ht. destruct (split_line (rest f s)).2; [right|left]; [|done]. destruct Hm as [? <-]. by split. }
  exists f', g', s'. split_and!; try done.
  - by rewrite Hs, <- Hl1.
  - apply Forall2_same_length_lookup. split; [rewrite !length_insert; by eapply Forall2_length|].
    intros i f1 l1 Hi1 Hi2. destruct (decide (i = idx)) as [->|Hne].
    + rewrite list_lookup_insert_eq in Hi1 by (by eapply lookup_lt_Some).
      rewrite list_lookup_insert_eq in Hi2 by (by eapply lookup_lt_Some). by simplify_eq.
    + rewrite list_lookup_insert_ne in Hi1 by done. rewrite list_lookup_insert_ne in Hi2 by done. apply (frel_frame s).
      * by eapply Forall2_lookup_lr.
      * apply Hfr. intros Heq. apply Hne. eapply (NoDup_lookup _ _ _ _ Hnd); rewrite list_lookup_fmap; [by rewrite Hi1|].
        rewrite Hf. simpl. congruence.
  - rewrite list_fmap_insert. apply list_insert_id. rewrite list_lookup_fmap, Hf. simpl. congruence.
  - by eapply frel_ended.
Qed.

Lemma shuffle_loop_run fuel : forall files ls g s idx out, Forall2 (frel s) files ls -> NoDup (f_fd <$> files) ->
  out_ok g s -> rr fuel idx ls = Some out ->
  exists g' s', shuffle_loop fuel files g (live ls) idx s = URet g' s' /\ f_fd g' = f_fd g /\ out_ok g' s' /\
    sent g' s' = sent g s ++ out.
Proof.
  induction fuel as [|fuel IH]; intros files ls g s idx out Hrel Hnd Hg Hrr; [done|]. cbn [shuffle_loop rr] in *.
  destruct (decide (Forall (fun l => l = []) ls)) as [Hall|Hall].
  { injection Hrr as <-. apply live_zero in Hall. rewrite Hall. exists g, s. rewrite app_nil_r. by split_and!. }
  destruct (live ls =? 0)%nat eqn:E0; [by apply Nat.eqb_eq, live_zero in E0|].
  pose proof (Forall2_length _ _ _ Hrel) as Hlen. rewrite Hlen.
  destruct (ls !! idx) as [l|] eqn:El; [|done].
  destruct (lookup_lt_is_Some_2 files idx) as [f Ef]; [rewrite Hlen; by eapply lookup_lt_Some|]. rewrite Ef.
  pose proof (frel_ended _ _ _ (Forall2_lookup_lr _ _ _ _ _ _ Hrel Ef El)) as Hend. destruct l as [|l t].
  - rewrite decide_True by by apply Hend. by apply IH.
  - rewrite decide_False by (rewrite Hend; done). rewrite (ubind_Ret (ugets _) _ s _ s eq_refl).
    destruct (shuffle_step files ls g s idx f l t Hrel Hnd Hg Ef El) as (f' & g' & s' & E & Hgd & Hg' & Hs & Hrel' & Hfds & Hend').
    ustep E. cbn [fst snd]. destruct (rr fuel _ (<[idx := t]> ls)) as [o|] eqn:Er; [|done]. injection Hrr as <-.
    destruct (IH (<[idx := f']> files) (<[idx := t]> ls) g' s' ((idx + 1) mod length ls)%nat o) as (g2 & s2 & E2 & Hgd2 & Hg2 & Hs2);
      [done|by rewrite Hfds|done|done|].
    rewrite (live_insert ls idx (l :: t) t El) in E2 by done. exists g2, s2. split_and!; [|congruence|done|by rewrite Hs2, Hs, <- app_assoc].
    rewrite <- E2. f_equal. destruct (decide (f_status f' = READ_ENDED)), (decide (t = [])); tauto.
Qed.

(** The lines in turn, for every size of the buffers, every way in which the reads
    deliver the files and every way in which the writes accept the output. *)
Lemma shuffle_lines_round_robin files out s n :
  Forall (fun f => exists name size, (1 <= size)%nat /\ f = init_file (f_fd f) name size) files ->
  files <> [] -> NoDup (f_fd <$> files) -> Forall (fun f => clean (x_in s (f_fd f))) files ->
  out_ok out s -> f_available out = 0%nat ->
  let texts := (fun f => s_bytes (x_in s (f_fd f))) <$> files in
  (max_list (length <$> (lines <$> texts)) * length files < n)%nat ->
  exists g s', shuffle_lines n files out s = URet g s' /\ f_fd g = f_fd out /\
    x_out s' (f_fd out) = x_out s (f_fd out) ++ round_robin texts.
Proof.
  intros Hinit Hne Hnd Hcl Ho Ha texts Hn.
  assert (Forall2 (frel s) files (lines <$> texts)) as Hrel.
  { unfold texts. clear Hn texts Hne Hnd. induction files as [|f files IH]; [constructor|].
    apply Forall_cons in Hinit as [(name & size & Hsz & Hf) Hinit]. apply Forall_cons in Hcl as [Hc Hcl].
    constructor; [right|by apply IH]. rewrite Hf. split; [split; simpl; [done|by rewrite length_replicate|lia|done|done]|].
    unfold rest. simpl. done. }
  assert (live (lines <$> texts) = length files) as Hlive.
  { rewrite live_all; unfold texts; [by rewrite !length_fmap|]. apply Forall_fmap, Forall_true. intros r. apply lines_nonempty. }
  set (k := max_list (length <$> (lines <$> texts))) in *.
  assert (length (lines <$> texts) = length files) as Hlen by (unfold texts; by rewrite !length_fmap).
  assert (rr n 0 (lines <$> texts) = Some (columns k (lines <$> texts))) as Hrr.
  { replace n with (k * length (lines <$> texts) + (n - k * length files))%nat by (rewrite Hlen; lia). apply rr_columns; [|..|lia].
    - intros E. apply (f_equal length) in E. rewrite Hlen in E. by destruct files.
    - apply Forall_forall. intros l Hl. apply max_list_elem_of_le, list_elem_of_fmap. by exists l. }
  destruct (shuffle_loop_run n files (lines <$> texts) out s 0 _ Hrel Hnd Ho Hrr) as (g & s1 & E & Hfd & Hg & Hs).
  unfold shuffle_lines. rewrite Hlive in E. ustep E. destruct (flush_run g s1 Hg) as (s2 & E2 & _ & Hout & _).
  exists (set_f_window 0 0 g), s2. split_and!; [done|done|]. rewrite <- Hfd, Hout, Hs. unfold sent. rewrite Ha. simpl. by rewrite app_nil_r, Hfd.
Qed.

(** ** The configuration *)

Lemma parse_options_size argv0 opts : forall c s c' s', parse_options argv0 opts c s = URet c' s' ->
  1 <= cf_bufsize c -> 1 <= cf_bufsize c'.
Proof.
  induction opts as [|[o arg] opts IH]; intros c s c' s' E Hc; [by injection E as <- <-|]. cbn [parse_options] in E.
  destruct (o =? 116); [|destruct (o =? 111); [by apply IH in E|by destruct (o =? 104)]].
  destruct (c_atoi arg) as [n|]; [|done]. destruct ((n <? MIN_BUFSIZE) || (n >? MAX_BUFSIZE)) eqn:En; [done|].
  apply IH in E; [done|]. simpl. apply orb_false_iff in En as [En _]. apply Z.ltb_ge in En. done.
Qed.

Lemma validate_configuration_nonempty rd ex wr c s c' s' : validate_configuration_files rd ex wr c s = URet c' s' ->
  cf_bufsize c' = cf_bufsize c /\ cf_inputs c' <> [].
Proof.
  unfold validate_configuration_files. intros E. apply ubind_inv in E as ([] & s1 & _ & E). apply ubind_inv in E as ([] & s2 & _ & E).
  destruct (length _ =? 0)%nat eqn:E0; [done|]. injection E as <- _. split; [done|]. simpl. intros E1. by rewrite E1 in E0.
Qed.

Lemma init_configuration_ok rd ex wr argv0 o s c s' : init_configuration rd ex wr argv0 o s = URet c s' ->
  1 <= cf_bufsize c /\ cf_inputs c <> [].
Proof.
  unfold init_configuration. intros E. apply ubind_inv in E as (c1 & s1 & E1 & E). apply parse_options_size in E1; [|done].
  destruct (_ <? MIN_INPUT_FILES); [done|]. destruct (_ >? MAX_INPUT_FILES); [done|].
  apply validate_configuration_nonempty in E as [-> ?]. done.
Qed.

(** ** The descriptors *)

(** Only close depends on [x_cbad], and nothing changes it. *)
Definition keeps_close {A} (m : U px A) : Prop := forall s a s', m s = URet a s' -> x_cbad s' = x_cbad s.

Lemma kc_ret {A} (a : A) : keeps_close (uret a).
Proof. by intros s b s' [= _ <-]. Qed.
Lemma kc_spin {A} : keeps_close (@uspin px A).
Proof. done. Qed.
Lemma kc_fault {A} : keeps_close (@ufault px A).
Proof. done. Qed.
Lemma kc_fail {A} msg : keeps_close (@fail _ A msg).
Proof. done. Qed.
Lemma kc_bind {A B} (m : U px A) (k : A -> U px B) : keeps_close m -> (forall a, keeps_close (k a)) -> keeps_close (ubind m k).
Proof. intros Hm Hk s b s' (a & s1 & E1 & E2)%ubind_inv. rewrite (Hk _ _ _ _ E2). by eapply Hm. Qed.
Lemma kc_gets {A} (f : px -> A) : keeps_close (ugets f).
Proof. by intros s b s' [= _ <-]. Qed.
Lemma kc_read fd n : keeps_close (sys_read fd n).
Proof. intros s [r bs] s'. unfold sys_read. destruct (next_piece n (x_in s fd)) as [[? ?] ?]. by intros [= _ _ <-]. Qed.
Lemma kc_write fd bs : keeps_close (sys_write fd bs).
Proof. intros s r s'. unfold sys_write. destruct (x_bad s fd); by intros [= _ <-]. Qed.

Create HintDb kc.
Hint Resolve kc_ret kc_spin kc_fault kc_fail kc_gets kc_read kc_write : kc.
Ltac kc := repeat first [solve [auto with kc] | apply kc_bind; [|intros ?] | progress case_decide | case_match].

Lemma kc_read_all msg fd n : keeps_close (read_all msg fd n).
Proof.
  assert (forall fuel k, keeps_close (read_all_loop fuel fd k)) as Hl by (induction fuel; intros k; simpl; kc).
  unfold read_all. kc.
Qed.
Lemma kc_write_all msg fd bs : keeps_close (write_all msg fd bs).
Proof.
  assert (forall fuel l, keeps_close (write_all_loop fuel fd l)) as Hl by (induction fuel; intros l; simpl; kc).
  unfold write_all. kc.
Qed.
Hint Resolve kc_read_all kc_write_all : kc.

Lemma kc_flush f : keeps_close (flush_file f).
Proof. unfold flush_file. kc. Qed.
Lemma kc_read_char f : keeps_close (read_char f).
Proof. unfold read_char. kc. Qed.
Hint Resolve kc_flush kc_read_char : kc.

Lemma kc_copy_line fuel : forall f g, keeps_close (copy_line fuel f g).
Proof. induction fuel; intros f g; cbn [copy_line]; unfold write_char; kc. Qed.
Hint Resolve kc_copy_line : kc.

Lemma kc_shuffle_lines fuel files g : keeps_close (shuffle_lines fuel files g).
Proof.
  unfold shuffle_lines. apply kc_bind; [|auto with kc]. generalize (length files) as r, 0%nat as i. revert files g.
  induction fuel; intros files g r i; cbn [shuffle_loop]; kc.
Qed.

Lemma init_input_files_run size : forall names ws s, Forall2 (fun n w => x_files s n = Some w) names ws -> 0 <= x_fd s ->
  exists fs s', init_input_files names size s = URet fs s' /\
    Forall2 (fun f w => x_in s' (f_fd f) = w) fs ws /\ f_fd <$> fs = seqZ (x_fd s) (Z.of_nat (length names)) /\
    Forall (fun f => exists name, f = init_file (f_fd f) name size) fs /\
    (forall d, d < x_fd s -> x_in s' d = x_in s d) /\ x_out s' = x_out s /\ x_bad s' = x_bad s /\ x_cbad s' = x_cbad s.
Proof.
  induction names as [|n names IH]; intros ws s Hw Hfd; inversion Hw as [|? w ? ws' Hn Hws]; subst.
  { exists [], s. by split_and!. }
  cbn [init_input_files]. set (s1 := set_x_fd (x_fd s + 1) (set_x_in (upd (x_in s) (x_fd s) w) s)).
  assert (sys_open_read n s = URet (x_fd s) s1) as E by (unfold sys_open_read; by rewrite Hn).
  ustep E. rewrite (proj2 (Z.eqb_neq (x_fd s) (-1))) by lia.
  destruct (IH ws' s1 Hws) as (fs & s' & E' & H1 & H2 & H3 & H4 & H5 & H6 & H7); [simpl; lia|]. simpl in *.
  ustep E'. exists (init_file (x_fd s) n size :: fs), s'. split_and!; try done.
  - constructor; [|done]. simpl. rewrite H4 by lia. by rewrite upd_eq.
  - rewrite fmap_cons, H2. replace (Z.of_nat (S (length names))) with (Z.succ (Z.of_nat (length names))) by lia. rewrite (seqZ_cons (x_fd s)) by lia.
    by rewrite Z.pred_succ.
  - constructor; [by eexists|done].
  - intros d Hd. rewrite H4 by lia. by rewrite upd_ne by lia.
Qed.

Lemma free_files_run fs s : (forall d, x_cbad s d = false) -> free_files fs s = URet tt s.
Proof.
  intros Hc. induction fs as [|f fs IH]; [done|]. unfold free_files in *. simpl.
  unfold free_file, sys_close, ubind in *. rewrite Hc. simpl. exact IH.
Qed.

Lemma init_output_file_run c s0 ws : 1 <= cf_bufsize c ->
  Forall2 (fun name w => x_files s0 name = Some w /\ clean w) (cf_inputs c) ws ->
  (forall name, cf_output c = Some name -> x_wok s0 name = true /\ name ∉ cf_inputs c) ->
  2 < x_fd s0 -> (forall d, x_bad s0 d = false) ->
  exists g s1, init_output_file c s0 = URet g s1 /\ out_ok g s1 /\ f_available g = 0%nat /\
    0 <= f_fd g < x_fd s1 /\ x_bad s1 = x_bad s0 /\ x_cbad s1 = x_cbad s0 /\
    Forall2 (fun name w => x_files s1 name = Some w /\ clean w) (cf_inputs c) ws /\
    match cf_output c with
    | Some _ => f_fd g = x_fd s0 /\ x_out s1 (f_fd g) = []
    | None => f_fd g = STDOUT_FILENO /\ x_out s1 = x_out s0
    end.
Proof.
  intros Hsz Hws Hout Hfd Hbad. unfold init_output_file.
  assert (forall fd name s, x_bad s = x_bad s0 -> out_ok (init_file fd name (Z.to_nat (cf_bufsize c))) s) as Hok.
  { intros fd name s Hb. split; simpl; try lia; [by rewrite length_replicate|by rewrite Hb]. }
  destruct (cf_output c) as [name|].
  - destruct (Hout name eq_refl) as [Hw Hni]. unfold sys_open_write, ubind. rewrite Hw.
    rewrite (proj2 (Z.eqb_neq (x_fd s0) (-1))) by lia. eexists _, _. split; [done|]. simpl. split_and!; try done; try lia.
    + by apply Hok.
    + apply Forall2_same_length_lookup. split; [by eapply Forall2_length|]. intros i n w Hi Hj.
      destruct (Forall2_lookup_lr _ _ _ _ _ _ Hws Hi Hj) as [? ?].
      rewrite decide_False by (intros ->; by eapply Hni, list_elem_of_lookup_2). done.
    + by rewrite upd_eq.
  - eexists _, s0. split; [done|]. simpl. unfold STDOUT_FILENO. split_and!; try done; try lia. by apply Hok.
Qed.

(** C18. merge_files merges line by line.  Once the configuration is accepted (with the warnings of
    the files that cannot be read), for every buffer size, every way in which the reads deliver the
    files and every way in which the writes accept the output, the program exits with success and
    the output, the file given with -o or the standard output, is the first line of each input in
    order, then the second lines, and so on until all have ended.  [n] turns of the loop suffice. *)
Theorem merge_files_round_robin rd ex wr argv0 o s c s0 ws n :
  init_configuration rd ex wr argv0 o s = URet c s0 ->
  Forall2 (fun name w => x_files s0 name = Some w /\ clean w) (cf_inputs c) ws ->
  (forall name, cf_output c = Some name -> x_wok s0 name = true /\ name ∉ cf_inputs c) ->
  2 < x_fd s0 -> (forall d, x_bad s0 d = false) -> (forall d, x_cbad s0 d = false) ->
  (max_list (length <$> (lines <$> (s_bytes <$> ws))) * length ws < n)%nat ->
  exists s', merge_main n rd ex wr argv0 o s = UExit EXIT_SUCCESS s' /\
    match cf_output c with
    | Some _ => x_out s' (x_fd s0) = round_robin (s_bytes <$> ws)
    | None => x_out s' STDOUT_FILENO = x_out s0 STDOUT_FILENO ++ round_robin (s_bytes <$> ws)
    end.
Proof.
  intros Hc Hws Hout Hfd Hbad Hcb Hn. pose proof (init_configuration_ok _ _ _ _ _ _ _ _ Hc) as [Hsz Hne].
  unfold merge_main. ustep Hc. set (size := Z.to_nat (cf_bufsize c)).
  destruct (init_output_file_run c s0 ws Hsz Hws Hout Hfd Hbad) as (g & s1 & E1 & Hg & Hav & Hgfd & Hb1 & Hc1 & Hf1 & Ho1).
  ustep E1. fold size.
  destruct (init_input_files_run size (cf_inputs c) ws s1) as (fs & s2 & E2 & H1 & H2 & H3 & H4 & H5 & H6 & H7).
  { eapply Forall2_impl; [exact Hf1|]. by intros ? ? [? _]. }
  { lia. }
  ustep E2. pose proof (Forall2_length _ _ _ H1) as Hlen.
  assert ((fun f => s_bytes (x_in s2 (f_fd f))) <$> fs = s_bytes <$> ws) as Htx.
  { clear -H1. induction H1 as [|f w fs ws Hf _ IH]; [done|]. rewrite !fmap_cons, IH. congruence. }
  destruct (shuffle_lines_round_robin fs g s2 n) as (g' & s3 & E3 & Hg' & Hs3).
  { eapply Forall_impl; [exact H3|]. intros f [name Hf]. exists name, size. split; [lia|done]. }
  { intros ->. apply Hne. simpl in Hlen. apply Forall2_length in Hws. apply length_zero_iff_nil. lia. }
  { rewrite H2. apply NoDup_seqZ. }
  { apply Forall_forall. intros f Hf. apply list_elem_of_lookup_1 in Hf as [i Hi].
    destruct (Forall2_lookup_l _ _ _ _ _ H1 Hi) as (w & Hw & ->). eapply Forall2_lookup_r in Hws as (? & _ & _ & ?); done. }
  { destruct Hg. split; try done. by rewrite H6. }
  { done. }
  { rewrite Htx, Hlen. done. }
  ustep E3. rewrite Htx in Hs3. assert (forall d, x_cbad s3 d = false) as Hc3.
  { intros d. rewrite (kc_shuffle_lines _ _ _ _ _ _ E3), H7, Hc1. apply Hcb. }
  exists s3. split.
  - rewrite (ubind_Ret (free_file g') _ s3 tt s3) by (unfold free_file, sys_close, ubind; by rewrite Hc3).
    by rewrite (ubind_Ret _ _ s3 tt s3) by by apply free_files_run.
  - destruct (cf_output c); destruct Ho1 as [Ho1 Ho2]; rewrite Ho1 in *; rewrite Hs3, H5, Ho2; done.
Qed.
End spec.
