(* ===== verification/ExecLines.v ===== *)
(** * exec_lines (src/syscalls/exec_lines.c)

    Reads lines from the standard input and runs each as a command, at most a given number
    at a time.  The static variables of read_character and read_line are fields of the
    state [el].  A fork copies the memory, so the child works on its own line; what the parent
    does is recorded as a trace: the forks, each with the arguments the child hands to
    execvp (None when the child would leave the bounds of an array), and the waits.
    Memory is assumed to be granted. *)
From Stdlib Require Import String.
From S2P Require Import Prelude User Posix.

Definition NULL_CHAR : Z := 0.
Definition NEW_LINE : Z := 10.
Definition SPACE : Z := 32.
Definition EOF : Z := -1.
Definition LINE_SIZE : nat := 128.
Definition READ_SIZE : nat := 16.
Definition MIN_NUMPROC : Z := 1.
Definition DEFAULT_NUMPROC : Z := 1.
Definition MAX_NUMPROC : Z := 8.

Inductive event := Fork (argv : option (list (list Z))) | Wait.

Record el := mkEl {
  e_px : px;
  rc_buffer : list Z;         (* read_character: read_buffer *)
  rc_available : nat;         (* available_bytes *)
  rc_offset : nat;            (* char_offset *)
  rc_at_eof : bool;           (* at_eof *)
  rl_at_eof : bool;           (* read_line: at_eof *)
  e_nofork : list bool;       (* whether the next forks fail *)
  e_trace : list event;       (* oldest first *)
}.
Definition set_px (v : px) (e : el) :=
  mkEl v (rc_buffer e) (rc_available e) (rc_offset e) (rc_at_eof e) (rl_at_eof e) (e_nofork e) (e_trace e).
Definition set_rc (buf : list Z) (avail off : nat) (eof : bool) (e : el) :=
  mkEl (e_px e) buf avail off eof (rl_at_eof e) (e_nofork e) (e_trace e).
Definition set_rl_at_eof (v : bool) (e : el) :=
  mkEl (e_px e) (rc_buffer e) (rc_available e) (rc_offset e) (rc_at_eof e) v (e_nofork e) (e_trace e).
Definition set_nofork (v : list bool) (e : el) :=
  mkEl (e_px e) (rc_buffer e) (rc_available e) (rc_offset e) (rc_at_eof e) (rl_at_eof e) v (e_trace e).
Definition push (ev : event) (e : el) :=
  mkEl (e_px e) (rc_buffer e) (rc_available e) (rc_offset e) (rc_at_eof e) (rl_at_eof e) (e_nofork e) (e_trace e ++ [ev]).

(** The state when main starts. *)
Definition el_start (s : px) (nofork : list bool) : el := mkEl s (replicate READ_SIZE 0) 0 0 false false nofork [].

#[global] Instance el_px : HasPx el := {| get_px := e_px; put_px := set_px |}.

(** A byte stored in a char, which is signed; isgraph in the C locale. *)
Definition to_char (b : Z) : Z := if b >? 127 then b - 256 else b.
Definition isgraph (c : Z) : bool := (33 <=? c) && (c <=? 126).

Section exec_lines.
Context `{ErrText}.

Definition WARN_INVALID_NUMPROC : list Z :=
  str "Error: El número de procesos en ejecución tiene que estar entre 1 y 8." ++ [10].
Definition WARN_MAX_LINE_SIZE_EXCEEDED : list Z := str "Error: Tamaño de línea mayor que 128." ++ [10].
Definition ERR_FORK : list Z := str "Error. Ha fallado la llamada fork() para crear un proceso hijo".
Definition ERR_READ : list Z := str "Error. Ha fallado la llamada read() sobre la entrada estandar".
Definition USE_GUIDE (argv0 : list Z) : list Z := str "Uso: " ++ argv0 ++ str " [-p NUMPROC]" ++ [10].
Definition MORE_INFO : list Z :=
  str "Lee de la entrada estándar una secuencia de líneas conteniendo órdenes" ++ [10] ++
  str "para ser ejecutadas y lanza cada una de dichas órdenes en un proceso diferente." ++ [10] ++
  str "-p NUMPROC" ++ [9] ++ str "Número de procesos en ejecución de forma simultánea (1 <= NUMPROC <= 8)" ++ [10].
Definition usage (fd : Z) (argv0 : list Z) : U px unit := fprint fd (USE_GUIDE argv0) ;; fprint fd MORE_INFO.

(** The options are what getopt returns before the -1. *)
Fixpoint parse_args (argv0 : list Z) (opts : list (Z * list Z)) (numproc : Z) : U px Z :=
  match opts with
  | [] => uret numproc
  | (o, arg) :: opts' =>
    if o =? 112 then
      match c_atoi arg with
      | None => ufault
      | Some n =>
        if (n <? MIN_NUMPROC) || (n >? MAX_NUMPROC) then
          fprint STDERR_FILENO WARN_INVALID_NUMPROC ;; usage STDERR_FILENO argv0 ;; exit EXIT_FAILURE
        else parse_args argv0 opts' n
      end
    else if o =? 104 then usage STDOUT_FILENO argv0 ;; exit EXIT_SUCCESS
    else usage STDERR_FILENO argv0 ;; exit EXIT_FAILURE
  end.

(** ** Reading *)

Definition read_character : U el Z :=
  do e <- ugets id;
  (if negb (rc_at_eof e) && (rc_available e <=? 0)%nat then
     do bs <- lift (read_all ERR_READ STDIN_FILENO READ_SIZE);
     umodify (fun e => set_rc ((to_char <$> bs) ++ drop (length bs) (rc_buffer e)) (length bs) 0
                         (if (length bs <? READ_SIZE)%nat then true else rc_at_eof e) e)
   else uret tt) ;;
  do e <- ugets id;
  if rc_at_eof e && (rc_available e <=? 0)%nat then uret EOF else
  umodify (set_rc (rc_buffer e) (rc_available e - 1) (S (rc_offset e)) (rc_at_eof e)) ;;
  uret (nth (rc_offset e) (rc_buffer e) 0).

(** The do loop of read_line and what follows it; every turn fills one place of the line. *)
Fixpoint read_line_loop (fuel : nat) (buf : list Z) (bufsize line_offset : nat) (at_token : bool) (token_count : Z)
    : U el (nat * list Z * Z) :=
  match fuel with
  | O => uspin
  | S f =>
    do c <- read_character;
    let buf := <[line_offset := c]> buf in
    let g := isgraph c in
    let token_count := if g && negb at_token then token_count + 1 else token_count in
    let at_token := g in
    do buf <- (if negb g && (c =? EOF) then
                 umodify (set_rl_at_eof true) ;; uret (<[line_offset := NEW_LINE]> buf)
               else uret buf);
    let line_offset := S line_offset in
    let more := negb (c =? EOF) && negb (c =? NEW_LINE) in
    if more && (line_offset <? bufsize)%nat then read_line_loop f buf bufsize line_offset at_token token_count
    else if (bufsize <=? line_offset)%nat && more then
      lift (fprint STDERR_FILENO WARN_MAX_LINE_SIZE_EXCEEDED) ;; exit EXIT_FAILURE
    else uret (line_offset, buf, token_count)
  end.

Definition read_line (buf : list Z) (bufsize : nat) : U el (nat * list Z * Z) :=
  do at_eof <- ugets rl_at_eof;
  if at_eof then uret (0%nat, buf, 0) else read_line_loop (S bufsize) buf bufsize 0 false 0.

(** ** Arguments *)

(** The loop of build_argv over the [n] characters that remain; None: a store outside argv. *)
Fixpoint build_loop (n offset : nat) (buf : list Z) (argv : list (option nat)) (token_index : nat) (at_token : bool)
    : option (list Z * list (option nat)) :=
  match n with
  | O => Some (buf, argv)
  | S n' =>
    let c := nth offset buf 0 in
    if isgraph c && negb at_token then
      if (token_index <? length argv)%nat then
        build_loop n' (S offset) buf (<[token_index := Some offset]> argv) (S token_index) true
      else None
    else if (c =? SPACE) || (c =? NEW_LINE) then
      build_loop n' (S offset) (<[offset := NULL_CHAR]> buf) argv token_index false
    else build_loop n' (S offset) buf argv token_index at_token
  end.
Definition build_argv (buf : list Z) (line_length : nat) (token_count : Z) : option (list Z * list (option nat)) :=
  build_loop line_length 0 buf (replicate (Z.to_nat (token_count + 1)) None) 0 false.

(** A string in memory, up to its terminator; the strings of an array, up to a null pointer. *)
Fixpoint cstr (l : list Z) : option (list Z) :=
  match l with
  | [] => None
  | c :: l' => if c =? NULL_CHAR then Some [] else s ← cstr l'; Some (c :: s)
  end.
Fixpoint argv_strings (buf : list Z) (argv : list (option nat)) : option (list (list Z)) :=
  match argv with
  | [] => None
  | None :: _ => Some []
  | Some p :: argv' => s ← cstr (drop p buf); ss ← argv_strings buf argv'; Some (s :: ss)
  end.

(** What the child hands to execvp. *)
Definition child_argv (line : list Z) (line_length : nat) (token_count : Z) : option (list (list Z)) :=
  '(buf, argv) ← build_argv line line_length token_count; argv_strings buf argv.

(** ** Running *)

Definition fork (argv : option (list (list Z))) : U el Z := fun e =>
  if hd false (e_nofork e) then URet (-1) (set_nofork (tail (e_nofork e)) e)
  else URet 1 (push (Fork argv) (set_nofork (tail (e_nofork e)) e)).
Definition wait : U el unit := umodify (push Wait).

Fixpoint wait_all (process_count : nat) : U el unit :=
  match process_count with O => uret tt | S n => wait ;; wait_all n end.

(** Each turn of the while reads a line. *)
Fixpoint execute_loop (fuel num_process process_count : nat) (line : list Z) : U el nat :=
  match fuel with
  | O => uspin
  | S f =>
    do r <- read_line line LINE_SIZE;
    let '(line_length, line, token_count) := r in
    if (line_length =? 0)%nat then uret process_count else
    do process_count <- (if (num_process <=? process_count)%nat then wait ;; uret (process_count - 1)%nat
                         else uret process_count);
    if token_count >? 0 then
      do pid <- fork (child_argv line line_length token_count);
      if pid =? -1 then lift (fail ERR_FORK) else execute_loop f num_process (S process_count) line
    else execute_loop f num_process process_count line
  end.

Definition execute_lines (fuel num_process : nat) : U el unit :=
  do n <- execute_loop fuel num_process 0 (replicate LINE_SIZE 0);
  wait_all n.

Definition exec_lines_main (fuel : nat) (argv0 : list Z) (opts : list (Z * list Z)) : U el unit :=
  do numproc <- lift (parse_args argv0 opts DEFAULT_NUMPROC);
  execute_lines fuel (Z.to_nat numproc) ;; exit EXIT_SUCCESS.
End exec_lines.
