(* ===== verification/ExecSpec.v ===== *)
(** * What exec_lines runs

    A reference definition of the commands in a text (its lines, each split into words), and
    the theorem that exec_lines starts exactly these, in order and within the limit, for
    every way in which the input is delivered. *)
From S2P Require Import Prelude User Posix ExecLines.

(** ** The commands of a text *)

(** The lines of a text: it ends where a character equals EOF. *)
Fixpoint cmd_lines (t : list Z) : list (list Z) :=
  match t with
  | [] => [[]]
  | c :: t' =>
    if c =? EOF then [[]] else if c =? NEW_LINE then [] :: cmd_lines t' else
    match cmd_lines t' with l :: ls => (c :: l) :: ls | [] => [[c]] end
  end.

(** The pieces of a line between spaces. *)
Fixpoint pieces (l : list Z) : list (list Z) :=
  match l with
  | [] => [[]]
  | c :: l' =>
    if c =? SPACE then [] :: pieces l' else
    match pieces l' with w :: ws => (c :: w) :: ws | [] => [[c]] end
  end.

(** The word in a piece: from its first graphic character, up to a null character. *)
Fixpoint upto_nul (w : list Z) : list Z :=
  match w with c :: w' => if c =? 0 then [] else c :: upto_nul w' | [] => [] end.
Fixpoint word (w : list Z) : option (list Z) :=
  match w with [] => None | c :: w' => if isgraph c then Some (upto_nul w) else word w' end.
Definition words (l : list Z) : list (list Z) := omap word (pieces l).

Definition commands (t : list Z) : list (list (list Z)) := filter (fun ws => ws <> []) (words <$> cmd_lines t).

(** ** What a trace shows *)

Definition forked (tr : list event) : list (option (list (list Z))) :=
  omap (fun ev => match ev with Fork a => Some a | Wait => None end) tr.

(** The children at work after a trace; None when the parent waits for nobody or has more
    than [n] children at some point. *)
Definition bounded_step (n : nat) (k : option nat) (ev : event) : option nat :=
  k ← k; match ev with
         | Fork _ => if (k <? n)%nat then Some (S k) else None
         | Wait => match k with O => None | S k' => Some k' end
         end.
Definition running (n : nat) (tr : list event) : option nat := foldl (bounded_step n) (Some 0%nat) tr.

Lemma running_snoc n tr ev : running n (tr ++ [ev]) = bounded_step n (running n tr) ev.
Proof. unfold running. by rewrite foldl_app. Qed.

(** ** Tokens *)

Fixpoint count (at_token : bool) (l : list Z) : Z :=
  match l with
  | [] => 0
  | c :: l' => (if isgraph c && negb at_token then 1 else 0) + count (isgraph c) l'
  end.

Definition clear (c : Z) : Z := if (c =? SPACE) || (c =? NEW_LINE) then NULL_CHAR else c.

Fixpoint starts (at_token : bool) (off : nat) (l : list Z) : list nat :=
  match l with
  | [] => []
  | c :: l' =>
    if isgraph c && negb at_token then off :: starts true (S off) l'
    else if (c =? SPACE) || (c =? NEW_LINE) then starts false (S off) l' else starts at_token (S off) l'
  end.

Lemma isgraph_not_space c : isgraph c = true -> (c =? SPACE) || (c =? NEW_LINE) = false.
Proof. unfold isgraph, SPACE, NEW_LINE. intros (?%Z.leb_le & ?%Z.leb_le)%andb_true_iff. apply orb_false_iff. rewrite !Z.eqb_neq. lia. Qed.

Lemma count_nonneg l : forall b, 0 <= count b l.
Proof. induction l as [|c l IH]; intros b; simpl; [lia|]. specialize (IH (isgraph c)). case_match; lia. Qed.

(** build_argv never finds more tokens than read_line has counted. *)
Lemma starts_count l : forall b b' off, (b' = true -> b = true) -> (Z.of_nat (length (starts b off l)) <= count b' l).
Proof.
  induction l as [|c l IH]; intros b b' off Hb; simpl; [lia|]. destruct (isgraph c) eqn:Eg; simpl.
  - destruct b; simpl.
    + rewrite (isgraph_not_space c Eg). specialize (IH true true (S off)). destruct b'; simpl; lia.
    + assert (b' = false) as -> by (destruct b'; [by discriminate Hb|done]). simpl. specialize (IH true true (S off)). lia.
  - destruct (_ || _); [specialize (IH false false (S off))|specialize (IH b false (S off))]; lia.
Qed.

Lemma count_starts l : forall off, 0 < count false l -> starts false off l <> [].
Proof.
  induction l as [|c l IH]; intros off Hc; simpl in *; [lia|]. destruct (isgraph c); [done|].
  simpl in *. destruct (_ || _); apply IH; lia.
Qed.

Lemma insert_middle {A} (pre tl : list A) x y : <[length pre := y]> (pre ++ x :: tl) = (pre ++ [y]) ++ tl.
Proof. rewrite insert_app_r_alt, Nat.sub_diag by lia. simpl. by rewrite <- app_assoc. Qed.

Lemma build_loop_run l : forall off pre tl k done m b, off = length pre -> k = length done ->
  (length (starts b off l) <= m)%nat ->
  build_loop (length l) off (pre ++ l ++ tl) (done ++ replicate m None) k b =
  Some (pre ++ (clear <$> l) ++ tl, done ++ (Some <$> starts b off l) ++ replicate (m - length (starts b off l)) None).
Proof.
  induction l as [|c l IH]; intros off pre tl k done m b Ho Hk Hm; [simpl in *; by rewrite Nat.sub_0_r|].
  cbn [length build_loop starts fmap list_fmap app] in *.
  assert (nth off (pre ++ c :: l ++ tl) 0 = c) as Hn by (subst off; apply nth_middle). rewrite Hn.
  assert (S off = length (pre ++ [clear c])) as Hlen by (rewrite length_app; simpl; lia).
  assert (forall x, pre ++ x :: l ++ tl = (pre ++ [x]) ++ l ++ tl) as Hx by (intros; by rewrite <- app_assoc).
  destruct (isgraph c && negb b) eqn:Eg.
  - apply andb_true_iff in Eg as [Eg _]. assert (clear c = c) as Ec by (unfold clear; by rewrite (isgraph_not_space c Eg)).
    destruct m as [|m]; simpl in Hm; [lia|]. rewrite (proj2 (Nat.ltb_lt _ _)) by (rewrite length_app, length_replicate; lia).
    replace (<[k := Some off]> (done ++ replicate (S m) None)) with ((done ++ [Some off]) ++ replicate m None)
      by (subst k; by rewrite <- insert_middle with (x := None)).
    rewrite Hx, <- Ec at 1.
    rewrite (IH (S off) _ tl (S k) (done ++ [Some off]) m true) by (rewrite ?length_app; simpl; lia || done).
    rewrite Ec, <- !app_assoc. simpl. done.
  - destruct (_ || _) eqn:Es.
    + assert (clear c = NULL_CHAR) as Ec by (unfold clear; by rewrite Es).
      replace (<[off := NULL_CHAR]> (pre ++ c :: l ++ tl)) with ((pre ++ [clear c]) ++ l ++ tl)
        by (rewrite Ec, Ho; by rewrite <- insert_middle with (x := c)).
      rewrite (IH (S off) _ tl k done m false) by done. rewrite <- !app_assoc. done.
    + assert (clear c = c) as Ec by (unfold clear; by rewrite Es).
      rewrite Hx, <- Ec at 1. rewrite (IH (S off) _ tl k done m b) by done. rewrite <- !app_assoc. by rewrite Ec.
Qed.

(** ** Words *)

(** The string at a token, when the line is cleared. *)
Fixpoint toks (b : bool) (l : list Z) : list (option (list Z)) :=
  match l with
  | [] => []
  | c :: l' =>
    if isgraph c && negb b then cstr (clear <$> l) :: toks true l'
    else if (c =? SPACE) || (c =? NEW_LINE) then toks false l' else toks b l'
  end.

Lemma cstr_app l tl s : cstr l = Some s -> cstr (l ++ tl) = Some s.
Proof.
  revert s. induction l as [|c l IH]; intros s; simpl; [done|]. destruct (c =? NULL_CHAR); [done|].
  destruct (cstr l) as [s'|]; [|done]. by rewrite (IH s').
Qed.

Lemma cstr_piece l w ws : (forall c, c ∈ l -> c <> NEW_LINE) -> pieces l = w :: ws ->
  cstr (clear <$> (l ++ [NEW_LINE])) = Some (upto_nul w).
Proof.
  revert w ws. induction l as [|c l IH]; intros w ws Hl E; simpl in E; [by injection E as <- <-|].
  rewrite <- app_comm_cons, fmap_cons. cbn [cstr]. destruct (pieces l) as [|w' ws'] eqn:El.
  { destruct l as [|d l]; simpl in El; [done|]. destruct (d =? SPACE); [done|by destruct (pieces l)]. }
  unfold clear at 1 2. rewrite (proj2 (Z.eqb_neq c NEW_LINE)) by (apply Hl; left). rewrite orb_false_r.
  destruct (c =? SPACE) eqn:Es; [by injection E as <- <-|]. injection E as <- <-. cbn [upto_nul]. unfold NULL_CHAR.
  destruct (c =? 0); [done|]. rewrite (IH w' ws') by (set_solver || done). done.
Qed.

Lemma pieces_cons l : exists w ws, pieces l = w :: ws.
Proof. destruct l as [|c l]; simpl; [by eexists _, _|]. destruct (c =? SPACE); [by eexists _, _|]. destruct (pieces l); by eexists _, _. Qed.

Lemma isgraph_NEW_LINE : isgraph NEW_LINE = false.
Proof. done. Qed.

Lemma toks_words l : (forall c, c ∈ l -> c <> NEW_LINE) ->
  toks false (l ++ [NEW_LINE]) = Some <$> words l /\ toks true (l ++ [NEW_LINE]) = Some <$> omap word (tail (pieces l)).
Proof.
  induction l as [|c l IH]; intros Hl; [done|]. destruct IH as [IHf IHt]; [set_solver|].
  destruct (pieces_cons l) as (w & ws & Ep). unfold words in *. rewrite Ep in IHf, IHt. simpl in *. rewrite Ep.
  pose proof (cstr_piece (c :: l)) as Hc.
  rewrite (proj2 (Z.eqb_neq c NEW_LINE)) by (apply Hl; left). rewrite orb_false_r.
  destruct (c =? SPACE) eqn:Es.
  { apply Z.eqb_eq in Es as ->. simpl. by split. }
  destruct (isgraph c) eqn:Eg; simpl; rewrite ?Eg; split; try done.
  specialize (Hc (c :: w) ws Hl). simpl in Hc. rewrite Es, Ep in Hc. by rewrite IHt, Hc.
Qed.

Lemma argv_strings_starts l : forall b off pre tl m ss, off = length pre -> (0 < m)%nat -> toks b l = Some <$> ss ->
  argv_strings (pre ++ (clear <$> l) ++ tl) ((Some <$> starts b off l) ++ replicate m None) = Some ss.
Proof.
  induction l as [|c l IH]; intros b off pre tl m ss Ho Hm Hs; cbn [toks starts] in *.
  { apply symmetry, fmap_nil_inv in Hs as ->. by destruct m; [lia|]. }
  assert (pre ++ (clear <$> c :: l) ++ tl = (pre ++ [clear c]) ++ (clear <$> l) ++ tl) as Hx by (by rewrite <- app_assoc).
  assert (S off = length (pre ++ [clear c])) as Hlen by (rewrite length_app; simpl; lia).
  destruct (isgraph c && negb b).
  - destruct ss as [|s ss]; [done|]. rewrite (fmap_cons Some) in Hs. apply (inj2 cons) in Hs as [H1 H2]. rewrite (fmap_cons Some), <- app_comm_cons. cbn [argv_strings].
    assert (drop off (pre ++ (clear <$> c :: l) ++ tl) = (clear <$> c :: l) ++ tl) as Hd by (subst off; apply drop_app_length).
    rewrite Hd, (cstr_app (clear <$> c :: l) tl s H1), Hx. simpl. by rewrite (IH true (S off) _ tl m ss).
  - rewrite Hx. destruct (_ || _); by apply IH.
Qed.

Lemma length_toks l : forall b off, length (toks b l) = length (starts b off l).
Proof. induction l as [|c l IH]; intros b off; simpl; [done|]. repeat case_match; simpl; auto. Qed.

Lemma count_newline l : forall b, count b (l ++ [NEW_LINE]) = count b l.
Proof. induction l as [|c l IH]; intros b; simpl; [done|]. by rewrite IH. Qed.

Lemma words_starts l off : (forall c, c ∈ l -> c <> NEW_LINE) -> length (words l) = length (starts false off (l ++ [NEW_LINE])).
Proof. intros Hl. rewrite <- (length_toks _ false off). destruct (toks_words l Hl) as [-> _]. by rewrite length_fmap. Qed.

(** read_line reports tokens exactly for the lines that have words. *)
Lemma count_words l : (forall c, c ∈ l -> c <> NEW_LINE) -> 0 < count false l <-> words l <> [].
Proof.
  intros Hl. pose proof (words_starts l 0 Hl) as Hw. split; intros Hc.
  - intros E. rewrite E in Hw. apply (count_starts (l ++ [NEW_LINE]) 0); [by rewrite count_newline|].
    by apply symmetry, nil_length_inv in Hw.
  - pose proof (starts_count (l ++ [NEW_LINE]) false false 0 ltac:(done)) as Hs. rewrite count_newline, <- Hw in Hs.
    destruct (words l); [done|simpl in Hs; lia].
Qed.

(** The child hands the words of its line to execvp. *)
Lemma child_argv_words l tl : (forall c, c ∈ l -> c <> NEW_LINE) ->
  child_argv (l ++ NEW_LINE :: tl) (S (length l)) (count false l) = Some (words l).
Proof.
  intros Hl. destruct (toks_words l Hl) as [Ht _].
  pose proof (starts_count (l ++ [NEW_LINE]) false false 0 ltac:(done)) as Hs. rewrite count_newline in Hs.
  unfold child_argv, build_argv. replace (l ++ NEW_LINE :: tl) with ([] ++ (l ++ [NEW_LINE]) ++ tl) by (by rewrite <- app_assoc).
  replace (S (length l)) with (length (l ++ [NEW_LINE])) by (rewrite length_app; simpl; lia).
  pose proof (build_loop_run (l ++ [NEW_LINE]) 0 [] tl 0 [] (Z.to_nat (count false l + 1)) false eq_refl eq_refl ltac:(lia)) as E.
  rewrite app_nil_l in *. rewrite (app_nil_l (replicate _ _)) in E. rewrite E. simpl. apply (argv_strings_starts _ false 0 []); [done|lia|done].
Qed.

(** ** Reading *)

Section spec.
Context `{ErrText}.

Record rc_ok (e : el) : Prop := {
  ro_buf : length (rc_buffer e) = READ_SIZE;
  ro_window : (rc_offset e + rc_available e <= READ_SIZE)%nat;
  ro_clean : clean (x_in (e_px e) STDIN_FILENO);
}.

(** The characters still to come. *)
Definition rest (e : el) : list Z :=
  take (rc_available e) (drop (rc_offset e) (rc_buffer e)) ++
  (if rc_at_eof e then [] else to_char <$> s_bytes (x_in (e_px e) STDIN_FILENO)).

(** Only the reading side has changed. *)
Definition same_run (e e' : el) : Prop :=
  rl_at_eof e' = rl_at_eof e /\ e_nofork e' = e_nofork e /\ e_trace e' = e_trace e.

Lemma rc_fill_run e : rc_ok e -> exists e1,
  (if negb (rc_at_eof e) && (rc_available e <=? 0)%nat then
     do bs <- lift (read_all ERR_READ STDIN_FILENO READ_SIZE);
     umodify (fun e => set_rc ((to_char <$> bs) ++ drop (length bs) (rc_buffer e)) (length bs) 0
                         (if (length bs <? READ_SIZE)%nat then true else rc_at_eof e) e)
   else uret tt) e = URet tt e1 /\ rc_ok e1 /\ rest e1 = rest e /\ same_run e e1 /\
  (rc_available e1 = 0%nat -> rc_at_eof e1 = true).
Proof.
  intros [Hb Hw Hc]. destruct (rc_at_eof e) eqn:Ee; simpl; [exists e; by split_and!|].
  destruct (rc_available e <=? 0)%nat eqn:Ea; [apply Nat.leb_le in Ea|apply Nat.leb_gt in Ea; exists e; split_and!; [done..|lia]].
  destruct (read_all_run ERR_READ STDIN_FILENO READ_SIZE (e_px e) Hc) as (bs & w & E & Hcw & Hbs & Hlen).
  eexists. split; [unfold ubind, lift; cbn [get_px el_px]; rewrite E; done|].
  assert (length bs <= READ_SIZE)%nat as Hle by lia. split_and!; try done.
  - split; simpl; [rewrite length_app, length_fmap, length_drop; lia|lia|by rewrite upd_eq].
  - unfold rest. simpl. rewrite Ee. replace (rc_available e) with 0%nat by lia. simpl. rewrite upd_eq.
    rewrite drop_0, take_app_length' by (by rewrite length_fmap). rewrite Hbs, fmap_app.
    destruct (length bs <? READ_SIZE)%nat eqn:El; [|done]. apply Nat.ltb_lt in El. rewrite Hbs, length_app in Hlen.
    destruct (s_bytes w); [done|cbn [length] in Hlen; lia].
  - simpl. intros E0. by rewrite E0.
Qed.

Lemma read_character_run e : rc_ok e -> exists e', read_character e = URet (match rest e with [] => EOF | c :: _ => c end) e' /\
  rc_ok e' /\ rest e' = tail (rest e) /\ same_run e e'.
Proof.
  intros Hok. unfold read_character. rewrite (ubind_Ret (ugets id) _ e e e eq_refl).
  destruct (rc_fill_run e Hok) as (e1 & E & [Hb Hw Hc] & <- & Hs & He). ustep E. rewrite (ubind_Ret (ugets id) _ e1 e1 e1 eq_refl).
  destruct (rc_available e1) as [|a] eqn:Ea; simpl.
  - rewrite (He eq_refl). simpl. exists e1. unfold rest. rewrite Ea, (He eq_refl). simpl. split_and!; try done. split; [done|lia|done].
  - rewrite andb_false_r. destruct (lookup_lt_is_Some_2 (rc_buffer e1) (rc_offset e1)) as [c Hx]; [lia|].
    exists (set_rc (rc_buffer e1) a (S (rc_offset e1)) (rc_at_eof e1) e1). unfold rest. rewrite Ea, (drop_S _ c (rc_offset e1)) by done.
    simpl. split_and!; [|split; simpl; [done|lia|done]|done|done].
    unfold ubind, umodify, uret. by rewrite Nat.sub_0_r, (nth_lookup_Some _ _ _ c).
Qed.

(** The first line of a text, and the text after it unless that has ended. *)
Fixpoint first_line (t : list Z) : list Z * option (list Z) :=
  match t with
  | [] => ([], None)
  | c :: t' =>
    if c =? EOF then ([], None) else if c =? NEW_LINE then ([], Some t') else
    let r := first_line t' in (c :: r.1, r.2)
  end.

Lemma cmd_lines_first t :
  cmd_lines t = (first_line t).1 :: match (first_line t).2 with Some t' => cmd_lines t' | None => [] end.
Proof.
  induction t as [|c t IH]; simpl; [done|]. destruct (c =? EOF); [done|]. destruct (c =? NEW_LINE); [done|]. by rewrite IH.
Qed.

Lemma first_line_shorter t t' : (first_line t).2 = Some t' -> (length t' < length t)%nat.
Proof.
  induction t as [|c t IH]; simpl; [done|]. destruct (c =? EOF); [done|]. destruct (c =? NEW_LINE); [intros [= <-]; lia|].
  intros E. apply IH in E. lia.
Qed.

Lemma first_line_no_newline t c : c ∈ (first_line t).1 -> c <> NEW_LINE.
Proof.
  induction t as [|d t IH]; simpl; [by intros ?%elem_of_nil|]. destruct (d =? EOF); [by intros ?%elem_of_nil|].
  destruct (d =? NEW_LINE) eqn:E; [by intros ?%elem_of_nil|]. simpl. intros [->|Hc]%elem_of_cons; [by apply Z.eqb_neq|auto].
Qed.

Definition ended (k : option (list Z)) : bool := match k with None => true | Some _ => false end.

Lemma read_line_loop_run size fuel : forall e pre x tl b tc, rc_ok e -> rl_at_eof e = false ->
  length (pre ++ x :: tl) = size -> (length pre + length (first_line (rest e)).1 < size)%nat ->
  (length (first_line (rest e)).1 < fuel)%nat ->
  exists e' tl', let line := pre ++ (first_line (rest e)).1 ++ NEW_LINE :: tl' in
    read_line_loop fuel (pre ++ x :: tl) size (length pre) b tc e =
      URet ((length pre + S (length (first_line (rest e)).1))%nat, line, tc + count b (first_line (rest e)).1) e' /\
    length line = size /\ rc_ok e' /\ rl_at_eof e' = ended (first_line (rest e)).2 /\
    (forall r, (first_line (rest e)).2 = Some r -> rest e' = r) /\ e_nofork e' = e_nofork e /\ e_trace e' = e_trace e.
Proof.
  induction fuel as [|fuel IH]; intros e pre x tl b tc Hok Hrl Hlen Hsz Hf; [lia|].
  destruct (read_character_run e Hok) as (e1 & E & Hok1 & Hr1 & Hrl1 & Hnf & Htr). cbn [read_line_loop]. ustep E.
  rewrite insert_middle.
  rewrite length_app in Hlen. cbn [length] in Hlen.
  assert ((size <=? S (length pre))%nat && false = false) as Hand by apply andb_false_r.
  destruct (rest e) as [|c t] eqn:Er; [|cbn [first_line] in *; destruct (c =? EOF) eqn:Ec; [apply Z.eqb_eq in Ec as ->|destruct (c =? NEW_LINE) eqn:En]].
  1, 2: exists (set_rl_at_eof true e1), tl; rewrite <- app_assoc; cbn [app]; simpl; unfold ubind, umodify, uret;
    rewrite insert_middle, Hand, Nat.add_1_r, Z.add_0_r, <- app_assoc; split_and!; try done;
    [rewrite length_app; simpl; lia|by destruct Hok1].
  - apply Z.eqb_eq in En as ->. exists e1, tl. rewrite <- app_assoc. simpl. unfold ubind, umodify, uret.
    rewrite Hand, Nat.add_1_r, Z.add_0_r. split_and!; try done; [rewrite length_app; simpl; lia|congruence|by intros r [= <-]].
  - cbn [length fst snd] in *. rewrite andb_false_r. rewrite (ubind_Ret (uret _) _ e1 _ e1 eq_refl).
    rewrite (proj2 (Nat.ltb_lt _ _)) by lia. cbn [negb andb].
    assert (rest e1 = t) as Ht by done. destruct tl as [|y tl]; [simpl in Hlen; lia|].
    destruct (IH e1 (pre ++ [c]) y tl (isgraph c) (if isgraph c && negb b then tc + 1 else tc)) as (e' & tl' & E' & H1 & H2 & H3 & H4 & H5 & H6);
      rewrite ?Ht, ?length_app in *; cbn [length] in *; try done; try lia; [congruence|].
    rewrite Nat.add_1_r in E'. rewrite E'. exists e', tl'. rewrite <- !app_assoc in *. cbn [app] in *.
    split_and!; try done; try congruence.
    + f_equal; f_equal; [f_equal; lia|]. cbn [count]. destruct (isgraph c && negb b); lia.
    + rewrite length_app. cbn [length]. rewrite length_app. cbn [length]. lia.
Qed.

Lemma read_line_run e line : rc_ok e -> rl_at_eof e = false -> length line = LINE_SIZE ->
  (length (first_line (rest e)).1 < LINE_SIZE)%nat ->
  exists e' tl, let l := (first_line (rest e)).1 in
    read_line line LINE_SIZE e = URet (S (length l), l ++ NEW_LINE :: tl, count false l) e' /\
    length (l ++ NEW_LINE :: tl) = LINE_SIZE /\ rc_ok e' /\ rl_at_eof e' = ended (first_line (rest e)).2 /\
    (forall r, (first_line (rest e)).2 = Some r -> rest e' = r) /\ e_nofork e' = e_nofork e /\ e_trace e' = e_trace e.
Proof.
  intros Hok Hrl Hlen Hl. unfold read_line. rewrite (ubind_Ret (ugets _) _ e _ e eq_refl), Hrl.
  destruct line as [|x tl]; [done|]. exact (read_line_loop_run LINE_SIZE (S LINE_SIZE) e [] x tl false 0 Hok Hrl Hlen Hl ltac:(lia)).
Qed.

(** ** Running *)

Lemma parse_args_range argv0 opts : forall n s n' s', parse_args argv0 opts n s = URet n' s' ->
  1 <= n <= MAX_NUMPROC -> s' = s /\ 1 <= n' <= MAX_NUMPROC.
Proof.
  induction opts as [|[o arg] opts IH]; intros n s n' s' E Hn; [by injection E as <- <-|]. cbn [parse_args] in E.
  destruct (o =? 112); [|by destruct (o =? 104)]. destruct (c_atoi arg) as [k|]; [|done].
  destruct ((k <? MIN_NUMPROC) || (k >? MAX_NUMPROC)) eqn:Ek; [done|]. apply IH in E; [done|].
  unfold MIN_NUMPROC in Ek. apply orb_false_iff in Ek as [?%Z.ltb_ge ?]. lia.
Qed.

Lemma forked_snoc tr ev : forked (tr ++ [ev]) = forked tr ++ match ev with Fork a => [a] | Wait => [] end.
Proof. unfold forked. rewrite omap_app. by destruct ev. Qed.

Lemma wait_all_run n k : forall e, running n (e_trace e) = Some k ->
  exists e', wait_all k e = URet tt e' /\ running n (e_trace e') = Some 0%nat /\ forked (e_trace e') = forked (e_trace e).
Proof.
  induction k as [|k IH]; intros e Hk; [by exists e|]. cbn [wait_all]. unfold wait. rewrite (ubind_Ret (umodify _) _ e tt _ eq_refl).
  destruct (IH (push Wait e)) as (e' & E & H1 & H2); [simpl; rewrite running_snoc, Hk; done|].
  exists e'. rewrite H2. simpl. by rewrite forked_snoc, app_nil_r.
Qed.

Lemma commands_first t : commands t =
  (if decide (words (first_line t).1 = []) then [] else [words (first_line t).1]) ++
  match (first_line t).2 with Some t' => commands t' | None => [] end.
Proof.
  unfold commands. rewrite cmd_lines_first, fmap_cons, filter_cons.
  destruct (decide (words _ <> [])), (decide (words _ = [])); try tauto; by destruct (first_line t).2.
Qed.

Definition set_trace (v : list event) (e : el) :=
  mkEl (e_px e) (rc_buffer e) (rc_available e) (rc_offset e) (rc_at_eof e) (rl_at_eof e) (e_nofork e) v.

Lemma room_run n k e : (1 <= n)%nat -> running n (e_trace e) = Some k -> (k <= n)%nat ->
  exists tr k', (if (n <=? k)%nat then wait ;; uret (k - 1)%nat else uret k) e = URet k' (set_trace tr e) /\
    running n tr = Some k' /\ (k' < n)%nat /\ forked tr = forked (e_trace e).
Proof.
  intros Hn Hk Hle. destruct (n <=? k)%nat eqn:E; [apply Nat.leb_le in E|apply Nat.leb_gt in E].
  - exists (e_trace e ++ [Wait]), (k - 1)%nat. rewrite running_snoc, Hk, forked_snoc, app_nil_r. simpl.
    destruct k as [|k]; [lia|]. split_and!; [done|by rewrite Nat.sub_1_r|lia|done].
  - exists (e_trace e), k. by destruct e.
Qed.

(** One line that has been read: room for a child, and the child. *)
Lemma execute_turn n k l tl e (cont : nat -> U el nat) : (1 <= n)%nat -> running n (e_trace e) = Some k -> (k <= n)%nat ->
  e_nofork e = [] -> (forall c, c ∈ l -> c <> NEW_LINE) ->
  exists tr k', running n tr = Some k' /\ (k' <= n)%nat /\
    forked tr = forked (e_trace e) ++ (if decide (words l = []) then [] else [Some (words l)]) /\
    (do k <- (if (n <=? k)%nat then wait ;; uret (k - 1)%nat else uret k);
     if count false l >? 0 then
       do pid <- fork (child_argv (l ++ NEW_LINE :: tl) (S (length l)) (count false l));
       if pid =? -1 then lift (fail ERR_FORK) else cont (S k)
     else cont k) e = cont k' (set_trace tr e).
Proof.
  intros Hn Hk Hle Hnf Hl. destruct (room_run n k e Hn Hk Hle) as (tr & k1 & E & Hr & Hlt & Hf). ustep E. rewrite <- Hf.
  pose proof (count_words l Hl) as Hw. rewrite Z.gtb_ltb. destruct (0 <? count false l) eqn:Ec; [apply Z.ltb_lt in Ec|apply Z.ltb_ge in Ec].
  - rewrite child_argv_words, decide_False by (done || tauto). exists (tr ++ [Fork (Some (words l))]), (S k1).
    rewrite running_snoc, Hr, forked_snoc. simpl. rewrite (proj2 (Nat.ltb_lt _ _)) by done. split_and!; [done|lia|done|].
    unfold ubind, fork. simpl. rewrite Hnf. simpl. f_equal. by destruct e; simpl in *; subst.
  - rewrite decide_True by (apply dec_stable; intros Hne; apply Hw in Hne; lia).
    exists tr, k1. rewrite app_nil_r. split_and!; [done|lia|done|done].
Qed.

Lemma execute_loop_run n fuel : (1 <= n)%nat -> forall e line k, rc_ok e -> rl_at_eof e = false -> length line = LINE_SIZE ->
  e_nofork e = [] -> running n (e_trace e) = Some k -> (k <= n)%nat ->
  Forall (fun l => (length l < LINE_SIZE)%nat) (cmd_lines (rest e)) -> (S (length (rest e)) < fuel)%nat ->
  exists e' k', execute_loop fuel n k line e = URet k' e' /\ running n (e_trace e') = Some k' /\
    forked (e_trace e') = forked (e_trace e) ++ (Some <$> commands (rest e)).
Proof.
  intros Hn. induction fuel as [|fuel IH]; intros e line k Hok Hrl Hlen Hnf Hk Hle Hall Hf; [lia|].
  rewrite cmd_lines_first in Hall. apply Forall_cons in Hall as [Hl Hall].
  destruct (read_line_run e line Hok Hrl Hlen Hl) as (e1 & tl & E & Hlen1 & Hok1 & Hrl1 & Hr1 & Hnf1 & Htr1).
  cbn [execute_loop]. ustep E. cbn [Nat.eqb]. rewrite <- Htr1 in Hk. rewrite Hnf in Hnf1.
  set (l := (first_line (rest e)).1) in *.
  destruct (execute_turn n k l tl e1 (fun k => execute_loop fuel n k (l ++ NEW_LINE :: tl)) Hn Hk Hle Hnf1 (first_line_no_newline _))
    as (tr & k1 & Hk1 & Hle1 & Htr & ->).
  rewrite commands_first, fmap_app, app_assoc. fold l.
  replace (Some <$> (if decide (words l = []) then [] else [words l])) with (if decide (words l = []) then [] else [Some (words l)])
    by (by case_decide).
  rewrite <- Htr1, <- Htr. destruct (first_line (rest e)).2 as [t|] eqn:Et.
  - pose proof (first_line_shorter _ _ Et). specialize (Hr1 t eq_refl).
    destruct (IH (set_trace tr e1) (l ++ NEW_LINE :: tl) k1) as (e' & k' & E' & H1 & H2); try done.
    + by destruct Hok1.
    + change (rest (set_trace tr e1)) with (rest e1). by rewrite Hr1.
    + change (rest (set_trace tr e1)) with (rest e1). rewrite Hr1. lia.
    + exists e', k'. change (rest (set_trace tr e1)) with (rest e1) in H2. rewrite Hr1 in H2. done.
  - exists (set_trace tr e1), k1. rewrite app_nil_r. split_and!; [|done|done]. destruct fuel; [lia|]. cbn [execute_loop].
    assert (forall buf, read_line buf LINE_SIZE (set_trace tr e1) = URet (0%nat, buf, 0) (set_trace tr e1)) as Er.
    { intros buf. unfold read_line. rewrite (ubind_Ret (ugets _) _ _ true (set_trace tr e1)); [done|].
      unfold ugets. cbn [set_trace rl_at_eof]. by rewrite Hrl1. }
    by rewrite (ubind_Ret _ _ _ _ _ (Er _)).
Qed.

(** C19. exec_lines runs the commands of its input.  Whatever the pieces in which the standard input is
    delivered, when every line fits (fewer than 128 characters) and the forks succeed, the program
    exits with success; the children it forks hand to execvp exactly the words of the lines
    that have any, in the order of the lines (so no child leaves the bounds of its argv); it
    never has more than the number of children given with -p, between 1 and 8, at a time,
    and it has waited for all of them at the end. The text is taken to end at a byte 255. *)
Theorem exec_lines_runs_commands argv0 opts s n fuel :
  parse_args argv0 opts DEFAULT_NUMPROC s = URet n s -> clean (x_in s STDIN_FILENO) ->
  let text := to_char <$> s_bytes (x_in s STDIN_FILENO) in
  Forall (fun l => (length l < LINE_SIZE)%nat) (cmd_lines text) -> (S (length text) < fuel)%nat ->
  1 <= n <= 8 /\ exists e', exec_lines_main fuel argv0 opts (el_start s []) = UExit EXIT_SUCCESS e' /\
    forked (e_trace e') = Some <$> commands text /\ running (Z.to_nat n) (e_trace e') = Some 0%nat.
Proof.
  intros Hp Hc text Hall Hf. destruct (parse_args_range _ _ _ _ _ _ Hp) as [_ Hn]; [done|]. split; [done|].
  unfold exec_lines_main. rewrite (ubind_Ret (lift _) _ _ n (el_start s [])) by (unfold lift; simpl; by rewrite Hp).
  assert (rest (el_start s []) = text) as Ht by (unfold rest; simpl; done).
  destruct (execute_loop_run (Z.to_nat n) fuel ltac:(lia) (el_start s []) (replicate LINE_SIZE 0) 0) as (e1 & k & E & H1 & H2);
    try done; [by split; simpl; [|lia|]|lia|].
  destruct (wait_all_run (Z.to_nat n) k e1 H1) as (e2 & E2 & H3 & H4).
  unfold execute_lines. rewrite ubind_assoc. ustep E. ustep E2. exists e2. split_and!; [done| |done]. rewrite H4, H2, Ht. done.
Qed.
End spec.
