(* ===== verification/MergeTee.v ===== *)
(** * merge_tee_exec (src/syscalls/merge_tee_exec.c)

    Runs merge_files, tee and exec_lines connected by two pipes.  The state [mt] has the
    descriptor table of the process; a child starts with a copy of it, and what becomes
    of the child is recorded: the program it executes with its arguments and its table,
    or its exit code.  [t_nofork], [t_nopipe], [t_noexec]: whether the next calls fail.
    Memory is assumed to be granted. *)
From Stdlib Require Import String.
From stdpp Require Import gmap.
From S2P Require Import Prelude User Posix.

Definition MIN_BUFSIZE : Z := 1.
Definition DEFAULT_BUFSIZE : Z := 1024.
Definition MAX_BUFSIZE : Z := 134217728.
Definition MIN_NUMPROC : Z := 1.
Definition DEFAULT_NUMPROC : Z := 1.
Definition MAX_NUMPROC : Z := 8.
Definition MAX_INPUT_FILES : Z := 16.
Definition MIN_INPUT_FILES : Z := 1.
Definition MAX_STR_SIZE : nat := 16.
Definition EXEC_LINES_ARGV_SIZE : nat := 4.
Definition TEE_ARGV_SIZE : nat := 3.
Definition MERGE_FILES_ARGV_MIN_SIZE : nat := 4.
Definition TOTAL_PROGRAMS : nat := 3.

Definition MERGE_FILES : list Z := str "./merge_files".
Definition TEE : list Z := str "tee".
Definition EXEC_LINES : list Z := str "./exec_lines".
Definition ARGV_NUMPROC : list Z := str "-p".
Definition ARGV_BUFSIZE : list Z := str "-t".

Definition ERR_PIPE : list Z := str "Error. Ha fallado la llamada pipe() para crear una tubería".
Definition ERR_CLOSE : list Z := str "Error. Ha fallado la llamada a close() para cerrar un extremo de una tubería".
Definition ERR_WAIT : list Z := str "Error. Ha fallado la llamada a wait() mientras se esperaba a un proceso hijo".
Definition ERR_FORK : list Z := str "Error. Ha fallado la llamda a fork() para crear un proceso hijo".
Definition ERR_DUP2 : list Z := str "Error. Ha fallado la llamada a dup2()".
Definition ERR_EXEC : list Z := str "Error. Ha fallado la llamada a exec() en un proceso hijo".

Record configuration := mkConf {
  bufsize : Z;
  numproc : Z;
  log_file : option (list Z);
  input_files : list (list Z);
}.

(** ** Processes and pipes *)

(** What a descriptor refers to: a file of the process's parent, or an end of a pipe. *)
Inductive desc := Inherited (n : Z) | RdEnd (p : nat) | WrEnd (p : nat).

Notation fdtable := (gmap Z desc).

Inductive kid :=
| KExec (path : list Z) (argv : list (option (list Z))) (fds : fdtable)
| KExit (code : Z).

Record mt := mkMt {
  t_px : px;
  t_fds : fdtable;
  t_pipes : nat;               (* the pipes made so far *)
  t_kids : list kid;
  t_waited : nat;
  t_nofork : list bool;
  t_nopipe : list bool;
  t_noexec : list bool;
}.
Definition set_t_px (v : px) (s : mt) :=
  mkMt v (t_fds s) (t_pipes s) (t_kids s) (t_waited s) (t_nofork s) (t_nopipe s) (t_noexec s).
Definition set_t_fds (v : fdtable) (s : mt) :=
  mkMt (t_px s) v (t_pipes s) (t_kids s) (t_waited s) (t_nofork s) (t_nopipe s) (t_noexec s).
Definition set_t_pipes (v : nat) (s : mt) :=
  mkMt (t_px s) (t_fds s) v (t_kids s) (t_waited s) (t_nofork s) (t_nopipe s) (t_noexec s).
Definition set_t_kids (v : list kid) (s : mt) :=
  mkMt (t_px s) (t_fds s) (t_pipes s) v (t_waited s) (t_nofork s) (t_nopipe s) (t_noexec s).
Definition set_t_waited (v : nat) (s : mt) :=
  mkMt (t_px s) (t_fds s) (t_pipes s) (t_kids s) v (t_nofork s) (t_nopipe s) (t_noexec s).
Definition set_t_oracles (f p x : list bool) (s : mt) :=
  mkMt (t_px s) (t_fds s) (t_pipes s) (t_kids s) (t_waited s) f p x.
#[global] Instance mt_px : HasPx mt := {| get_px := t_px; put_px := set_t_px |}.

(** The lowest descriptor from [n] on that is free. *)
Fixpoint lowest (fuel : nat) (m : fdtable) (n : Z) : Z :=
  match fuel with
  | O => n
  | S f => match m !! n with Some _ => lowest f m (n + 1) | None => n end
  end.
Definition free_fd (m : fdtable) : Z := lowest (S (size m)) m 0.

Definition pipe : U mt (option (Z * Z)) := fun s =>
  let s1 := set_t_oracles (t_nofork s) (tail (t_nopipe s)) (t_noexec s) s in
  if hd false (t_nopipe s) then URet None s1 else
  let r := free_fd (t_fds s) in
  let m := <[r := RdEnd (t_pipes s)]> (t_fds s) in
  let w := free_fd m in
  URet (Some (r, w)) (set_t_pipes (S (t_pipes s)) (set_t_fds (<[w := WrEnd (t_pipes s)]> m) s1)).

Definition close (fd : Z) : U mt Z := fun s =>
  match t_fds s !! fd with None => URet (-1) s | Some _ => URet 0 (set_t_fds (delete fd (t_fds s)) s) end.
Definition dup2 (old new : Z) : U mt Z := fun s =>
  match t_fds s !! old with None => URet (-1) s | Some d => URet new (set_t_fds (<[new := d]> (t_fds s)) s) end.

(** fork: [child] runs on a copy; the terminal is shared. *)
Definition fork (child : U mt kid) : U mt Z := fun s =>
  let s1 := set_t_oracles (tail (t_nofork s)) (t_nopipe s) (t_noexec s) s in
  if hd false (t_nofork s) then URet (-1) s1 else
  match child s1 with
  | URet k s' => URet 1 (set_t_px (t_px s') (set_t_kids (t_kids s ++ [k]) (set_t_oracles (t_nofork s1) (t_nopipe s1) (t_noexec s') s1)))
  | UExit c s' => URet 1 (set_t_px (t_px s') (set_t_kids (t_kids s ++ [KExit c]) (set_t_oracles (t_nofork s1) (t_nopipe s1) (t_noexec s') s1)))
  | USpin => USpin
  | UFault => UFault
  end.

Definition execvp (path : list Z) (argv : list (option (list Z))) : U mt (option kid) := fun s =>
  let s1 := set_t_oracles (t_nofork s) (t_nopipe s) (tail (t_noexec s)) s in
  URet (if hd false (t_noexec s) then None else Some (KExec path argv (t_fds s))) s1.

Definition wait : U mt Z := fun s =>
  if (t_waited s <? length (t_kids s))%nat then URet 1 (set_t_waited (S (t_waited s)) s) else URet (-1) s.

Section merge_tee_exec.
Context `{ErrText}.

Definition USE_GUIDE (argv0 : list Z) : list Z :=
  str "Uso: " ++ argv0 ++ str " -l LOGFILE [-t BUFSIZE] [-p NUMPROC] FILEIN1 [FILEIN2 ... FILEINn]" ++ [10].
Definition MORE_INFO : list Z :=
  str "No admite lectura de la entrada estandar." ++ [10] ++
  str "-t BUFSIZE" ++ [9] ++ str "Tamaño de buffer donde 1 <= BUFSIZE <= 128MB" ++ [10] ++
  str "-l LOGFILE" ++ [9] ++ str "Nombre del archivo de log." ++ [10] ++
  str "-p NUMPROC" ++ [9] ++ str "Número de procesos en ejecución de forma simultánea (1 <= NUMPROC <= 8)" ++ [10].
Definition usage (fd : Z) (argv0 : list Z) : U px unit := fprint fd (USE_GUIDE argv0) ;; fprint fd MORE_INFO.
Definition reject {A} (msg argv0 : list Z) : U px A :=
  fprint STDERR_FILENO (msg ++ [10]) ;; usage STDERR_FILENO argv0 ;; exit EXIT_FAILURE.

(** ** Configuration: the options are what getopt returns before the -1 *)

Fixpoint parse_options (argv0 : list Z) (opts : list (Z * list Z)) (c : configuration) : U px configuration :=
  match opts with
  | [] => uret c
  | (o, arg) :: opts' =>
    if o =? 116 then
      match c_atoi arg with
      | None => ufault
      | Some n =>
        if (n <? MIN_BUFSIZE) || (n >? MAX_BUFSIZE) then reject (str "Error: Tamaño de buffer incorrecto.") argv0
        else parse_options argv0 opts' (mkConf n (numproc c) (log_file c) (input_files c))
      end
    else if o =? 108 then parse_options argv0 opts' (mkConf (bufsize c) (numproc c) (Some arg) (input_files c))
    else if o =? 112 then
      match c_atoi arg with
      | None => ufault
      | Some n =>
        if (n <? MIN_NUMPROC) || (n >? MAX_NUMPROC) then
          reject (str "Error: El número de procesos en ejecución tiene que estar entre 1 y 8.") argv0
        else parse_options argv0 opts' (mkConf (bufsize c) n (log_file c) (input_files c))
      end
    else if o =? 104 then usage STDOUT_FILENO argv0 ;; exit EXIT_SUCCESS
    else usage STDERR_FILENO argv0 ;; exit EXIT_FAILURE
  end.

Definition init_configuration (argv0 : list Z) (opts : list (Z * list Z)) (operands : list (list Z)) : U px configuration :=
  do c <- parse_options argv0 opts (mkConf DEFAULT_BUFSIZE DEFAULT_NUMPROC None []);
  if bool_decide (log_file c = None) then reject (str "Error: No hay fichero de log.") argv0 else
  let file_count := Z.of_nat (length operands) in
  if file_count <? MIN_INPUT_FILES then reject (str "Error: No hay ficheros de entrada.") argv0 else
  if file_count >? MAX_INPUT_FILES then reject (str "Error: Demasiados ficheros de entrada. Máximo 16 ficheros.") argv0 else
  uret (mkConf (bufsize c) (numproc c) (log_file c) operands).

(** ** Arguments of the programs; ufault: a store outside an array *)

(** to_string: the text must fit the buffer with its terminator. *)
Definition to_string (n : Z) : U mt (list Z) :=
  let s := c_decimal n in if (length s <? MAX_STR_SIZE)%nat then uret s else ufault.

Definition store {A} (i : nat) (x : A) (l : list A) : U mt (list A) :=
  if (i <? length l)%nat then uret (<[i := x]> l) else ufault.

Fixpoint store_files (i : nat) (files : list (list Z)) (argv : list (option (list Z))) : U mt (list (option (list Z))) :=
  match files with
  | [] => uret argv
  | f :: files' => do argv <- store (i + 3) (Some f) argv; store_files (S i) files' argv
  end.

Definition merge_files_argv (c : configuration) : U mt (list (option (list Z))) :=
  let argv := replicate (MERGE_FILES_ARGV_MIN_SIZE + length (input_files c)) None in
  do argv <- store 0 (Some MERGE_FILES) argv;
  do argv <- store 1 (Some ARGV_BUFSIZE) argv;
  do s <- to_string (bufsize c);
  do argv <- store 2 (Some s) argv;
  store_files 0 (input_files c) argv.

Definition tee_argv (c : configuration) : U mt (list (option (list Z))) :=
  do argv <- store 0 (Some TEE) (replicate TEE_ARGV_SIZE None);
  store 1 (log_file c) argv.

Definition exec_lines_argv (c : configuration) : U mt (list (option (list Z))) :=
  do argv <- store 0 (Some EXEC_LINES) (replicate EXEC_LINES_ARGV_SIZE None);
  do argv <- store 1 (Some ARGV_NUMPROC) argv;
  do s <- to_string (numproc c);
  store 2 (Some s) argv.

(** ** The programs *)

Definition try (m : U mt Z) (msg : list Z) : U mt unit :=
  do r <- m; if r =? -1 then lift (fail msg) else uret tt.

Definition run (path : list Z) (argv : U mt (list (option (list Z)))) : U mt kid :=
  do a <- argv;
  do k <- execvp path a;
  match k with Some k => uret k | None => lift (fail ERR_EXEC) end.

Definition merge_files (c : configuration) (output_pipe : Z * Z) : U mt unit :=
  try (fork (
    try (close output_pipe.1) ERR_CLOSE ;;
    try (dup2 output_pipe.2 STDOUT_FILENO) ERR_DUP2 ;;
    try (close output_pipe.2) ERR_CLOSE ;;
    run MERGE_FILES (merge_files_argv c))) ERR_FORK.

Definition tee (c : configuration) (input_pipe output_pipe : Z * Z) : U mt unit :=
  try (fork (
    try (close output_pipe.1) ERR_CLOSE ;; try (close input_pipe.2) ERR_CLOSE ;;
    try (dup2 input_pipe.1 STDIN_FILENO) ERR_DUP2 ;; try (dup2 output_pipe.2 STDOUT_FILENO) ERR_DUP2 ;;
    try (close input_pipe.1) ERR_CLOSE ;; try (close output_pipe.2) ERR_CLOSE ;;
    run TEE (tee_argv c))) ERR_FORK.

Definition exec_lines (c : configuration) (inputfd : Z * Z) : U mt unit :=
  try (fork (
    try (close inputfd.2) ERR_CLOSE ;;
    try (dup2 inputfd.1 STDIN_FILENO) ERR_DUP2 ;;
    try (close inputfd.1) ERR_CLOSE ;;
    run EXEC_LINES (exec_lines_argv c))) ERR_FORK.

Definition make_pipe : U mt (Z * Z) :=
  do p <- pipe; match p with Some p => uret p | None => lift (fail ERR_PIPE) end.

Fixpoint wait_for (n : nat) : U mt unit :=
  match n with O => uret tt | S n' => try wait ERR_WAIT ;; wait_for n' end.

Definition merge_tee_exec (c : configuration) : U mt unit :=
  do merge_tee_pipe <- make_pipe;
  merge_files c merge_tee_pipe ;;
  do tee_exec_pipe <- make_pipe;
  tee c merge_tee_pipe tee_exec_pipe ;;
  try (close merge_tee_pipe.1) ERR_CLOSE ;; try (close merge_tee_pipe.2) ERR_CLOSE ;;
  exec_lines c tee_exec_pipe ;;
  try (close tee_exec_pipe.1) ERR_CLOSE ;; try (close tee_exec_pipe.2) ERR_CLOSE ;;
  wait_for TOTAL_PROGRAMS.

Definition merge_tee_main (argv0 : list Z) (opts : list (Z * list Z)) (operands : list (list Z)) : U mt unit :=
  do c <- lift (init_configuration argv0 opts operands);
  merge_tee_exec c ;; exit EXIT_SUCCESS.
End merge_tee_exec.
