(* ===== verification/MergeTeeSpec.v ===== *)
(** * What merge_tee_exec starts

    The descriptors of the three programs, and that the options merge_tee_exec passes on
    mean to them what they meant to it. *)
From stdpp Require Import gmap.
From S2P Require Import Prelude User Posix MergeFiles ExecLines ExecSpec MergeTee.

(** ** Descriptors *)

Lemma lowest_spec fuel m : forall n,
  n <= lowest fuel m n /\ (m !! lowest fuel m n = None \/ forall k, n <= k < n + Z.of_nat fuel -> m !! k <> None).
Proof.
  induction fuel as [|f IH]; intros n; cbn [lowest]; [split; [lia|right; intros; lia]|].
  destruct (m !! n) as [d|] eqn:E; [|split; [lia|by left]]. destruct (IH (n + 1)) as [H1 [H2|H2]]; (split; [lia|]).
  - by left.
  - right. intros k Hk. destruct (decide (k = n)) as [->|]; [by rewrite E|]. apply H2. lia.
Qed.

(** A pipe gets descriptors that are free, above the three standard ones. *)
Lemma free_fd_spec (m : fdtable) : 0 <= free_fd m /\ m !! free_fd m = None.
Proof.
  unfold free_fd. destruct (lowest_spec (S (size m)) m 0) as [H1 [H2|H2]]; [by split|]. exfalso.
  assert ((list_to_set (seqZ 0 (Z.of_nat (S (size m)))) : gset Z) ⊆ dom m) as Hsub.
  { intros k Hk. apply elem_of_list_to_set, elem_of_seqZ in Hk. apply elem_of_dom, not_eq_None_Some, H2. lia. }
  apply subseteq_size in Hsub. rewrite size_list_to_set in Hsub by apply NoDup_seqZ. rewrite length_seqZ in Hsub.
  rewrite size_dom in Hsub. lia.
Qed.

Definition standard (m : fdtable) : Prop := forall k, 0 <= k < 3 -> m !! k <> None.

Lemma free_fd_high m : standard m -> 2 < free_fd m /\ m !! free_fd m = None.
Proof.
  intros Hm. destruct (free_fd_spec m) as [H1 H2]. split; [|done].
  destruct (decide (2 < free_fd m)); [done|]. destruct (Hm (free_fd m)); [lia|done].
Qed.

Lemma table_insert m k d : standard m -> standard (<[k := d]> m).
Proof. intros Hm i Hi. rewrite lookup_insert. case_decide; [done|]. by apply Hm. Qed.

(** The calls do not fail. *)
Definition willing (s : mt) : Prop := t_nofork s = [] /\ t_nopipe s = [] /\ t_noexec s = [].

(** Equality of descriptor tables. *)
Ltac fds_eq := apply map_eq; intros i; repeat first [rewrite lookup_insert | rewrite lookup_delete];
  repeat case_decide; subst; try done; try lia; congruence.

Section spec.
Context `{ErrText}.

Lemma try_run (m : U mt Z) msg s r s' : m s = URet r s' -> r <> -1 -> try m msg s = URet tt s'.
Proof. intros E Hr. unfold try. ustep E. by rewrite (proj2 (Z.eqb_neq r (-1))). Qed.

Lemma close_run fd msg s d : t_fds s !! fd = Some d -> try (close fd) msg s = URet tt (set_t_fds (delete fd (t_fds s)) s).
Proof. intros E. eapply try_run; [unfold close; by rewrite E|done]. Qed.

Lemma dup2_run old new msg s d : t_fds s !! old = Some d -> 0 <= new ->
  try (dup2 old new) msg s = URet tt (set_t_fds (<[new := d]> (t_fds s)) s).
Proof. intros E Hn. eapply try_run; [unfold dup2; by rewrite E|lia]. Qed.

Lemma run_run path argv s a : willing s -> argv s = URet a s -> run path argv s = URet (KExec path a (t_fds s)) s.
Proof.
  intros (_ & _ & Hx) E. unfold run. ustep E. unfold execvp, ubind. rewrite Hx. simpl. unfold uret. f_equal.
  destruct s; simpl in *; by subst.
Qed.

Lemma fork_run child msg s k s' : willing s -> child s = URet k s' -> t_px s' = t_px s -> t_noexec s' = [] ->
  try (fork child) msg s = URet tt (set_t_kids (t_kids s ++ [k]) s).
Proof.
  intros (Hf & Hp & Hx) E Hpx Hx'. apply (try_run _ _ _ 1); [|done]. unfold fork. rewrite Hf. simpl.
  replace (set_t_oracles [] (t_nopipe s) (t_noexec s) s) with s by (destruct s; simpl in *; by subst).
  rewrite E, Hpx, Hx'. f_equal. destruct s; simpl in *; by subst.
Qed.

Lemma make_pipe_run s : willing s -> standard (t_fds s) -> exists r w, 2 < r /\ 2 < w /\ r <> w /\
  t_fds s !! r = None /\ t_fds s !! w = None /\
  make_pipe s = URet (r, w) (set_t_pipes (S (t_pipes s))
    (set_t_fds (<[w := WrEnd (t_pipes s)]> (<[r := RdEnd (t_pipes s)]> (t_fds s))) s)).
Proof.
  intros (Hf & Hp & Hx) Hs. set (r := free_fd (t_fds s)). set (m := <[r := RdEnd (t_pipes s)]> (t_fds s)).
  destruct (free_fd_high (t_fds s) Hs) as [Hr1 Hr2]. destruct (free_fd_high m (table_insert _ _ _ Hs)) as [Hw1 Hw2].
  fold r in Hr1, Hr2. assert (r <> free_fd m) as Hne by (intros E; rewrite <- E in Hw2; unfold m in Hw2; by rewrite lookup_insert_eq in Hw2).
  exists r, (free_fd m). split_and!; try done.
  - pose proof (lookup_insert_ne (t_fds s) r (free_fd m) (RdEnd (t_pipes s)) Hne) as Hl. fold m in Hl. by rewrite <- Hl.
  - unfold make_pipe, pipe, ubind. rewrite Hp. simpl. unfold uret. f_equal. unfold m. fold r. destruct s; simpl in *; by subst.
Qed.

Lemma wait_for_run n : forall s, (t_waited s + n <= length (t_kids s))%nat ->
  wait_for n s = URet tt (set_t_waited (t_waited s + n) s).
Proof.
  induction n as [|n IH]; intros s Hn; cbn [wait_for]; [rewrite Nat.add_0_r; by destruct s|].
  rewrite (ubind_Ret _ _ s tt (set_t_waited (S (t_waited s)) s)).
  - rewrite IH by (simpl; lia). unfold set_t_waited. simpl. by rewrite Nat.add_succ_r.
  - eapply try_run; [unfold wait; by rewrite (proj2 (Nat.ltb_lt _ _)) by lia|done].
Qed.

(** ** Arguments *)

Lemma store_run {A} i (x : A) l (s : mt) : (i < length l)%nat -> store i x l s = URet (<[i := x]> l) s.
Proof. intros Hi. unfold store. by rewrite (proj2 (Nat.ltb_lt _ _)). Qed.

Ltac ustore := erewrite ubind_Ret; [|apply store_run; rewrite ?length_app; simpl; lia].

Lemma store_files_run files : forall i pre (s : mt), length pre = (i + 3)%nat ->
  store_files i files (pre ++ replicate (S (length files)) None) s = URet (pre ++ (Some <$> files) ++ [None]) s.
Proof.
  induction files as [|f files IH]; intros i pre s Hi; [done|]. cbn [store_files length].
  ustore.
  simpl replicate. rewrite <- Hi, insert_middle. rewrite (IH (S i) (pre ++ [Some f])) by (rewrite length_app; simpl; lia).
  by rewrite <- app_assoc.
Qed.

Lemma to_string_run n (s : mt) : 0 <= n <= 2147483647 -> to_string n s = URet (c_decimal n) s.
Proof.
  intros Hn. unfold to_string. destruct (c_atoi_decimal n ltac:(lia)) as [_ Hl].
  by rewrite (proj2 (Nat.ltb_lt _ _)) by (unfold MAX_STR_SIZE; lia).
Qed.

Lemma merge_files_argv_run c (s : mt) : 0 <= bufsize c <= 2147483647 ->
  merge_files_argv c s = URet ((Some <$> MERGE_FILES :: ARGV_BUFSIZE :: c_decimal (bufsize c) :: input_files c) ++ [None]) s.
Proof.
  intros Hb. unfold merge_files_argv, MERGE_FILES_ARGV_MIN_SIZE. cbn [Nat.add replicate].
  do 2 ustore. ustep (to_string_run _ s Hb). ustore. simpl.
  exact (store_files_run (input_files c) 0 [Some MERGE_FILES; Some ARGV_BUFSIZE; Some (c_decimal (bufsize c))] s eq_refl).
Qed.

Lemma exec_lines_argv_run c (s : mt) : 0 <= numproc c <= 2147483647 ->
  exec_lines_argv c s = URet [Some EXEC_LINES; Some ARGV_NUMPROC; Some (c_decimal (numproc c)); None] s.
Proof. intros Hb. unfold exec_lines_argv, ubind. simpl. by rewrite (to_string_run _ s Hb). Qed.

Lemma tee_argv_run c (s : mt) : tee_argv c s = URet [Some TEE; log_file c; None] s.
Proof. done. Qed.

(** ** The children *)

Ltac fd_lookup := cbn [t_fds set_t_fds]; unfold STDIN_FILENO, STDOUT_FILENO;
  repeat first [rewrite lookup_delete_ne by lia | rewrite lookup_insert_ne by lia]; eassumption.
Ltac fd_find := cbn; repeat first [rewrite lookup_insert_eq | rewrite lookup_insert_ne by lia | rewrite lookup_delete_ne by lia]; (done || lia).
Ltac fd_step := first
  [ erewrite ubind_Ret; [|eapply close_run; fd_lookup]
  | erewrite ubind_Ret; [|eapply dup2_run; [fd_lookup|unfold STDIN_FILENO, STDOUT_FILENO; lia]] ].

Lemma merge_files_run c r w a d s : willing s -> t_fds s !! r = Some a -> t_fds s !! w = Some d -> r <> w -> 2 < r -> 2 < w ->
  0 <= bufsize c <= 2147483647 ->
  merge_files c (r, w) s = URet tt (set_t_kids (t_kids s ++
    [KExec MERGE_FILES ((Some <$> MERGE_FILES :: ARGV_BUFSIZE :: c_decimal (bufsize c) :: input_files c) ++ [None])
       (delete w (<[1 := d]> (delete r (t_fds s))))]) s).
Proof.
  intros Hs Hr Hw Hne Hr2 Hw2 Hb. unfold merge_files. cbn [fst snd]. eapply fork_run; [done| | |].
  - do 3 fd_step. apply run_run; [done|]. by apply merge_files_argv_run.
  - done.
  - by destruct Hs as (_ & _ & ?).
Qed.

Lemma tee_run c r w r' w' a d a' d' s : willing s -> t_fds s !! r = Some a -> t_fds s !! w = Some d ->
  t_fds s !! r' = Some a' -> t_fds s !! w' = Some d' -> NoDup [r; w; r'; w'] -> Forall (fun x => 2 < x) [r; w; r'; w'] ->
  tee c (r, w) (r', w') s = URet tt (set_t_kids (t_kids s ++
    [KExec TEE [Some TEE; log_file c; None]
       (delete w' (delete r (<[1 := d']> (<[0 := a]> (delete w (delete r' (t_fds s)))))))]) s).
Proof.
  intros Hs Hr Hw Hr' Hw' Hnd Hall. rewrite !NoDup_cons, !not_elem_of_cons in Hnd. destruct_and! Hnd. rewrite !Forall_cons in Hall. destruct_and! Hall.
  unfold tee. cbn [fst snd]. eapply fork_run; [done| | |].
  - do 6 fd_step. by apply run_run.
  - done.
  - by destruct Hs as (_ & _ & ?).
Qed.

Lemma exec_lines_run c r w a d s : willing s -> t_fds s !! r = Some a -> t_fds s !! w = Some d -> r <> w -> 2 < r -> 2 < w ->
  0 <= numproc c <= 2147483647 ->
  exec_lines c (r, w) s = URet tt (set_t_kids (t_kids s ++
    [KExec EXEC_LINES [Some EXEC_LINES; Some ARGV_NUMPROC; Some (c_decimal (numproc c)); None]
       (delete r (<[0 := a]> (delete w (t_fds s))))]) s).
Proof.
  intros Hs Hr Hw Hne Hr2 Hw2 Hb. unfold exec_lines. cbn [fst snd]. eapply fork_run; [done| | |].
  - do 3 fd_step. apply run_run; [done|]. by apply exec_lines_argv_run.
  - done.
  - by destruct Hs as (_ & _ & ?).
Qed.

(** ** The whole *)

Definition conf_ok (c : configuration) : Prop :=
  MIN_BUFSIZE <= bufsize c <= MAX_BUFSIZE /\ MIN_NUMPROC <= numproc c <= MAX_NUMPROC.

Lemma parse_options_ok argv0 opts : forall c p c' p', parse_options argv0 opts c p = URet c' p' -> conf_ok c -> p' = p /\ conf_ok c'.
Proof.
  induction opts as [|[o arg] opts IH]; intros c p c' p' E [Hb Hn]; [by injection E as <- <-|]. cbn [parse_options] in E.
  destruct (o =? 116).
  { destruct (c_atoi arg) as [n|]; [|done]. destruct ((n <? MIN_BUFSIZE) || (n >? MAX_BUFSIZE)) eqn:En; [done|].
    apply IH in E; [done|]. split; [|done]. simpl. lia. }
  destruct (o =? 108); [by apply IH in E|]. destruct (o =? 112); [|by destruct (o =? 104)].
  destruct (c_atoi arg) as [n|]; [|done]. destruct ((n <? MIN_NUMPROC) || (n >? MAX_NUMPROC)) eqn:En; [done|].
  apply IH in E; [done|]. split; [done|]. simpl. lia.
Qed.

Lemma tee_configuration_ok argv0 opts operands p c p' : init_configuration argv0 opts operands p = URet c p' ->
  p' = p /\ conf_ok c /\ input_files c = operands /\ log_file c <> None.
Proof.
  unfold init_configuration. intros E. apply ubind_inv in E as (c1 & p1 & E1 & E). apply parse_options_ok in E1 as [-> Hc]; [|done].
  destruct (bool_decide _) eqn:El; [done|]. destruct (_ <? MIN_INPUT_FILES); [done|]. destruct (_ >? MAX_INPUT_FILES); [done|].
  injection E as <- <-. simpl. apply bool_decide_eq_false in El. done.
Qed.

Ltac mt_norm := cbv beta iota delta [set_t_px set_t_fds set_t_pipes set_t_kids set_t_waited
  t_px t_fds t_pipes t_kids t_waited t_nofork t_nopipe t_noexec fst snd] in *.

Lemma merge_tee_exec_run c q m : conf_ok c -> standard m ->
  merge_tee_exec c (mkMt q m 0 [] 0 [] [] []) = URet tt (mkMt q m 2
      [KExec MERGE_FILES ((Some <$> MERGE_FILES :: ARGV_BUFSIZE :: c_decimal (bufsize c) :: input_files c) ++ [None])
         (<[STDOUT_FILENO := WrEnd 0]> m);
       KExec TEE [Some TEE; log_file c; None] (<[STDIN_FILENO := RdEnd 0]> (<[STDOUT_FILENO := WrEnd 1]> m));
       KExec EXEC_LINES [Some EXEC_LINES; Some ARGV_NUMPROC; Some (c_decimal (numproc c)); None]
         (<[STDIN_FILENO := RdEnd 1]> m)] 3 [] [] []).
Proof.
  intros [Hb Hn] Hm. unfold MIN_BUFSIZE, MAX_BUFSIZE, MIN_NUMPROC, MAX_NUMPROC, STDIN_FILENO, STDOUT_FILENO in *.
  unfold merge_tee_exec.
  destruct (make_pipe_run (mkMt q m 0 [] 0 [] [] [])) as (r & w & Hr & Hw & Hne & Hfr & Hfw & E1); [done|done|]. mt_norm. ustep E1.
  erewrite ubind_Ret; [|eapply merge_files_run; [done|fd_find..|lia]]. mt_norm.
  match goal with |- context [ubind make_pipe _ ?s] => destruct (make_pipe_run s) as (r' & w' & Hr' & Hw' & Hne' & Hfr' & Hfw' & E2) end;
    [done|by do 2 apply table_insert|]. mt_norm.
  assert (r <> r' /\ w <> r' /\ r <> w' /\ w <> w') as (? & ? & ? & ?).
  { split_and!; intros ->; rewrite ?lookup_insert_eq in *; try done; rewrite lookup_insert_ne, lookup_insert_eq in * by done; done. }
  rewrite !lookup_insert_ne in Hfr', Hfw' by done. ustep E2.
  erewrite ubind_Ret; [|eapply tee_run; [done|fd_find..| |]].
  2: { rewrite !NoDup_cons, !not_elem_of_cons. split_and!; try done; try apply not_elem_of_nil. by apply NoDup_nil. }
  2: { by repeat constructor. }
  mt_norm. do 2 (erewrite ubind_Ret; [|eapply close_run; fd_find]; mt_norm).
  erewrite ubind_Ret; [|eapply exec_lines_run; [done|fd_find..|lia]]. mt_norm.
  do 2 (erewrite ubind_Ret; [|eapply close_run; fd_find]; mt_norm).
  unfold TOTAL_PROGRAMS. rewrite wait_for_run by (cbn; lia). mt_norm. cbn [app Nat.add].
  f_equal. f_equal.
  - fds_eq.
  - do 2 (f_equal; [f_equal; fds_eq|]). do 2 f_equal. fds_eq.
Qed.

(** C21. merge_tee_exec builds the pipeline.  When its options are accepted and the calls succeed, it
    starts merge_files, tee and exec_lines with these arguments, each with the
    descriptors it was started with except that the output of merge_files is the first
    pipe, the input and output of tee are the first and the second pipe, and the input of
    exec_lines is the second pipe; no other process, itself included, keeps an end of a pipe,
    so that each reader sees the end of its input when its writer ends.  It waits for the
    three.  merge_files and exec_lines accept the options they are given, with the
    same values. *)
Theorem merge_tee_exec_wires argv0 opts operands s c p m :
  init_configuration argv0 opts operands (t_px s) = URet c p ->
  willing s -> standard m -> s = mkMt (t_px s) m 0 [] 0 (t_nofork s) (t_nopipe s) (t_noexec s) ->
  exists s' log, merge_tee_main argv0 opts operands s = UExit EXIT_SUCCESS s' /\ log_file c = Some log /\
    t_kids s' =
      [KExec MERGE_FILES ((Some <$> MERGE_FILES :: ARGV_BUFSIZE :: c_decimal (bufsize c) :: operands) ++ [None])
         (<[STDOUT_FILENO := WrEnd 0]> m);
       KExec TEE [Some TEE; Some log; None] (<[STDIN_FILENO := RdEnd 0]> (<[STDOUT_FILENO := WrEnd 1]> m));
       KExec EXEC_LINES [Some EXEC_LINES; Some ARGV_NUMPROC; Some (c_decimal (numproc c)); None]
         (<[STDIN_FILENO := RdEnd 1]> m)] /\
    t_fds s' = m /\ t_waited s' = 3%nat /\
    (forall a c0 w, MergeFiles.parse_options a [(116, c_decimal (bufsize c))] c0 w =
       URet (MergeFiles.mkConf (bufsize c) (cf_output c0) (cf_inputs c0)) w) /\
    (forall a n0 w, parse_args a [(112, c_decimal (numproc c))] n0 w = URet (numproc c) w).
Proof.
  intros Hi Hs Hm Es. destruct (tee_configuration_ok _ _ _ _ _ _ Hi) as (-> & [Hb Hn] & <- & Hlog).
  destruct (log_file c) as [log|] eqn:El; [|done]. unfold MIN_BUFSIZE, MAX_BUFSIZE, MIN_NUMPROC, MAX_NUMPROC in *.
  destruct Hs as (Hf & Hp & Hx). rewrite Hf, Hp, Hx in Es. clear Hf Hp Hx.
  set (q := t_px s) in *. clearbody q. subst s.
  unfold merge_tee_main. rewrite (ubind_Ret (lift _) _ _ c (mkMt q m 0 [] 0 [] [] [])) by (unfold lift; cbn; by rewrite Hi).
  rewrite (ubind_Ret _ _ _ _ _ (merge_tee_exec_run c q m (conj Hb Hn) Hm)). rewrite El.
  eexists _, log. split; [done|]. split_and!; try done.
  - intros a c0 v. simpl. rewrite (proj1 (c_atoi_decimal (bufsize c) ltac:(lia))).
    unfold MergeFiles.MIN_BUFSIZE, MergeFiles.MAX_BUFSIZE. by rewrite (proj2 (Z.ltb_ge _ _)), Z.gtb_ltb, (proj2 (Z.ltb_ge _ _)) by lia.
  - intros a n0 v. simpl. rewrite (proj1 (c_atoi_decimal (numproc c) ltac:(lia))).
    unfold ExecLines.MIN_NUMPROC, ExecLines.MAX_NUMPROC. by rewrite (proj2 (Z.ltb_ge _ _)), Z.gtb_ltb, (proj2 (Z.ltb_ge _ _)) by lia.
Qed.
End spec.
