(* ===== verification/Mkfs.v ===== *)
(** * mkfs (src/xv6/mkfs.c)

    Writes the initial file system into an image file.  mkfs runs on the host, so the
    arguments are read with the calls of [Posix]; the host is taken to be little-endian, as the
    machine is.  The image is a file of [mk_len] blocks: a read of a block beyond it delivers
    nothing, a write makes it longer.  A failed assert is a fault.  A struct dinode in memory
    is the record of its values; in a block it has the layout the kernel reads. *)
From Stdlib Require Import String.
From S2P Require Import Prelude Machine Disk Fs User Posix.

Definition NINODES : Z := 200.
Definition nbitmap : Z := FSSIZE / (BSIZE * 8) + 1.
Definition ninodeblocks : Z := NINODES / IPB + 1.
Definition nlog : Z := LOGSIZE.
Definition nmeta : Z := 2 + nlog + ninodeblocks + nbitmap.
Definition nblocks : Z := FSSIZE - nmeta.

Record mk := mkMk {
  mk_px : px;
  mk_disk : Z -> block;
  mk_len : Z;
  mk_freeinode : Z;
  mk_freeblock : Z;
  mk_sb : superblock;
}.
Definition set_mk_px (v : px) (s : mk) := mkMk v (mk_disk s) (mk_len s) (mk_freeinode s) (mk_freeblock s) (mk_sb s).
Definition set_mk_image (d : Z -> block) (n : Z) (s : mk) := mkMk (mk_px s) d n (mk_freeinode s) (mk_freeblock s) (mk_sb s).
Definition set_mk_freeinode (v : Z) (s : mk) := mkMk (mk_px s) (mk_disk s) (mk_len s) v (mk_freeblock s) (mk_sb s).
Definition set_mk_freeblock (v : Z) (s : mk) := mkMk (mk_px s) (mk_disk s) (mk_len s) (mk_freeinode s) v (mk_sb s).
Definition set_mk_sb (v : superblock) (s : mk) := mkMk (mk_px s) (mk_disk s) (mk_len s) (mk_freeinode s) (mk_freeblock s) v.
#[global] Instance mk_haspx : HasPx mk := {| get_px := mk_px; put_px := set_mk_px |}.

(** The bytes of a variable, assigned one by one, and its value on a little-endian host. *)
Definition xshort (x : Z) : Z := load16 (fun i => u8 (Z.shiftr x (8 * i))) 0.
Definition xint (x : Z) : Z := load32 (fun i => u8 (Z.shiftr x (8 * i))) 0.

Definition uassert (b : bool) : U mk unit := if b then uret tt else ufault.

Section mkfs.
Context `{ErrText}.

(** ** Blocks and inodes of the image *)

Definition wsect (sec : Z) (buf : block) : U mk unit :=
  umodify (fun s => set_mk_image (upd (mk_disk s) sec buf) (Z.max (mk_len s) (sec + 1)) s).

Definition rsect (sec : Z) : U mk block :=
  do s <- ugets id;
  if sec <? mk_len s then uret (mk_disk s sec) else lift (perror (str "read") ;; exit 1).

Definition winode (inum : Z) (ip : dinode) : U mk unit :=
  do sb <- ugets mk_sb;
  let bn := IBLOCK inum sb in
  do buf <- rsect bn;
  wsect bn (store_dinode buf (64 * (inum mod IPB)) ip).

Definition rinode (inum : Z) : U mk dinode :=
  do sb <- ugets mk_sb;
  do buf <- rsect (IBLOCK inum sb);
  uret (load_dinode buf (64 * (inum mod IPB))).

Definition ialloc (type : Z) : U mk Z :=
  do inum <- ugets mk_freeinode;
  umodify (fun s => set_mk_freeinode (u32 (mk_freeinode s + 1)) s) ;;
  winode inum (mkDinode (xshort type) 0 0 (xshort 1) (xint 0) (fun _ => 0)) ;;
  uret inum.

Definition balloc (used : Z) : U mk unit :=
  lift (fprint STDOUT_FILENO (str "balloc: first " ++ c_decimal used ++ str " blocks have been allocated" ++ [10])) ;;
  uassert (used <? BSIZE * 8) ;;
  let buf := foldl (fun buf i => upd buf (i / 8) (u8 (Z.lor (buf (i / 8)) (Z.shiftl 1 (i mod 8))))) (fun _ => 0) (seqZ 0 used) in
  do sb <- ugets mk_sb;
  lift (fprint STDOUT_FILENO (str "balloc: write bitmap block at sector " ++ c_decimal (sb_bmapstart sb) ++ [10])) ;;
  wsect (sb_bmapstart sb) buf.

(** ** Files *)

(** The value of freeblock++. *)
Definition take_freeblock : U mk Z :=
  do b <- ugets mk_freeblock;
  umodify (fun s => set_mk_freeblock (u32 (mk_freeblock s + 1)) s) ;;
  uret b.

Definition set_addr (i v : Z) (d : dinode) : dinode :=
  mkDinode (di_type d) (di_major d) (di_minor d) (di_nlink d) (di_size d) (upd (di_addrs d) i v).

(** din.addrs[i], given a block if it has none. *)
Definition need_addr (i : Z) (din : dinode) : U mk dinode :=
  if xint (di_addrs din i) =? 0 then do b <- take_freeblock; uret (set_addr i (xint b) din) else uret din.

(** The block of the file that holds file block [fbn]. *)
Definition file_block (fbn : Z) (din : dinode) : U mk (Z * dinode) :=
  if fbn <? NDIRECT then
    do din <- need_addr fbn din;
    uret (xint (di_addrs din fbn), din)
  else
    do din <- need_addr NDIRECT din;
    let ind := xint (di_addrs din NDIRECT) in
    do indirect <- rsect ind;
    do indirect <- (if load32 indirect (4 * (fbn - NDIRECT)) =? 0 then
                      do b <- take_freeblock;
                      let indirect := store32 indirect (4 * (fbn - NDIRECT)) (xint b) in
                      wsect ind indirect ;; uret indirect
                    else uret indirect);
    uret (xint (load32 indirect (4 * (fbn - NDIRECT))), din).

(** The while loop of iappend over the bytes [p] that remain; each turn copies at least one. *)
Fixpoint iappend_loop (fuel : nat) (din : dinode) (off : Z) (p : list Z) : U mk (dinode * Z) :=
  match fuel with
  | O => uspin
  | S f =>
    let n := Z.of_nat (length p) in
    if n >? 0 then
      let fbn := off / BSIZE in
      uassert (fbn <? MAXFILE) ;;
      do r <- file_block fbn din;
      let x := r.1 in
      let n1 := Z.min n ((fbn + 1) * BSIZE - off) in
      do buf <- rsect x;
      wsect x (blit buf (off - fbn * BSIZE) (take (Z.to_nat n1) p)) ;;
      iappend_loop f r.2 (u32 (off + n1)) (drop (Z.to_nat n1) p)
    else uret (din, off)
  end.

Definition set_size (v : Z) (d : dinode) : dinode :=
  mkDinode (di_type d) (di_major d) (di_minor d) (di_nlink d) v (di_addrs d).

Definition iappend (inum : Z) (p : list Z) : U mk unit :=
  do din <- rinode inum;
  do r <- iappend_loop (S (length p)) din (xint (di_size din)) p;
  winode inum (set_size (xint r.2) r.1).

(** ** main *)

(** basename of the C library: the last component of a path. *)
Fixpoint last_component (path cur : list Z) : list Z :=
  match path with
  | [] => cur
  | c :: path' =>
    if c =? 47 then (if bool_decide (Forall (fun d => d = 47) path') then cur else last_component path' [])
    else last_component path' (cur ++ [c])
  end.
Definition basename (path : list Z) : list Z :=
  match path with
  | [] => [46]
  | _ => if bool_decide (Forall (fun d => d = 47) path) then [47] else last_component path []
  end.

(** struct dirent: inum, then the name filled up with zeroes (strncpy with DIRSIZ). *)
Definition dirent (inum : Z) (name : list Z) : list Z :=
  [u8 (xshort inum); u8 (Z.shiftr (xshort inum) 8)] ++
  take (Z.to_nat DIRSIZ) name ++ replicate (Z.to_nat DIRSIZ - length name) 0.

(** while((cc = read(fd, buf, sizeof(buf))) > 0) iappend(inum, buf, cc); *)
Fixpoint copy_file (fuel : nat) (fd inum : Z) : U mk unit :=
  match fuel with
  | O => uspin
  | S f =>
    do r <- lift (sys_read fd (Z.to_nat BSIZE));
    if r.1 >? 0 then iappend inum r.2 ;; copy_file f fd inum else uret tt
  end.

Definition add_file (rootino : Z) (path : list Z) : U mk unit :=
  do fd <- lift (sys_open_read path);
  if fd <? 0 then lift (perror path ;; exit 1) else
  do inum <- ialloc T_FILE;
  iappend rootino (dirent inum (basename path)) ;;
  do fuel <- ugets (fun s => S (length (s_bytes (x_in (mk_px s) fd))));
  copy_file fuel fd inum ;;
  do _ <- lift (sys_close fd);
  uret tt.

(** The super block in the bytes of its block. *)
Definition sb_block (sb : superblock) : block :=
  foldl (fun d '(i, v) => store32 d (4 * i) v) (fun _ => 0)
    [(0, sb_size sb); (1, sb_nblocks sb); (2, sb_ninodes sb); (3, sb_nlog sb); (4, sb_logstart sb);
     (5, sb_inodestart sb); (6, sb_bmapstart sb)].

Definition mkfs_sb : superblock :=
  mkSb (xint FSSIZE) (xint nblocks) (xint NINODES) (xint nlog) (xint 2) (xint (2 + nlog)) (xint (2 + nlog + ninodeblocks)).

(** main once the image is open (created and empty), with the other arguments. *)
Definition build (files : list (list Z)) : U mk unit :=
  umodify (set_mk_sb mkfs_sb) ;;
  lift (fprint STDOUT_FILENO (str "nmeta " ++ c_decimal nmeta ++ str " (boot, super, log blocks " ++ c_decimal nlog ++
    str " inode blocks " ++ c_decimal ninodeblocks ++ str ", bitmap blocks " ++ c_decimal nbitmap ++ str ") blocks " ++
    c_decimal nblocks ++ str " total " ++ c_decimal FSSIZE ++ [10])) ;;
  umodify (set_mk_freeblock nmeta) ;;
  uforeach (seqZ 0 FSSIZE) (fun i => wsect i (fun _ => 0)) ;;
  wsect 1 (sb_block mkfs_sb) ;;
  do rootino <- ialloc T_DIR;
  uassert (rootino =? ROOTINO) ;;
  iappend rootino (dirent rootino [46]) ;;
  iappend rootino (dirent rootino [46; 46]) ;;
  uforeach files (add_file rootino) ;;
  do din <- rinode rootino;
  let off := xint (di_size din) in
  let off := u32 ((off / BSIZE + 1) * BSIZE) in
  winode rootino (set_size (xint off) din) ;;
  do used <- ugets mk_freeblock;
  balloc used ;;
  exit 0.

(** [can_open]: whether the image argv[1] opens for writing. *)
Definition mkfs_main (can_open : list Z -> bool) (args : list (list Z)) : U mk unit :=
  match args with
  | [] => lift (fprint STDERR_FILENO (str "Usage: mkfs fs.img files..." ++ [10])) ;; exit 1
  | image :: files =>
    uassert ((BSIZE mod 64 =? 0) && (BSIZE mod 16 =? 0)) ;;
    if can_open image then build files else lift (perror image) ;; exit 1
  end.
End mkfs.
