(* ===== verification/MkfsSpec.v ===== *)
(** * Files in the image of mkfs

    The blocks of the files, which are disjoint and
    outside the meta blocks; and that iappend appends to the contents of one file. *)
From S2P Require Import Prelude Machine Disk Fs Dinode User Posix Mkfs.

(** ** Numbers in the byte order of the disk *)

Lemma xint_u32 x : xint x = u32 x.
Proof.
  unfold xint. rewrite <- (load32_store32_eq (fun _ => 0) 0 x). apply load32_ext. intros b Hb.
  unfold store32. by rewrite decide_True, Z.sub_0_r by lia.
Qed.

Lemma xshort_u16 x : xshort x = u16 x.
Proof.
  unfold xshort. rewrite <- (load16_store16_eq (fun _ => 0) 0 x). apply load16_ext; unfold store16; by rewrite decide_True by lia.
Qed.

(** The constants as numbers. *)
Ltac mkc := change nmeta with 59 in *; change FSSIZE with 1000 in *; change MAXFILE with 140 in *; change NDIRECT with 12 in *;
  change BSIZE with 512 in *; change NINODES with 200 in *; change (2 ^ 32) with 4294967296 in *.

(** ** The image *)

Lemma sb_inodestart_mkfs : sb_inodestart mkfs_sb = 32.
Proof. done. Qed.

(** The inode [i] of an image. *)
Definition view (D : Z -> block) (i : Z) : dinode := load_dinode (D (IBLOCK i mkfs_sb)) (64 * (i mod IPB)).

(** The block of slot [k] of inode [i]: the file blocks, and the block of addresses as slot -1. *)
Definition slot (D : Z -> block) (V : Z -> dinode) (i k : Z) : Z :=
  if k =? -1 then di_addrs (V i) NDIRECT
  else if k <? NDIRECT then di_addrs (V i) k
  else if di_addrs (V i) NDIRECT =? 0 then 0 else load32 (D (di_addrs (V i) NDIRECT)) (4 * (k - NDIRECT)).

Definition slot_ok (k : Z) : Prop := -1 <= k < MAXFILE.

(** Blocks in use are below [fb], above the meta blocks, and belong to one slot of one inode. *)
Record blocks_ok (D : Z -> block) (V : Z -> dinode) (fi fb : Z) : Prop := {
  bo_fb : nmeta <= fb <= FSSIZE;
  bo_range : forall i k, 1 <= i < fi -> slot_ok k -> slot D V i k = 0 \/ nmeta <= slot D V i k < fb;
  bo_inj : forall i k j l, 1 <= i < fi -> 1 <= j < fi -> slot_ok k -> slot_ok l ->
    slot D V i k = slot D V j l -> slot D V i k <> 0 -> i = j /\ k = l;
  bo_zero : forall b o, fb <= b -> D b o = 0;
}.

Lemma IBLOCK_range i : 1 <= i <= NINODES -> IBLOCK i mkfs_sb = 32 + i / 8 /\ 32 <= IBLOCK i mkfs_sb < nmeta.
Proof.
  unfold IBLOCK, NINODES. rewrite sb_inodestart_mkfs. change IPB with 8. change nmeta with 59. intros Hi.
  rewrite u32_small; Z.div_mod_to_equations; lia.
Qed.

(** A free slot gets the next block. *)
Lemma blocks_ok_alloc D V D' V' fi fb i0 k : blocks_ok D V fi fb -> 1 <= i0 < fi -> slot_ok k -> slot D V i0 k = 0 ->
  (forall i l, 1 <= i < fi -> slot_ok l -> slot D' V' i l = if decide (i = i0 /\ l = k) then fb else slot D V i l) ->
  (forall b o, fb + 1 <= b -> D' b o = 0) -> fb + 1 <= FSSIZE -> blocks_ok D' V' fi (fb + 1).
Proof.
  intros [Hf Hr Hi Hz] Hi0 Hk H0 Hs Hz' Hfull. assert (0 < nmeta) by done. split; [lia| | |done].
  - intros i l Hi1 Hl. rewrite Hs by done. case_decide; [lia|]. specialize (Hr i l Hi1 Hl). lia.
  - intros i l j m Hi1 Hj1 Hl Hm. rewrite !Hs by done. pose proof (Hr i l Hi1 Hl). pose proof (Hr j m Hj1 Hm).
    repeat case_decide; try lia. by apply Hi.
Qed.

Lemma slot_set_addr D V i0 k b i l : 0 <= k < NDIRECT -> slot_ok l ->
  slot D (upd V i0 (set_addr k b (V i0))) i l = if decide (i = i0 /\ l = k) then b else slot D V i l.
Proof.
  intros Hk Hl. unfold slot, slot_ok in *. rewrite upd_case. destruct (decide (i0 = i)) as [<-|Hne].
  2: { by rewrite decide_False by lia. }
  simpl. rewrite (upd_ne _ k NDIRECT) by lia. rewrite upd_case.
  destruct (decide (i0 = i0 /\ l = k)) as [[_ ->]|Hn].
  - rewrite (proj2 (Z.eqb_neq k (-1))), (proj2 (Z.ltb_lt k NDIRECT)), decide_True by lia. done.
  - by rewrite (decide_False (P := k = l)) by (intros ->; tauto).
Qed.

Lemma slot_set_indirect D V i0 b i l : slot_ok l -> di_addrs (V i0) NDIRECT = 0 -> b <> 0 -> (forall o, D b o = 0) ->
  slot D (upd V i0 (set_addr NDIRECT b (V i0))) i l = if decide (i = i0 /\ l = -1) then b else slot D V i l.
Proof.
  intros Hl H0 Hb Hz. unfold slot, slot_ok in *. rewrite upd_case. destruct (decide (i0 = i)) as [<-|Hne].
  2: { by rewrite decide_False by lia. }
  simpl. rewrite upd_eq. destruct (l =? -1) eqn:El; bool_to_prop; [by rewrite decide_True|].
  rewrite decide_False by lia. destruct (l <? NDIRECT) eqn:Ed; bool_to_prop; [by rewrite upd_ne by lia|].
  rewrite H0. rewrite (proj2 (Z.eqb_neq b 0)) by done. simpl. unfold load32. rewrite !Hz. done.
Qed.

Lemma slot_set_entry D V fi fb i0 k v i l : blocks_ok D V fi fb -> 1 <= i0 < fi -> 1 <= i < fi -> slot_ok l ->
  NDIRECT <= k < MAXFILE -> slot D V i0 (-1) <> 0 -> 0 <= v < 2 ^ 32 ->
  let ib := slot D V i0 (-1) in
  slot (upd D ib (store32 (D ib) (4 * (k - NDIRECT)) v)) V i l = if decide (i = i0 /\ l = k) then v else slot D V i l.
Proof.
  intros Hok Hi0 Hi Hl Hk Hib Hv ib. unfold slot at 1 2. destruct (l =? -1) eqn:El; bool_to_prop; [by rewrite decide_False by (unfold NDIRECT in *; lia)|].
  destruct (l <? NDIRECT) eqn:Ed; bool_to_prop; [by rewrite decide_False by lia|].
  destruct (di_addrs (V i) NDIRECT =? 0) eqn:E0; bool_to_prop.
  { rewrite decide_False; [done|]. intros [-> _]. done. }
  destruct (decide (i = i0)) as [->|Hne].
  - change (di_addrs (V i0) NDIRECT) with ib. rewrite upd_eq. destruct (decide (l = k)) as [->|Hlk].
    + rewrite decide_True by done. by rewrite load32_store32_eq, u32_small.
    + rewrite decide_False by tauto. by rewrite load32_store32_ne by lia.
  - rewrite decide_False by tauto. rewrite upd_ne; [done|]. intros Heq.
    destruct (bo_inj _ _ _ _ Hok i0 (-1) i (-1)) as [? _]; unfold slot_ok; try done.
Qed.

(** ** Running *)

Section spec.
Context `{ErrText}.

(** The state with another image and another first free block. *)
Definition alter (D : Z -> block) (fb : Z) (s : mk) : mk := mkMk (mk_px s) D (mk_len s) (mk_freeinode s) fb (mk_sb s).

Lemma rsect_run s b : b < mk_len s -> rsect b s = URet (mk_disk s b) s.
Proof. intros Hb. unfold rsect, ubind, ugets, id. by rewrite (proj2 (Z.ltb_lt _ _)). Qed.

Lemma wsect_run s b x : b < mk_len s -> wsect b x s = URet tt (alter (upd (mk_disk s) b x) (mk_freeblock s) s).
Proof. intros Hb. unfold wsect, umodify, set_mk_image, alter. by rewrite Z.max_l by lia. Qed.

Lemma take_freeblock_run s : 0 <= mk_freeblock s < FSSIZE ->
  take_freeblock s = URet (mk_freeblock s) (alter (mk_disk s) (mk_freeblock s + 1) s).
Proof.
  intros Hb. unfold FSSIZE in Hb. unfold take_freeblock, ubind, ugets, umodify, uret, set_mk_freeblock, alter.
  by rewrite u32_small by lia.
Qed.

(** The blocks that [file_block] takes: one for the addresses, one for the data. *)
Definition takes (D : Z -> block) (V : Z -> dinode) (i k : Z) : Z := if slot D V i k =? 0 then 1 else 0.

Lemma addrs_range D V fi fb i k : blocks_ok D V fi fb -> 1 <= i < fi -> 0 <= k <= NDIRECT -> 0 <= di_addrs (V i) k < 2 ^ 32.
Proof.
  intros Hok Hi Hk. pose proof (bo_fb _ _ _ _ Hok) as Hf. pose proof (bo_range _ _ _ _ Hok i (if decide (k = NDIRECT) then -1 else k) Hi) as Hr.
  unfold slot_ok, slot in Hr. mkc. case_decide as Ek; [subst k; simpl in Hr; lia|].
  rewrite (proj2 (Z.eqb_neq k (-1))), (proj2 (Z.ltb_lt k 12)) in Hr by lia. lia.
Qed.

Lemma need_addr_run D V fi fb i0 k s : blocks_ok D V fi fb -> mk_freeblock s = fb -> 1 <= i0 < fi -> 0 <= k <= NDIRECT ->
  let d := di_addrs (V i0) k in (d = 0 -> fb < FSSIZE) ->
  need_addr k (V i0) s = if d =? 0 then URet (set_addr k fb (V i0)) (alter (mk_disk s) (fb + 1) s) else URet (V i0) s.
Proof.
  intros Hok Hfb Hi0 Hk d Hroom. unfold need_addr. fold d.
  pose proof (addrs_range D V fi fb i0 k Hok Hi0 Hk) as Hd. fold d in Hd.
  rewrite xint_u32, u32_small by done. destruct (d =? 0) eqn:E; bool_to_prop; [|done].
  pose proof (bo_fb _ _ _ _ Hok) as Hf. assert (0 < nmeta) by done.
  rewrite (ubind_Ret _ _ _ _ _ (take_freeblock_run s ltac:(rewrite Hfb; specialize (Hroom E); lia))). rewrite Hfb, xint_u32, u32_small; [done|].
  specialize (Hroom E). mkc. lia.
Qed.

Definition same_fields (a b : dinode) : Prop :=
  di_type a = di_type b /\ di_major a = di_major b /\ di_minor a = di_minor b /\ di_nlink a = di_nlink b /\ di_size a = di_size b.

Lemma alter_id s : alter (mk_disk s) (mk_freeblock s) s = s.
Proof. by destruct s. Qed.

(** The slot that [need_addr k] fills. *)
Definition addr_slot (k : Z) : Z := if decide (k = NDIRECT) then -1 else k.

Lemma addr_step D V fi fb i0 k s : blocks_ok D V fi fb -> mk_disk s = D -> mk_freeblock s = fb -> 1 <= i0 < fi ->
  0 <= k <= NDIRECT -> let t := takes D V i0 (addr_slot k) in fb + t <= FSSIZE ->
  exists din, let V' := upd V i0 din in need_addr k (V i0) s = URet din (alter D (fb + t) s) /\ same_fields din (V i0) /\
    blocks_ok D V' fi (fb + t) /\ slot D V' i0 (addr_slot k) = di_addrs din k /\ slot D V' i0 (addr_slot k) <> 0 /\
    (forall i l, slot_ok l -> slot D V' i l = if decide (i = i0 /\ l = addr_slot k /\ t = 1) then fb else slot D V i l).
Proof.
  intros Hok HD Hfb Hi0 Hk t Hroom.
  assert (slot_ok (addr_slot k)) as Hsk by (unfold slot_ok, addr_slot; mkc; case_decide; lia).
  assert (slot D V i0 (addr_slot k) = di_addrs (V i0) k) as Hs.
  { unfold slot, addr_slot. mkc. case_decide; [by subst k|]. by rewrite (proj2 (Z.eqb_neq k (-1))), (proj2 (Z.ltb_lt k 12)) by lia. }
  pose proof (bo_fb _ _ _ _ Hok) as Hf. subst t. unfold takes in *. rewrite Hs in *.
  rewrite (need_addr_run D V fi fb i0 k s Hok Hfb Hi0 Hk) by (intros E; rewrite E in Hroom; simpl in Hroom; mkc; lia).
  destruct (di_addrs (V i0) k =? 0) eqn:E; bool_to_prop.
  - exists (set_addr k fb (V i0)). rewrite HD.
    assert (forall i l, slot_ok l -> slot D (upd V i0 (set_addr k fb (V i0))) i l = if decide (i = i0 /\ l = addr_slot k) then fb else slot D V i l) as Hsl.
    { intros i l Hl. unfold addr_slot. destruct (decide (k = NDIRECT)) as [->|Hne].
      - apply slot_set_indirect; [done|done|mkc; lia|]. intros o. by apply (bo_zero _ _ _ _ Hok).
      - apply slot_set_addr; [mkc; lia|done]. }
    assert (slot D (upd V i0 (set_addr k fb (V i0))) i0 (addr_slot k) = fb) as Hnew by (rewrite Hsl by done; by rewrite decide_True).
    split_and!; try done.
    + apply (blocks_ok_alloc D V D _ fi fb i0 (addr_slot k)); [done|done|done|congruence|auto| |lia].
      intros b o Hb. apply (bo_zero _ _ _ _ Hok). lia.
    + rewrite Hnew. simpl. by rewrite upd_eq.
    + rewrite Hnew. mkc. lia.
    + intros i l Hl. rewrite Hsl by done. repeat case_decide; tauto.
  - exists (V i0). rewrite Z.add_0_r, upd_id by done. subst fb D. rewrite alter_id. split_and!; try done; [congruence|].
    intros i l Hl. rewrite decide_False by lia. done.
Qed.

(** An entry of the block of addresses. *)
Lemma entry_step D V fi fb i0 k s : blocks_ok D V fi fb -> mk_disk s = D -> mk_freeblock s = fb -> mk_len s = FSSIZE -> 1 <= i0 < fi ->
  NDIRECT <= k < MAXFILE -> slot D V i0 (-1) <> 0 -> let t := takes D V i0 k in fb + t <= FSSIZE ->
  let ib := slot D V i0 (-1) in let o := 4 * (k - NDIRECT) in
  exists D', (do indirect <- (if load32 (D ib) o =? 0 then
                 do b <- take_freeblock;
                 let indirect := store32 (D ib) o (xint b) in wsect ib indirect ;; uret indirect
               else uret (D ib));
              uret (xint (load32 indirect o), V i0)) s = URet (slot D' V i0 k, V i0) (alter D' (fb + t) s) /\
    blocks_ok D' V fi (fb + t) /\ slot D' V i0 k <> 0 /\ (forall b, b <> ib -> D' b = D b) /\
    (forall i l, 1 <= i < fi -> slot_ok l -> slot D' V i l = if decide (i = i0 /\ l = k /\ t = 1) then fb else slot D V i l).
Proof.
  intros Hok HD Hfb Hlen Hi0 Hk Hib t Hroom ib o. pose proof (bo_fb _ _ _ _ Hok) as Hf.
  assert (slot_ok k) as Hsk by (unfold slot_ok; mkc; lia).
  assert (slot D V i0 k = load32 (D ib) o) as Hs.
  { unfold slot. mkc. rewrite (proj2 (Z.eqb_neq k (-1))), (proj2 (Z.ltb_ge k 12)) by lia.
    change (di_addrs (V i0) 12) with ib. by rewrite (proj2 (Z.eqb_neq ib 0)). }
  assert (nmeta <= ib < fb) as Hibr by (destruct (bo_range _ _ _ _ Hok i0 (-1)); [done|unfold slot_ok; mkc; lia|done|done]).
  pose proof (load32_range (D ib) o) as Hl. subst t. unfold takes in *. rewrite Hs in *. destruct (load32 (D ib) o =? 0) eqn:E; bool_to_prop.
  - rewrite !ubind_assoc. rewrite (ubind_Ret _ _ _ _ _ (take_freeblock_run s ltac:(mkc; lia))). rewrite Hfb, HD.
    rewrite xint_u32, u32_small by (mkc; lia). rewrite ubind_assoc.
    rewrite (ubind_Ret _ _ _ _ _ (wsect_run (alter D (fb + 1) s) ib _ ltac:(simpl; mkc; lia))).
    set (D' := upd D ib (store32 (D ib) o fb)). exists D'.
    assert (forall i l, 1 <= i < fi -> slot_ok l -> slot D' V i l = if decide (i = i0 /\ l = k) then fb else slot D V i l) as Hsl.
    { intros i l Hi Hll. apply (slot_set_entry D V fi fb); try done. mkc. lia. }
    assert (slot D' V i0 k = fb) as Hnew by (rewrite Hsl by done; by rewrite decide_True).
    split_and!.
    + unfold ubind, uret. rewrite Hnew, load32_store32_eq, u32_small, xint_u32, u32_small by (mkc; lia). done.
    + apply (blocks_ok_alloc D V D' V fi fb i0 k); [done|done|done|congruence|done| |lia].
      intros b o' Hb. unfold D'. rewrite upd_ne by lia. apply (bo_zero _ _ _ _ Hok). lia.
    + rewrite Hnew. mkc. lia.
    + intros b Hb. unfold D'. by rewrite upd_ne.
    + intros i l Hi Hll. rewrite Hsl by done. repeat case_decide; tauto.
  - exists D. rewrite Z.add_0_r. unfold ubind, uret. rewrite xint_u32, u32_small, Hs by done. subst D fb. rewrite alter_id.
    split_and!; try done. intros i l Hi Hll. rewrite decide_False by lia. done.
Qed.

(** What a turn takes for file block [k]. *)
Definition takes_for (D : Z -> block) (V : Z -> dinode) (i k : Z) : Z :=
  takes D V i k + if k <? NDIRECT then 0 else takes D V i (-1).

Lemma file_block_run D V fi fb i0 k s : blocks_ok D V fi fb -> mk_disk s = D -> mk_freeblock s = fb -> mk_len s = FSSIZE ->
  1 <= i0 < fi -> 0 <= k < MAXFILE -> let t := takes_for D V i0 k in fb + t <= FSSIZE ->
  exists D' din, let V' := upd V i0 din in
    file_block k (V i0) s = URet (slot D' V' i0 k, din) (alter D' (fb + t) s) /\ same_fields din (V i0) /\
    blocks_ok D' V' fi (fb + t) /\ slot D' V' i0 k <> 0 /\
    (forall b, slot D' V' i0 (-1) = 0 \/ b <> slot D' V' i0 (-1) -> D' b = D b) /\ (NDIRECT <= k -> slot D' V' i0 (-1) <> 0) /\
    (forall i l, 1 <= i < fi -> slot_ok l -> slot D V i l <> 0 \/ ~ (i = i0 /\ (l = k \/ l = -1 /\ NDIRECT <= k)) ->
       slot D' V' i l = slot D V i l).
Proof.
  intros Hok HD Hfb Hlen Hi0 Hk t Hroom. unfold takes_for in *. unfold file_block.
  assert (0 <= takes D V i0 k <= 1) as Htk by (unfold takes; case_match; lia).
  destruct (k <? NDIRECT) eqn:Ek; bool_to_prop.
  - assert (addr_slot k = k) as Ea by (unfold addr_slot; rewrite decide_False by lia; done).
    destruct (addr_step D V fi fb i0 k s Hok HD Hfb Hi0 ltac:(lia)) as (din & E & Hsf & Hok' & Hs1 & Hs2 & Hs3); [rewrite Ea; lia|].
    rewrite Ea in *. ustep E. subst t. rewrite Z.add_0_r in *. exists D, din. unfold uret. split_and!; try done.
    + rewrite <- Hs1, xint_u32, u32_small; [done|]. pose proof (bo_fb _ _ _ _ Hok'). pose proof (bo_range _ _ _ _ Hok' i0 k Hi0 ltac:(unfold slot_ok; mkc; lia)). mkc. lia.
    + mkc. lia.
    + intros i l Hi Hl Hor. rewrite Hs3 by done. rewrite decide_False; [done|]. intros (-> & -> & Ht). unfold takes in Ht.
      destruct (slot D V i0 k =? 0) eqn:E0; bool_to_prop; [|lia]. destruct Hor as [?|Hor]; [done|]. apply Hor. tauto.
  - assert (0 <= takes D V i0 (-1) <= 1) as Ht1 by (unfold takes; case_match; lia).
    destruct (addr_step D V fi fb i0 NDIRECT s Hok HD Hfb Hi0 ltac:(mkc; lia)) as (din & E & Hsf & Hok1 & Hs1 & Hs2 & Hs3);
      change (addr_slot NDIRECT) with (-1) in *; [lia|]. ustep E.
    set (V1 := upd V i0 din) in *. set (fb1 := fb + takes D V i0 (-1)) in *. set (s1 := alter D fb1 s).
    assert (V1 i0 = din) as HV1 by (unfold V1; by rewrite upd_eq). assert (slot_ok (-1)) as Hm1 by (unfold slot_ok; mkc; lia).
    pose proof (bo_fb _ _ _ _ Hok1) as Hf1. destruct (bo_range _ _ _ _ Hok1 i0 (-1) Hi0 Hm1) as [?|Hr1]; [done|].
    rewrite <- Hs1, xint_u32, u32_small by (mkc; lia).
    rewrite (ubind_Ret _ _ s1 _ s1 (rsect_run s1 (slot D V1 i0 (-1)) ltac:(simpl; rewrite Hlen; mkc; lia))).
    assert (slot_ok k) as Hsk by (unfold slot_ok; mkc; lia).
    assert (takes D V1 i0 k = takes D V i0 k) as Htk' by (unfold takes; rewrite Hs3 by done; by rewrite decide_False by (mkc; lia)).
    destruct (entry_step D V1 fi fb1 i0 k s1 Hok1 eq_refl eq_refl Hlen Hi0 ltac:(lia) Hs2) as (D' & E2 & Hok2 & Hs4 & HD' & Hs5);
      [rewrite Htk'; lia|].
    rewrite HV1, Htk' in *. replace (fb + t) with (fb1 + takes D V i0 k) by (subst t fb1; lia).
    exists D', din. fold V1. assert (slot D' V1 i0 (-1) = slot D V1 i0 (-1)) as Hsm
      by (rewrite Hs5 by done; by rewrite decide_False by (mkc; lia)).
    rewrite Hsm. split_and!; try done; [intros b [?|Hb]; [done|by apply HD']|]. intros i l Hi Hl Hor. rewrite Hs5, Hs3 by done.
    rewrite !decide_False; [done|..]; intros (-> & -> & Ht); unfold takes in Ht.
    + destruct (slot D V i0 (-1) =? 0) eqn:E0; bool_to_prop; [|lia]. destruct Hor as [?|Hor]; [done|]. apply Hor. tauto.
    + destruct (slot D V i0 k =? 0) eqn:E0; bool_to_prop; [|lia]. destruct Hor as [?|Hor]; [done|]. apply Hor. tauto.
Qed.

(** ** Contents *)

(** The first [n] bytes of inode [i]. *)
Definition bytes (D : Z -> block) (V : Z -> dinode) (i n : Z) : list Z :=
  (fun o => D (slot D V i (o / BSIZE)) (o mod BSIZE)) <$> seqZ 0 n.

(** Inode [i] has exactly the blocks for [n] bytes. *)
Definition filled (D : Z -> block) (V : Z -> dinode) (i n : Z) : Prop :=
  (forall k, 0 <= k < MAXFILE -> slot D V i k <> 0 <-> k * BSIZE < n) /\ (slot D V i (-1) <> 0 <-> NDIRECT * BSIZE < n).

Definition cost (n : Z) : Z := (n + 511) / BSIZE + if NDIRECT * BSIZE <? n then 1 else 0.

(** A file that another one's growth leaves alone. *)
Definition untouched (D : Z -> block) (V : Z -> dinode) (D' : Z -> block) (V' : Z -> dinode) (i : Z) : Prop :=
  (forall k, slot_ok k -> slot D' V' i k = slot D V i k) /\
  (forall k, 0 <= k < MAXFILE -> slot D V i k <> 0 -> D' (slot D V i k) = D (slot D V i k)).

Lemma slot_data D V fi fb i0 k b i l : blocks_ok D V fi fb -> 1 <= i0 < fi -> 1 <= i < fi -> 0 <= k < MAXFILE -> slot D V i0 k <> 0 ->
  slot (upd D (slot D V i0 k) b) V i l = slot D V i l.
Proof.
  intros Hok Hi0 Hi Hk Hx. set (x := slot D V i0 k). unfold slot at 1 2. destruct (l =? -1); [done|]. destruct (l <? NDIRECT); [done|].
  destruct (di_addrs (V i) NDIRECT =? 0) eqn:E; bool_to_prop; [done|]. rewrite upd_ne; [done|]. intros Heq.
  destruct (bo_inj _ _ _ _ Hok i0 k i (-1)) as [_ ?]; unfold slot_ok; try done; mkc; lia.
Qed.

Lemma blocks_ok_data D V fi fb i0 k b : blocks_ok D V fi fb -> 1 <= i0 < fi -> 0 <= k < MAXFILE -> slot D V i0 k <> 0 ->
  blocks_ok (upd D (slot D V i0 k) b) V fi fb.
Proof.
  intros Hok Hi0 Hk Hx. assert (forall i l, 1 <= i < fi -> slot (upd D (slot D V i0 k) b) V i l = slot D V i l) as Hs
    by (intros; by eapply slot_data).
  assert (slot D V i0 k < fb) as Hlt by (destruct (bo_range _ _ _ _ Hok i0 k Hi0); [unfold slot_ok; lia|done|lia]).
  destruct Hok as [Hf Hr Hi Hz]. split; [done| | |].
  - intros i l Hi1 Hl. rewrite Hs by done. by apply Hr.
  - intros i l j m Hi1 Hj1 Hl Hm. rewrite !Hs by done. by apply Hi.
  - intros y o Hy. rewrite upd_ne by lia. by apply Hz.
Qed.

Lemma takes_filled D V i n k : filled D V i n -> 0 <= k < MAXFILE -> 0 <= n -> k = n / BSIZE ->
  forall m, n < m <= (k + 1) * BSIZE -> takes_for D V i k = cost m - cost n.
Proof.
  intros [Hf Hm] Hk Hn Ek m Hm1. unfold takes_for, takes, cost. specialize (Hf k Hk).
  destruct (slot D V i k =? 0) eqn:E1; destruct (k <? NDIRECT) eqn:E2; destruct (slot D V i (-1) =? 0) eqn:E3;
    destruct (NDIRECT * BSIZE <? m) eqn:E4; destruct (NDIRECT * BSIZE <? n) eqn:E5; bool_to_prop; mkc; Z.div_mod_to_equations; lia.
Qed.

(** The bytes [c] have been added to inode [i0] after its first [off] bytes. *)
Record appended (fi i0 : Z) (D : Z -> block) (V : Z -> dinode) (fb : Z) (D' : Z -> block) (din : dinode) (fb' off : Z) (c : list Z) : Prop := {
  ap_ok : blocks_ok D' (upd V i0 din) fi fb';
  ap_fb : fb' = fb + cost (off + Z.of_nat (length c)) - cost off;
  ap_fields : same_fields din (V i0);
  ap_filled : filled D' (upd V i0 din) i0 (off + Z.of_nat (length c));
  ap_bytes : bytes D' (upd V i0 din) i0 (off + Z.of_nat (length c)) = bytes D V i0 off ++ c;
  ap_other : forall i, 1 <= i < fi -> i <> i0 -> untouched D V D' (upd V i0 din) i;
  ap_meta : forall b, b < nmeta -> D' b = D b;
}.

Lemma bytes_app D V i m n : 0 <= m -> 0 <= n ->
  bytes D V i (m + n) = bytes D V i m ++ ((fun o => D (slot D V i (o / BSIZE)) (o mod BSIZE)) <$> seqZ m n).
Proof. intros Hm Hn. unfold bytes. rewrite (seqZ_app 0 m n), fmap_app by done. done. Qed.

Lemma data_slot j : 0 <= j < MAXFILE -> slot_ok j.
Proof. unfold slot_ok. lia. Qed.

Lemma minus_slot : slot_ok (-1).
Proof. unfold slot_ok. mkc. lia. Qed.

(** One write, of at most the rest of a block. *)
Section append_write.
Context (fi i0 : Z) (D : Z -> block) (V : Z -> dinode) (fb : Z) (D1 : Z -> block) (din : dinode) (fb1 off : Z) (c : list Z).
Let k := off / BSIZE.
Let V' := upd V i0 din.
Let x := slot D1 V' i0 k.
Let n := Z.of_nat (length c).
Let D' := upd D1 x (blit (D1 x) (off - k * BSIZE) c).
Hypothesis Hoff : 0 <= off < MAXFILE * BSIZE.
Hypothesis Hi0 : 1 <= i0 < fi.
Hypothesis Hc : c <> [].
Hypothesis Hend : off + n <= (k + 1) * BSIZE.
Hypothesis Hfill : filled D V i0 off.
Hypothesis Hok1 : blocks_ok D1 V' fi fb1.
Hypothesis Hx : x <> 0.
Hypothesis HD1 : forall b, slot D1 V' i0 (-1) = 0 \/ b <> slot D1 V' i0 (-1) -> D1 b = D b.
Hypothesis Hind : NDIRECT <= k -> slot D1 V' i0 (-1) <> 0.
Hypothesis Hsl : forall i l, 1 <= i < fi -> slot_ok l -> slot D V i l <> 0 \/ ~ (i = i0 /\ (l = k \/ l = -1 /\ NDIRECT <= k)) ->
  slot D1 V' i l = slot D V i l.

Lemma aw_n : 0 < n.
Proof. unfold n. destruct c; [done|simpl; lia]. Qed.

Lemma aw_k : 0 <= k < MAXFILE /\ k * BSIZE <= off < (k + 1) * BSIZE.
Proof. subst k. mkc. Z.div_mod_to_equations. lia. Qed.

Lemma aw_slot i l : 1 <= i < fi -> slot D' V' i l = slot D1 V' i l.
Proof. intros Hi. eapply slot_data; try done. apply aw_k. Qed.

(** The data blocks that were in use before. *)
Lemma aw_old i j : 1 <= i < fi -> 0 <= j < MAXFILE -> slot D V i j <> 0 ->
  slot D1 V' i j = slot D V i j /\ D1 (slot D V i j) = D (slot D V i j).
Proof.
  intros Hi Hj H0. assert (slot D1 V' i j = slot D V i j) as Heq by (apply Hsl; auto using data_slot). split; [done|]. apply HD1. right.
  rewrite <- Heq in *. intros Hbad. destruct (bo_inj _ _ _ _ Hok1 i j i0 (-1) Hi Hi0 (data_slot j Hj) minus_slot Hbad H0) as [_ ?]. lia.
Qed.

Lemma aw_keep i j : 1 <= i < fi -> 0 <= j < MAXFILE -> slot D V i j <> 0 -> ~ (i = i0 /\ j = k) ->
  D' (slot D V i j) = D (slot D V i j).
Proof.
  intros Hi Hj H0 Hne. destruct (aw_old i j Hi Hj H0) as [Heq Hd]. unfold D'. rewrite upd_ne; [done|]. intros Hbad. apply Hne.
  apply (bo_inj _ _ _ _ Hok1 i j i0 k Hi Hi0 (data_slot j Hj) (data_slot k (proj1 aw_k))); rewrite Heq; done.
Qed.

Lemma aw_filled : filled D' V' i0 (off + n).
Proof.
  pose proof aw_n as Hpos. pose proof aw_k as [Hk Hkb]. pose proof minus_slot as Hmin. split; rewrite ?aw_slot by done.
  - intros j Hj. rewrite aw_slot by done. pose proof (data_slot j Hj). destruct Hfill as [Hf _]. specialize (Hf j Hj).
    destruct (decide (slot D V i0 j = 0)) as [E|E]; [destruct (decide (j = k)) as [->|Hne]|].
    + fold x. split; intros; [lia|done].
    + rewrite Hsl by (auto; right; lia). split; intros; [done|]. exfalso. apply Hf; [|done]. mkc. lia.
    + rewrite Hsl by auto. split; intros; [|done]. apply Hf in E. lia.
  - destruct Hfill as [_ Hf]. destruct (decide (slot D V i0 (-1) = 0)) as [E|E]; [destruct (decide (NDIRECT <= k)) as [Hd|Hd]|].
    + split; intros; [mkc; lia|auto].
    + rewrite Hsl by (auto; right; lia). split; intros; [done|]. mkc. lia.
    + rewrite Hsl by auto. split; intros; [|done]. apply Hf in E. lia.
Qed.

Lemma aw_bytes : bytes D' V' i0 (off + n) = bytes D V i0 off ++ c.
Proof.
  pose proof aw_n as Hpos. pose proof aw_k as [Hk Hkb]. rewrite bytes_app by lia. f_equal.
  - apply list_fmap_ext. intros j o Ho%lookup_seqZ. destruct Ho as [-> Ho].
    assert (0 <= (0 + Z.of_nat j) / BSIZE < MAXFILE) as Hj by (mkc; Z.div_mod_to_equations; lia).
    assert (slot D V i0 ((0 + Z.of_nat j) / BSIZE) <> 0) as H0.
    { destruct Hfill as [Hf _]. apply Hf; [done|]. mkc. Z.div_mod_to_equations. lia. }
    destruct (aw_old i0 _ Hi0 Hj H0) as [Heq Hd]. rewrite aw_slot, Heq by done. destruct (decide ((0 + Z.of_nat j) / BSIZE = k)) as [Ej|Ej].
    + rewrite Ej in *. unfold D'. fold x in Heq. rewrite <- Heq, upd_eq. unfold blit. rewrite decide_False, Heq, Hd; [done|].
      mkc. Z.div_mod_to_equations. lia.
    + by rewrite aw_keep by (try done; tauto).
  - apply list_eq. intros j. rewrite list_lookup_fmap. destruct (decide (Z.of_nat j < n)) as [Hj|Hj].
    + rewrite lookup_seqZ_lt by done. simpl. assert ((off + Z.of_nat j) / BSIZE = k) as -> by (mkc; Z.div_mod_to_equations; lia).
      rewrite aw_slot by done. fold x. unfold D'. rewrite upd_eq. unfold blit. fold n.
      replace ((off + Z.of_nat j) mod BSIZE) with (off - k * BSIZE + Z.of_nat j) by (mkc; Z.div_mod_to_equations; lia).
      rewrite decide_True by lia. replace (Z.to_nat _) with j by lia.
      destruct (lookup_lt_is_Some_2 c j) as [v Hv]; [lia|]. by rewrite Hv, (nth_lookup_Some _ _ _ v).
    + rewrite lookup_seqZ_ge, lookup_ge_None_2 by lia. done.
Qed.

Lemma append_write : blocks_ok D V fi fb -> fb1 = fb + takes_for D V i0 k -> same_fields din (V i0) ->
  appended fi i0 D V fb D' din fb1 off c.
Proof.
  intros Hok Hfb Hsf. pose proof aw_n as Hpos. pose proof aw_k as [Hk Hkb]. split; fold V'; try done.
  - by apply blocks_ok_data.
  - fold n. rewrite (takes_filled D V i0 off k Hfill Hk (proj1 Hoff) eq_refl (off + n)) in Hfb by lia. lia.
  - apply aw_filled.
  - apply aw_bytes.
  - intros i Hi Hne. split.
    + intros j Hj. rewrite aw_slot by done. apply Hsl; [done|done|]. right. tauto.
    + intros j Hj H0. apply aw_keep; try done. tauto.
  - intros b Hb. pose proof (bo_range _ _ _ _ Hok1 i0 k Hi0 (data_slot k Hk)) as Hr. fold x in Hr. unfold D'. rewrite upd_ne by lia.
    apply HD1. pose proof (bo_range _ _ _ _ Hok1 i0 (-1) Hi0 minus_slot). lia.
Qed.
End append_write.

Lemma untouched_trans D V D1 V1 D2 V2 i : untouched D V D1 V1 i -> untouched D1 V1 D2 V2 i -> untouched D V D2 V2 i.
Proof.
  intros [H1 H2] [H3 H4]. split.
  - intros k Hk. by rewrite H3, H1.
  - intros k Hk H0. pose proof (H1 k (data_slot k Hk)) as E. rewrite <- E in H0. pose proof (H4 k Hk H0) as E2. rewrite E in E2, H0.
    by rewrite E2, H2.
Qed.

Lemma appended_trans fi i0 D V fb D1 din1 fb1 D2 din2 fb2 off c1 c2 : appended fi i0 D V fb D1 din1 fb1 off c1 ->
  appended fi i0 D1 (upd V i0 din1) fb1 D2 din2 fb2 (off + Z.of_nat (length c1)) c2 ->
  appended fi i0 D V fb D2 din2 fb2 off (c1 ++ c2).
Proof.
  intros [A1 A2 A3 A4 A5 A6 A7] [B1 B2 B3 B4 B5 B6 B7]. rewrite upd_upd, upd_eq in *.
  split; rewrite ?length_app, ?Nat2Z.inj_add, ?Z.add_assoc; try done.
  - lia.
  - destruct A3 as (? & ? & ? & ? & ?), B3 as (? & ? & ? & ? & ?). split_and!; congruence.
  - by rewrite B5, A5, app_assoc.
  - intros i Hi Hne. eapply untouched_trans; [by apply A6|by apply B6].
  - intros b Hb. by rewrite B7, A7.
Qed.

Lemma appended_nil fi i0 D V fb off : blocks_ok D V fi fb -> filled D V i0 off -> appended fi i0 D V fb D (V i0) fb off [].
Proof.
  intros Hok Hf. split; simpl; rewrite ?upd_id, ?Z.add_0_r, ?app_nil_r by done; try done; lia.
Qed.

Lemma cost_mono m n : m <= n -> cost m <= cost n.
Proof. intros Hm. unfold cost. destruct (NDIRECT * BSIZE <? m) eqn:E1; destruct (NDIRECT * BSIZE <? n) eqn:E2; bool_to_prop; mkc; Z.div_mod_to_equations; lia. Qed.

Lemma iappend_loop_run fi i0 fuel : 1 <= i0 < fi -> forall D V fb off p s, blocks_ok D V fi fb -> mk_disk s = D -> mk_freeblock s = fb ->
  mk_len s = FSSIZE -> filled D V i0 off -> 0 <= off -> off + Z.of_nat (length p) <= MAXFILE * BSIZE ->
  fb + cost (off + Z.of_nat (length p)) - cost off <= FSSIZE -> (length p < fuel)%nat ->
  exists D' din fb', iappend_loop fuel (V i0) off p s = URet (din, off + Z.of_nat (length p)) (alter D' fb' s) /\
    appended fi i0 D V fb D' din fb' off p.
Proof.
  intros Hi0. induction fuel as [|fuel IH]; intros D V fb off p s Hok HD Hfb Hlen Hfill Hoff Hmax Hroom Hf; [lia|].
  cbn [iappend_loop]. rewrite Z.gtb_ltb. destruct (0 <? Z.of_nat (length p)) eqn:En; bool_to_prop.
  2: { assert (p = []) as -> by (destruct p; [done|simpl in En; lia]). exists D, (V i0), fb. split; [|by apply appended_nil].
       simpl. subst D fb. by rewrite Z.add_0_r, alter_id. }
  set (k := off / BSIZE). set (n1 := Z.min _ _). set (c := take (Z.to_nat n1) p).
  assert (0 <= k < MAXFILE /\ k * BSIZE <= off < (k + 1) * BSIZE) as [Hk Hkb] by (subst k; mkc; Z.div_mod_to_equations; lia).
  assert (1 <= n1 <= Z.of_nat (length p) /\ off + n1 <= (k + 1) * BSIZE) as [Hn1 Hend] by lia.
  assert (Z.of_nat (length c) = n1) as Hc by (unfold c; rewrite length_take; lia).
  assert (takes_for D V i0 k = cost (off + n1) - cost off) as Ht by (apply takes_filled; try done; lia).
  pose proof (cost_mono (off + n1) (off + Z.of_nat (length p)) ltac:(lia)) as Hcm.
  rewrite (proj2 (Z.ltb_lt k MAXFILE)) by lia. rewrite (ubind_Ret (uret tt) _ s tt s eq_refl).
  destruct (file_block_run D V fi fb i0 k s Hok HD Hfb Hlen Hi0 Hk ltac:(lia)) as (D1 & din & E & Hsf & Hok1 & Hx & HD1 & Hind & Hsl).
  set (V1 := upd V i0 din) in *. set (x := slot D1 V1 i0 k) in *. set (fb1 := fb + takes_for D V i0 k) in *. set (s1 := alter D1 fb1 s) in *.
  ustep E. cbn [fst snd]. pose proof (bo_fb _ _ _ _ Hok1) as Hf1. destruct (bo_range _ _ _ _ Hok1 i0 k Hi0 (data_slot k Hk)) as [?|Hr]; [done|]. fold x in Hr.
  assert (x < mk_len s1) as Hxl by (simpl; lia).
  rewrite (ubind_Ret _ _ _ _ _ (rsect_run s1 x Hxl)), (ubind_Ret _ _ _ _ _ (wsect_run s1 x _ Hxl)).
  assert (appended fi i0 D V fb (upd D1 x (blit (D1 x) (off - k * BSIZE) c)) din fb1 off c) as Ha.
  { apply append_write; try done; [|by intros ->; simpl in Hc; lia|by rewrite Hc]. mkc. lia. }
  cbn [mk_disk mk_freeblock s1 alter]. set (D2 := upd D1 x _) in *. set (s2 := alter D2 fb1 s1) in *.
  destruct (IH D2 V1 fb1 (off + n1) (drop (Z.to_nat n1) p) s2) as (D' & din' & fb' & E' & Ha'); try done; try lia;
    rewrite ?length_drop; try lia.
  - destruct Ha. done.
  - destruct Ha. by rewrite Hc in *.
  - subst fb1. rewrite Ht. replace (off + n1 + _) with (off + Z.of_nat (length p)) by lia. lia.
  - rewrite u32_small by (mkc; lia). unfold V1 in E' at 1. rewrite upd_eq in E'. rewrite E'. exists D', din', fb'. split.
    + rewrite length_drop. do 2 f_equal. lia.
    + rewrite <- (take_drop (Z.to_nat n1) p). fold c. eapply appended_trans; [exact Ha|]. by rewrite Hc.
Qed.
End spec.
