(* ===== verification/MkfsImage.v ===== *)
(** * What mkfs writes

    The inodes in the image and what each operation of mkfs does to the files; the whole
    program: every argument becomes a file with its bytes, the root has an entry for it, and the
    bitmap has exactly the blocks in use. *)
From S2P Require Import Prelude Machine Disk Fs BallocSpec User Posix Mkfs Dinode MkfsSpec.

Section spec.
Context `{ErrText}.

(** ** Inodes in the image *)

Lemma s16_range z : - 2 ^ 15 <= s16 z < 2 ^ 15.
Proof. unfold s16. pose proof (Z.mod_pos_bound (z + 2 ^ 15) (2 ^ 16) ltac:(done)). lia. Qed.

Lemma view_range D i : din_range (view D i).
Proof. unfold view, load_dinode, din_range. simpl. split_and!; try apply s16_range; try apply load32_range. intros; apply load32_range. Qed.

Lemma inode_places i j : 1 <= i <= NINODES -> 1 <= j <= NINODES -> i <> j -> IBLOCK i mkfs_sb = IBLOCK j mkfs_sb ->
  64 * (i mod IPB) + 64 <= 64 * (j mod IPB) \/ 64 * (j mod IPB) + 64 <= 64 * (i mod IPB).
Proof.
  intros Hi Hj Hne E. rewrite (proj1 (IBLOCK_range i Hi)), (proj1 (IBLOCK_range j Hj)) in E. change IPB with 8. Z.div_mod_to_equations. lia.
Qed.

Lemma winode_run s i0 d : mk_sb s = mkfs_sb -> mk_len s = FSSIZE -> 1 <= i0 <= NINODES -> din_range d ->
  exists D2, winode i0 d s = URet tt (alter D2 (mk_freeblock s) s) /\
    (forall b, b <> IBLOCK i0 mkfs_sb -> D2 b = mk_disk s b) /\ deq (view D2 i0) d /\
    (forall i, 1 <= i <= NINODES -> i <> i0 -> deq (view D2 i) (view (mk_disk s) i)).
Proof.
  intros Hsb Hlen Hi0 Hd. destruct (IBLOCK_range i0 Hi0) as [_ Hb].
  assert (IBLOCK i0 mkfs_sb < mk_len s) as Hbl by (rewrite Hlen; mkc; lia).
  exists (upd (mk_disk s) (IBLOCK i0 mkfs_sb) (store_dinode (mk_disk s (IBLOCK i0 mkfs_sb)) (64 * (i0 mod IPB)) d)). split_and!.
  - unfold winode. rewrite (ubind_Ret (ugets mk_sb) _ s mkfs_sb s) by (unfold ugets; by rewrite Hsb).
    rewrite (ubind_Ret _ _ _ _ _ (rsect_run s _ Hbl)). by apply wsect_run.
  - intros b Hne. by rewrite upd_ne.
  - unfold view. rewrite upd_eq. by apply load_store_dinode.
  - intros i Hi Hne. unfold view. rewrite upd_case. case_decide as E; [|done]. apply load_dinode_ext. intros b Hbb.
    rewrite E. apply store_dinode_outside. pose proof (inode_places i i0 Hi Hi0 Hne (eq_sym E)). lia.
Qed.

(** Writing inodes back leaves the blocks of the files alone. *)
Lemma slots_transfer D V D2 V2 fi fb : blocks_ok D V fi fb -> (forall b, nmeta <= b -> D2 b = D b) ->
  (forall i k, 1 <= i < fi -> 0 <= k <= NDIRECT -> di_addrs (V2 i) k = di_addrs (V i) k) ->
  blocks_ok D2 V2 fi fb /\ forall i l, 1 <= i < fi -> slot_ok l -> slot D2 V2 i l = slot D V i l.
Proof.
  intros Hok HD HV.
  assert (forall i l, 1 <= i < fi -> slot_ok l -> slot D2 V2 i l = slot D V i l) as Hs.
  { intros i l Hi Hl. unfold slot, slot_ok in *. pose proof (bo_range _ _ _ _ Hok i (-1) Hi minus_slot) as Hr. unfold slot in Hr. simpl in Hr.
    rewrite (HV i NDIRECT) by (mkc; lia). destruct (l =? -1) eqn:E1; bool_to_prop; [done|].
    destruct (l <? NDIRECT) eqn:E2; bool_to_prop; [apply HV; mkc; lia|]. destruct (_ =? 0) eqn:E3; bool_to_prop; [done|].
    by rewrite HD by lia. }
  split; [|done]. destruct Hok as [Hf Hr Hj Hz]. split; [done| | |].
  - intros i k Hi Hk. rewrite Hs by done. by apply Hr.
  - intros i k j l Hi Hj' Hk Hl. rewrite !Hs by done. by apply Hj.
  - intros b o Hb. rewrite HD by lia. by apply Hz.
Qed.

Lemma bytes_transfer D V D2 V2 i n : (forall k, 0 <= k < MAXFILE -> slot D2 V2 i k = slot D V i k) ->
  (forall k, 0 <= k < MAXFILE -> slot D V i k <> 0 -> D2 (slot D V i k) = D (slot D V i k)) ->
  filled D V i n -> n <= MAXFILE * BSIZE -> bytes D2 V2 i n = bytes D V i n.
Proof.
  intros Hs HD [Hf _] Hn. apply list_fmap_ext. intros j o Ho%lookup_seqZ. destruct Ho as [-> Ho].
  assert (0 <= (0 + Z.of_nat j) / BSIZE < MAXFILE) as Hj by (mkc; Z.div_mod_to_equations; lia).
  rewrite Hs, HD; try done. apply Hf; [done|]. mkc. Z.div_mod_to_equations. lia.
Qed.

Lemma filled_transfer D V D2 V2 i n : (forall k, slot_ok k -> slot D2 V2 i k = slot D V i k) -> filled D V i n -> filled D2 V2 i n.
Proof.
  intros Hs [H1 H2]. split; [|by rewrite Hs by apply minus_slot]. intros k Hk. rewrite Hs by by apply data_slot. by apply H1.
Qed.

Lemma file_transfer D V D2 V2 fi fb i n : blocks_ok D V fi fb -> (forall b, nmeta <= b -> D2 b = D b) ->
  (forall i k, 1 <= i < fi -> 0 <= k <= NDIRECT -> di_addrs (V2 i) k = di_addrs (V i) k) -> 1 <= i < fi ->
  filled D V i n -> n <= MAXFILE * BSIZE -> filled D2 V2 i n /\ bytes D2 V2 i n = bytes D V i n.
Proof.
  intros Hok HD HV Hi Hf Hn. destruct (slots_transfer D V D2 V2 fi fb Hok HD HV) as [_ Hs]. split; [by eapply filled_transfer; [intros; apply Hs|]|].
  apply bytes_transfer; auto using data_slot. intros k Hk H0. apply HD. destruct (bo_range _ _ _ _ Hok i k Hi (data_slot k Hk)); [done|lia].
Qed.

Lemma rinode_run s i : mk_sb s = mkfs_sb -> mk_len s = FSSIZE -> 1 <= i <= NINODES -> rinode i s = URet (view (mk_disk s) i) s.
Proof.
  intros Hsb Hlen Hi. unfold rinode. rewrite (ubind_Ret (ugets mk_sb) _ s mkfs_sb s) by (unfold ugets; by rewrite Hsb).
  destruct (IBLOCK_range i Hi) as [_ Hib]. by rewrite (ubind_Ret _ _ _ _ _ (rsect_run s (IBLOCK i mkfs_sb) ltac:(rewrite Hlen; mkc; lia))).
Qed.

Record image_ok (s : mk) : Prop := {
  im_sb : mk_sb s = mkfs_sb;
  im_len : mk_len s = FSSIZE;
  im_fi : 1 <= mk_freeinode s <= NINODES;
  im_blocks : blocks_ok (mk_disk s) (view (mk_disk s)) (mk_freeinode s) (mk_freeblock s);
  im_files : forall i, 1 <= i < mk_freeinode s ->
    filled (mk_disk s) (view (mk_disk s)) i (di_size (view (mk_disk s) i)) /\ di_size (view (mk_disk s) i) <= MAXFILE * BSIZE;
}.

Definition isize (s : mk) (i : Z) : Z := di_size (view (mk_disk s) i).
Definition itype (s : mk) (i : Z) : Z := di_type (view (mk_disk s) i).
Definition inlink (s : mk) (i : Z) : Z := di_nlink (view (mk_disk s) i).
Definition contents (s : mk) (i : Z) : list Z := bytes (mk_disk s) (view (mk_disk s)) i (isize s i).

(** Inode [i] is the same file. *)
Definition same_file (s s' : mk) (i : Z) : Prop :=
  contents s' i = contents s i /\ isize s' i = isize s i /\ itype s' i = itype s i /\ inlink s' i = inlink s i.

Lemma same_file_trans s1 s2 s3 i : same_file s1 s2 i -> same_file s2 s3 i -> same_file s1 s3 i.
Proof. intros (? & ? & ? & ?) (? & ? & ? & ?). split_and!; congruence. Qed.

(** The meta blocks other than those of inodes. *)
Definition other_meta (b : Z) : Prop := 0 <= b < 32 \/ b = 58.

(** [p] has been appended to inode [i0]. *)
Record grown (s s' : mk) (i0 : Z) (p : list Z) : Prop := {
  gr_ok : image_ok s';
  gr_contents : contents s' i0 = contents s i0 ++ p;
  gr_size : isize s' i0 = isize s i0 + Z.of_nat (length p);
  gr_type : itype s' i0 = itype s i0 /\ inlink s' i0 = inlink s i0;
  gr_same : forall i, 1 <= i < mk_freeinode s -> i <> i0 -> same_file s s' i;
  gr_fb : mk_freeblock s' = mk_freeblock s + cost (isize s' i0) - cost (isize s i0);
  gr_fi : mk_freeinode s' = mk_freeinode s;
  gr_meta : forall b, other_meta b -> mk_disk s' b = mk_disk s b;
}.

Lemma deq_addrs a b k : deq a b -> 0 <= k <= NDIRECT -> di_addrs a k = di_addrs b k.
Proof. intros (_ & _ & _ & _ & _ & Ha). apply Ha. Qed.

(** The end of iappend: the inode goes back into the image. *)
Lemma write_back s i0 p D1 din fb : image_ok s -> 1 <= i0 < mk_freeinode s ->
  let off := isize s i0 + Z.of_nat (length p) in off <= MAXFILE * BSIZE ->
  appended (mk_freeinode s) i0 (mk_disk s) (view (mk_disk s)) (mk_freeblock s) D1 din fb (isize s i0) p ->
  exists s', winode i0 (set_size off din) (alter D1 fb s) = URet tt s' /\ mk_px s' = mk_px s /\ grown s s' i0 p.
Proof.
  intros [Hsb Hlen Hfi Hb Hfs] Hi0 off Hmax [A1 A2 (F1 & F2 & F3 & F4 & F5) A4 A5 A6 A7]. fold off in A2, A4, A5.
  unfold isize in off. set (D := mk_disk s) in *. set (fi := mk_freeinode s) in *. set (V1 := upd (view D) i0 din) in *.
  destruct (view_range D i0) as (Hr1 & Hr2 & Hr3 & Hr4 & Hr5 & _).
  assert (din_range (set_size off din)) as Hrng.
  { unfold din_range, set_size. simpl. rewrite F1, F2, F3, F4. split_and!; try done; try (mkc; lia). intros k Hk.
    pose proof (addrs_range _ _ _ _ i0 k A1 Hi0 Hk) as Hr. unfold V1 in Hr. by rewrite upd_eq in Hr. }
  assert (forall i, 1 <= i < fi -> 1 <= i <= NINODES) as Hin by (intros; mkc; lia).
  destruct (winode_run (alter D1 fb s) i0 (set_size off din) Hsb Hlen (Hin i0 Hi0) Hrng) as (D2 & E & HD2 & Hv0 & Hv).
  destruct (IBLOCK_range i0 (Hin i0 Hi0)) as [_ Hib]. simpl in HD2, Hv.
  assert (forall i, 1 <= i <= NINODES -> view D1 i = view D i) as HvD by (intros i Hi; unfold view; rewrite A7; [done|apply IBLOCK_range, Hi]).
  assert (forall i, 1 <= i < fi -> i <> i0 -> deq (view D2 i) (view D i)) as Hvo by (intros i Hi Hne; rewrite <- HvD by auto; auto).
  assert (forall b, nmeta <= b -> D2 b = D1 b) as HD by (intros b Hb'; apply HD2; lia).
  assert (forall i k, 1 <= i < fi -> 0 <= k <= NDIRECT -> di_addrs (view D2 i) k = di_addrs (V1 i) k) as HV.
  { intros i k Hi Hk. unfold V1. rewrite upd_case. case_decide as Ei; [subst i; by rewrite (deq_addrs _ _ k Hv0 Hk)|].
    by apply deq_addrs; [apply Hvo|]. }
  destruct (slots_transfer D1 V1 D2 (view D2) fi fb A1 HD HV) as [Hok2 _].
  pose proof (fun i n => file_transfer D1 V1 D2 (view D2) fi fb i n A1 HD HV) as Hft.
  set (s' := alter D2 fb s). exists s'. split; [exact E|]. split; [done|]. destruct Hv0 as (G1 & _ & _ & G4 & G5 & _).
  change (di_size (view D2 i0) = off) in G5. change (di_type (view D2 i0) = di_type din) in G1. change (di_nlink (view D2 i0) = di_nlink din) in G4.
  assert (forall i, 1 <= i < fi -> i <> i0 -> filled D2 (view D2) i (di_size (view D i)) /\
    bytes D2 (view D2) i (di_size (view D i)) = bytes D (view D) i (di_size (view D i))) as Hoth.
  { intros i Hi Hne. destruct (Hfs i Hi) as [Hf1 Hf2]. destruct (A6 i Hi Hne) as [U1 U2].
    assert (filled D1 V1 i (di_size (view D i))) as Hf3 by (by eapply filled_transfer). destruct (Hft i _ Hi Hf3 Hf2) as [? ->]. split; [done|].
    apply bytes_transfer; auto using data_slot. }
  destruct (Hft i0 off Hi0 A4 Hmax) as [Hfill Hby]. rewrite A5 in Hby.
  split.
  - split; try done. intros i Hi. change (mk_disk s') with D2. destruct (decide (i = i0)) as [->|Hne].
    + by rewrite G5.
    + destruct (Hvo i Hi Hne) as (_ & _ & _ & _ & -> & _). split; [by apply Hoth|by apply Hfs].
  - unfold contents, isize. change (mk_disk s') with D2. rewrite G5. exact Hby.
  - exact G5.
  - unfold itype, inlink. change (mk_disk s') with D2. by rewrite G1, G4.
  - intros i Hi Hne. destruct (Hvo i Hi Hne) as (O1 & _ & _ & O4 & O5 & _). unfold same_file, contents, isize, itype, inlink. change (mk_disk s') with D2. fold D.
    rewrite O5. split_and!; try done. by apply Hoth.
  - unfold isize at 1. change (mk_disk s') with D2. rewrite G5. exact A2.
  - done.
  - intros b Hom. unfold other_meta in Hom. simpl. destruct (IBLOCK_range i0 (Hin i0 Hi0)) as [Hibe _].
    rewrite HD2, A7; [done|mkc; lia|]. rewrite Hibe. mkc. pose proof (Hin i0 Hi0). mkc. Z.div_mod_to_equations. lia.
Qed.

Lemma iappend_run s i0 p : image_ok s -> 1 <= i0 < mk_freeinode s -> isize s i0 + Z.of_nat (length p) <= MAXFILE * BSIZE ->
  mk_freeblock s + cost (isize s i0 + Z.of_nat (length p)) - cost (isize s i0) <= FSSIZE ->
  exists s', iappend i0 p s = URet tt s' /\ mk_px s' = mk_px s /\ grown s s' i0 p.
Proof.
  intros Hok Hi0 Hmax Hroom. pose proof (im_fi _ Hok) as Hfi. pose proof (im_sb _ Hok) as Hsb. pose proof (im_len _ Hok) as Hlen.
  destruct (view_range (mk_disk s) i0) as (_ & _ & _ & _ & Hr5 & _). fold (isize s i0) in Hr5.
  destruct (IBLOCK_range i0 ltac:(mkc; lia)) as [_ Hib].
  pose proof (rinode_run s i0 Hsb Hlen ltac:(mkc; lia)) as Er.
  unfold iappend. ustep Er. fold (isize s i0). rewrite xint_u32, u32_small by done.
  destruct (iappend_loop_run _ i0 (S (length p)) Hi0 (mk_disk s) (view (mk_disk s)) (mk_freeblock s) (isize s i0) p s (im_blocks _ Hok))
    as (D1 & din & fb & E & Ha); try done; try lia; [by apply im_files|].
  ustep E. cbn [fst snd]. rewrite xint_u32, u32_small by (mkc; lia). by apply write_back.
Qed.

(** A new inode has no blocks. *)
Lemma slot_empty D V i l : (forall k, 0 <= k <= NDIRECT -> di_addrs (V i) k = 0) -> slot_ok l -> slot D V i l = 0.
Proof.
  intros H0 Hl. unfold slot, slot_ok in *. rewrite (H0 NDIRECT) by (mkc; lia). destruct (l =? -1) eqn:E1; bool_to_prop; [done|].
  destruct (l <? NDIRECT) eqn:E2; bool_to_prop; [apply H0; mkc; lia|done].
Qed.

Lemma blocks_ok_new D V fi fb : blocks_ok D V fi fb -> (forall k, 0 <= k <= NDIRECT -> di_addrs (V fi) k = 0) -> blocks_ok D V (fi + 1) fb.
Proof.
  intros [Hf Hr Hi Hz] H0. pose proof (fun l => slot_empty D V fi l H0) as He. split; [done| | |done].
  - intros i k Hi1 Hk. destruct (decide (i = fi)) as [->|]; [left; auto|]. apply Hr; [lia|done].
  - intros i k j l Hi1 Hj1 Hk Hl E Hne. destruct (decide (i = fi)) as [->|]; [by rewrite He in Hne|].
    destruct (decide (j = fi)) as [->|]; [rewrite E, He in Hne; done|]. apply Hi; try done; lia.
Qed.

Lemma filled_empty D V i : (forall k, 0 <= k <= NDIRECT -> di_addrs (V i) k = 0) -> filled D V i 0.
Proof.
  intros H0. split; [intros k Hk|]; rewrite slot_empty by (auto using data_slot, minus_slot); split; intros; try done; mkc; lia.
Qed.

Record allocated (s s' : mk) (type : Z) : Prop := {
  al_ok : image_ok s';
  al_new : contents s' (mk_freeinode s) = [] /\ isize s' (mk_freeinode s) = 0 /\ itype s' (mk_freeinode s) = type /\ inlink s' (mk_freeinode s) = 1;
  al_same : forall i, 1 <= i < mk_freeinode s -> same_file s s' i;
  al_fb : mk_freeblock s' = mk_freeblock s;
  al_fi : mk_freeinode s' = mk_freeinode s + 1;
  al_px : mk_px s' = mk_px s;
  al_meta : forall b, other_meta b -> mk_disk s' b = mk_disk s b;
}.

Lemma ialloc_run s type : image_ok s -> mk_freeinode s < NINODES -> 0 <= type < 2 ^ 15 ->
  exists s', ialloc type s = URet (mk_freeinode s) s' /\ allocated s s' type.
Proof.
  intros [Hsb Hlen Hfi Hb Hfs] Hmax Ht. set (D := mk_disk s) in *. set (fi := mk_freeinode s) in *.
  unfold ialloc. rewrite (ubind_Ret (ugets mk_freeinode) _ s fi s eq_refl). set (s1 := set_mk_freeinode (fi + 1) s).
  rewrite (ubind_Ret (umodify _) _ s tt s1) by (unfold umodify, s1; fold fi; rewrite u32_small by (mkc; lia); done).
  rewrite !xshort_u16, xint_u32. change (u32 0) with 0. change (u16 1) with 1. replace (u16 type) with type by (unfold u16; rewrite Z.mod_small; lia).
  set (d := mkDinode type 0 0 1 0 (fun _ => 0)).
  destruct (winode_run s1 fi d Hsb Hlen) as (D2 & E & HD2 & Hv0 & Hv); [mkc; lia|unfold din_range, d; simpl; split_and!; try lia; intros; lia|].
  ustep E. simpl in HD2, Hv. set (s' := alter D2 (mk_freeblock s) s1). exists s'. split; [done|].
  destruct (IBLOCK_range fi ltac:(mkc; lia)) as [Hibe Hib].
  assert (forall b, nmeta <= b -> D2 b = D b) as HD by (intros b Hb'; apply HD2; lia).
  assert (forall i k, 1 <= i < fi -> 0 <= k <= NDIRECT -> di_addrs (view D2 i) k = di_addrs (view D i) k) as HV
    by (intros i k Hi Hk; apply deq_addrs; [apply Hv; mkc; lia|done]).
  destruct (slots_transfer D (view D) D2 (view D2) fi (mk_freeblock s) Hb HD HV) as [Hok2 _].
  assert (forall k, 0 <= k <= NDIRECT -> di_addrs (view D2 fi) k = 0) as Hz by (intros k Hk; by rewrite (deq_addrs _ _ k Hv0)).
  destruct Hv0 as (G1 & _ & _ & G4 & G5 & _). change (di_type (view D2 fi) = type) in G1. change (di_nlink (view D2 fi) = 1) in G4.
  change (di_size (view D2 fi) = 0) in G5.
  assert (forall i, 1 <= i < fi -> deq (view D2 i) (view D i)) as Hvo by (intros; apply Hv; mkc; lia).
  split; try done.
  - split; try done; [simpl; mkc; lia|by apply blocks_ok_new|]. intros i Hi. change (mk_disk s') with D2. simpl in Hi.
    destruct (decide (i = fi)) as [->|Hne]; [rewrite G5; split; [by apply filled_empty|mkc; lia]|].
    destruct (Hvo i ltac:(lia)) as (_ & _ & _ & _ & -> & _). destruct (Hfs i ltac:(lia)) as [Hf1 Hf2]. split; [|done].
    eapply file_transfer; [exact Hb|exact HD|exact HV|lia|done|done].
  - unfold contents, isize, itype, inlink. change (mk_disk s') with D2. fold fi. by rewrite G5.
  - intros i Hi. destruct (Hvo i Hi) as (O1 & _ & _ & O4 & O5 & _). unfold same_file, contents, isize, itype, inlink. change (mk_disk s') with D2. fold D.
    rewrite O5. split_and!; try done. destruct (Hfs i Hi) as [Hf1 Hf2]. by eapply file_transfer.
  - intros b Hom. apply HD2. unfold other_meta in Hom. rewrite Hibe. mkc. Z.div_mod_to_equations. lia.
Qed.

(** ** Copying files *)

Lemma grown_app s s1 s2 i c1 c2 : 1 <= i < mk_freeinode s -> grown s s1 i c1 -> grown s1 s2 i c2 -> grown s s2 i (c1 ++ c2).
Proof.
  intros Hi [A1 A2 A3 [A4 A4'] A5 A6 A7 A8] [B1 B2 B3 [B4 B4'] B5 B6 B7 B8]. split; try done; try congruence.
  - by rewrite B2, A2, app_assoc.
  - rewrite B3, A3, length_app. lia.
  - split; congruence.
  - intros j Hj Hne. eapply same_file_trans; [by apply A5|]. apply B5; [by rewrite A7|done].
  - lia.
  - intros b Hb. by rewrite B8, A8.
Qed.

Lemma grown_nil s i : image_ok s -> grown s s i [].
Proof. intros Hok. split; simpl; rewrite ?app_nil_r, ?Z.add_0_r; try done; try lia. Qed.

Lemma grown_px q s s' i p : grown (set_mk_px q s) s' i p -> grown s s' i p.
Proof. intros [A1 A2 A3 A4 A5 A6 A7 A8]. by split. Qed.

Lemma image_ok_px q s : image_ok s -> image_ok (set_mk_px q s).
Proof. intros [A1 A2 A3 A4 A5]. by split. Qed.

(** The part of the system that the next arguments need. *)
Definition same_sys (q q' : px) : Prop := x_files q' = x_files q /\ x_fd q' = x_fd q.

Lemma copy_file_run inum fd fuel : forall s, image_ok s -> 1 <= inum < mk_freeinode s -> clean (x_in (mk_px s) fd) ->
  let t := s_bytes (x_in (mk_px s) fd) in isize s inum + Z.of_nat (length t) <= MAXFILE * BSIZE ->
  mk_freeblock s + cost (isize s inum + Z.of_nat (length t)) - cost (isize s inum) <= FSSIZE -> (length t < fuel)%nat ->
  exists s', copy_file fuel fd inum s = URet tt s' /\ same_sys (mk_px s) (mk_px s') /\ grown s s' inum t.
Proof.
  induction fuel as [|fuel IH]; intros s Hok Hi [Hso Herr] t Hmax Hroom Hf; [lia|]. cbn [copy_file].
  pose proof (next_piece_spec (Z.to_nat BSIZE) (x_in (mk_px s) fd) Hso ltac:(mkc; lia)) as Hp. unfold lift, sys_read, ubind. cbn [get_px mk_haspx].
  destruct (next_piece (Z.to_nat BSIZE) (x_in (mk_px s) fd)) as [[r bs] w]. destruct Hp as (Hw & He & Hb & Hl & H0 & H1). cbn [fst snd put_px mk_haspx].
  set (q := set_x_in _ (mk_px s)). destruct (decide (bs = [])) as [->|Hne].
  - destruct (H0 eq_refl) as (Ht & _ & ->). rewrite Herr. exists (set_mk_px q s). split_and!; [done|done|].
    unfold t. rewrite Ht. apply (grown_px q). by apply grown_nil, image_ok_px.
  - rewrite (H1 Hne). assert (0 < length bs)%nat by (destruct bs; [done|simpl; lia]). rewrite Z.gtb_ltb, (proj2 (Z.ltb_lt _ _)) by lia.
    fold t in Hb. assert (length t = length bs + length (s_bytes w))%nat as Htl by (by rewrite Hb, length_app).
    pose proof (cost_mono (isize s inum + Z.of_nat (length bs)) (isize s inum + Z.of_nat (length t)) ltac:(lia)) as Hcm.
    destruct (iappend_run (set_mk_px q s) inum bs (image_ok_px q s Hok) Hi) as (s1 & E & Hpx & Hg);
      [change (isize (set_mk_px q s) inum) with (isize s inum); simpl; lia..|].
    rewrite E. apply grown_px in Hg. simpl in Hpx. pose proof (gr_ok _ _ _ _ Hg) as G1. pose proof (gr_size _ _ _ _ Hg) as G3.
    pose proof (gr_fb _ _ _ _ Hg) as G6. pose proof (gr_fi _ _ _ _ Hg) as G7.
    assert (x_in (mk_px s1) fd = w) as Hxw by (rewrite Hpx; unfold q; simpl; by rewrite upd_eq).
    destruct (IH s1 G1) as (s2 & E2 & [Hs1 Hs2] & Hg2); rewrite ?Hxw, ?G7; try done; try (split; congruence); try lia.
    + rewrite G3, G6, G3. replace (isize s inum + _ + _) with (isize s inum + Z.of_nat (length t)) by lia. lia.
    + exists s2. split_and!; [done|split; rewrite ?Hs1, ?Hs2, Hpx; done|]. rewrite Hb, <- Hxw. by eapply grown_app.
Qed.

Lemma length_dirent i name : length (dirent i name) = 16%nat.
Proof. unfold dirent. rewrite !length_app, length_take, length_replicate. change (Z.to_nat DIRSIZ) with 14%nat. cbn [length]. lia. Qed.

(** [s'] is [s] with the files [datas] added as new inodes, and [entries] appended to the root. *)
Record added (s s' : mk) (datas : list (list Z)) (entries : list Z) : Prop := {
  ad_ok : image_ok s';
  ad_root : contents s' ROOTINO = contents s ROOTINO ++ entries;
  ad_root_size : isize s' ROOTINO = isize s ROOTINO + Z.of_nat (length entries);
  ad_root_type : itype s' ROOTINO = itype s ROOTINO /\ inlink s' ROOTINO = inlink s ROOTINO;
  ad_new : forall j d, datas !! j = Some d -> let i := mk_freeinode s + Z.of_nat j in
    contents s' i = d /\ isize s' i = Z.of_nat (length d) /\ itype s' i = T_FILE /\ inlink s' i = 1;
  ad_same : forall i, ROOTINO < i < mk_freeinode s -> same_file s s' i;
  ad_fi : mk_freeinode s' = mk_freeinode s + Z.of_nat (length datas);
  ad_fb : mk_freeblock s' = mk_freeblock s + cost (isize s' ROOTINO) - cost (isize s ROOTINO) +
    foldr Z.add 0 ((fun d => cost (Z.of_nat (length d))) <$> datas);
  ad_meta : forall b, other_meta b -> mk_disk s' b = mk_disk s b;
}.

Lemma added_nil s : image_ok s -> added s s [] [].
Proof. intros Hok. split; simpl; rewrite ?app_nil_r; try done; try lia. Qed.

Lemma added_trans s s1 s2 d1 d2 e1 e2 : ROOTINO < mk_freeinode s -> added s s1 d1 e1 -> added s1 s2 d2 e2 -> added s s2 (d1 ++ d2) (e1 ++ e2).
Proof.
  intros Hr [A1 A2 A3 [A4 A4'] A5 A6 A7 A8 A9] [B1 B2 B3 [B4 B4'] B5 B6 B7 B8 B9]. split; try done; try (split; congruence).
  - by rewrite B2, A2, app_assoc.
  - rewrite B3, A3, length_app. lia.
  - intros j d Hj i. apply lookup_app_Some in Hj as [Hj|[Hlen Hj]].
    + pose proof (lookup_lt_Some _ _ _ Hj) as Hlt. destruct (A5 j d Hj) as (H1 & H2 & H3 & H4). fold i in H1, H2, H3, H4.
      destruct (B6 i) as (S1 & S2 & S3 & S4); [rewrite A7; unfold i; lia|]. split_and!; congruence.
    + destruct (B5 _ d Hj) as (H1 & H2 & H3 & H4). rewrite A7 in *.
      replace (mk_freeinode s + Z.of_nat (length d1) + Z.of_nat (j - length d1)) with i in * by (unfold i; lia). done.
  - intros i Hi. eapply same_file_trans; [by apply A6|]. apply B6. rewrite A7. lia.
  - rewrite B7, A7, length_app. lia.
  - rewrite B8, A8, fmap_app, foldr_app.
    assert (forall l z, foldr Z.add z l = foldr Z.add 0 l + z) as Hf by (induction l as [|y l IH]; intros z; simpl; [lia|rewrite IH; lia]).
    rewrite (Hf _ (foldr _ _ _)). lia.
  - intros b Hb. by rewrite B9, A9.
Qed.

(** A new inode, an entry for it in the root, and its data. *)
Lemma added_file q s s2 s3 s4 d e : ROOTINO < mk_freeinode s -> allocated (set_mk_px q s) s2 T_FILE -> grown s2 s3 ROOTINO e ->
  grown s3 s4 (mk_freeinode s) d -> added s s4 [d] e.
Proof.
  change ROOTINO with 1. set (fi := mk_freeinode s). intros Hfi [L1 (N1 & N2 & N3 & N4) L3 L4 L5 _ L7] G K.
  change (mk_freeinode (set_mk_px q s)) with fi in *.
  destruct (gr_same _ _ _ _ G fi) as (F1 & F2 & F3 & F4); [lia|lia|].
  destruct G as [G1 G2 G3 [G4 G4'] G5 G6 G7 G8], K as [K1 K2 K3 [K4 K4'] K5 K6 K7 K8].
  assert (same_file s s2 1) as (R1 & R2 & R3 & R4) by (apply L3; lia).
  destruct (K5 1) as (Q1 & Q2 & Q3 & Q4); [lia|lia|]. change ROOTINO with 1 in *.
  split; change ROOTINO with 1; try done.
  - by rewrite Q1, G2, R1.
  - by rewrite Q2, G3, R2.
  - split; congruence.
  - intros j d' Hj. destruct j as [|j]; [|done]. injection Hj as <-. cbn zeta. fold fi. replace (fi + Z.of_nat 0) with fi by lia. rewrite K2, K3, F1, F2, N1, N2. split_and!; congruence || done.
  - intros i Hi. apply (same_file_trans s s2); [apply L3; lia|]. apply (same_file_trans s2 s3); [apply G5; lia|]. apply K5; lia.
  - simpl. lia.
  - simpl. rewrite K6, G6, L4, K3, F2, N2, Q2, R2. change (mk_freeblock (set_mk_px q s)) with (mk_freeblock s). change (cost 0) with 0. rewrite Z.add_0_l. lia.
  - intros b Hb. rewrite K8, G8, L7 by done. done.
Qed.

Lemma add_file_run s path w : image_ok s -> ROOTINO < mk_freeinode s < NINODES -> 0 <= x_fd (mk_px s) ->
  x_files (mk_px s) path = Some w -> clean w -> let d := s_bytes w in Z.of_nat (length d) <= MAXFILE * BSIZE ->
  isize s ROOTINO + 16 <= MAXFILE * BSIZE ->
  mk_freeblock s + cost (isize s ROOTINO + 16) - cost (isize s ROOTINO) + cost (Z.of_nat (length d)) <= FSSIZE ->
  exists s', add_file ROOTINO path s = URet tt s' /\ x_files (mk_px s') = x_files (mk_px s) /\ x_fd (mk_px s') = x_fd (mk_px s) + 1 /\
    added s s' [d] (dirent (mk_freeinode s) (basename path)).
Proof.
  intros Hok Hfi Hfd Hw Hc d Hd Hrs Hroom. change ROOTINO with 1 in *. set (fi := mk_freeinode s) in *. set (fd := x_fd (mk_px s)) in *.
  unfold add_file. set (q := set_x_fd (fd + 1) (set_x_in (upd (x_in (mk_px s)) fd w) (mk_px s))). set (s1 := set_mk_px q s).
  rewrite (ubind_Ret (lift (sys_open_read path)) _ s fd s1) by (unfold lift, sys_open_read; cbn [get_px mk_haspx]; rewrite Hw; done).
  rewrite (proj2 (Z.ltb_ge fd 0)) by lia.
  destruct (ialloc_run s1 T_FILE (image_ok_px q s Hok)) as (s2 & E2 & Ha); [simpl; lia|done|]. ustep E2. change (mk_freeinode s1) with fi.
  pose proof Ha as [L1 (N1 & N2 & N3 & N4) L3 L4 L5 L6 L7]. change (mk_freeinode s1) with fi in *.
  assert (same_file s s2 1) as (R1 & R2 & R3 & R4) by (apply L3; lia).
  assert (forall n, 0 <= cost n - cost 0 \/ n < 0) as Hcp by (intros n; destruct (decide (0 <= n)); [left; pose proof (cost_mono 0 n); lia|lia]).
  assert (cost 0 = 0) as Hc0 by done.
  destruct (iappend_run s2 1 (dirent fi (basename path)) L1) as (s3 & E3 & Hpx3 & G); rewrite ?length_dirent, ?R2.
  { lia. }
  { simpl. change (isize s1 1) with (isize s 1). lia. }
  { rewrite L4. change (mk_freeblock s1) with (mk_freeblock s). specialize (Hcp (Z.of_nat (length d))). change (Z.of_nat 16) with 16. lia. }
  ustep E3. pose proof (gr_size _ _ _ _ G) as G3. rewrite length_dirent, R2 in G3. pose proof (gr_fb _ _ _ _ G) as G6. pose proof (gr_fi _ _ _ _ G) as G7.
  destruct (gr_same _ _ _ _ G fi) as (F1 & F2 & F3 & F4); [lia|lia|].
  assert (mk_px s3 = q) as Hq by (by rewrite Hpx3, L6). assert (x_in q fd = w) as Hqw by (unfold q; simpl; by rewrite upd_eq).
  rewrite (ubind_Ret (ugets _) _ s3 (S (length d)) s3) by (unfold ugets; by rewrite Hq, Hqw).
  destruct (copy_file_run fi fd (S (length d)) s3 (gr_ok _ _ _ _ G)) as (s4 & E4 & [P1 P2] & K); rewrite ?Hq, ?Hqw, ?F2, ?N2.
  { lia. }
  { done. }
  { fold d. lia. }
  { fold d. rewrite G6, L4, G3, R2. change (mk_freeblock s1) with (mk_freeblock s). change (Z.of_nat 16) with 16. rewrite Z.add_0_l, Hc0. lia. }
  { fold d. lia. }
  ustep E4. rewrite Hq, Hqw in K. fold d in K. exists s4. rewrite P1, P2, Hq. split_and!; [unfold lift, sys_close, ubind; cbn; by destruct s4|done|done|].
  by apply (added_file q s s2 s3); [change ROOTINO with 1; fold fi; lia|..].
Qed.

(** The directory entries of the arguments, whose inodes are numbered from [i]. *)
Fixpoint entries (i : Z) (files : list (list Z)) : list Z :=
  match files with [] => [] | f :: files' => dirent i (basename f) ++ entries (i + 1) files' end.

Lemma length_entries files : forall i, length (entries i files) = (16 * length files)%nat.
Proof. induction files as [|f files IH]; intros i; cbn [entries length]; [done|]. rewrite length_app, length_dirent, IH. lia. Qed.

Definition costs (datas : list (list Z)) : Z := foldr Z.add 0 ((fun d => cost (Z.of_nat (length d))) <$> datas).

Lemma cost_nonneg n : 0 <= n -> 0 <= cost n.
Proof. intros Hn. change 0 with (cost 0). by apply cost_mono. Qed.

Lemma costs_nonneg datas : 0 <= costs datas.
Proof. unfold costs. induction datas as [|d datas IH]; [done|]. rewrite fmap_cons. cbn [foldr]. pose proof (cost_nonneg (Z.of_nat (length d)) ltac:(lia)). lia. Qed.

Lemma add_files_run files : forall ws s, image_ok s -> ROOTINO < mk_freeinode s -> mk_freeinode s + Z.of_nat (length files) <= NINODES ->
  0 <= x_fd (mk_px s) ->
  Forall2 (fun f w => x_files (mk_px s) f = Some w /\ clean w /\ Z.of_nat (length (s_bytes w)) <= MAXFILE * BSIZE) files ws ->
  isize s ROOTINO + 16 * Z.of_nat (length files) <= MAXFILE * BSIZE ->
  mk_freeblock s + cost (isize s ROOTINO + 16 * Z.of_nat (length files)) - cost (isize s ROOTINO) + costs (s_bytes <$> ws) <= FSSIZE ->
  exists s', uforeach files (add_file ROOTINO) s = URet tt s' /\ added s s' (s_bytes <$> ws) (entries (mk_freeinode s) files).
Proof.
  induction files as [|f files IH]; intros ws s Hok Hr Hfi Hfd Hws Hmax Hroom; inversion Hws as [|? w ? ws' (Hw & Hc & Hl) Hws']; subst.
  { exists s. split; [done|by apply added_nil]. }
  rewrite fmap_cons in *. unfold costs in Hroom. cbn [fmap list_fmap foldr] in Hroom. fold (costs (s_bytes <$> ws')) in Hroom.
  pose proof (costs_nonneg (s_bytes <$> ws')) as Hcn. cbn [length] in Hfi, Hmax, Hroom. cbn [uforeach].
  pose proof (cost_mono (isize s ROOTINO + 16) (isize s ROOTINO + 16 * Z.of_nat (S (length files))) ltac:(lia)) as Hcm.
  destruct (add_file_run s f w Hok) as (s1 & E & Hx1 & Hx2 & Ha); try done; try lia. ustep E.
  pose proof (ad_root_size _ _ _ _ Ha) as A1. rewrite length_dirent in A1. pose proof (ad_fi _ _ _ _ Ha) as A2. simpl in A2.
  pose proof (ad_fb _ _ _ _ Ha) as A3. simpl in A3.
  destruct (IH ws' s1 (ad_ok _ _ _ _ Ha)) as (s2 & E2 & Hb); rewrite ?A1, ?A2, ?Hx1, ?Hx2; try done; try lia.
  { rewrite A3, A1. change (Z.of_nat 16) with 16. replace (isize s ROOTINO + 16 + 16 * Z.of_nat (length files))
      with (isize s ROOTINO + 16 * Z.of_nat (S (length files))) by lia. lia. }
  exists s2. split; [done|]. cbn [entries]. rewrite A2 in Hb. exact (added_trans s s1 s2 [s_bytes w] _ _ _ Hr Ha Hb).
Qed.

(** ** The beginning *)

Definition zeros : Z -> block := fun _ _ => 0.

Lemma zero_run n : forall a s, mk_disk s = zeros ->
  uforeach (seqZ a (Z.of_nat n)) (fun i => wsect i (fun _ => 0)) s = URet tt (set_mk_image zeros (if (n =? 0)%nat then mk_len s else Z.max (mk_len s) (a + Z.of_nat n)) s).
Proof.
  induction n as [|n IH]; intros a s Hz; [destruct s; simpl in *; by subst|].
  rewrite seqZ_cons by lia. cbn [uforeach]. set (s1 := set_mk_image zeros (Z.max (mk_len s) (a + 1)) s).
  rewrite (ubind_Ret (wsect a _) _ s tt s1) by (unfold wsect, umodify, s1; rewrite Hz, upd_id by done; done).
  replace (Z.pred (Z.of_nat (S n))) with (Z.of_nat n) by lia. rewrite IH by done. unfold s1, set_mk_image. simpl. do 2 f_equal. destruct n; simpl; lia.
Qed.

(** The image before the first inode. *)
Lemma image_ok_start s : mk_sb s = mkfs_sb -> mk_len s = FSSIZE -> mk_freeinode s = 1 -> mk_freeblock s = nmeta ->
  (forall b o, nmeta <= b -> mk_disk s b o = 0) -> image_ok s.
Proof.
  intros H1 H2 H3 H4 H5. split; rewrite ?H3, ?H4; try done; try (mkc; lia). split; try (intros; lia); [mkc; lia|done].
Qed.

(** ** The end *)

Definition bitmap (used : Z) : block :=
  foldl (fun buf i => upd buf (i / 8) (u8 (Z.lor (buf (i / 8)) (Z.shiftl 1 (i mod 8))))) (fun _ => 0) (seqZ 0 used).

(** The bits that the kernel reads as used are those of the first blocks. *)
Lemma bitmap_bits n b : 0 <= b -> bit_free (bitmap (Z.of_nat n)) b = negb (b <? Z.of_nat n).
Proof.
  intros Hb. unfold bitmap. induction n as [|n IH].
  - change (bit_free (fun _ => 0) b = negb (b <? 0)). rewrite (proj2 (Z.ltb_ge b 0)) by lia. done.
  - replace (Z.of_nat (S n)) with (Z.of_nat n + 1) by lia. rewrite seqZ_app, foldl_app by lia. set (d := foldl _ _ _) in *.
    rewrite Z.add_0_l, seqZ_cons by lia. change (seqZ _ (Z.pred 1)) with (@nil Z). change (foldl _ d [Z.of_nat n]) with (set_bit d (Z.of_nat n)).
    rewrite set_bit_free, IH by lia. destruct (b <? Z.of_nat n) eqn:E1; destruct (b <? Z.of_nat n + 1) eqn:E2; destruct (Z.of_nat n =? b) eqn:E3; bool_to_prop; lia || done.
Qed.

Lemma balloc_run s : mk_sb s = mkfs_sb -> mk_len s = FSSIZE -> 0 <= mk_freeblock s <= FSSIZE ->
  exists q, Mkfs.balloc (mk_freeblock s) s = URet tt (set_mk_px q (alter (upd (mk_disk s) 58 (bitmap (mk_freeblock s))) (mk_freeblock s) s)).
Proof.
  intros Hsb Hlen Hfb. unfold Mkfs.balloc. eexists. unfold ubind at 1, lift, fprint. cbn [get_px put_px mk_haspx].
  rewrite (ubind_Ret (uassert _) _ _ tt _) by (rewrite (proj2 (Z.ltb_lt (mk_freeblock s) (BSIZE * 8))) by (mkc; lia); reflexivity).
  rewrite (ubind_Ret (ugets mk_sb) _ _ mkfs_sb _) by (unfold ugets; cbn [mk_sb set_mk_px]; by rewrite Hsb).
  unfold ubind, fprint. cbn [get_px put_px mk_haspx]. change (sb_bmapstart mkfs_sb) with 58. rewrite wsect_run by (simpl; rewrite Hlen; mkc; lia). done.
Qed.

(** What is left when the files are in: the size of the root, and the bitmap. *)
Record finished (s s' : mk) : Prop := {
  fn_blocks : blocks_ok (mk_disk s') (view (mk_disk s')) (mk_freeinode s) (mk_freeblock s);
  fn_same : forall i, ROOTINO < i < mk_freeinode s -> same_file s s' i;
  fn_root : bytes (mk_disk s') (view (mk_disk s')) ROOTINO (isize s ROOTINO) = contents s ROOTINO /\
    isize s' ROOTINO = (isize s ROOTINO / BSIZE + 1) * BSIZE /\ itype s' ROOTINO = itype s ROOTINO /\ inlink s' ROOTINO = inlink s ROOTINO;
  fn_filled : forall i, ROOTINO <= i < mk_freeinode s -> filled (mk_disk s') (view (mk_disk s')) i (isize s i);
  fn_bitmap : forall b, 0 <= b -> bit_free (mk_disk s' (sb_bmapstart mkfs_sb)) b = negb (b <? mk_freeblock s);
  fn_meta : forall b, 0 <= b < 32 -> mk_disk s' b = mk_disk s b;
  fn_counts : mk_freeblock s' = mk_freeblock s /\ mk_freeinode s' = mk_freeinode s;
}.

Lemma finish_run s : image_ok s -> ROOTINO < mk_freeinode s ->
  exists s', (do din <- rinode ROOTINO;
     let off := xint (di_size din) in
     let off := u32 ((off / BSIZE + 1) * BSIZE) in
     winode ROOTINO (set_size (xint off) din) ;;
     do used <- ugets mk_freeblock;
     Mkfs.balloc used ;; exit 0) s = (UExit 0 s' : uout mk unit) /\ finished s s'.
Proof.
  intros Hok Hr. destruct Hok as [Hsb Hlen Hfi Hb Hfs]. set (D := mk_disk s) in *. set (fi := mk_freeinode s) in *. change ROOTINO with 1 in *.
  assert (1 <= 1 <= NINODES) as H1 by (mkc; lia). destruct (IBLOCK_range 1 H1) as [Hibe Hib].
  destruct (Hfs 1 ltac:(lia)) as [Hf1 Hf2]. destruct (view_range D 1) as (Hr1 & Hr2 & Hr3 & Hr4 & Hr5 & Hr6).
  pose proof (rinode_run s 1 Hsb Hlen H1) as Er. fold D in Er.
  ustep Er. cbn zeta. rewrite (xint_u32 (di_size _)), (u32_small (di_size _)), (u32_small ((_ / _ + 1) * _)), xint_u32, u32_small
    by (try done; mkc; Z.div_mod_to_equations; lia).
  set (off := (di_size (view D 1) / BSIZE + 1) * BSIZE).
  assert (0 <= off < 2 ^ 32) as Hoff by (unfold off; mkc; Z.div_mod_to_equations; lia).
  destruct (winode_run s 1 (set_size off (view D 1)) Hsb Hlen H1 (conj Hr1 (conj Hr2 (conj Hr3 (conj Hr4 (conj Hoff Hr6))))))
    as (D1 & E & HD1 & Hv0 & Hv). ustep E.
  set (s1 := alter D1 (mk_freeblock s) s). rewrite (ubind_Ret (ugets mk_freeblock) _ s1 (mk_freeblock s) s1 eq_refl).
  pose proof (bo_fb _ _ _ _ Hb) as Hfb. destruct (balloc_run s1 Hsb Hlen ltac:(simpl; mkc; lia)) as (q & E2). change (mk_freeblock s1) with (mk_freeblock s) in E2. ustep E2.
  simpl mk_disk. simpl mk_freeblock. set (D2 := upd D1 58 (bitmap (mk_freeblock s))). eexists. split; [reflexivity|].
  assert (forall i, 1 <= i <= NINODES -> view D2 i = view D1 i) as HvD.
  { intros i Hi. unfold view, D2. destruct (IBLOCK_range i Hi) as [-> _]. rewrite upd_ne; [done|]. mkc. Z.div_mod_to_equations. lia. }
  assert (forall i, 1 <= i < fi -> i <> 1 -> deq (view D2 i) (view D i)) as Hvo by (intros i Hi Hne; rewrite HvD by (mkc; lia); apply Hv; mkc; lia).
  assert (deq (view D2 1) (set_size off (view D 1))) as Hv1 by (by rewrite HvD).
  assert (forall b, nmeta <= b -> D2 b = D b) as HD2 by (intros b Hb'; unfold D2; rewrite upd_ne by (mkc; lia); apply HD1; lia).
  assert (forall i k, 1 <= i < fi -> 0 <= k <= NDIRECT -> di_addrs (view D2 i) k = di_addrs (view D i) k) as HV.
  { intros i k Hi Hk. destruct (decide (i = 1)) as [->|Hne]; [by rewrite (deq_addrs _ _ k Hv1)|]. by apply deq_addrs; [apply Hvo|]. }
  destruct (slots_transfer D (view D) D2 (view D2) fi (mk_freeblock s) Hb HD2 HV) as [Hok2 _].
  split; try done.
  - intros i Hi. change ROOTINO with 1 in Hi. fold fi in Hi. destruct (Hvo i) as (O1 & _ & _ & O4 & O5 & _); [lia|lia|].
    unfold same_file, contents, isize, itype, inlink. change (mk_disk (set_mk_px q _)) with D2. fold D. rewrite O5. split_and!; try done.
    destruct (Hfs i) as [Hg1 Hg2]; [lia|]. eapply file_transfer; [exact Hb|exact HD2|exact HV|lia|done|done].
  - destruct Hv1 as (O1 & _ & _ & O4 & O5 & _). split_and!; [|exact O5|exact O1|exact O4]. change ROOTINO with 1. unfold contents, isize.
    change (mk_disk (set_mk_px q _)) with D2. fold D. eapply file_transfer; [exact Hb|exact HD2|exact HV|lia|done|done].
  - intros i Hi. change (mk_disk (set_mk_px q _)) with D2. unfold isize. fold D. change ROOTINO with 1 in Hi. destruct (Hfs i Hi) as [Hg1 Hg2].
    eapply file_transfer; [exact Hb|exact HD2|exact HV|done|done|done].
  - intros b Hb'. change (mk_disk (set_mk_px q _)) with D2. change (sb_bmapstart mkfs_sb) with 58. unfold D2. rewrite upd_eq.
    rewrite <- (Z2Nat.id (mk_freeblock s)) by (mkc; lia). by apply bitmap_bits.
  - intros b Hb'. change (mk_disk (set_mk_px q _)) with D2. unfold D2. rewrite upd_ne by lia. apply HD1. rewrite Hibe. Z.div_mod_to_equations. lia.
Qed.

(** The root directory with its two own entries. *)
Definition root_entries : list Z := dirent ROOTINO [46] ++ dirent ROOTINO [46; 46].

Lemma root_run s (cont : Z -> U mk unit) : image_ok s -> mk_freeinode s = 1 -> mk_freeblock s = nmeta ->
  exists s', (do rootino <- Mkfs.ialloc T_DIR;
     uassert (rootino =? ROOTINO) ;;
     iappend rootino (dirent rootino [46]) ;; iappend rootino (dirent rootino [46; 46]) ;; cont rootino) s = cont ROOTINO s' /\
    image_ok s' /\ mk_freeinode s' = 2 /\ mk_freeblock s' = nmeta + cost 32 /\ contents s' ROOTINO = root_entries /\ isize s' ROOTINO = 32 /\
    itype s' ROOTINO = T_DIR /\ inlink s' ROOTINO = 1 /\ (forall b, 0 <= b < 32 -> mk_disk s' b = mk_disk s b) /\ mk_px s' = mk_px s.
Proof.
  intros Hok Hfi Hfb. destruct (ialloc_run s T_DIR Hok) as (s1 & E1 & Ha); [rewrite Hfi; done|done|]. rewrite Hfi in *. ustep E1.
  destruct Ha as [L1 (N1 & N2 & N3 & N4) L3 L4 L5 L6 L7]. rewrite Hfi in *. rewrite (ubind_Ret (uassert (1 =? ROOTINO)) _ s1 tt s1 eq_refl).
  destruct (iappend_run s1 1 (dirent 1 [46]) L1) as (s2 & E2 & P2 & G); rewrite ?length_dirent, ?N2, ?L4, ?Hfb; [lia|done|done|].
  ustep E2. pose proof (gr_size _ _ _ _ G) as G3. rewrite length_dirent, N2 in G3. pose proof (gr_fb _ _ _ _ G) as G6. rewrite L4, Hfb, G3, N2 in G6.
  pose proof (gr_fi _ _ _ _ G) as G7.
  destruct (iappend_run s2 1 (dirent 1 [46; 46]) (gr_ok _ _ _ _ G)) as (s3 & E3 & P3 & K); rewrite ?length_dirent, ?G3, ?G6; [lia|done|done|].
  ustep E3. pose proof (gr_size _ _ _ _ K) as K3. rewrite length_dirent, G3 in K3. pose proof (gr_fb _ _ _ _ K) as K6. rewrite G6, K3, G3 in K6.
  exists s3. change ROOTINO with 1. split; [done|]. destruct G as [G1 G2 _ [G4 G4'] _ _ _ G8], K as [K1 K2 _ [K4 K4'] _ _ K7 K8].
  split_and!; try done; try lia; try congruence.
  - rewrite K2, G2, N1. done.
  - intros b Hb. rewrite K8, G8, L7 by (unfold other_meta; lia). done.
Qed.

(** What the image holds for the arguments [files] with the contents [datas]. *)
Record built (files datas : list (list Z)) (s' : mk) : Prop := {
  bt_files j d : datas !! j = Some d -> let i := Z.of_nat j + 2 in
    itype s' i = T_FILE /\ inlink s' i = 1 /\ isize s' i = Z.of_nat (length d) /\ contents s' i = d /\
    filled (mk_disk s') (view (mk_disk s')) i (isize s' i);
  bt_root : let n := 16 * (Z.of_nat (length files) + 2) in
    itype s' ROOTINO = T_DIR /\ inlink s' ROOTINO = 1 /\ isize s' ROOTINO = (n / BSIZE + 1) * BSIZE /\
    bytes (mk_disk s') (view (mk_disk s')) ROOTINO n = root_entries ++ entries 2 files /\
    filled (mk_disk s') (view (mk_disk s')) ROOTINO n;
  bt_blocks : blocks_ok (mk_disk s') (view (mk_disk s')) (Z.of_nat (length files) + 2) (mk_freeblock s');
  bt_bitmap b : 0 <= b -> bit_free (mk_disk s' (sb_bmapstart mkfs_sb)) b = negb (b <? mk_freeblock s');
  bt_super : mk_disk s' 1 = sb_block mkfs_sb;
  bt_log b : 2 <= b < 2 + nlog -> mk_disk s' b = fun _ => 0;
}.

Lemma mkfs_run image files ws s : mk_disk s = zeros -> mk_len s = 0 -> mk_freeinode s = 1 -> 0 <= x_fd (mk_px s) ->
  Forall2 (fun f w => x_files (mk_px s) f = Some w /\ clean w /\ Z.of_nat (length (s_bytes w)) <= MAXFILE * BSIZE) files ws ->
  let n := Z.of_nat (length files) in n <= 198 ->
  nmeta + cost (16 * (n + 2)) + costs (s_bytes <$> ws) <= FSSIZE ->
  exists s', mkfs_main (fun _ => true) (image :: files) s = UExit 0 s' /\ built files (s_bytes <$> ws) s'.
Proof.
  intros HD Hl Hi Hfd Hws n Hn Hroom. unfold mkfs_main. rewrite (ubind_Ret (uassert _) _ s tt s) by reflexivity. unfold build.
  rewrite (ubind_Ret (umodify _) _ s tt _ eq_refl). set (s1 := set_mk_sb mkfs_sb s).
  erewrite (ubind_Ret (lift _) _ s1 tt) by reflexivity. set (s2 := put_px _ s1).
  rewrite (ubind_Ret (umodify _) _ s2 tt _ eq_refl). set (s3 := set_mk_freeblock nmeta s2).
  rewrite (ubind_Ret _ _ _ _ _ (zero_run 1000 0 s3 HD)). set (s4 := set_mk_image _ _ _).
  assert (mk_len s4 = FSSIZE) as Hl4 by (unfold s4; cbn; rewrite Hl; done).
  rewrite (ubind_Ret _ _ _ _ _ (wsect_run s4 1 _ ltac:(rewrite Hl4; done))). set (s5 := alter _ _ s4).
  assert (image_ok s5) as Hok5 by (apply image_ok_start; try done; intros b o Hb; simpl; rewrite upd_ne by (mkc; lia); done).
  edestruct (root_run s5) as (s6 & -> & Hok6 & Hfi6 & Hfb6 & Hc6 & Hs6 & Ht6 & Hk6 & Hsb6 & Hpx6); [done|done|done|].
  assert (length ws = length files) as Hlw by (symmetry; by eapply Forall2_length).
  destruct (add_files_run files ws s6 Hok6) as (s7 & E7 & Ha); rewrite ?Hfi6, ?Hpx6, ?Hs6, ?Hfb6; try done; try (fold n; mkc; lia).
  { fold n. replace (32 + 16 * n) with (16 * (n + 2)) by lia. lia. }
  ustep E7. rewrite Hfi6 in Ha. destruct Ha as [A1 A2 A3 [A4 A4'] A5 A6 A7 A8 A9]. rewrite Hfi6, length_fmap, Hlw in A7. fold n in A7.
  rewrite Hs6, length_entries in A3. replace (32 + Z.of_nat (16 * length files)) with (16 * (n + 2)) in A3 by (unfold n; lia).
  destruct (finish_run s7 A1) as (s8 & E8 & [B1 B2 (B3 & B4 & B5 & B5') Bf B6 B7 [B8 B9]]); [rewrite A7; change ROOTINO with 1; lia|].
  exists s8. split; [exact E8|]. rewrite A3, A7 in *. rewrite <- B8 in B1, B6. assert (forall b, 0 <= b < 32 -> mk_disk s8 b = mk_disk s5 b) as Hmeta.
  { intros b Hb. rewrite B7, A9, Hsb6 by (done || unfold other_meta; lia). done. }
  split.
  - intros j d Hj. cbn zeta. set (i := Z.of_nat j + 2). pose proof (lookup_lt_Some _ _ _ Hj) as Hlt. rewrite length_fmap in Hlt.
    destruct (A5 j d Hj) as (F1 & F2 & F3 & F4). rewrite Hfi6 in *. replace (2 + Z.of_nat j) with i in * by (unfold i; lia).
    destruct (B2 i) as (S1 & S2 & S3 & S4); [change ROOTINO with 1; unfold i, n; lia|].
    specialize (Bf i ltac:(change ROOTINO with 1; unfold i, n; lia)). split_and!; congruence.
  - cbn zeta. fold n. split_and!; [congruence|congruence|done|by rewrite B3, A2, Hc6|]. rewrite <- A3. apply Bf. change ROOTINO with 1. lia.
  - fold n. by replace (n + 2) with (2 + n) by lia.
  - done.
  - rewrite Hmeta by lia. simpl. by rewrite upd_eq.
  - intros b Hb. rewrite Hmeta by (change nlog with 30 in Hb; lia). simpl. by rewrite upd_ne by lia.
Qed.

(** C10. mkfs builds a file system with the given files.  When the image and the arguments open, there
    are at most 198 files, none longer than a file can be, and there are enough blocks,
    mkfs exits with success and the image holds: the super block; for each argument, in order from
    inode 2 on, a file whose contents are exactly the bytes of the argument, in
    whatever pieces they were read; in the root directory the entries "." and ".." and one per argument
    with its inode and the last part of its path; a bitmap in which exactly the blocks below
    the first free one are used.  Every block of a file is a data block below the first free one
    and belongs to no other file. *)
Theorem mkfs_builds_files image files ws s : mk_disk s = zeros -> mk_len s = 0 -> mk_freeinode s = 1 -> 0 <= x_fd (mk_px s) ->
  Forall2 (fun f w => x_files (mk_px s) f = Some w /\ clean w /\ Z.of_nat (length (s_bytes w)) <= MAXFILE * BSIZE) files ws ->
  let n := Z.of_nat (length files) in n <= 198 ->
  nmeta + cost (16 * (n + 2)) + costs (s_bytes <$> ws) <= FSSIZE ->
  exists s', mkfs_main (fun _ => true) (image :: files) s = UExit 0 s' /\
    mk_disk s' 1 = sb_block mkfs_sb /\
    (forall j w, ws !! j = Some w -> let i := Z.of_nat j + 2 in
       itype s' i = T_FILE /\ inlink s' i = 1 /\ isize s' i = Z.of_nat (length (s_bytes w)) /\ contents s' i = s_bytes w) /\
    itype s' ROOTINO = T_DIR /\ isize s' ROOTINO = (16 * (n + 2) / BSIZE + 1) * BSIZE /\
    bytes (mk_disk s') (view (mk_disk s')) ROOTINO (16 * (n + 2)) = root_entries ++ entries 2 files /\
    blocks_ok (mk_disk s') (view (mk_disk s')) (n + 2) (mk_freeblock s') /\
    forall b, 0 <= b -> bit_free (mk_disk s' (sb_bmapstart mkfs_sb)) b = negb (b <? mk_freeblock s').
Proof.
  intros HD Hl Hi Hfd Hws n Hn Hroom. destruct (mkfs_run image files ws s) as (s' & E & [B1 (B2 & B3 & B4 & B5 & B6) B7 B8 B9 _]); try done.
  exists s'. split_and!; try done. intros j w Hj. cbn zeta. destruct (B1 j (s_bytes w)) as (F1 & F2 & F3 & F4 & F5); [by rewrite list_lookup_fmap, Hj|].
  done.
Qed.
End spec.
