(* ===== verification/ImageBoot.v ===== *)
(** * The kernel on an image of mkfs

    mkfs and the kernel agree on the format of the disk: the kernel that starts on an image
    of mkfs finds every file by its name and reads back its bytes. *)
From S2P Require Import Prelude Machine User Posix Mkfs Dinode MkfsSpec MkfsImage ProcQueue StringC Spinlock Kalloc Vm VmFrame Proc RunQueue ProcRun Sched UserMem Trap FsState Sleeplock Disk Bio Log Fs FsLogic BufList Cache LogSpec LogCrash PathSpec InodeSpec DirSpec.

(** ** The root directory *)

(** Its entries. *)
Definition dirents (files : list (list Z)) : list (list Z) :=
  dirent 1 [46] :: dirent 1 [46; 46] :: imap (fun j f => dirent (Z.of_nat j + 2) (basename f)) files.

Lemma entries_imap files : forall i, entries i files = concat (imap (fun j f => dirent (Z.of_nat j + i) (basename f)) files).
Proof.
  induction files as [|f files IH]; intros i; [done|]. cbn [entries imap concat]. rewrite IH. f_equal. f_equal. apply imap_ext.
  intros j g _. simpl. f_equal. lia.
Qed.
Lemma concat_dirents files : root_entries ++ entries 2 files = concat (dirents files).
Proof. by rewrite entries_imap. Qed.

Lemma dirents_length files : Forall (fun e => length e = 16%nat) (dirents files).
Proof.
  apply Forall_cons. split; [apply length_dirent|]. apply Forall_cons. split; [apply length_dirent|].
  apply Forall_forall. intros e (j & f & -> & _)%elem_of_lookup_imap. apply length_dirent.
Qed.

(** The chunks of a table of entries of the same length. *)
Lemma concat_chunk {A} (k : nat) (l : list (list A)) t e : Forall (fun e => length e = k) l -> l !! t = Some e ->
  take k (drop (k * t) (concat l)) = e.
Proof.
  intros Hl. revert t. induction Hl as [|x l Hx Hl IH]; intros t Ht; [done|]. simpl. destruct t as [|t].
  - injection Ht as ->. rewrite Nat.mul_0_r, drop_0. by rewrite take_app_length'.
  - simpl in Ht. rewrite drop_app_ge by lia. replace (k * S t - length x)%nat with (k * t)%nat by lia. by apply IH.
Qed.

Lemma dirent_fields i nm : 0 < i < 2 ^ 16 -> 0 ∉ nm -> Forall is_byte nm ->
  Forall is_byte (dirent i nm) /\ de_inum (dirent i nm) = i /\ name_of (de_name (dirent i nm)) = take (Z.to_nat DIRSIZ) nm.
Proof.
  intros Hi Hz Hb. unfold dirent. rewrite xshort_u16. unfold u16. rewrite Z.mod_small by lia. split_and!.
  - apply Forall_app. split; [constructor; [apply u8_range|]; constructor; [apply u8_range|constructor]|]. apply Forall_app. split; [by apply Forall_take|].
    apply Forall_replicate. unfold is_byte. lia.
  - unfold de_inum. simpl. unfold u8. rewrite Z.shiftr_div_pow2 by lia. change (2 ^ 8) with 256. Z.div_mod_to_equations. lia.
  - unfold de_name, name_of. cbn [app drop]. rewrite drop_0.
    rewrite take_ge by (rewrite length_app, length_take, length_replicate; lia).
    assert (0 ∉ take (Z.to_nat DIRSIZ) nm) as Hz' by (intros Hx; apply Hz; by eapply subseteq_take).
    destruct (Z.to_nat DIRSIZ - length nm)%nat eqn:E; [rewrite app_nil_r; by apply before_nul_id|]. simpl. by apply before_nul_app.
Qed.

Lemma u8_bytes l : Forall is_byte l -> u8 <$> l = l.
Proof. induction 1 as [|b l Hb _ IH]; [done|]. rewrite fmap_cons, IH. f_equal. by apply u8_small. Qed.

(** The characters of a C string. *)
Definition is_char (c : Z) : Prop := is_byte c /\ c <> 0.
Lemma chars_bytes l : Forall is_char l -> Forall is_byte l /\ 0 ∉ l.
Proof.
  intros Hl. split; [eapply Forall_impl; [exact Hl|by intros ? []]|]. intros H0. rewrite Forall_forall in Hl. by destruct (Hl 0 H0).
Qed.

Lemma last_component_chars path : forall cur, Forall is_char path -> Forall is_char cur -> Forall is_char (last_component path cur).
Proof.
  induction path as [|c path IH]; intros cur Hp Hc; simpl; [done|]. apply Forall_cons in Hp as [H1 H2].
  destruct (c =? 47); [case_bool_decide; [done|apply IH; [done|constructor]]|]. apply IH; [done|]. apply Forall_app. split; [done|]. by constructor.
Qed.
Lemma basename_chars path : Forall is_char path -> Forall is_char (basename path).
Proof.
  intros Hp. assert (forall c, 0 < c < 256 -> Forall is_char [c]) as Hone by (intros c Hc; constructor; [unfold is_char, is_byte; lia|constructor]).
  unfold basename. destruct path as [|c path]; [apply Hone; lia|].
  case_bool_decide; [apply Hone; lia|]. apply last_component_chars; [done|constructor].
Qed.

(** ** Files of the image as the kernel sees them *)

Section image.
Context (files datas : list (list Z)) (s : mk) (f0 : fstate low) (cont : Z -> block).
Hypothesis Hbuilt : built files datas s.
Hypothesis Hcount : Z.of_nat (length files) <= 198.
Hypothesis Hsb : l_sb (fs_low f0) = mkfs_sb.
Hypothesis Hnb : Cache.nblocks f0 = FSSIZE.
Hypothesis Hcont : forall b, 32 <= b -> cont b = mk_disk s b.
Local Notation D := (mk_disk s).
Local Notation V := (view (mk_disk s)).
Local Notation fi := (Z.of_nat (length files) + 2).

Lemma image_inode i : 1 <= i < fi -> disk_inode f0 cont i = V i.
Proof.
  intros Hi. unfold disk_inode, view. rewrite Hsb. destruct (IBLOCK_range i) as [_ Hb]; [mkc; lia|]. rewrite Hcont by lia. done.
Qed.

Lemma image_block i k : 1 <= i < fi -> 0 <= k < MAXFILE -> slot D V i k <> 0 ->
  file_block_at cont (di_addrs (V i)) k = slot D V i k /\ has_block FSSIZE cont (di_addrs (V i)) k.
Proof.
  intros Hi Hk H0. pose proof (bt_blocks _ _ _ Hbuilt) as Hok. pose proof (bo_fb _ _ _ _ Hok) as Hfb.
  destruct (MkfsSpec.bo_range _ _ _ _ Hok i k Hi (data_slot k Hk)) as [?|Hr]; [done|].
  assert (NDIRECT <= k -> nmeta <= di_addrs (V i) NDIRECT < mk_freeblock s) as Hind.
  { intros Hge. pose proof (MkfsSpec.bo_range _ _ _ _ Hok i (-1) Hi minus_slot) as Hr1. change (slot D V i (-1)) with (di_addrs (V i) NDIRECT) in Hr1.
    destruct Hr1 as [E|?]; [|done]. exfalso. apply H0. unfold slot. rewrite (proj2 (Z.eqb_neq k (-1))), (proj2 (Z.ltb_ge k NDIRECT)), E by lia. done. }
  assert (file_block_at cont (di_addrs (V i)) k = slot D V i k) as E.
  { unfold file_block_at, slot. rewrite (proj2 (Z.eqb_neq k (-1))) by lia. destruct (k <? NDIRECT) eqn:Ek; bool_to_prop; [done|].
    specialize (Hind ltac:(lia)). mkc. rewrite (proj2 (Z.eqb_neq (di_addrs (V i) 12) 0)) by lia. rewrite Hcont by lia. done. }
  split; [done|]. unfold has_block. rewrite E. mkc. split_and!; try lia.
Qed.

Lemma image_has_bytes i n off m : 1 <= i < fi -> filled D V i n -> n <= MAXFILE * BSIZE -> 0 <= off -> off + m <= n ->
  has_bytes f0 cont (di_addrs (V i)) off m.
Proof.
  intros Hi [Hf _] Hn Hoff Hm k Hk1 Hk2. rewrite Hnb. assert (0 <= k < MAXFILE) as Hk by (mkc; Z.div_mod_to_equations; lia).
  apply image_block; [done|done|]. apply Hf; [done|]. lia.
Qed.

Lemma image_bytes i n : 1 <= i < fi -> filled D V i n -> n <= MAXFILE * BSIZE ->
  file_bytes cont (di_addrs (V i)) 0 n = u8 <$> bytes D V i n.
Proof.
  intros Hi [Hf _] Hn. unfold file_bytes, bytes. rewrite <- list_fmap_compose. apply list_fmap_ext. intros j o [-> Ho]%lookup_seqZ.
  unfold file_byte, compose. assert (0 <= (0 + Z.of_nat j) / BSIZE < MAXFILE) as Hk by (mkc; Z.div_mod_to_equations; lia).
  assert (slot D V i ((0 + Z.of_nat j) / BSIZE) <> 0) as H0 by (apply Hf; [done|mkc; Z.div_mod_to_equations; lia]).
  destruct (image_block i _ Hi Hk H0) as [-> _]. pose proof (bt_blocks _ _ _ Hbuilt) as Hok.
  destruct (MkfsSpec.bo_range _ _ _ _ Hok i _ Hi (data_slot _ Hk)) as [?|Hr]; [done|]. rewrite Hcont by (mkc; lia). done.
Qed.

(** ** Lookup in the root *)

Hypothesis Hfiles : Forall (Forall is_char) files.

Lemma dirents_lookup t e : dirents files !! t = Some e -> exists i nm, e = dirent i nm /\ 0 < i < 2 ^ 16 /\ Forall is_byte nm /\ 0 ∉ nm /\
  match t with 0%nat => nm = [46] | 1%nat => nm = [46; 46] | S (S j) => i = Z.of_nat j + 2 /\ exists f, files !! j = Some f /\ nm = basename f end.
Proof.
  assert (forall l, Forall (fun c => c = 46) l -> Forall is_byte l /\ 0 ∉ l) as Hdots.
  { intros l Hl. apply chars_bytes. eapply Forall_impl; [exact Hl|]. intros c ->. unfold is_char, is_byte. lia. }
  destruct t as [|[|j]].
  - intros [= <-]. exists 1, [46]. split_and!; try done; apply Hdots; by repeat constructor.
  - intros [= <-]. exists 1, [46; 46]. split_and!; try done; apply Hdots; by repeat constructor.
  - change (dirents files !! S (S j)) with (imap (fun j f => dirent (Z.of_nat j + 2) (basename f)) files !! j). rewrite list_lookup_imap. destruct (files !! j) as [f|] eqn:E; [|done]. intros [= <-].
    pose proof (lookup_lt_Some _ _ _ E). rewrite Forall_lookup in Hfiles. destruct (chars_bytes _ (basename_chars f (Hfiles j f E))) as [Hb H0].
    eexists _, _. split_and!; [reflexivity|lia|lia|done|done|done|]. by exists f.
Qed.

Lemma dirents_count : length (dirents files) = (length files + 2)%nat.
Proof. simpl. rewrite length_imap. lia. Qed.

Lemma root_entry t e : dirents files !! t = Some e -> entry_at cont (di_addrs (V ROOTINO)) (16 * Z.of_nat t) = e.
Proof.
  intros Ht. pose proof (lookup_lt_Some _ _ _ Ht) as Hlt. rewrite dirents_count in Hlt.
  destruct (bt_root _ _ _ Hbuilt) as (_ & _ & _ & Hby & Hf). set (n := 16 * (Z.of_nat (length files) + 2)) in *.
  assert (1 <= ROOTINO < fi) as Hr by (change ROOTINO with 1; lia). assert (n <= MAXFILE * BSIZE) as Hn by (mkc; lia).
  assert (Forall is_byte (concat (dirents files))) as Hbytes.
  { apply Forall_concat, Forall_forall. intros x (u & Hu)%list_elem_of_lookup. destruct (dirents_lookup u x Hu) as (i & nm & -> & Hi & Hb & H0 & _).
    by apply dirent_fields. }
  assert (file_bytes cont (di_addrs (V ROOTINO)) 0 n = concat (dirents files)) as E.
  { rewrite (image_bytes ROOTINO n Hr Hf Hn), Hby, concat_dirents. by apply u8_bytes. }
  rewrite <- (concat_chunk 16 (dirents files) t e (dirents_length files) Ht), <- E. unfold entry_at.
  replace n with (16 * Z.of_nat t + (16 + (n - 16 * Z.of_nat t - 16))) by lia. rewrite !file_bytes_app by (unfold n; lia).
  rewrite drop_app_length' by (rewrite length_file_bytes; lia). by rewrite take_app_length' by (by rewrite length_file_bytes).
Qed.

Lemma root_directory : directory f0 cont ROOTINO.
Proof.
  assert (1 <= ROOTINO < fi) as Hr by (change ROOTINO with 1; lia). destruct (bt_root _ _ _ Hbuilt) as (Ht & Hk & _).
  split; rewrite ?(image_inode ROOTINO Hr).
  - rewrite Hsb, Hnb. destruct (IBLOCK_range ROOTINO) as [_ Hb]; [change ROOTINO with 1; mkc; lia|]. mkc. lia.
  - exact Ht.
  - fold (inlink s ROOTINO). rewrite Hk. done.
Qed.

(** The name under which argument [f] is found. *)
Definition entry_name (f : list Z) : list Z := take (Z.to_nat DIRSIZ) (basename f).

Lemma root_first j f : files !! j = Some f -> entry_name f <> [46] -> entry_name f <> [46; 46] ->
  (forall j' f', (j' < j)%nat -> files !! j' = Some f' -> entry_name f' <> entry_name f) ->
  first_entry f0 cont (disk_inode f0 cont ROOTINO) (entry_name f) (16 * (Z.of_nat j + 2)) (Z.of_nat j + 2).
Proof.
  intros Hj Hd1 Hd2 Hprev. pose proof (lookup_lt_Some _ _ _ Hj) as Hlt. assert (1 <= ROOTINO < fi) as Hr by (change ROOTINO with 1; lia).
  rewrite (image_inode ROOTINO Hr). destruct (bt_root _ _ _ Hbuilt) as (_ & _ & Hs & _ & Hf). fold (isize s ROOTINO).
  set (n := 16 * (Z.of_nat (length files) + 2)) in *.
  assert (forall t, (t < length files + 2)%nat -> exists e, dirents files !! t = Some e) as Hent
    by (intros t Ht; apply lookup_lt_is_Some_2; by rewrite dirents_count).
  destruct (Hent (S (S j)) ltac:(lia)) as (e & He). pose proof (root_entry _ _ He) as Ee.
  replace (16 * Z.of_nat (S (S j))) with (16 * (Z.of_nat j + 2)) in Ee by lia.
  destruct (dirents_lookup _ _ He) as (i & nm & -> & Hi & Hb & H0 & -> & f' & Hf' & ->).
  assert (f' = f) as -> by congruence. destruct (dirent_fields _ _ Hi H0 Hb) as (_ & Ei & En). split.
  - fold (isize s ROOTINO). rewrite Hs. split_and!; [lia|rewrite Z.mul_comm; apply Z.mod_mul; lia|..]; unfold n; mkc; Z.div_mod_to_equations; lia.
  - eapply image_has_bytes; [done|exact Hf|unfold n; mkc; lia|lia|unfold n; lia].
  - intros o Ho Hm. destruct (Hent (Z.to_nat (o / 16))) as (e & Hx); [Z.div_mod_to_equations; lia|]. pose proof (root_entry _ _ Hx) as Ex.
    replace (16 * Z.of_nat (Z.to_nat (o / 16))) with o in Ex by (Z.div_mod_to_equations; lia). rewrite Ex.
    destruct (dirents_lookup _ _ Hx) as (i' & nm & -> & Hi' & Hb' & H0' & Hcase). destruct (dirent_fields _ _ Hi' H0' Hb') as (_ & Ei' & En').
    unfold names. rewrite Ei', En', bool_decide_false; [apply andb_false_r|]. destruct (Z.to_nat (o / 16)) as [|[|j']] eqn:Et.
    + subst nm. intros E. by apply Hd1.
    + subst nm. intros E. by apply Hd2.
    + destruct Hcase as (_ & f2 & Hf2 & ->). apply (Hprev j'); [Z.div_mod_to_equations; lia|done].
  - rewrite Ee. unfold names. rewrite Ei, En. rewrite (proj2 (Z.eqb_neq _ 0)), bool_decide_true by (done || lia). done.
  - rewrite Ee. exact Ei.
Qed.
End image.

(** ** The kernel starts *)

Section boot.
Context (p : nat) (pid : Z) `{Symbols} `{DiskOk} `{DevSw} `{ErrText}.

(** main and the first process bring up the file system; then a file is looked up and read from its beginning. *)
Definition startup : M W unit :=
  binit ;;;
  iinit ROOTDEV ;;;
  initlog ROOTDEV.
Definition boot_and_read (path : list Z) (n : Z) : M W (Z * list Z) :=
  startup ;;;
  let* ip := namei path in
  ilock ip ;;;
  match ip with Some ip => readi put_local [] ip 0 n | None => ret (-1, []) end.

(** The memory of the kernel before it runs, with a disk attached. *)
Record fresh (d : Z -> block) (g : fstate low) : Prop := {
  fh_bufs : zeroed g;
  fh_refs i : i_ref (l_inode (fs_low g) i) = 0;
  fh_locks i : sl_locked (fs_sleep g (SLinode i)) = false;
  fh_disk : disk_of g = d;
  fh_size : Cache.nblocks g = FSSIZE;
}.

(** The state while iinit runs. *)
Record starting_up (d : Z -> block) (f : fstate low) : Prop := {
  su_cache : cache pid f d [] [];
  su_refs i : i_ref (l_inode (fs_low f) i) = 0;
  su_locks i : sl_locked (fs_sleep f (SLinode i)) = false;
  su_size : Cache.nblocks f = FSSIZE;
}.

Lemma starting_rest d f f' : starting_up d f -> cache pid f' d [] [] -> rest_same f f' -> starting_up d f'.
Proof.
  intros [H1' H2' H3' H4'] Hc R. pose proof (nblocks_rest _ _ R). destruct R. split; [done|..].
  - intros i. by rewrite rs_inode.
  - intros i. by rewrite rs_inode_lock.
  - congruence.
Qed.

Lemma mkfs_sb_read d : d 1 = sb_block mkfs_sb -> mkSb (load32 (d 1) 0) (load32 (d 1) 4) (load32 (d 1) 8) (load32 (d 1) 12) (load32 (d 1) 16)
  (load32 (d 1) 20) (load32 (d 1) 24) = mkfs_sb.
Proof. intros ->. vm_compute. done. Qed.

Lemma runs_iinit d f (Q : unit -> fstate low -> Prop) : starting_up d f -> d 1 = sb_block mkfs_sb ->
  (forall f', starting_up d f' -> l_sb (fs_low f') = mkfs_sb -> Q tt f') -> runs p pid (iinit 1) Q f.
Proof.
  intros Hs Hd HQ. unfold iinit. eapply runs_bind, runs_initlock, runs_bind, runs_mono.
  { apply (runs_foreach p pid None inodes _ (fun _ => starting_up d)); [done|]. intros _ i _ f1 _ [S1 S2 S3 S4].
    apply runs_initsleeplock. split; [by eapply cache_ext|done| |done].
    intros j. unfold put_sleep. simpl. rewrite upd_case. case_decide; [done|apply S3]. }
  intros [] f1 Hs1. eapply runs_bind, (runs_readsb p pid f1 d).
  - apply Hs1.
  - by rewrite (su_size _ _ Hs1).
  - intros f2 C2 R2 _. rewrite (mkfs_sb_read d Hd). pose proof (starting_rest _ _ _ Hs1 C2 R2) as [S1 S2 S3 S4].
    apply runs_low_modify, HQ; [|done]. split; [by eapply cache_ext|done|done|done].
Qed.

(** The file system is up: a quiet state on the blocks of the image. *)
Lemma runs_startup files datas s g (Q : unit -> fstate low -> Prop) : built files datas s -> fresh (mk_disk s) g ->
  (forall f cont, fsview pid f cont [] [] (l_inode (fs_low f)) (fun i => fs_sleep f (SLinode i)) f ->
     (forall i, i_ref (l_inode (fs_low f) i) = 0) -> unlocked (fun i => fs_sleep f (SLinode i)) ->
     l_sb (fs_low f) = mkfs_sb -> Cache.nblocks f = FSSIZE -> (forall b, 32 <= b -> cont b = mk_disk s b) -> Q tt f) ->
  runs p pid startup Q g.
Proof.
  intros Hb [F1 F2 F3 F4 F5] HQ. eapply runs_bind, runs_binit; [done|]. intros f1 C1 R1 _. rewrite F4 in C1.
  assert (starting_up (mk_disk s) f1) as S1.
  { pose proof (nblocks_rest _ _ R1). destruct R1. split; [done|intros i; by rewrite rs_inode|intros i; by rewrite rs_inode_lock|congruence]. }
  eapply runs_bind, (runs_iinit (mk_disk s) f1 _ S1); [apply Hb|]. intros f2 S2 Esb.
  assert (layout FSSIZE 2 nlog) as Hly by (split; unfold outside; change nlog with 30; change FSSIZE with 1000; unfold LOGSIZE, MAXOPBLOCKS; lia).
  eapply (runs_initlog FSSIZE 2 nlog Hly p pid f2 (mk_disk s) (mk_disk s) []).
  - apply S2.
  - apply S2.
  - by apply logged_nil.
  - rewrite <- (Z.add_0_r 2) at 1. split; rewrite ?Z.add_0_r, ?(bt_log _ _ _ Hb 2) by (change nlog with 30; lia); done.
  - split; rewrite (bt_super _ _ _ Hb); vm_compute; done.
  - intros h0 lg f3 Hh [A1 A2 _ _]. pose proof (nblocks_rest _ _ A2) as En. destruct A2. simpl in *. destruct S2 as [_ T2 T3 T4].
    apply (HQ f3 (upd (mk_disk s) 2 h0)).
    + split; try done. by intros b ?%elem_of_nil.
    + intros i. by rewrite rs_inode.
    + intros i. by rewrite rs_inode_lock.
    + congruence.
    + rewrite <- T4. exact En.
    + intros b Hb'. by rewrite upd_ne by lia.
Qed.

Lemma runs_boot_and_read files datas s g j f d path n : built files datas s -> Z.of_nat (length files) <= 198 -> Forall (Forall is_char) files ->
  fresh (mk_disk s) g -> files !! j = Some f -> datas !! j = Some d -> Forall is_byte d -> Z.of_nat (length d) <= MAXFILE * BSIZE ->
  entry_name f <> [46] -> entry_name f <> [46; 46] ->
  (forall j' f', (j' < j)%nat -> files !! j' = Some f' -> entry_name f' <> entry_name f) ->
  head path = Some slash -> Forall is_char path -> elements path = [entry_name f] -> 0 <= n < 2 ^ 32 ->
  runs p pid (boot_and_read path n) (fun r _ => r = (Z.min n (Z.of_nat (length d)), take (Z.to_nat n) d)) g.
Proof.
  intros Hb Hcnt Hfs Hg Hf Hd Hdb Hlen Hn1 Hn2 Hprev Hhd Hpath Hel Hn. pose proof (lookup_lt_Some _ _ _ Hf) as Hlt.
  set (k := Z.of_nat j + 2). assert (1 <= k < Z.of_nat (length files) + 2) as Hk by (unfold k; lia).
  destruct (chars_bytes _ Hpath) as [Hpb Hp0]. destruct (bt_files _ _ _ Hb j d Hd) as (T1 & T2 & T3 & T4 & T5). fold k in T1, T2, T3, T4, T5.
  unfold boot_and_read. eapply runs_bind, (runs_startup files datas s g); [done..|]. intros f0 cont Hv Hrefs HL Esb Enb Hcont.
  set (I := l_inode (fs_low f0)) in *. set (L := fun i => fs_sleep f0 (SLinode i)) in *.
  assert (icache_ok f0 cont I) as HI by (split; intros i; rewrite (Hrefs i); lia).
  assert (two_free I) as Hfree by (exists 0%nat, 1%nat; unfold inodes, NINODE; rewrite !elem_of_seq; split_and!; try done; lia).
  assert (disk_inode f0 cont k = view (mk_disk s) k) as Ev by by apply (image_inode files).
  eapply runs_bind, (runs_namei p pid f0 cont [] ltac:(unfold NBUF; simpl; lia) I L f0 path k); try done.
  { rewrite Hel. eapply reaches_entry; [by eapply root_directory|by eapply root_first|apply reaches_here]. }
  intros ip X L' f1 Hv1 HL1 [R1 _ R3 R4]. specialize (R3 ip). rewrite R1, decide_True, (Hrefs ip) in R3 by done. destruct (R3 ltac:(lia)) as [R5 R6].
  rewrite R4, Ev in R6.
  eapply runs_bind, (runs_ilock p pid f0 cont [] ltac:(unfold NBUF; simpl; lia) X L' f1 ip); [done|rewrite R1, decide_True, (Hrefs ip) by done; lia|apply HL1| |].
  { intros _. rewrite R4, Ev, Esb, Enb. split_and!; try done; [..|fold (itype s k); by rewrite T1]; destruct (IBLOCK_range k); mkc; lia. }
  set (x := brought f0 cont (X ip)). assert (x = loaded x (view (mk_disk s) k)) as Ex.
  { unfold x, brought. destruct (i_valid (X ip)); [auto|]. by rewrite R4, Ev. }
  assert (i_dev x = 1) as Edev by (unfold x, brought; by destruct (i_valid (X ip))).
  intros f2 Hv2. clearbody x. set (X2 := upd X ip x) in *. assert (X2 ip = x) as E2 by (unfold X2; by rewrite upd_eq).
  assert (i_type x = T_FILE /\ i_size x = Z.of_nat (length d) /\ i_addrs x = di_addrs (view (mk_disk s) k)) as (X3 & X4 & X5).
  { rewrite Ex. split_and!; [exact T1|exact T3|done]. }
  eapply (runs_readi p pid f0 cont [] ltac:(unfold NBUF; simpl; lia) X2 _ f2 ip 0 n _ Hv2); rewrite ?E2, ?X3, ?X4, ?X5; try done; try (mkc; lia).
  - rewrite T3 in T5. eapply image_has_bytes; [done..|exact T5|done|lia|unfold readable; lia].
  - intros f3 _. unfold readable. rewrite Z.sub_0_r. set (m := Z.min n _). rewrite s32_small by (unfold m; mkc; lia).
    rewrite T3 in T5. rewrite <- (take_file_bytes _ _ m (Z.of_nat (length d))) by (unfold m; lia).
    rewrite (image_bytes files datas s cont) by done. rewrite <- T3. fold (contents s k). rewrite T4. f_equal.
    rewrite u8_bytes by done.
    destruct (decide (n <= Z.of_nat (length d))); [by unfold m; rewrite Z.min_l|]. unfold m. rewrite !take_ge by lia. done.
Qed.

(** C5. mkfs and the kernel agree: when mkfs has built an image from files (with room for them, as in the theorem on
    mkfs) and a kernel starts on it, brings up buffers, inodes and log, looks up "/name" of one of the files (the last
    part of its argument, cut to DIRSIZ characters, and the first with that name) and reads it from the beginning, then it gets exactly the
    bytes that the file had, as many as it asked for. *)
Theorem mkfs_boot_reads_back image files ws s : mk_disk s = zeros -> mk_len s = 0 -> mk_freeinode s = 1 -> 0 <= x_fd (mk_px s) ->
  Forall2 (fun f w => x_files (mk_px s) f = Some w /\ clean w /\ Z.of_nat (length (s_bytes w)) <= MAXFILE * BSIZE) files ws ->
  Z.of_nat (length files) <= 198 -> nmeta + cost (16 * (Z.of_nat (length files) + 2)) + costs (s_bytes <$> ws) <= FSSIZE ->
  Forall (Forall is_char) files -> Forall (fun w => Forall is_byte (s_bytes w)) ws ->
  exists s', mkfs_main (fun _ => true) (image :: files) s = UExit 0 s' /\
    forall g j f w path n, fresh (mk_disk s') g -> files !! j = Some f -> ws !! j = Some w ->
      entry_name f <> [46] -> entry_name f <> [46; 46] ->
      (forall j' f', (j' < j)%nat -> files !! j' = Some f' -> entry_name f' <> entry_name f) ->
      head path = Some slash -> Forall is_char path -> elements path = [entry_name f] -> 0 <= n < 2 ^ 32 ->
      runs p pid (boot_and_read path n)
        (fun r _ => r = (Z.min n (Z.of_nat (length (s_bytes w))), take (Z.to_nat n) (s_bytes w))) g.
Proof.
  intros HD Hl Hi Hfd Hws Hn Hroom Hch Hby. destruct (mkfs_run image files ws s HD Hl Hi Hfd Hws Hn Hroom) as (s' & E & Hb).
  exists s'. split; [done|]. intros g j f w path n Hg Hf Hw. rewrite Forall_lookup in Hby.
  assert (Z.of_nat (length (s_bytes w)) <= MAXFILE * BSIZE) as Hlen by (by destruct (Forall2_lookup_lr _ _ _ _ _ _ Hws Hf Hw) as (_ & _ & ?)).
  eapply runs_boot_and_read; [exact Hb|done|done|done|exact Hf|by rewrite list_lookup_fmap, Hw|by eapply Hby|done].
Qed.
End boot.
