(* ===== verification/Programs.v ===== *)
(** * ls and the programs of a few calls (user/ls.c, mkdir.c, rm.c, ln.c, kill.c, date.c, zombie.c, init.c; stat of ulib.c)

    The programs run in the monad [U] of User.  The calls they make beyond reading and writing files are the
    class [Calls]: what the kernel answers, and what it does to the files the process sees.  A successful
    exec does not return: an instance of [Calls] ends it as it likes. *)
From Stdlib Require Import String.
From S2P Require Import Prelude Machine StringC Disk User.

Definition T_DIR : Z := 1.
Definition T_FILE : Z := 2.
Definition DIRSIZ : nat := 14.
Definition slash : Z := 47.

(** struct stat, without dev and nlink; struct rtcdate. *)
Record ustat := mkUstat { st_type : Z; st_ino : Z; st_size : Z }.
Record udate := mkUdate { ud_second : Z; ud_minute : Z; ud_hour : Z; ud_day : Z; ud_month : Z; ud_year : Z }.

Class Calls := {
  fstat : Z -> U uio (option ustat);
  mkdir : list Z -> U uio Z;
  unlink : list Z -> U uio Z;
  link : list Z -> list Z -> U uio Z;
  kill : Z -> U uio Z;
  date : U uio (option udate);
  fork : U uio Z;
  sleep : Z -> U uio Z;
  open_rw : list Z -> U uio Z;
  mknod : list Z -> Z -> Z -> U uio Z;
  dup : Z -> U uio Z;
  exec : list Z -> list (list Z) -> U uio Z;
  wait : U uio Z;
}.

(** ** ls.c: names *)

(** The index after the last slash before [n]; the pointer of the code is [path + n - 1]. *)
Fixpoint name_start (path : list Z) (n : nat) : nat :=
  match n with
  | O => O
  | S p => if nth p path 0 =? slash then S p else name_start path p
  end.

(** The rest of the static buffer stays zero, so its string is the DIRSIZ characters that are stored. *)
Definition fmtname (path : list Z) : list Z :=
  let p := drop (name_start path (S (length path))) path in
  if (DIRSIZ <=? length p)%nat then p else p ++ replicate (DIRSIZ - length p) 32.

Section programs.
Context `{Calls}.

(** ** ulib.c: stat *)

Definition stat (n : list Z) : U uio (option ustat) :=
  do fd <- open n;
  if fd <? 0 then uret None else
  do r <- fstat fd;
  close fd ;;
  uret r.

(** ** ls.c *)

Definition ls_line (name : list Z) (st : ustat) : U uio unit :=
  printf 1 "%s %d %d %d
" [PStr (fmtname name); PInt (st_type st); PInt (st_ino st); PInt (st_size st)].

(** The characters before the first NUL. *)
Fixpoint c_string (bs : list Z) : list Z :=
  match bs with [] => [] | b :: bs' => if b =? 0 then [] else b :: c_string bs' end.

(** One struct dirent: inum in two bytes, then the name. *)
Definition ls_entry (path de : list Z) : U uio unit :=
  if load16 (fun i => nth (Z.to_nat i) de 0) 0 =? 0 then uret tt else
  let buf := path ++ slash :: c_string (take DIRSIZ (drop 2 de)) in
  do st <- stat buf;
  match st with
  | None => printf 1 "ls: cannot stat %s
" [PStr buf]
  | Some st => ls_line buf st
  end.

Fixpoint ls_loop (fuel : nat) (path : list Z) (fd : Z) : U uio unit :=
  match fuel with
  | O => uspin
  | S f =>
    do r <- read fd 16;
    if negb (r.1 =? 16) then uret tt else
    ls_entry path r.2 ;;
    ls_loop f path fd
  end.

(** The fuel is the number of bytes still to be read, and one for the end. *)
Definition ls_dir (path : list Z) (fd : Z) : U uio unit :=
  if (512 <? length path + 1 + DIRSIZ + 1)%nat then printf 1 "ls: path too long
" [] else
  do n <- ugets (fun s => length (s_bytes (u_in s fd)));
  ls_loop (S n) path fd.

Definition ls (path : list Z) : U uio unit :=
  do fd <- open path;
  if fd <? 0 then printf 2 "ls: cannot open %s
" [PStr path] else
  do st <- fstat fd;
  match st with
  | None =>
    printf 2 "ls: cannot stat %s
" [PStr path] ;;
    close fd ;; uret tt
  | Some st =>
    (if st_type st =? T_FILE then ls_line path st
     else if st_type st =? T_DIR then ls_dir path fd
     else uret tt) ;;
    close fd ;; uret tt
  end.

Definition ls_main (argv : list (list Z)) : U uio unit :=
  match argv with
  | _ :: ((_ :: _) as args) => uforeach args ls ;; exit EXIT_SUCCESS
  | _ => ls (str ".") ;; exit EXIT_SUCCESS
  end.

(** ** mkdir.c and rm.c *)

Fixpoint mkdir_loop (args : list (list Z)) : U uio unit :=
  match args with
  | [] => uret tt
  | a :: args' =>
    do r <- mkdir a;
    if r <? 0 then printf 2 "mkdir: %s failed to create
" [PStr a] else mkdir_loop args'
  end.
Definition mkdir_main (argv : list (list Z)) : U uio unit :=
  if (length argv <? 2)%nat then printf 2 "Usage: mkdir files...
" [] ;; exit EXIT_FAILURE else
  mkdir_loop (tail argv) ;;
  exit EXIT_SUCCESS.

Fixpoint rm_loop (args : list (list Z)) : U uio unit :=
  match args with
  | [] => uret tt
  | a :: args' =>
    do r <- unlink a;
    if r <? 0 then printf 2 "rm: %s failed to delete
" [PStr a] else rm_loop args'
  end.
Definition rm_main (argv : list (list Z)) : U uio unit :=
  if (length argv <? 2)%nat then printf 2 "Usage: rm files...
" [] ;; exit EXIT_FAILURE else
  rm_loop (tail argv) ;;
  exit EXIT_SUCCESS.

(** ** ln.c, kill.c, date.c, zombie.c *)

Definition ln_main (argv : list (list Z)) : U uio unit :=
  match argv with
  | [_; old; new] =>
    do r <- link old new;
    (if r <? 0 then printf 2 "link %s %s: failed
" [PStr old; PStr new] else uret tt) ;;
    exit EXIT_SUCCESS
  | _ => printf 2 "Usage: ln old new
" [] ;; exit EXIT_FAILURE
  end.

Definition kill_main (argv : list (list Z)) : U uio unit :=
  if (length argv <? 2)%nat then printf 2 "usage: kill pid...
" [] ;; exit EXIT_FAILURE else
  uforeach (tail argv) (fun a => kill (atoi a) ;; uret tt) ;;
  exit EXIT_SUCCESS.

Definition date_main : U uio unit :=
  do r <- date;
  match r with
  | None => printf_loop 2 false (str "Fallo de la llamada al sistema " ++ 34 :: str "date" ++ [34; 10]) [] ;; exit EXIT_FAILURE
  | Some r =>
    printf 1 "Fecha actual %d/%d/%d %d:%d:%d
" [PInt (ud_day r); PInt (ud_month r); PInt (ud_year r); PInt (ud_hour r); PInt (ud_minute r); PInt (ud_second r)] ;;
    exit EXIT_SUCCESS
  end.

Definition zombie_main : U uio unit :=
  do pid <- fork;
  (if pid >? 0 then sleep 5 ;; uret tt else uret tt) ;;
  exit EXIT_SUCCESS.

(** ** init.c *)

(** Waits for [pid], at most [fuel] times. *)
Fixpoint init_wait (fuel : nat) (pid : Z) : U uio unit :=
  match fuel with
  | O => uspin
  | S f =>
    do wpid <- wait;
    if (0 <=? wpid) && negb (wpid =? pid) then printf 1 "zombie!
" [] ;; init_wait f pid else uret tt
  end.

(** The endless loop, cut off after [rounds] shells. *)
Fixpoint init_loop (rounds fuel : nat) : U uio unit :=
  match rounds with
  | O => uspin
  | S n =>
    printf 1 "init: starting sh
" [] ;;
    do pid <- fork;
    if pid <? 0 then printf 1 "init: fork failed
" [] ;; exit EXIT_FAILURE else
    if pid =? 0 then
      exec (str "sh") [str "sh"] ;;
      printf 1 "init: exec sh failed
" [] ;;
      exit EXIT_FAILURE
    else init_wait fuel pid ;; init_loop n fuel
  end.

Definition init_main (rounds fuel : nat) : U uio unit :=
  do fd <- open_rw (str "console");
  (if fd <? 0 then mknod (str "console") 1 1 ;; open_rw (str "console") ;; uret tt else uret tt) ;;
  dup 0 ;;
  dup 0 ;;
  init_loop rounds fuel.
End programs.

(** ** Names *)

(** The part of a path after its last slash. *)
Fixpoint basename (path : list Z) : list Z :=
  match path with
  | [] => []
  | c :: path' => if bool_decide (slash ∈ path) then basename path' else path
  end.

Lemma name_start_noslash path n : slash ∉ path -> name_start path n = O.
Proof.
  intros Hs. induction n as [|p IH]; simpl; [done|]. destruct (nth p path 0 =? slash) eqn:E; [|done]. apply Z.eqb_eq in E.
  destruct (nth_in_or_default p path 0) as [Hi|Hd]; [|rewrite Hd in E; discriminate].
  rewrite E in Hi. apply list_elem_of_In in Hi. done.
Qed.

Lemma name_start_cons c path n : slash ∈ take n path -> name_start (c :: path) (S n) = S (name_start path n).
Proof.
  induction n as [|p IH]; intros Hs; [by apply not_elem_of_nil in Hs|].
  change (name_start (c :: path) (S (S p))) with (if nth p path 0 =? slash then S (S p) else name_start (c :: path) (S p)).
  cbn [name_start]. destruct (nth p path 0 =? slash) eqn:E; [done|]. apply IH. apply Z.eqb_neq in E.
  destruct (path !! p) as [x|] eqn:Ex.
  - rewrite (take_S_r _ _ _ Ex) in Hs. rewrite (nth_lookup_Some _ _ _ _ Ex) in E. set_solver.
  - apply lookup_ge_None in Ex. by rewrite take_ge in Hs |- * by lia.
Qed.

Lemma name_start_first path n : slash ∉ path -> name_start (slash :: path) (S n) = 1%nat.
Proof.
  intros Hs. induction n as [|p IH]; [done|].
  change (name_start (slash :: path) (S (S p))) with (if nth p path 0 =? slash then S (S p) else name_start (slash :: path) (S p)).
  rewrite IH. pose proof (name_start_noslash path (S p) Hs) as Hn. cbn [name_start] in Hn. by destruct (_ =? _).
Qed.

Lemma basename_noslash path : slash ∉ path -> basename path = path.
Proof. destruct path; [done|]. intros Hs. simpl. by rewrite bool_decide_eq_false_2. Qed.

Lemma name_start_basename path : drop (name_start path (S (length path))) path = basename path.
Proof.
  induction path as [|c path IH]; [done|]. simpl length. cbn [basename]. destruct (decide (slash ∈ path)) as [Hs|Hs].
  - rewrite bool_decide_eq_true_2 by by right. rewrite name_start_cons by (rewrite take_ge by lia; done). exact IH.
  - destruct (decide (c = slash)) as [->|Hc].
    + rewrite bool_decide_eq_true_2 by left. by rewrite name_start_first, basename_noslash by done.
    + rewrite bool_decide_eq_false_2 by set_solver. rewrite name_start_noslash by set_solver. done.
Qed.

(** ls shows the last component of a path, padded with blanks to a column of DIRSIZ characters. *)
Theorem fmtname_basename path : fmtname path = basename path ++ replicate (DIRSIZ - length (basename path)) 32 /\
  slash ∉ basename path /\ exists dir, path = dir ++ basename path.
Proof.
  split_and!.
  - unfold fmtname. rewrite name_start_basename. destruct (DIRSIZ <=? _)%nat eqn:E; [|done]. apply Nat.leb_le in E.
    replace (DIRSIZ - length (basename path))%nat with 0%nat by lia. by rewrite app_nil_r.
  - induction path as [|c path IH]; [apply not_elem_of_nil|]. cbn [basename]. by case_bool_decide.
  - exists (take (name_start path (S (length path))) path). by rewrite <- name_start_basename, take_drop.
Qed.
