(* ===== verification/Boot.v ===== *)
(** * The boot loader (bootmain.c)

    bootmain runs on the bare machine: physical memory and the ports of the first disk, the
    class [BootPorts] over a device state [D].  [BootDisk] is what the code relies on of
    the controller: its registers, a status that becomes ready within [polls] reads, and
    the data of the sector that was asked for.  bootmain either returns to bootasm.S or
    jumps to the entry point, which is its result. *)
From S2P Require Import Prelude Machine ProcQueue StringC Spinlock Kalloc Vm VmFrame Proc RunQueue ProcRun Sched UserMem Trap FsState Pipe Sleeplock Disk Bio Log Fs File Exec.

Definition SECTSIZE : Z := 512.
(** The scratch space for the first page of the image. *)
Definition ELF_SCRATCH : Z := 0x10000.

Record bst (D : Type) := mkBst { bt_mem : mem; bt_dev : D }.
Arguments mkBst {D} _ _.
Arguments bt_mem {D} _.
Arguments bt_dev {D} _.

(** in and out on bytes, and rep insl of a number of words. *)
Class BootPorts (D : Type) := {
  bp_in : Z -> D -> Z * D;
  bp_out : Z -> Z -> D -> D;
  bp_insl : Z -> Z -> D -> list Z * D;
}.

Section bootmain.
Context {D : Type} `{BootPorts D} (polls : nat).

Definition b_inb (port : Z) : M (bst D) Z := fun s =>
  let '(v, d) := bp_in port (bt_dev s) in Ret v (mkBst (bt_mem s) d).
Definition b_outb (port v : Z) : M (bst D) unit :=
  modify (fun s => mkBst (bt_mem s) (bp_out port v (bt_dev s))).
Definition b_insl (port dst cnt : Z) : M (bst D) unit := fun s =>
  let '(bs, d) := bp_insl port cnt (bt_dev s) in Ret tt (mkBst (blit (bt_mem s) dst bs) d).

Fixpoint waitdisk (fuel : nat) : M (bst D) unit :=
  match fuel with
  | O => out_of_fuel
  | S f =>
    let* r := b_inb 0x1F7 in
    if Z.land r 0xC0 =? 0x40 then ret tt else waitdisk f
  end.

Definition readsect (dst offset : Z) : M (bst D) unit :=
  waitdisk polls ;;;
  b_outb 0x1F2 1 ;;;
  b_outb 0x1F3 (u8 offset) ;;;
  b_outb 0x1F4 (u8 (Z.shiftr offset 8)) ;;;
  b_outb 0x1F5 (u8 (Z.shiftr offset 16)) ;;;
  b_outb 0x1F6 (u8 (Z.lor (Z.shiftr offset 24) 0xE0)) ;;;
  b_outb 0x1F7 0x20 ;;;
  waitdisk polls ;;;
  b_insl 0x1F0 dst (SECTSIZE / 4).

Fixpoint readseg_loop (fuel : nat) (pa epa offset : Z) : M (bst D) unit :=
  match fuel with
  | O => out_of_fuel
  | S f =>
    if pa <? epa then
      readsect pa offset ;;;
      readseg_loop f (u32 (pa + SECTSIZE)) epa (u32 (offset + 1))
    else ret tt
  end.

(** The fuel is the number of sectors, and one for the last test. *)
Definition readseg (pa count offset : Z) : M (bst D) unit :=
  let epa := u32 (pa + count) in
  let pa := u32 (pa - offset mod SECTSIZE) in
  readseg_loop (S (Z.to_nat ((epa - pa + SECTSIZE - 1) / SECTSIZE))) pa epa (offset / SECTSIZE + 1).

(** The loop over the program headers from [ph] to [eph]. *)
Fixpoint load_kernel (fuel : nat) (ph eph : Z) : M (bst D) unit :=
  match fuel with
  | O => out_of_fuel
  | S f =>
    if ph <? eph then
      let* m := gets bt_mem in
      let pa := load32 m (ph + 12) in
      readseg pa (load32 m (ph + 16)) (load32 m (ph + 4)) ;;;
      let* m := gets bt_mem in
      when (load32 m (ph + 20) >? load32 m (ph + 16))
        (modify (fun s => mkBst (stosb (u32 (pa + load32 m (ph + 16))) 0
           (load32 m (ph + 20) - load32 m (ph + 16)) (bt_mem s)) (bt_dev s))) ;;;
      load_kernel f (u32 (ph + 32)) eph
    else ret tt
  end.

Definition bootmain : M (bst D) (option Z) :=
  readseg ELF_SCRATCH 4096 0 ;;;
  let* m := gets bt_mem in
  if negb (load32 m ELF_SCRATCH =? ELF_MAGIC) then ret None else
  let ph := u32 (ELF_SCRATCH + load32 m (ELF_SCRATCH + 28)) in
  let phnum := load16 m (ELF_SCRATCH + 44) in
  let eph := u32 (ph + 32 * phnum) in
  load_kernel (S (Z.to_nat phnum)) ph eph ;;;
  let* m := gets bt_mem in
  ret (Some (load32 m (ELF_SCRATCH + 24))).
End bootmain.

(** ** The disk controller *)

(** What can be seen of a controller: its registers, the sector whose data are ready, and
    the sectors. *)
Record ata := mkAta {
  at_regs : Z -> Z;  (* the registers 0x1F2 to 0x1F6 *)
  at_data : option Z;
  at_disk : Z -> Z -> Z;  (* sector, byte *)
}.

(** The sector in the registers, in logical block addressing. *)
Definition ata_lba (r : Z -> Z) : Z :=
  r 0x1F3 + 256 * r 0x1F4 + 65536 * r 0x1F5 + 16777216 * (r 0x1F6 mod 16).

Class BootDisk (D : Type) `{BootPorts D} (polls : nat) := {
  bd_view : D -> ata;
  bd_in d : bd_view (bp_in 0x1F7 d).2 = bd_view d;
  bd_ready d : exists k, (k < polls)%nat /\
    Z.land (bp_in 0x1F7 (Nat.iter k (fun d => (bp_in 0x1F7 d).2) d)).1 0xC0 = 0x40;
  bd_out d p v : 0x1F2 <= p <= 0x1F6 ->
    bd_view (bp_out p v d) = mkAta (upd (at_regs (bd_view d)) p v) None (at_disk (bd_view d));
  bd_read d : at_regs (bd_view d) 0x1F2 = 1 -> Z.land (at_regs (bd_view d) 0x1F6) 0xE0 = 0xE0 ->
    bd_view (bp_out 0x1F7 0x20 d) =
      mkAta (at_regs (bd_view d)) (Some (ata_lba (at_regs (bd_view d)))) (at_disk (bd_view d));
  bd_insl d n : at_data (bd_view d) = Some n ->
    (bp_insl 0x1F0 128 d).1 = (fun i => at_disk (bd_view d) n i) <$> seqZ 0 512 /\
    at_disk (bd_view (bp_insl 0x1F0 128 d).2) = at_disk (bd_view d);
}.

(** ** Reading sectors *)

(** The bytes of a sector in the registers. *)
Lemma lba_bytes n (r : Z -> Z) : 0 <= n < 2 ^ 28 -> r 0x1F3 = u8 n -> r 0x1F4 = u8 (Z.shiftr n 8) ->
  r 0x1F5 = u8 (Z.shiftr n 16) -> r 0x1F6 = u8 (Z.lor (Z.shiftr n 24) 0xE0) ->
  ata_lba r = n /\ Z.land (r 0x1F6) 0xE0 = 0xE0.
Proof.
  intros Hn H3 H4 H5 H6. unfold ata_lba. rewrite H3, H4, H5, H6. rewrite !Z.shiftr_div_pow2 by lia.
  change (2 ^ 8) with 256. change (2 ^ 16) with 65536. change (2 ^ 24) with 16777216. set (t := n / 16777216).
  assert (0 <= t < 16) as Ht by (unfold t; split; [apply Z.div_pos|apply Z.div_lt_upper_bound]; lia).
  assert (Z.lor t 0xE0 = 0xE0 + t) as -> by (rewrite Z.lor_comm; apply (lor_add_low 0xE0 t 5); [lia|done|lia]).
  rewrite (u8_small (0xE0 + t)) by lia. split.
  - unfold u8. change (2 ^ 8) with 256. subst t. Z.div_mod_to_equations. lia.
  - assert (t = 0 \/ t = 1 \/ t = 2 \/ t = 3 \/ t = 4 \/ t = 5 \/ t = 6 \/ t = 7 \/ t = 8 \/ t = 9 \/ t = 10 \/
      t = 11 \/ t = 12 \/ t = 13 \/ t = 14 \/ t = 15) as Hc by lia. destruct_or! Hc; by rewrite Hc.
Qed.

Section boot_lemmas.
Context {D : Type} `{BootPorts D} (polls : nat) `{!BootDisk D polls}.

Lemma waitdisk_run fuel k m d : (k < fuel)%nat ->
  Z.land (bp_in 0x1F7 (Nat.iter k (fun d => (bp_in 0x1F7 d).2) d)).1 0xC0 = 0x40 ->
  exists d', waitdisk fuel (mkBst m d) = Ret tt (mkBst m d') /\ bd_view d' = bd_view d.
Proof.
  revert k d. induction fuel as [|fuel IH]; intros k d Hk Hs; [lia|]. simpl. unfold bind at 1, b_inb. simpl.
  pose proof (bd_in (polls := polls) d) as Hv. destruct (bp_in 0x1F7 d) as [v d1] eqn:E. simpl in Hv.
  destruct (Z.land v 0xC0 =? 0x40) eqn:Ev; [by exists d1|]. destruct k as [|k].
  - simpl in Hs. rewrite E in Hs. simpl in Hs. apply Z.eqb_neq in Ev. lia.
  - destruct (IH k d1) as (d' & Ed & Hd); [lia| |].
    + rewrite Nat.iter_succ_r, E in Hs. done.
    + exists d'. rewrite Hd. done.
Qed.

Lemma wait_ready m d : exists d', waitdisk polls (mkBst m d) = Ret tt (mkBst m d') /\ bd_view d' = bd_view d.
Proof. destruct (bd_ready (polls := polls) d) as (k & Hk & Hs). by eapply waitdisk_run. Qed.

(** The bytes of a sector. *)
Definition sector (d : D) (n : Z) : list Z := (fun i => at_disk (bd_view d) n i) <$> seqZ 0 512.

Lemma readsect_run dst n m d : 0 <= n < 2 ^ 28 -> exists d',
  readsect polls dst n (mkBst m d) = Ret tt (mkBst (blit m dst (sector d n)) d') /\
  at_disk (bd_view d') = at_disk (bd_view d).
Proof.
  intros Hn. unfold readsect. destruct (wait_ready m d) as (d1 & E1 & V1). step E1. clear E1.
  unfold b_outb, modify. do 6 (erewrite bind_Ret by reflexivity). simpl.
  set (d2 := bp_out 0x1F6 _ _).
  assert (bd_view d2 = mkAta (upd (upd (upd (upd (upd (at_regs (bd_view d)) 0x1F2 1) 0x1F3 (u8 n)) 0x1F4 (u8 (Z.shiftr n 8)))
      0x1F5 (u8 (Z.shiftr n 16))) 0x1F6 (u8 (Z.lor (Z.shiftr n 24) 0xE0))) None (at_disk (bd_view d))) as V2.
  { unfold d2. rewrite !bd_out by lia. simpl. by rewrite V1. }
  destruct (lba_bytes n (at_regs (bd_view d2))) as [Hl He]; [done|rewrite V2; done..|].
  assert (bd_view (bp_out 0x1F7 0x20 d2) = mkAta (at_regs (bd_view d2)) (Some n) (at_disk (bd_view d))) as V3.
  { rewrite bd_read, Hl; [by rewrite V2|by rewrite V2|done]. }
  destruct (wait_ready m (bp_out 0x1F7 0x20 d2)) as (d4 & E4 & V4). step E4. unfold b_insl. simpl.
  destruct (bd_insl d4 n) as [Hd Hk]; [by rewrite V4, V3|]. change (SECTSIZE / 4) with 128.
  destruct (bp_insl 0x1F0 128 d4) as [bs d5]. simpl in *. exists d5. rewrite Hk, Hd, V4, V3. done.
Qed.

Lemma blit_sector m dst d n a : blit m dst (sector d n) a =
  if decide (dst <= a < dst + 512) then at_disk (bd_view d) n (a - dst) else m a.
Proof.
  unfold blit, sector. rewrite length_fmap, length_seqZ. change (Z.of_nat (Z.to_nat 512)) with 512.
  case_decide; [|done]. apply nth_lookup_Some. rewrite list_lookup_fmap, (lookup_seqZ_lt 0 512) by lia. simpl.
  do 2 f_equal. lia.
Qed.

Lemma readseg_loop_run n : forall fuel pa epa offset m d, (n < fuel)%nat ->
  0 <= pa -> pa + 512 * Z.of_nat n < 2 ^ 32 -> 0 <= offset -> offset + Z.of_nat n <= 2 ^ 28 ->
  epa <= pa + 512 * Z.of_nat n -> (n <> O -> pa + 512 * (Z.of_nat n - 1) < epa) ->
  exists m' d', readseg_loop polls fuel pa epa offset (mkBst m d) = Ret tt (mkBst m' d') /\
    at_disk (bd_view d') = at_disk (bd_view d) /\
    forall a, m' a = if decide (pa <= a < pa + 512 * Z.of_nat n)
      then at_disk (bd_view d) (offset + (a - pa) / 512) ((a - pa) mod 512) else m a.
Proof.
  induction n as [|n IH]; intros fuel pa epa offset m d Hf Hpa Hhi Hof Hn He Hl; (destruct fuel as [|fuel]; [lia|]); simpl.
  - rewrite (proj2 (Z.ltb_ge pa epa)) by lia. exists m, d. split_and!; [done..|]. intros a. by rewrite decide_False by lia.
  - rewrite (proj2 (Z.ltb_lt pa epa)) by lia. destruct (readsect_run pa offset m d) as (d1 & E1 & V1); [lia|].
    step E1. unfold SECTSIZE. rewrite !u32_small by lia.
    destruct (IH fuel (pa + 512) epa (offset + 1) (blit m pa (sector d offset)) d1) as (m' & d' & E & V & Hm); try lia.
    exists m', d'. rewrite E, V, V1. split_and!; [done..|]. intros a. rewrite Hm, blit_sector, V1.
    repeat case_decide; try lia; try done.
    + f_equal; Z.div_mod_to_equations; lia.
    + f_equal; Z.div_mod_to_equations; lia.
Qed.

(** The image on the disk, from sector 1 on. *)
Definition holds_image (d : D) (img : Z -> Z) : Prop := forall n i, 1 <= n -> 0 <= i < 512 ->
  at_disk (bd_view d) n i = img ((n - 1) * 512 + i).

(** The addresses that readseg writes. *)
Definition seg_lo (pa off : Z) : Z := pa - off mod 512.
Definition seg_hi (pa count off : Z) : Z := seg_lo pa off + (count + off mod 512 + 511) / 512 * 512.

Lemma readseg_run pa count off img m d : holds_image d img -> 0 <= off < 2 ^ 32 -> 0 <= count ->
  0 <= seg_lo pa off -> seg_hi pa count off < 2 ^ 32 ->
  exists m' d', readseg polls pa count off (mkBst m d) = Ret tt (mkBst m' d') /\ holds_image d' img /\
    forall a, m' a = if decide (seg_lo pa off <= a < seg_hi pa count off) then img (a - pa + off) else m a.
Proof.
  intros Hi Ho Hc Hlo Hhi. unfold readseg, SECTSIZE. unfold seg_hi, seg_lo in *.
  pose proof (Z.mod_pos_bound off 512 ltac:(lia)) as Hm.
  set (n := Z.to_nat ((count + off mod 512 + 511) / 512)).
  assert (Z.of_nat n = (count + off mod 512 + 511) / 512) as En by (apply Z2Nat.id, Z.div_pos; lia).
  assert (count + off mod 512 <= Z.of_nat n * 512 < count + off mod 512 + 512) as Hn by (Z.div_mod_to_equations; lia).
  rewrite <- En in Hhi |- *. rewrite (u32_small (pa + count)), (u32_small (pa - off mod 512)) by lia.
  assert (off / 512 < 2 ^ 23) by (apply Z.div_lt_upper_bound; lia). assert (0 <= off / 512) by (apply Z.div_pos; lia).
  destruct (readseg_loop_run n (S (Z.to_nat ((pa + count - (pa - off mod 512) + 512 - 1) / 512)))
    (pa - off mod 512) (pa + count) (off / 512 + 1) m d) as (m' & d' & E & V & Hm').
  { replace (pa + count - (pa - off mod 512) + 512 - 1) with (count + off mod 512 + 511) by lia. lia. }
  all: try lia.
  exists m', d'. split_and!; [done|by intros ????; rewrite V; apply Hi|]. intros a. rewrite Hm'.
  replace (512 * Z.of_nat n) with (Z.of_nat n * 512) by lia. case_decide; [|done].
  rewrite Hi; [f_equal|..]; Z.div_mod_to_equations; lia.
Qed.

(** ** The program headers *)

(** What bootmain uses of struct proghdr. *)
Record phdr := mkPhdr { ph_off : Z; ph_paddr : Z; ph_filesz : Z; ph_memsz : Z }.
Definition phdr_at (m : Z -> Z) (a : Z) : phdr :=
  mkPhdr (load32 m (a + 4)) (load32 m (a + 12)) (load32 m (a + 16)) (load32 m (a + 20)).

(** The addresses of a segment, and those that loading it writes. *)
Definition ph_end (p : phdr) : Z := ph_paddr p + Z.max (ph_filesz p) (ph_memsz p).
Definition ph_lo (p : phdr) : Z := seg_lo (ph_paddr p) (ph_off p).
Definition ph_top (p : phdr) : Z := Z.max (ph_end p) (seg_hi (ph_paddr p) (ph_filesz p) (ph_off p)).

(** A segment lies in memory and apart from the scratch space. *)
Definition ph_fits (p : phdr) : Prop :=
  0 <= ph_lo p /\ ph_top p < 2 ^ 32 /\ (ph_top p <= ELF_SCRATCH \/ ELF_SCRATCH + 4096 <= ph_lo p).

(** Memory after a segment is loaded. *)
Definition loaded (img : Z -> Z) (m : mem) (p : phdr) : mem := fun a =>
  if decide (ph_paddr p + ph_filesz p <= a < ph_paddr p + ph_memsz p) then 0
  else if decide (ph_lo p <= a < seg_hi (ph_paddr p) (ph_filesz p) (ph_off p)) then img (a - ph_paddr p + ph_off p)
  else m a.

Lemma loaded_frame img m p a : 0 <= ph_off p -> 0 <= ph_filesz p -> ~ (ph_lo p <= a < ph_top p) -> loaded img m p a = m a.
Proof.
  intros Ho Hf Ha. pose proof (Z.mod_pos_bound (ph_off p) 512 ltac:(lia)). unfold loaded.
  rewrite !decide_False; [done|unfold ph_top in Ha; lia|unfold ph_top, ph_end, ph_lo, seg_lo in *; lia].
Qed.

Lemma loaded_here img m p k : 0 <= ph_off p -> 0 <= k ->
  (k < ph_filesz p -> loaded img m p (ph_paddr p + k) = img (ph_off p + k)) /\
  (ph_filesz p <= k < ph_memsz p -> loaded img m p (ph_paddr p + k) = 0).
Proof.
  intros Ho Hk. pose proof (Z.mod_pos_bound (ph_off p) 512 ltac:(lia)). unfold loaded. split; intros Hs.
  - rewrite decide_False, decide_True by (unfold ph_lo, seg_hi, seg_lo; Z.div_mod_to_equations; lia). f_equal. lia.
  - by rewrite decide_True by lia.
Qed.

Lemma phdr_at_ext m m' a b : (forall i, 0 <= i < 32 -> m (a + i) = m' (b + i)) -> phdr_at m a = phdr_at m' b.
Proof. intros Hm. unfold phdr_at, load32. rewrite <- !Z.add_assoc, !Hm by lia. done. Qed.

Lemma load_seg_run img m d p : holds_image d img -> 0 <= ph_off p < 2 ^ 32 -> 0 <= ph_filesz p -> ph_fits p ->
  exists m' d', readseg polls (ph_paddr p) (ph_filesz p) (ph_off p) (mkBst m d) = Ret tt (mkBst m' d') /\
    holds_image d' img /\ (forall a, ~ (ph_lo p <= a < ph_top p) -> m' a = m a) /\
    (if ph_memsz p >? ph_filesz p then stosb (u32 (ph_paddr p + ph_filesz p)) 0 (ph_memsz p - ph_filesz p) m' else m')
      = loaded img m p.
Proof.
  intros Hi Ho Hf (Hlo & Htop & _). pose proof (Z.mod_pos_bound (ph_off p) 512 ltac:(lia)) as Hr.
  destruct (readseg_run (ph_paddr p) (ph_filesz p) (ph_off p) img m d) as (m' & d' & E & Hi' & Hm); try done.
  { unfold ph_top in Htop. lia. }
  exists m', d'. split_and!; [done|done|..].
  - intros a Ha. rewrite Hm, decide_False; [done|]. unfold ph_lo, ph_top in Ha. lia.
  - extensionality a. unfold loaded, ph_lo. rewrite Z.gtb_ltb. destruct (_ <? _) eqn:Es; bool_to_prop.
    + unfold stosb. rewrite u32_small by (unfold ph_top, ph_end, ph_lo, seg_lo in *; lia).
      replace (ph_paddr p + ph_filesz p + (ph_memsz p - ph_filesz p)) with (ph_paddr p + ph_memsz p) by lia.
      case_decide; [done|]. apply Hm.
    + rewrite decide_False by lia. apply Hm.
Qed.

(** The program headers of an image, from offset [po]. *)
Fixpoint phdrs (img : Z -> Z) (po : Z) (n : nat) : list phdr :=
  match n with O => [] | S n' => phdr_at img po :: phdrs img (po + 32) n' end.

(** The first page of the image is in the scratch space. *)
Definition scratch_ok (img : Z -> Z) (m : mem) : Prop := forall i, 0 <= i < 4096 -> m (ELF_SCRATCH + i) = img i.

Lemma scratch_load32 img m i : scratch_ok img m -> 0 <= i -> i + 4 <= 4096 -> load32 m (ELF_SCRATCH + i) = load32 img i.
Proof. intros Hs H0 H1. unfold load32. rewrite <- !(Z.add_assoc ELF_SCRATCH), !Hs by lia. done. Qed.

Lemma phdr_at_range m a : 0 <= ph_off (phdr_at m a) < 2 ^ 32 /\ 0 <= ph_filesz (phdr_at m a).
Proof. simpl. pose proof (load32_range m (a + 4)). pose proof (load32_range m (a + 16)). lia. Qed.

Lemma scratch_loaded img m a : scratch_ok img m -> ph_fits (phdr_at img a) -> scratch_ok img (loaded img m (phdr_at img a)).
Proof.
  intros Hs (_ & _ & Hf) i Hi. destruct (phdr_at_range img a). rewrite loaded_frame; [by apply Hs|lia|lia|].
  unfold ELF_SCRATCH in *. lia.
Qed.

Lemma load_kernel_run img n : forall fuel po m d, (n < fuel)%nat -> 0 <= po -> po + 32 * Z.of_nat n <= 4096 ->
  holds_image d img -> scratch_ok img m -> Forall ph_fits (phdrs img po n) ->
  exists d', load_kernel polls fuel (ELF_SCRATCH + po) (ELF_SCRATCH + po + 32 * Z.of_nat n) (mkBst m d) =
    Ret tt (mkBst (foldl (loaded img) m (phdrs img po n)) d') /\ scratch_ok img (foldl (loaded img) m (phdrs img po n)).
Proof.
  induction n as [|n IH]; intros fuel po m d Hf Hpo Hn Hi Hs Hfits; (destruct fuel as [|fuel]; [lia|]); cbn [load_kernel phdrs foldl].
  - rewrite (proj2 (Z.ltb_ge _ _)) by lia. by exists d.
  - rewrite (proj2 (Z.ltb_lt _ _)) by lia. apply Forall_cons in Hfits as [Hp Hfits].
    set (p := phdr_at img po) in *. destruct (phdr_at_range img po) as [Ho Hfs]. fold p in Ho, Hfs.
    assert (phdr_at m (ELF_SCRATCH + po) = p) as Ep.
    { apply phdr_at_ext. intros i Hi'. rewrite <- Z.add_assoc. apply Hs. lia. }
    erewrite bind_Ret by reflexivity. cbv zeta. cbn [bt_mem].
    change (load32 m (ELF_SCRATCH + po + 12)) with (ph_paddr (phdr_at m (ELF_SCRATCH + po))).
    change (load32 m (ELF_SCRATCH + po + 16)) with (ph_filesz (phdr_at m (ELF_SCRATCH + po))).
    change (load32 m (ELF_SCRATCH + po + 4)) with (ph_off (phdr_at m (ELF_SCRATCH + po))).
    rewrite Ep. destruct (load_seg_run img m d p Hi Ho Hfs Hp) as (m1 & d1 & E1 & Hi1 & Hfr & Hl). step E1.
    erewrite bind_Ret by reflexivity. cbv zeta. cbn [bt_mem].
    assert (phdr_at m1 (ELF_SCRATCH + po) = p) as Ep1.
    { rewrite <- Ep. apply phdr_at_ext. intros i Hi'. apply Hfr. destruct Hp as (_ & _ & Hp). unfold ELF_SCRATCH in *. lia. }
    change (load32 m1 (ELF_SCRATCH + po + 20)) with (ph_memsz (phdr_at m1 (ELF_SCRATCH + po))).
    change (load32 m1 (ELF_SCRATCH + po + 16)) with (ph_filesz (phdr_at m1 (ELF_SCRATCH + po))).
    rewrite Ep1. rewrite (bind_Ret _ _ _ tt (mkBst (loaded img m p) d1)) by
      (rewrite <- Hl; unfold when; destruct (_ >? _); reflexivity).
    rewrite u32_small by (unfold ELF_SCRATCH; lia).
    replace (ELF_SCRATCH + po + 32) with (ELF_SCRATCH + (po + 32)) by lia.
    replace (ELF_SCRATCH + po + 32 * Z.of_nat (S n)) with (ELF_SCRATCH + (po + 32) + 32 * Z.of_nat n) by lia.
    apply IH; [lia|lia|lia|done|by apply scratch_loaded|done].
Qed.

Lemma phdrs_range img n : forall po, Forall (fun p => 0 <= ph_off p /\ 0 <= ph_filesz p) (phdrs img po n).
Proof. induction n as [|n IH]; intros po; constructor; [|done]. destruct (phdr_at_range img po). lia. Qed.

(** Segments that are loaded later leave the ones before alone. *)
Definition apart (p q : phdr) : Prop := ph_end p <= ph_lo q \/ ph_top q <= ph_paddr p.
Definition loadable (phs : list phdr) : Prop := Forall ph_fits phs /\
  forall i j p q, (i < j)%nat -> phs !! i = Some p -> phs !! j = Some q -> apart p q.

(** The contents of the segments in memory. *)
Definition segment_in (img : Z -> Z) (m : mem) (p : phdr) : Prop :=
  (forall k, 0 <= k < ph_filesz p -> m (ph_paddr p + k) = img (ph_off p + k)) /\
  (forall k, ph_filesz p <= k < ph_memsz p -> m (ph_paddr p + k) = 0).

Lemma foldl_loaded_frame img phs : forall m a, Forall (fun p => 0 <= ph_off p /\ 0 <= ph_filesz p) phs ->
  Forall (fun p => ~ (ph_lo p <= a < ph_top p)) phs -> foldl (loaded img) m phs a = m a.
Proof.
  induction phs as [|p phs IH]; intros m a Hr Ha; [done|]. apply Forall_cons in Hr as [[] Hr], Ha as [? Ha]. simpl.
  rewrite IH by done. by apply loaded_frame.
Qed.

Lemma foldl_loaded_in img phs : forall m p, Forall (fun p => 0 <= ph_off p /\ 0 <= ph_filesz p) phs -> loadable phs ->
  p ∈ phs -> segment_in img (foldl (loaded img) m phs) p.
Proof.
  induction phs as [|q phs IH]; intros m p Hr Hl Hp; [by apply not_elem_of_nil in Hp|].
  destruct Hl as [Hfit Hap]. apply Forall_cons in Hr as [[Hq1 Hq2] Hr], Hfit as [Hfq Hfit]. simpl. apply elem_of_cons in Hp as [->|Hp].
  - assert (forall k, 0 <= k < Z.max (ph_filesz q) (ph_memsz q) ->
      foldl (loaded img) (loaded img m q) phs (ph_paddr q + k) = loaded img m q (ph_paddr q + k)) as Hk.
    { intros k Hk. apply foldl_loaded_frame; [done|]. apply Forall_lookup. intros j r Hj.
      destruct (Hap 0%nat (S j) q r) as [|]; [lia|done|done| |]; unfold ph_end in *; lia. }
    split; intros k Hb; rewrite Hk by lia; apply loaded_here; lia.
  - apply IH; [done| |done]. split; [done|]. intros i j r t Hij Hi Hj. apply (Hap (S i) (S j)); [lia|done|done].
Qed.
End boot_lemmas.

(** C14. bootmain loads the kernel: from a disk whose sectors from 1 on hold an ELF image with
    its program headers in the first page, it jumps to the entry point of the image, every segment has
    its bytes of the file at its physical address followed by zeros, and no other byte changes, apart from the
    scratch page and the rest of the sectors at both ends of a segment.  This needs what the comment in the code
    says: a segment may only overwrite, with the rest of its sectors, what is loaded after it. *)
Theorem bootmain_loads_kernel {D : Type} `{BootPorts D} (polls : nat) `{!BootDisk D polls} (img : Z -> Z) m d :
  holds_image polls d img -> load32 img 0 = ELF_MAGIC ->
  let n := Z.to_nat (load16 img 44) in
  let phs := phdrs img (load32 img 28) n in
  load32 img 28 + 32 * Z.of_nat n <= 4096 -> loadable phs ->
  exists m' d', bootmain polls (mkBst m d) = Ret (Some (load32 img 24)) (mkBst m' d') /\
    (forall p, p ∈ phs -> segment_in img m' p) /\
    (forall a, ~ (ELF_SCRATCH <= a < ELF_SCRATCH + 4096) -> Forall (fun p => ~ (ph_lo p <= a < ph_top p)) phs -> m' a = m a).
Proof.
  intros Hi Hmag n phs Hn [Hfit Hap]. pose proof (load32_range img 28) as Hpo.
  destruct (readseg_run polls ELF_SCRATCH 4096 0 img m d Hi) as (m1 & d1 & E1 & Hi1 & Hm1); [lia|lia|done|done|].
  assert (scratch_ok img m1) as Hs.
  { intros i Hb. rewrite Hm1. change (seg_lo _ _) with ELF_SCRATCH. change (seg_hi _ _ _) with (ELF_SCRATCH + 4096).
    rewrite decide_True by lia. f_equal. lia. }
  assert (load16 m1 (ELF_SCRATCH + 44) = Z.of_nat n) as H16.
  { unfold n, load16. rewrite <- !Z.add_assoc, !Hs by lia. pose proof (u8_range (img 44)). pose proof (u8_range (img (44 + 1))). lia. }
  destruct (load_kernel_run polls img n (S n) (load32 img 28) m1 d1) as (d2 & E2 & Hs2); [lia|lia|done..|].
  exists (foldl (loaded img) m1 phs), d2. split_and!.
  - unfold bootmain. step E1. erewrite bind_Ret by reflexivity. cbn [bt_mem].
    rewrite (scratch_load32 img m1 0 Hs ltac:(lia) ltac:(lia) : load32 m1 ELF_SCRATCH = _), (scratch_load32 img m1 28 Hs), Hmag, H16, Z.eqb_refl, Nat2Z.id by lia. cbn [negb].
    rewrite !u32_small by (unfold ELF_SCRATCH; lia). cbv zeta. step E2. erewrite bind_Ret by reflexivity. cbn [bt_mem].
    by rewrite (scratch_load32 img _ 24 Hs2) by lia.
  - intros p Hp. apply foldl_loaded_in; [apply phdrs_range|done|done].
  - intros a Ha Hf. rewrite foldl_loaded_frame by (try apply phdrs_range; done). rewrite Hm1.
    change (seg_lo _ _) with ELF_SCRATCH. change (seg_hi _ _ _) with (ELF_SCRATCH + 4096). by rewrite decide_False.
Qed.
