(* ===== verification/Apic.v ===== *)
(** * The interrupt controllers (lapic.c, ioapic.c, picirq.c)

    The registers of the local APIC and of the I/O APIC are memory of their devices,
    reached by the volatile accesses of the class [Mmio]; the global pointers lapic and ioapic
    are arguments.  [IoapicOk] is what the code relies on of the I/O APIC: a register is
    selected, then read or written.  cprintf is left out at its call, and microdelay is an
    empty function. *)
From S2P Require Import Prelude Machine ProcQueue StringC Spinlock Kalloc Vm VmFrame Proc RunQueue ProcRun Sched UserMem Trap FsState Sleeplock Disk Bio Log Fs Console Kbd Cmos.

(** Loads and stores of 32-bit registers. *)
Class Mmio := { mm_read : Z -> M W Z; mm_write : Z -> Z -> M W unit }.

Definition IRQ_ERROR : Z := 19.

(** ** lapic.c *)

(** Registers, as indices of words. *)
Definition ID : Z := 0x0020 / 4.
Definition VER : Z := 0x0030 / 4.
Definition TPR : Z := 0x0080 / 4.
Definition EOI : Z := 0x00B0 / 4.
Definition SVR : Z := 0x00F0 / 4.
Definition ENABLE : Z := 0x100.
Definition ESR : Z := 0x0280 / 4.
Definition ICRLO : Z := 0x0300 / 4.
Definition INIT : Z := 0x500.
Definition STARTUP : Z := 0x600.
Definition DELIVS : Z := 0x1000.
Definition ASSERT : Z := 0x4000.
Definition LEVEL : Z := 0x8000.
Definition BCAST : Z := 0x80000.
Definition ICRHI : Z := 0x0310 / 4.
Definition TIMER : Z := 0x0320 / 4.
Definition X1 : Z := 0xB.
Definition PERIODIC : Z := 0x20000.
Definition PCINT : Z := 0x0340 / 4.
Definition LINT0 : Z := 0x0350 / 4.
Definition LINT1 : Z := 0x0360 / 4.
Definition ERROR : Z := 0x0370 / 4.
Definition MASKED : Z := 0x10000.
Definition TICR : Z := 0x0380 / 4.
Definition TDCR : Z := 0x03E0 / 4.

Section lapic.
Context `{Mmio} `{Ports} (lapic : Z).

Definition lapicr (index : Z) : M W Z := mm_read (u32 (lapic + 4 * index)).

Definition lapicw (index value : Z) : M W unit :=
  mm_write (u32 (lapic + 4 * index)) (u32 value) ;;;
  lapicr ID ;;;
  ret tt.

(** [while(lapic[ICRLO] & DELIVS) ;] with at most [fuel] reads. *)
Fixpoint wait_delivered (fuel : nat) : M W unit :=
  match fuel with
  | O => out_of_fuel
  | S f => let* v := lapicr ICRLO in if has v DELIVS then wait_delivered f else ret tt
  end.

Definition lapicinit (polls : nat) : M W unit :=
  if lapic =? 0 then ret tt else
  lapicw SVR (Z.lor ENABLE (T_IRQ0 + IRQ_SPURIOUS)) ;;;
  lapicw TDCR X1 ;;;
  lapicw TIMER (Z.lor PERIODIC (T_IRQ0 + IRQ_TIMER)) ;;;
  lapicw TICR 10000000 ;;;
  lapicw LINT0 MASKED ;;;
  lapicw LINT1 MASKED ;;;
  let* ver := lapicr VER in
  when (Z.land (Z.shiftr ver 16) 0xFF >=? 4) (lapicw PCINT MASKED) ;;;
  lapicw ERROR (T_IRQ0 + IRQ_ERROR) ;;;
  lapicw ESR 0 ;;;
  lapicw ESR 0 ;;;
  lapicw EOI 0 ;;;
  lapicw ICRHI 0 ;;;
  lapicw ICRLO (Z.lor (Z.lor BCAST INIT) LEVEL) ;;;
  wait_delivered polls ;;;
  lapicw TPR 0.

Definition lapicid : M W Z :=
  if lapic =? 0 then ret 0 else
  let* v := lapicr ID in
  ret (Z.shiftr v 24).

Definition lapiceoi : M W unit := when (negb (lapic =? 0)) (lapicw EOI 0).

(** The warm reset vector, two 16-bit words at 40:67. *)
Definition WARM_RESET : Z := P2V (Z.lor (Z.shiftl 0x40 4) 0x67).

Definition lapicstartap (apicid addr : Z) : M W unit :=
  outb CMOS_PORT 0xF ;;;
  outb (CMOS_PORT + 1) 0x0A ;;;
  onk (on_vm (memop (fun m => store16 m WARM_RESET 0))) ;;;
  onk (on_vm (memop (fun m => store16 m (WARM_RESET + 2) (Z.shiftr addr 4)))) ;;;
  lapicw ICRHI (Z.shiftl apicid 24) ;;;
  lapicw ICRLO (Z.lor (Z.lor INIT LEVEL) ASSERT) ;;;
  lapicw ICRLO (Z.lor INIT LEVEL) ;;;
  foreach (seq 0 2) (fun _ =>
    lapicw ICRHI (Z.shiftl apicid 24) ;;;
    lapicw ICRLO (Z.lor STARTUP (Z.shiftr addr 12))).
End lapic.

(** ** picirq.c *)

Definition IO_PIC1 : Z := 0x20.
Definition IO_PIC2 : Z := 0xA0.

Definition picinit `{Ports} : M W unit :=
  outb (IO_PIC1 + 1) 0xFF ;;;
  outb (IO_PIC2 + 1) 0xFF.

(** ** ioapic.c *)

Definition IOAPIC : Z := 0xFEC00000.
Definition REG_ID : Z := 0x00.
Definition REG_VER : Z := 0x01.
Definition REG_TABLE : Z := 0x10.
Definition INT_DISABLED : Z := 0x10000.

Section ioapic.
Context `{Mmio}.

(** struct ioapic: reg at offset 0, data at offset 16. *)
Definition ioapicread (ioapic reg : Z) : M W Z :=
  mm_write ioapic (u32 reg) ;;;
  mm_read (ioapic + 16).

Definition ioapicwrite (ioapic reg data : Z) : M W unit :=
  mm_write ioapic (u32 reg) ;;;
  mm_write (ioapic + 16) (u32 data).

(** After the assignment of IOAPIC to the pointer. *)
Definition ioapicinit : M W unit :=
  let* ver := ioapicread IOAPIC REG_VER in
  let maxintr := Z.land (Z.shiftr ver 16) 0xFF in
  let* id := ioapicread IOAPIC REG_ID in
  foreach (seqZ 0 (maxintr + 1)) (fun i =>
    ioapicwrite IOAPIC (REG_TABLE + 2 * i) (Z.lor INT_DISABLED (T_IRQ0 + i)) ;;;
    ioapicwrite IOAPIC (REG_TABLE + 2 * i + 1) 0).

Definition ioapicenable (ioapic irq cpunum : Z) : M W unit :=
  ioapicwrite ioapic (REG_TABLE + 2 * irq) (T_IRQ0 + irq) ;;;
  ioapicwrite ioapic (REG_TABLE + 2 * irq + 1) (Z.shiftl cpunum 24).
End ioapic.

(** The ports with the I/O APIC that they are given. *)
Definition with_ioapic `{Mmio} (P : Ports) (io : Z) : Ports := {|
  inb := inb; outb := outb; insl := insl; outsl := outsl;
  Disk.ioapicenable irq cpunum := ioapicenable io irq (Z.of_nat cpunum);
|}.

(** ** What the I/O APIC guarantees *)

(** The register that is selected and the contents of the registers; the version register
    has the last entry of the redirection table. *)
Class IoapicOk `{Mmio} := {
  io_sel : W -> Z;
  io_reg : W -> Z -> Z;
  io_select r w : exists w', mm_write IOAPIC r w = Ret tt w' /\ io_sel w' = r /\ io_reg w' = io_reg w;
  io_read w : exists w', mm_read (IOAPIC + 16) w = Ret (io_reg w (io_sel w)) w' /\ io_sel w' = io_sel w /\ io_reg w' = io_reg w;
  io_write v w : REG_TABLE <= io_sel w -> exists w', mm_write (IOAPIC + 16) v w = Ret tt w' /\
    io_sel w' = io_sel w /\ io_reg w' = upd (io_reg w) (io_sel w) v;
}.

(** An entry of the redirection table: its low and its high word. *)
Definition io_entry `{IoapicOk} (w : W) (i : Z) : Z * Z :=
  (io_reg w (REG_TABLE + 2 * i), io_reg w (REG_TABLE + 2 * i + 1)).

Section ioapic_lemmas.
Context `{IoapicOk}.

Lemma ioapicread_run r w : 0 <= r < 2 ^ 32 -> exists w', ioapicread IOAPIC r w = Ret (io_reg w r) w' /\ io_reg w' = io_reg w.
Proof.
  intros Hr. unfold ioapicread. rewrite u32_small by done. destruct (io_select r w) as (w1 & E1 & S1 & R1). step E1.
  destruct (io_read w1) as (w2 & E2 & S2 & R2). exists w2. rewrite E2, S1, R2, R1. done.
Qed.

Lemma ioapicwrite_run r v w : REG_TABLE <= r < 2 ^ 32 -> 0 <= v < 2 ^ 32 -> exists w',
  ioapicwrite IOAPIC r v w = Ret tt w' /\ io_reg w' = upd (io_reg w) r v.
Proof.
  intros Hr Hv. unfold ioapicwrite. rewrite !u32_small by (unfold REG_TABLE in *; lia).
  destruct (io_select r w) as (w1 & E1 & S1 & R1). step E1.
  destruct (io_write v w1) as (w2 & E2 & S2 & R2); [lia|]. exists w2. rewrite R2, S1, R1. done.
Qed.

(** Writing both words of an entry. *)
Lemma entry_write i lo hi w : 0 <= i < 256 -> 0 <= lo < 2 ^ 32 -> 0 <= hi < 2 ^ 32 -> exists w',
  (ioapicwrite IOAPIC (REG_TABLE + 2 * i) lo ;;; ioapicwrite IOAPIC (REG_TABLE + 2 * i + 1) hi) w = Ret tt w' /\
  forall j, io_entry w' j = if decide (j = i) then (lo, hi) else io_entry w j.
Proof.
  intros Hi Hlo Hhi. destruct (ioapicwrite_run (REG_TABLE + 2 * i) lo w) as (w1 & E1 & R1); [unfold REG_TABLE; lia|done|].
  destruct (ioapicwrite_run (REG_TABLE + 2 * i + 1) hi w1) as (w2 & E2 & R2); [unfold REG_TABLE; lia|done|].
  exists w2. step E1. split; [done|]. intros j. unfold io_entry. rewrite R2, R1. case_decide as Hj.
  - subst j. rewrite (upd_ne (upd _ _ _)) by lia. by rewrite !upd_eq.
  - by rewrite !upd_ne by lia.
Qed.

Lemma disabled_word i : 0 <= i < 256 -> 0 <= Z.lor INT_DISABLED (T_IRQ0 + i) < 2 ^ 32.
Proof.
  intros Hi. unfold INT_DISABLED, T_IRQ0.
  rewrite (lor_add_low _ _ 16) by (try done; lia). lia.
Qed.

Lemma ioapicenable_run irq cpu w : 0 <= irq < 256 -> 0 <= cpu < 256 -> exists w', ioapicenable IOAPIC irq cpu w = Ret tt w' /\
  forall j, io_entry w' j = if decide (j = irq) then (T_IRQ0 + irq, Z.shiftl cpu 24) else io_entry w j.
Proof.
  intros Hi Hc. apply entry_write; [done|unfold T_IRQ0; lia|]. rewrite Z.shiftl_mul_pow2 by lia. lia.
Qed.

Lemma disable_loop n : forall i w, 0 <= i -> i + Z.of_nat n <= 256 -> exists w',
  foreach (seqZ i (Z.of_nat n)) (fun i => ioapicwrite IOAPIC (REG_TABLE + 2 * i) (Z.lor INT_DISABLED (T_IRQ0 + i)) ;;;
    ioapicwrite IOAPIC (REG_TABLE + 2 * i + 1) 0) w = Ret tt w' /\
  forall j, io_entry w' j = if decide (i <= j < i + Z.of_nat n) then (Z.lor INT_DISABLED (T_IRQ0 + j), 0) else io_entry w j.
Proof.
  induction n as [|n IH]; intros i w Hi Hn.
  - exists w. split; [done|]. intros j. by rewrite decide_False by lia.
  - rewrite seqZ_cons by lia. cbn [foreach].
    destruct (entry_write i (Z.lor INT_DISABLED (T_IRQ0 + i)) 0 w) as (w1 & E1 & R1); [lia|apply disabled_word; lia|lia|].
    step E1. replace (Z.pred (Z.of_nat (S n))) with (Z.of_nat n) by lia. destruct (IH (Z.succ i) w1) as (w2 & E2 & R2); [lia|lia|].
    exists w2. split; [done|]. intros j. rewrite R2, R1. repeat case_decide; try lia; try done. by replace j with i by lia.
Qed.

Lemma enable_loop es : forall w, Forall (fun e => 0 <= e.1 < 256 /\ 0 <= e.2 < 256) es -> exists w',
  foreach es (fun e => ioapicenable IOAPIC e.1 e.2) w = Ret tt w' /\
  forall j, io_entry w' j = match last (filter (fun e => e.1 = j) es) with
    Some e => (T_IRQ0 + j, Z.shiftl e.2 24) | None => io_entry w j end.
Proof.
  induction es as [|e es IH]; intros w Hes; [by exists w|]. apply Forall_cons in Hes as [[He1 He2] Hes]. cbn [foreach].
  destruct (ioapicenable_run e.1 e.2 w He1 He2) as (w1 & E1 & R1). step E1. destruct (IH w1 Hes) as (w2 & E2 & R2).
  exists w2. split; [done|]. intros j. rewrite R2, R1, filter_cons. destruct (decide (e.1 = j)) as [<-|Hj].
  - rewrite last_cons. destruct (last _); [done|]. by rewrite decide_True.
  - destruct (last _); [done|]. by rewrite decide_False.
Qed.
End ioapic_lemmas.

(** The I/O APIC delivers exactly the interrupts that drivers enable: after ioapicinit and any calls of
    ioapicenable, an entry of the redirection table is masked, edge-triggered and routed nowhere unless its interrupt was
    enabled, and then it has the vector T_IRQ0 + irq that trap expects and is routed to the CPU of the last call. *)
Theorem ioapic_routes_enabled `{IoapicOk} (es : list (Z * Z)) w :
  Forall (fun e => 0 <= e.1 < 256 /\ 0 <= e.2 < 256) es ->
  let maxintr := Z.land (Z.shiftr (io_reg w REG_VER) 16) 0xFF in
  exists w', (ioapicinit ;;; foreach es (fun e => ioapicenable IOAPIC e.1 e.2)) w = Ret tt w' /\
    forall j, io_entry w' j = match last (filter (fun e => e.1 = j) es) with
      | Some e => (T_IRQ0 + j, Z.shiftl e.2 24)
      | None => if decide (0 <= j <= maxintr) then (Z.lor INT_DISABLED (T_IRQ0 + j), 0) else io_entry w j
      end.
Proof.
  intros Hes maxintr. assert (0 <= maxintr < 256) as Hmax.
  { unfold maxintr. change 0xFF with (Z.ones 8). rewrite Z.land_ones by lia. apply Z.mod_pos_bound. lia. }
  unfold ioapicinit. destruct (ioapicread_run REG_VER w) as (w1 & E1 & R1); [done|].
  destruct (ioapicread_run REG_ID w1) as (w2 & E2 & R2); [done|].
  destruct (disable_loop (Z.to_nat (maxintr + 1)) 0 w2) as (w3 & E3 & R3); [lia|lia|].
  destruct (enable_loop es w3 Hes) as (w4 & E4 & R4). exists w4. rewrite bind_assoc. step E1. fold maxintr. rewrite bind_assoc. step E2.
  rewrite Z2Nat.id in E3 by lia. step E3. split; [done|]. intros j. rewrite R4. destruct (last _); [done|].
  rewrite R3, Z2Nat.id by lia. unfold io_entry. rewrite R2, R1. repeat case_decide; try lia; done.
Qed.
