(* ===== verification/Mp.v ===== *)
(** * The multiprocessor tables (mp.c)

    mpinit looks for the tables of the BIOS in memory and reads the processors and the I/O
    APIC off them.  The tables are only read: the searches are functions of the
    memory.  [ctl] are the global variables of mp.c, lapic.c, ioapic.c and trap.c that the
    rest of the kernel has no part in. *)
From S2P Require Import Prelude Machine ProcQueue StringC Spinlock Kalloc Vm VmFrame Proc RunQueue ProcRun Sched UserMem Trap FsState Sleeplock Disk Bio.

(** struct gatedesc (mmu.h) *)
Record gatedesc := mkGate {
  gd_off_15_0 : Z; gd_cs : Z; gd_args : Z; gd_rsv1 : Z; gd_type : Z; gd_s : Z; gd_dpl : Z; gd_p : Z; gd_off_31_16 : Z;
}.

Record ctl := mkCtl {
  ct_lapic : Z;  (* lapic *)
  ct_ioapicid : Z;  (* ioapicid *)
  ct_ioapic : Z;  (* ioapic *)
  ct_idt : Z -> gatedesc;  (* idt[256] *)
  ct_idtr : nat -> bool;  (* which CPUs have loaded the register of idt *)
}.
Definition set_ct_lapic (v : Z) (s : ctl) : ctl := mkCtl v (ct_ioapicid s) (ct_ioapic s) (ct_idt s) (ct_idtr s).
Definition set_ct_ioapicid (v : Z) (s : ctl) : ctl := mkCtl (ct_lapic s) v (ct_ioapic s) (ct_idt s) (ct_idtr s).
Definition set_ct_ioapic (v : Z) (s : ctl) : ctl := mkCtl (ct_lapic s) (ct_ioapicid s) v (ct_idt s) (ct_idtr s).
Definition set_ct_idt (v : Z -> gatedesc) (s : ctl) : ctl := mkCtl (ct_lapic s) (ct_ioapicid s) (ct_ioapic s) v (ct_idtr s).
Definition set_ct_idtr (v : nat -> bool) (s : ctl) : ctl := mkCtl (ct_lapic s) (ct_ioapicid s) (ct_ioapic s) (ct_idt s) v.

(** The kernel with its controllers. *)
Notation sys := (W * ctl)%type.
Definition onw {A} (m : M W A) : M sys A := zoom fst (fun s w => (w, s.2)) m.
Definition onc {A} (m : M ctl A) : M sys A := zoom snd (fun s c => (s.1, c)) m.
Definition sys_hw {A} (m : M hw A) : M sys A := onw (onk (on_cpu m)).

(** ** Searching *)

(** Entry types, and the signatures of the two structures. *)
Definition MPPROC : Z := 0.
Definition MPBUS : Z := 1.
Definition MPIOAPIC : Z := 2.
Definition MPIOINTR : Z := 3.
Definition MPLINTR : Z := 4.
Definition sig_mp : list Z := [95; 77; 80; 95].
Definition sig_pcmp : list Z := [80; 67; 77; 80].

Definition sum (m : mem) (addr len : Z) : Z := u8 (foldl (fun s i => s + rd m (addr + i)) 0 (seqZ 0 len)).

(** The test of mpsearch1 at [p]. *)
Definition is_mp (m : mem) (p : Z) : bool := bool_decide (bytes_at m p 4 = sig_mp) && (sum m p 16 =? 0).

(** The fuel is the number of places to look at, and one for the last test. *)
Fixpoint mpsearch1_loop (fuel : nat) (m : mem) (p e : Z) : option Z :=
  match fuel with
  | O => None
  | S f => if p <? e then if is_mp m p then Some p else mpsearch1_loop f m (p + 16) e else None
  end.
Definition mpsearch1 (m : mem) (a len : Z) : option Z :=
  let addr := P2V a in
  mpsearch1_loop (S (Z.to_nat (len / 16))) m addr (addr + len).

Definition mpsearch (m : mem) : option Z :=
  let bda := P2V 0x400 in
  let p := Z.shiftl (Z.lor (Z.shiftl (rd m (bda + 0x0F)) 8) (rd m (bda + 0x0E))) 4 in
  let near :=
    if negb (p =? 0) then mpsearch1 m p 1024
    else mpsearch1 m (u32 (Z.lor (Z.shiftl (rd m (bda + 0x14)) 8) (rd m (bda + 0x13)) * 1024 - 1024)) 1024 in
  match near with
  | Some mp => Some mp
  | None => mpsearch1 m 0xF0000 0x10000
  end.

(** The floating pointer structure and the configuration table. *)
Definition mpconfig (m : mem) : option (Z * Z) :=
  match mpsearch m with
  | None => None
  | Some mp =>
    if load32 m (mp + 4) =? 0 then None else
    let conf := P2V (load32 m (mp + 4)) in
    if negb (bool_decide (bytes_at m conf 4 = sig_pcmp)) then None else
    if negb (rd m (conf + 6) =? 1) && negb (rd m (conf + 6) =? 4) then None else
    if negb (sum m conf (load16 m (conf + 4)) =? 0) then None else
    Some (mp, conf)
  end.

(** ** Reading the table *)

(** [cpus[ncpu].apicid = apicid; ncpu++] if there is room *)
Definition add_cpu (apicid : Z) : M hw unit :=
  let* n := gets hw_ncpu in
  when (n <? NCPU)%nat (
    upd_cpu n (set_c_apicid apicid) ;;;
    modify (fun h => set_hw_ncpu (S (hw_ncpu h)) h)).

(** The loop over the entries; its result is ismp.  The break of an unknown entry leaves the switch, not the
    loop, and [p] stays as it is. *)
Fixpoint mp_entries (fuel : nat) (p e : Z) (ismp : bool) : M sys bool :=
  match fuel with
  | O => out_of_fuel
  | S f =>
    if p <? e then
      let* m := onw (onk (on_vm (gets v_mem))) in
      let type := rd m p in
      if type =? MPPROC then
        sys_hw (add_cpu (rd m (p + 1))) ;;;
        mp_entries f (p + 20) e ismp
      else if type =? MPIOAPIC then
        onc (modify (set_ct_ioapicid (rd m (p + 1)))) ;;;
        mp_entries f (p + 8) e ismp
      else if (type =? MPBUS) || (type =? MPIOINTR) || (type =? MPLINTR) then mp_entries f (p + 8) e ismp
      else mp_entries f p e false
    else ret ismp
  end.

(** The interrupt mode configuration register. *)
Definition mask_imcr `{Ports} : M W unit :=
  outb 0x22 0x70 ;;;
  let* v := inb 0x23 in
  outb 0x23 (Z.lor v 1).

(** [fuel] bounds the entries that are looked at. *)
Definition mpinit `{Ports} (fuel : nat) : M sys unit :=
  let* m := onw (onk (on_vm (gets v_mem))) in
  match mpconfig m with
  | None => panic "Expect to run on an SMP"
  | Some (mp, conf) =>
    onc (modify (set_ct_lapic (load32 m (conf + 36)))) ;;;
    let* ismp := mp_entries fuel (conf + 44) (conf + load16 m (conf + 4)) true in
    if negb ismp then panic "Didn't find a suitable machine" else
    when (negb (rd m (mp + 12) =? 0)) (onw mask_imcr)
  end.

(** ** The entries of a table *)

Inductive mpentry := Eproc (apicid : Z) | Ebus | Eioapic (apicno : Z) | Eiointr | Elintr.

Definition entry_type (x : mpentry) : Z :=
  match x with Eproc _ => MPPROC | Ebus => MPBUS | Eioapic _ => MPIOAPIC | Eiointr => MPIOINTR | Elintr => MPLINTR end.
Definition entry_size (x : mpentry) : Z := match x with Eproc _ => 20 | _ => 8 end.
Definition entry_at (m : mem) (p : Z) (x : mpentry) : Prop :=
  rd m p = entry_type x /\ match x with Eproc a | Eioapic a => rd m (p + 1) = a | _ => True end.

(** The entries [es] lie one after the other from [p] to [e]. *)
Fixpoint table (m : mem) (p : Z) (es : list mpentry) (e : Z) : Prop :=
  match es with
  | [] => p = e
  | x :: es' => entry_at m p x /\ table m (p + entry_size x) es' e
  end.

Definition proc_ids (es : list mpentry) : list Z := omap (fun x => match x with Eproc a => Some a | _ => None end) es.
Definition ioapic_ids (es : list mpentry) : list Z := omap (fun x => match x with Eioapic a => Some a | _ => None end) es.

(** The CPUs with the APIC ids [ids] in the order of the table, as many as fit. *)
Definition booted (ids : list Z) (h : hw) : hw :=
  let ids := take (NCPU - hw_ncpu h) ids in
  set_hw_ncpu (hw_ncpu h + length ids) (set_hw_cpus (fun i =>
    match ids !! (i - hw_ncpu h)%nat with
    | Some a => if decide (hw_ncpu h <= i)%nat then set_c_apicid a (hw_cpus h i) else hw_cpus h i
    | None => hw_cpus h i
    end) h).

(** The state with other CPUs. *)
Definition with_hw (h : hw) (s : sys) : sys :=
  ((set_k_vm (set_v_hw h (k_vm s.1.1)) s.1.1, s.1.2), s.2).
Definition sys_cpus (s : sys) : hw := k_hw s.1.1.
Definition sys_mem (s : sys) : mem := v_mem (k_vm s.1.1).

(** What reading the entries does to the state. *)
Definition read_entries (es : list mpentry) (s : sys) : sys :=
  let s' := with_hw (booted (proc_ids es) (sys_cpus s)) s in
  (s'.1, set_ct_ioapicid (default (ct_ioapicid s.2) (last (ioapic_ids es))) s.2).

Lemma sys_hw_run {A} (m : M hw A) s a h : m (sys_cpus s) = Ret a h -> sys_hw m s = Ret a (with_hw h s).
Proof.
  intros E. destruct s as [[k f] c]. unfold sys_hw, onw, onk, on_cpu, on_vm, on_hw, zoom. simpl.
  unfold sys_cpus, k_hw in E. simpl in E. by rewrite E.
Qed.

Lemma booted_nil h : booted [] h = h.
Proof. unfold booted. rewrite take_nil. simpl. rewrite Nat.add_0_r. destruct h. unfold set_hw_ncpu, set_hw_cpus. simpl. f_equal. Qed.

Lemma booted_cons a ids h : booted (a :: ids) h = booted ids (if (hw_ncpu h <? NCPU)%nat
  then set_hw_ncpu (S (hw_ncpu h)) (set_hw_cpus (upd (hw_cpus h) (hw_ncpu h) (set_c_apicid a (hw_cpus h (hw_ncpu h)))) h) else h).
Proof.
  destruct (hw_ncpu h <? NCPU)%nat eqn:E.
  - apply Nat.ltb_lt in E. unfold booted. simpl. unfold set_hw_ncpu, set_hw_cpus. simpl.
    replace (NCPU - hw_ncpu h)%nat with (S (NCPU - S (hw_ncpu h))) by lia. simpl. f_equal; [|lia].
    extensionality i. unfold upd. destruct (decide (hw_ncpu h = i)) as [Hi|Hi].
    + subst i. rewrite Nat.sub_diag. simpl. rewrite decide_True by done. case_match; [|done]. by rewrite decide_False by lia.
    + destruct (decide (hw_ncpu h <= i)%nat) as [Hle|Hle].
      * replace (i - hw_ncpu h)%nat with (S (i - S (hw_ncpu h))) by lia. simpl. destruct (_ !! _); [|done]. by rewrite decide_True by lia.
      * destruct (_ !! (i - hw_ncpu h)%nat), (_ !! (i - S (hw_ncpu h))%nat); by rewrite ?decide_False by lia.
  - apply Nat.ltb_ge in E. unfold booted. by replace (NCPU - hw_ncpu h)%nat with 0%nat by lia.
Qed.

Lemma add_cpu_run a h : add_cpu a h = Ret tt (if (hw_ncpu h <? NCPU)%nat
  then set_hw_ncpu (S (hw_ncpu h)) (set_hw_cpus (upd (hw_cpus h) (hw_ncpu h) (set_c_apicid a (hw_cpus h (hw_ncpu h)))) h) else h).
Proof. unfold add_cpu, bind, when, upd_cpu, modify. simpl. by destruct (hw_ncpu h <? NCPU)%nat. Qed.

Lemma mem_run s : onw (onk (on_vm (gets v_mem))) s = Ret (sys_mem s) s.
Proof. destruct s as [[[] f] c]. done. Qed.

(** One entry: the state after it, and where the loop goes on. *)
Lemma entry_run f p e ismp s x es' : p < e -> entry_at (sys_mem s) p x ->
  exists s1, mp_entries (S f) p e ismp s = mp_entries f (p + entry_size x) e ismp s1 /\ sys_mem s1 = sys_mem s /\
    read_entries (x :: es') s = read_entries es' s1.
Proof.
  intros Hp [Ht Hx]. cbn [mp_entries]. rewrite (proj2 (Z.ltb_lt _ _) Hp). step (mem_run s). cbv zeta. rewrite Ht.
  destruct x as [a| |a| |]; cbn [entry_type entry_size Z.eqb orb MPPROC MPBUS MPIOAPIC MPIOINTR MPLINTR Pos.eqb]; rewrite ?Hx;
    try (exists s; done).
  - set (h := if (hw_ncpu (sys_cpus s) <? NCPU)%nat
      then set_hw_ncpu (S (hw_ncpu (sys_cpus s))) (set_hw_cpus (upd (hw_cpus (sys_cpus s)) (hw_ncpu (sys_cpus s))
        (set_c_apicid a (hw_cpus (sys_cpus s) (hw_ncpu (sys_cpus s))))) (sys_cpus s)) else sys_cpus s).
    exists (with_hw h s). rewrite (bind_Ret _ _ _ _ _ (sys_hw_run _ _ _ _ (add_cpu_run a (sys_cpus s)))).
    split_and!; [done..|]. unfold read_entries. cbn [proc_ids ioapic_ids omap list_omap]. by rewrite booted_cons.
  - exists (s.1, set_ct_ioapicid a s.2). split_and!; [by destruct s as [[] []]|done|].
    unfold read_entries. cbn [proc_ids ioapic_ids omap list_omap]. rewrite last_cons. by destruct (last _).
Qed.

Lemma entry_size_pos x : 0 < entry_size x.
Proof. by destruct x. Qed.

Lemma table_le m es : forall p e, table m p es e -> p <= e.
Proof.
  induction es as [|x es IH]; intros p e; simpl; [lia|]. intros [_ H%IH]. pose proof (entry_size_pos x). lia.
Qed.

Lemma mp_entries_run es : forall fuel p e ismp s, table (sys_mem s) p es e -> (length es < fuel)%nat ->
  mp_entries fuel p e ismp s = Ret ismp (read_entries es s).
Proof.
  induction es as [|x es IH]; intros fuel p e ismp s Ht Hf; (destruct fuel as [|fuel]; [simpl in Hf; lia|]).
  - simpl in Ht. subst e. cbn [mp_entries]. rewrite Z.ltb_irrefl. unfold read_entries. cbn [proc_ids ioapic_ids omap list_omap].
    rewrite booted_nil. by destruct s as [[[[]] f] []].
  - simpl in Ht, Hf. destruct Ht as [Hx Ht]. pose proof (table_le _ _ _ _ Ht). pose proof (entry_size_pos x).
    destruct (entry_run fuel p e ismp s x es) as (s1 & -> & Em & ->); [lia|done|]. apply IH; [by rewrite Em|lia].
Qed.

(** An entry of a type that is not known. *)
Definition unknown_at (m : mem) (p : Z) : Prop := MPLINTR < rd m p.

Lemma mp_entries_stuck fuel : forall es p q e ismp s, table (sys_mem s) p es q -> q < e -> unknown_at (sys_mem s) q ->
  mp_entries fuel p e ismp s = Spin.
Proof.
  induction fuel as [|fuel IH]; intros es p q e ismp s Ht Hq Hu; [done|]. destruct es as [|x es].
  - simpl in Ht. subst q. cbn [mp_entries]. rewrite (proj2 (Z.ltb_lt _ _) Hq). step (mem_run s). cbv zeta.
    unfold unknown_at, MPLINTR in Hu. unfold MPPROC, MPIOAPIC, MPBUS, MPIOINTR, MPLINTR.
    rewrite !(proj2 (Z.eqb_neq (rd (sys_mem s) p) _)) by lia. simpl. by apply (IH [] p p).
  - destruct Ht as [Hx Ht]. pose proof (table_le _ _ _ _ Ht). pose proof (entry_size_pos x).
    destruct (entry_run fuel p e ismp s x es) as (s1 & -> & Em & _); [lia|done|].
    apply (IH es _ q); rewrite ?Em; done.
Qed.

(** The CPUs that were found can be told apart when their ids are distinct. *)
Lemma booted_apic ids h : hw_ncpu h = O ->
  hw_ncpu (booted ids h) = Nat.min NCPU (length ids) /\
  (forall i a, ids !! i = Some a -> (i < NCPU)%nat -> c_apicid (hw_cpus (booted ids h) i) = a) /\
  (NoDup ids -> forall i j, (i < hw_ncpu (booted ids h))%nat -> (j < hw_ncpu (booted ids h))%nat ->
    c_apicid (hw_cpus (booted ids h) i) = c_apicid (hw_cpus (booted ids h) j) -> i = j).
Proof.
  intros H0. assert (hw_ncpu (booted ids h) = Nat.min NCPU (length ids)) as Hn.
  { unfold booted, set_hw_ncpu. cbn [hw_ncpu]. rewrite length_take, H0. lia. }
  assert (forall i a, ids !! i = Some a -> (i < NCPU)%nat -> c_apicid (hw_cpus (booted ids h) i) = a) as Ha.
  { intros i a Hi Hlt. unfold booted. cbn. rewrite H0, !Nat.sub_0_r. rewrite lookup_take_lt by done. rewrite Hi.
    rewrite decide_True by lia. done. }
  split_and!; [done|done|]. rewrite Hn. intros Hnd i j Hi Hj.
  destruct (lookup_lt_is_Some_2 ids i) as [a Ea]; [lia|]. destruct (lookup_lt_is_Some_2 ids j) as [b Eb]; [lia|].
  rewrite (Ha _ _ Ea), (Ha _ _ Eb) by lia. intros <-. by eapply NoDup_lookup.
Qed.

(** C20. mpinit reads the table of the BIOS: if a configuration table is found and its entries are [es], then
    the CPUs get the APIC ids of the processor entries in order, at most NCPU of them; ncpu is their number; ioapicid is
    the id of the last I/O APIC; lapic is the address in the header; after that only the interrupt mode
    register is written, if the machine has one.  When the ids differ, mycpu can tell the CPUs apart by them. *)
Theorem mpinit_reads_table `{Ports} fuel s mp conf es :
  mpconfig (sys_mem s) = Some (mp, conf) -> hw_ncpu (sys_cpus s) = O ->
  table (sys_mem s) (conf + 44) es (conf + load16 (sys_mem s) (conf + 4)) -> (length es < fuel)%nat ->
  exists s', mpinit fuel s = (if rd (sys_mem s) (mp + 12) =? 0 then ret tt else onw mask_imcr) s' /\
    ct_lapic s'.2 = load32 (sys_mem s) (conf + 36) /\
    ct_ioapicid s'.2 = default (ct_ioapicid s.2) (last (ioapic_ids es)) /\
    hw_ncpu (sys_cpus s') = Nat.min NCPU (length (proc_ids es)) /\
    (forall i a, proc_ids es !! i = Some a -> (i < NCPU)%nat -> c_apicid (hw_cpus (sys_cpus s') i) = a) /\
    (NoDup (proc_ids es) -> forall i j, (i < hw_ncpu (sys_cpus s'))%nat -> (j < hw_ncpu (sys_cpus s'))%nat ->
      c_apicid (hw_cpus (sys_cpus s') i) = c_apicid (hw_cpus (sys_cpus s') j) -> i = j).
Proof.
  intros Hc Hn Ht Hf. set (s1 := (s.1, set_ct_lapic (load32 (sys_mem s) (conf + 36)) s.2) : sys).
  exists (read_entries es s1). split.
  - unfold mpinit. step (mem_run s). rewrite Hc. rewrite (bind_Ret _ _ _ tt s1) by by destruct s.
    rewrite (bind_Ret _ _ _ _ _ (mp_entries_run es _ _ _ true s1 Ht Hf)). simpl. by destruct (_ =? 0).
  - destruct (booted_apic (proc_ids es) (sys_cpus s) Hn) as (Hb1 & Hb2 & Hb3). split_and!; done.
Qed.

(** C36. The panic for an unsuitable machine is never reached: when the table has an entry of an unknown type, mpinit neither
    returns nor panics, for any number of entries that it looks at; the break of the default case leaves the switch, and
    the loop meets the same entry forever. *)
Theorem mpinit_unknown_entry_hangs `{Ports} fuel s mp conf es p :
  mpconfig (sys_mem s) = Some (mp, conf) -> table (sys_mem s) (conf + 44) es p ->
  p < conf + load16 (sys_mem s) (conf + 4) -> unknown_at (sys_mem s) p -> mpinit fuel s = Spin.
Proof.
  intros Hc Ht Hp Hu. set (s1 := (s.1, set_ct_lapic (load32 (sys_mem s) (conf + 36)) s.2) : sys).
  unfold mpinit. step (mem_run s). rewrite Hc. rewrite (bind_Ret _ _ _ tt s1) by by destruct s.
  unfold bind. by rewrite (mp_entries_stuck fuel es _ p _ true s1 Ht Hp Hu).
Qed.

(** ** The search *)

(** The places mpsearch1 looks at: every sixteenth byte. *)
Lemma mpsearch1_loop_spec m n : forall p, mpsearch1_loop (S n) m p (p + 16 * Z.of_nat n) =
  find_first (is_mp m) ((fun i => p + 16 * i) <$> seqZ 0 (Z.of_nat n)).
Proof.
  induction n as [|n IH]; intros p.
  - simpl. by rewrite (proj2 (Z.ltb_ge _ _)) by lia.
  - cbn [mpsearch1_loop]. rewrite (proj2 (Z.ltb_lt _ _)) by lia. rewrite seqZ_cons by lia. cbn [fmap list_fmap find_first].
    rewrite Z.mul_0_r, Z.add_0_r. destruct (is_mp m p); [done|].
    replace (p + 16 * Z.of_nat (S n)) with (p + 16 + 16 * Z.of_nat n) by lia. cbn [mpsearch1_loop] in IH. rewrite IH.
    replace (Z.pred (Z.of_nat (S n))) with (Z.of_nat n) by lia. f_equal. change (Z.succ 0) with (0 + 1)%Z.
    rewrite <- (fmap_add_seqZ 1 0), <- list_fmap_compose. apply list_fmap_ext. intros i x _. simpl. lia.
Qed.

Lemma mpsearch1_first m a n : mpsearch1 m a (16 * Z.of_nat n) =
  find_first (is_mp m) ((fun i => P2V a + 16 * i) <$> seqZ 0 (Z.of_nat n)).
Proof. unfold mpsearch1. rewrite Z.mul_comm, Z.div_mul, Nat2Z.id, Z.mul_comm by lia. apply mpsearch1_loop_spec. Qed.

Lemma mpsearch1_range m a n p : mpsearch1 m a (16 * Z.of_nat n) = Some p ->
  is_mp m p = true /\ P2V a <= p < P2V a + 16 * Z.of_nat n.
Proof.
  rewrite mpsearch1_first. intros [Hp Hm]%find_first_elem. split; [done|].
  apply list_elem_of_fmap in Hp as (i & -> & Hi). apply elem_of_seqZ in Hi. lia.
Qed.

(** The areas that mpsearch looks at: the first KB of the EBDA or the last KB of base memory, and the upper half of the
    BIOS ROM that its comment names. *)
Definition ebda (m : mem) : Z := Z.shiftl (Z.lor (Z.shiftl (rd m (P2V 0x400 + 0x0F)) 8) (rd m (P2V 0x400 + 0x0E))) 4.
Definition base_end (m : mem) : Z := Z.lor (Z.shiftl (rd m (P2V 0x400 + 0x14)) 8) (rd m (P2V 0x400 + 0x13)) * 1024.

Lemma mpsearch_areas m p : mpsearch m = Some p -> is_mp m p = true /\
  (P2V (ebda m) <= p < P2V (ebda m) + 1024 \/ P2V (u32 (base_end m - 1024)) <= p < P2V (u32 (base_end m - 1024)) + 1024 \/
   P2V 0xF0000 <= p < P2V 0xF0000 + 0x10000).
Proof.
  unfold mpsearch. fold (ebda m) (base_end m). change 1024 with (16 * Z.of_nat 64) at 1 3. change 0x10000 with (16 * Z.of_nat 4096) at 1.
  destruct (negb _); (destruct (mpsearch1 m _ (16 * Z.of_nat 64)) as [q|] eqn:E;
    [intros [= ->]; apply mpsearch1_range in E as [Hm Hr]; (split; [done|]); simpl in Hr; tauto|]);
  intros [Hm Hr]%mpsearch1_range; (split; [done|]); right; right; exact Hr.
Qed.
