(* ===== verification/Start.v ===== *)
(** * The start of the kernel (main.c; tvinit and idtinit of trap.c)

    main runs the initialisation of every component on [sys], the kernel with its
    controllers; it ends where scheduler begins its loop.  Addresses from the linker and
    vectors.S are variables.  cprintf is left out at its call.  While the boot CPU polls started of
    another one, the other CPUs run: a CPU to which the local APIC has sent INIT and then STARTUP executes entryother.S,
    which calls mpenter.  Which messages were sent is read off the writes to the local APIC. *)
From S2P Require Import Prelude Machine ProcQueue StringC Spinlock Kalloc Vm VmFrame Proc RunQueue ProcRun Sched UserMem Trap FsState Pipe Sleeplock Disk Bio Log Fs File Exec Sysfile Ide Console Kbd Cmos Kernel Apic Mp.

(** ** The interrupt descriptor table *)

Definition STS_IG32 : Z := 0xE.
Definition STS_TG32 : Z := 0xF.

Definition SETGATE (istrap : bool) (sel off d : Z) : gatedesc :=
  mkGate (Z.land (u32 off) 0xffff) sel 0 0 (if istrap then STS_TG32 else STS_IG32) 0 d 1 (Z.shiftr (u32 off) 16).

Definition set_gate (i : Z) (g : gatedesc) : M sys unit := onc (modify (fun c => set_ct_idt (upd (ct_idt c) i g) c)).

Definition tvinit (vectors : Z -> Z) : M sys unit :=
  foreach (seqZ 0 256) (fun i => set_gate i (SETGATE false (Z.shiftl SEG_KCODE 3) (vectors i) 0)) ;;;
  set_gate T_SYSCALL (SETGATE true (Z.shiftl SEG_KCODE 3) (vectors T_SYSCALL) DPL_USER) ;;;
  sys_hw (initlock Lticks).

(** lidt on the CPU that executes. *)
Definition idtinit : M sys unit :=
  let* c := sys_hw (gets hw_me) in
  onc (modify (fun s => set_ct_idtr (upd (ct_idtr s) c true) s)).

(** ** The page directory of the boot code *)

Definition PTE_PS : Z := 0x80.
Definition entrypgdir (i : Z) : Z :=
  if (i =? 0) || (i =? Z.shiftr KERNBASE PDXSHIFT) then Z.lor (Z.lor PTE_P PTE_W) PTE_PS else 0.

(** Translation by large pages. *)
Definition large_page (d : Z -> Z) (va : Z) : option Z :=
  if negb (Z.land (d (PDX va)) PTE_P =? 0) && negb (Z.land (d (PDX va)) PTE_PS =? 0)
  then Some (Z.land (d (PDX va)) (Z.lnot (2 ^ 22 - 1)) + va mod 2 ^ 22) else None.

(** ** Messages of the local APIC *)

(** A CPU runs or is off; it got INIT and waits; it got STARTUP with a page after that. *)
Inductive apstate := ApOff | ApWait | ApGo (page : Z).

(** The destination in ICRHI of each CPU, and the state of the CPU with a given id. *)
Record apics := mkApics { ap_dest : nat -> Z; ap_cpu : Z -> apstate }.

(** The message [v] arrives. *)
Definition ipi (v : Z) (st : apstate) : apstate :=
  if Z.land v 0x700 =? INIT then if has v ASSERT then ApWait else st
  else if Z.land v 0x700 =? STARTUP then match st with ApWait => ApGo (Z.land v 0xFF) | _ => st end
  else st.

(** A write to ICRLO sends a message to the destination, unless it names several CPUs; a CPU that
    starts uses the message up. *)
Definition apic_event (lapic : Z) (e : event) (s : apics) : apics :=
  match e with
  | EvWrite c a v =>
    if a =? u32 (lapic + 4 * ICRHI) then mkApics (upd (ap_dest s) c (Z.shiftr v 24)) (ap_cpu s)
    else if (a =? u32 (lapic + 4 * ICRLO)) && (Z.land v 0xC0000 =? 0) then
      mkApics (ap_dest s) (upd (ap_cpu s) (ap_dest s c) (ipi v (ap_cpu s (ap_dest s c))))
    else s
  | EvStart id _ => mkApics (ap_dest s) (upd (ap_cpu s) id ApOff)
  | _ => s
  end.
Definition apics_of (lapic : Z) (d : list event) : apics :=
  foldr (apic_event lapic) (mkApics (fun _ => 0) (fun _ => ApOff)) d.

(** ** main.c *)

Section main.
Context `{Symbols} (P : Ports) `{Mmio} (polls : nat).
(** vectors[], the image of entryother.S, the addresses of mpenter and entrypgdir, and the image of initcode.S. *)
Context (vectors : Z -> Z) (entryother_start entryother_size sym_mpenter sym_entrypgdir initcode_start initcode_size : Z).

Definition get_lapic : M sys Z := onc (gets ct_lapic).

(** Up to the loop of scheduler; the calls of cpuid are arguments of cprintf. *)
Definition mpmain : M sys unit :=
  sys_hw cpuid ;;;
  sys_hw cpuid ;;;
  idtinit ;;;
  sys_hw (let* c := mycpu in upd_cpu c (set_c_started true)) ;;;
  onw (onk scheduler_init) ;;;
  ret tt.

Definition mpenter : M sys unit :=
  onw (onk (on_vm switchkvm)) ;;;
  sys_hw seginit ;;;
  let* lapic := get_lapic in
  onw (lapicinit lapic polls) ;;;
  mpmain.

Definition onv {A} (m : M vmst A) : M sys A := onw (onk (on_vm m)).

Definition entry_code : Z := P2V 0x7000.

(** entryother.S on CPU [c], up to its call: the code at 0x7000, where it is linked, is the image, and the three words
    below it are the page directory, the function to call, and the stack, on which the call
    stores its return address. *)
Definition entryother (c : nat) (page : Z) : M sys unit :=
  let* m := onv (gets v_mem) in
  let esp := load32 m (entry_code - 4) in
  let entry := load32 m (entry_code - 8) in
  let cr3 := load32 m (entry_code - 12) in
  if negb (page * PGSIZE =? V2P entry_code) then fault else
  if negb (forallb (fun i => m (entry_code + i) =? m (entryother_start + i)) (seqZ 0 entryother_size)) then fault else
  if negb (cr3 =? V2P sym_entrypgdir) then fault else
  if negb (entry =? sym_mpenter) then fault else
  match large_page entrypgdir (esp - 4), large_page entrypgdir entry with
  | Some _, Some _ =>
    let* id := sys_hw (gets (fun h => c_apicid (hw_cpus h c))) in
    onw (modify (note (EvStart id esp))) ;;;
    sys_hw (modify (set_hw_me c)) ;;;
    sys_hw (upd_cpu c (fun x => set_c_cr3 cr3 (set_c_if false x))) ;;;
    mpenter
  | _, _ => fault
  end.

(** The CPUs that got STARTUP run, up to the loop of scheduler. *)
Definition other_cpus : M sys unit :=
  let* n := sys_hw (gets hw_ncpu) in
  foreach (seq 0 n) (fun c =>
    let* id := sys_hw (gets (fun h => c_apicid (hw_cpus h c))) in
    let* lapic := get_lapic in
    let* d := onw (gets (fun w => l_dev (fs_low w.2))) in
    match ap_cpu (apics_of lapic d) id with
    | ApGo page =>
      let* me := sys_hw (gets hw_me) in
      entryother c page ;;;
      sys_hw (modify (set_hw_me me))
    | _ => ret tt
    end).

(** [while(c->started == 0) ;] with at most [fuel] reads; the other CPUs run in between. *)
Fixpoint wait_started (fuel : nat) (c : nat) : M sys unit :=
  match fuel with
  | O => out_of_fuel
  | S f =>
    let* b := sys_hw (gets (fun h => c_started (hw_cpus h c))) in
    if b then ret tt else other_cpus ;;; wait_started f c
  end.

(** The body of the loop of startothers. *)
Definition start_cpu (c : nat) : M sys unit :=
  let* me := sys_hw mycpu in
  if bool_decide (c = me) then ret tt else
  let* stack := onv kalloc in
  onv (memop (fun m => store32 m (entry_code - 4) (u32 (stack + KSTACKSIZE)))) ;;;
  onv (memop (fun m => store32 m (entry_code - 8) sym_mpenter)) ;;;
  onv (memop (fun m => store32 m (entry_code - 12) (V2P sym_entrypgdir))) ;;;
  let* apicid := sys_hw (gets (fun h => c_apicid (hw_cpus h c))) in
  let* lapic := get_lapic in
  onw (lapicstartap lapic apicid (V2P entry_code)) ;;;
  wait_started polls c.

Definition startothers : M sys unit :=
  onv (memop (memmove entry_code entryother_start entryother_size)) ;;;
  let* n := sys_hw (gets hw_ncpu) in
  foreach (seq 0 n) start_cpu.

(** Call a driver with the I/O APIC that ioapic points to. *)
Definition driver (f : Ports -> M W unit) : M sys unit :=
  let* io := onc (gets ct_ioapic) in onw (f (with_ioapic P io)).

(** userinit on the file system of the IDE disk. *)
Definition boot_userinit (P : Ports) : M W unit :=
  let disk := @ide P polls in
  @userinit _ (fstate low) (@kernel_files _ disk (@console_devsw P _ disk)) initcode_start initcode_size.

Definition main (fuel : nat) : M sys unit :=
  onv (kinit1 sym_end (P2V (4 * 1024 * 1024))) ;;;
  onv kvmalloc ;;;
  mpinit fuel ;;;
  (let* lapic := get_lapic in onw (lapicinit lapic polls)) ;;;
  sys_hw seginit ;;;
  onw picinit ;;;
  onc (modify (set_ct_ioapic IOAPIC)) ;;;
  onw ioapicinit ;;;
  driver (@consoleinit) ;;;
  driver (@uartinit) ;;;
  onw (onk pinit) ;;;
  tvinit vectors ;;;
  onw binit ;;;
  onw fileinit ;;;
  driver (fun P => @ideinit P polls) ;;;
  startothers ;;;
  onv (kinit2 (P2V (4 * 1024 * 1024)) (P2V PHYSTOP)) ;;;
  driver boot_userinit ;;;
  mpmain.
End main.
