(* ===== verification/StartSpec.v ===== *)
(** * What the start of the kernel achieves

    The gates of the interrupt descriptor table, the page directory of the boot code, and that
    startothers brings up every CPU of the table through its local APIC. *)
From S2P Require Import Prelude Machine ProcQueue StringC Spinlock Kalloc Vm VmFrame Proc RunQueue ProcRun Sched UserMem Trap FsState Pipe Sleeplock Disk Bio Log Fs File Exec Sysfile Ide Console Kbd Cmos Kernel ConsoleSpec Apic Mp Start.

(** ** Gates *)

(** The address a gate leads to. *)
Definition gate_target (g : gatedesc) : Z := Z.lor (Z.shiftl (gd_off_31_16 g) 16) (gd_off_15_0 g).

Lemma SETGATE_target t sel off d : gate_target (SETGATE t sel off d) = u32 off.
Proof.
  unfold gate_target. simpl. pose proof (u32_range off). change 0xffff with (Z.ones 16). rewrite Z.land_ones by lia.
  rewrite Z.shiftl_mul_pow2, Z.shiftr_div_pow2 by lia.
  rewrite (lor_add_low _ _ 16); [|lia|apply Z_mod_mult|apply Z.mod_pos_bound; lia].
  pose proof (Z.div_mod (u32 off) (2 ^ 16)). lia.
Qed.

Lemma set_gates_run (f : Z -> gatedesc) n : forall i s, 
  exists idt, foreach (seqZ i (Z.of_nat n)) (fun i => set_gate i (f i)) s = Ret tt (s.1, set_ct_idt idt s.2) /\
  forall j, idt j = if decide (i <= j < i + Z.of_nat n) then f j else ct_idt s.2 j.
Proof.
  induction n as [|n IH]; intros i s.
  - exists (ct_idt s.2). split; [by destruct s as [? []]|]. intros j. by rewrite decide_False by lia.
  - rewrite seqZ_cons by lia. cbn [foreach]. replace (Z.pred (Z.of_nat (S n))) with (Z.of_nat n) by lia.
    rewrite (bind_Ret _ _ _ tt (s.1, set_ct_idt (upd (ct_idt s.2) i (f i)) s.2)) by by destruct s.
    destruct (IH (Z.succ i) (s.1, set_ct_idt (upd (ct_idt s.2) i (f i)) s.2)) as (idt & E & Hidt). exists idt. split; [done|].
    intros j. rewrite Hidt. simpl. unfold upd. repeat case_decide; subst; try lia; done.
Qed.

(** C28. The gates that tvinit sets: every vector leads to its entry of vectors[] in the kernel's code segment, with
    interrupts off; only the gate of T_SYSCALL is open to user programs, and it alone leaves interrupts on. *)
Theorem tvinit_gates vectors s : exists s', tvinit vectors s = Ret tt s' /\
  forall i, 0 <= i < 256 -> let g := ct_idt s'.2 i in
    gate_target g = u32 (vectors i) /\ gd_cs g = 8 /\ gd_p g = 1 /\ gd_s g = 0 /\
    (gd_dpl g = DPL_USER <-> i = T_SYSCALL) /\ (gd_dpl g = 0 <-> i <> T_SYSCALL) /\
    (gd_type g = STS_TG32 <-> i = T_SYSCALL) /\ (gd_type g = STS_IG32 <-> i <> T_SYSCALL).
Proof.
  unfold tvinit. destruct (set_gates_run (fun i => SETGATE false (Z.shiftl SEG_KCODE 3) (vectors i) 0) 256 0 s) as (idt & E & Hidt).
  change (Z.of_nat 256) with 256 in E. step E. clear E. set (s1 := (s.1, set_ct_idt idt s.2) : sys).
  set (g := SETGATE true (Z.shiftl SEG_KCODE 3) (vectors T_SYSCALL) DPL_USER).
  assert (set_gate T_SYSCALL g s1 = Ret tt (s1.1, set_ct_idt (upd idt T_SYSCALL g) s1.2)) as E1 by by destruct s.
  step E1. exists (with_hw (set_hw_locks (upd (hw_locks (sys_cpus s1)) Lticks (mkSpinlock false None)) (sys_cpus s1))
    (s1.1, set_ct_idt (upd idt T_SYSCALL g) s1.2)). split; [by apply sys_hw_run|].
  intros i Hi. cbv zeta. change (ct_idt _ i) with (upd idt T_SYSCALL g i). destruct (decide (T_SYSCALL = i)) as [<-|Hne].
  - rewrite upd_eq. unfold g. rewrite SETGATE_target. split_and!; done.
  - rewrite upd_ne, Hidt, decide_True by (simpl; lia). rewrite SETGATE_target. split_and!; try done; split; intros; try congruence; try done.
Qed.

(** ** The first page directory *)

Lemma entrypgdir_maps va : 0 <= va < 2 ^ 32 -> large_page entrypgdir va =
  if decide (va < 2 ^ 22) then Some va else if decide (KERNBASE <= va < KERNBASE + 2 ^ 22) then Some (V2P va) else None.
Proof.
  intros Hva. unfold large_page. rewrite PDX_eq, u32_small by done. unfold entrypgdir. change (Z.shiftr KERNBASE PDXSHIFT) with 512.
  repeat case_decide; unfold KERNBASE in *.
  - rewrite (Z.div_small va) by lia. cbn -[Z.modulo Z.pow]. rewrite Z.mod_small by lia. done.
  - assert (va / 2 ^ 22 = 512) as -> by (Z.div_mod_to_equations; lia).
    change (Z.land _ (Z.lnot (2 ^ 22 - 1))) with 0. simpl. f_equal. unfold V2P, KERNBASE. rewrite (u32_small va), u32_small by lia. Z.div_mod_to_equations. lia.
  - rewrite !(proj2 (Z.eqb_neq (va / 2 ^ 22) _)) by (Z.div_mod_to_equations; lia). done.
Qed.

(** ** Starting the other CPUs *)

(** What the code relies on of the local APIC: every access to its registers is answered and recorded, and
    the delivery status clears within [polls] reads; [ap_busy] is the number of reads until
    then. *)
Class ApicOk `{Mmio} (polls : nat) := {
  ap_busy : W -> nat;
  ap_bound w : (ap_busy w < polls)%nat;
  ap_read a w : exists v, let w' := note (EvRead (hw_me (k_hw w.1)) a v) w in
    mm_read a w = Ret v w' /\ (has v DELIVS = true -> (ap_busy w' < ap_busy w)%nat);
  ap_write a v w : mm_write a v w = Ret tt (note (EvWrite (hw_me (k_hw w.1)) a v) w);
}.

(** The CPUs that started, oldest first: their ids and stacks. *)
Fixpoint starts (d : list event) : list (Z * Z) :=
  match d with
  | [] => []
  | EvStart id stack :: d' => starts d' ++ [(id, stack)]
  | _ :: d' => starts d'
  end.

Definition hist (w : W) : list event := l_dev (fs_low w.2).

(** Events that start no CPU and send no message to a single CPU. *)
Record silent (l : Z) (w w' : W) : Prop := {
  si_kst : w'.1 = w.1;
  si_cpu : ap_cpu (apics_of l (hist w')) = ap_cpu (apics_of l (hist w));
  si_starts : starts (hist w') = starts (hist w);
}.
#[export] Instance silent_preorder l : PreOrder (silent l).
Proof. split; [by split|]. intros w1 w2 w3 [A1 A2 A3] [B1 B2 B3]. split; congruence. Qed.

(** What starting a CPU keeps of the others. *)
Record cpu_kept (c c' : cpu) : Prop := {
  ck_apicid : c_apicid c' = c_apicid c;
  ck_if : c_if c' = c_if c;
  ck_ncli : c_ncli c' = c_ncli c;
  ck_started : c_started c = true -> c_started c' = true;
}.
Record kept (s s' : sys) : Prop := {
  kp_ncpu : hw_ncpu (sys_cpus s') = hw_ncpu (sys_cpus s);
  kp_me : hw_me (sys_cpus s') = hw_me (sys_cpus s);
  kp_lock : v_use_lock (k_vm s'.1.1) = v_use_lock (k_vm s.1.1);
  kp_cpu i : cpu_kept (hw_cpus (sys_cpus s) i) (hw_cpus (sys_cpus s') i);
}.
#[export] Instance kept_preorder : PreOrder kept.
Proof.
  split; [by split|]. intros s1 s2 s3 [A1 A2 A3 A4] [B1 B2 B3 B4]. split; [congruence..|].
  intros i. destruct (A4 i), (B4 i). split; [congruence..|auto].
Qed.

(** The machine while it starts: interrupts are off and the allocator does not lock. *)
Record starting (s : sys) : Prop := {
  sg_wf : hw_wf (sys_cpus s);
  sg_if i : c_if (hw_cpus (sys_cpus s) i) = false;
  sg_lock : v_use_lock (k_vm s.1.1) = false;
}.
Lemma kept_starting s s' : kept s s' -> starting s -> starting s'.
Proof.
  intros [A1 A2 A3 A4] [[W1 W2 W3 W4] Hi Hl]. split; [split|..].
  - congruence.
  - intros i j. rewrite A1, (ck_apicid _ _ (A4 i)), (ck_apicid _ _ (A4 j)). apply W2.
  - intros i. rewrite A1, (ck_ncli _ _ (A4 i)). apply W3.
  - intros i. rewrite A1, (ck_ncli _ _ (A4 i)), (ck_if _ _ (A4 i)). apply W4.
  - intros i. by rewrite (ck_if _ _ (A4 i)).
  - congruence.
Qed.

(** The code of the CPU that executes leaves memory, the controllers and the other CPUs alone. *)
Record calm (s s' : sys) : Prop := {
  cm_kept : kept s s';
  cm_mem : sys_mem s' = sys_mem s;
  cm_free : v_freelist (k_vm s'.1.1) = v_freelist (k_vm s.1.1);
  cm_lapic : ct_lapic s'.2 = ct_lapic s.2;
  cm_cpu : ap_cpu (apics_of (ct_lapic s.2) (hist s'.1)) = ap_cpu (apics_of (ct_lapic s.2) (hist s.1));
  cm_starts : starts (hist s'.1) = starts (hist s.1);
  cm_other i : i <> hw_me (sys_cpus s) -> c_started (hw_cpus (sys_cpus s') i) = c_started (hw_cpus (sys_cpus s) i);
}.
#[export] Instance calm_preorder : PreOrder calm.
Proof.
  split; [by split|]. intros s1 s2 s3 [A1 A2 A3 A4 A5 A6 A7] [B1 B2 B3 B4 B5 B6 B7]. split; [by etrans|congruence..| | |].
  - rewrite A4 in B5. congruence.
  - congruence.
  - intros i Hi. rewrite B7, A7; [done|done|]. by rewrite (kp_me _ _ A1).
Qed.
Lemma calm_starting s s' : calm s s' -> starting s -> starting s'.
Proof. intros [K _ _ _ _ _ _]. by apply kept_starting. Qed.
Lemma calm_silent w c w' : silent (ct_lapic c) w w' -> calm (w, c) (w', c).
Proof. destruct w as [k f], w' as [k' f']. intros [E1 E2 E3]. simpl in *. subst k'. by split. Qed.
Lemma calm_ctl s c : ct_lapic c = ct_lapic s.2 -> calm s (s.1, c).
Proof. destruct s as [w c0]. simpl. intros E. by split. Qed.

(** A change of the CPU that executes. *)
Lemma calm_upd s f : (forall c, cpu_kept c (f c)) -> let h := sys_cpus s in
  calm s (with_hw (set_hw_cpus (upd (hw_cpus h) (hw_me h) (f (hw_cpus h (hw_me h)))) h) s).
Proof.
  intros Hf h. split; try done; [split; try done|]; intros i; simpl.
  - destruct (decide (hw_me h = i)) as [<-|]; [by rewrite upd_eq|by rewrite upd_ne].
  - intros Hi. by rewrite upd_ne.
Qed.

Lemma upd_cpu_run s i f : sys_hw (upd_cpu i f) s =
  Ret tt (with_hw (set_hw_cpus (upd (hw_cpus (sys_cpus s)) i (f (hw_cpus (sys_cpus s) i))) (sys_cpus s)) s).
Proof. by apply sys_hw_run. Qed.

Lemma with_same s : with_hw (sys_cpus s) s = s.
Proof. by destruct s as [[[[]] f] c]. Qed.
Lemma sys_hw_gets {A} (f : hw -> A) s : sys_hw (gets f) s = Ret (f (sys_cpus s)) s.
Proof. by rewrite (sys_hw_run _ s (f (sys_cpus s)) (sys_cpus s)), with_same. Qed.
Lemma onw_run {A} (m : M W A) s a w : m s.1 = Ret a w -> onw m s = Ret a (w, s.2).
Proof. intros E. unfold onw, zoom. by rewrite E. Qed.
Lemma get_lapic_run s : get_lapic s = Ret (ct_lapic s.2) s.
Proof. by destruct s. Qed.

Section start.
Context `{Symbols} `{PortsOk} `{Mmio} (polls : nat) `{!ApicOk polls}.

(** ** Registers of the local APIC *)

Lemma reg_ne l i j : 0 <= i < 1024 -> 0 <= j < 1024 -> i <> j -> (u32 (l + 4 * i) =? u32 (l + 4 * j)) = false.
Proof. intros Hi Hj Hne. apply Z.eqb_neq. unfold u32. intros E. Z.div_mod_to_equations. lia. Qed.

Lemma lapicw_exact l i v w : exists x, lapicw l i v w =
  Ret tt (note (EvRead (hw_me (k_hw w.1)) (u32 (l + 4 * ID)) x) (note (EvWrite (hw_me (k_hw w.1)) (u32 (l + 4 * i)) (u32 v)) w)).
Proof.
  unfold lapicw, lapicr. rewrite (bind_Ret _ _ _ _ _ (ap_write _ _ w)).
  destruct (ap_read (u32 (l + 4 * ID)) (note (EvWrite (hw_me (k_hw w.1)) (u32 (l + 4 * i)) (u32 v)) w)) as (x & E & _).
  exists x. by rewrite (bind_Ret _ _ _ _ _ E).
Qed.

Lemma lapicr_silent l i w : exists v w', lapicr l i w = Ret v w' /\ silent l w w' /\
  (has v DELIVS = true -> (ap_busy w' < ap_busy w)%nat).
Proof.
  unfold lapicr. destruct (ap_read (u32 (l + 4 * i)) w) as (v & E & Hd). eexists v, _. split; [exact E|]. split; [by split|done].
Qed.

(** A register other than ICRLO, or a message to several CPUs. *)
Lemma lapicw_silent l i v w : 0 <= i < 1024 -> i <> ICRLO \/ Z.land (u32 v) 0xC0000 <> 0 ->
  exists w', lapicw l i v w = Ret tt w' /\ silent l w w'.
Proof.
  intros Hi Hq. destruct (lapicw_exact l i v w) as [x E]. eexists. split; [exact E|]. split; [done| |done].
  unfold note, hist, apics_of. simpl. destruct (_ =? u32 (l + 4 * ICRHI)); [done|].
  destruct Hq as [Hq|Hq]; [by rewrite reg_ne by done|]. by rewrite (proj2 (Z.eqb_neq _ _) Hq), andb_false_r.
Qed.

(** The destination of a message, and the message. *)
Lemma lapicw_dest l v w : let me := hw_me (k_hw w.1) in exists w', lapicw l ICRHI v w = Ret tt w' /\ silent l w w' /\
  ap_dest (apics_of l (hist w')) me = Z.shiftr (u32 v) 24.
Proof.
  intros me. destruct (lapicw_exact l ICRHI v w) as [x E]. eexists. split; [exact E|].
  unfold note, hist, apics_of. simpl. split; [split|]; simpl; try done; rewrite Z.eqb_refl; [done|]. simpl. by rewrite upd_eq.
Qed.
Lemma lapicw_send l v w : let me := hw_me (k_hw w.1) in let a := apics_of l (hist w) in Z.land (u32 v) 0xC0000 = 0 ->
  exists w', lapicw l ICRLO v w = Ret tt w' /\ w'.1 = w.1 /\ starts (hist w') = starts (hist w) /\
    apics_of l (hist w') = mkApics (ap_dest a) (upd (ap_cpu a) (ap_dest a me) (ipi (u32 v) (ap_cpu a (ap_dest a me)))).
Proof.
  intros me a Hv. destruct (lapicw_exact l ICRLO v w) as [x E]. eexists. split; [exact E|]. split_and!; [done|done|].
  unfold note, hist, apics_of. simpl. rewrite reg_ne by done. by rewrite Z.eqb_refl, Hv.
Qed.

Lemma wait_delivered_run l fuel : forall w, (ap_busy w < fuel)%nat -> exists w', wait_delivered l fuel w = Ret tt w' /\ silent l w w'.
Proof.
  induction fuel as [|fuel IH]; intros w Hb; [lia|]. cbn [wait_delivered].
  destruct (lapicr_silent l ICRLO w) as (v & w1 & E1 & J1 & Hd). step E1. destruct (has v DELIVS) eqn:Ev; [|by exists w1].
  destruct (IH w1) as (w2 & E2 & J2); [specialize (Hd eq_refl); lia|]. exists w2. split; [done|by etrans].
Qed.

(** Run the next register access. *)
Ltac lapic_step := match goal with |- context [bind (lapicw ?l ?i ?v) _ ?w] =>
  let w1 := fresh "w" in let E := fresh "E" in let K := fresh "K" in
  destruct (lapicw_silent l i v w) as (w1 & E & K); [done|first [by left|by right]|]; step E; clear E end.

Lemma lapicinit_run l w : exists w', lapicinit l polls w = Ret tt w' /\ silent l w w'.
Proof.
  unfold lapicinit. destruct (l =? 0); [by exists w|]. repeat lapic_step.
  destruct (lapicr_silent l VER w5) as (v & w6 & E6 & J6 & _). step E6. clear E6.
  assert (exists w7, when (Z.land (Z.shiftr v 16) 0xFF >=? 4) (lapicw l PCINT MASKED) w6 = Ret tt w7 /\ silent l w6 w7) as (w7 & E7 & J7).
  { destruct (_ >=? _); [apply lapicw_silent; [done|by left]|by exists w6]. }
  step E7. clear E7. repeat lapic_step.
  match goal with |- context [bind (wait_delivered l polls) _ ?w] => destruct (wait_delivered_run l polls w (ap_bound w)) as (w20 & E20 & J20) end.
  step E20. destruct (lapicw_silent l TPR 0 w20) as (w21 & E21 & J21); [done|by left|]. exists w21. split; [done|].
  repeat (etrans; [eassumption|]). done.
Qed.

Lemma shift_id id : 0 <= id < 256 -> Z.shiftr (u32 (Z.shiftl id 24)) 24 = id.
Proof. intros Hid. rewrite Z.shiftl_mul_pow2, u32_small, Z.shiftr_div_pow2 by lia. apply Z.div_mul. lia. Qed.

(** Destination and message together. *)
Lemma lapicw_ipi l id v w : 0 <= id < 256 -> Z.land (u32 v) 0xC0000 = 0 -> let a := apics_of l (hist w) in exists w',
  (lapicw l ICRHI (Z.shiftl id 24) ;;; lapicw l ICRLO v) w = Ret tt w' /\ w'.1 = w.1 /\ starts (hist w') = starts (hist w) /\
  ap_cpu (apics_of l (hist w')) = upd (ap_cpu a) id (ipi (u32 v) (ap_cpu a id)) /\
  ap_dest (apics_of l (hist w')) (hw_me (k_hw w.1)) = id.
Proof.
  intros Hid Hv a. destruct (lapicw_dest l (Z.shiftl id 24) w) as (w1 & E1 & [K1 K2 K3] & D1). rewrite shift_id in D1 by done. step E1.
  destruct (lapicw_send l v w1 Hv) as (w2 & E2 & J1 & J2 & J3). exists w2. rewrite K1, D1, K2 in J3. rewrite J3. simpl. split_and!; [done|congruence|congruence|done|done].
Qed.

(** The messages of lapicstartap: the CPU with this id starts at page 7. *)
Lemma lapicstartap_run l id w : 0 <= id < 256 -> exists w', lapicstartap l id (V2P entry_code) w = Ret tt w' /\
  w'.1 = set_k_vm (set_v_mem (store16 (store16 (v_mem (k_vm w.1)) WARM_RESET 0) (WARM_RESET + 2) 0x700) (k_vm w.1)) w.1 /\
  starts (hist w') = starts (hist w) /\
  ap_cpu (apics_of l (hist w')) = upd (ap_cpu (apics_of l (hist w))) id (ApGo 7).
Proof.
  intros Hid. unfold lapicstartap. rewrite !(bind_Ret _ _ _ _ _ (outb_ok _ _ _)). do 2 (erewrite bind_Ret by reflexivity).
  change (Z.shiftr (V2P entry_code) 4) with 0x700. change (Z.shiftr (V2P entry_code) 12) with 7.
  match goal with |- context [bind (lapicw _ _ _) _ ?x] => set (w0 := x) end. cbn [foreach seq].
  destruct (lapicw_ipi l id (Z.lor (Z.lor INIT LEVEL) ASSERT) w0 Hid eq_refl) as (w1 & E1 & J1 & S1 & C1 & D1).
  rewrite <- bind_assoc. step E1. clear E1.
  destruct (lapicw_send l (Z.lor INIT LEVEL) w1 eq_refl) as (w2 & E2 & J2 & S2 & C2). step E2. clear E2.
  destruct (lapicw_ipi l id (Z.lor STARTUP 7) w2 Hid eq_refl) as (w3 & E3 & J3 & S3 & C3 & D3). step E3. clear E3.
  destruct (lapicw_ipi l id (Z.lor STARTUP 7) w3 Hid eq_refl) as (w4 & E4 & J4 & S4 & C4 & D4). step E4. clear E4.
  exists w4. split_and!; [done| | |].
  - rewrite J4, J3, J2, J1. done.
  - rewrite S4, S3, S2, S1. done.
  - rewrite C4, C3, C2. cbn [ap_cpu]. rewrite J1, D1, C1, !upd_upd, !upd_eq. done.
Qed.

(** ** The code of a CPU that starts *)

Lemma mycpu_boot s : starting s -> sys_hw mycpu s = Ret (hw_me (sys_cpus s)) s.
Proof.
  intros [Hwf Hi _]. by rewrite (sys_hw_run _ _ _ _ (mycpu_run _ Hwf (Hi _))), with_same.
Qed.

Lemma seginit_calm s : starting s -> exists s', sys_hw seginit s = Ret tt s' /\ calm s s'.
Proof.
  intros Hs. destruct Hs as [Hwf Hi _]. set (c := hw_me (sys_cpus s)).
  eexists. split; [apply sys_hw_run; unfold seginit, cpuid; rewrite (bind_Ret _ _ _ _ _ (mycpu_run _ Hwf (Hi _))); done|].
  split; try done; [split; try done|]; intros i; simpl; unfold upd; repeat case_decide; subst; try done; by split.
Qed.

Lemma mpmain_run s : starting s -> exists s', mpmain s = Ret tt s' /\ calm s s' /\ c_started (my (sys_cpus s')) = true.
Proof.
  intros Hs. unfold mpmain, cpuid. step (mycpu_boot s Hs). step (mycpu_boot s Hs). set (me := hw_me (sys_cpus s)).
  set (s1 := (s.1, set_ct_idtr (upd (ct_idtr s.2) me true) s.2) : sys).
  assert (idtinit s = Ret tt s1) as E1 by (unfold idtinit; by step (sys_hw_gets hw_me s)). step E1. clear E1.
  assert (calm s s1) as K1 by by apply calm_ctl. pose proof (calm_starting _ _ K1 Hs) as Hs1.
  set (s2 := with_hw (set_hw_cpus (upd (hw_cpus (sys_cpus s1)) me (set_c_started true (hw_cpus (sys_cpus s1) me))) (sys_cpus s1)) s1).
  assert (sys_hw (let* c := mycpu in upd_cpu c (set_c_started true)) s1 = Ret tt s2) as E2.
  { apply sys_hw_run. by rewrite (bind_Ret _ _ _ _ _ (mycpu_run _ (sg_wf _ Hs1) (sg_if _ Hs1 _))). }
  step E2. clear E2. assert (calm s1 s2) as K2 by (apply (calm_upd s1 (set_c_started true)); by split).
  pose proof (calm_starting _ _ K2 Hs1) as Hs2.
  set (s3 := with_hw (set_hw_cpus (upd (hw_cpus (sys_cpus s2)) me (set_c_proc None (hw_cpus (sys_cpus s2) me))) (sys_cpus s2)) s2).
  assert (onw (onk scheduler_init) s2 = Ret me s3) as E3.
  { apply sys_hw_run. by rewrite (bind_Ret _ _ _ _ _ (mycpu_run _ (sg_wf _ Hs2) (sg_if _ Hs2 _))). }
  step E3. exists s3. assert (calm s2 s3) as K3 by (apply (calm_upd s2 (set_c_proc None)); by split). split_and!; [done|..].
  - by do 2 (etrans; [eassumption|]).
  - unfold my. simpl. rewrite !upd_eq. done.
Qed.

Lemma mpenter_run s : starting s -> exists s', mpenter polls s = Ret tt s' /\ calm s s' /\ c_started (my (sys_cpus s')) = true.
Proof.
  intros Hs. unfold mpenter.
  set (s1 := with_hw (set_hw_cpus (upd (hw_cpus (sys_cpus s)) (hw_me (sys_cpus s)) (set_c_cr3 (V2P (v_kpgdir (k_vm s.1.1)))
    (hw_cpus (sys_cpus s) (hw_me (sys_cpus s))))) (sys_cpus s)) s).
  assert (onw (onk (on_vm switchkvm)) s = Ret tt s1) as E1 by by destruct s as [[[[]] f] c]. step E1. clear E1.
  assert (calm s s1) as K1 by (apply (calm_upd s (set_c_cr3 _)); by split).
  destruct (seginit_calm s1 (calm_starting _ _ K1 Hs)) as (s2 & E2 & K2). step E2. clear E2. step (get_lapic_run s2).
  destruct (lapicinit_run (ct_lapic s2.2) s2.1) as (w3 & E3 & K3). rewrite (bind_Ret _ _ _ _ _ (onw_run _ _ _ _ E3)). clear E3.
  assert (calm s2 (w3, s2.2)) as K3' by (rewrite (surjective_pairing s2) at 1; by apply calm_silent).
  assert (calm s (w3, s2.2)) as K by by do 2 (etrans; [eassumption|]).
  destruct (mpmain_run (w3, s2.2) (calm_starting _ _ K Hs)) as (s4 & E4 & K4 & Hst). exists s4. split_and!; [done|by etrans|done].
Qed.
(** ** The other CPUs *)

(** What happens on the other CPUs while the boot CPU waits. *)
Record waited (s s' : sys) : Prop := {
  wt_kept : kept s s';
  wt_mem : sys_mem s' = sys_mem s;
  wt_free : v_freelist (k_vm s'.1.1) = v_freelist (k_vm s.1.1);
  wt_lapic : ct_lapic s'.2 = ct_lapic s.2;
}.

Definition ap_of (s : sys) (c : nat) : apstate := ap_cpu (apics_of (ct_lapic s.2) (hist s.1)) (c_apicid (hw_cpus (sys_cpus s) c)).

(** Where things are: the image of entryother.S, the function mpenter and the page directory of the boot code. *)
Context (img size mpe pd : Z).
Hypothesis Hsize : 0 <= size /\ entry_code + size <= KERNBASE + EXTMEM.
Hypothesis Himg : KERNBASE + EXTMEM <= img.
Hypothesis Hmpe : KERNBASE <= mpe < KERNBASE + 2 ^ 22.

(** The words below the code are set for the stack [esp]. *)
Record prepared (m : mem) (esp : Z) : Prop := {
  pr_code i : 0 <= i < size -> m (entry_code + i) = m (img + i);
  pr_esp : load32 m (entry_code - 4) = esp;
  pr_entry : load32 m (entry_code - 8) = mpe;
  pr_cr3 : load32 m (entry_code - 12) = V2P pd;
}.

Lemma entryother_run s c esp : starting s -> (c < hw_ncpu (sys_cpus s))%nat -> prepared (sys_mem s) esp ->
  KERNBASE + 4 <= esp <= KERNBASE + 2 ^ 22 -> let id := c_apicid (hw_cpus (sys_cpus s) c) in
  exists s', (let* me := sys_hw (gets hw_me) in entryother polls img size mpe pd c 7 ;;; sys_hw (modify (set_hw_me me))) s = Ret tt s' /\
    waited s s' /\ c_started (hw_cpus (sys_cpus s') c) = true /\ starts (hist s'.1) = starts (hist s.1) ++ [(id, esp)] /\
    ap_cpu (apics_of (ct_lapic s.2) (hist s'.1)) = upd (ap_cpu (apics_of (ct_lapic s.2) (hist s.1))) id ApOff /\
    forall i, i <> c -> c_started (hw_cpus (sys_cpus s') i) = c_started (hw_cpus (sys_cpus s) i).
Proof.
  intros Hs Hc [P1 P2 P3 P4] Hesp id. step (sys_hw_gets hw_me s). set (me := hw_me (sys_cpus s)).
  unfold entryother. assert (onv (gets v_mem) s = Ret (sys_mem s) s) as E0 by by destruct s as [[[] ?] ?].
  rewrite bind_assoc. step E0. clear E0. rewrite P2, P3, P4, !Z.eqb_refl. change (7 * PGSIZE =? V2P entry_code) with true. cbn [negb].
  assert (forallb (fun i => sys_mem s (entry_code + i) =? sys_mem s (img + i)) (seqZ 0 size) = true) as ->.
  { apply Is_true_true, forallb_True, Forall_forall. intros i Hi%elem_of_seqZ. rewrite P1 by lia. by rewrite Z.eqb_refl. }
  cbn [negb]. unfold KERNBASE in *. rewrite !entrypgdir_maps by lia. unfold KERNBASE.
  rewrite (decide_False (P := esp - 4 < _)), (decide_False (P := mpe < _)), !decide_True by lia.
  rewrite bind_assoc. rewrite (bind_Ret _ _ _ _ _ (sys_hw_gets _ s)). fold id.
  set (s1 := (note (EvStart id esp) s.1, s.2) : sys). assert (onw (modify (note (EvStart id esp))) s = Ret tt s1) as E1 by done.
  rewrite bind_assoc. step E1. clear E1.
  set (s2 := with_hw (set_hw_me c (sys_cpus s1)) s1). assert (sys_hw (modify (set_hw_me c)) s1 = Ret tt s2) as E2 by by apply sys_hw_run.
  rewrite bind_assoc. step E2. clear E2.
  rewrite bind_assoc, (bind_Ret _ _ _ _ _ (upd_cpu_run _ _ _)). set (s3 := with_hw _ s2).
  assert (forall i, cpu_kept (hw_cpus (sys_cpus s) i) (hw_cpus (sys_cpus s3) i)) as C3.
  { intros i. pose proof (sg_if _ Hs c). simpl. unfold upd. case_decide; subst; by split. }
  assert (starting s3) as Hs3.
  { apply (kept_starting (with_hw (set_hw_me c (sys_cpus s)) s)); [by split|]. destruct Hs as [[] Hi Hl]. by split. }
  destruct (mpenter_run s3 Hs3) as (s4 & E4 & [K4 M4 F4 L4 A4 T4 O4] & Hst). step E4. clear E4.
  exists (with_hw (set_hw_me me (sys_cpus s4)) s4). split; [by apply sys_hw_run|]. destruct K4 as [N4 Me4 U4 C4].
  assert (hw_me (sys_cpus s4) = c) as Ec by (by rewrite Me4). split_and!.
  - split; [split|..]; try done. intros i. destruct (C3 i), (C4 i). split; simpl; [congruence..|auto].
  - unfold my in Hst. by rewrite Ec in Hst.
  - change (starts (hist s4.1) = starts (hist s.1) ++ [(id, esp)]). by rewrite T4.
  - change (ap_cpu (apics_of (ct_lapic s3.2) (hist s4.1)) = upd (ap_cpu (apics_of (ct_lapic s.2) (hist s.1))) id ApOff). by rewrite A4.
  - intros i Hi. simpl. rewrite O4 by done. simpl. by rewrite upd_ne.
Qed.
Notation ap_turn := (fun c =>
  let* id := sys_hw (gets (fun h => c_apicid (hw_cpus h c))) in
  let* lapic := get_lapic in
  let* d := onw (gets (fun w => l_dev (fs_low w.2))) in
  match ap_cpu (apics_of lapic d) id with
  | ApGo page =>
    let* me := sys_hw (gets hw_me) in
    entryother polls img size mpe pd c page ;;;
    sys_hw (modify (set_hw_me me))
  | _ => ret tt
  end).

Lemma ap_turn_run s c : ap_turn c s = match ap_of s c with
  | ApGo page => (let* me := sys_hw (gets hw_me) in entryother polls img size mpe pd c page ;;; sys_hw (modify (set_hw_me me))) s
  | _ => Ret tt s
  end.
Proof.
  cbv beta. rewrite (bind_Ret _ _ _ _ _ (sys_hw_gets _ s)). step (get_lapic_run s).
  rewrite (bind_Ret (onw _) _ s (hist s.1) s) by by destruct s. unfold ap_of. by destruct (ap_cpu _ _).
Qed.

Lemma no_turns s l : (forall c, c ∈ l -> forall page, ap_of s c <> ApGo page) -> foreach l ap_turn s = Ret tt s.
Proof.
  induction l as [|c l IH]; intros Hl; [done|]. cbn [foreach]. rewrite (bind_Ret _ _ s tt s).
  - apply IH. intros c' Hc'. apply Hl. by right.
  - rewrite ap_turn_run. specialize (Hl c ltac:(left)). destruct (ap_of s c); [done..|]. by destruct (Hl page).
Qed.

(** Two CPUs have different ids. *)
Lemma ids_differ s i j : starting s -> (i < hw_ncpu (sys_cpus s))%nat -> (j < hw_ncpu (sys_cpus s))%nat -> i <> j ->
  c_apicid (hw_cpus (sys_cpus s) i) <> c_apicid (hw_cpus (sys_cpus s) j).
Proof. intros [[_ W2 _ _] _ _] Hi Hj Hne E. apply Hne. by apply (W2 i j Hi Hj). Qed.

(** One turn of the other CPUs, of which [c] got STARTUP. *)
Lemma other_cpus_run s c esp : starting s -> (c < hw_ncpu (sys_cpus s))%nat -> prepared (sys_mem s) esp ->
  KERNBASE + 4 <= esp <= KERNBASE + 2 ^ 22 -> ap_of s c = ApGo 7 ->
  (forall i, (i < hw_ncpu (sys_cpus s))%nat -> i <> c -> forall page, ap_of s i <> ApGo page) ->
  exists s', other_cpus polls img size mpe pd s = Ret tt s' /\ waited s s' /\ c_started (hw_cpus (sys_cpus s') c) = true /\
    starts (hist s'.1) = starts (hist s.1) ++ [(c_apicid (hw_cpus (sys_cpus s) c), esp)] /\
    (forall i, (i < hw_ncpu (sys_cpus s))%nat -> forall page, ap_of s' i <> ApGo page) /\
    forall i, i <> c -> c_started (hw_cpus (sys_cpus s') i) = c_started (hw_cpus (sys_cpus s) i).
Proof.
  intros Hs Hc Hp Hesp Hgo Hno. set (n := hw_ncpu (sys_cpus s)) in *.
  destruct (entryother_run s c esp Hs Hc Hp Hesp) as (s1 & E1 & W1 & St & Ss & Ac & Ot).
  assert (forall i, (i < n)%nat -> forall page, ap_of s1 i <> ApGo page) as Hno1.
  { intros i Hi page. destruct W1 as [[_ _ _ C1] _ _ L1]. unfold ap_of. rewrite L1, (ck_apicid _ _ (C1 i)), Ac, upd_case.
    case_decide as Hid; [done|]. apply Hno; [done|]. congruence. }
  exists s1. split_and!; try done. unfold other_cpus. step (sys_hw_gets hw_ncpu s). fold n.
  replace n with (c + S (n - S c))%nat at 1 by lia. rewrite seq_app, foreach_app, Nat.add_0_l. cbn [seq foreach].
  rewrite (bind_Ret _ _ s tt s).
  - rewrite (bind_Ret _ _ s tt s1) by (etrans; [apply ap_turn_run|by rewrite Hgo]). apply no_turns.
    intros i [Hi1 Hi2]%elem_of_seq page. apply Hno1. lia.
  - apply no_turns. intros i [Hi1 Hi2]%elem_of_seq page. apply Hno; lia.
Qed.

Lemma wait_started_run s c esp : (2 <= polls)%nat -> starting s -> (c < hw_ncpu (sys_cpus s))%nat -> prepared (sys_mem s) esp ->
  KERNBASE + 4 <= esp <= KERNBASE + 2 ^ 22 -> ap_of s c = ApGo 7 -> c_started (hw_cpus (sys_cpus s) c) = false ->
  (forall i, (i < hw_ncpu (sys_cpus s))%nat -> i <> c -> forall page, ap_of s i <> ApGo page) ->
  exists s', wait_started polls img size mpe pd polls c s = Ret tt s' /\ waited s s' /\ c_started (hw_cpus (sys_cpus s') c) = true /\
    starts (hist s'.1) = starts (hist s.1) ++ [(c_apicid (hw_cpus (sys_cpus s) c), esp)] /\
    (forall i, (i < hw_ncpu (sys_cpus s))%nat -> forall page, ap_of s' i <> ApGo page) /\
    forall i, i <> c -> c_started (hw_cpus (sys_cpus s') i) = c_started (hw_cpus (sys_cpus s) i).
Proof.
  intros Hpl Hs Hc Hp Hesp Hgo Hst Hno. destruct (other_cpus_run s c esp Hs Hc Hp Hesp Hgo Hno) as (s1 & E1 & W1 & St & R).
  exists s1. split; [|done]. assert (forall f, wait_started polls img size mpe pd (S (S f)) c s = Ret tt s1) as Hw.
  { intros f. remember (S f) as g eqn:Eg. cbn [wait_started]. rewrite (bind_Ret _ _ _ _ _ (sys_hw_gets _ s)), Hst. step E1.
    subst g. cbn [wait_started]. by rewrite (bind_Ret _ _ _ _ _ (sys_hw_gets _ s1)), St. }
  specialize (Hw (polls - 2)%nat). by replace (S (S (polls - 2))) with polls in Hw by lia.
Qed.
(** ** The loop of startothers *)

Definition with_mem (m : mem) (s : sys) : sys := ((set_k_vm (set_v_mem m (k_vm s.1.1)) s.1.1, s.1.2), s.2).
Definition with_free (p : Z) (s : sys) : sys := ((set_k_vm (set_v_freelist p (k_vm s.1.1)) s.1.1, s.1.2), s.2).

Lemma memop_run f s : onv (memop f) s = Ret tt (with_mem (f (sys_mem s)) s).
Proof. by destruct s as [[k f0] c]. Qed.

Lemma kalloc_boot s p l : starting s -> chain (sys_mem s) (v_freelist (k_vm s.1.1)) (p :: l) ->
  exists fl, onv kalloc s = Ret p (with_free fl s) /\ chain (sys_mem s) fl l.
Proof.
  intros [_ _ Hl] (Hp & Hg & Hc). exists (load32 (sys_mem s) p). split; [|done]. apply good_page_range in Hg.
  assert (kalloc (k_vm s.1.1) = Ret p (set_v_freelist (load32 (sys_mem s) p) (k_vm s.1.1))) as E.
  { unfold kalloc, km_acquire, km_release, bind, gets, when, modify. rewrite Hl. simpl. rewrite Hp, (proj2 (Z.eqb_neq p 0)) by (unfold KERNBASE, EXTMEM in *; lia).
    simpl. by rewrite Hl. }
  unfold onv, onw, onk, on_vm, zoom. simpl. by rewrite E.
Qed.

(** Ready to start more CPUs, with free pages [l] below 4 MB. *)
Record ready (s : sys) (l : list Z) : Prop := {
  rd_starting : starting s;
  rd_chain : chain (sys_mem s) (v_freelist (k_vm s.1.1)) l;
  rd_low : Forall (fun p => p + PGSIZE <= KERNBASE + 2 ^ 22) l;
  rd_code i : 0 <= i < size -> sys_mem s (entry_code + i) = sys_mem s (img + i);
  rd_ids c : (c < hw_ncpu (sys_cpus s))%nat -> 0 <= c_apicid (hw_cpus (sys_cpus s) c) < 256;
  rd_off c : (c < hw_ncpu (sys_cpus s))%nat -> forall page, ap_of s c <> ApGo page;
}.

(** The memory below the code changes only. *)
Definition below_code (m m' : mem) : Prop := forall b, entry_code <= b -> m' b = m b.

Lemma below_chain m m' a l : below_code m m' -> chain m a l -> chain m' a l.
Proof.
  intros Hm Hc. apply (chain_ext m); [|done]. intros v b Hv Hb. apply Hm. pose proof (chain_good _ _ _ _ Hc Hv) as Hg%good_page_range.
  change entry_code with 0x80007000. unfold KERNBASE, EXTMEM in *. lia.
Qed.
Lemma below_code_img m m' i : below_code m m' -> (forall i, 0 <= i < size -> m (entry_code + i) = m (img + i)) -> 0 <= i < size ->
  m' (entry_code + i) = m' (img + i).
Proof. intros Hm Hi Hr. rewrite !Hm; [by apply Hi|change entry_code with 0x80007000; unfold KERNBASE, EXTMEM in *; lia|lia]. Qed.

(** The memory that startothers and lapicstartap prepare. *)
Definition prep_mem (esp : Z) (m : mem) : mem :=
  let m := store32 m (entry_code - 4) esp in
  let m := store32 m (entry_code - 8) mpe in
  let m := store32 m (entry_code - 12) (V2P pd) in
  store16 (store16 m WARM_RESET 0) (WARM_RESET + 2) 0x700.

Lemma store16_ne m a v b : b < a \/ a + 2 <= b -> store16 m a v b = m b.
Proof. intros Hb. unfold store16. by rewrite !decide_False by lia. Qed.

Lemma prep_below esp m : below_code m (prep_mem esp m).
Proof.
  intros b. change entry_code with 0x80007000. intros Hb. unfold prep_mem. change WARM_RESET with 0x80000467. change entry_code with 0x80007000.
  rewrite !store16_ne, !store32_ne by lia. done.
Qed.

Lemma prep_prepared esp m : 0 <= esp < 2 ^ 32 -> (forall i, 0 <= i < size -> m (entry_code + i) = m (img + i)) ->
  prepared (prep_mem esp m) esp.
Proof.
  intros Hesp Hi. split; [intros i; apply below_code_img with m; [apply prep_below|done]|..]; unfold prep_mem;
    change WARM_RESET with 0x80000467; change entry_code with 0x80007000.
  all: rewrite (load32_ext (store16 (store16 _ _ _) _ _) (store32 (store32 (store32 m (0x80007000 - 4) esp) (0x80007000 - 8) mpe) (0x80007000 - 12) (V2P pd)))
    by (intros b Hb; rewrite !store16_ne by lia; done).
  - rewrite !load32_store32_ne, load32_store32_eq by lia. by apply u32_small.
  - rewrite load32_store32_ne, load32_store32_eq by lia. apply u32_small. unfold KERNBASE in *. lia.
  - rewrite load32_store32_eq. apply u32_small, u32_range.
Qed.

Lemma start_cpu_run s c pg l : (2 <= polls)%nat -> ready s (pg :: l) -> (c < hw_ncpu (sys_cpus s))%nat -> c <> hw_me (sys_cpus s) ->
  c_started (hw_cpus (sys_cpus s) c) = false ->
  exists s', start_cpu _ polls img size mpe pd c s = Ret tt s' /\ ready s' l /\ kept s s' /\ c_started (hw_cpus (sys_cpus s') c) = true /\
    starts (hist s'.1) = starts (hist s.1) ++ [(c_apicid (hw_cpus (sys_cpus s) c), pg + KSTACKSIZE)] /\
    forall i, i <> c -> c_started (hw_cpus (sys_cpus s') i) = c_started (hw_cpus (sys_cpus s) i).
Proof.
  intros Hpl [Hs Hc Hlow Hcode Hids Hoff] Hn Hne Hst. unfold start_cpu. step (mycpu_boot s Hs). rewrite bool_decide_eq_false_2 by done.
  destruct (kalloc_boot s pg l Hs Hc) as (fl & E1 & Hc1). step E1. rewrite !(bind_Ret _ _ _ _ _ (memop_run _ _)).
  set (s1 := with_free fl s) in *. set (s4 := with_mem _ (with_mem _ _)). rewrite (bind_Ret _ _ _ _ _ (sys_hw_gets _ s4)). step (get_lapic_run s4).
  apply Forall_cons in Hlow as [Hpg Hlow]. destruct Hc as (_ & Hg%good_page_range & _).
  change (ct_lapic s4.2) with (ct_lapic s.2). change (hw_cpus (sys_cpus s4)) with (hw_cpus (sys_cpus s)).
  destruct (lapicstartap_run (ct_lapic s.2) (c_apicid (hw_cpus (sys_cpus s) c)) s4.1 (Hids c Hn)) as (w5 & E5 & K5 & S5 & A5).
  rewrite (bind_Ret _ _ _ _ _ (onw_run _ _ _ _ E5)). clear E5.
  set (esp := u32 (pg + KSTACKSIZE)) in *. assert (esp = pg + KSTACKSIZE) as Eesp by (apply u32_small; unfold KSTACKSIZE, KERNBASE, EXTMEM, PGSIZE in *; lia).
  change s4.2 with s.2. set (s5 := (w5, s.2) : sys). assert (sys_mem s5 = prep_mem esp (sys_mem s)) as M5 by (unfold sys_mem; simpl; by rewrite K5).
  assert (sys_cpus s5 = sys_cpus s) as U5 by (unfold sys_cpus; simpl; by rewrite K5).
  assert (kept s s5) as T5 by (split; rewrite ?U5; [done|done|simpl; by rewrite K5|done]).
  destruct (wait_started_run s5 c esp Hpl) as (s6 & E6 & [T6 M6 F6 L6] & Hst6 & S6 & A6 & O6); rewrite ?U5; try done.
  - by eapply kept_starting.
  - rewrite M5. apply prep_prepared; [|done]. rewrite Eesp. unfold KSTACKSIZE, KERNBASE, EXTMEM, PGSIZE in *. lia.
  - rewrite Eesp. unfold KSTACKSIZE, KERNBASE, EXTMEM, PGSIZE in *. lia.
  - unfold ap_of. rewrite U5. change (hist s5.1) with (hist w5). change (ct_lapic s5.2) with (ct_lapic s.2). by rewrite A5, upd_eq.
  - intros i Hi Hic page. unfold ap_of. rewrite U5. change (hist s5.1) with (hist w5). change (ct_lapic s5.2) with (ct_lapic s.2).
    rewrite A5, upd_ne by (by apply not_eq_sym, ids_differ). by apply Hoff.
  - rewrite U5 in *. exists s6. assert (kept s s6) as T by by etrans. split_and!; [done| |done|done| |done].
    + split; [by eapply kept_starting| |done|..].
      * rewrite M6, F6, M5. simpl. rewrite K5. simpl. eapply below_chain; [apply prep_below|done].
      * rewrite M6, M5. intros i Hi. by apply below_code_img with (sys_mem s); [apply prep_below|..].
      * intros i. rewrite (kp_ncpu _ _ T), (ck_apicid _ _ (kp_cpu _ _ T i)). apply Hids.
      * intros i. rewrite (kp_ncpu _ _ T). apply A6.
    + rewrite S6, <- Eesp. f_equal. exact S5.
Qed.
(** The CPUs of [cs] other than [me]. *)
Definition others (me : nat) (cs : list nat) : list nat := filter (fun c => c <> me) cs.

Lemma start_cpus_run cs : forall s l, (2 <= polls)%nat -> ready s l -> let me := hw_me (sys_cpus s) in NoDup cs ->
  Forall (fun c => (c < hw_ncpu (sys_cpus s))%nat) cs -> (length (others me cs) <= length l)%nat ->
  (forall c, c ∈ others me cs -> c_started (hw_cpus (sys_cpus s) c) = false) ->
  exists s', foreach cs (start_cpu _ polls img size mpe pd) s = Ret tt s' /\ kept s s' /\
    (forall c, c ∈ others me cs -> c_started (hw_cpus (sys_cpus s') c) = true) /\
    starts (hist s'.1) = starts (hist s.1) ++
      zip ((fun c => c_apicid (hw_cpus (sys_cpus s) c)) <$> others me cs) ((fun p => p + KSTACKSIZE) <$> l).
Proof.
  induction cs as [|c cs IH]; intros s l Hpl Hr me Hnd Hcs Hlen Hun.
  { exists s. split_and!; [done|done|intros c []%not_elem_of_nil|by rewrite app_nil_r]. }
  apply NoDup_cons in Hnd as [Hc Hnd]. apply Forall_cons in Hcs as [Hn Hcs]. cbn [foreach]. unfold others in *. rewrite filter_cons in *.
  destruct (decide (c <> me)) as [Hne|He].
  - destruct l as [|pg l]; [simpl in Hlen; lia|].
    destruct (start_cpu_run s c pg l Hpl Hr Hn Hne) as (s1 & E1 & Hr1 & T1 & Hst & S1 & O1); [apply Hun; left|]. step E1.
    pose proof (kp_me _ _ T1) as Eme. destruct (IH s1 l Hpl Hr1) as (s2 & E2 & T2 & Hall & S2); try done.
    + by rewrite (kp_ncpu _ _ T1).
    + rewrite Eme. simpl in Hlen. fold me. lia.
    + rewrite Eme. fold me. intros c' Hc'. rewrite O1; [apply Hun; by right|]. intros ->. apply list_elem_of_filter in Hc' as [_ Hc']. done.
    + rewrite Eme in *. fold me in Hall, S2. exists s2. split_and!; [done|by etrans|..].
      * intros c' [->|Hc']%elem_of_cons; [by apply (ck_started _ _ (kp_cpu _ _ T2 c))|by apply Hall].
      * rewrite S2, S1, <- app_assoc. simpl. do 3 f_equal. apply list_fmap_ext. intros i x _. apply (ck_apicid _ _ (kp_cpu _ _ T1 x)).
  - assert (c = me) as -> by (destruct (decide (c = me)); [done|by destruct He]).
    assert (start_cpu _ polls img size mpe pd me s = Ret tt s) as E1.
    { unfold start_cpu. step (mycpu_boot s (rd_starting _ _ Hr)). by rewrite bool_decide_eq_true_2. }
    step E1. by apply IH.
Qed.

Lemma startothers_run s l : (2 <= polls)%nat -> starting s -> chain (sys_mem s) (v_freelist (k_vm s.1.1)) l ->
  Forall (fun p => p + PGSIZE <= KERNBASE + 2 ^ 22) l -> let me := hw_me (sys_cpus s) in let n := hw_ncpu (sys_cpus s) in
  (forall c, (c < n)%nat -> 0 <= c_apicid (hw_cpus (sys_cpus s) c) < 256) ->
  (forall c, (c < n)%nat -> forall page, ap_of s c <> ApGo page) ->
  (length (others me (seq 0 n)) <= length l)%nat -> (forall c, c ∈ others me (seq 0 n) -> c_started (hw_cpus (sys_cpus s) c) = false) ->
  exists s', startothers _ polls img size mpe pd s = Ret tt s' /\ kept s s' /\
    (forall c, c ∈ others me (seq 0 n) -> c_started (hw_cpus (sys_cpus s') c) = true) /\
    starts (hist s'.1) = starts (hist s.1) ++
      zip ((fun c => c_apicid (hw_cpus (sys_cpus s) c)) <$> others me (seq 0 n)) ((fun p => p + KSTACKSIZE) <$> l).
Proof.
  intros Hpl Hs Hc Hlow me n Hids Hoff Hlen Hun. unfold startothers. rewrite (bind_Ret _ _ _ _ _ (memop_run _ s)).
  set (s1 := with_mem (memmove entry_code img size (sys_mem s)) s). step (sys_hw_gets hw_ncpu s1).
  destruct (memmove_correct entry_code img size (sys_mem s)) as [Hmv Hfr]; [lia|].
  assert (entry_code = 0x80007000) as Ee by done. assert (kept s s1) as T1 by by split.
  destruct (start_cpus_run (seq 0 n) s1 l Hpl) as (s2 & E2 & T2 & Hall & S2); try done.
  - split; [by eapply kept_starting| |done| |done|done].
    + apply (chain_ext (sys_mem s)); [|done]. intros v b Hv Hb. apply Hfr. pose proof (chain_good _ _ _ _ Hc Hv) as Hg%good_page_range.
      unfold KERNBASE, EXTMEM in *. lia.
    + intros i Hi. change (sys_mem s1) with (memmove entry_code img size (sys_mem s)). rewrite Hmv, Hfr by (unfold KERNBASE, EXTMEM in *; lia). done.
  - apply NoDup_seq.
  - apply Forall_forall. intros c [_ Hc']%elem_of_seq. done.
  - exists s2. split_and!; [done|by etrans|done|done].
Qed.
End start.

(** C24. startothers returns and brings up every CPU of the table, through the local APIC: each CPU other than the boot CPU
    gets INIT and STARTUP, executes entryother.S exactly once, in the order of the table and on a stack of its own, the next free
    page, runs mpenter and sets started; no other CPU starts.  The APIC ids, the nesting of pushcli and the interrupt flags are as
    before, and the boot CPU is the one that goes on.  It is enough that as many free pages below 4 MB are left as CPUs have to be
    started, that the APIC ids are bytes, that no CPU has a message pending or has started before, and that the image of
    entryother.S fits below 1 MB. *)
Theorem startothers_starts_all `{Symbols} `{PortsOk} `{Mmio} (polls : nat) `{!ApicOk polls} img size mpe pd s l :
  (2 <= polls)%nat -> 0 <= size /\ entry_code + size <= KERNBASE + EXTMEM -> KERNBASE + EXTMEM <= img ->
  KERNBASE <= mpe < KERNBASE + 2 ^ 22 ->
  starting s -> free_pages (k_vm s.1.1) l -> Forall (fun p => p + PGSIZE <= KERNBASE + 2 ^ 22) l ->
  let me := hw_me (sys_cpus s) in let n := hw_ncpu (sys_cpus s) in
  (forall c, (c < n)%nat -> 0 <= c_apicid (hw_cpus (sys_cpus s) c) < 256) ->
  (forall c, (c < n)%nat -> forall page, ap_of s c <> ApGo page) ->
  (length (others me (seq 0 n)) <= length l)%nat -> (forall c, c ∈ others me (seq 0 n) -> c_started (hw_cpus (sys_cpus s) c) = false) ->
  exists s', startothers _ polls img size mpe pd s = Ret tt s' /\ kept s s' /\
    (forall c, c ∈ others me (seq 0 n) -> c_started (hw_cpus (sys_cpus s') c) = true) /\
    starts (hist s'.1) = starts (hist s.1) ++
      zip ((fun c => c_apicid (hw_cpus (sys_cpus s) c)) <$> others me (seq 0 n)) ((fun p => p + KSTACKSIZE) <$> l).
Proof.
  intros Hpl Hsz Him Hm Hs [Hc Hnd] Hlow me n Hids Hoff Hlen Hun.
  destruct (startothers_run polls img size mpe pd Hsz Him Hm s l Hpl Hs Hc Hlow Hids Hoff Hlen Hun) as (s' & E & K & Hst & Hss).
  by exists s'.
Qed.
