(* ===== verification/Witness.v ===== *)
(** * Concrete instances of the theorems

    A small machine with two CPUs, a process table and a process with one mapped
    page; each lemma applies one theorem of the development to them. *)
From S2P Require Import Prelude Machine ProcQueue StringC Spinlock Kalloc Vm VmInv VmSpec VmFrame Proc RunQueue ProcRun Sched SchedSys UserMem Trap ProcSpec FsState Pipe.

(** ** The machine *)

Definition ex_cpu (i : nat) : cpu := set_c_apicid (Z.of_nat i) cpu0.
Definition ex_hw : hw := mkHw ex_cpu 2 0 (fun _ => lock0).

Lemma ex_hw_wf : hw_wf ex_hw.
Proof. split; simpl; intros; try lia. Qed.

#[local] Program Instance ex_symbols : Symbols := {
  sym_data := KERNBASE + 0x102000;
  sym_end := KERNBASE + 0x110000;
  sym_forkret := KERNBASE + 0x101000;
  sym_trapret := KERNBASE + 0x101100;
}.
Next Obligation. by vm_compute. Qed.
Next Obligation. done. Qed.
Next Obligation. by vm_compute. Qed.

(** The state a call ends in. *)
Definition after {S A} (d : S) (o : outcome S A) : S :=
  match o with Ret _ s => s | Swtch s => s | _ => d end.

Definition returns {S A} (o : outcome S A) : option A := match o with Ret a _ => Some a | _ => None end.
Lemma after_Ret {S A} (d : S) (o : outcome S A) a : returns o = Some a -> o = Ret a (after d o).
Proof. destruct o; naive_solver. Qed.
Definition leaves_cpu {S A} (o : outcome S A) : bool := match o with Swtch _ => true | _ => false end.
Lemma after_Swtch {S A} (d : S) (o : outcome S A) : leaves_cpu o = true -> o = Swtch (after d o).
Proof. by destruct o. Qed.

(** ** Queues *)

(** Process 1 is alone in the queue of normal priority; process 2 sleeps. *)
Definition ex_proc (i : nat) : proc :=
  if decide (i = 1%nat) then
    mkProc 0 (KERNBASE + 0x200000) (KERNBASE + 0x300000) RUNNABLE 2 None 0 tf0 0 ctx0 None false
      (fun _ => None) None [] 0 NORM_PRIO (Some 1%nat) (Some 1%nat)
  else if decide (i = 2%nat) then
    mkProc 0 (KERNBASE + 0x201000) (KERNBASE + 0x301000) SLEEPING 3 None 0 tf0 0 ctx0 (Some ChTicks) false
      (fun _ => None) None [] 0 NORM_PRIO None None
  else proc0.
Definition ex_pt : ptable := mkPt ex_proc (fun pr => if decide (pr = NORM_PRIO) then Some 1%nat else None).
Definition ex_qs (pr : Z) : list nat := if decide (pr = NORM_PRIO) then [1%nat] else [].

Lemma ex_queued : queued ex_pt ex_qs.
Proof.
  unfold ex_qs. split.
  - intros pr. simpl. case_decide; [|done]. split_and!; [done|apply NoDup_singleton|]. by vm_compute.
  - intros pr i. case_decide; [|by intros ?%not_elem_of_nil]. intros ->%list_elem_of_singleton. by subst.
  - intros i. simpl. unfold ex_proc. repeat case_decide; subst; try done. intros Hn. exfalso. apply Hn. by left.
Qed.

Lemma ex_inv : pt_inv ex_pt ex_qs.
Proof.
  split; [apply ex_queued|..]; unfold ex_qs; simpl; unfold ex_proc.
  - intros pr i. case_decide; [|by intros ?%not_elem_of_nil]. intros ->%list_elem_of_singleton.
    split; [|done]. apply elem_of_seq. unfold NPROC. lia.
  - intros i Hi. repeat case_decide; subst; try done. intros _. by left.
  - intros i Hi. unfold prio_ok. repeat case_decide; auto.
Qed.

Lemma ex_good : good ex_pt.
Proof.
  split; [by eexists; apply ex_inv|]. intros i _. unfold live. simpl. unfold ex_proc.
  repeat case_decide; intros Hl; simpl in *; [done|done|]. exfalso. naive_solver.
Qed.

Definition ex_vm : vmst := mkVm ex_hw (fun _ => 0) true 0 0.
Definition ex_k : kst := mkK ex_vm ex_pt 4 None 0 true.

Lemma queue_refines_fifo_witness :
  exists t', foreach [Enq 2; Deq 1; Enq 1] run_op ex_pt = Ret tt t' /\
    queued t' (upd ex_qs NORM_PRIO [2%nat; 1%nat]) /\ same_but_links ex_pt t'.
Proof.
  apply (queue_refines_fifo ex_pt ex_qs); [apply ex_queued|].
  transitivity (Some (upd (upd (upd ex_qs 1 [1%nat; 2%nat]) 1 [2%nat]) 1 [2%nat; 1%nat])); [reflexivity|].
  by rewrite !upd_upd.
Defined.

Lemma queue_misuse_panics_witness :
  (exists msg, enqueue 1 ex_pt = Panic msg) /\ (exists msg, dequeue 2 ex_pt = Panic msg).
Proof.
  split.
  - apply (queue_misuse_panics ex_pt ex_qs 1 ex_queued). vm_compute. by left.
  - apply (queue_misuse_panics ex_pt ex_qs 2 ex_queued). vm_compute. set_solver.
Defined.

(** ** Strings *)

(** The string "abc" at address 100, and "abd" at 200. *)
Definition ex_str (a : Z) : Z :=
  if a =? 100 then 97 else if a =? 101 then 98 else if a =? 102 then 99 else
  if a =? 200 then 97 else if a =? 201 then 98 else if a =? 202 then 100 else 0.

Lemma memmove_correct_witness :
  memmove 101 100 3 ex_str 103 = 99 /\ memmove 101 100 3 ex_str 100 = 97.
Proof.
  destruct (memmove_correct 101 100 3 ex_str ltac:(lia)) as [H1 H2]. split.
  - change 103 with (101 + 2). rewrite H1 by lia. reflexivity.
  - rewrite H2 by lia. reflexivity.
Defined.

Lemma memset_correct_witness : memset 100 7 8 ex_str 102 = stosb 100 7 8 ex_str 102.
Proof. apply (memset_correct 100 7 8 ex_str 102). lia. Defined.

Lemma strncmp_zero_iff_witness :
  (strncmp ex_str 100 200 2 = 0 <-> [97; 98] = [97; 98]) /\ (strncmp ex_str 100 200 3 = 0 <-> [97; 98; 99] = [97; 98; 100]).
Proof.
  assert (cstr ex_str 100 [97; 98; 99]) as H1 by (vm_compute; naive_solver).
  assert (cstr ex_str 200 [97; 98; 100]) as H2 by (vm_compute; naive_solver).
  split.
  - apply (strncmp_zero_iff ex_str 100 200 2 _ _ H1 H2). lia.
  - apply (strncmp_zero_iff ex_str 100 200 3 _ _ H1 H2). lia.
Defined.

Lemma strlen_correct_witness : strlen 4 ex_str 100 = Some 3.
Proof. apply (strlen_correct ex_str 100 [97; 98; 99]). vm_compute. naive_solver. Defined.

Lemma safestrcpy_correct_witness :
  cstr (safestrcpy 300 100 3 ex_str) 300 [97; 98] /\
  forall b, ~ (300 <= b < 303) -> safestrcpy 300 100 3 ex_str b = ex_str b.
Proof.
  apply (safestrcpy_correct 300 100 3 ex_str [97; 98; 99]); [lia| |simpl; lia]. vm_compute. naive_solver.
Defined.

(** ** Locks *)

Lemma pushcli_popcli_nest_witness : exists h1,
  times 3 pushcli ex_hw = Ret tt h1 /\ c_if (my h1) = false /\
  times 3 popcli h1 = Ret tt (set_my (settled (my ex_hw)) ex_hw).
Proof. apply (pushcli_popcli_nest 2 ex_hw), ex_hw_wf. Defined.

(** CPU 1 takes the lock of the process table, CPU 0 that of the allocator. *)
Definition ex_mp : mp := mkMp ex_hw (fun _ => []).
Definition ex_mp1 : mp :=
  mkMp (after ex_hw (acquire Lptable (Spinlock.on_cpu 1 ex_hw))) (upd (mp_in ex_mp) 1%nat [Lptable]).
Definition ex_mp2 : mp :=
  mkMp (after ex_hw (acquire Lkmem (Spinlock.on_cpu 0 (mp_hw ex_mp1)))) (upd (mp_in ex_mp1) 0%nat [Lkmem]).

Lemma ex_mp_steps : rtc mp_step ex_mp ex_mp2.
Proof.
  assert (mp_step ex_mp ex_mp1) as H1 by (apply (mp_acquire 1); [simpl; lia|by apply after_Ret]).
  assert (mp_step ex_mp1 ex_mp2) as H2 by (apply (mp_acquire 0); [simpl; lia|by apply after_Ret]).
  eapply rtc_l; [exact H1|]. eapply rtc_l; [exact H2|]. apply rtc_refl.
Qed.

Lemma spinlock_mutual_exclusion_witness :
  hw_locks (mp_hw ex_mp2) Lptable = mkSpinlock true (Some 1%nat) /\
  c_if (hw_cpus (mp_hw ex_mp2) 1%nat) = false /\ (Lptable ∈ mp_in ex_mp2 0%nat -> 1%nat = 0%nat).
Proof.
  destruct (spinlock_mutual_exclusion ex_mp ex_mp2 1 0 Lptable) as (H1 & H2 & H3); try done.
  - split; [apply ex_hw_wf|done].
  - apply ex_mp_steps.
  - simpl. lia.
  - simpl. lia.
  - vm_compute. by left.
Defined.

(** ** The allocator *)

(** Two free pages, a page directory with one table and one user page. *)
Definition PA : Z := KERNBASE + 0x300000.
Definition PB : Z := KERNBASE + 0x301000.
Definition PD : Z := KERNBASE + 0x302000.
Definition PT : Z := KERNBASE + 0x303000.
Definition PU : Z := KERNBASE + 0x304000.
Definition ex_mem : mem :=
  store32 (store32 (store32 (fun _ => 0) PA PB) PD (V2P PT + 7)) PT (V2P PU + 7).
Definition ex_vs : vmst := mkVm ex_hw ex_mem true PA 0.

Ltac addr := unfold PA, PB, PD, PT, PU, KERNBASE, PHYSTOP, PGSIZE in *; simpl; lia.

Lemma ex_ready h : hw_wf h -> hw_locks h Lkmem = lock0 -> km_ready (mkVm h ex_mem true PA 0).
Proof. by split. Qed.

Lemma ex_good_pages : Forall good_page [PA; PB; PD; PT; PU].
Proof. repeat constructor; vm_compute; done. Qed.

Lemma ex_free h : free_pages (mkVm h ex_mem true PA 0) [PA; PB].
Proof.
  split.
  - vm_compute. naive_solver.
  - repeat constructor; vm_compute; set_solver.
Qed.

Lemma freerange_frees_all_witness :
  let s := mkVm ex_hw (fun _ => 0) true 0 0 in
  exists s', freerange (PA + 1) (PA + 3 * PGSIZE) s = Ret tt s' /\
    free_pages s' [PA + 2 * PGSIZE; PA + PGSIZE] /\ v_mem s' PA = 0.
Proof.
  intros s. destruct (freerange_frees_all s [] (PA + 1) (PA + 3 * PGSIZE)) as (s' & E & Hf & Hm);
    [by split; [apply ex_hw_wf|]|by split; [|constructor]|by vm_compute..|by intros v ?%not_elem_of_nil|].
  exists s'. split_and!; [exact E|exact Hf|]. apply Hm. vm_compute. auto.
Defined.

(** The first page is handed out, then the second. *)
Definition ex_vs1 : vmst := after ex_vs (kalloc ex_vs).

Lemma ex_alloc1 : rtc km_step (ex_vs, []) (ex_vs1, [PA]).
Proof. apply rtc_once, km_alloc; [by apply after_Ret|done]. Qed.

Lemma kalloc_no_double_allocation_witness :
  exists s', kalloc ex_vs1 = Ret PB s' /\ PB ∉ [PA].
Proof.
  exists (after ex_vs (kalloc ex_vs1)).
  assert (kalloc ex_vs1 = Ret PB (after ex_vs (kalloc ex_vs1))) as E by (by apply after_Ret).
  split; [exact E|].
  destruct (kalloc_no_double_allocation ex_vs [PA; PB] ex_vs1 [PA] PB (after ex_vs (kalloc ex_vs1))) as [Hv _].
  - apply ex_ready; [apply ex_hw_wf|done].
  - apply ex_free.
  - repeat constructor; by vm_compute.
  - apply ex_alloc1.
  - exact E.
  - apply Hv. discriminate.
Defined.

(** ** Virtual memory *)

Definition ex_own : owner := fun v =>
  if decide (v = PD) then Some (PD, RDir) else
  if decide (v = PT) then Some (PD, RTab 0) else
  if decide (v = PU) then Some (PD, RUser 0) else None.

Lemma ex_dir i : 0 <= i < 1024 -> i <> 0 -> load32 ex_mem (PD + 4 * i) = 0.
Proof. intros Hi Hn. unfold ex_mem. rewrite !load32_store32_ne by addr. done. Qed.
Lemma ex_tab i : 0 <= i < 1024 -> i <> 0 -> load32 ex_mem (PT + 4 * i) = 0.
Proof. intros Hi Hn. unfold ex_mem. rewrite !load32_store32_ne by addr. done. Qed.

Lemma ex_present i : 0 <= i < 1024 -> present ex_mem PD i = true -> i = 0.
Proof.
  intros Hi Hp. destruct (decide (i = 0)) as [|Hn]; [done|].
  unfold present in Hp. rewrite ex_dir in Hp by done. done.
Qed.

Lemma ex_pm n e : 0 <= n < upages -> pm ex_mem PD n = Some e -> n = 0 /\ e = V2P PU + 7.
Proof.
  intros Hn. rewrite upages_eq in Hn. unfold pm.
  destruct (present ex_mem PD (n / 1024)) eqn:Hp; [|done].
  apply ex_present in Hp; [|Z.div_mod_to_equations; lia].
  unfold slot. rewrite Hp. replace (tab ex_mem PD 0) with PT by (by vm_compute).
  replace (n mod 1024) with n by (Z.div_mod_to_equations; lia).
  destruct (decide (n = 0)) as [->|Hz].
  - intros E. split; [done|]. revert E. vm_compute. congruence.
  - rewrite ex_tab by (Z.div_mod_to_equations; lia). done.
Qed.

Lemma ex_space : space ex_mem ex_own PD.
Proof.
  pose proof ex_good_pages as Hg. rewrite !Forall_cons in Hg. destruct Hg as (_ & _ & HD & HT & HU & _).
  split.
  - done.
  - intros i Hi Hp. apply ex_present in Hp; [|done]. subst.
    replace (tab ex_mem PD 0) with PT by (by vm_compute). done.
  - intros n e Hn Hp. apply ex_pm in Hp as [-> ->]; [|done].
    replace (P2V (PTE_ADDR (V2P PU + 7))) with PU by (by vm_compute). done.
Qed.

Lemma ex_vm_inv h : hw_wf h -> hw_locks h Lkmem = lock0 -> vm_inv (mkVm h ex_mem true PA 0) [PA; PB] ex_own [PD].
Proof.
  intros Hwf Hl. split.
  - by apply ex_ready.
  - apply ex_free.
  - intros v. rewrite !elem_of_cons. unfold ex_own. intros [->|[->|[]%not_elem_of_nil]]; by vm_compute.
  - intros d ->%list_elem_of_singleton. apply ex_space.
Qed.

Lemma deallocuvm_correct_witness : exists s' l' own',
  deallocuvm PD 8192 0 ex_vs = Ret 0 s' /\ vm_inv s' l' own' [PD] /\ PU ∈ l' /\ ubyte (v_mem s') PD 0 = None.
Proof.
  destruct (deallocuvm_correct ex_vs [PA; PB] ex_own [PD] PD 8192 0) as (s' & l' & own' & E & Hi & Hl & Hv).
  - apply ex_vm_inv; [apply ex_hw_wf|done].
  - by left.
  - lia.
  - by vm_compute.
  - exists s', l', own'. split_and!; [exact E|exact Hi|clear E..].
    + apply Hl. right. exists 0, (V2P PU + 7). split; [by vm_compute|]. split; vm_compute; reflexivity.
    + specialize (Hv PD 0 ltac:(by left) ltac:(by vm_compute)). rewrite decide_True in Hv by (by vm_compute). done.
Defined.

Lemma allocuvm_correct_witness :
  (exists s' l' own', allocuvm PD 4096 8192 ex_vs = Ret 8192 s' /\ vm_inv s' l' own' [PD]) \/
  (exists s' l' own', allocuvm PD 4096 8192 ex_vs = Ret 0 s' /\ vm_inv s' l' own' [PD]).
Proof.
  destruct (allocuvm_correct ex_vs [PA; PB] ex_own [PD] PD 4096 8192) as [H|H].
  - apply ex_vm_inv; [apply ex_hw_wf|done].
  - by left.
  - lia.
  - by vm_compute.
  - intros va Hva. change (PGROUNDUP 4096) with 4096 in Hva. change (PGROUNDUP 8192) with 8192 in Hva.
    unfold ubyte. replace (va / 4096) with 1 by (Z.div_mod_to_equations; lia). by vm_compute.
  - left. destruct H as (s' & l' & own' & E & Hi & _). exists s', l', own'. exact (conj E Hi).
  - right. destruct H as (s' & l' & own' & E & Hi & _). exists s', l', own'. exact (conj E Hi).
Defined.

(** ** The multiprocessor *)

Definition ex_boot : kst := mkK ex_vs ptable0 1 None 0 true.
Definition ex_mode (c : nat) : cmode := MSched.
Definition ex_cont (p : nat) : cont := CNew.
Definition ex_ts (c : nat) : Z := KERNBASE.
Definition ex_step := sys_step ex_ts ustore32.

(** Boot; CPU 0 allocates a process, sets it up and publishes it; CPU 1 runs it. *)
Definition ex_k1 : kst := after ex_boot (alloc_claim (at_cpu 0 ex_boot)).
Definition ex_k2 : kst :=
  set_k_pt (put_proc (k_pt ex_k1) 0 (set_p_kstack PU (set_p_pgdir PD (pt_proc (k_pt ex_k1) 0%nat)))) ex_k1.
Definition ex_k3 : kst := after ex_boot (init_publish 0 (at_cpu 0 ex_k2)).
Definition ex_k4 : kst := after ex_boot (scheduler_turn ex_ts 1 (at_cpu 1 ex_k3)).
Definition ex_y0 : sys := mkSys ex_boot ex_mode ex_cont.
Definition ex_y3 : sys := mkSys ex_k3 ex_mode (upd ex_cont 0%nat CNew).
Definition ex_y4 : sys := mkSys ex_k4 (upd ex_mode 1%nat MEnter) (upd ex_cont 0%nat CNew).

Lemma ex_sys_boot : sys_boot ex_y0.
Proof. split; [apply ex_hw_wf|]. split; [done|]. split; [done|]. by intros c Hc. Qed.

Definition cpu_ok (c : cpu) : bool := (0 <=? c_ncli c) && ((c_ncli c <=? 0) || negb (c_if c)).
Definition two_cpus (h : hw) : bool :=
  bool_decide (hw_ncpu h = 2%nat) && bool_decide (hw_me h < 2)%nat &&
  negb (c_apicid (hw_cpus h 0%nat) =? c_apicid (hw_cpus h 1%nat)) && cpu_ok (hw_cpus h 0%nat) && cpu_ok (hw_cpus h 1%nat).
Lemma two_cpus_wf h : two_cpus h = true -> hw_wf h.
Proof.
  unfold two_cpus, cpu_ok. rewrite !andb_true_iff, !orb_true_iff, !bool_decide_eq_true, !negb_true_iff, !Z.leb_le, Z.eqb_neq.
  intros ((((Hn & Hm) & Ha) & H0) & H1). split; rewrite ?Hn; [done| | |].
  - intros [|[|i]] [|[|j]] Hi Hj E; try lia; congruence.
  - intros [|[|i]] Hi; try lia; naive_solver.
  - intros [|[|i]] Hi Hp; try lia; naive_solver lia.
Qed.

Lemma other_setup k p a b : hw_wf (k_hw k) -> hw_me (k_hw k) = 0%nat -> a <> 0 -> b <> 0 ->
  other 0 MSched k (set_k_pt (put_proc (k_pt k) p (set_p_kstack a (set_p_pgdir b (pt_proc (k_pt k) p)))) k).
Proof.
  intros Hwf Hme Ha Hb. split; change (k_hw (set_k_pt ?t k)) with (k_hw k); try done.
  - by unfold my; rewrite Hme.
  - intros _. by unfold my; rewrite Hme.
  - intros i. simpl. rewrite upd_case. by case_decide; subst.
  - intros Hm i Hi Hl. simpl in *. rewrite upd_case in *. case_decide; [done|by apply Hm].
Qed.

Lemma ex_steps3 : rtc ex_step ex_y0 ex_y3.
Proof.
  assert (ex_step ex_y0 (mkSys ex_k1 ex_mode ex_cont)) as H1.
  { apply (S_alloc _ _ 0 (Some 0%nat)); [simpl; lia|done|by apply after_Ret]. }
  assert (ex_step (mkSys ex_k1 ex_mode ex_cont) (mkSys ex_k2 ex_mode ex_cont)) as H2.
  { apply (S_other _ _ 0); [by vm_compute; lia|done|]. apply other_setup; [apply two_cpus_wf|..]; by vm_compute. }
  assert (ex_step (mkSys ex_k2 ex_mode ex_cont) ex_y3) as H3.
  { apply (S_init _ _ 0 0); [by vm_compute; lia|done|by left|by vm_compute..|by apply after_Ret]. }
  exact (rtc_l _ _ _ _ H1 (rtc_l _ _ _ _ H2 (rtc_once _ _ H3))).
Qed.

Lemma ex_steps4 : rtc ex_step ex_y0 ex_y4.
Proof.
  assert (ex_step ex_y3 ex_y4) as H by (apply (S_pick _ _ 1); [by vm_compute; lia|done|by apply after_Swtch]).
  exact (rtc_r _ _ _ ex_steps3 H).
Qed.

Lemma queues_hold_runnable_witness : exists qs, queued (k_pt (y_k ex_y3)) qs /\ 0%nat ∈ qs NORM_PRIO.
Proof.
  destruct (queues_hold_runnable ex_ts ustore32 ustore32_frame ex_y0 ex_y3 ex_sys_boot ex_steps3)
    as (qs & Hq & _ & Hin & _).
  exists qs. split; [exact Hq|]. apply Hin; [apply elem_of_seq; unfold NPROC; lia|by vm_compute].
Defined.

Lemma process_runs_on_one_cpu_witness :
  (exists c, running_on ex_y4 c 0) /\ forall c, running_on ex_y4 c 0 -> c = 1%nat.
Proof.
  destruct (process_runs_on_one_cpu ex_ts ustore32 ustore32_frame ex_y0 ex_y4 0 ex_sys_boot ex_steps4)
    as [H1 H2]; [apply elem_of_seq; unfold NPROC; lia|].
  assert (running_on ex_y4 1 0) as Hr by (split; [by vm_compute; lia|by vm_compute]).
  split; [by exists 1%nat|]. intros c Hc. by apply H2.
Defined.

Lemma scheduler_picks_by_priority_witness : exists p k',
  scheduler_turn ex_ts 1 (at_cpu 1 (y_k ex_y3)) = Swtch k' /\ p_state (pt_proc (k_pt k') p) = RUNNING.
Proof.
  destruct (scheduler_picks_by_priority ex_ts ustore32 ustore32_frame ex_y0 ex_y3 1 ex_sys_boot ex_steps3)
    as [(k' & _ & H)|(p & k' & E & _ & _ & _ & _ & Hr)].
  - by vm_compute; lia.
  - done.
  - by vm_compute.
  - exfalso. apply (H 0%nat); [apply elem_of_seq; unfold NPROC; lia|by vm_compute].
  - exists p, k'. exact (conj E Hr).
Defined.

(** ** A running process with 8192 bytes, the first page mapped *)

Definition ex_uhw : hw :=
  set_hw_cpus (upd ex_cpu 0%nat (set_c_proc (Some 0%nat) (set_c_cr3 (V2P PD) (ex_cpu 0)))) ex_hw.
Definition ex_uproc : proc := set_p_state RUNNING (set_p_pgdir PD (set_p_sz 8192 proc0)).
Definition ex_u : kst := mkK (mkVm ex_uhw ex_mem true PA 0) (mkPt (upd (fun _ => proc0) 0%nat ex_uproc) (fun _ => None)) 2 None 0 true.

Lemma ex_uhw_wf : hw_wf ex_uhw.
Proof. by apply two_cpus_wf. Qed.

Lemma ex_user : user_ok ex_u [PA; PB] ex_own [PD] 0 PD 8192.
Proof.
  split; try done; [|by left].
  apply ex_vm_inv; [apply ex_uhw_wf|done].
Qed.

Lemma pgflt_lazy_allocation_witness : exists s' l' own',
  pgflt 5000 6 ex_u = Ret tt s' /\ user_ok s' l' own' [PD] 0 PD 8192.
Proof.
  destruct (pgflt_lazy_allocation ex_u [PA; PB] ex_own [PD] 0 PD 8192 5000 6) as (s' & l' & own' & E & Hu & _).
  - apply ex_user.
  - lia.
  - by vm_compute.
  - exists s', l', own'. exact (conj E Hu).
Defined.

Lemma uload8_correct_witness : uload8 3 ex_u = Ret 0 ex_u.
Proof.
  pose proof (uload8_correct ex_u [PA; PB] ex_own [PD] 0 PD 8192 3 ex_user eq_refl ltac:(lia)) as H.
  replace (ubyte (v_mem (k_vm ex_u)) PD 3) with (Some 0) in H by (by vm_compute). exact H.
Defined.

(** The same process when no page is free. *)
Definition ex_full : kst := set_k_vm (set_v_freelist 0 (k_vm ex_u)) ex_u.

Lemma ex_full_user : user_ok ex_full [] ex_own [PD] 0 PD 8192.
Proof.
  destruct ex_user as [[Hr Hf Hu Hs] Hc Hd Hi Hz Ht]. split; try done. split.
  - by split; destruct Hr.
  - split; [done|constructor].
  - by intros v ?%not_elem_of_nil.
  - exact Hs.
Qed.

Lemma trap_code_roundtrip_witness : WEXITTRAP (trap_status (set_tf_trapno 14 tf0)) = 14.
Proof. apply (trap_code_roundtrip (set_tf_trapno 14 tf0)). simpl. lia. Defined.

Lemma sbrk_grows_lazily_witness : exists s', sbrk_body 100000 ex_u = Ret 8192 s' /\
  user_ok s' [PA; PB] ex_own [PD] 0 PD 108192.
Proof.
  destruct (sbrk_grows_lazily ex_u [PA; PB] ex_own [PD] 0 PD 8192 100000 ex_user) as (s' & E & _ & Hu & _); [lia|].
  exists s'. exact (conj E Hu).
Defined.

Lemma growproc_shrinks_witness : exists s' l' own',
  growproc (-5000) ex_u = Ret 0 s' /\ user_ok s' l' own' [PD] 0 PD 3192.
Proof.
  destruct (growproc_shrinks ex_u [PA; PB] ex_own [PD] 0 PD 8192 (-5000) ex_user) as (s' & l' & own' & E & Hu & _); [lia..|].
  exists s', l', own'. exact (conj E Hu).
Defined.

Lemma sbrk_to_zero_loses_memory_witness : exists s' l' own',
  sbrk_body (-8192) ex_u = Ret (-1) s' /\ user_ok s' l' own' [PD] 0 PD 8192 /\
  ubyte (v_mem (k_vm s')) PD 3 = None /\ PU ∈ l'.
Proof.
  destruct (sbrk_to_zero_loses_memory ex_u [PA; PB] ex_own [PD] 0 PD 8192 ex_user)
    as (s' & l' & own' & E & Hu & Hv & Hl); [lia|].
  exists s', l', own'. split; [exact E|]. clear E. split; [exact Hu|]. split; [apply Hv; lia|].
  apply Hl. exists 0, (V2P PU + 7). by vm_compute.
Defined.

(** ** Process operations *)

Lemma wakeup_wakes_exactly_witness : exists k' qs', wakeup (Some ChTicks) ex_k = Ret tt k' /\
  pt_inv (k_pt k') qs' /\ qs' NORM_PRIO = [1%nat; 2%nat].
Proof.
  destruct (wakeup_wakes_exactly ex_k ex_qs ex_hw_wf eq_refl ex_good ex_inv (Some ChTicks))
    as (k' & qs' & E & Hi & Hq & _).
  exists k', qs'. split; [exact E|]. clear E. split; [exact Hi|]. rewrite Hq. by vm_compute.
Defined.

Lemma setprio_moves_witness : exists k', setprio 2 HI_PRIO ex_k = Ret 0 k' /\
  pt_inv (k_pt k') (upd (upd ex_qs NORM_PRIO []) HI_PRIO [1%nat]).
Proof.
  destruct (setprio_moves ex_k ex_qs ex_hw_wf eq_refl ex_good ex_inv 2 HI_PRIO 1 [] []) as (k' & E & Hi & _).
  - by left.
  - by vm_compute.
  - by vm_compute.
  - by vm_compute.
  - by vm_compute.
  - exists k'. exact (conj E Hi).
Defined.

Lemma kill_marks_unused_entry_witness : exists k1 k2,
  kill 0 ex_k = Ret 0 k1 /\ alloc_claim k1 = Ret (Some 0%nat) k2 /\
  p_state (pt_proc (k_pt k2) 0%nat) = EMBRYO /\ p_killed (pt_proc (k_pt k2) 0%nat) = true.
Proof.
  apply (kill_marks_unused_entry ex_k ex_hw_wf eq_refl ex_good 0); by vm_compute.
Defined.

(** ** Pipes *)

(** Three bytes in the buffer, the write counter about to wrap around. *)
Definition ex_pipe : pipe := mkPipe (fun i => u8 i) (2 ^ 32 - 2) 1 true true.
Definition ex_fs : fstate unit := mkFs (fun _ => file0) (fun _ => ex_pipe) (fun _ => sleep0) tt.

Lemma piperead_copies_witness : exists k' q,
  piperead_copy (user_put 100) 3 0 2 0 (ex_u, ex_fs) = Ret 2 (k', put_pipe ex_fs 0 q) /\ contents q = [0].
Proof.
  set (k' := after ex_u (ustore_bytes 100 0 [254; 255] ex_u)).
  destruct (piperead_copies 0 100 2 ex_u k' ex_fs) as (q & E & _ & Hq).
  - by split; vm_compute.
  - lia.
  - by apply after_Ret.
  - exists k', q. exact (conj E Hq).
Defined.

Lemma pipewrite_appends_witness : exists q k',
  pipewrite_loop (user_load 0) 4 0 3 0 (ex_u, ex_fs) = Ret true (k', put_pipe ex_fs 0 q) /\ contents q = [254; 255; 0; 0; 0; 0].
Proof.
  set (k' := after ex_u (uload_bytes 0 0 3 ex_u)).
  destruct (pipewrite_appends 0 0 3 ex_u k' ex_fs [0; 0; 0]) as (q & E & _ & Hq).
  - by split; vm_compute.
  - lia.
  - by vm_compute.
  - by apply after_Ret.
  - exists q, k'. exact (conj E Hq).
Defined.

(** A writer of 600 bytes that goes to sleep on the full pipe, and a reader of 5. *)
Definition ex_w0 : world (list Z * list Z) :=
  (ex_u, mkFs (fun _ => file0) (fun _ => mkPipe (fun _ => 0) (2 ^ 32 - 1) (2 ^ 32 - 1) true true) (fun _ => sleep0) ([], [])).
Definition ex_w1 : world (list Z * list Z) := after ex_w0 (pipewrite (noted_load 0) 0 600 ex_w0).
Definition ex_w2 : world (list Z * list Z) := (ex_u, ex_w1.2).
Definition ex_w3 : world (list Z * list Z) := after ex_w2 (piperead (noted_put 100) 0 5 ex_w2).

Lemma pipe_other_step (p : Z) (w : world (list Z * list Z)) k : pipe_step p w (k, w.2).
Proof. by apply P_other. Qed.

