(* ===== verification/FsWitness.v ===== *)
(** * Concrete instances of the theorems on the file system

    A process on a machine with two CPUs, a disk of 1000 blocks whose log starts
    at block 2 and whose bitmap, for 100 blocks, is block 50, and a cache in which
    buffer 0 has block 40. *)
From S2P Require Import Prelude Machine ProcQueue StringC Spinlock Kalloc Vm VmInv VmSpec VmFrame Proc RunQueue ProcRun Sched SchedSys UserMem Trap ProcSpec FsState Pipe Sleeplock Disk Bio Log FsLogic BufList Cache LogSpec LogCrash LogWrite Fs PathSpec BallocSpec File FileRef Exec Sysfile Ide Console Kbd Cmos Kernel ConsoleSpec Witness.

(** ** A process that runs *)

Definition fx_proc : proc :=
  set_p_pid 5 (set_p_kstack (KERNBASE + 0x200000) (set_p_pgdir PD (set_p_sz 8192 (set_p_state RUNNING (set_p_priority NORM_PRIO proc0))))).
Definition fx_pt : ptable := mkPt (upd (fun _ => proc0) 0%nat fx_proc) (fun _ => None).
Definition fx_k : kst := mkK (mkVm ex_uhw ex_mem true PA 0) fx_pt 6 None 0 true.

Lemma fx_inv : pt_inv fx_pt (fun _ => []).
Proof.
  split; simpl.
  - split; simpl; [done|by intros pr i ?%not_elem_of_nil|]. intros i _. rewrite upd_case. by case_decide.
  - by intros pr i ?%not_elem_of_nil.
  - intros i _. rewrite upd_case. by case_decide.
  - intros i _. rewrite upd_case. unfold prio_ok. case_decide; auto.
Qed.

Lemma fx_calm : calm 0 5 fx_k.
Proof.
  split; try done; [apply ex_uhw_wf|by apply elem_of_seq; unfold NPROC; lia|].
  split; [by eexists; apply fx_inv|]. intros i _. unfold live. simpl. rewrite upd_case. case_decide; [done|].
  intros Hl. simpl in Hl. naive_solver.
Qed.

(** ** The disk and the cache *)

Definition fx_data : block := fun _ => 7.
Definition fx_disk (n : Z) : block :=
  if decide (n = 1) then store32 (store32 (fun _ => 0) 12 30) 16 2
  else if decide (n = 50) then (fun a => if a <? 8 then 255 else if a =? 8 then 3 else 0) else fun _ => 0.

(** The list of buffers is 0, 1, ..., 29. *)
Definition fx_buf (x : buf) (b : nat) : buf :=
  set_b_next (if (b =? HEAD)%nat then 0%nat else S b) (set_b_prev (if (b =? 0)%nat then HEAD else pred b)
    (if (b =? 0)%nat then x else mkBuf 0 0 0 0 0 0 None (fun _ => 0))).
Definition fx_log (n : Z) : logst := mkLog 2 30 1 false 1 n (fun _ => 40).
Definition fx_fs (x : buf) (held : bool) (n : Z) : fstate low :=
  mkFs (fun _ => file0) (fun _ => ex_pipe) (fun l => if decide (l = SLbuf 0) then mkSleep held (if held then 5 else 0) else sleep0)
    (mkLow (fx_buf x) (fx_log n) (fun _ => mkInode 0 0 0 false 0 0 0 0 0 (fun _ => 0)) (mkSb 100 0 0 30 2 0 50) fx_disk 1000
       None false [] (mkCons true false (mkInput (fun _ => 0) 0 0 0) (fun _ => 0) 0 true) []).

Lemma fx_ring x held n : ring (bufs_of (fx_fs x held n)) bufs.
Proof. unfold ring, bufs_of. simpl. by vm_compute. Qed.

Lemma fx_bufs b : b ∈ bufs -> (b < 30)%nat.
Proof. unfold bufs, NBUF. rewrite elem_of_seq. lia. Qed.

(** Buffer 0 has block 40, with [d] in it; it is held, or dirty, or as the disk. *)
Lemma fx_cache (held drt : bool) d n : held = true \/ drt = true \/ d = fx_disk 40 ->
  let flags := if drt then Z.lor B_VALID B_DIRTY else B_VALID in
  cache 5 (fx_fs (mkBuf flags 1 40 (if held then 1 else 0) 0 0 None d) held n) (upd fx_disk 40 d)
    (if drt then [40] else []) (if held then [0%nat] else []).
Proof.
  intros Hd flags. set (x := mkBuf _ _ _ _ _ _ _ _). set (f := fx_fs x held n).
  assert (forall b, b <> 0%nat -> bufs_of f b = fx_buf x b /\ b_dev (fx_buf x b) = 0 /\ b_flags (fx_buf x b) = 0 /\ b_refcnt (fx_buf x b) = 0) as Hz.
  { intros b Hb. split; [done|]. unfold fx_buf. by rewrite (proj2 (Nat.eqb_neq b 0)). }
  assert (forall b, b ∈ (if held then [0%nat] else []) -> b = 0%nat /\ held = true) as Hh.
  { intros b. destruct held; [by intros ->%list_elem_of_singleton|by intros ?%not_elem_of_nil]. }
  assert (forall m, m ∈ (if drt then [40] else []) -> m = 40 /\ drt = true) as Hp.
  { intros m. destruct drt; [by intros ->%list_elem_of_singleton|by intros ?%not_elem_of_nil]. }
  split.
  - exists bufs. split; [apply fx_ring|done].
  - intros b _. destruct (decide (b = 0%nat)) as [->|Hb].
    + split.
      * simpl. unfold flags. destruct drt; auto.
      * simpl. destruct held; [done|by intros ?%not_elem_of_nil].
      * simpl. destruct held; [|done]. intros Hn. exfalso. apply Hn. by left.
      * intros _. split; [|done]. unfold valid. simpl. unfold flags. by destruct drt.
      * unfold dirty. simpl. unfold flags. destruct drt; [|done]. intros _. split; [done|by left].
      * intros _. by split; vm_compute.
    + destruct (Hz b Hb) as (-> & E1 & E2 & E3). split; unfold valid, dirty; rewrite ?E1, ?E2, ?E3; try done; [auto| |].
      * by intros [-> _]%Hh.
      * intros _. split; [done|]. simpl. rewrite decide_False by congruence. done.
  - intros b1 b2 _ _ E1 E2 _. destruct (decide (b1 = 0%nat)) as [->|H1], (decide (b2 = 0%nat)) as [->|H2]; try done.
    + destruct (Hz b2 H2) as (E & E' & _). congruence.
    + destruct (Hz b1 H1) as (E & E' & _). congruence.
    + destruct (Hz b1 H1) as (E & E' & _). congruence.
  - split; [destruct held; [apply NoDup_singleton|apply NoDup_nil_2]|].
    intros b [-> _]%Hh. apply elem_of_seq. unfold NBUF. lia.
  - split; [destruct drt; [apply NoDup_singleton|apply NoDup_nil_2]|].
    intros m [-> Ed]%Hp. exists 0%nat. split_and!; [apply elem_of_seq; unfold NBUF; lia|done|done|].
    unfold dirty. simpl. unfold flags. by rewrite Ed.
  - intros m Hm Hn. change (disk_of f) with fx_disk. rewrite upd_case. case_decide as E; [|done]. subst m.
    destruct Hd as [Hd|[Hd|Hd]]; rewrite Hd in *; [|exfalso; apply Hm; by left|done].
    exfalso. apply (Hn 0%nat); [by left|done].
Qed.

Lemma bwrite_bread_witness : exists b k' f',
  (let* b := bread (H := memide) 1 40 in
   buf_upd b (fun x => set_b_data (fun _ => 9) x) ;;; bwrite (H := memide) b ;;; brelse b ;;; bread (H := memide) 1 40)
    (fx_k, fx_fs (mkBuf B_VALID 1 40 0 0 0 None (fx_disk 40)) false 0) = Ret b (k', f') /\
  b_data (bufs_of f' b) = (fun _ => 9).
Proof.
  destruct (bwrite_bread (H := memide) 0 5 (fx_fs (mkBuf B_VALID 1 40 0 0 0 None (fx_disk 40)) false 0) (upd fx_disk 40 (fx_disk 40)) [] [] 40
    (fun _ _ => 9)) with (k := fx_k) as (b & k' & f' & E & _ & _ & Hd & _).
  - apply (fx_cache false false). auto.
  - by split; vm_compute.
  - by intros b ?%not_elem_of_nil.
  - unfold NBUF. simpl. lia.
  - apply fx_calm.
  - exists b, k', f'. exact (conj E Hd).
Defined.

Lemma fx_log_ok x held bl n : bl = [] /\ n = 0 \/ bl = [40] /\ n = 1 -> log_ok (fx_fs x held n) (fx_log n) bl.
Proof.
  intros [[-> ->]|[-> ->]]; split; try done; unfold in_log; simpl; try (unfold LOGSIZE, MAXOPBLOCKS; lia).
  - apply NoDup_nil_2.
  - by intros m ?%not_elem_of_nil.
  - by intros [|[|]] m; intros [= <-].
  - apply NoDup_singleton.
  - intros m ->%list_elem_of_singleton. split; [by split; vm_compute|lia].
Qed.

(** The cache has block 40 as the disk has it. *)
Definition fx_clean : fstate low := fx_fs (mkBuf B_VALID 1 40 0 0 0 None (fx_disk 40)) false 0.
Lemma fx_clean_cache : cache 5 fx_clean fx_disk [] [].
Proof. rewrite <- (upd_id fx_disk 40 (fx_disk 40) eq_refl). apply (fx_cache false false). auto. Qed.
Lemma fx_in_tx : in_tx 5 fx_clean fx_disk [].
Proof. split; [apply fx_clean_cache|apply fx_log_ok; auto|done]. Qed.

Lemma log_write_absorbs_witness : exists k' f',
  foreach [(40, fun _ => fx_data); (41, fun _ => fx_data); (40, fun d => upd d 0 8)] (update (H := memide)) (fx_k, fx_clean) = Ret tt (k', f') /\
  (fun i => lg_block (l_log (fs_low f')) i) <$> seqZ 0 (lg_n (l_log (fs_low f'))) = [40; 41].
Proof.
  destruct (log_write_absorbs (H := memide) 0 5 fx_clean fx_disk [] [(40, fun _ => fx_data); (41, fun _ => fx_data); (40, fun d => upd d 0 8)]
    fx_in_tx) with (k := fx_k) as ([] & k' & f' & E & _ & _ & Hl & _).
  - intros u Hu. assert (u.1 = 40 \/ u.1 = 41) as Hu1.
    { rewrite !elem_of_cons in Hu. destruct Hu as [->|[->|[->|Hu]]]; [by left|by right|by left|by apply elem_of_nil in Hu]. }
    change (nblocks fx_clean) with 1000. unfold in_log. simpl. lia.
  - simpl. lia.
  - apply fx_calm.
  - exists k', f'. exact (conj E Hl).
Defined.

Definition fx_idle : fstate low := put_log fx_clean (set_lg_outstanding 0 (fx_log 0)).

Lemma log_space_one_short_witness :
  (begin_op ;;; begin_op ;;; begin_op ;;; foreach ((fun n => (n, fun _ : block => fx_data)) <$> seqZ 100 30) (update (H := memide))) (fx_k, fx_idle)
  = Panic "too big a transaction".
Proof.
  apply (log_space_one_short (H := memide) 0 5 fx_idle).
  - apply cache_put_log, fx_clean_cache.
  - destruct (it_log _ _ _ _ _ fx_in_tx). by split.
  - done.
  - done.
  - done.
  - done.
  - rewrite <- list_fmap_compose. apply NoDup_fmap_2; [by intros x y|apply NoDup_seqZ].
  - intros u (n & -> & Hn%elem_of_seqZ)%list_elem_of_fmap. change (nblocks fx_idle) with 1000. unfold in_log. simpl. lia.
  - apply fx_calm.
Defined.

(** ** Block allocation: block 66 is the first free one *)

Lemma fx_is_free n : 0 <= n < 100 -> is_free (mkSb 100 0 0 30 2 0 50) fx_disk n = (66 <=? n).
Proof.
  intros Hn. assert (forallb (fun n => eqb (is_free (mkSb 100 0 0 30 2 0 50) fx_disk n) (66 <=? n)) (seqZ 0 100) = true) as Hall by by vm_compute.
  rewrite forallb_forall in Hall. apply eqb_prop, Hall. apply list_elem_of_In, elem_of_seqZ. lia.
Qed.
Lemma fx_bblock n : 0 <= n < 100 -> BBLOCK n (mkSb 100 0 0 30 2 0 50) = 50.
Proof. intros Hn. unfold BBLOCK, u32. simpl. rewrite Z.div_small by (unfold BPB, BSIZE; lia). done. Qed.

Lemma fx_bitmap : bitmap_ok fx_clean fx_disk.
Proof.
  split; change (l_sb (fs_low fx_clean)) with (mkSb 100 0 0 30 2 0 50); change (nblocks fx_clean) with 1000; cbn [sb_size].
  - lia.
  - intros n Hn. rewrite fx_bblock by done. unfold in_log. simpl. lia.
  - intros n Hn. rewrite fx_is_free by done. intros Hf%Z.leb_le. split; [unfold in_log; simpl; lia|].
    intros m Hm. rewrite fx_bblock by done. lia.
Qed.

Lemma balloc_correct_witness : exists k' f', balloc (H0 := memide) 1 (fx_k, fx_clean) = Ret 66 (k', f').
Proof.
  destruct (balloc_correct (H := memide) 0 5 fx_clean fx_disk [] fx_in_tx fx_bitmap) as [Hb _].
  - simpl. lia.
  - destruct Hb with (k := fx_k) as (n & k' & f' & E & _ & cont' & _ & Hn & Hf & Hl & _).
    + exists 66. split; [change (sb_size (l_sb (fs_low fx_clean))) with 100; lia|]. by rewrite fx_is_free.
    + apply fx_calm.
    + change (sb_size (l_sb (fs_low fx_clean))) with 100 in Hn. rewrite fx_is_free in Hf by lia. apply Z.leb_le in Hf.
      assert (n = 66) as ->; [|by exists k', f'].
      destruct (decide (n = 66)) as [|Hne]; [done|]. specialize (Hl 66 ltac:(lia)). by rewrite fx_is_free in Hl.
Defined.

(** ** A transaction *)

Definition fx_tx : fstate low := fx_fs (mkBuf (Z.lor B_VALID B_DIRTY) 1 40 0 0 0 None fx_data) false 1.

Lemma fx_layout : layout 1000 2 30.
Proof. split; unfold outside, LOGSIZE, MAXOPBLOCKS; lia. Qed.

Lemma fx_transaction : transaction 1000 2 30 5 fx_tx (upd fx_disk 40 fx_data) [40].
Proof.
  split; try done.
  - apply (fx_cache false true). auto.
  - apply fx_log_ok. auto.
  - split; [by split; vm_compute|]. by intros ?%list_elem_of_singleton.
Qed.

Lemma end_op_crash_atomic_witness : exists k' f' ws, end_op (H := memide) (fx_k, fx_tx) = Ret tt (k', f') /\
  l_writes (fs_low f') = ws /\
  forall g, powered_on 1000 (replay fx_disk (take 2 ws)) g ->
    runs 0 5 (boot (H := memide)) (fun _ g' => disk_of g' 40 = fx_data) g.
Proof.
  destruct (end_op_crash_atomic (H := memide) 1000 2 30 fx_layout 0 5 0 5 fx_tx (upd fx_disk 40 fx_data) [40] fx_transaction)
    with (k := fx_k) as ([] & k' & f' & E & _ & ws & Hw & _ & Hcr).
  - done.
  - done.
  - done.
  - apply fx_calm.
  - exists k', f', ws. split; [exact E|]. clear E. split; [exact Hw|]. intros g Hg.
    eapply runs_mono; [apply (Hcr 2%nat _ g (crash_op _ _ _ _ _ _) Hg)|]. intros u g' Hm.
    rewrite (Hm 40); [done|]. unfold outside. lia.
Defined.

(** ** Sleep locks *)

Definition fx_w : world low := (fx_k, fx_fs (mkBuf B_VALID 1 40 0 0 0 None (fx_disk 40)) false 0).

Lemma fx_acquires : exists w1, acquiresleep (SLinode 3) fx_w = Ret tt w1.
Proof. exists (after fx_w (acquiresleep (SLinode 3) fx_w)). apply after_Ret. by vm_compute. Qed.

Lemma sleeplock_mutual_exclusion_witness : exists w1, acquiresleep (SLinode 3) fx_w = Ret tt w1 /\
  fs_sleep w1.2 (SLinode 3) = mkSleep true 5.
Proof.
  destruct fx_acquires as [w1 E]. exists w1. split; [exact E|].
  destruct (sleeplock_mutual_exclusion (mkSl fx_w (fun _ => [])) (mkSl w1 (upd (fun _ => []) (SLinode 3) [5])) (SLinode 3))
    as (_ & Hh & _).
  - done.
  - intros l. unfold fx_w. cbn [sy_w snd fs_sleep fx_fs]. by case_decide.
  - apply rtc_once. apply (SL_acquire (SLinode 3) fx_w w1 (fun _ => []) 5); [apply ex_uhw_wf|by exists 0%nat|exact E].
  - cbn [sy_w sy_hold] in Hh. apply (Hh 5). rewrite upd_eq. by left.
Defined.

(** ** Paths and the file table *)

(** "/ab//c": slashes around the elements "ab" and "c". *)
Lemma skipelem_elements_witness : walks [47; 97; 98; 47; 47; 99] name0 [[97; 98]; [99]].
Proof.
  destruct (skipelem_elements [47; 97; 98; 47; 47; 99] name0) as [Hw _]; [|exact Hw].
  rewrite !not_elem_of_cons. split_and!; try done. apply not_elem_of_nil.
Defined.

Lemma fx_filealloc : exists w1, filealloc fx_w = Ret (Some 0%nat) w1.
Proof. exists (after fx_w (filealloc fx_w)). apply after_Ret. by vm_compute. Qed.

Lemma file_refcounts_witness : exists w1, filealloc fx_w = Ret (Some 0%nat) w1 /\ f_ref (fs_file w1.2 0%nat) = 1.
Proof.
  destruct fx_filealloc as [w1 E]. exists w1. split; [exact E|].
  destruct (file_refcounts (mkFt fx_w []) (mkFt w1 [0%nat])) as [Hu _].
  - done.
  - done.
  - apply rtc_once. by apply FT_alloc.
  - apply (Hu 0%nat). apply elem_of_seq. unfold NFILE. lia.
Defined.

(** ** The console *)

(** A CRT controller with its registers, all 0 at first, and a serial line that is always ready; other ports read 0. *)
Definition pc_read (a : Z) (d : list event) : Z :=
  if a =? CRTPORT + 1 then crt_reg (fun _ => 0) (crt_sel d) d else if a =? COM1 + 5 then 0x20 else 0.
#[local] Instance pc_ports : Ports := {|
  inb a := fun w => Ret (pc_read a (dev_of w.2)) (note (EvIn a (pc_read a (dev_of w.2))) w);
  outb a v := fun w => Ret tt (note (EvOut a v) w);
  insl _ := ret (fun _ => 0); outsl _ _ := ret tt; ioapicenable _ _ := ret tt;
|}.
Lemma crt_reg_byte r d : 0 <= crt_reg (fun _ => 0) r d < 256.
Proof. induction d as [|[] d IH]; simpl; try done. destruct (_ && _); [apply Z.mod_pos_bound; lia|done]. Qed.
#[local] Instance pc_ports_ok : PortsOk.
Proof.
  apply (Build_PortsOk _ (fun _ => 0)).
  - intros a w. exists (pc_read a (dev_of w.2)). split; [done|]. unfold pc_read. destruct (a =? CRTPORT + 1); [apply crt_reg_byte|].
    destruct (a =? COM1 + 5); lia.
  - done.
  - intros w w' v E. by injection E as <- _.
Defined.

(** Inode 3 is the console, locked by the process; the indices of the input buffer
    are about to wrap around. *)
Definition fx_tty : fstate low :=
  put_cons (set_fs_low (set_l_inode (fun _ => mkInode 1 7 1 true T_DEV CONSOLE 0 1 0 (fun _ => 0)) (fs_low fx_clean))
    (put_sleep fx_clean (SLinode 3) (mkSleep true 5)))
    (mkCons true false (mkInput (fun _ => 0) (2 ^ 32 - 2) (2 ^ 32 - 2) (2 ^ 32 - 2)) (fun _ => 0) 0 true).

(** "hi", backspace, "o", return *)
Definition fx_keys : list Z := [104; 105; 8; 111; 13].
#[local] Instance fx_memide : BlockDev := memide.
Notation fx_session := (wacquire Lcons ;;; foreach fx_keys (fun c => consoleintr_char c ;;; ret tt) ;;; wrelease Lcons ;;;
  consoleread append [] 3 (Z.of_nat 10)).

Lemma fx_tty_shows : shows (cn_input (cons_of fx_tty)) (mkLines [] []).
Proof. split; simpl; try done; lia. Qed.

Lemma console_line_discipline_witness : exists k' f', fx_session (fx_k, fx_tty) = Ret (3, [104; 111; 10]) (k', f') /\
  shows (cn_input (cons_of f')) (mkLines [] []) /\ on_screen (dev_of f').
Proof.
  destruct (console_line_discipline 0 5 3 fx_tty (mkLines [] []) fx_keys 10 [104; 111; 10] []) with (k := fx_k)
    as (r & k' & f' & E & _ & Er & Hs).
  - reflexivity.
  - by vm_compute.
  - apply fx_tty_shows.
  - apply not_elem_of_nil.
  - unfold fx_keys. repeat constructor; lia.
  - reflexivity.
  - simpl. lia.
  - reflexivity.
  - lia.
  - reflexivity.
  - apply fx_calm.
  - rewrite Er in E. exists k', f'. exact (conj E Hs).
Defined.

(** ** A page fault of the kernel without free memory *)

#[local] Existing Instance ex_symbols.
#[local] Instance fx_devsw : DevSw := console_devsw.
#[local] Instance fx_devices : Devices (fstate low) := {|
  dv_ideintr := ret tt; dv_kbdintr := ret tt; dv_uartintr := ret tt; dv_lapiceoi := ret tt; dv_cmostime _ := ret tt;
|}.
#[local] Existing Instance kernel_files.
#[local] Instance fx_sysfile : SysFile (fstate low) := kernel_sysfile (fun _ => 0).
(** The trap frame of an instruction of the kernel. *)
Definition fx_tf : trapframe := set_tf_trapno T_PGFLT (set_tf_cs 8 tf0).

Lemma kernel_fault_livelock_witness : exists s', fault_again 100 5000 fx_tf (ex_full, fx_clean) = Ret tt (s', fx_clean) /\
  mmu_entry 5000 s' = Ret None s' /\ p_killed (pt_proc (k_pt s') 0%nat) = true /\ uload8_loop 1000 5000 ex_full = Spin.
Proof.
  destruct (kernel_fault_livelock fx_tf ex_full fx_clean ex_own [PD] 0 PD 8192 5000) as [Hf Hl].
  - reflexivity.
  - reflexivity.
  - apply ex_full_user.
  - by vm_compute.
  - lia.
  - by vm_compute.
  - destruct (Hf 99%nat) as (s' & E & Em & _ & Hp). exists s'. split; [exact E|]. split; [exact Em|]. split; [by rewrite Hp|apply Hl].
Defined.
