(* ===== verification/UserWitness.v ===== *)
(** * Instances of the theorems on user programs, mkfs and the POSIX exercises

    Each lemma applies a theorem at a concrete input where its hypotheses hold. *)
From Stdlib Require Import String.
From stdpp Require Import gmap.
From S2P Require Import Prelude Machine Disk Fs Umalloc UmallocSpec User Grep Utils Sh ShSpec ShPrint ShRun Posix MergeFiles MergeSpec ExecLines ExecSpec MergeTee MergeTeeSpec Mkfs Dinode MkfsSpec MkfsImage.

#[local] Instance ux_errtext : ErrText := [].

(** ** malloc *)

Definition ux_heap : uheap := mkHeap (fun _ => 0) 0 8192.

Lemma malloc_free_safe_witness : exists ap s', Umalloc.malloc 4096 100 ux_heap = Ret ap s'.
Proof.
  destruct (malloc_free_safe 4096 ux_heap ux_heap ∅ eq_refl) as [H _]; [lia|simpl; unfold KERNBASE; lia|apply rtc_refl|].
  destruct (H 100) as (ap & s' & E & _); [lia|]. exact (ex_intro _ ap (ex_intro _ s' E)).
Defined.

Lemma malloc_size_overflow_witness : exists ap s', Umalloc.malloc 4096 (2 ^ 32 - 1) ux_heap = Ret ap s' /\ ap <> 0.
Proof.
  destruct (malloc_size_overflow 4096 ux_heap ux_heap ∅ (2 ^ 32 - 1) eq_refl) as (ap & s' & E & Hne & _);
    [lia|simpl; unfold KERNBASE; lia|apply rtc_refl|lia|simpl; unfold KERNBASE; lia|].
  exact (ex_intro _ ap (ex_intro _ s' (conj E Hne))).
Defined.

(** ** Library and tools *)

Definition ux_io (text : list Z) : uio :=
  mkUio (fun _ => mkStream [text] false) (fun _ => []) (fun _ => false) (fun _ => None) 3.

Lemma printf_atoi_roundtrip_witness : exists bs, printf 1 "%d" [PInt 42] (ux_io []) = URet tt (emit 1 bs (ux_io [])) /\ atoi bs = 42.
Proof. exact (printf_atoi_roundtrip 1 42 (ux_io []) ltac:(lia) eq_refl). Defined.

Lemma match_correct_witness : re_match (str "^a*b$") (str "aab") = true <-> text_lang (str "^a*b$") (str "aab").
Proof. apply match_correct; by vm_compute; repeat constructor. Defined.

Lemma grep_loses_partial_line_witness :
  grep (str "b") 0 (ux_io (str "ab")) = grep (str "b") 0 (set_u_in (upd (u_in (ux_io (str "ab"))) 0 (mkStream [] false)) (ux_io (str "ab"))).
Proof.
  apply (grep_loses_partial_line (str "b") 0 (ux_io (str "ab")) (str "ab") [] false).
  - reflexivity.
  - discriminate.
  - exact (bool_decide_unpack (10 ∉ str "ab") I).
  - simpl. lia.
Defined.

Definition ux_text : list Z := str "ab" ++ [10] ++ str "cd" ++ [10].

Lemma grep_selects_witness : exists s', grep (str "c") 0 (ux_io ux_text) = URet tt s' /\ u_out s' 1 = str "cd" ++ [10].
Proof.
  destruct (grep_selects (str "c") 0 ux_text false (ux_io ux_text)) as (s' & E & Ho).
  - reflexivity.
  - reflexivity.
  - by vm_compute; repeat constructor.
  - intros pre seg post Ht Hl. apply (f_equal length) in Ht. rewrite !length_app, Hl in Ht. simpl in Ht. lia.
  - exists s'. split; [exact E|]. rewrite Ho. reflexivity.
Defined.

Lemma wc_counts_witness : exists s', wc 0 (str "f") (ux_io ux_text) = URet tt s' /\ u_out s' 1 = str "2 2 6 f" ++ [10].
Proof.
  destruct (wc_counts 0 (str "f") (ux_io ux_text)) as (s' & E & Ho).
  - by vm_compute; repeat constructor.
  - reflexivity.
  - reflexivity.
  - simpl. lia.
  - by vm_compute; repeat constructor.
  - exists s'. split; [exact E|]. rewrite Ho. vm_compute. reflexivity.
Defined.

(** ** The shell *)

Definition ux_line : list Z := str "cat <in | wc; echo hi &".

Lemma parsecmd_well_formed_witness : match parsecmd ux_line with
  | POk (c, b) => wf_cmd ux_line c /\ forall w, w ∈ ShSpec.words c -> word_text (length ux_line) b w = stext w
  | PFail _ => True
  | PSpin => False
  end.
Proof. apply parsecmd_well_formed. by vm_compute; repeat constructor. Defined.

(** cat <in | wc *)
Definition ux_cmd : acmd := APipe (ARedir (AExec [str "cat"]) false (str "in")) (AExec [str "wc"]).

Lemma ux_valid : valid ux_cmd.
Proof. by repeat split; simpl; try lia; repeat constructor. Qed.

Lemma print_parse_roundtrip_witness : exists c b, parsecmd (print 3 ux_cmd) = POk (c, b) /\
  ShPrint.view (word_text (length (print 3 ux_cmd)) b) c = ux_cmd.
Proof. exact (print_parse_roundtrip ux_cmd ux_valid). Defined.

Definition ux_fds : gmap Z endp := {[0 := ShRun.Inherited 0; 1 := ShRun.Inherited 1; 2 := ShRun.Inherited 2]}.

Lemma ux_standard : ShRun.standard ux_fds.
Proof.
  intros i. unfold ux_fds. split.
  - intros [e He]. repeat (rewrite lookup_insert_Some in He; destruct He as [[<- _]|[_ He]]; [tauto|]). rewrite lookup_singleton_Some in He. lia.
  - by intros [->|[->| ->]]; eexists.
Qed.

Lemma runcmd_wires_witness : exists c b, parsecmd (print 3 ux_cmd) = POk (c, b) /\
  ShRun.run (runcmd (word_text (length (print 3 ux_cmd)) b) c) ux_fds 0 = spec ux_cmd ux_fds 0.
Proof. exact (runcmd_wires ux_cmd ux_fds 0 ux_valid ux_standard). Defined.

(** ** The POSIX exercises *)

(** A system with two files; the standard input has one piece. *)
Definition ux_a : stream := mkStream [str "a1" ++ [10] ++ str "a2"] false.
Definition ux_b : stream := mkStream [str "b1"; [10]] false.
Definition ux_px (text : list Z) : px :=
  mkPx (fun _ => mkStream [text] false) (fun _ => []) (fun _ => []) (fun _ => false) (fun _ => false)
    (fun p => if decide (p = str "a") then Some ux_a else if decide (p = str "b") then Some ux_b else None) (fun _ => true) 3.

Lemma merge_files_round_robin_witness : exists s',
  merge_main 20 (fun _ => true) (fun _ => false) (fun _ => true) (str "m") (mkGetopt [(116, str "2")] [str "a"; str "b"]) (ux_px [0]) = UExit 0 s' /\
  x_out s' 1 = str "a1" ++ [10] ++ str "b1" ++ [10] ++ str "a2".
Proof.
  destruct (merge_files_round_robin (fun _ => true) (fun _ => false) (fun _ => true) (str "m") (mkGetopt [(116, str "2")] [str "a"; str "b"]) (ux_px [0])
    (MergeFiles.mkConf 2 None [str "a"; str "b"]) (ux_px [0]) [ux_a; ux_b] 20) as (s' & E & Ho).
  - vm_compute. reflexivity.
  - by repeat constructor.
  - discriminate.
  - simpl. lia.
  - reflexivity.
  - reflexivity.
  - by apply Nat.ltb_lt; vm_compute.
  - exists s'. split; [exact E|]. transitivity (round_robin (s_bytes <$> [ux_a; ux_b])); [exact Ho|vm_compute; reflexivity].
Defined.

Definition ux_cmds : list Z := str "echo hi" ++ [10; 10] ++ str "ls  -l" ++ [10].

Lemma exec_lines_runs_commands_witness : exists e',
  exec_lines_main 30 (str "e") [(112, str "2")] (el_start (ux_px ux_cmds) []) = UExit 0 e' /\
  forked (e_trace e') = [Some [str "echo"; str "hi"]; Some [str "ls"; str "-l"]] /\ running 2 (e_trace e') = Some 0%nat.
Proof.
  destruct (exec_lines_runs_commands (str "e") [(112, str "2")] (ux_px ux_cmds) 2 30) as (_ & e' & E & Hf & Hr).
  - vm_compute. reflexivity.
  - by repeat constructor.
  - by apply (bool_decide_unpack (Forall (fun l : list Z => (length l < LINE_SIZE)%nat) (cmd_lines (to_char <$> ux_cmds)))); vm_compute.
  - by apply Nat.ltb_lt; vm_compute.
  - exists e'. split; [exact E|]. rewrite Hf. split; [vm_compute; reflexivity|exact Hr].
Defined.

Definition ux_table : gmap Z desc := {[0 := Inherited 0; 1 := Inherited 1; 2 := Inherited 2]}.
Definition ux_mt : mt := mkMt (ux_px [0]) ux_table 0 [] 0 [] [] [].

Lemma merge_tee_exec_wires_witness : exists s',
  merge_tee_main (str "t") [(108, str "log"); (112, str "3")] [str "a"; str "b"] ux_mt = UExit 0 s' /\ t_waited s' = 3%nat.
Proof.
  destruct (merge_tee_exec_wires (str "t") [(108, str "log"); (112, str "3")] [str "a"; str "b"] ux_mt
    (MergeTee.mkConf 1024 3 (Some (str "log")) [str "a"; str "b"]) (ux_px [0]) ux_table) as (s' & log & E & _ & _ & _ & Hw & _).
  - vm_compute. reflexivity.
  - by split.
  - intros k Hk. assert (k = 0 \/ k = 1 \/ k = 2) as [->|[->| ->]] by lia; discriminate.
  - reflexivity.
  - exists s'. exact (conj E Hw).
Defined.

(** ** mkfs *)

Definition ux_mk : mk := mkMk (ux_px [0]) zeros 0 1 0 (mkSb 0 0 0 0 0 0 0).

Lemma mkfs_builds_files_witness : exists s', mkfs_main (fun _ => true) [str "fs.img"; str "a"; str "b"] ux_mk = UExit 0 s' /\
  contents s' 2 = str "a1" ++ [10] ++ str "a2" /\ contents s' 3 = str "b1" ++ [10].
Proof.
  destruct (mkfs_builds_files (str "fs.img") [str "a"; str "b"] [ux_a; ux_b] ux_mk eq_refl eq_refl eq_refl) as (s' & E & _ & Hf & _).
  - simpl. lia.
  - repeat constructor; simpl; try done; unfold MAXFILE, NINDIRECT, NDIRECT, BSIZE; lia.
  - simpl. lia.
  - by apply Z.leb_le; vm_compute.
  - exists s'. split; [exact E|]. split; [apply (Hf 0%nat ux_a eq_refl)|apply (Hf 1%nat ux_b eq_refl)].
Defined.
