(* ===== verification/BootWitness.v ===== *)
(** * Instances of the theorems on the start of the machine

    Each lemma applies a theorem at a concrete machine where its hypotheses hold. *)
From stdpp Require Import gmap.
From S2P Require Import Prelude Machine ProcQueue StringC Spinlock Kalloc Vm VmFrame Proc RunQueue ProcRun Sched UserMem Trap FsState Pipe Sleeplock Disk Bio Log Fs File Exec Sysfile Ide Console Kbd Cmos Kernel ConsoleSpec Boot Apic Mp Start StartSpec FsWitness.

(** ** A disk with an image of one segment *)

#[local] Instance bx_ports : BootPorts ata := {|
  bp_in p d := (0x40, d);
  bp_out p v d := if p =? 0x1F7 then mkAta (at_regs d) (Some (ata_lba (at_regs d))) (at_disk d)
    else mkAta (upd (at_regs d) p v) None (at_disk d);
  bp_insl p n d := ((fun i => match at_data d with Some s => at_disk d s i | None => 0 end) <$> seqZ 0 512, mkAta (at_regs d) None (at_disk d));
|}.

#[local] Program Instance bx_disk : BootDisk ata 1 := {| bd_view d := d |}.
Next Obligation. done. Qed.
Next Obligation. intros d. exists 0%nat. split; [lia|done]. Qed.
Next Obligation. intros d p v Hp. simpl. rewrite (proj2 (Z.eqb_neq p _)) by lia. done. Qed.
Next Obligation. done. Qed.
Next Obligation. intros d n Hn. simpl. by rewrite Hn. Qed.

(** Entry 0x10000c; one program header at 52: three bytes at offset 4096 for address 0x100000, of five in memory. *)
Definition bx_img : Z -> Z :=
  blit (store32 (store32 (store32 (store32 (store32 (store32 (store32 (store32 (fun _ => 0) 0 ELF_MAGIC) 24 0x10000c) 28 52) 44 1)
    56 4096) 64 0x100000) 68 3) 72 5) 4096 [7; 8; 9].
Definition bx_dev : ata := mkAta (fun _ => 0) None (fun n i => bx_img ((n - 1) * 512 + i)).

Lemma bx_phdrs : phdrs bx_img (load32 bx_img 28) (Z.to_nat (load16 bx_img 44)) = [mkPhdr 4096 0x100000 3 5].
Proof. vm_compute. reflexivity. Qed.

Lemma bx_fits : ph_fits (mkPhdr 4096 0x100000 3 5) /\ ph_lo (mkPhdr 4096 0x100000 3 5) = 0x100000.
Proof. split; [split_and!; [done|done|right; done]|done]. Qed.

Lemma bootmain_loads_kernel_witness : exists m' d',
  bootmain 1 (mkBst (fun _ => 1) bx_dev) = Ret (Some 0x10000c) (mkBst m' d') /\
  m' 0x100002 = 9 /\ m' 0x100004 = 0 /\ m' 0x90000 = 1.
Proof.
  destruct (bootmain_loads_kernel (D := ata) 1 bx_img (fun _ => 1) bx_dev) as (m' & d' & E & Hs & Hf).
  - intros n i _ _. reflexivity.
  - vm_compute. reflexivity.
  - vm_compute. discriminate.
  - rewrite bx_phdrs. split; [constructor; [apply bx_fits|constructor]|]. intros i j p q Hij Hi Hj.
    apply lookup_lt_Some in Hi, Hj. simpl in Hi, Hj. lia.
  - exists m', d'. split; [exact E|]. rewrite bx_phdrs in Hs, Hf. destruct (Hs (mkPhdr 4096 0x100000 3 5)) as [H1 H2]; [left|].
    split; [exact (H1 2 ltac:(simpl; lia))|]. split; [exact (H2 4 ltac:(simpl; lia))|]. apply Hf; [unfold ELF_SCRATCH; lia|].
    constructor; [|constructor]. rewrite (proj2 bx_fits). lia.
Defined.

(** ** A machine with the tables of a BIOS *)

(** The floating pointer structure at 0xF0000 and the configuration table at 0x1000: two processors, a bus (or an
    entry of type [t]) and an I/O APIC with id 7; the checksums make the sums zero. *)
Definition mx_mp : list Z := [95; 77; 80; 95; 0; 16; 0; 0; 1; 4; 144; 0; 0; 0; 0; 0].
Definition mx_conf (t ck : Z) : list Z :=
  [80; 67; 77; 80; 100; 0; 4; ck] ++ replicate 28 0 ++ [0; 0; 224; 254; 0; 0; 0; 0] ++ replicate 20 0 ++
  [0; 1] ++ replicate 18 0 ++ [t] ++ replicate 7 0 ++ [2; 7] ++ replicate 6 0.
Definition mx_mem (t ck : Z) : mem := blit (blit (fun _ => 0) (P2V 0xF0000) mx_mp) (P2V 0x1000) (mx_conf t ck).

Definition mx_input : input := mkInput (fun _ => 0) 0 0 0.
Definition mx_low : low := mkLow (fun _ => mkBuf 0 0 0 0 0 0 None (fun _ => 0)) (mkLog 0 0 0 false 0 0 (fun _ => 0))
  (fun _ => mkInode 0 0 0 false 0 0 0 0 0 (fun _ => 0)) (mkSb 0 0 0 0 0 0 0) (fun _ _ => 0) 0 None false []
  (mkCons false false mx_input (fun _ => 0) 0 false) [].
Definition mx_fs : fstate low := mkFs (fun _ => file0) (fun _ => mkPipe (fun _ => 0) 0 0 false false) (fun _ => mkSleep false 0) mx_low.
Definition mx_ctl : ctl := mkCtl 0 0 0 (fun _ => mkGate 0 0 0 0 0 0 0 0 0) (fun _ => false).
Definition mx_sys (h : hw) (m : mem) : sys :=
  ((mkK (mkVm h m false 0 0) ptable0 1 None 0 true, mx_fs), mx_ctl).
Definition mx_hw : hw := mkHw (fun _ => cpu0) 0 0 (fun _ => lock0).

#[local] Existing Instances pc_ports pc_ports_ok.

Lemma mpinit_reads_table_witness : exists s', mpinit 5 (mx_sys mx_hw (mx_mem MPBUS 127)) = Ret tt s' /\
  hw_ncpu (sys_cpus s') = 2%nat /\ c_apicid (hw_cpus (sys_cpus s') 1) = 1 /\ ct_ioapicid s'.2 = 7 /\ ct_lapic s'.2 = 0xFEE00000.
Proof.
  destruct (mpinit_reads_table 5 (mx_sys mx_hw (mx_mem MPBUS 127)) (P2V 0xF0000) (P2V 0x1000) [Eproc 0; Eproc 1; Ebus; Eioapic 7])
    as (s' & E & H1 & H2 & H3 & H4 & H5).
  - vm_compute. reflexivity.
  - reflexivity.
  - repeat split; vm_compute; reflexivity.
  - simpl. lia.
  - exists s'. split; [rewrite E; vm_compute; reflexivity|]. split; [exact H3|]. split; [apply H4; [reflexivity|unfold NCPU; lia]|].
    split; [exact H2|exact H1].
Defined.

Lemma mpinit_unknown_entry_hangs_witness : mpinit 1000 (mx_sys mx_hw (mx_mem 9 119)) = Spin.
Proof.
  apply (mpinit_unknown_entry_hangs 1000 (mx_sys mx_hw (mx_mem 9 119)) (P2V 0xF0000) (P2V 0x1000) [Eproc 0; Eproc 1] (P2V 0x1000 + 84)).
  - vm_compute. reflexivity.
  - repeat split; vm_compute; reflexivity.
  - vm_compute. reflexivity.
  - vm_compute. reflexivity.
Defined.

(** ** Two CPUs *)

(** A local APIC whose registers read what the CPU last wrote to them, with the delivery status clear. *)
Fixpoint apic_word (c : nat) (a : Z) (d : list event) : Z :=
  match d with
  | [] => 0
  | EvWrite c' a' v :: d' => if bool_decide (c' = c) && (a' =? a) then v else apic_word c a d'
  | _ :: d' => apic_word c a d'
  end.
Definition apic_read (a : Z) (w : W) : Z := Z.ldiff (apic_word (hw_me (k_hw w.1)) a (hist w)) DELIVS.
#[local] Instance mx_mmio : Mmio := {|
  mm_read a := fun w => Ret (apic_read a w) (note (EvRead (hw_me (k_hw w.1)) a (apic_read a w)) w);
  mm_write a v := fun w => Ret tt (note (EvWrite (hw_me (k_hw w.1)) a v) w);
|}.
#[local] Instance mx_apic : ApicOk 2.
Proof.
  apply (Build_ApicOk _ 2 (fun _ => O)); [intros w; lia| |done]. intros a w. exists (apic_read a w). split; [done|].
  unfold apic_read, has. intros E. apply negb_true_iff, Z.eqb_neq in E. destruct E. apply Z.bits_inj'. intros i Hi.
  rewrite Z.land_spec, Z.ldiff_spec, Z.bits_0. by destruct (Z.testbit _ i), (Z.testbit _ i).
Defined.

#[local] Program Instance mx_symbols : Symbols := {
  sym_data := KERNBASE + 0x102000; sym_end := KERNBASE + 0x110000; sym_forkret := KERNBASE + 0x101000; sym_trapret := KERNBASE + 0x101100;
}.
Next Obligation. by vm_compute. Qed.
Next Obligation. done. Qed.
Next Obligation. by vm_compute. Qed.

Definition mx_hw2 : hw := mkHw (fun i => set_c_apicid (Z.of_nat i) cpu0) 2 0 (fun _ => lock0).

(** The kernel's image is at 1 MB, with that of entryother.S at [img]; one page is free, at 2 MB. *)
Definition mx_img : Z := KERNBASE + 0x100500.
Definition mx_page : Z := KERNBASE + 0x200000.
Definition mx_boot : sys := ((mkK (mkVm mx_hw2 (blit (fun _ => 0) mx_img [250; 49; 192]) false mx_page 0) ptable0 1 None 0 true, mx_fs), mx_ctl).

Lemma startothers_starts_all_witness : exists s', startothers pc_ports 2 mx_img 3 (KERNBASE + 0x103000) (KERNBASE + 0x109000) mx_boot = Ret tt s' /\
  c_started (hw_cpus (sys_cpus s') 1) = true /\ starts (hist s'.1) = [(1, mx_page + 4096)].
Proof.
  destruct (startothers_starts_all 2 mx_img 3 (KERNBASE + 0x103000) (KERNBASE + 0x109000) mx_boot [mx_page]) as (s' & E & K & Hs & Hh).
  - lia.
  - by vm_compute.
  - by vm_compute.
  - by vm_compute.
  - split; [split; simpl; intros; lia|done|done].
  - split; [by vm_compute|apply NoDup_singleton].
  - repeat constructor. by vm_compute.
  - intros c Hc. simpl in *. lia.
  - intros c Hc page. done.
  - simpl. lia.
  - intros c Hc. done.
  - exists s'. split; [exact E|]. split; [apply Hs; simpl; by left|exact Hh].
Defined.

(** ** An I/O APIC whose registers are kept in memory from [IOAPIC + 0x100] on *)

Definition ix_cell (w : W) (a : Z) : Z := v_mem (k_vm w.1) a.
Definition ix_get (a : Z) : M W Z := fun w => Ret (ix_cell w a) w.
Definition ix_put (a v : Z) : M W unit := fun w => Ret tt (set_k_vm (set_v_mem (upd (v_mem (k_vm w.1)) a v) (k_vm w.1)) w.1, w.2).
Definition ix_reg (w : W) (r : Z) : Z := if r <? 0 then 0 else ix_cell w (IOAPIC + 0x100 + r).
#[local] Instance ix_mmio : Mmio := {|
  mm_read a := fun w => Ret (ix_reg w (ix_cell w IOAPIC)) w;
  mm_write a v := if a =? IOAPIC then ix_put IOAPIC v else let* r := ix_get IOAPIC in ix_put (IOAPIC + 0x100 + r) v;
|}.

#[local] Instance ix_ioapic : IoapicOk.
Proof.
  apply (Build_IoapicOk _ (fun w => ix_cell w IOAPIC) ix_reg).
  - intros r w. eexists. split; [reflexivity|]. split; [apply upd_eq|]. extensionality x. unfold ix_reg, ix_cell. simpl.
    destruct (x <? 0) eqn:E; [done|]. apply Z.ltb_ge in E. by rewrite upd_ne by lia.
  - intros w. by exists w.
  - intros v w Hs. eexists. split; [reflexivity|]. unfold REG_TABLE in Hs. split; [unfold ix_cell; simpl; apply upd_ne; unfold ix_cell in *; lia|].
    extensionality x. unfold ix_reg, ix_cell in *. simpl. unfold upd. destruct (x <? 0) eqn:E; bool_to_prop; repeat case_decide; try lia; done.
Defined.

Definition ix_w : W := (mx_sys mx_hw2 (upd (fun _ => 0) (IOAPIC + 0x101) 0x170000)).1.

Lemma ioapic_routes_enabled_witness : exists w',
  (ioapicinit ;;; foreach [(IRQ_KBD, 0); (IRQ_IDE, 1)] (fun e => ioapicenable IOAPIC e.1 e.2)) ix_w = Ret tt w' /\
  io_entry w' IRQ_IDE = (46, 0x1000000) /\ io_entry w' IRQ_COM1 = (0x10024, 0).
Proof.
  destruct (ioapic_routes_enabled [(IRQ_KBD, 0); (IRQ_IDE, 1)] ix_w) as (w' & E & Hr).
  - repeat constructor; simpl; unfold IRQ_KBD, IRQ_IDE; lia.
  - exists w'. split; [exact E|]. split; rewrite Hr; vm_compute; reflexivity.
Defined.
