(* ===== verification/ImageWitness.v ===== *)
(** * Instances of the theorems on files, paths and the image of mkfs

    A disk with a root directory that has one file, and an image that mkfs builds. *)
From Stdlib Require Import String.
From S2P Require Import Prelude Machine User Posix Mkfs Dinode MkfsSpec MkfsImage UserWitness ProcQueue StringC Spinlock Kalloc Vm VmFrame Proc RunQueue ProcRun Sched UserMem Trap FsState Pipe Sleeplock Disk Bio Log Fs FsLogic BufList Cache LogSpec LogCrash LogWrite BallocSpec PathSpec InodeSpec DirSpec BmapSpec WriteSpec ImageBoot Witness FsWitness.

#[local] Instance ix_errtext : ErrText := [].
#[local] Existing Instance memide.
#[local] Instance ix_devsw : DevSw := {| devsw_read := fun _ => None; devsw_write := fun _ => None |}.

(** ** A disk with one file *)

Definition ix_addrs (b : Z) : Z -> Z := fun i => if i =? 0 then b else 0.
(** Inode 1 is the root, with its entry in block 60; inode 2 is the file, in block 61. *)
Definition ix_disk (n : Z) : block :=
  if n =? 32 then store_dinode (store_dinode (fun _ => 0) 64 (mkDinode T_DIR 0 0 1 16 (ix_addrs 60))) 128 (mkDinode T_FILE 0 0 1 3 (ix_addrs 61))
  else if n =? 60 then blit (fun _ => 0) 0 (dirent 2 (str "f"))
  else if n =? 61 then blit (fun _ => 0) 0 (str "abc")
  else fun _ => 0.
(** Entry 0 of the cache has the file. *)
Definition ix_inode : inode := loaded (mkInode 1 2 1 true 0 0 0 0 0 (fun _ => 0)) (load_dinode (ix_disk 32) 128).
Definition ix_itable (i : nat) : inode := if (i =? 0)%nat then ix_inode else mkInode 0 0 0 false 0 0 0 0 0 (fun _ => 0).
Definition ix_fs (d : Z -> block) (it : nat -> inode) : fstate low :=
  mkFs (fun _ => file0) (fun _ => ex_pipe) (fun _ => sleep0)
    (mkLow (fx_buf (mkBuf 0 0 0 0 0 0 None (fun _ => 0))) (fx_log 0) it (mkSb 1000 0 200 30 2 32 58) d 1000
       None false [] (mkCons true false (mkInput (fun _ => 0) 0 0 0) (fun _ => 0) 0 true) []).
Definition ix_f : fstate low := ix_fs ix_disk ix_itable.

Lemma ix_zeroed d it : zeroed (ix_fs d it).
Proof.
  intros b Hb%fx_bufs. unfold bufs_of. simpl. unfold fx_buf. destruct (b =? 0)%nat; done.
Qed.
Lemma ix_view : fsview 5 ix_f ix_disk [] [] ix_itable (fun _ => sleep0) ix_f.
Proof.
  split; try done; [|by intros b ?%elem_of_nil]. apply (empty_cache 5 ix_f bufs); [|done|apply ix_zeroed|done].
  unfold ring, bufs_of. by vm_compute.
Qed.

Lemma ix_block addrs b : addrs 0 = b -> 0 < b < 1000 -> forall off n, 0 <= off -> off + n <= 512 -> has_bytes ix_f ix_disk addrs off n.
Proof.
  intros Ha Hb off n Ho Hn k Hk1 Hk2. change (nblocks ix_f) with 1000. assert (k = 0) as -> by (unfold BSIZE in *; Z.div_mod_to_equations; lia).
  split; [by vm_compute|]. unfold file_block_at. simpl. rewrite Ha. split; [done|]. intros Hc. exfalso. unfold NDIRECT in Hc. lia.
Qed.

Lemma readi_reads_file_witness : exists k' f', readi put_local [] 0 1 10 (fx_k, ix_f) = Ret (2, str "bc") (k', f').
Proof.
  destruct (readi_reads_file 0 5 ix_f ix_disk [] ltac:(unfold NBUF; simpl; lia) ix_itable (fun _ => sleep0) ix_f 0%nat 1 10 ix_view)
    with (k := fx_k) as (r & k' & f' & E & _ & _ & Hr).
  - reflexivity.
  - by vm_compute.
  - by vm_compute.
  - lia.
  - lia.
  - by apply (ix_block _ 61).
  - apply fx_calm.
  - exists k', f'. rewrite E, Hr. by vm_compute.
Defined.

Lemma ix_icache : icache_ok ix_f ix_disk ix_itable.
Proof.
  split; intros i; unfold ix_itable; destruct (i =? 0)%nat; simpl; try lia. intros _. by split.
Qed.
Lemma ix_first : first_entry ix_f ix_disk (disk_inode ix_f ix_disk 1) (str "f") 0 2.
Proof.
  split; [by vm_compute|..].
  - by apply (ix_block _ 60).
  - intros o Ho. lia.
  - by vm_compute.
  - by vm_compute.
Qed.

Lemma namei_reaches_witness : exists ip k' f', namei (str "/f") (fx_k, ix_f) = Ret (Some ip) (k', f') /\
  i_inum (l_inode (fs_low f') ip) = 2.
Proof.
  destruct (namei_reaches 0 5 ix_f ix_disk [] ltac:(unfold NBUF; simpl; lia) ix_itable (fun _ => sleep0) ix_f (str "/f") 2 ix_icache)
    with (k := fx_k) as (r & k' & f' & E & _ & ip & X & L' & -> & Hv & _ & Hi & _).
  - exists 1%nat, 2%nat. unfold inodes, NINODE. rewrite !elem_of_seq. split_and!; try done; lia.
  - apply ix_view.
  - done.
  - done.
  - apply chars_bytes. by vm_compute; repeat constructor.
  - by vm_compute; repeat constructor.
  - change (elements (str "/f")) with [str "f"]. eapply reaches_entry; [|apply ix_first|apply reaches_here]. by split; vm_compute.
  - apply fx_calm.
  - exists ip, k', f'. split; [exact E|]. by rewrite (vw_inode _ _ _ _ _ _ _ _ Hv).
Defined.

(** ** Writing to the file: 600 bytes after its three *)

(** The same disk with a bitmap in block 50, in which block 66 is the first free one, and an operation of the log. *)
Definition wx_disk (n : Z) : block := if n =? 50 then fx_disk 50 else ix_disk n.
Definition wx_sb : superblock := mkSb 100 0 8 30 2 32 50.
Definition wx_f : fstate low :=
  mkFs (fun _ => file0) (fun _ => ex_pipe) (fun _ => sleep0)
    (mkLow (fx_buf (mkBuf 0 0 0 0 0 0 None (fun _ => 0))) (fx_log 0) ix_itable wx_sb wx_disk 1000
       None false [] (mkCons true false (mkInput (fun _ => 0) 0 0 0) (fun _ => 0) 0 true) []).
Definition wx_bytes : list Z := replicate 600 65.

Lemma wx_is_free n : 0 <= n < 100 -> is_free wx_sb wx_disk n = (66 <=? n).
Proof.
  intros Hn. assert (forallb (fun n => eqb (is_free wx_sb wx_disk n) (66 <=? n)) (seqZ 0 100) = true) as Hall by by vm_compute.
  rewrite forallb_forall in Hall. apply eqb_prop, Hall. apply list_elem_of_In, elem_of_seqZ. lia.
Qed.
Lemma wx_bblock n : 0 <= n < 100 -> BBLOCK n wx_sb = 50.
Proof. apply fx_bblock. Qed.
Lemma wx_iblock i : 0 <= i < 8 -> IBLOCK i wx_sb = 32.
Proof. intros Hi. unfold IBLOCK. rewrite Z.div_small by (change IPB with 8; lia). done. Qed.
Lemma wx_on_bitmap m : on_bitmap wx_f m -> m = 50.
Proof. intros (n & Hn & <-). by apply wx_bblock. Qed.

Lemma wx_in_tx : in_tx 5 wx_f wx_disk [].
Proof.
  split; [|by destruct (fx_log_ok (mkBuf 0 0 0 0 0 0 None (fun _ => 0)) false [] 0 ltac:(auto))|done].
  apply (empty_cache 5 wx_f bufs); [by unfold ring, bufs_of; vm_compute|done| |done].
  intros b Hb%fx_bufs. unfold bufs_of. simpl. unfold fx_buf. by destruct (b =? 0)%nat.
Qed.

Lemma wx_disk_ok : disk_ok wx_f wx_disk.
Proof.
  split; [split|..]; change (l_sb (fs_low wx_f)) with wx_sb; change (nblocks wx_f) with 1000; cbn [sb_size wx_sb].
  - lia.
  - intros n Hn. rewrite wx_bblock by done. unfold in_log. simpl. lia.
  - intros n Hn. rewrite wx_is_free by done. intros Hf%Z.leb_le. split; [unfold in_log; simpl; lia|].
    intros m Hm. rewrite wx_bblock by done. lia.
  - intros n Hn. rewrite wx_is_free by done. intros Hf%Z.leb_le. split; [lia|]. intros i Hi. rewrite wx_iblock by done. lia.
  - intros i Hi. rewrite wx_iblock by done. unfold in_log. simpl. split_and!; [lia..|]. by intros ?%wx_on_bitmap.
Qed.

Lemma wx_slot k : is_slot k -> fslot wx_disk (i_addrs ix_inode) k = if k =? 0 then 61 else 0.
Proof.
  intros Hk. assert (forallb (fun k => fslot wx_disk (i_addrs ix_inode) k =? if k =? 0 then 61 else 0) (seqZ (-1) 141) = true) as Hall by by vm_compute.
  rewrite forallb_forall in Hall. apply Z.eqb_eq, Hall. apply list_elem_of_In, elem_of_seqZ. unfold is_slot in Hk. change MAXFILE with 140 in Hk. lia.
Qed.

Lemma wx_inv : file_inv wx_f wx_disk ix_inode.
Proof.
  split; [by vm_compute..| | |].
  - split.
    + intros k Hk. rewrite wx_slot by done. destruct (k =? 0); [right|by left]. split; change (l_sb (fs_low wx_f)) with wx_sb; cbn [sb_size wx_sb].
      * lia.
      * by rewrite wx_is_free.
      * unfold in_log. simpl. lia.
      * by intros ?%wx_on_bitmap.
      * intros i Hi. rewrite wx_iblock by done. lia.
    + intros k l Hk Hl. rewrite !wx_slot by done. destruct (k =? 0) eqn:E1, (l =? 0) eqn:E2; bool_to_prop; lia.
  - intros k Hk Hs. change (i_size ix_inode) with 3 in Hs. assert (k = 0) as -> by (unfold BSIZE in Hs; lia). by vm_compute.
  - transitivity (load_dinode (ix_disk 32) 128); [|by split_and!]. unfold disk_inode.
    change (i_inum ix_inode) with 2. rewrite wx_iblock by lia. done.
Qed.

Lemma writei_writes_file_witness : exists k' f' cont', writei fetch_local wx_bytes 0 3 600 (fx_k, wx_f) = Ret (600, []) (k', f') /\
  let x' := l_inode (fs_low f') 0%nat in file_bytes cont' (i_addrs x') 0 (i_size x') = str "abc" ++ wx_bytes.
Proof.
  destruct (writei_writes_file 0 5 wx_f wx_disk [] 0 3 wx_bytes) with (k := fx_k) as (r & k' & f' & E & _ & cont' & bl' & x' & Hr & _ & _ & Hi & _ & _ & Hw & _).
  - by apply Z.leb_le; vm_compute.
  - by apply Z.leb_le; vm_compute.
  - apply wx_in_tx.
  - apply wx_disk_ok.
  - apply wx_inv.
  - by vm_compute.
  - by apply Z.leb_le; vm_compute.
  - by repeat constructor.
  - by apply Z.ltb_lt; vm_compute.
  - by apply Z.leb_le; vm_compute.
  - apply fx_calm.
  - exists k', f', cont'. split; [rewrite Hr in E; exact E|]. rewrite Hi, upd_eq. pose proof (wn_bytes _ _ _ _ _ _ _ Hw) as Hb. cbv zeta in *. rewrite Hb.
    by vm_compute.
Defined.

(** ** An image of mkfs *)

Lemma mkfs_boot_reads_back_witness : exists s' k' g', mkfs_main (fun _ => true) [str "fs.img"; str "a"; str "b"] ux_mk = UExit 0 s' /\
  boot_and_read (str "/b") 512 (fx_k, ix_fs (mk_disk s') (fun _ => mkInode 0 0 0 false 0 0 0 0 0 (fun _ => 0))) = Ret (3, str "b1" ++ [10]) (k', g').
Proof.
  destruct (mkfs_boot_reads_back 0 5 (str "fs.img") [str "a"; str "b"] [ux_a; ux_b] ux_mk eq_refl eq_refl eq_refl) as (s' & E & Hrun).
  - simpl. lia.
  - repeat constructor; simpl; try done; unfold MAXFILE, NINDIRECT, NDIRECT, BSIZE; lia.
  - simpl. lia.
  - by apply Z.leb_le; vm_compute.
  - by vm_compute; repeat constructor.
  - by vm_compute; repeat constructor.
  - destruct (Hrun (ix_fs (mk_disk s') (fun _ => mkInode 0 0 0 false 0 0 0 0 0 (fun _ => 0))) 1%nat (str "b") ux_b (str "/b") 512) with (k := fx_k)
      as (r & k' & g' & Er & _ & Hr).
    + split; [apply ix_zeroed|reflexivity|reflexivity|reflexivity|vm_compute; reflexivity].
    + reflexivity.
    + reflexivity.
    + by vm_compute.
    + by vm_compute.
    + intros [|j'] f' Hj Hf; [injection Hf as <-; by vm_compute|lia].
    + reflexivity.
    + by vm_compute; repeat constructor.
    + reflexivity.
    + lia.
    + apply fx_calm.
    + exists s', k', g'. split; [exact E|]. rewrite Er, Hr. by vm_compute.
Defined.
